(* ===== verification/_CoqProject ===== *)
-Q . S2P
Prelude.v
GoValue.v
Sha256.v
Policy.v
Auth.v
Finops.v
Breaker.v
Json.v
Numbers.v
StepIdentity.v
Checkpoint.v
CheckpointStore.v
Program.v
AgentRegistry.v
FinopsLedger.v
ToolCalls.v
ToolExec.v
ToolExecutions.v
ToolGateway.v
ToolOnce.v
Providers.v
ModelGateway.v
ModelApi.v
RunController.v
RunApi.v
ChatApi.v
Secrets.v
KillSwitch.v
A2A.v
Delegations.v
Egress.v
Executor.v
Hmac.v
MemoryStore.v
MemoryApi.v
Decode.v
Vendors.v
CompatAdapter.v
CompatStream.v
ToolRegistry.v
ToolSources.v
Federation.v
Catalog.v
Mcp.v
Prometheus.v
Rag.v
Html.v
Tempo.v
Console.v
FileTools.v
FinopsPage.v
Quality.v
CheckpointRoutes.v
RegistryRoutes.v
Abom.v
WebSearch.v
Sandbox.v
HttpServer.v
Startup.v
Migrations.v
ToolStartup.v
Cli.v
Publish.v
