(* ===== verification/Prelude.v ===== *)
(** * Aeon: a verification development of the agent harness's Go core

    Aeon governs agents. A tool call goes through the tool gateway, which knows
    the caller, asks Cedar, executes at most once per idempotency key and records
    what it did; a model call goes through the model gateway, which holds the
    run's budget, routes it among providers and records what it paid; the journal
    of a run is what it is resumed from; a run itself is a Temporal workflow
    behind the run controller. This library models that core from go/internal/ and
    go/cmd/ and proves what each part promises the others.

    ** The files, what they model, what they show

    Shared ground.
    - Prelude: Go's (value, error) pairs as [result], loops with early return, sums,
      grouping, the tactics and hints the other files use.
    - GoValue: [any] over the dynamic types the program switches on, float64 as
      IEEE-754 binary64 ([spec_float]), 64-bit integers with their wrap-around,
      byte strings; what the Go specification leaves open is the class [GoRuntime].
    - Numbers: strconv: integers printed and read, the float nearest to a decimal
      literal, and which integers a float holds.
    - Sha256: crypto/sha256, executable.
    - Json: encoding/json's documents and UTF-8, and Postgres's jsonb as a class
      with its documented laws.
    - Program: a handler as a tree of calls ([prog]); the same tree run alone, in a
      deterministic world, or interleaved with others by a scheduler that may stop
      any of them for good ([pool_step]).

    Who may do what.
    - Auth (auth/auth.go, load.go): a bundle that loads holds valid callers with
      distinct ids and tokens, exactly those declared; with a bundle per tenant
      every caller is of the tenant whose file declares it.
    - Policy (policy/disposition.go, cedar.go, registry.go): a call is allowed
      exactly when Cedar allows it and every determining policy that declares a
      disposition declares allow; what a refusal means; what a bundle that loads
      guarantees.

    The journal.
    - Checkpoint, CheckpointStore (checkpoint/checkpoint.go, store/checkpointer.go):
      appends under the run's lock, with every failure of the database: sequence
      numbers are contiguous and unique, records are neither changed nor lost, a
      retry is one record; loading returns what the next append continues
      (a refinement); an outcome survives jsonb.

    Tools.
    - ToolCalls, ToolExec, ToolExecutions, ToolGateway, ToolOnce
      (toolexec/executor.go, store/tool_executions.go, store/tool_invocations.go,
      api/tool_gateway_handlers.go, api/run_tenant.go): requests interleaved one
      statement at a time, any of which may fail before or after taking effect:
      one execution per key at a time, at most one that succeeds, and a replay is
      that one's result; a denial is journalled; a tool runs only for an entitled
      caller, and what happens to a claim nobody owns.

    Models and money.
    - Providers, ModelGateway (providers/provider.go, normalization.go, streaming.go,
      throttled.go, modelgateway/bundle.go, gateway.go, streaming.go,
      unsendable.go): the first usable candidate serves, each one before it is passed
      over for what it answered, restricted data stays in network, a stream never
      splices two candidates.
    - Finops, FinopsLedger, AgentRegistry (finops/, store/finops_ledger.go,
      store/agent_registry.go): prices, ceilings, reconciliation; the aggregates of
      the ledger agree with each other and with its rows; a version is immutable
      and, when operations are served one by one, its lifecycle goes through its stages in
      order, each because that transition was asked for.
    - ModelApi, ChatApi (api/model_gateway_handlers.go,
      openai_compatible_handlers.go, openai_compatible_streaming.go): a request of a
      run that reached its ceiling asks nobody; every paid answer is recorded;
      requests served one after another overshoot by one at most; a stream that
      breaks leaves no row.
    - Breaker (circuitbreaker/breaker.go): the rolling window refines its contract.

    Runs and approvals.
    - StepIdentity (stepidentity/stepidentity.go): accepted steps with one hash are
      one step, integers included, or SHA-256 collides; every integer of a step that is
      accepted is written exactly, and a step is refused only for a number doubles do
      not hold; a literal with a fraction may still fold.
    - RunController (runcontroller/controller.go): every operation over Temporal's
      client; a status is well formed; a failure is read from ten levels of causes.
    - RunApi (api/run_controller_handlers.go): a run is reached by its own tenant
      only; each exact history of a decision, signalled once and then journalled once; a
      stream shows what Temporal answers and ends when that is a closed run; two
      decisions at once can leave the journal with the later one.

    Secrets, and stopping an agent.
    - Secrets (secrets/broker.go, secretref/secretref.go,
      api/secret_broker_handlers.go, toolexec/secrets_tool.go): a reference resolves
      exactly as the history of operations granted it (a refinement); what a process
      takes from its environment is what it was started with, however often.
    - KillSwitch (api/circuit_breaker_handlers.go): the breaker, the registry and the
      broker composed: what an answered quarantine means, and how one tenant's
      reports trip another's version.

    Delegation to remote agents.
    - A2A (a2a/taskstate.go, egress.go): the state relayed to a caller is one of the
      protocol's, the remote's own where it is known.
    - Delegations (store/a2a_delegations.go, remote_agents.go): opening a slot is a
      transaction, statement by statement among those of other connections; the
      fan-out limit holds under every interleaving and every failure.
    - Egress (api/a2a_egress_handlers.go): what is forwarded is governed, denials are
      recorded, and every slot is reported on; a refusal by the remote keeps it. The
      redirects of net/http's client are part of the model ([client_do]), so a declared
      remote is shown to send a delegation on to any address.
    - Executor (a2a/agentcard.go, executor.go): a task served to others is a run of
      ours: its events are those of the run's states, ended by one final event.

    Memory.
    - Hmac (crypto/hmac, executable), MemoryStore (store/memory_store.go,
      memory_pipeline.go, memory_forgetting.go, memory_security.go): what is active
      passed its gates, a hash and a MAC cover exactly what they are computed from,
      forgetting revokes exactly what decayed; a rejected memory can come back.
    - MemoryApi (api/memory_handlers.go): no route reaches another tenant's memory.

    Model vendors.
    - Decode (encoding/json into structs: unknown members skipped, null left alone,
      names compared without case), Vendors (providers/upstream_error.go, openai/,
      anthropic/, gemini/), CompatAdapter, CompatStream (openai_compatible/): an
      answer comes from a 200 alone, what an upstream refused is quoted by its
      problem type only, no tool call is lost; the events of a stream are well
      nested and carry what the chunks said, as the whole answer would.

    Tools of others.
    - ToolRegistry (store/tool_registry.go), ToolSources, Federation (toolsource/):
      a bundle is accepted exactly when it is well formed; a tool is served only as
      it was approved, digest for digest; each discovered tool is accounted for.
    - Catalog, Mcp (mcp/): the tools offered are those of the newest row of each name; a
      call over MCP is governed like one over HTTP, and each of its histories is given
      with the rows it files.

    The built-in tools.
    - FileTools (toolexec/repository_tool.go, artifact_tool.go): what a range of lines
      reads, which roots pass the check, and that an artifact is read from its tenant's
      directory only; a root's answers are arbitrary.
    - WebSearch (websearch/, toolexec/websearch_tool.go): hits are the instance's, and
      what an empty answer means. Sandbox (sandbox/sandbox.go, toolexec's shell.exec):
      every container created is removed, also when the deadline passes, against a daemon
      that heeds deadlines and force; all but the removal is under a deadline.
    - Rag (rag/, store/rag_store.go): chunks cite their bytes, a document is indexed
      wholly or not at all, a search stays in its corpus.
    - Prometheus (providers/prometheus_inference/): tokens, completions, embeddings and
      catalogue over the platform's SDK; a decision asks once.

    What is shown to people.
    - Html (html/template's escaping of text), Tempo (tempoclient/), Console
      (api/console_handlers.go), FinopsPage (api/finops_handlers.go), Quality
      (store/quality_scores.go and its routes), CheckpointRoutes and RegistryRoutes
      (api/checkpoint_handlers.go, registry_handlers.go): the figures shown are the
      ledger's, an acknowledged entry is read back, the last report decides a model's
      standing, and which routes stay in their caller's tenant (the console does not).

    Processes.
    - HttpServer (httpserver/, auth/load.go): the server every binary builds: nothing but
      the two probes is reached without a declared caller's token.
    - Migrations (store/migrations.go, postgres.go): any number of services starting at
      once, of any versions, with statements that fail and services that die, one call
      at a time ([mstep]): the schema is one contiguous history; a start without faults
      ends up to date or refused.
    - Startup (cmd/aeon-modelgw), ToolStartup (cmd/aeon-toolgw): the providers of the
      model gateway, and the tools, limits and tenant of the tool gateway, are exactly
      those their environments configure; the model gateway exits at the first of the
      faults listed there and starts when there is none.
    - Abom (abom/abom.go with base64 and hex), Cli (cmd/aeon/main.go, dx002.go), Publish
      (dx002.go, fnd002.go): a signed bill of materials verifies, changing it is forging;
      what validate, eval list, init and replay answer; a publish writes one verifiable
      document at most, and none before a server of ours, since it sends no token.

    ** How to read a model

    A Go function that returns (T, error) returns [result]; the error keeps the data
    its message interpolates, not the wording. A handler is a [prog] whose calls are
    the statements sent to the database, the questions to a provider, a tool or
    Temporal, and the rows logged; pure decisions between calls are plain functions.
    [histories] are a program's complete runs for arbitrary replies, so a theorem
    about them holds whatever the other side answers. A request is what the
    middleware leaves: caller, header, decoded body. A message sent upstream is what is
    handed to net/http's client; its redirects are opened up in Egress only. Mutexes and transactions with
    an advisory lock make their body one step (in Delegations the lock is modelled and
    the step is proved); nothing else is atomic.

    Code outside src/ is a parameter: Cedar, the YAML decoder, Postgres (classes
    [Postgres], [PostgresLaws], [SqlOrder], its hashtext a function), Temporal's client
    and data converter, the names of the A2A library's states ([TaskStates]),
    the JSON canonicalizer (its hypothesis is RFC 8785's), the MCP library's reading of
    content, providers, sources and tools; the platform's SDK, pgvector ([PgVector]),
    the Docker daemon, ed25519 ([Ed25519] with its laws), the YAML and JSON Schema
    libraries of the command line ([Documents]), what an os.Root answers. Of the standard library, what is not computed
    here is a class too: the order of equal elements in a sort, float-to-integer
    conversion out of range, the shortest printing of a float, quoting of non-plain
    text, the text of a JSON document and back ([Wire], [TextLaws]), net/url ([Urls]), where
    a redirect leads and what is of one site ([Redirects]), math.Pow.

    Integers: [int] and [int64] are [Z] with [wrap64] where the code can wrap, SQL
    INTEGER overflow is an error of the query, Go's float arithmetic rounds once per
    operation. Fuel: SHA-256 takes one unit per sixteen words of the padded message;
    the cause chain is cut at ten levels by the code itself; the run stream's fuel
    is the number of looks at the run, and [StillOpen] is shown to mean that many looks
    found it unfinished; the fuel of a task's poll is the same; that of a provider's
    stream is the number of lines read, and one more than the body has is shown to be
    enough. All other recursion is structural.

    ** Not modelled, and why

    Tracing (tracing/), logs and the wording of most messages, which nothing decides on.
    What a migration's SQL does: it is a text run once. The main functions of
    cmd/aeon-controlplane and aeon-runcontroller, and how the gateways mount their routes:
    each opens the store (Migrations), takes its secrets (Secrets), mounts the routes of
    the files above and serves them behind HttpServer. The walk of [aeon rag index] over a
    directory. The Python worker is another program; its signals and queries are
    Temporal's replies. *)

From stdpp Require Export base tactics gmap strings list fin_maps sorting.
From Stdlib Require Import SpecFloat.

(** ** Fallible code: Go's [(value, error)] pairs *)

(** A Go function returning [(T, error)] returns exactly one of the two; the
    error type is per component and keeps the data the message interpolates. *)
Inductive result (E A : Type) : Type :=
| Ok (a : A)
| Err (e : E).
Arguments Ok {E A} a.
Arguments Err {E A} e.

#[export] Instance result_ret E : MRet (result E) := @Ok E.
#[export] Instance result_bind E : MBind (result E) := λ A B f r,
  match r with Ok a => f a | Err e => Err e end.
#[export] Instance result_map E : FMap (result E) := λ A B f r,
  match r with Ok a => Ok (f a) | Err e => Err e end.

Definition is_ok {E A} (r : result E A) : bool :=
  match r with Ok _ => true | Err _ => false end.

(** A guard: [if cond { return ..., err }]. *)
Definition reject_if {E} (b : bool) (e : E) : result E () :=
  if b then Err e else Ok tt.

(** A [for] loop over a slice that threads a state and returns early on error. *)
Fixpoint fold_res {E T A} (f : T → A → result E T) (s : T) (l : list A) : result E T :=
  match l with
  | [] => Ok s
  | x :: l => match f s x with Ok s' => fold_res f s' l | Err e => Err e end
  end.

(** The same loop with the element's index, for [for i, x := range l]. *)
Fixpoint ifold_res {E T A} (f : nat → T → A → result E T) (i : nat) (s : T) (l : list A)
  : result E T :=
  match l with
  | [] => Ok s
  | x :: l => match f i s x with Ok s' => ifold_res f (S i) s' l | Err e => Err e end
  end.

Section result_lemmas.
Context {E : Type}.

Lemma bind_Ok {A B} (r : result E A) (f : A → result E B) b :
  (r ≫= f) = Ok b ↔ ∃ a, r = Ok a ∧ f a = Ok b.
Proof. destruct r; split; [eauto | by intros (? & [= <-] & ?) | done | by intros (? & ? & ?)]. Qed.

Lemma reject_if_Ok b (e : E) u : reject_if b e = Ok u ↔ b = false.
Proof. destruct b, u; simpl; naive_solver. Qed.

(** The invariant rule of the early-return loop. *)
Lemma fold_res_inv {T A} (P : T → Prop) (f : T → A → result E T) l s s' :
  (∀ s x s', x ∈ l → P s → f s x = Ok s' → P s') →
  P s → fold_res f s l = Ok s' → P s'.
Proof.
  intros Hstep Hs. revert s Hs Hstep.
  induction l as [|x l IH]; simpl; intros s Hs Hstep Hf; [by simplify_eq|].
  destruct (f s x) as [s1|] eqn:Hx; [|done].
  eapply IH; [| |exact Hf].
  - eapply Hstep; [left|exact Hs|exact Hx].
  - intros; eapply Hstep; [by right| |]; done.
Qed.

Lemma fold_res_app {T A} (f : T → A → result E T) l1 l2 s :
  fold_res f s (l1 ++ l2) = (fold_res f s l1 ≫= λ s', fold_res f s' l2).
Proof.
  revert s. induction l1 as [|x l1 IH]; intros s; simpl; [done|].
  destruct (f s x); [apply IH|done].
Qed.

(** A loop invariant that also sees the prefix already consumed. *)
Lemma fold_res_prefix {T A} (P : list A → T → Prop) (f : T → A → result E T) l s s' :
  (∀ pre x s s', P pre s → f s x = Ok s' → P (pre ++ [x]) s') →
  P [] s → fold_res f s l = Ok s' → P l s'.
Proof.
  intros Hstep Hs Hf.
  assert (∀ pre s, P pre s → fold_res f s l = Ok s' → P (pre ++ l) s') as Hgen.
  { clear s Hs Hf. induction l as [|x l IH]; simpl; intros pre s Hs Hf.
    - simplify_eq. by rewrite app_nil_r.
    - destruct (f s x) as [s1|] eqn:Hx; [|done].
      replace (pre ++ x :: l) with ((pre ++ [x]) ++ l) by by rewrite <-app_assoc.
      eapply IH; eauto. }
  exact (Hgen [] s Hs Hf).
Qed.

Lemma ifold_res_prefix {T A} (P : list A → T → Prop) (f : nat → T → A → result E T) l i s s' :
  (∀ i pre x s s', P pre s → f i s x = Ok s' → P (pre ++ [x]) s') →
  P [] s → ifold_res f i s l = Ok s' → P l s'.
Proof.
  intros Hstep Hs Hf.
  assert (∀ i pre s, P pre s → ifold_res f i s l = Ok s' → P (pre ++ l) s') as Hgen.
  { clear i s Hs Hf. induction l as [|x l IH]; simpl; intros i pre s Hs Hf.
    - simplify_eq. by rewrite app_nil_r.
    - destruct (f i s x) as [s1|] eqn:Hx; [|done].
      replace (pre ++ x :: l) with ((pre ++ [x]) ++ l) by by rewrite <-app_assoc.
      eapply IH; eauto. }
  exact (Hgen i [] s Hs Hf).
Qed.
End result_lemmas.

(** ** Lists *)

(** Elements of a list whose keys are distinct are determined by their key. *)
Lemma NoDup_fmap_eq {A B} (f : A → B) l x y :
  NoDup (f <$> l) → x ∈ l → y ∈ l → f x = f y → x = y.
Proof.
  intros Hnd [i Hi]%list_elem_of_lookup_1 [j Hj]%list_elem_of_lookup_1 Hf.
  assert (i = j) as ->; [|congruence].
  eapply NoDup_lookup; [exact Hnd| |]; rewrite list_lookup_fmap; [by rewrite Hi|].
  rewrite Hj. simpl. by rewrite Hf.
Qed.

Lemma Forall2_elem_l {A B} (R : A → B → Prop) l k x :
  Forall2 R l k → x ∈ l → ∃ y, y ∈ k ∧ R x y.
Proof.
  induction 1 as [|x' y' l k Hxy _ IH]; [by intros ?%not_elem_of_nil|].
  rewrite elem_of_cons. intros [->|(y & Hy & HR)%IH].
  - exists y'. split; [left|done].
  - exists y. split; [by right|done].
Qed.
Lemma Forall2_elem_r {A B} (R : A → B → Prop) l k y :
  Forall2 R l k → y ∈ k → ∃ x, x ∈ l ∧ R x y.
Proof. intros HR%Forall2_flip Hy. by apply (Forall2_elem_l _ _ _ _ HR). Qed.

Lemma StronglySorted_weaken {A} (R R' : relation A) l :
  (∀ x y, R x y → R' x y) → StronglySorted R l → StronglySorted R' l.
Proof. intros HR. induction 1; constructor; [done|]. eapply Forall_impl; eauto. Qed.

(** Sums over a list, as SQL's SUM and COUNT take them. *)
Definition zsum {A} (f : A → Z) (l : list A) : Z := foldr (λ x s, f x + s)%Z 0%Z l.

Lemma zsum_app {A} (f : A → Z) l k : zsum f (l ++ k) = (zsum f l + zsum f k)%Z.
Proof. induction l as [|x l IH]; simpl; [done|]. rewrite IH. lia. Qed.

Lemma zsum_add {A} (f g : A → Z) l : zsum (λ x, f x + g x)%Z l = (zsum f l + zsum g l)%Z.
Proof. induction l as [|x l IH]; simpl; [done|]. rewrite IH. lia. Qed.

Lemma zsum_ext {A} (f g : A → Z) l : (∀ x, x ∈ l → f x = g x) → zsum f l = zsum g l.
Proof.
  intros Hfg. induction l as [|x l IH]; simpl; [done|].
  rewrite (Hfg x) by left. rewrite IH; [done|]. intros y Hy. apply Hfg. by right.
Qed.

Lemma zsum_perm {A} (f : A → Z) l k : l ≡ₚ k → zsum f l = zsum f k.
Proof. induction 1; simpl; lia. Qed.

Lemma zsum_nonneg {A} (f : A → Z) l : (∀ x, x ∈ l → (0 ≤ f x)%Z) → (0 ≤ zsum f l)%Z.
Proof.
  induction l as [|x l IH]; intros Hf; simpl; [done|].
  pose proof (Hf x ltac:(left)). assert (0 ≤ zsum f l)%Z by (apply IH; intros y Hy; apply Hf; by right).
  lia.
Qed.

Lemma zsum_fmap {A B} (g : A → B) (f : B → Z) l : zsum f (g <$> l) = zsum (λ x, f (g x)) l.
Proof. induction l as [|x l IH]; simpl; [done|]. by rewrite <-IH. Qed.

(** GROUP BY: the rows of every key that occurs. *)
Definition group_by {A K} `{EqDecision K} (key : A → K) (rows : list A) : list (K * list A) :=
  (λ k, (k, List.filter (λ r, bool_decide (key r = k)) rows)) <$> remove_dups (key <$> rows).

(** Every row is in exactly one group. *)
Lemma zsum_group_by {A K} `{EqDecision K} (key : A → K) (f : A → Z) rows :
  zsum (λ g, zsum f g.2) (group_by key rows) = zsum f rows.
Proof.
  unfold group_by. rewrite zsum_fmap. simpl.
  assert (Hone : ∀ (k0 : K) (z : Z) ks, NoDup ks →
    zsum (λ k, if bool_decide (k0 = k) then z else 0%Z) ks = if bool_decide (k0 ∈ ks) then z else 0%Z).
  { intros k0 z ks. induction 1 as [|k ks Hk _ IH]; simpl; [done|]. rewrite IH.
    destruct (decide (k0 = k)) as [->|Hne].
    - rewrite (bool_decide_eq_true_2 (k = k)), (bool_decide_eq_true_2 (k ∈ k :: ks)),
        (bool_decide_eq_false_2 (k ∈ ks)); [lia|done|left|done].
    - rewrite (bool_decide_eq_false_2 (k0 = k)) by done.
      rewrite (bool_decide_ext (k0 ∈ k :: ks) (k0 ∈ ks)); [lia|]. rewrite elem_of_cons. naive_solver. }
  assert (Hgen : ∀ ks, NoDup ks → (∀ r, r ∈ rows → key r ∈ ks) →
    zsum (λ k, zsum f (List.filter (λ r, bool_decide (key r = k)) rows)) ks = zsum f rows).
  { intros ks Hnd. induction rows as [|r rows IH]; intros Hin; simpl.
    - clear. induction ks; simpl; lia.
    - rewrite <-IH by (intros r' Hr'; apply Hin; by right).
      transitivity (zsum (λ k, (if bool_decide (key r = k) then f r else 0) +
        zsum f (List.filter (λ r, bool_decide (key r = k)) rows))%Z ks).
      + apply zsum_ext. intros k _. by case_bool_decide.
      + rewrite zsum_add, Hone by done. rewrite bool_decide_eq_true_2 by (apply Hin; left). done. }
  apply Hgen; [apply NoDup_remove_dups|]. intros r Hr. by apply elem_of_remove_dups, list_elem_of_fmap_2.
Qed.

(** ** Automation *)

Create HintDb aeon.

(** Split every successful guard and bind of a hypothesis [_ = Ok _]. *)
Ltac inv_res :=
  repeat match goal with
  | H : (_ ≫= _) = Ok _ |- _ => apply bind_Ok in H; destruct H as (? & ? & H); simpl in H
  | H : reject_if _ _ = Ok _ |- _ => apply reject_if_Ok in H
  | H : Ok _ = Ok _ |- _ => injection H as H
  | H : Err _ = Ok _ |- _ => discriminate H
  | H : Ok _ = Err _ |- _ => discriminate H
  end; simplify_eq/=.

(** Turn boolean tests of the code into the propositions they decide. *)
Ltac bools :=
  repeat match goal with
  | H : _ && _ = true |- _ => apply andb_true_iff in H as [? ?]
  | H : _ || _ = false |- _ => apply orb_false_iff in H as [? ?]
  | H : negb _ = true |- _ => apply negb_true_iff in H
  | H : negb _ = false |- _ => apply negb_false_iff in H
  | H : bool_decide _ = true |- _ => apply bool_decide_eq_true_1 in H
  | H : bool_decide _ = false |- _ => apply bool_decide_eq_false_1 in H
  | H : (_ <? _)%Z = true |- _ => apply Z.ltb_lt in H
  | H : (_ <? _)%Z = false |- _ => apply Z.ltb_ge in H
  | H : (_ <=? _)%Z = true |- _ => apply Z.leb_le in H
  | H : (_ <=? _)%Z = false |- _ => apply Z.leb_gt in H
  end.

(** Case on the innermost match of the goal or of a hypothesis, keeping equations. *)
Ltac cases := repeat (case_match; simplify_eq/=).
