(* ===== verification/GoValue.v ===== *)
(** * The parts of Go the program's data is made of

    Dynamic values ([any], [map[string]any]), [float64] as IEEE-754 binary64,
    fixed-width integers, the byte-string functions of package [strings] the
    program calls, and the interface to what the Go specification leaves to the
    implementation: the order [sort.Slice] gives to equal elements and the
    conversion of an out-of-range float to an integer. *)

From Stdlib Require Import SpecFloat.
From S2P Require Import Prelude.

(** ** float64 *)

Abbreviation float64 := spec_float.
Definition f64_prec : Z := 53.
Definition f64_emax : Z := 1024.

Definition fadd (x y : float64) : float64 := SFadd f64_prec f64_emax x y.
Definition fmul (x y : float64) : float64 := SFmul f64_prec f64_emax x y.
Definition fdiv (x y : float64) : float64 := SFdiv f64_prec f64_emax x y.
Definition fsub (x y : float64) : float64 := SFsub f64_prec f64_emax x y.
Definition fabs (x : float64) : float64 := SFabs x.
Definition fltb (x y : float64) : bool := SFltb x y.
Definition fleb (x y : float64) : bool := SFleb x y.
Definition feqb (x y : float64) : bool := SFeqb x y.
(** [a > b] and [a >= b] of the source, false as soon as one side is a NaN. *)
Definition fgtb (x y : float64) : bool := fltb y x.
Definition fgeb (x y : float64) : bool := fleb y x.

Lemma fltb_irrefl x : fltb x x = false.
Proof.
  unfold fltb, SFltb, SFcompare. destruct x as [s|s| |s m e]; try done; destruct s; try done;
    by rewrite Z.compare_refl; change (Pos.compare_cont Eq m m) with (m ?= m)%positive;
    rewrite Pos.compare_refl.
Qed.

Lemma fltb_trans x y z : fltb x y = true → fltb y z = true → fltb x z = true.
Proof.
  unfold fltb, SFltb, SFcompare.
  destruct x as [sx|sx| |sx mx ex], y as [sy|sy| |sy my ey], z as [sz|sz| |sz mz ez];
    try done; try destruct sx; try destruct sy; try destruct sz; try done.
  all: destruct (Z.compare_spec ex ey), (Z.compare_spec ey ez), (Z.compare_spec ex ez);
    try done; try lia; subst.
  all: change (Pos.compare_cont Eq mx my) with (mx ?= my)%positive;
    change (Pos.compare_cont Eq my mz) with (my ?= mz)%positive;
    change (Pos.compare_cont Eq mx mz) with (mx ?= mz)%positive.
  all: destruct (Pos.compare_spec mx my), (Pos.compare_spec my mz), (Pos.compare_spec mx mz);
    try done; try lia.
Qed.
(** [float64(n)] for an integer: round to nearest even. *)
Definition f_of_Z (z : Z) : float64 := binary_normalize f64_prec f64_emax z 0 false.
Definition f_zero : float64 := f_of_Z 0.
(** A decimal constant [n / d] with [n] and [d] exact: correctly rounded. *)
Definition f_const (n d : Z) : float64 := fdiv (f_of_Z n) (f_of_Z d).

(** The integer part of a finite float, rounding towards zero. *)
Definition f_trunc_Z (x : float64) : option Z :=
  match x with
  | S754_zero _ => Some 0%Z
  | S754_finite s m e =>
      let a := if (0 <=? e)%Z then (Z.pos m * 2 ^ e)%Z else (Z.pos m / 2 ^ (- e))%Z in
      Some (if s then (- a)%Z else a)
  | _ => None
  end.

(** [math.Trunc]. *)
Definition ftrunc (x : float64) : float64 :=
  match x with
  | S754_finite s _ e =>
      if (0 <=? e)%Z then x
      else match f_trunc_Z x with
           | Some 0%Z => S754_zero s
           | Some z => f_of_Z z
           | None => x
           end
  | _ => x
  end.

(** ** Fixed-width integers *)

Definition int64_min : Z := - 2 ^ 63.
Definition int64_max : Z := 2 ^ 63 - 1.
Definition in_int64 (z : Z) : bool := ((int64_min <=? z) && (z <=? int64_max))%Z.
(** The range of SQL's INTEGER. *)
Definition in_int32 (z : Z) : bool := ((- 2 ^ 31 <=? z) && (z <=? 2 ^ 31 - 1))%Z.
(** Two's complement wrap-around of [int] and [int64] arithmetic. *)
Definition wrap64 (z : Z) : Z := (z + 2 ^ 63) `mod` 2 ^ 64 - 2 ^ 63.
(** The wrap-around of [uint64]. *)
Definition wrapu64 (z : Z) : Z := z `mod` 2 ^ 64.

Lemma wrap64_id z : in_int64 z = true → wrap64 z = z.
Proof.
  unfold in_int64, wrap64, int64_min, int64_max. intros H; bools.
  rewrite Z.mod_small; lia.
Qed.

(** ** Panics *)

(** What a call that may panic comes to. *)
Inductive panicking (A : Type) := Returned (a : A) | Panicked.
Arguments Returned {A} a.
Arguments Panicked {A}.

(** [make([]T, 0, n)] for elements of a size: on linux/amd64 the runtime panics on a
    capacity beyond what an address can reach. A smaller one that the machine's memory
    cannot hold is outside the model. *)
Definition max_alloc : Z := 2 ^ 48.
Definition make_panics (size cap : Z) : bool := ((cap <? 0) || (max_alloc <? size * cap))%Z.

(** ** Dynamic values *)

(** Go's [any], over the dynamic types the program switches on. [AMap] is a
    non-nil [map[string]any]; [AOther] is a value of any other dynamic type. *)
Inductive any : Type :=
| ANil
| ABool (b : bool)
| AInt (z : Z)
| AInt64 (z : Z)
| AUint64 (z : Z)
| AFloat32 (f : float64)
| AFloat (f : float64)
| ANumber (literal : string)
| AString (s : string)
| AList (l : list any)
| AMap (m : gmap string any)
| AOther (type : string).

(** A [map[string]any], nil included; a nil map reads as an empty one. *)
Abbreviation gomap := (option (gmap string any)).
Definition items (m : gomap) : gmap string any := default ∅ m.

(** Indexing a [map[string]any]: a missing key reads as a nil interface. *)
Definition mget (m : gmap string any) (k : string) : any := default ANil (m !! k).

(** [v, _ := x.(T)]: the zero value when the assertion fails. *)
Definition as_string (a : any) : string := match a with AString s => s | _ => EmptyString end.
Definition as_list (a : any) : list any := match a with AList l => l | _ => [] end.
(** A failed assertion to a map gives the nil map, which reads as empty; where
    the source compares with nil the [option] form is used. *)
Definition as_map_opt (a : any) : option (gmap string any) :=
  match a with AMap m => Some m | _ => None end.
Definition as_map (a : any) : gmap string any := default ∅ (as_map_opt a).
Definition is_nil (a : any) : bool := match a with ANil => true | _ => false end.

(** A string field and an optional field of a response object. *)
Definition obj (fields : list (string * any)) : gmap string any := list_to_map fields.

(** ** Strings (byte strings, as Go's) *)

Definition byte_in (lo hi : nat) (c : Ascii.ascii) : bool :=
  let n := Ascii.nat_of_ascii c in (lo <=? n) && (n <=? hi).
Definition is_lower : Ascii.ascii → bool := byte_in 97 122.
Definition is_upper : Ascii.ascii → bool := byte_in 65 90.
Definition is_digit : Ascii.ascii → bool := byte_in 48 57.
Definition is_hex_lower (c : Ascii.ascii) : bool := is_digit c || byte_in 97 102 c.
Definition byte_is (n : nat) (c : Ascii.ascii) : bool := Ascii.nat_of_ascii c =? n.

Fixpoint str_all (p : Ascii.ascii → bool) (s : string) : bool :=
  match s with EmptyString => true | String c s => p c && str_all p s end.

Definition slen (s : string) : nat := String.length s.
Definition sempty (s : string) : bool := match s with EmptyString => true | _ => false end.

(** The pattern [^[a-z][a-z0-9-]{0,62}$] the tenants, source ids and header
    values must match. *)
Definition ident_tail (c : Ascii.ascii) : bool := is_lower c || is_digit c || byte_is 45 c.
Definition ident63 (s : string) : bool :=
  match s with
  | EmptyString => false
  | String c r => is_lower c && str_all ident_tail r && (slen r <=? 62)
  end.

(** [unicode.IsSpace] by UTF-8 encoding: the one-, two- and three-byte forms. *)
Definition space1 (c : Ascii.ascii) : bool := byte_in 9 13 c || byte_is 32 c.
Definition space2 (c d : Ascii.ascii) : bool := byte_is 194 c && (byte_is 133 d || byte_is 160 d).
Definition space3 (c d e : Ascii.ascii) : bool :=
  (byte_is 225 c && byte_is 154 d && byte_is 128 e)
  || (byte_is 226 c && byte_is 128 d
      && (byte_in 128 138 e || byte_is 168 e || byte_is 169 e || byte_is 175 e))
  || (byte_is 226 c && byte_is 129 d && byte_is 159 e)
  || (byte_is 227 c && byte_is 128 d && byte_is 128 e).

Fixpoint trim_left_space (s : string) : string :=
  match s with
  | String c s1 =>
      if space1 c then trim_left_space s1 else
      match s1 with
      | String d s2 =>
          if space2 c d then trim_left_space s2 else
          match s2 with
          | String e s3 => if space3 c d e then trim_left_space s3 else s
          | EmptyString => s
          end
      | EmptyString => s
      end
  | EmptyString => s
  end.

(** The same on a reversed string, where each encoding reads backwards. *)
Fixpoint trim_left_space_rev (s : string) : string :=
  match s with
  | String c s1 =>
      if space1 c then trim_left_space_rev s1 else
      match s1 with
      | String d s2 =>
          if space2 d c then trim_left_space_rev s2 else
          match s2 with
          | String e s3 => if space3 e d c then trim_left_space_rev s3 else s
          | EmptyString => s
          end
      | EmptyString => s
      end
  | EmptyString => s
  end.

Fixpoint str_rev_app (s acc : string) : string :=
  match s with EmptyString => acc | String c s => str_rev_app s (String c acc) end.
Definition str_rev (s : string) : string := str_rev_app s EmptyString.

(** [strings.TrimSpace]. *)
Definition trim_space (s : string) : string :=
  str_rev (trim_left_space_rev (str_rev (trim_left_space s))).

(** [strings.HasPrefix], [strings.TrimPrefix] and [strings.HasSuffix]. *)
Fixpoint has_prefix (s p : string) : bool :=
  match p, s with
  | EmptyString, _ => true
  | String c p, String d s => bool_decide (c = d) && has_prefix s p
  | _, EmptyString => false
  end.
Fixpoint drop_str (n : nat) (s : string) : string :=
  match n, s with S n, String _ s => drop_str n s | _, _ => s end.
Fixpoint take_str (n : nat) (s : string) : string :=
  match n, s with S n, String c s => String c (take_str n s) | _, _ => EmptyString end.
Definition trim_prefix (s p : string) : string :=
  if has_prefix s p then drop_str (slen p) s else s.
Definition has_suffix (s p : string) : bool := has_prefix (str_rev s) (str_rev p).

(** [strings.LastIndex(s, sep)] for a one-byte separator. *)
Fixpoint last_index_from (i : nat) (c : Ascii.ascii) (s : string) : option nat :=
  match s with
  | EmptyString => None
  | String d s =>
      match last_index_from (S i) c s with
      | Some j => Some j
      | None => if bool_decide (c = d) then Some i else None
      end
  end.
Definition last_index (c : Ascii.ascii) (s : string) : option nat := last_index_from 0 c s.

(** Go's [<] on strings compares bytes. *)
Fixpoint str_ltb (a b : string) : bool :=
  match a, b with
  | EmptyString, String _ _ => true
  | String c a, String d b =>
      let i := Ascii.nat_of_ascii c in
      let j := Ascii.nat_of_ascii d in
      (i <? j) || ((i =? j) && str_ltb a b)
  | _, _ => false
  end.

(** [strings.Join]. *)
Fixpoint str_join (sep : string) (l : list string) : string :=
  match l with
  | [] => EmptyString
  | [x] => x
  | x :: l => x +:+ sep +:+ str_join sep l
  end.

(** The double quote. *)
Definition dquote : string := String (Ascii.ascii_of_nat 34) EmptyString.

(** ASCII letters to lower case, the part of [strings.ToLower] that does not
    depend on the Unicode tables. *)
Definition lower_byte (c : Ascii.ascii) : Ascii.ascii :=
  if is_upper c then Ascii.ascii_of_nat (Ascii.nat_of_ascii c + 32) else c.
Fixpoint str_map (f : Ascii.ascii → Ascii.ascii) (s : string) : string :=
  match s with EmptyString => EmptyString | String c s => String (f c) (str_map f s) end.
Definition is_ascii (s : string) : bool := str_all (byte_in 0 127) s.

(** ** What Go leaves to the implementation *)

(** A less function [sort.Slice] accepts. *)
Class StrictWeak {A} (lt : A → A → bool) : Prop := {
  sw_asym x y : lt x y = true → lt y x = false;
  sw_split x y z : lt x z = true → lt x y = true ∨ lt y z = true;
}.

(** No element is smaller than an earlier one: what [sort.Slice] guarantees. *)
Definition sorted_by {A} (lt : A → A → bool) (l : list A) : Prop :=
  StronglySorted (λ x y, lt y x = false) l.

(** [sort_slice] may order equal elements as it likes (it is documented as not
    stable), and converting a float that no [int] represents gives an
    implementation-dependent value. *)
Class GoRuntime := {
  sort_slice : ∀ {A}, (A → A → bool) → list A → list A;
  sort_slice_perm : ∀ {A} (lt : A → A → bool) l, sort_slice lt l ≡ₚ l;
  sort_slice_sorted : ∀ {A} (lt : A → A → bool) l,
    StrictWeak lt → sorted_by lt (sort_slice lt l);
  int_out_of_range : float64 → Z;
  int_out_of_range_int64 : ∀ f, in_int64 (int_out_of_range f) = true;
}.

(** [int(f)] and [int64(f)]. *)
Definition f_to_int `{GoRuntime} (f : float64) : Z :=
  match f_trunc_Z f with
  | Some z => if in_int64 z then z else int_out_of_range f
  | None => int_out_of_range f
  end.

Lemma f_to_int_int64 `{GoRuntime} f : in_int64 (f_to_int f) = true.
Proof. unfold f_to_int. cases; auto using int_out_of_range_int64. Qed.

(** *** One runtime: insertion sort, and amd64's conversion *)

Section insertion_sort.
Context {A : Type} (lt : A → A → bool).

Fixpoint insert_sorted (x : A) (l : list A) : list A :=
  match l with
  | [] => [x]
  | y :: l' => if lt y x then y :: insert_sorted x l' else x :: l
  end.
Definition insertion_sort (l : list A) : list A := foldr insert_sorted [] l.

Lemma insert_sorted_perm x l : insert_sorted x l ≡ₚ x :: l.
Proof.
  induction l as [|y l IH]; simpl; [done|].
  destruct (lt y x); [|done]. rewrite IH. by constructor.
Qed.

Lemma insertion_sort_perm l : insertion_sort l ≡ₚ l.
Proof. induction l as [|x l IH]; simpl; [done|]. by rewrite insert_sorted_perm, IH. Qed.

Lemma insert_sorted_sorted `{!StrictWeak lt} x l :
  sorted_by lt l → sorted_by lt (insert_sorted x l).
Proof.
  unfold sorted_by. induction 1 as [|y l Hl IH Hy]; simpl.
  - repeat constructor.
  - destruct (lt y x) eqn:Hyx.
    + constructor; [done|]. rewrite insert_sorted_perm. constructor; [by apply sw_asym|done].
    + constructor; [by constructor|]. constructor; [done|].
      eapply Forall_impl; [exact Hy|]. intros z Hz. simpl in *.
      destruct (lt z x) eqn:Hzx; [|done].
      destruct (sw_split z y x Hzx); congruence.
Qed.

Lemma insertion_sort_sorted `{!StrictWeak lt} l : sorted_by lt (insertion_sort l).
Proof. induction l; simpl; [constructor|by apply insert_sorted_sorted]. Qed.
End insertion_sort.

Definition amd64_runtime : GoRuntime := {|
  sort_slice := @insertion_sort;
  sort_slice_perm := @insertion_sort_perm;
  sort_slice_sorted := λ A lt l H, @insertion_sort_sorted A lt H l;
  int_out_of_range := λ _, int64_min;
  int_out_of_range_int64 := λ _, eq_refl;
|}.

(** *** The less functions the program passes *)

Lemma str_ltb_irrefl a : str_ltb a a = false.
Proof.
  induction a as [|c a IH]; simpl; [done|].
  by rewrite Nat.ltb_irrefl, Nat.eqb_refl, IH.
Qed.

Lemma str_ltb_asym a b : str_ltb a b = true → str_ltb b a = false.
Proof.
  revert b. induction a as [|c a IH]; intros [|d b]; simpl; try done.
  intros [Hlt|[Heq Hab]%andb_true_iff]%orb_true_iff.
  - apply Nat.ltb_lt in Hlt. apply orb_false_iff; split; [apply Nat.ltb_ge; lia|].
    apply andb_false_iff; left. apply Nat.eqb_neq; lia.
  - apply Nat.eqb_eq in Heq. rewrite Heq, Nat.ltb_irrefl, Nat.eqb_refl. simpl; auto.
Qed.

Lemma str_ltb_split a b c : str_ltb a c = true → str_ltb a b = true ∨ str_ltb b c = true.
Proof.
  revert b c. induction a as [|x a IH]; intros [|y b] [|z c]; simpl; auto; try done.
  intros H. rewrite !orb_true_iff, !andb_true_iff, !Nat.ltb_lt, !Nat.eqb_eq in *.
  destruct H as [H|[H1 H2]]; [lia|].
  destruct (lt_eq_lt_dec (Ascii.nat_of_ascii x) (Ascii.nat_of_ascii y)) as [[?|?]|?];
    [lia| |right; left; lia].
  destruct (IH b c H2); [left|right]; right; split; congruence || lia.
Qed.

Lemma str_ltb_total a b : str_ltb a b = false → str_ltb b a = false → a = b.
Proof.
  revert b. induction a as [|x a IH]; intros [|y b]; simpl; try done.
  rewrite !orb_false_iff, !andb_false_iff, !Nat.ltb_ge, !Nat.eqb_neq.
  intros [? Hab] [? Hba].
  assert (x = y) as ->.
  { rewrite <-(Ascii.ascii_nat_embedding x), <-(Ascii.ascii_nat_embedding y). f_equal; lia. }
  f_equal. destruct Hab, Hba; try done. by apply IH.
Qed.

#[export] Instance str_ltb_sw {A} (key : A → string) :
  StrictWeak (λ x y, str_ltb (key x) (key y)).
Proof. split; eauto using str_ltb_asym, str_ltb_split. Qed.

#[export] Instance Zltb_sw {A} (key : A → Z) : StrictWeak (λ x y, (key x <? key y)%Z).
Proof. split; intros *; rewrite ?Z.ltb_lt, ?Z.ltb_ge; lia. Qed.

(** ** Facts about the string functions *)

Lemma has_prefix_app p s : has_prefix (p +:+ s) p = true.
Proof. induction p as [|c p IH]; simpl; [by destruct s|]. by rewrite bool_decide_eq_true_2, IH. Qed.

Lemma drop_str_app p s : drop_str (slen p) (p +:+ s) = s.
Proof. induction p; simpl; auto. Qed.
Lemma take_str_app s r : take_str (slen s) (s +:+ r) = s.
Proof. induction s as [|c s IH]; simpl; [by destruct r|]. f_equal. exact IH. Qed.

Lemma trim_prefix_app p s : trim_prefix (p +:+ s) p = s.
Proof. unfold trim_prefix. by rewrite has_prefix_app, drop_str_app. Qed.

Lemma str_app_inj_l p s t : p +:+ s = p +:+ t → s = t.
Proof. intros H. by rewrite <-(drop_str_app p s), H, drop_str_app. Qed.

Lemma sempty_true s : sempty s = true ↔ s = EmptyString.
Proof. by destruct s. Qed.
Lemma sempty_false s : sempty s = false ↔ s ≠ EmptyString.
Proof. by destruct s. Qed.
Lemma sempty_decide {A} s (a b : A) : (if sempty s then a else b) = if decide (s = EmptyString) then a else b.
Proof. destruct s; [by rewrite decide_True|by rewrite decide_False]. Qed.

#[export] Hint Resolve str_ltb_asym str_ltb_split f_to_int_int64 : aeon.

(** An identifier has nothing to trim. *)

Definition plain_byte (c : Ascii.ascii) : bool := byte_in 0 127 c && negb (space1 c).

Lemma byte_is_true n c : byte_is n c = true ↔ Ascii.nat_of_ascii c = n.
Proof. apply Nat.eqb_eq. Qed.
Lemma byte_in_true lo hi c : byte_in lo hi c = true ↔ lo ≤ Ascii.nat_of_ascii c ≤ hi.
Proof. unfold byte_in. by rewrite andb_true_iff, !Nat.leb_le. Qed.

Ltac bytes :=
  repeat match goal with
  | H : byte_is _ _ = true |- _ => apply byte_is_true in H
  | H : byte_in _ _ _ = true |- _ => apply byte_in_true in H
  | H : _ && _ = true |- _ => apply andb_true_iff in H as [? ?]
  | H : _ || _ = true |- _ => apply orb_true_iff in H as [?|?]
  end; try lia.

Lemma plain_not_space2 c d : (plain_byte c || plain_byte d) = true → space2 c d = false.
Proof.
  intros Hp. apply not_true_iff_false. unfold plain_byte, space2 in *. intros Hs. bytes.
Qed.
Lemma plain_not_space3 c d e : (plain_byte c || plain_byte e) = true → space3 c d e = false.
Proof.
  intros Hp. apply not_true_iff_false. unfold plain_byte, space3 in *. intros Hs. bytes.
Qed.

Lemma trim_left_plain s : str_all plain_byte s = true → trim_left_space s = s.
Proof.
  destruct s as [|c [|d [|e s]]]; simpl; [done|..]; intros [Hc _]%andb_true_iff;
    pose proof Hc as Hs; unfold plain_byte in Hs; bools;
    repeat match goal with H : space1 _ = false |- _ => rewrite H end; [done|..];
    rewrite plain_not_space2 by (by rewrite Hc); [done|].
  by rewrite plain_not_space3 by (by rewrite Hc).
Qed.

Lemma trim_left_rev_plain s : str_all plain_byte s = true → trim_left_space_rev s = s.
Proof.
  destruct s as [|c [|d [|e s]]]; simpl; [done|..]; intros [Hc _]%andb_true_iff;
    pose proof Hc as Hs; unfold plain_byte in Hs; bools;
    repeat match goal with H : space1 _ = false |- _ => rewrite H end; [done|..];
    rewrite plain_not_space2 by (rewrite Hc; apply orb_true_r); [done|].
  by rewrite plain_not_space3 by (rewrite Hc; apply orb_true_r).
Qed.

Lemma str_rev_app_all p s acc : str_all p (str_rev_app s acc) = str_all p s && str_all p acc.
Proof.
  revert acc. induction s as [|c s IH]; intros acc; simpl; [done|].
  rewrite IH; simpl. by destruct (p c), (str_all p s).
Qed.

Lemma str_rev_app_rev s acc acc' :
  str_rev_app (str_rev_app s acc) acc' = str_rev_app acc (s +:+ acc').
Proof. revert acc acc'. induction s as [|c s IH]; intros; simpl; [done|]. by rewrite IH. Qed.

Lemma str_app_nil s : s +:+ EmptyString = s.
Proof. induction s as [|c s IH]; [done|]. change (String c (s +:+ EmptyString) = String c s). by rewrite IH. Qed.

Lemma str_app_assoc a b c : a +:+ (b +:+ c) = (a +:+ b) +:+ c.
Proof.
  induction a as [|x a IH]; [done|].
  change (String x (a +:+ (b +:+ c)) = String x ((a +:+ b) +:+ c)). by rewrite IH.
Qed.

Lemma slen_app s t : slen (s +:+ t) = (slen s + slen t)%nat.
Proof. induction s as [|c s IH]; [done|]. change (S (slen (s +:+ t)) = S (slen s + slen t)). by rewrite IH. Qed.
Lemma str_app_inj_r s s' t : s +:+ t = s' +:+ t → s = s'.
Proof.
  intros Heq. assert (Hlen : slen s = slen s').
  { apply (f_equal slen) in Heq. rewrite !slen_app in Heq. lia. }
  revert s' Heq Hlen. induction s as [|c s IH]; intros [|c' s'] Heq Hlen; try done.
  change (String c (s +:+ t) = String c' (s' +:+ t)) in Heq. injection Heq as -> Heq.
  f_equal. apply IH; [done|]. unfold slen in *. simpl in Hlen. lia.
Qed.

Lemma str_rev_involutive s : str_rev (str_rev s) = s.
Proof. unfold str_rev. rewrite str_rev_app_rev. simpl. apply str_app_nil. Qed.

Lemma trim_space_plain s : str_all plain_byte s = true → trim_space s = s.
Proof.
  intros Hs. unfold trim_space. rewrite trim_left_plain by done.
  rewrite trim_left_rev_plain; [apply str_rev_involutive|].
  unfold str_rev. rewrite str_rev_app_all, Hs. done.
Qed.

Lemma str_all_app p a b : str_all p (a +:+ b) = str_all p a && str_all p b.
Proof. induction a as [|c a IH]; simpl; [done|]. by rewrite IH, andb_assoc. Qed.
Lemma str_all_impl (p q : Ascii.ascii → bool) s :
  (∀ c, p c = true → q c = true) → str_all p s = true → str_all q s = true.
Proof. intros Hpq. induction s; simpl; [done|]. rewrite !andb_true_iff. naive_solver. Qed.

Lemma ident_tail_plain c : ident_tail c = true → plain_byte c = true.
Proof.
  unfold ident_tail, is_lower, is_digit, plain_byte, space1. intros Hc.
  rewrite andb_true_iff, byte_in_true, negb_true_iff, <-not_true_iff_false.
  split; [bytes|intros Hs; bytes].
Qed.

Lemma ident63_tail s : ident63 s = true → str_all ident_tail s = true.
Proof.
  destruct s as [|c s]; [done|]. simpl. intros H. bools. unfold ident_tail at 1.
  apply andb_true_iff; split; [|done]. by apply orb_true_iff; left; apply orb_true_iff; left.
Qed.

Lemma trim_space_ident s : ident63 s = true → trim_space s = s.
Proof.
  intros Hs. apply trim_space_plain. eapply str_all_impl; [exact ident_tail_plain|].
  by apply ident63_tail.
Qed.

#[export] Hint Resolve trim_space_ident ident63_tail : aeon.
