(* ===== verification/Sha256.v ===== *)
(** * SHA-256, as package crypto/sha256 computes it

    The program keys its callers, its approvals and its tool descriptors by the
    lower-case hexadecimal form of a SHA-256 digest. The function is defined
    here from FIPS 180-4 so that the definitions that use it evaluate. *)

From S2P Require Import Prelude GoValue.

Local Open Scope Z_scope.

Definition w32 (z : Z) : Z := Z.land z (2 ^ 32 - 1).
Definition add32 (x y : Z) : Z := w32 (x + y).
Definition rotr (n x : Z) : Z := Z.lor (Z.shiftr x n) (w32 (Z.shiftl x (32 - n))).

Definition big_sigma0 x := Z.lxor (rotr 2 x) (Z.lxor (rotr 13 x) (rotr 22 x)).
Definition big_sigma1 x := Z.lxor (rotr 6 x) (Z.lxor (rotr 11 x) (rotr 25 x)).
Definition small_sigma0 x := Z.lxor (rotr 7 x) (Z.lxor (rotr 18 x) (Z.shiftr x 3)).
Definition small_sigma1 x := Z.lxor (rotr 17 x) (Z.lxor (rotr 19 x) (Z.shiftr x 10)).
Definition ch x y z := Z.lxor (Z.land x y) (Z.land (Z.lxor x (2 ^ 32 - 1)) z).
Definition maj x y z := Z.lxor (Z.land x y) (Z.lxor (Z.land x z) (Z.land y z)).

(** The constants are the first 32 bits of the fractional parts of the cube roots
    of the first 64 primes, and the initial state those of the square roots of
    the first 8. *)
Definition is_prime (n : Z) : bool :=
  forallb (λ d, negb (n `mod` d =? 0)) (map Z.of_nat (seq 2 (Z.to_nat (Z.sqrt n) - 1))).
Definition primes (bound : nat) : list Z :=
  List.filter is_prime (map Z.of_nat (seq 2 (bound - 1))).

(** The integer cube root, one bit at a time from [bit] down. *)
Fixpoint cbrt_from (bits : nat) (root n : Z) : Z :=
  match bits with
  | O => root
  | S bits =>
      let next := root + 2 ^ Z.of_nat bits in
      cbrt_from bits (if next * next * next <=? n then next else root) n
  end.

Definition round_constants : list Z :=
  Eval vm_compute in map (λ p, w32 (cbrt_from 40 0 (p * 2 ^ 96))) (primes 312).
Definition initial_hash : list Z :=
  Eval vm_compute in map (λ p, w32 (Z.sqrt (p * 2 ^ 64))) (primes 20).

Fixpoint bytes_of_string (s : string) : list Z :=
  match s with
  | EmptyString => []
  | String c s => Z.of_nat (Ascii.nat_of_ascii c) :: bytes_of_string s
  end.

Fixpoint be_bytes (n : nat) (z : Z) : list Z :=
  match n with O => [] | S n => be_bytes n (Z.shiftr z 8) ++ [Z.land z 255] end.

Definition pad (msg : list Z) : list Z :=
  let len := length msg in
  let k := Z.to_nat ((55 - Z.of_nat len) `mod` 64) in
  msg ++ [128] ++ replicate k 0 ++ be_bytes 8 (8 * Z.of_nat len).

Fixpoint words (bs : list Z) : list Z :=
  match bs with
  | a :: b :: c :: d :: r =>
      Z.lor (Z.shiftl a 24) (Z.lor (Z.shiftl b 16) (Z.lor (Z.shiftl c 8) d)) :: words r
  | _ => []
  end.

Definition wat (l : list Z) (i : nat) : Z := nth i l 0.

(** The message schedule, newest word first. *)
Fixpoint schedule (n : nat) (w : list Z) : list Z :=
  match n with
  | O => w
  | S n =>
      let t := add32 (add32 (small_sigma1 (wat w 1)) (wat w 6))
                     (add32 (small_sigma0 (wat w 14)) (wat w 15)) in
      schedule n (t :: w)
  end.

Fixpoint rounds (kw : list (Z * Z)) (st : list Z) : list Z :=
  match kw, st with
  | (k, w) :: kw, [a; b; c; d; e; f; g; h] =>
      let t1 := add32 (add32 h (big_sigma1 e)) (add32 (ch e f g) (add32 k w)) in
      let t2 := add32 (big_sigma0 a) (maj a b c) in
      rounds kw [add32 t1 t2; a; b; c; add32 d t1; e; f; g]
  | _, _ => st
  end.

Definition compress (st block : list Z) : list Z :=
  zip_with add32 st (rounds (zip round_constants (rev (schedule 48 (rev block)))) st).

Fixpoint blocks (fuel : nat) (st ws : list Z) : list Z :=
  match fuel, ws with
  | S fuel, _ :: _ => blocks fuel (compress st (take 16 ws)) (drop 16 ws)
  | _, _ => st
  end.

Definition hex_digit (z : Z) : Ascii.ascii :=
  Ascii.ascii_of_nat (Z.to_nat (if z <? 10 then 48 + z else 87 + z)).
Definition hex_byte (z : Z) (s : string) : string :=
  String (hex_digit (Z.shiftr z 4)) (String (hex_digit (Z.land z 15)) s).
(** [hex.EncodeToString]. *)
Definition hex_encode (bs : list Z) : string := foldr hex_byte EmptyString bs.

(** [sha256.Sum256], one block of fuel per sixteen words of the padded message. *)
Definition sha256 (msg : list Z) : list Z :=
  let ws := words (pad msg) in
  concat (map (be_bytes 4) (blocks (length ws) initial_hash ws)).

Definition sha256_hex (s : string) : string := hex_encode (sha256 (bytes_of_string s)).

(** The FIPS test vector. *)
Example sha256_abc :
  sha256_hex "abc" = "ba7816bf8f01cfea414140de5dae2223b00361a396177a9cb410ff61f20015ad"%string.
Proof. vm_compute. reflexivity. Qed.
