(* ===== verification/Policy.v ===== *)
(** * Package policy: dispositions, the Cedar engine and the per-tenant set

    Models go/internal/policy/disposition.go, cedar.go and registry.go. Cedar
    itself (cedar-go) and the YAML decoder are parameters. *)

From stdpp Require Import pretty.
From S2P Require Import Prelude GoValue.

Local Open Scope string_scope.
Set Default Proof Using "Type*".
#[local] Arguments Z.max : simpl never.

(** ** Dispositions (disposition.go) *)

Module Disposition.

(** [type Disposition string]: a bundle may declare any string, so validity is a
    predicate and not a type. *)
Abbreviation t := string (only parsing).
Definition Allow : string := "allow".
Definition DenyStep : string := "deny_step".
Definition TerminateRun : string := "terminate_run".
Definition RequireApproval : string := "require_approval".

Definition PermitsExecution (d : string) : bool := bool_decide (d = Allow).
Definition Terminal (d : string) : bool := bool_decide (d = TerminateRun).

Definition Valid (d : string) : bool :=
  bool_decide (d = Allow) || bool_decide (d = DenyStep)
  || bool_decide (d = TerminateRun) || bool_decide (d = RequireApproval).

Definition strictness (d : string) : Z :=
  if bool_decide (d = Allow) then 0
  else if bool_decide (d = RequireApproval) then 1
  else if bool_decide (d = DenyStep) then 2
  else if bool_decide (d = TerminateRun) then 3
  else -1.

Definition stricter (a b : string) : string :=
  if (strictness a <? strictness b)%Z then b else a.

Inductive error :=
| NotADisposition (d : string)
| ForbidDeclares (d : string)
| PermitDeclares (d : string).

Definition validateDeclaredDisposition (effect d : string) : result error () :=
  if sempty d then Ok tt
  else if negb (Valid d) then Err (NotADisposition d)
  else if bool_decide (effect = "forbid") then
    reject_if (bool_decide (d = Allow) || bool_decide (d = RequireApproval)) (ForbidDeclares d)
  else if bool_decide (effect = "permit") then
    reject_if (bool_decide (d = DenyStep) || bool_decide (d = TerminateRun)) (PermitDeclares d)
  else Ok tt.

Definition derivedDisposition (allowed : bool) : string :=
  if allowed then Allow else DenyStep.

Lemma Valid_cases d :
  Valid d = true ↔ d = Allow ∨ d = DenyStep ∨ d = TerminateRun ∨ d = RequireApproval.
Proof. unfold Valid. rewrite !orb_true_iff, !bool_decide_eq_true. tauto. Qed.

Lemma strictness_Valid d : Valid d = true ↔ (0 ≤ strictness d)%Z.
Proof.
  rewrite Valid_cases. unfold strictness. repeat case_bool_decide; subst; split; try lia; auto 6.
  intros [?|[?|[?|?]]]; congruence.
Qed.

Lemma strictness_inj d d' :
  Valid d = true → strictness d = strictness d' → d = d'.
Proof.
  intros [?|[?|[?|?]]]%Valid_cases; subst; unfold strictness;
    repeat case_bool_decide; subst; done || lia.
Qed.

Lemma strictness_above_deny d : ¬ (strictness d ≤ 2)%Z ↔ d = TerminateRun.
Proof.
  unfold strictness. split; [|intros -> Hle; vm_compute in Hle; by apply Hle].
  repeat case_bool_decide; subst; intros; done || lia.
Qed.

Lemma strictness_refuses d : (2 ≤ strictness d)%Z ↔ d = DenyStep ∨ d = TerminateRun.
Proof.
  unfold strictness. split; [|by intros [-> | ->]].
  repeat case_bool_decide; subst; auto; lia.
Qed.

Lemma stricter_strictness a b : strictness (stricter a b) = Z.max (strictness a) (strictness b).
Proof. unfold stricter. case_match; bools; lia. Qed.

Lemma stricter_valid a b : Valid a = true → Valid (stricter a b) = true.
Proof. rewrite !strictness_Valid, stricter_strictness. lia. Qed.

End Disposition.

(** ** Cedar (cedar-go), the authorization engine the program calls *)

Inductive cedar_decision := CedarAllow | CedarDeny.

Record entity_uid := EntityUID { uid_type : string; uid_id : string }.
#[export] Instance entity_uid_eq_dec : EqDecision entity_uid.
Proof. solve_decision. Defined.

Record cedar_request := CedarRequest {
  req_principal : entity_uid;
  req_action : entity_uid;
  req_resource : entity_uid;
}.

(** [EntityMap] holds exactly the resource here, with its string attributes. *)
Definition entities := list (entity_uid * gmap string string).

(** What the program uses of cedar-go. [ps_add] is [PolicySet.Add], which reports
    whether the id was new. *)
Class Cedar := {
  cedar_policy : Type;
  policy_set : Type;
  new_policy_set : policy_set;
  ps_add : policy_set → string → cedar_policy → bool * policy_set;
  parse_policy_list : string → string → result string (list cedar_policy);
  cedar_authorize : policy_set → entities → cedar_request → cedar_decision * list string;
  decision_string : cedar_decision → string;
}.

(** Its documented behaviour: [Add] is true exactly for a new id, and the
    diagnostic's reasons are ids of the set. *)
Class CedarLaws `{Cedar} := {
  ps_ids : policy_set → gset string;
  ps_ids_new : ps_ids new_policy_set = ∅;
  ps_add_new ps id p : (ps_add ps id p).1 = bool_decide (id ∉ ps_ids ps);
  ps_add_ids ps id p : ps_ids (ps_add ps id p).2 = {[ id ]} ∪ ps_ids ps;
  reasons_in_set ps es rq id :
    id ∈ (cedar_authorize ps es rq).2 → id ∈ ps_ids ps;
}.

(** ** The engine (cedar.go) *)

Module Engine.

Record PolicyBundleItem := {
  item_id : string;
  effect : string;
  cedarSource : string;
  disposition : string;
}.
Record PolicyBundleDoc := {
  apiVersion : string;
  kind : string;
  cedarVersion : string;
  policies : list PolicyBundleItem;
}.

Inductive error :=
| EmptyBundle
| EntryWithoutID (i : nat)
| EntryDisposition (id : string) (e : Disposition.error)
| ParseError (id : string) (msg : string)
| EntryWithoutPolicy (id : string)
| DuplicateID (id : string).

Record Decision := {
  Allowed : bool;
  PolicyID : string;
  CedarDecision : string;
  DecisionDisposition : string;
  DispositionDeclared : bool;
}.

Section Engine.
Context `{Cedar}.

Record Engine := {
  policySet : policy_set;
  dispositions : gmap string string;
}.

(** The id a parsed policy is added under: the entry's own, numbered when the
    entry holds several. *)
Definition policy_id (p : PolicyBundleItem) (count n : nat) : string :=
  if (1 <? count)%nat then item_id p +:+ "#" +:+ pretty n else item_id p.

(** The inner loop: one parsed policy. *)
Definition load_parsed (p : PolicyBundleItem) (count n : nat) (e : Engine)
    (parsed : cedar_policy) : result error Engine :=
  let id := policy_id p count n in
  let '(fresh, ps) := ps_add (policySet e) id parsed in
  if negb fresh then Err (DuplicateID id)
  else Ok {| policySet := ps;
             dispositions := if sempty (disposition p) then dispositions e
                             else <[id := disposition p]> (dispositions e) |}.

(** The outer loop: one bundle entry. *)
Definition load_item (i : nat) (e : Engine) (p : PolicyBundleItem) : result error Engine :=
  if sempty (item_id p) then Err (EntryWithoutID i)
  else match Disposition.validateDeclaredDisposition (effect p) (disposition p) with
  | Err d => Err (EntryDisposition (item_id p) d)
  | Ok _ =>
    match parse_policy_list (item_id p) (cedarSource p) with
    | Err msg => Err (ParseError (item_id p) msg)
    | Ok [] => Err (EntryWithoutPolicy (item_id p))
    | Ok parsed => ifold_res (load_parsed p (length parsed)) 0 e parsed
    end
  end.

Definition LoadEngine (doc : PolicyBundleDoc) : result error Engine :=
  match policies doc with
  | [] => Err EmptyBundle
  | ps => ifold_res load_item 0 {| policySet := new_policy_set; dispositions := ∅ |} ps
  end.

(** The loop over the determining policies: the strictest declared disposition
    wins over what the decision alone means. *)
Definition determine (e : Engine) (init : string * bool) (reasons : list string)
  : string * bool :=
  foldl (λ '(d, declared) reason,
           match dispositions e !! reason with
           | Some d' => (Disposition.stricter d d', true)
           | None => (d, declared)
           end) init reasons.

Definition resource_attrs (resourceName : string) (extraAttrs : list (gmap string string))
  : gmap string string :=
  foldl (λ attrs extra, delete "name" extra ∪ attrs) {[ "name" := resourceName ]} extraAttrs.

Definition authorize (e : Engine) (principalType principalID resourceType resourceName : string)
    (extraAttrs : list (gmap string string)) : Decision :=
  let principal := EntityUID principalType principalID in
  let action := EntityUID "Action" resourceName in
  let resourceUID := EntityUID resourceType resourceName in
  let ents := [(resourceUID, resource_attrs resourceName extraAttrs)] in
  let req := CedarRequest principal action resourceUID in
  let '(decision, reasons) := cedar_authorize (policySet e) ents req in
  let allowed := match decision with CedarAllow => true | CedarDeny => false end in
  let '(d, declared) := determine e (Disposition.derivedDisposition allowed, false) reasons in
  {| Allowed := allowed && Disposition.PermitsExecution d;
     PolicyID := match reasons with [] => "" | r :: _ => r end;
     CedarDecision := decision_string decision;
     DecisionDisposition := d;
     DispositionDeclared := declared |}.

Definition isAllowedFor (e : Engine) (principalType principalID toolName : string) : Decision :=
  authorize e principalType principalID "Tool" toolName [].
Definition IsAllowed (e : Engine) (agentManifestRef toolName : string) : Decision :=
  isAllowedFor e "Agent" agentManifestRef toolName.
Definition IsAllowedForPrincipal (e : Engine) (principalType principalID toolName : string)
  : Decision :=
  isAllowedFor e principalType principalID toolName.
Definition IsAllowedToDelegate (e : Engine) (agentManifestRef remoteAgentID : string) : Decision :=
  authorize e "Agent" agentManifestRef "RemoteAgent" remoteAgentID [].
Definition IsAllowedToRunActivity (e : Engine) (agentManifestRef activityName taskQueue : string)
  : Decision :=
  authorize e "Agent" agentManifestRef "ExternalActivity" activityName
    [{[ "task_queue" := taskQueue ]}].

(** A well-formed engine: every declared disposition is one of the four and
    belongs to a policy of the set. *)
Definition engine_wf `{!CedarLaws} (e : Engine) : Prop :=
  (∀ id d, dispositions e !! id = Some d → Disposition.Valid d = true ∧ id ∈ ps_ids (policySet e)).

(** *** The disposition of a decision *)

Definition declared_strictness (e : Engine) (reason : string) : Z :=
  match dispositions e !! reason with Some d => Disposition.strictness d | None => -1 end.

Lemma determine_cons e init r rs :
  determine e init (r :: rs)
  = determine e (match dispositions e !! r with
                 | Some d' => (Disposition.stricter init.1 d', true)
                 | None => init
                 end) rs.
Proof. unfold determine; simpl. by destruct init, (dispositions e !! r). Qed.

Lemma determine_strictness e d b rs :
  (-1 ≤ Disposition.strictness d)%Z →
  Disposition.strictness (determine e (d, b) rs).1
  = foldr Z.max (Disposition.strictness d) (declared_strictness e <$> rs).
Proof.
  revert d b. induction rs as [|r rs IH]; intros d b Hd; [done|].
  rewrite determine_cons. csimpl. unfold declared_strictness at 1.
  destruct (dispositions e !! r) as [d'|]; csimpl.
  - rewrite IH by (rewrite Disposition.stricter_strictness; lia).
    rewrite Disposition.stricter_strictness.
    clear. induction rs; csimpl; lia.
  - rewrite IH by done. enough (-1 ≤ foldr Z.max (Disposition.strictness d)
      (declared_strictness e <$> rs))%Z by lia.
    clear -Hd. induction rs; csimpl; lia.
Qed.

Lemma determine_valid e d b rs :
  Disposition.Valid d = true → Disposition.Valid (determine e (d, b) rs).1 = true.
Proof.
  revert d b. induction rs as [|r rs IH]; intros d b Hd; [done|].
  rewrite determine_cons. destruct (dispositions e !! r); simpl; apply IH; [|done].
  by apply Disposition.stricter_valid.
Qed.

Lemma foldr_max_le (z : Z) (l : list Z) k :
  (foldr Z.max z l ≤ k)%Z ↔ (z ≤ k)%Z ∧ ∀ x, x ∈ l → (x ≤ k)%Z.
Proof.
  induction l as [|y l IH]; simpl.
  - split; [intros ?; split; [done|]; by intros x ?%not_elem_of_nil|naive_solver].
  - rewrite Z.max_lub_iff, IH. setoid_rewrite elem_of_cons. naive_solver.
Qed.

Lemma foldr_max_ge (z : Z) (l : list Z) : (z ≤ foldr Z.max z l)%Z.
Proof. induction l; simpl; lia. Qed.

Lemma foldr_max_gt (z : Z) (l : list Z) k :
  (z ≤ k)%Z → ¬ (foldr Z.max z l ≤ k)%Z ↔ ∃ x, x ∈ l ∧ ¬ (x ≤ k)%Z.
Proof.
  intros Hz. induction l as [|y l IH]; simpl.
  - split; [lia|intros (x & ?%not_elem_of_nil & _); done].
  - rewrite Z.max_lub_iff. setoid_rewrite elem_of_cons. split.
    + intros Hn. destruct (decide (y ≤ k)%Z) as [Hy|Hy]; [|by eauto].
      destruct (proj1 IH) as (x & ? & ?); [naive_solver|eauto].
    + intros (x & [-> |Hx] & Hk) [? ?]; [done|]. by apply IH; eauto.
Qed.

Lemma derived_valid b : Disposition.Valid (Disposition.derivedDisposition b) = true.
Proof. by destruct b. Qed.

(** *** Loading *)

Lemma load_parsed_wf `{!CedarLaws} p count n e parsed e' :
  (disposition p ≠ "" → Disposition.Valid (disposition p) = true) →
  engine_wf e → load_parsed p count n e parsed = Ok e' → engine_wf e'.
Proof.
  intros Hp He. unfold load_parsed.
  destruct (ps_add _ _ _) as [fresh ps] eqn:Hadd. destruct fresh; [|done]. intros [= <-].
  pose proof (ps_add_ids (policySet e) (policy_id p count n) parsed) as Hids.
  rewrite Hadd in Hids; simpl in Hids. intros id d; simpl. rewrite Hids.
  destruct (sempty (disposition p)) eqn:Hd.
  - intros Hid. destruct (He id d Hid). set_solver.
  - apply sempty_false in Hd. rewrite lookup_insert. case_decide; subst.
    + intros [= <-]. set_solver.
    + intros Hid. destruct (He id d Hid). set_solver.
Qed.

Lemma validate_declared_valid eff d :
  Disposition.validateDeclaredDisposition eff d = Ok tt → d ≠ "" → Disposition.Valid d = true.
Proof.
  unfold Disposition.validateDeclaredDisposition. intros Hv Hd.
  apply sempty_false in Hd. rewrite Hd in Hv. by destruct (Disposition.Valid d).
Qed.

Lemma load_item_wf `{!CedarLaws} i e p e' :
  engine_wf e → load_item i e p = Ok e' → engine_wf e'.
Proof.
  intros He. unfold load_item. destruct (sempty _); [done|].
  destruct (Disposition.validateDeclaredDisposition _ _) as [[]|] eqn:Hv; [|done].
  destruct (parse_policy_list _ _) as [l|]; [|done]. intros Hl.
  assert (ifold_res (load_parsed p (length l)) 0 e l = Ok e') as Hf by (by destruct l).
  eapply (ifold_res_prefix (λ _ e, engine_wf e)); [|exact He|exact Hf].
  intros; eapply load_parsed_wf; eauto using validate_declared_valid.
Qed.
End Engine.
End Engine.
Export (hints) Engine.

(** ** The theorems about decisions *)

Module Decisions.
Import Engine.
Section Decisions.
Context `{HC : Cedar, HL : !CedarLaws}.

(** What Cedar answered for a request of the engine. *)
Definition cedar_answer (e : Engine) (pt pid rt rn : string) (extra : list (gmap string string))
  : cedar_decision * list string :=
  cedar_authorize (policySet e) [(EntityUID rt rn, resource_attrs rn extra)]
    (CedarRequest (EntityUID pt pid) (EntityUID "Action" rn) (EntityUID rt rn)).

(** C10. A call is allowed exactly when Cedar allows it and every determining
    policy that declares a disposition declares [allow]: a [require_approval]
    or a refusing disposition on any of them keeps the effect from running. *)
Theorem authorize_allowed_iff e pt pid rt rn extra :
  engine_wf e →
  Allowed (authorize e pt pid rt rn extra) = true ↔
  (cedar_answer e pt pid rt rn extra).1 = CedarAllow ∧
  ∀ reason d, reason ∈ (cedar_answer e pt pid rt rn extra).2 →
    dispositions e !! reason = Some d → d = Disposition.Allow.
Proof.
  intros Hwf. unfold authorize, cedar_answer.
  destruct (cedar_authorize _ _ _) as [dec reasons] eqn:Hc; simpl.
  destruct (determine e _ reasons) as [d declared] eqn:Hd; simpl.
  destruct dec; simpl; [|naive_solver].
  unfold Disposition.PermitsExecution. rewrite bool_decide_eq_true.
  pose proof (determine_strictness e Disposition.Allow false reasons) as Hs.
  pose proof (determine_valid e Disposition.Allow false reasons eq_refl) as Hv.
  unfold Disposition.derivedDisposition in Hd. rewrite Hd in Hs, Hv; simpl in Hs, Hv.
  specialize (Hs ltac:(done)).
  assert (d = Disposition.Allow ↔ (Disposition.strictness d ≤ 0)%Z) as ->.
  { split; [by intros ->|]. intros Hle. apply Disposition.strictness_inj; [done|].
    apply Disposition.strictness_Valid in Hv. change (Disposition.strictness Disposition.Allow) with 0%Z. lia. }
  rewrite Hs, foldr_max_le.
  change (Disposition.strictness Disposition.Allow) with 0%Z. split.
  - intros [_ Hall]. split; [done|]. intros reason d' Hr Hd'.
    destruct (Hwf _ _ Hd') as [Hval _].
    specialize (Hall (declared_strictness e reason)). unfold declared_strictness in Hall.
    rewrite Hd' in Hall. apply Disposition.strictness_inj; [done|].
    apply Disposition.strictness_Valid in Hval.
    change (Disposition.strictness Disposition.Allow) with 0%Z.
    enough (Disposition.strictness d' ≤ 0)%Z by lia. apply Hall.
    apply list_elem_of_fmap. exists reason. unfold declared_strictness. by rewrite Hd'.
  - intros [_ Hall]. split; [done|]. intros x (reason & -> & Hr)%list_elem_of_fmap.
    unfold declared_strictness. destruct (dispositions e !! reason) as [d'|] eqn:Hd'; [|lia].
    by rewrite (Hall _ _ Hr Hd').
Qed.

(** A refusal is never softened: when Cedar denies, the disposition is
    [deny_step] or [terminate_run], and it is [terminate_run] exactly when one
    of the determining policies declares it. *)
Theorem authorize_denied_disposition e pt pid rt rn extra :
  (cedar_answer e pt pid rt rn extra).1 = CedarDeny →
  let d := DecisionDisposition (authorize e pt pid rt rn extra) in
  (d = Disposition.DenyStep ∨ d = Disposition.TerminateRun) ∧
  (d = Disposition.TerminateRun ↔
   ∃ reason, reason ∈ (cedar_answer e pt pid rt rn extra).2 ∧
     dispositions e !! reason = Some Disposition.TerminateRun).
Proof.
  unfold authorize, cedar_answer.
  destruct (cedar_authorize _ _ _) as [dec reasons] eqn:Hc; simpl. intros ->; simpl.
  destruct (determine e _ reasons) as [d declared] eqn:Hd; simpl.
  pose proof (determine_strictness e Disposition.DenyStep false reasons) as Hs.
  pose proof (determine_valid e Disposition.DenyStep false reasons eq_refl) as Hv.
  rewrite Hd in Hs, Hv; simpl in Hs, Hv. specialize (Hs ltac:(done)).
  change (Disposition.strictness Disposition.DenyStep) with 2%Z in Hs.
  pose proof (foldr_max_ge 2 (declared_strictness e <$> reasons)) as Hge. rewrite <-Hs in Hge.
  split; [by apply Disposition.strictness_refuses|].
  rewrite <-Disposition.strictness_above_deny, Hs, foldr_max_gt by done. split.
  - intros (x & (reason & -> & Hr)%list_elem_of_fmap & Hx). exists reason. split; [done|].
    revert Hx. unfold declared_strictness.
    destruct (dispositions e !! reason) as [d'|]; [|intros []; lia].
    by intros ->%Disposition.strictness_above_deny.
  - intros (reason & Hr & Hd'). exists (declared_strictness e reason).
    split; [by apply list_elem_of_fmap_2|]. unfold declared_strictness. rewrite Hd'.
    by apply Disposition.strictness_above_deny.
Qed.
End Decisions.
End Decisions.

(** ** The per-tenant set (registry.go) *)

Module PolicySet.
Import Engine.
Section PolicySet.
Context `{Cedar}.

(** A [*Set]; the nil pointer is [None]. *)
Record Set_ := { byTenant : gmap string Engine }.

(** [tenantFileName]: [<tenant>.yaml] or [<tenant>.yml], giving the tenant. *)
Definition strip_suffix (s suf : string) : option string :=
  if has_suffix s suf then Some (take_str (slen s - slen suf) s) else None.
Definition tenantFileName (name : string) : option string :=
  match strip_suffix name ".yaml", strip_suffix name ".yml" with
  | Some t, _ => if ident63 t then Some t else None
  | None, Some t => if ident63 t then Some t else None
  | None, None => None
  end.

Inductive set_error :=
| ReadDir (dir msg : string)
| NotATenantFile (path : string)
| ReadBundle (path msg : string)
| LoadBundle (path : string) (e : error)
| NoBundles (dir : string).

(** A directory entry as [os.ReadDir] lists it. *)
Record DirEntry := { entry_name : string; entry_is_dir : bool }.

(** The filesystem and the YAML decoder: reading and parsing one bundle file. *)
Context (read_bundle : string → result string PolicyBundleDoc).
(** [filepath.Join]. *)
Context (join : string → string → string).

Definition loadEngineFile (path : string) : result set_error Engine :=
  match read_bundle path with
  | Err msg => Err (ReadBundle path msg)
  | Ok doc => match LoadEngine doc with
              | Err e => Err (LoadBundle path e)
              | Ok engine => Ok engine
              end
  end.

Definition load_entry (dir : string) (m : gmap string Engine) (entry : DirEntry)
  : result set_error (gmap string Engine) :=
  if entry_is_dir entry then Ok m
  else match tenantFileName (entry_name entry) with
  | None => Err (NotATenantFile (join dir (entry_name entry)))
  | Some tenant =>
      match loadEngineFile (join dir (entry_name entry)) with
      | Err e => Err e
      | Ok engine => Ok (<[tenant := engine]> m)
      end
  end.

(** The engine the directory's files give a tenant: its last file's. *)
Definition file_of (t : string) (entry : DirEntry) : Prop :=
  entry_is_dir entry = false ∧ tenantFileName (entry_name entry) = Some t.

Lemma load_entry_lookup dir m entry m' t :
  load_entry dir m entry = Ok m' →
  (¬ file_of t entry ∧ m' !! t = m !! t) ∨
  (file_of t entry ∧ ∃ e, loadEngineFile (join dir (entry_name entry)) = Ok e ∧ m' !! t = Some e).
Proof.
  unfold load_entry, file_of. destruct (entry_is_dir entry); [intros [= <-]; naive_solver|].
  destruct (tenantFileName _) as [u|]; [|done].
  destruct (loadEngineFile _) as [e|]; [|done]. intros [= <-].
  destruct (decide (u = t)) as [->|Hne].
  - right. rewrite lookup_insert_eq. eauto.
  - left. rewrite lookup_insert_ne by done. naive_solver.
Qed.

Lemma load_entries_lookup dir entries m t :
  fold_res (load_entry dir) ∅ entries = Ok m →
  match m !! t with
  | None => ∀ entry, entry ∈ entries → ¬ file_of t entry
  | Some e => ∃ entry, entry ∈ entries ∧ file_of t entry ∧
                loadEngineFile (join dir (entry_name entry)) = Ok e
  end.
Proof.
  intros Hf. eapply (fold_res_prefix (λ pre (m : gmap string Engine),
    match m !! t with
    | None => ∀ entry, entry ∈ pre → ¬ file_of t entry
    | Some e => ∃ entry, entry ∈ pre ∧ file_of t entry ∧
                  loadEngineFile (join dir (entry_name entry)) = Ok e
    end)); [|rewrite lookup_empty; by intros ? ?%not_elem_of_nil|exact Hf].
  intros pre entry m1 m2 Hpre [[Hno ->]|(Hfile & e & He & ->)]%(load_entry_lookup _ _ _ _ t).
  - destruct (m1 !! t) as [e|].
    + destruct Hpre as (en & ? & ?). exists en. set_solver.
    + intros en [Hen| ->%list_elem_of_singleton]%elem_of_app; auto.
  - exists entry. set_solver.
Qed.
(** Listing a directory. *)
Context (read_dir : string → result string (list DirEntry)).

Definition LoadSetFromDir (dir : string) : result set_error Set_ :=
  match read_dir dir with
  | Err msg => Err (ReadDir dir msg)
  | Ok entries =>
      match fold_res (load_entry dir) ∅ entries with
      | Err e => Err e
      | Ok m => if (size m =? 0)%nat then Err (NoBundles dir) else Ok {| byTenant := m |}
      end
  end.

Definition LoadSetForSingleTenant (tenant path : string) : result set_error Set_ :=
  match loadEngineFile path with
  | Err e => Err e
  | Ok engine => Ok {| byTenant := {[ tenant := engine ]} |}
  end.

Definition SingleTenantSet (tenant : string) (e : Engine) : Set_ :=
  {| byTenant := {[ tenant := e ]} |}.

Definition EngineFor (s : option Set_) (tenant : string) : option Engine :=
  match s with
  | None => None
  | Some s => if sempty tenant then None else byTenant s !! tenant
  end.

(** Map iteration order does not show: the tenants are sorted. *)
Definition Tenants `{GoRuntime} (s : option Set_) : list string :=
  match s with
  | None => []
  | Some s => sort_slice str_ltb (map_to_list (byTenant s)).*1
  end.
Definition set_String `{GoRuntime} (s : option Set_) : string := str_join ", " (Tenants s).

End PolicySet.
End PolicySet.

(** ** Loading a bundle *)

Module Loading.
Import Engine.
Section Loading.
Context `{HC : Cedar, HL : !CedarLaws}.

(** A declared disposition comes from an entry of the bundle that names the id
    and whose effect it does not contradict. *)
Definition declared_by (doc_items : list PolicyBundleItem) (id d : string) : Prop :=
  ∃ p n count, p ∈ doc_items ∧ id = policy_id p count n ∧ disposition p = d ∧
    Disposition.validateDeclaredDisposition (effect p) d = Ok tt.

Lemma load_item_dispositions i e p e' id d :
  load_item i e p = Ok e' → dispositions e' !! id = Some d →
  dispositions e !! id = Some d ∨ declared_by [p] id d.
Proof.
  unfold load_item. destruct (sempty (item_id p)); [done|].
  destruct (Disposition.validateDeclaredDisposition _ _) as [[]|] eqn:Hv; [|done].
  destruct (parse_policy_list _ _) as [l|]; [|done]. intros Hl.
  assert (ifold_res (load_parsed p (length l)) 0 e l = Ok e') as Hf by (by destruct l).
  revert id d. eapply (ifold_res_prefix (λ _ e', ∀ id d,
    dispositions e' !! id = Some d → dispositions e !! id = Some d ∨ declared_by [p] id d));
    [|naive_solver|exact Hf].
  intros n pre x e1 e2 Hpre. unfold load_parsed.
  destruct (ps_add _ _ _) as [[] ps]; [|done]. intros [= <-] id d; simpl.
  destruct (sempty (disposition p)); [apply Hpre|].
  rewrite lookup_insert. case_decide; [|apply Hpre]. intros [= <-]. right.
  exists p, n, (length l). subst. split; [set_solver|]. done.
Qed.

Lemma LoadEngine_declared doc e :
  LoadEngine doc = Ok e →
  engine_wf e ∧ ∀ id d, dispositions e !! id = Some d → declared_by (policies doc) id d.
Proof.
  unfold LoadEngine. intros Hl.
  assert (ifold_res load_item 0 {| policySet := new_policy_set; dispositions := ∅ |}
            (policies doc) = Ok e) as Hf by (by destruct (policies doc)).
  eapply (ifold_res_prefix (λ pre e, engine_wf e ∧
    ∀ id d, dispositions e !! id = Some d → declared_by pre id d)); [| |exact Hf].
  - intros i pre p e1 e2 [Hwf Hdecl] Hitem. split; [by eapply load_item_wf|].
    intros id d Hid. destruct (load_item_dispositions _ _ _ _ _ _ Hitem Hid) as [Hid'|Hp].
    + destruct (Hdecl _ _ Hid') as (q & n & c & ? & ?). exists q, n, c. set_solver.
    + destruct Hp as (q & n & c & ? & ?). exists q, n, c. set_solver.
  - split; intros id d; simpl; rewrite lookup_empty; done.
Qed.

(** A bundle that loads is not empty, and gives an engine whose declared
    dispositions are all valid, belong to policies of the set, and agree with
    the effect of the bundle entry that declares them. *)
Theorem LoadEngine_sound doc e :
  LoadEngine doc = Ok e →
  policies doc ≠ [] ∧ engine_wf e ∧
  ∀ id d, dispositions e !! id = Some d → declared_by (policies doc) id d.
Proof.
  intros Hl. split; [|by apply LoadEngine_declared]. unfold LoadEngine in Hl.
  by destruct (policies doc).
Qed.

Context (read_dir : string → result string (list PolicySet.DirEntry)).
Context (read_bundle : string → result string PolicyBundleDoc).
Context (join : string → string → string).

(** The set a directory gives authorizes exactly the tenants its files
    name: a tenant with a file has an engine loaded from one of its files, and
    a tenant without one has none, which every caller treats as a denial. *)
Theorem LoadSetFromDir_engines dir entries s t :
  read_dir dir = Ok entries →
  PolicySet.LoadSetFromDir read_bundle join read_dir dir = Ok s →
  match PolicySet.EngineFor (Some s) t with
  | Some e => ident63 t = true ∧ engine_wf e ∧
      ∃ entry, entry ∈ entries ∧ PolicySet.file_of t entry ∧
        PolicySet.loadEngineFile read_bundle (join dir (PolicySet.entry_name entry)) = Ok e
  | None => t = "" ∨ ∀ entry, entry ∈ entries → ¬ PolicySet.file_of t entry
  end.
Proof.
  intros Hr. unfold PolicySet.LoadSetFromDir, PolicySet.EngineFor. rewrite Hr.
  destruct (fold_res _ ∅ entries) as [m|] eqn:Hf; [|done]. destruct (size m =? 0)%nat; [done|]. intros [= <-].
  destruct (sempty t) eqn:Ht; [left; by apply sempty_true|]. simpl.
  pose proof (PolicySet.load_entries_lookup read_bundle join dir entries m t Hf) as Hlk.
  destruct (m !! t) as [e|]; [|by right].
  destruct Hlk as (entry & Hin & Hfile & He).
  split; [|split; [|eauto]].
  - destruct Hfile as [_ Hn]. unfold PolicySet.tenantFileName in Hn. cases; done.
  - unfold PolicySet.loadEngineFile in He. destruct (read_bundle _); [|done].
    destruct (LoadEngine _) as [e'|] eqn:Hle; [|done]. injection He as <-.
    by apply LoadEngine_declared in Hle as [? _].
Qed.
End Loading.
End Loading.

(** ** A concrete Cedar for the witnesses *)

Module ToyCedar.
Import Engine.

(** A policy permits or forbids one action; a source is ["permit x"] or
    ["forbid x"], and anything else does not parse. *)
Definition toy_parse (_ src : string) : result string (list (bool * string)) :=
  if has_prefix src "permit " then Ok [(true, drop_str 7 src)]
  else if has_prefix src "forbid " then Ok [(false, drop_str 7 src)]
  else Err "unexpected token".

Definition toy_ids (ps : gmap string (bool * string)) (permit : bool) (action : string)
  : list string :=
  (filter (λ kv, kv.2 = (permit, action)) (map_to_list ps)).*1.

Definition toy_authorize (ps : gmap string (bool * string)) (_ : entities) (rq : cedar_request)
  : cedar_decision * list string :=
  match toy_ids ps false (uid_id (req_action rq)), toy_ids ps true (uid_id (req_action rq)) with
  | [], [] => (CedarDeny, [])
  | [], permits => (CedarAllow, permits)
  | forbids, _ => (CedarDeny, forbids)
  end.

#[export] Instance toy_cedar : Cedar := {|
  cedar_policy := bool * string;
  policy_set := gmap string (bool * string);
  new_policy_set := ∅;
  ps_add ps id p := (bool_decide (id ∉ dom ps), <[id := p]> ps);
  parse_policy_list := toy_parse;
  cedar_authorize := toy_authorize;
  decision_string d := match d with CedarAllow => "allow" | CedarDeny => "deny" end;
|}.

Lemma toy_ids_in ps b a id : id ∈ toy_ids ps b a → id ∈ dom ps.
Proof.
  unfold toy_ids. intros ((k & v) & -> & [_ Hin]%list_elem_of_filter)%list_elem_of_fmap.
  apply elem_of_dom. exists v. by apply elem_of_map_to_list.
Qed.

#[export] Program Instance toy_cedar_laws : CedarLaws := {| ps_ids := dom |}.
Next Obligation. exact (dom_empty_L (M := gmap string) (D := gset string)). Qed.
Next Obligation. done. Qed.
Next Obligation.
  intros ps id p. exact (dom_insert_L (M := gmap string) (D := gset string) ps id p).
Qed.
Next Obligation.
  intros ps es rq id. simpl. unfold toy_authorize.
  destruct (toy_ids ps false _) as [|f fs] eqn:Hf.
  - destruct (toy_ids ps true _) as [|p ps'] eqn:Hp; simpl; [by intros ?%not_elem_of_nil|].
    rewrite <-Hp. apply toy_ids_in.
  - simpl. rewrite <-Hf. apply toy_ids_in.
Qed.

Definition item (id eff src disp : string) : PolicyBundleItem :=
  {| item_id := id; effect := eff; cedarSource := src; disposition := disp |}.
Definition bundle (ps : list PolicyBundleItem) : PolicyBundleDoc :=
  {| apiVersion := "aeon.dev/v1"; kind := "PolicyBundle"; cedarVersion := "4"; policies := ps |}.

Definition toy_doc : PolicyBundleDoc := bundle [
  item "search" "permit" "permit search.web" "";
  item "ask" "permit" "permit shell.exec" "require_approval";
  item "stop" "forbid" "forbid secrets.read" "terminate_run"].
Definition toy_engine : Engine :=
  match LoadEngine toy_doc with Ok e => e | Err _ => {| policySet := new_policy_set; dispositions := ∅ |} end.

Lemma toy_engine_wf : engine_wf toy_engine.
Proof. apply (Loading.LoadEngine_declared toy_doc). reflexivity. Qed.

(** The three behaviours on one bundle. *)
Example toy_search : IsAllowed toy_engine "a@1" "search.web" = {|
  Allowed := true; PolicyID := "search"; CedarDecision := "allow";
  DecisionDisposition := "allow"; DispositionDeclared := false |}.
Proof. vm_compute. reflexivity. Qed.
Example toy_approval : IsAllowed toy_engine "a@1" "shell.exec" = {|
  Allowed := false; PolicyID := "ask"; CedarDecision := "allow";
  DecisionDisposition := "require_approval"; DispositionDeclared := true |}.
Proof. vm_compute. reflexivity. Qed.
Example toy_unknown : IsAllowed toy_engine "a@1" "rm" = {|
  Allowed := false; PolicyID := ""; CedarDecision := "deny";
  DecisionDisposition := "deny_step"; DispositionDeclared := false |}.
Proof. vm_compute. reflexivity. Qed.
End ToyCedar.

Module PolicyWitnesses.
Import Engine ToyCedar.

Lemma authorize_allowed_iff_witness :
  Allowed (authorize toy_engine "Agent" "a@1" "Tool" "search.web" []) = true.
Proof.
  apply (Decisions.authorize_allowed_iff toy_engine "Agent" "a@1" "Tool" "search.web" []).
  - exact toy_engine_wf.
  - vm_compute. split; [reflexivity|]. intros r d Hr.
    apply list_elem_of_singleton in Hr. subst. discriminate.
Defined.

Lemma authorize_denied_disposition_witness :
  DecisionDisposition (authorize toy_engine "Agent" "a@1" "Tool" "secrets.read" [])
  = Disposition.TerminateRun.
Proof.
  apply (Decisions.authorize_denied_disposition toy_engine "Agent" "a@1" "Tool" "secrets.read" []).
  - reflexivity.
  - exists "stop". split; [vm_compute; left|reflexivity].
Defined.

Lemma LoadEngine_sound_witness : policies toy_doc ≠ [].
Proof. apply (Loading.LoadEngine_sound toy_doc toy_engine). reflexivity. Defined.

Definition toy_dir : list PolicySet.DirEntry :=
  [{| PolicySet.entry_name := "team-a.yaml"; PolicySet.entry_is_dir := false |};
   {| PolicySet.entry_name := "old"; PolicySet.entry_is_dir := true |}].

Definition toy_read_dir (_ : string) : result string (list PolicySet.DirEntry) := Ok toy_dir.
Definition toy_read_bundle (_ : string) : result string PolicyBundleDoc := Ok toy_doc.
Definition toy_join (d f : string) : string := d +:+ "/" +:+ f.
Definition toy_set : PolicySet.Set_ := {| PolicySet.byTenant := {["team-a" := toy_engine]} |}.

Lemma toy_set_loads :
  PolicySet.LoadSetFromDir toy_read_bundle toy_join toy_read_dir "bundles" = Ok toy_set.
Proof. reflexivity. Qed.

Lemma LoadSetFromDir_engines_witness :
  PolicySet.EngineFor (Some toy_set) "team-a" = Some toy_engine ∧ ident63 "team-a" = true.
Proof.
  split; [reflexivity|].
  exact (proj1 (Loading.LoadSetFromDir_engines toy_read_dir toy_read_bundle toy_join
    "bundles" toy_dir toy_set "team-a" eq_refl toy_set_loads)).
Defined.
End PolicyWitnesses.
