(* ===== verification/Auth.v ===== *)
(** * Package auth: callers, their tokens and their entitlements

    Models go/internal/auth/auth.go and load.go: validating a caller bundle,
    authenticating a bearer token, and the two entitlement checks every handler
    uses. The YAML decoder, the filesystem and the non-ASCII part of
    [strings.ToLower] are parameters. *)

From S2P Require Import Prelude GoValue Sha256 Policy.

Local Open Scope string_scope.
Set Default Proof Using "Type*".

(** ** Callers *)

Definition KindService : string := "service".
Definition KindHuman : string := "human".
Definition KindExternal : string := "external".

Record Caller := {
  ID : string;
  Kind : string;
  TokenSHA256 : string;
  MayActAs : list string;
  MayApprove : bool;
  Tenant : string;
  MayActForTenants : list string;
}.

Definition ActsForTenant (c : Caller) (tenant : string) : bool :=
  bool_decide (tenant = Tenant c) || existsb (λ allowed, bool_decide (allowed = tenant)) (MayActForTenants c).

Definition ActsAs (c : Caller) (agentManifestRef : string) : bool :=
  existsb (λ allowed, bool_decide (allowed = agentManifestRef)) (MayActAs c).

Record CallerBundleDoc := {
  doc_apiVersion : string;
  doc_Kind : string;
  Callers : list Caller;
}.

Record Authenticator := { byTokenHash : gmap string Caller }.

Inductive load_error :=
| BadBundleKind (kind : string)
| ErrNoCallers
| CallerWithoutID (i : nat)
| DuplicateCallerID (id : string)
| BadKind (id kind : string)
| NoTenant (id : string)
| BadTenant (id tenant : string)
| EmptyActFor (id : string)
| BadActFor (id tenant : string)
| RepeatedActFor (id tenant : string)
| ActForNotService (id kind : string)
| HashLength (id : string) (len : nat)
| HashNotHex (id : string)
| SharedToken (other id : string).

Definition valid_kind (k : string) : bool :=
  bool_decide (k = KindService) || bool_decide (k = KindHuman) || bool_decide (k = KindExternal).

Definition is_hex (c : Ascii.ascii) : bool := is_hex_lower c || byte_in 65 70 c.

Section Load.
Context (unicode_lower : string → string).

(** [strings.ToLower]. *)
Definition to_lower (s : string) : string :=
  if is_ascii s then str_map lower_byte s else unicode_lower s.

(** The loop over [mayActForTenants]: the entries seen and the ones kept. *)
Definition act_for_step (id tenant : string) (st : gset string * list string) (t : string)
  : result load_error (gset string * list string) :=
  let '(seen, kept) := st in
  let t := trim_space t in
  if sempty t then Err (EmptyActFor id)
  else if negb (ident63 t) then Err (BadActFor id t)
  else if bool_decide (t ∈ seen) then Err (RepeatedActFor id t)
  else Ok ({[ t ]} ∪ seen, if bool_decide (t = tenant) then kept else (kept ++ [t])%list).

(** One iteration of the loop over the bundle's callers. *)
Definition load_caller (i : nat) (st : gmap string Caller * gset string) (c : Caller)
  : result load_error (gmap string Caller * gset string) :=
  let '(byHash, seenID) := st in
  if sempty (ID c) then Err (CallerWithoutID i)
  else if bool_decide (ID c ∈ seenID) then Err (DuplicateCallerID (ID c))
  else if negb (valid_kind (Kind c)) then Err (BadKind (ID c) (Kind c))
  else
  let tenant := trim_space (Tenant c) in
  if sempty tenant then Err (NoTenant (ID c))
  else if negb (ident63 tenant) then Err (BadTenant (ID c) tenant)
  else match fold_res (act_for_step (ID c) tenant) (∅, []) (MayActForTenants c) with
  | Err e => Err e
  | Ok (_, kept) =>
    if negb (length kept =? 0)%nat && negb (bool_decide (Kind c = KindService))
    then Err (ActForNotService (ID c) (Kind c))
    else
    let hash := to_lower (trim_space (TokenSHA256 c)) in
    if negb (slen hash =? 64)%nat then Err (HashLength (ID c) (slen hash))
    else if negb (str_all is_hex hash) then Err (HashNotHex (ID c))
    else match byHash !! hash with
    | Some other => Err (SharedToken (ID other) (ID c))
    | None =>
        Ok (<[hash := {| ID := ID c; Kind := Kind c; TokenSHA256 := hash;
                         MayActAs := MayActAs c; MayApprove := MayApprove c;
                         Tenant := tenant; MayActForTenants := kept |}]> byHash,
            {[ ID c ]} ∪ seenID)
    end
  end.

Definition Load (doc : CallerBundleDoc) : result load_error Authenticator :=
  if negb (sempty (doc_Kind doc)) && negb (bool_decide (doc_Kind doc = "CallerBundle"))
  then Err (BadBundleKind (doc_Kind doc))
  else match Callers doc with
  | [] => Err ErrNoCallers
  | cs => match ifold_res load_caller 0 (∅, ∅) cs with
          | Ok (m, _) => Ok {| byTokenHash := m |}
          | Err e => Err e
          end
  end.

(** *** One directory of bundles (load.go) *)

Inductive dir_error :=
| CallersReadDir (dir msg : string)
| CallersFileName (path : string)
| CallersFile (path msg : string)
| CallersFileKind (path kind : string)
| CallersFileEmpty (path : string)
| CallersForeignTenant (path id tenant expected : string)
| CallersRepeatedID (id previous path : string)
| CallersMerged (dir : string) (e : load_error).

(** Reading and parsing one caller bundle, listing a directory, and
    [filepath.Join]. *)
Context (read_callers : string → result string CallerBundleDoc).
Context (join : string → string → string).

Definition dir_caller (path tenant : string) (st : gmap string string * list Caller) (c : Caller)
  : result dir_error (gmap string string * list Caller) :=
  let '(fileOf, merged) := st in
  if negb (bool_decide (Tenant c = tenant))
  then Err (CallersForeignTenant path (ID c) (Tenant c) tenant)
  else match fileOf !! ID c with
  | Some previous => Err (CallersRepeatedID (ID c) previous path)
  | None => Ok (<[ID c := path]> fileOf, (merged ++ [c])%list)
  end.

Definition dir_file (dir : string) (st : gmap string string * list Caller) (name : string)
  : result dir_error (gmap string string * list Caller) :=
  match PolicySet.tenantFileName name with
  | None => Err (CallersFileName (join dir name))
  | Some tenant =>
    match read_callers (join dir name) with
    | Err msg => Err (CallersFile (join dir name) msg)
    | Ok doc =>
      if negb (sempty (doc_Kind doc)) && negb (bool_decide (doc_Kind doc = "CallerBundle"))
      then Err (CallersFileKind (join dir name) (doc_Kind doc))
      else match Callers doc with
      | [] => Err (CallersFileEmpty (join dir name))
      | cs => fold_res (dir_caller (join dir name) tenant) st cs
      end
    end
  end.

Context (read_dir : string → result string (list PolicySet.DirEntry)).

Definition LoadDir `{GoRuntime} (dir : string) : result dir_error Authenticator :=
  match read_dir dir with
  | Err msg => Err (CallersReadDir dir msg)
  | Ok entries =>
    let names := map PolicySet.entry_name
                   (List.filter (λ e, negb (PolicySet.entry_is_dir e)) entries) in
    match fold_res (dir_file dir) (∅, []) (sort_slice str_ltb names) with
    | Err e => Err e
    | Ok (_, merged) =>
      match Load {| doc_apiVersion := ""; doc_Kind := "CallerBundle"; Callers := merged |} with
      | Err e => Err (CallersMerged dir e)
      | Ok a => Ok a
      end
    end
  end.

Definition LoadFile (path : string) : result (string + load_error) Authenticator :=
  match read_callers path with
  | Err msg => Err (inl msg)
  | Ok doc => match Load doc with Err e => Err (inr e) | Ok a => Ok a end
  end.
End Load.

(** ** Authentication *)

Inductive auth_error := ErrUnauthenticated.

Definition HashToken (token : string) : string := sha256_hex token.

Definition Authenticate (a : option Authenticator) (token : string) : result auth_error Caller :=
  match a with
  | None => Err ErrUnauthenticated
  | Some a =>
    if sempty token then Err ErrUnauthenticated
    else let hash := HashToken token in
    match byTokenHash a !! hash with
    | None => Err ErrUnauthenticated
    | Some candidate =>
        if bool_decide (hash = TokenSHA256 candidate) then Ok candidate else Err ErrUnauthenticated
    end
  end.

(** The [Authorization] header's token. The prefix is compared ignoring case;
    none of its letters folds to a non-ASCII character. *)
Definition bearerToken (header : string) : string :=
  if (slen header <=? 7)%nat
     || negb (bool_decide (str_map lower_byte (take_str 7 header) = "bearer "))
  then "" else trim_space (drop_str 7 header).

(** [Require]: the middleware serves the next handler with the caller in the
    context, or answers 401. *)
Definition Require_ {R} (a : option Authenticator) (header : string)
    (unauthorized : R) (next : Caller → R) : R :=
  match Authenticate a (bearerToken header) with
  | Err _ => unauthorized
  | Ok caller => next caller
  end.

(** ** What a loaded bundle guarantees *)

(** A caller as an authenticator holds it. *)
Record caller_ok (c : Caller) : Prop := {
  ok_id : ID c ≠ "";
  ok_kind : valid_kind (Kind c) = true;
  ok_tenant : ident63 (Tenant c) = true;
  ok_hash : slen (TokenSHA256 c) = 64 ∧ str_all is_hex (TokenSHA256 c) = true;
  ok_act_for : Forall (λ t, ident63 t = true) (MayActForTenants c) ∧
               NoDup (Tenant c :: MayActForTenants c);
  ok_service : MayActForTenants c ≠ [] → Kind c = KindService;
}.

Section Stored.
Context (unicode_lower : string → string).

(** [stored] is [given] after validation: same identity and entitlements. *)
Definition stored_as (given stored : Caller) : Prop :=
  ID stored = ID given ∧ Kind stored = Kind given ∧ MayActAs stored = MayActAs given ∧
  MayApprove stored = MayApprove given ∧
  TokenSHA256 stored = to_lower unicode_lower (trim_space (TokenSHA256 given)) ∧
  Tenant stored = trim_space (Tenant given) ∧
  (∀ t, t ∈ MayActForTenants stored → ∃ t', t' ∈ MayActForTenants given ∧ t = trim_space t').

Definition table_ok (given : list Caller) (m : gmap string Caller) : Prop :=
  (∀ h c, m !! h = Some c → TokenSHA256 c = h ∧ caller_ok c ∧
     ∃ g, g ∈ given ∧ stored_as g c) ∧
  (∀ h h' c c', m !! h = Some c → m !! h' = Some c' → ID c = ID c' → h = h') ∧
  (∀ g, g ∈ given → ∃ h c, m !! h = Some c ∧ stored_as g c).
End Stored.

(** The invariant of the loop over [mayActForTenants]. *)
Definition act_for_inv (tenant : string) (pre : list string) (st : gset string * list string)
  : Prop :=
  (∀ t, t ∈ st.2 → t ∈ st.1) ∧ Forall (λ t, ident63 t = true) st.2 ∧ NoDup (tenant :: st.2) ∧
  ∀ t, t ∈ st.2 → ∃ t', t' ∈ pre ∧ t = trim_space t'.

Lemma act_for_ok id tenant raw seen kept :
  fold_res (act_for_step id tenant) (∅, []) raw = Ok (seen, kept) →
  Forall (λ t, ident63 t = true) kept ∧ NoDup (tenant :: kept) ∧
  ∀ t, t ∈ kept → ∃ t', t' ∈ raw ∧ t = trim_space t'.
Proof.
  intros Hf.
  enough (act_for_inv tenant raw (seen, kept)) as (? & ? & ? & ?) by done.
  eapply (fold_res_prefix (act_for_inv tenant)); [| |exact Hf].
  - intros pre x [sn kp] [sn' kp'] (Hin & Hid & Hnd & Hraw); simpl in *. unfold act_for_step, act_for_inv.
    destruct (sempty (trim_space x)); [done|].
    destruct (ident63 (trim_space x)) eqn:Hx; simpl; [|done].
    case_bool_decide as Hseen; [done|]. intros [= <- <-].
    case_bool_decide as Heq.
    + split; [set_solver|]. split; [done|]. split; [done|].
      intros t Ht. destruct (Hraw t Ht) as (t' & ? & ?). exists t'. set_solver.
    + split; [set_solver|]. split; [by apply Forall_app_2; [|constructor]|]. split.
      * apply NoDup_cons in Hnd as [Hnt Hnd]. apply NoDup_cons. split.
        -- rewrite elem_of_app, list_elem_of_singleton. naive_solver.
        -- apply NoDup_app. split; [done|]. split; [|apply NoDup_singleton].
           intros t Ht ->%list_elem_of_singleton. auto.
      * intros t [Ht| ->%list_elem_of_singleton]%elem_of_app.
        -- destruct (Hraw t Ht) as (t' & ? & ?). exists t'. set_solver.
        -- exists x. set_solver.
  - split; [set_solver|]. split; [constructor|]. split; [apply NoDup_singleton|set_solver].
Qed.

Section Load_lemmas.
Context (unicode_lower : string → string).
Local Abbreviation stored_as := (stored_as unicode_lower).
Local Abbreviation table_ok := (table_ok unicode_lower).

Lemma table_ok_insert pre m c st hash :
  table_ok pre m → m !! hash = None → (∀ h g, m !! h = Some g → ID g ≠ ID c) →
  caller_ok st → stored_as c st → TokenSHA256 st = hash →
  table_ok (pre ++ [c])%list (<[hash := st]> m).
Proof.
  intros (Hval & Hinj & Hcov) Hfresh Hnew Hok Hst Hhash.
  assert (ID st = ID c) as Hid by apply Hst. split_and!.
  - intros h g [[<- <-]|[Hne Hg]]%lookup_insert_Some.
    + split; [done|]. split; [done|]. exists c. set_solver.
    + destruct (Hval _ _ Hg) as (? & ? & g' & ? & ?). split; [done|]. split; [done|].
      exists g'. set_solver.
  - intros h h' g g' [[<- <-]|[? Hg]]%lookup_insert_Some [[<- <-]|[? Hg']]%lookup_insert_Some Heq;
      [done| | |by eauto].
    + destruct (Hnew _ _ Hg'). congruence.
    + destruct (Hnew _ _ Hg). congruence.
  - intros g [Hg| ->%list_elem_of_singleton]%elem_of_app.
    + destruct (Hcov g Hg) as (h & g' & Hg' & ?). exists h, g'. split; [|done].
      rewrite lookup_insert_ne; [done|]. intros <-. congruence.
    + exists hash, st. by rewrite lookup_insert_eq.
Qed.

Lemma load_caller_ok i pre m seen c m' seen' :
  table_ok pre m → (∀ id, id ∈ seen ↔ ∃ g, g ∈ pre ∧ ID g = id) →
  load_caller unicode_lower i (m, seen) c = Ok (m', seen') →
  table_ok (pre ++ [c])%list m' ∧ (∀ id, id ∈ seen' ↔ ∃ g, g ∈ (pre ++ [c])%list ∧ ID g = id).
Proof.
  intros (Hval & Hinj & Hcov) Hseen. unfold load_caller.
  destruct (sempty (ID c)) eqn:Hid; [done|]. apply sempty_false in Hid.
  case_bool_decide as Hdup; [done|].
  destruct (valid_kind (Kind c)) eqn:Hkind; simpl; [|done].
  destruct (sempty (trim_space (Tenant c))); [done|].
  destruct (ident63 (trim_space (Tenant c))) eqn:Hten; simpl; [|done].
  destruct (fold_res _ _ _) as [[sn kept]|] eqn:Hact; [|done].
  apply act_for_ok in Hact as (Hkid & Hknd & Hkraw).
  destruct (negb (length kept =? 0)%nat && _) eqn:Hsvc; [done|].
  set (hash := to_lower unicode_lower (trim_space (TokenSHA256 c))).
  destruct (slen hash =? 64)%nat eqn:Hlen; simpl; [|done]. apply Nat.eqb_eq in Hlen.
  destruct (str_all is_hex hash) eqn:Hhex; simpl; [|done].
  destruct (m !! hash) as [o|] eqn:Hfresh; [done|]. intros [= <- <-].
  set (st := {| ID := ID c; Kind := Kind c; TokenSHA256 := hash; MayActAs := MayActAs c;
                MayApprove := MayApprove c; Tenant := trim_space (Tenant c);
                MayActForTenants := kept |}).
  assert (stored_as c st) as Hst by (unfold Auth.stored_as; simpl; auto 9).
  assert (caller_ok st) as Hok.
  { split; simpl; auto. intros Hne. destruct kept; [done|]. simpl in Hsvc.
    by apply negb_false_iff, bool_decide_eq_true_1 in Hsvc. }
  assert (∀ h g, m !! h = Some g → ID g ≠ ID c) as Hnew.
  { intros h g Hg Heq. destruct (Hval _ _ Hg) as (_ & _ & g' & Hin & (Hg' & _)).
    apply Hdup, Hseen. exists g'. split; congruence. }
  split; [by apply table_ok_insert|].
  intros id. rewrite elem_of_union, elem_of_singleton, Hseen. split.
  - intros [->|(g & ? & ?)]; [exists c; set_solver|exists g; set_solver].
  - intros (g & [?| ->%list_elem_of_singleton]%elem_of_app & <-); eauto.
Qed.

Lemma Load_table doc a :
  Load unicode_lower doc = Ok a → table_ok (Callers doc) (byTokenHash a).
Proof.
  unfold Load. intros Hl. destruct (_ && _); [done|].
  destruct (Callers doc) as [|c cs] eqn:Hcs; [done|]. rewrite <-Hcs in *.
  destruct (ifold_res _ 0 (∅, ∅) (Callers doc)) as [[m seen]|] eqn:Hf; [|by rewrite Hcs in *].
  assert (m = byTokenHash a) as <- by (rewrite Hcs in *; by injection Hl as <-).
  eapply (ifold_res_prefix (λ pre (st : gmap string Caller * gset string),
    table_ok pre st.1 ∧ (∀ id, id ∈ st.2 ↔ ∃ g, g ∈ pre ∧ ID g = id)) _ _ 0 (∅, ∅) (m, seen));
    [| |exact Hf].
  - intros i pre x [m1 s1] [m2 s2] [? ?]. by apply load_caller_ok.
  - split; [split_and!|]; simpl.
    + by intros h g; rewrite lookup_empty.
    + by intros h h' g g'; rewrite lookup_empty.
    + by intros g ?%not_elem_of_nil.
    + intros id. split; [set_solver|]. by intros (? & ?%not_elem_of_nil & _).
Qed.

(** A bundle that loads gives an authenticator whose callers are all valid
    (kind, tenant, 64-digit hash, no wildcard, only services act for other
    tenants), are indexed by their own token hash, have distinct ids and
    distinct tokens, and are exactly the callers the bundle declares. *)
Theorem Load_sound doc a :
  Load unicode_lower doc = Ok a →
  Callers doc ≠ [] ∧ table_ok (Callers doc) (byTokenHash a).
Proof.
  intros Hl. split; [|by apply Load_table]. unfold Load in Hl. destruct (_ && _); [done|].
  by destruct (Callers doc).
Qed.

(** Authentication answers for exactly the callers of the loaded bundle: a
    token is accepted when, and only when, it is not empty and its digest is the
    one the bundle declares for a caller, and the caller it gives is that one,
    with its validated tenant and entitlements. *)
Theorem Authenticate_declared doc a token c :
  Load unicode_lower doc = Ok a →
  Authenticate (Some a) token = Ok c ↔
  token ≠ "" ∧ caller_ok c ∧ byTokenHash a !! TokenSHA256 c = Some c ∧
  ∃ g, g ∈ Callers doc ∧ stored_as g c ∧
       to_lower unicode_lower (trim_space (TokenSHA256 g)) = HashToken token.
Proof.
  intros (Hval & _ & _)%Load_table. unfold Authenticate.
  destruct (sempty token) eqn:Ht.
  { apply sempty_true in Ht. naive_solver. }
  apply sempty_false in Ht. split.
  - destruct (byTokenHash a !! HashToken token) as [c'|] eqn:Hc; [|done].
    case_bool_decide as Heq; [|done]. intros [= ->].
    destruct (Hval _ _ Hc) as (Hh & Hok & g & Hg & Hst). rewrite Hh.
    split_and!; try done. exists g. split_and!; try done.
    destruct Hst as (_ & _ & _ & _ & Hs & _). congruence.
  - intros (_ & Hok & Hc & g & Hg & Hst & Hhash).
    assert (TokenSHA256 c = HashToken token) as Heq.
    { destruct Hst as (_ & _ & _ & _ & Hs & _). congruence. }
    rewrite <-Heq, Hc. by rewrite bool_decide_eq_true_2.
Qed.

Lemma Authenticate_nil token : Authenticate None token = Err ErrUnauthenticated.
Proof. done. Qed.
End Load_lemmas.

(** ** One file per tenant *)

Section LoadDir_lemmas.
Context (read_callers : string → result string CallerBundleDoc).
Context (join : string → string → string).

(** A caller declared by the file of its own tenant. *)
Definition in_tenant_file (dir : string) (names : list string) (g : Caller) : Prop :=
  ∃ name doc, name ∈ names ∧ PolicySet.tenantFileName name = Some (Tenant g) ∧
    read_callers (join dir name) = Ok doc ∧ g ∈ Callers doc.

Lemma dir_callers_ok path tenant cs fileOf merged fileOf' merged' :
  fold_res (dir_caller path tenant) (fileOf, merged) cs = Ok (fileOf', merged') →
  merged' = (merged ++ cs)%list ∧ Forall (λ c, Tenant c = tenant) cs.
Proof.
  intros Hf.
  enough ((fileOf', merged').2 = (merged ++ cs)%list ∧ Forall (λ c, Tenant c = tenant) cs) by done.
  eapply (fold_res_prefix (λ pre (st : gmap string string * list Caller),
    st.2 = (merged ++ pre)%list ∧ Forall (λ c, Tenant c = tenant) pre)); [| |exact Hf].
  - intros pre c [f m] [f' m'] [Hm Hall]; simpl in *. case_bool_decide as Ht; [|done]. simpl.
    destruct (f !! ID c); [done|]. intros [= <- <-]. simpl. subst.
    rewrite <-app_assoc. split; [done|]. by apply Forall_app_2; [|constructor].
  - by rewrite app_nil_r.
Qed.

Lemma dir_files_ok dir names fileOf merged :
  fold_res (dir_file read_callers join dir) (∅, []) names = Ok (fileOf, merged) →
  Forall (in_tenant_file dir names) merged.
Proof.
  intros Hf. enough (Forall (in_tenant_file dir names) (fileOf, merged).2) by done.
  eapply (fold_res_prefix (λ pre (st : gmap string string * list Caller),
    Forall (in_tenant_file dir pre) st.2)); [| |exact Hf]; [|constructor].
  intros pre name [f m] [f' m'] Hall. unfold dir_file.
  destruct (PolicySet.tenantFileName name) as [t|] eqn:Hname; [|done].
  destruct (read_callers _) as [doc|] eqn:Hread; [|done]. destruct (_ && _); [done|].
  intros Hcs. assert (fold_res (dir_caller (join dir name) t) (f, m) (Callers doc) = Ok (f', m'))
    as [-> Hten]%dir_callers_ok by (by destruct (Callers doc)).
  simpl. apply Forall_app_2.
  - eapply Forall_impl; [exact Hall|]. intros g (n & d & ? & ?). exists n, d. set_solver.
  - apply Forall_forall. intros g Hg. rewrite Forall_forall in Hten.
    exists name, doc. rewrite (Hten g Hg). set_solver.
Qed.

Context (unicode_lower : string → string).

(** With one bundle per tenant, every caller the directory yields belongs to
    the tenant whose file declares it: no file can add a caller to another
    tenant. *)
Theorem LoadDir_tenants `{GoRuntime} read_dir dir entries a h c :
  read_dir dir = Ok entries →
  LoadDir unicode_lower read_callers join read_dir dir = Ok a →
  byTokenHash a !! h = Some c →
  ∃ entry doc g, entry ∈ entries ∧ PolicySet.file_of (Tenant c) entry ∧
    read_callers (join dir (PolicySet.entry_name entry)) = Ok doc ∧
    g ∈ Callers doc ∧ stored_as unicode_lower g c.
Proof.
  intros Hr. unfold LoadDir. rewrite Hr.
  destruct (fold_res _ (∅, []) _) as [[fileOf merged]|] eqn:Hf; [|done].
  destruct (Load _ _) as [a'|] eqn:Hl; [|done]. intros [= ->] Hc.
  apply Load_table in Hl as (Hval & _ & _). destruct (Hval _ _ Hc) as (_ & _ & g & Hg & Hst).
  apply dir_files_ok in Hf. rewrite Forall_forall in Hf.
  destruct (Hf g Hg) as (name & doc & Hname & Hfile & Hread & Hin).
  rewrite sort_slice_perm in Hname.
  apply list_elem_of_In, in_map_iff in Hname as (entry & <- & Hentry).
  apply filter_In in Hentry as [Hentry Hnd].
  exists entry, doc, g. apply negb_true_iff in Hnd.
  split; [by apply list_elem_of_In|]. split; [split; [done|]|done].
  rewrite Hfile. destruct Hst as (_ & _ & _ & _ & _ & -> & _).
  rewrite trim_space_ident; [done|].
  unfold PolicySet.tenantFileName in Hfile. cases; done.
Qed.
End LoadDir_lemmas.

Module AuthWitnesses.
Definition toy_hash : string := "aaaaaaaabbbbbbbbccccccccddddddddeeeeeeeeffffffff0000000011111111".
Definition toy_caller (id kind tenant hash : string) (acts : list string) : Caller :=
  {| ID := id; Kind := kind; TokenSHA256 := hash; MayActAs := ["a@1"]; MayApprove := false;
     Tenant := tenant; MayActForTenants := acts |}.
Definition toy_bundle : CallerBundleDoc :=
  {| doc_apiVersion := "v1"; doc_Kind := "CallerBundle";
     Callers := [toy_caller "worker" "service" "team-a" toy_hash ["team-b"; "team-a"]] |}.
Definition toy_auth : Authenticator :=
  {| byTokenHash := {[ toy_hash := toy_caller "worker" "service" "team-a" toy_hash ["team-b"] ]} |}.
Definition no_unicode (s : string) : string := s.

Lemma toy_auth_loads : Load no_unicode toy_bundle = Ok toy_auth.
Proof. reflexivity. Qed.

Lemma Load_sound_witness : Callers toy_bundle ≠ [].
Proof. exact (proj1 (Load_sound no_unicode toy_bundle toy_auth toy_auth_loads)). Defined.

Definition toy_token_bundle : CallerBundleDoc :=
  {| doc_apiVersion := ""; doc_Kind := "";
     Callers := [toy_caller "op" "human" "team-a"
       "BA7816BF8F01CFEA414140DE5DAE2223B00361A396177A9CB410FF61F20015AD " []] |}.
Definition toy_op : Caller := toy_caller "op" "human" "team-a" (HashToken "abc") [].
Definition toy_token_auth : Authenticator := {| byTokenHash := {[ HashToken "abc" := toy_op ]} |}.

Lemma toy_token_loads : Load no_unicode toy_token_bundle = Ok toy_token_auth.
Proof. unfold toy_token_auth, toy_op, HashToken. rewrite sha256_abc. reflexivity. Qed.

Lemma Authenticate_declared_witness : byTokenHash toy_token_auth !! TokenSHA256 toy_op = Some toy_op.
Proof.
  refine (proj1 (proj2 (proj2 (proj1 (Authenticate_declared no_unicode toy_token_bundle
    toy_token_auth "abc" toy_op toy_token_loads) _)))).
  unfold Authenticate, toy_token_auth, toy_op. cbv zeta. cbn [byTokenHash sempty].
  generalize (HashToken "abc"). intros hash. rewrite lookup_singleton_eq.
  by rewrite bool_decide_eq_true_2.
Defined.

Definition toy_callers_dir : list PolicySet.DirEntry :=
  [{| PolicySet.entry_name := "team-a.yaml"; PolicySet.entry_is_dir := false |}].
Definition toy_read_callers (_ : string) : result string CallerBundleDoc := Ok toy_bundle.
Definition toy_read_dir (_ : string) : result string (list PolicySet.DirEntry) :=
  Ok toy_callers_dir.
Definition toy_join (d f : string) : string := d +:+ "/" +:+ f.

Lemma LoadDir_tenants_witness :
  ∃ entry, entry ∈ toy_callers_dir ∧ PolicySet.file_of "team-a" entry.
Proof.
  destruct (LoadDir_tenants toy_read_callers toy_join no_unicode (H := amd64_runtime) toy_read_dir
    "callers" toy_callers_dir toy_auth toy_hash
    (toy_caller "worker" "service" "team-a" toy_hash ["team-b"]) eq_refl eq_refl eq_refl)
    as (entry & _ & _ & Hin & Hfile & _).
  exists entry. exact (conj Hin Hfile).
Defined.
End AuthWitnesses.
