(* ===== verification/Finops.v ===== *)
(** * Package finops: prices, budget ceilings and the reconciliation

    Models go/internal/finops/finops.go, ceiling.go and reconcile.go. Floats are
    binary64 with one rounding per operation (no fused multiply-add). *)

From Stdlib Require Import SpecFloat.
From S2P Require Import Prelude GoValue.

Local Open Scope string_scope.
Set Default Proof Using "Type*".

(** ** The pricing table (finops.go) *)

Module Pricing.

Record Rate := {
  Provider : string;
  Model : string;
  CostModel : string;
  InputPerMillionUSD : float64;
  OutputPerMillionUSD : float64;
}.

Record PricingTable := { rates : gmap string Rate }.

Definition key (provider model : string) : string := provider +:+ "/" +:+ model.

Definition NewPricingTable (rs : list Rate) : PricingTable :=
  {| rates := foldl (λ t r, <[key (Provider r) (Model r) := r]> t) ∅ rs |}.

(** A nil table prices nothing. *)
Definition lookup_rate (t : option PricingTable) (provider model : string) : option Rate :=
  match t with None => None | Some t => rates t !! key provider model end.

Definition CostUSD (t : option PricingTable) (provider model : string)
    (promptTokens completionTokens : Z) : option float64 :=
  match lookup_rate t provider model with
  | None => None
  | Some r =>
      if negb (bool_decide (CostModel r = "token_based")) then None
      else Some (fadd
        (fmul (fdiv (f_of_Z promptTokens) (f_of_Z 1000000)) (InputPerMillionUSD r))
        (fmul (fdiv (f_of_Z completionTokens) (f_of_Z 1000000)) (OutputPerMillionUSD r)))
  end.

Definition slash_free (s : string) : Prop := str_all (λ c, negb (byte_is 47 c)) s = true.

Lemma key_inj p p' m m' :
  slash_free p → slash_free p' → key p m = key p' m' → p = p' ∧ m = m'.
Proof.
  unfold key, slash_free. revert p'. induction p as [|c p IH]; intros [|c' p']; simpl.
  - intros _ _ [= Hm]. simpl in Hm. by subst.
  - intros _ [Hc _]%andb_true_iff [= Hm _]. by subst.
  - intros [Hc _]%andb_true_iff _ [= Hm _]. by subst.
  - intros [_ Hp]%andb_true_iff [_ Hp']%andb_true_iff [= -> Heq].
    destruct (IH p' Hp Hp' Heq) as [-> ->]. done.
Qed.

(** The last rate declared for a pair. *)
Definition declared_rate (rs : list Rate) (provider model : string) : option Rate :=
  List.find (λ r, bool_decide (Provider r = provider) && bool_decide (Model r = model)) (rev rs).

Lemma rates_declared rs provider model :
  Forall (λ r, slash_free (Provider r)) rs → slash_free provider →
  lookup_rate (Some (NewPricingTable rs)) provider model = declared_rate rs provider model.
Proof.
  intros Hrs Hp. unfold lookup_rate, NewPricingTable, declared_rate; simpl.
  induction rs as [|r rs IH] using rev_ind; [done|].
  apply Forall_app in Hrs as [Hrs Hr]. apply Forall_inv in Hr.
  rewrite foldl_app, rev_app_distr; simpl. rewrite lookup_insert. case_decide as Hk.
  - apply key_inj in Hk as [-> ->]; [|done..]. by rewrite !bool_decide_eq_true_2.
  - case_bool_decide; simpl; [case_bool_decide|]; [congruence|by apply IH..].
Qed.

(** A call is priced exactly when the bundle's last rate for its provider and
    model is token based, and then with that rate's prices: a pair with no rate,
    and a pair billed by compute, have an unknown cost and never a cost of
    zero. *)
Theorem CostUSD_declared rs provider model p c :
  Forall (λ r, slash_free (Provider r)) rs → slash_free provider →
  CostUSD (Some (NewPricingTable rs)) provider model p c =
  match declared_rate rs provider model with
  | Some r =>
      if bool_decide (CostModel r = "token_based")
      then Some (fadd (fmul (fdiv (f_of_Z p) (f_of_Z 1000000)) (InputPerMillionUSD r))
                      (fmul (fdiv (f_of_Z c) (f_of_Z 1000000)) (OutputPerMillionUSD r)))
      else None
  | None => None
  end.
Proof.
  intros Hrs Hp. unfold CostUSD. rewrite rates_declared by done.
  destruct (declared_rate _ _ _); [|done]. by case_bool_decide.
Qed.
End Pricing.

(** ** Budget ceilings (ceiling.go) *)

Module Ceiling.
Section Ceiling.
Context `{GoRuntime}.

Record Ceiling := {
  CostUSD : option float64;
  ModelCalls : option Z;
  Tokens : option Z;
}.

Definition no_ceiling : Ceiling := {| CostUSD := None; ModelCalls := None; Tokens := None |}.

Definition Declared (c : Ceiling) : bool :=
  match CostUSD c, ModelCalls c, Tokens c with None, None, None => false | _, _, _ => true end.

Definition asFloat (raw : any) : option float64 :=
  match raw with
  | AFloat f | AFloat32 f => Some f
  | AInt z | AInt64 z => Some (f_of_Z z)
  | _ => None
  end.

(** A budget field: absent, a non-negative number, or present and not enforced.
    The comparison is the source's [ok && f >= 0], which a NaN fails. *)
Inductive field :=
| Absent
| Number (f : float64)
| Unusable (raw : any).

Definition budget_field (budgets : gmap string any) (k : string) : field :=
  match budgets !! k with
  | None => Absent
  | Some raw =>
      match asFloat raw with
      | Some f => if fgeb f f_zero then Number f else Unusable raw
      | None => Unusable raw
      end
  end.

Definition field_value (x : field) : option float64 :=
  match x with Number f => Some f | _ => None end.
Definition field_problem (k : string) (x : field) : list (string * any) :=
  match x with Unusable raw => [(k, raw)] | _ => [] end.

(** The problems are the fields named with their raw value, in the order the
    source reports them. *)
Definition CeilingFromManifest (manifest : gmap string any) : Ceiling * list (string * any) :=
  let spec := as_map (mget manifest "spec") in
  let runtime := as_map (mget spec "runtime") in
  match as_map_opt (mget runtime "budgets") with
  | None => (no_ceiling, [])
  | Some budgets =>
      let cost := budget_field budgets "costUsd" in
      let tokens := budget_field budgets "tokens" in
      let calls := budget_field budgets "modelCalls" in
      ({| CostUSD := field_value cost;
          ModelCalls := f_to_int <$> field_value calls;
          Tokens := f_to_int <$> field_value tokens |},
       (field_problem "costUsd" cost ++ field_problem "tokens" tokens
          ++ field_problem "modelCalls" calls)%list)
  end.

(** The budgets object of a manifest. *)
Definition budgets_of (manifest : gmap string any) : gmap string any :=
  as_map (mget (as_map (mget (as_map (mget manifest "spec")) "runtime")) "budgets").

Lemma budget_field_empty k : budget_field ∅ k = Absent.
Proof. unfold budget_field. by rewrite lookup_empty. Qed.

Lemma CeilingFromManifest_fields m :
  CeilingFromManifest m =
  let f := budget_field (budgets_of m) in
  ({| CostUSD := field_value (f "costUsd");
      ModelCalls := f_to_int <$> field_value (f "modelCalls");
      Tokens := f_to_int <$> field_value (f "tokens") |},
   (field_problem "costUsd" (f "costUsd") ++ field_problem "tokens" (f "tokens")
      ++ field_problem "modelCalls" (f "modelCalls"))%list).
Proof.
  set (raw := mget (as_map (mget (as_map (mget m "spec")) "runtime")) "budgets").
  change (budgets_of m) with (default ∅ (as_map_opt raw)).
  unfold CeilingFromManifest. fold raw. destruct (as_map_opt raw); simpl; [done|].
  by rewrite !budget_field_empty.
Qed.

Definition usable (raw : any) : Prop := ∃ f, asFloat raw = Some f ∧ fgeb f f_zero = true.

Lemma budget_field_present b k raw :
  b !! k = Some raw →
  (usable raw ∧ ∃ f, budget_field b k = Number f) ∨
  (¬ usable raw ∧ budget_field b k = Unusable raw).
Proof.
  unfold budget_field, usable. intros ->. destruct (asFloat raw) as [f|].
  - destruct (fgeb f f_zero) eqn:Hf; [left|right]; [by eauto|]. split; [|done].
    intros (f' & [= <-] & ?). congruence.
  - right. split; [|done]. by intros (f & ? & _).
Qed.

Lemma field_problem_key k k' raw x : (k, raw) ∈ field_problem k' x → k = k' ∧ x = Unusable raw.
Proof. destruct x; simpl; rewrite ?elem_of_nil, ?list_elem_of_singleton; naive_solver. Qed.

(** Whether a ceiling carries a limit for the named budget field. *)
Definition enforces (c : Ceiling) (k : string) : Prop :=
  (k = "costUsd" ∧ is_Some (CostUSD c)) ∨ (k = "tokens" ∧ is_Some (Tokens c)) ∨
  (k = "modelCalls" ∧ is_Some (ModelCalls c)).

#[local] Opaque budget_field f_to_int.

Lemma enforces_field m k :
  enforces (CeilingFromManifest m).1 k ↔
  k ∈ ["costUsd"; "tokens"; "modelCalls"] ∧ is_Some (field_value (budget_field (budgets_of m) k)).
Proof.
  rewrite CeilingFromManifest_fields. unfold enforces. cbn [fst CostUSD Tokens ModelCalls].
  rewrite !fmap_is_Some, !elem_of_cons, elem_of_nil. split.
  - intros [[-> ?]|[[-> ?]|[-> ?]]]; auto.
  - intros [[->|[->|[->|[]]]] ?]; auto.
Qed.

Lemma problem_field m k raw :
  (k, raw) ∈ (CeilingFromManifest m).2 ↔
  k ∈ ["costUsd"; "tokens"; "modelCalls"] ∧ budget_field (budgets_of m) k = Unusable raw.
Proof.
  rewrite CeilingFromManifest_fields. cbn [snd]. rewrite !elem_of_app. split.
  - intros [H1|[H1|H1]]; apply field_problem_key in H1 as [-> ->];
      (split; [|done]); rewrite !elem_of_cons; auto.
  - rewrite !elem_of_cons, elem_of_nil.
    intros [[->|[->|[->|[]]]] Hf]; rewrite Hf; cbn [field_problem];
      rewrite !list_elem_of_singleton; auto.
Qed.

(** A typo never becomes a ceiling, and a ceiling never disappears: a budget
    field the manifest declares is enforced when its value is a non-negative
    number, and otherwise reported as a problem with that value. *)
Theorem ceiling_fields_total m k raw :
  k ∈ ["costUsd"; "tokens"; "modelCalls"] →
  budgets_of m !! k = Some raw →
  (enforces (CeilingFromManifest m).1 k ↔ usable raw) ∧
  ((k, raw) ∈ (CeilingFromManifest m).2 ↔ ¬ usable raw).
Proof.
  intros Hk Hraw. rewrite enforces_field, problem_field.
  destruct (budget_field_present _ _ _ Hraw) as [[Hu [f ->]]|[Hu ->]]; simpl.
  - split; (split; [|done]); [by eauto|]. by intros [_ [=]].
  - split; (split; [|by auto]); [|done]. by intros [_ [? [=]]].
Qed.

(** An absent field constrains nothing and is not a problem. *)
Lemma ceiling_field_absent m k :
  budgets_of m !! k = None →
  ¬ enforces (CeilingFromManifest m).1 k ∧ ∀ raw, (k, raw) ∉ (CeilingFromManifest m).2.
Proof.
  intros Hk. setoid_rewrite problem_field. rewrite enforces_field.
  assert (budget_field (budgets_of m) k = Absent) as ->.
  { Transparent budget_field. unfold budget_field. by rewrite Hk. }
  split; [intros [_ [? [=]]]|by intros raw [_ [=]]].
Qed.
End Ceiling.
End Ceiling.

(** ** Reconciliation (reconcile.go) *)

Module Reconcile.

Record PlatformUsage := {
  pu_RequestID : string;
  pu_Model : string;
  pu_PromptTokens : Z;
  pu_CompletionTokens : Z;
  pu_CostUSD : option float64;
  PromptPricePer1M : option float64;
  CompletionPricePer1M : option float64;
}.

Record LedgerRow := {
  Provider : string;
  Model : string;
  PromptTokens : option Z;
  CompletionTokens : option Z;
  CostUSD : option float64;
  ProviderRequestID : string;
  IdempotentReplayOf : string;
}.

(** A divergence's kind; its message only restates the row and is left out. *)
Record Divergence := { RequestID : string; Kind : string }.

Record Report := {
  Compared : Z;
  Agreed : Z;
  Divergences : list Divergence;
  Unreconciled : Z;
}.
Definition empty_report : Report :=
  {| Compared := 0; Agreed := 0; Divergences := []; Unreconciled := 0 |}.

(** 1e-12. *)
Definition costTolerance : float64 := f_const 1 (10 ^ 12).

(** [math.Abs(a-b) > costTolerance]. *)
Definition costs_differ (a b : float64) : bool := fgtb (fabs (fsub a b)) costTolerance.

Definition diverges (row : LedgerRow) (kind : string) : list Divergence :=
  [{| RequestID := ProviderRequestID row; Kind := kind |}].

Definition check_model (row : LedgerRow) (p : PlatformUsage) : list Divergence :=
  if negb (bool_decide (Model row = pu_Model p)) then diverges row "model" else [].

Definition check_tokens (row : LedgerRow) (p : PlatformUsage) : list Divergence :=
  match PromptTokens row, CompletionTokens row with
  | Some pt, Some ct =>
      if negb (pt =? pu_PromptTokens p)%Z || negb (ct =? pu_CompletionTokens p)%Z
      then diverges row "tokens" else []
  | _, _ => diverges row "tokens_unmeasured"
  end.

(** The platform's cost against its own rates applied to its own tokens. *)
Definition check_rates (row : LedgerRow) (p : PlatformUsage) : list Divergence :=
  match pu_CostUSD p, PromptPricePer1M p, CompletionPricePer1M p with
  | Some cost, Some pp, Some cp =>
      let recomputed := fdiv (fadd (fmul (f_of_Z (pu_PromptTokens p)) pp)
                                   (fmul (f_of_Z (pu_CompletionTokens p)) cp))
                             (f_of_Z 1000000) in
      if costs_differ cost recomputed then diverges row "self_inconsistent" else []
  | _, _, _ => []
  end.

Definition check_cost (row : LedgerRow) (p : PlatformUsage) : list Divergence :=
  match CostUSD row, pu_CostUSD p with
  | None, Some _ => diverges row "unpriced_here"
  | Some _, None => diverges row "unpriced_there"
  | Some ours, Some theirs => if costs_differ ours theirs then diverges row "cost" else []
  | None, None => []
  end.

Definition compare (row : LedgerRow) (p : PlatformUsage) : list Divergence :=
  (check_model row p ++ check_tokens row p ++ check_rates row p ++ check_cost row p)%list.

Section Reconcile.
(** [UsageSource.PlatformUsage], an error being the absence of an accounting. *)
Context (PlatformUsage_ : string → option PlatformUsage).

(** A replay is billed when its cost is not a measured zero. *)
Definition replay_billed (row : LedgerRow) : bool :=
  match CostUSD row with Some c => negb (feqb c f_zero) | None => true end.

(** One iteration of the loop over the ledger's rows. *)
Definition reconcile_row (report : Report) (row : LedgerRow) : Report :=
  if sempty (ProviderRequestID row) then
    {| Compared := Compared report; Agreed := Agreed report; Divergences := Divergences report;
       Unreconciled := Unreconciled report + 1 |}
  else if negb (sempty (IdempotentReplayOf row)) then
    if replay_billed row then
      {| Compared := Compared report + 1; Agreed := Agreed report;
         Divergences := (Divergences report ++ diverges row "replay_billed")%list;
         Unreconciled := Unreconciled report |}
    else
      {| Compared := Compared report + 1; Agreed := Agreed report + 1;
         Divergences := Divergences report; Unreconciled := Unreconciled report |}
  else match PlatformUsage_ (ProviderRequestID row) with
  | None =>
      {| Compared := Compared report; Agreed := Agreed report;
         Divergences := (Divergences report ++ diverges row "missing")%list;
         Unreconciled := Unreconciled report + 1 |}
  | Some p =>
      let ds := (Divergences report ++ compare row p)%list in
      {| Compared := Compared report + 1;
         Agreed := if (length ds =? length (Divergences report))%nat
                   then Agreed report + 1 else Agreed report;
         Divergences := ds;
         Unreconciled := Unreconciled report |}
  end.

Definition Reconcile (rows : list LedgerRow) : Report := foldl reconcile_row empty_report rows.

#[local] Opaque costs_differ.

(** *** What a report means *)

Definition comparable (row : LedgerRow) : bool :=
  negb (sempty (ProviderRequestID row)) &&
  (negb (sempty (IdempotentReplayOf row)) ||
   match PlatformUsage_ (ProviderRequestID row) with Some _ => true | None => false end).

(** The two accountings of a row agree. *)
Definition agrees (row : LedgerRow) : bool :=
  comparable row &&
  if negb (sempty (IdempotentReplayOf row)) then negb (replay_billed row)
  else match PlatformUsage_ (ProviderRequestID row) with
       | Some p => match compare row p with [] => true | _ => false end
       | None => false
       end.

Definition row_divergences (row : LedgerRow) : list Divergence :=
  if sempty (ProviderRequestID row) then []
  else if negb (sempty (IdempotentReplayOf row))
       then if replay_billed row then diverges row "replay_billed" else []
  else match PlatformUsage_ (ProviderRequestID row) with
       | None => diverges row "missing"
       | Some p => compare row p
       end.

Definition count (p : LedgerRow → bool) (rows : list LedgerRow) : Z :=
  Z.of_nat (length (List.filter p rows)).

Lemma count_snoc p rows row : count p (rows ++ [row])%list = (count p rows + if p row then 1 else 0)%Z.
Proof.
  unfold count. rewrite List.filter_app, length_app. simpl. destruct (p row); simpl; lia.
Qed.

Lemma reconcile_row_spec report row :
  reconcile_row report row =
  {| Compared := Compared report + if comparable row then 1 else 0;
     Agreed := Agreed report + if agrees row then 1 else 0;
     Divergences := (Divergences report ++ row_divergences row)%list;
     Unreconciled := Unreconciled report + if comparable row then 0 else 1 |}.
Proof.
  unfold reconcile_row, comparable, agrees, comparable, row_divergences.
  destruct report as [c a ds u]; simpl.
  destruct (sempty (ProviderRequestID row)); simpl; [by rewrite app_nil_r, !Z.add_0_r|].
  destruct (sempty (IdempotentReplayOf row)); simpl.
  - destruct (PlatformUsage_ _) as [p|]; simpl; [|by rewrite !Z.add_0_r].
    rewrite length_app, !Z.add_0_r.
    destruct (compare row p) as [|d cs]; simpl.
    + by rewrite Nat.add_0_r, Nat.eqb_refl.
    + destruct (Nat.eqb_spec (length ds + S (length cs)) (length ds)); [lia|]. by rewrite Z.add_0_r.
  - destruct (replay_billed row); simpl; by rewrite ?app_nil_r, ?Z.add_0_r.
Qed.

Lemma Reconcile_report rows :
  Reconcile rows =
  {| Compared := count comparable rows;
     Agreed := count agrees rows;
     Divergences := concat (map row_divergences rows);
     Unreconciled := count (λ r, negb (comparable r)) rows |}.
Proof.
  unfold Reconcile. induction rows as [|row rows IH] using rev_ind; [done|].
  rewrite foldl_app, map_app, concat_app, !count_snoc; cbn [foldl map concat].
  rewrite IH, reconcile_row_spec, app_nil_r. simpl. by destruct (comparable row).
Qed.

(** Every row is accounted for once: it is compared or unreconciled, never
    both; the divergences are those of the rows, in order; and [Agreed] counts
    exactly the comparable rows on which the two accountings agree, so the numbers
    an operator reads off the report add up. *)
Theorem Reconcile_accounts rows :
  Reconcile rows =
  {| Compared := count comparable rows;
     Agreed := count agrees rows;
     Divergences := concat (map row_divergences rows);
     Unreconciled := count (λ r, negb (comparable r)) rows |} ∧
  (Compared (Reconcile rows) + Unreconciled (Reconcile rows) = Z.of_nat (length rows))%Z ∧
  (Agreed (Reconcile rows) ≤ Compared (Reconcile rows))%Z.
Proof.
  split; [apply Reconcile_report|].
  rewrite Reconcile_report; simpl. induction rows as [|row rows [IH1 IH2]] using rev_ind; [done|].
  rewrite !count_snoc, length_app; simpl. unfold agrees at 2.
  destruct (comparable row); simpl; [|lia]. destruct (if negb _ then _ else _); lia.
Qed.

(** Full agreement means what it says: when every row agrees, each row that is
    not a replay has the platform's model and token counts, and a cost that is
    the platform's to within the tolerance (or is unknown on both sides). *)
Theorem Reconcile_full_agreement rows row p :
  Agreed (Reconcile rows) = Z.of_nat (length rows) →
  row ∈ rows → IdempotentReplayOf row = "" →
  PlatformUsage_ (ProviderRequestID row) = Some p →
  Model row = pu_Model p ∧
  PromptTokens row = Some (pu_PromptTokens p) ∧
  CompletionTokens row = Some (pu_CompletionTokens p) ∧
  match CostUSD row, pu_CostUSD p with
  | Some ours, Some theirs => costs_differ ours theirs = false
  | None, None => True
  | _, _ => False
  end.
Proof.
  rewrite Reconcile_report; simpl. intros Hall Hin Hrep Hp.
  assert (agrees row = true) as Hag.
  { unfold count in Hall. apply Nat2Z.inj in Hall. clear Hp Hrep p.
    induction rows as [|r rows IH]; [by apply not_elem_of_nil in Hin|]. simpl in Hall.
    pose proof (List.filter_length_le agrees rows).
    destruct (agrees r) eqn:Hr; simpl in Hall; [|lia].
    apply elem_of_cons in Hin as [->|Hin]; [done|]. apply IH; [lia|done]. }
  unfold agrees in Hag. apply andb_true_iff in Hag as [_ Hag]. rewrite Hrep, Hp in Hag. simpl in Hag.
  destruct (compare row p) eqn:Hc; [clear Hag|done]. unfold compare in Hc.
  apply app_eq_nil in Hc as [Hm [Ht [_ Hcost]%app_eq_nil]%app_eq_nil].
  unfold check_model in Hm. unfold check_tokens in Ht. unfold check_cost in Hcost.
  case_bool_decide; [|done]. split; [done|].
  destruct (PromptTokens row) as [pt|], (CompletionTokens row) as [ct|]; try done.
  destruct (Z.eqb_spec pt (pu_PromptTokens p)), (Z.eqb_spec ct (pu_CompletionTokens p)); try done.
  subst. split; [done|]. split; [done|]. clear -Hcost.
  revert Hcost. destruct (CostUSD row) as [ours|], (pu_CostUSD p) as [theirs|].
  - destruct (costs_differ ours theirs); [discriminate|reflexivity].
  - discriminate.
  - discriminate.
  - intros _; exact I.
Qed.
End Reconcile.
End Reconcile.

Module FinopsWitnesses.
Definition toy_rate : Pricing.Rate := {|
  Pricing.Provider := "anthropic"; Pricing.Model := "m"; Pricing.CostModel := "token_based";
  Pricing.InputPerMillionUSD := f_of_Z 3; Pricing.OutputPerMillionUSD := f_of_Z 15 |}.

Lemma CostUSD_declared_witness :
  Pricing.CostUSD (Some (Pricing.NewPricingTable [toy_rate])) "anthropic" "m" 1000000 2000000
  = Some (f_of_Z 33).
Proof.
  rewrite (Pricing.CostUSD_declared [toy_rate]);
    [vm_compute; reflexivity|repeat constructor|reflexivity].
Defined.

Definition toy_manifest : gmap string any :=
  obj [("spec", AMap (obj [("runtime", AMap (obj [("budgets", AMap (obj
    [("costUsd", AFloat (f_const 1 2)); ("tokens", AString "many")]))]))]))].

Lemma ceiling_fields_total_witness :
  ("tokens", AString "many") ∈ (Ceiling.CeilingFromManifest (H := amd64_runtime) toy_manifest).2.
Proof.
  apply (Ceiling.ceiling_fields_total (H := amd64_runtime) toy_manifest "tokens" (AString "many")).
  - right; left.
  - reflexivity.
  - by intros (f & [=] & _).
Defined.

Definition toy_row : Reconcile.LedgerRow := {|
  Reconcile.Provider := "prometheus"; Reconcile.Model := "qwen";
  Reconcile.PromptTokens := Some 10%Z; Reconcile.CompletionTokens := Some 5%Z;
  Reconcile.CostUSD := Some (f_const 1 4); Reconcile.ProviderRequestID := "r1";
  Reconcile.IdempotentReplayOf := "" |}.
Definition toy_usage : Reconcile.PlatformUsage := {|
  Reconcile.pu_RequestID := "r1"; Reconcile.pu_Model := "qwen";
  Reconcile.pu_PromptTokens := 10; Reconcile.pu_CompletionTokens := 5;
  Reconcile.pu_CostUSD := Some (f_const 1 4);
  Reconcile.PromptPricePer1M := None; Reconcile.CompletionPricePer1M := None |}.

Lemma Reconcile_full_agreement_witness : Reconcile.Model toy_row = Reconcile.pu_Model toy_usage.
Proof.
  refine (proj1 (Reconcile.Reconcile_full_agreement (λ _, Some toy_usage) [toy_row] toy_row
    toy_usage _ _ _ _)); [vm_compute; reflexivity|left|reflexivity|reflexivity].
Defined.

(** 1e-12 is the double nearest to it, and the tolerance separates a cent. *)
Example costTolerance_value :
  Reconcile.costTolerance = S754_finite false 4951760157141521 (-92).
Proof. vm_compute. reflexivity. Qed.
End FinopsWitnesses.
