(* ===== verification/Breaker.v ===== *)
(** * Package circuitbreaker: the rolling-window breaker

    Models go/internal/circuitbreaker/breaker.go. The mutex makes each method
    atomic, so a run of the breaker is a sequence of method calls. *)

From S2P Require Import Prelude GoValue.

Local Open Scope string_scope.
Set Default Proof Using "Type*".

Record Thresholds := {
  WindowSize : Z;
  MinSamples : Z;
  MaxFailureRate : float64;
  MaxAvgCostUSD : float64;
}.

Definition DefaultThresholds : Thresholds :=
  {| WindowSize := 10; MinSamples := 5; MaxFailureRate := f_const 1 2; MaxAvgCostUSD := f_zero |}.

Record Observation := { Success : bool; CostUSD : option float64 }.

(** The reason's data, where the source formats a sentence. *)
Inductive Reason :=
| NoReason
| AlreadyQuarantined
| FailureRate (rate : float64) (runs : nat) (threshold : float64)
| AverageCost (average : float64) (priced : Z) (threshold : float64) (unpriced : Z).

Record Verdict := { Tripped : bool; VerdictReason : Reason }.
Definition no_trip : Verdict := {| Tripped := false; VerdictReason := NoReason |}.

(** [agentKey]: a name and a version. *)
Abbreviation agentKey := (string * string)%type.

(** [quarantine] maps a key to true or does not hold it: a set. *)
Record Breaker := {
  thresholds : Thresholds;
  windows : gmap agentKey (list Observation);
  quarantine : gset agentKey;
}.

Definition New (t : Thresholds) : Breaker :=
  {| thresholds := if (WindowSize t <=? 0)%Z then DefaultThresholds else t;
     windows := ∅; quarantine := ∅ |}.

(** The counters of the loop over the window. *)
Record tally := { failures : Z; priced : Z; totalCost : float64 }.
Definition tally_step (t : tally) (o : Observation) : tally :=
  {| failures := if Success o then failures t else failures t + 1;
     priced := match CostUSD o with Some _ => priced t + 1 | None => priced t end;
     totalCost := match CostUSD o with Some c => fadd (totalCost t) c | None => totalCost t end |}.
Definition tally_of (w : list Observation) : tally :=
  foldl tally_step {| failures := 0; priced := 0; totalCost := f_zero |} w.

(** The decision on a window, from the sample check to the end of the method. *)
Definition evaluate (th : Thresholds) (w : list Observation) : Verdict :=
  if (Z.of_nat (length w) <? MinSamples th)%Z then no_trip
  else
  let t := tally_of w in
  let failureRate := fdiv (f_of_Z (failures t)) (f_of_Z (Z.of_nat (length w))) in
  if fgtb failureRate (MaxFailureRate th) then
    {| Tripped := true; VerdictReason := FailureRate failureRate (length w) (MaxFailureRate th) |}
  else if fgtb (MaxAvgCostUSD th) f_zero && (0 <? priced t)%Z then
    let avgCost := fdiv (totalCost t) (f_of_Z (priced t)) in
    if fgtb avgCost (MaxAvgCostUSD th) then
      {| Tripped := true;
         VerdictReason := AverageCost avgCost (priced t) (MaxAvgCostUSD th)
                            (Z.of_nat (length w) - priced t) |}
    else no_trip
  else no_trip.

(** The window after an observation: at most [size], the oldest dropped first. *)
Definition slide (size : Z) (w : list Observation) : list Observation :=
  if (size <? Z.of_nat (length w))%Z then drop (length w - Z.to_nat size) w else w.

Definition RecordOutcome (b : Breaker) (name version : string) (obs : Observation)
  : Breaker * Verdict :=
  let key := (name, version) in
  if bool_decide (key ∈ quarantine b)
  then (b, {| Tripped := true; VerdictReason := AlreadyQuarantined |})
  else
  let window := slide (WindowSize (thresholds b)) (default [] (windows b !! key) ++ [obs])%list in
  let verdict := evaluate (thresholds b) window in
  ({| thresholds := thresholds b;
      windows := <[key := window]> (windows b);
      quarantine := if Tripped verdict then {[key]} ∪ quarantine b else quarantine b |}, verdict).

Definition IsQuarantined (b : Breaker) (name version : string) : bool :=
  bool_decide ((name, version) ∈ quarantine b).

Definition Reset_ (b : Breaker) (name version : string) : Breaker :=
  let key := (name, version) in
  {| thresholds := thresholds b;
     windows := delete key (windows b);
     quarantine := quarantine b ∖ {[key]} |}.

(** ** Sequences of calls *)

Inductive call :=
| Record_ (name version : string) (obs : Observation)
| ResetCall (name version : string).

Definition apply_call (b : Breaker) (c : call) : Breaker :=
  match c with
  | Record_ n v obs => (RecordOutcome b n v obs).1
  | ResetCall n v => Reset_ b n v
  end.
Definition run (b : Breaker) (cs : list call) : Breaker := foldl apply_call b cs.

(** ** The contract, one agent version at a time *)

(** A version has its outcomes since it was last reset, and is closed until they
    trip it; an open version records nothing more. *)
Record version_state := { history : list Observation; opened : bool }.

Definition lastn {A} (n : nat) (l : list A) : list A := drop (length l - n) l.

Definition spec_call (th : Thresholds) (key : agentKey) (s : version_state) (c : call)
  : version_state :=
  match c with
  | Record_ n v obs =>
      if bool_decide ((n, v) = key) && negb (opened s) then
        let h := (history s ++ [obs])%list in
        {| history := h;
           opened := Tripped (evaluate th (lastn (Z.to_nat (WindowSize th)) h)) |}
      else s
  | ResetCall n v => if bool_decide ((n, v) = key) then {| history := []; opened := false |} else s
  end.
Definition spec_run (th : Thresholds) (key : agentKey) (cs : list call) : version_state :=
  foldl (spec_call th key) {| history := []; opened := false |} cs.

Lemma lastn_snoc {A} n (l : list A) x : (1 ≤ n)%nat → lastn n (lastn n l ++ [x])%list = lastn n (l ++ [x])%list.
Proof.
  intros Hn. unfold lastn. rewrite !length_app, length_drop. simpl.
  destruct (decide (length l ≤ n)%nat).
  - replace (length l - n)%nat with 0%nat by lia. rewrite drop_0, Nat.sub_0_r. done.
  - rewrite !drop_app, drop_drop, length_drop. f_equal; [f_equal; lia|]. f_equal; lia.
Qed.

Lemma slide_lastn size w : (0 ≤ size)%Z → slide size w = lastn (Z.to_nat size) w.
Proof.
  intros Hs. unfold slide, lastn. destruct (Z.ltb_spec size (Z.of_nat (length w))); [done|].
  by replace (length w - Z.to_nat size)%nat with 0%nat by lia.
Qed.

Lemma New_window_positive t : (0 < WindowSize (thresholds (New t)))%Z.
Proof. unfold New; simpl. destruct (Z.leb_spec (WindowSize t) 0); simpl; lia. Qed.

Lemma run_thresholds b cs : thresholds (run b cs) = thresholds b.
Proof.
  induction cs as [|c cs IH] using rev_ind; [done|]. unfold run in *. rewrite foldl_app; simpl.
  destruct c as [n v obs|n v]; simpl; [|done]. unfold RecordOutcome. by case_match.
Qed.

(** The concrete state of a version is the contract's: its window is the last
    [WindowSize] outcomes of its history, and it is quarantined when open. *)
Definition represents (b : Breaker) (key : agentKey) (s : version_state) : Prop :=
  default [] (windows b !! key) = lastn (Z.to_nat (WindowSize (thresholds b))) (history s) ∧
  (key ∈ quarantine b ↔ opened s = true).

Lemma record_represents b n v obs key s :
  (0 < WindowSize (thresholds b))%Z → represents b key s →
  represents (RecordOutcome b n v obs).1 key (spec_call (thresholds b) key s (Record_ n v obs)).
Proof.
  intros Hw [Hwin Hq]. unfold RecordOutcome, spec_call.
  destruct (bool_decide_reflect ((n, v) = key)) as [Heq|Hne]; cbn [andb].
  - rewrite Heq. case_bool_decide as Hin; simpl.
    + rewrite (proj1 Hq Hin). simpl. done.
    + assert (opened s = false) as -> by (destruct (opened s); [by destruct Hin; apply Hq|done]).
      rewrite Hwin, slide_lastn, lastn_snoc by lia. unfold represents; simpl.
      rewrite lookup_insert_eq. split; [done|].
      destruct (Tripped _); simpl; [set_solver|]. split; [by intros ?|done].
  - case_bool_decide as Hin; [done|]. unfold represents; cbn [thresholds windows quarantine fst].
    rewrite lookup_insert_ne by done. split; [done|]. rewrite <-Hq.
    destruct (Tripped _); [set_solver|done].
Qed.

Lemma reset_represents b n v key s :
  represents b key s → represents (Reset_ b n v) key (spec_call (thresholds b) key s (ResetCall n v)).
Proof.
  intros [Hwin Hq]. unfold represents, Reset_, spec_call; cbn [thresholds windows quarantine].
  case_bool_decide as Heq.
  - rewrite Heq, lookup_delete_eq. simpl. split; [by destruct (Z.to_nat _)|]. set_solver.
  - rewrite lookup_delete_ne by done. split; [done|]. rewrite <-Hq. set_solver.
Qed.

Lemma run_represents b cs key :
  (0 < WindowSize (thresholds b))%Z → windows b = ∅ → quarantine b = ∅ →
  represents (run b cs) key (spec_run (thresholds b) key cs).
Proof.
  intros Hw Hwin Hq. induction cs as [|c cs IH] using rev_ind.
  - unfold represents; simpl. rewrite Hwin, Hq, lookup_empty. simpl. split; [by destruct (Z.to_nat _)|set_solver].
  - pose proof (run_thresholds b cs) as Hth.
    unfold run, spec_run in *. rewrite !foldl_app. cbn [foldl].
    set (b1 := foldl apply_call b cs) in *. rewrite <-Hth in Hw, IH |- *.
    destruct c as [n v obs|n v]; cbn [apply_call]; [by apply record_represents|by apply reset_represents].
Qed.

(** C28. The breaker implements its contract for every sequence of calls and every
    agent version: the window is exactly the last [WindowSize] outcomes since
    the version was last reset, a version that trips stays quarantined until it
    is reset, and calls about other versions do not affect it. *)
Theorem breaker_refines_contract t cs name version :
  let b := run (New t) cs in
  let s := spec_run (thresholds (New t)) (name, version) cs in
  default [] (windows b !! (name, version))
    = lastn (Z.to_nat (WindowSize (thresholds (New t)))) (history s) ∧
  IsQuarantined b name version = opened s.
Proof.
  cbv zeta.
  destruct (run_represents (New t) cs (name, version)) as [Hwin Hq]; [apply New_window_positive|done|done|].
  rewrite run_thresholds in Hwin. split; [done|].
  unfold IsQuarantined. case_bool_decide as Hin; [by rewrite (proj1 Hq Hin)|].
  destruct (opened _); [by destruct Hin; apply Hq|done].
Qed.

(** ** Unpriced runs *)

Definition is_priced (o : Observation) : bool := bool_decide (is_Some (CostUSD o)).

Lemma tally_priced w : let t := tally_of (List.filter is_priced w) in
  totalCost (tally_of w) = totalCost t ∧ priced (tally_of w) = priced t.
Proof.
  cbv zeta. unfold tally_of. induction w as [|o w IH] using rev_ind; [done|].
  rewrite List.filter_app, !foldl_app; simpl. unfold is_priced at 2 4.
  destruct IH as [IHt IHp].
  destruct (CostUSD o) as [c|] eqn:Ho; [rewrite bool_decide_eq_true_2 by eauto|
    rewrite bool_decide_eq_false_2 by (by intros [? [=]])]; simpl; rewrite ?Ho.
  - by rewrite IHt, IHp.
  - done.
Qed.

(** Unpriced spend cannot hide a cost anomaly: whether a window of enough
    samples trips on cost depends only on its priced runs, so interleaving runs
    of unknown cost never lowers the average that is compared. *)
Theorem unpriced_runs_do_not_mask_cost th w w' :
  List.filter is_priced w = List.filter is_priced w' →
  (MinSamples th ≤ Z.of_nat (length w))%Z → (MinSamples th ≤ Z.of_nat (length w'))%Z →
  let fails w := fgtb (fdiv (f_of_Z (failures (tally_of w))) (f_of_Z (Z.of_nat (length w))))
                   (MaxFailureRate th) in
  fails w = false → fails w' = false →
  Tripped (evaluate th w) = Tripped (evaluate th w').
Proof.
  intros Hf Hl Hl' fails Hw Hw'. unfold evaluate.
  apply Z.ltb_ge in Hl, Hl'. rewrite Hl, Hl'. cbv zeta.
  destruct (tally_priced w) as [Ht Hp], (tally_priced w') as [Ht' Hp'].
  rewrite <-Hf in Ht', Hp'. unfold fails in *. rewrite Hw, Hw', Ht, Hp, Ht', Hp'.
  destruct (_ && _); [|done]. cbv zeta. by destruct (fgtb (fdiv (totalCost _) _) _).
Qed.

(** A version is tripped by an observation exactly when it has the samples
    and its failure rate, or the average cost of its priced runs, exceeds the
    threshold; below [MinSamples] nothing trips. *)
Theorem RecordOutcome_trips_iff b name version obs :
  (name, version) ∉ quarantine b →
  let w := slide (WindowSize (thresholds b))
             (default [] (windows b !! (name, version)) ++ [obs])%list in
  let t := tally_of w in
  let '(b', verdict) := RecordOutcome b name version obs in
  (Tripped verdict = true ↔
   (MinSamples (thresholds b) ≤ Z.of_nat (length w))%Z ∧
   (fgtb (fdiv (f_of_Z (failures t)) (f_of_Z (Z.of_nat (length w))))
      (MaxFailureRate (thresholds b)) = true ∨
    (fgtb (MaxAvgCostUSD (thresholds b)) f_zero = true ∧ (0 < priced t)%Z ∧
     fgtb (fdiv (totalCost t) (f_of_Z (priced t))) (MaxAvgCostUSD (thresholds b)) = true))) ∧
  (IsQuarantined b' name version = Tripped verdict).
Proof.
  intros Hq w t. unfold RecordOutcome. rewrite bool_decide_eq_false_2 by done. fold w.
  split.
  - unfold evaluate. fold t. destruct (Z.ltb_spec (Z.of_nat (length w)) (MinSamples (thresholds b)))
      as [Hlt|Hge]; cbn [Tripped no_trip]; [split; [done|lia]|].
    destruct (fgtb (fdiv (f_of_Z (failures t)) _) _) eqn:Hf; [split; auto|].
    destruct (fgtb (MaxAvgCostUSD _) f_zero) eqn:Hm; cbn [andb Tripped no_trip];
      [|split; [done|intros (_ & [?|(? & _)]); congruence]].
    destruct (Z.ltb_spec 0 (priced t)) as [Hpos|Hneg]; cbn [Tripped no_trip];
      [|split; [done|intros (_ & [?|(_ & ? & _)]); [congruence|lia]]].
    destruct (fgtb (fdiv (totalCost t) _) _) eqn:Hc; cbn [Tripped no_trip]; [split; auto|].
    split; [done|intros (_ & [?|(_ & _ & ?)]); congruence].
  - unfold IsQuarantined; cbn [quarantine].
    destruct (Tripped (evaluate (thresholds b) w)).
    + apply bool_decide_eq_true_2. set_solver.
    + by apply bool_decide_eq_false_2.
Qed.

(** ** Witnesses *)

Module BreakerWitnesses.

Definition w_thresholds : Thresholds :=
  {| WindowSize := 3; MinSamples := 2; MaxFailureRate := f_const 1 2; MaxAvgCostUSD := f_const 1 1 |}.
Definition ok_at (c : float64) : Observation := {| Success := true; CostUSD := Some c |}.
Definition ok_unpriced : Observation := {| Success := true; CostUSD := None |}.
Definition failed : Observation := {| Success := false; CostUSD := None |}.

Lemma unpriced_runs_do_not_mask_cost_witness :
  Tripped (evaluate w_thresholds [ok_at (f_const 2 1); ok_at (f_const 2 1)]) =
  Tripped (evaluate w_thresholds [ok_unpriced; ok_at (f_const 2 1); ok_unpriced; ok_at (f_const 2 1)]).
Proof.
  apply unpriced_runs_do_not_mask_cost; vm_compute; by first [reflexivity | intros [=]].
Defined.

Lemma RecordOutcome_trips_iff_witness :
  let b := run (New w_thresholds) [Record_ "a" "1" failed] in
  Tripped (RecordOutcome b "a" "1" failed).2 = true ∧ IsQuarantined b "a" "1" = false.
Proof.
  intros b. split; [|reflexivity].
  pose proof (RecordOutcome_trips_iff b "a" "1" failed) as H. cbv zeta in H.
  destruct (RecordOutcome b "a" "1" failed) as [b' verdict] eqn:Hr.
  apply H; [by apply (bool_decide_eq_false_1 (("a", "1") ∈ quarantine b))|].
  split; [by vm_compute|]. left. by vm_compute.
Defined.
End BreakerWitnesses.
