(* ===== verification/Json.v ===== *)
(** * encoding/json and Postgres's jsonb, as far as the program uses them

    A raw message is represented by what its bytes denote: nothing, bytes that
    are not JSON, or a JSON document whose object members keep their order and
    their duplicates. Numbers keep their literal. Postgres is not part of the
    repository: its jsonb conversion is a class with its documented laws. *)

From S2P Require Import Prelude GoValue.

Local Open Scope string_scope.
Set Default Proof Using "Type*".

Inductive json : Type :=
| JNull
| JBool (b : bool)
| JNumber (lit : string)
| JString (s : string)
| JArray (l : list json)
| JObject (fields : list (string * json)).

(** A [json.RawMessage]. *)
Inductive RawMessage : Type :=
| RawEmpty
| RawMalformed
| RawDoc (j : json).

(** [len(p) == 0] and [json.Valid(p)]. *)
Definition raw_empty (p : RawMessage) : bool := match p with RawEmpty => true | _ => false end.
Definition json_Valid (p : RawMessage) : bool := match p with RawDoc _ => true | _ => false end.

(** ** UTF-8, as json.Marshal writes a Go string *)

Definition cont : Ascii.ascii → bool := byte_in 128 191.
Definition utf8_2 (a b : Ascii.ascii) : bool := byte_in 194 223 a && cont b.
Definition utf8_3 (a b c : Ascii.ascii) : bool :=
  ((byte_is 224 a && byte_in 160 191 b) || (byte_in 225 236 a && cont b) ||
   (byte_is 237 a && byte_in 128 159 b) || (byte_in 238 239 a && cont b)) && cont c.
Definition utf8_4 (a b c d : Ascii.ascii) : bool :=
  ((byte_is 240 a && byte_in 144 191 b) || (byte_in 241 243 a && cont b) ||
   (byte_is 244 a && byte_in 128 143 b)) && cont c && cont d.

(** U+FFFD, which replaces each byte that starts no rune. *)
Definition replacement (rest : string) : string :=
  String (Ascii.ascii_of_nat 239) (String (Ascii.ascii_of_nat 191)
    (String (Ascii.ascii_of_nat 189) rest)).

Fixpoint to_valid_utf8 (s : string) : string :=
  match s with
  | EmptyString => EmptyString
  | String a r =>
      if byte_in 0 127 a then String a (to_valid_utf8 r) else
      match r with
      | EmptyString => replacement EmptyString
      | String b r1 =>
          if utf8_2 a b then String a (String b (to_valid_utf8 r1)) else
          match r1 with
          | EmptyString => replacement (to_valid_utf8 r)
          | String c r2 =>
              if utf8_3 a b c then String a (String b (String c (to_valid_utf8 r2))) else
              match r2 with
              | EmptyString => replacement (to_valid_utf8 r)
              | String d r3 =>
                  if utf8_4 a b c d
                  then String a (String b (String c (String d (to_valid_utf8 r3))))
                  else replacement (to_valid_utf8 r)
              end
          end
      end
  end.

(** A string is valid UTF-8 exactly when writing it replaces nothing. *)
Definition utf8_valid (s : string) : bool := String.eqb (to_valid_utf8 s) s.

Lemma utf8_valid_id s : utf8_valid s = true → to_valid_utf8 s = s.
Proof. apply String.eqb_eq. Qed.

Lemma to_valid_utf8_empty s : sempty (to_valid_utf8 s) = sempty s.
Proof. destruct s as [|a s]; [done|]. simpl. by repeat case_match. Qed.

Lemma is_ascii_utf8 s : is_ascii s = true → utf8_valid s = true.
Proof.
  intros H. apply String.eqb_eq. unfold is_ascii in H.
  induction s as [|a s IH]; simpl in *; [done|]. bools.
  rewrite H. by rewrite IH.
Qed.
#[export] Hint Resolve is_ascii_utf8 : aeon.

(** ** Decoding an object into a struct *)

(** [foldName]: keys are compared with their letters folded. The two non-ASCII
    runes that fold to an ASCII letter are U+017F (s) and U+212A (k); every other
    rune folds to a non-ASCII one, which no field name holds. *)
Definition upper_byte (c : Ascii.ascii) : Ascii.ascii :=
  if is_lower c then Ascii.ascii_of_nat (Ascii.nat_of_ascii c - 32) else c.
Fixpoint foldName (s : string) : string :=
  match s with
  | EmptyString => EmptyString
  | String a r =>
      match r with
      | String b r1 =>
          if byte_is 197 a && byte_is 191 b then String (Ascii.ascii_of_nat 83) (foldName r1) else
          match r1 with
          | String c r2 =>
              if byte_is 226 a && byte_is 132 b && byte_is 170 c
              then String (Ascii.ascii_of_nat 75) (foldName r2)
              else String (upper_byte a) (foldName r)
          | EmptyString => String (upper_byte a) (foldName r)
          end
      | EmptyString => String (upper_byte a) EmptyString
      end
  end.

(** The field a key selects: the exact name first, else the folded one. *)
Definition field_of (names : list string) (key : string) : option string :=
  match list_find (λ n, n = key) names with
  | Some (_, n) => Some n
  | None => snd <$> list_find (λ n, foldName n = foldName key) names
  end.

Lemma field_of_exact names n : n ∈ names → field_of names n = Some n.
Proof.
  intros Hn. unfold field_of.
  destruct (list_find (λ m, m = n) names) as [[i m]|] eqn:Hf.
  - apply list_find_Some in Hf as (_ & -> & _). done.
  - apply list_find_None in Hf. rewrite Forall_forall in Hf. by destruct (Hf n Hn).
Qed.

(** A string field: null leaves it alone, another type is an error and decoding
    goes on. *)
Definition decode_string (cur : string) (v : json) : string * bool :=
  match v with
  | JString s => (s, false)
  | JNull => (cur, false)
  | _ => (cur, true)
  end.

(** ** Maps as documents *)

(** json.Marshal of a map, which fails on a value with no JSON form, and
    json.Unmarshal into one. *)
Class GoJson := {
  marshal_map : gomap → option json;
  unmarshal_map : json → option gomap;
}.

(** ** Postgres *)

(** [to_jsonb] is the cast of a document to jsonb, which may refuse it (a NUL in
    a string); [jsonb_out] is its text, read back as a document; [text_ok] says
    which strings a TEXT parameter may hold. *)
Class Postgres := {
  jsonb : Type;
  jsonb_eq_dec :: EqDecision jsonb;
  to_jsonb : json → option jsonb;
  jsonb_out : jsonb → json;
  text_ok : string → bool;
}.

(** What the manual says of jsonb: strings are preserved, an object keeps its
    members in an order of its own (for distinct keys), and the text of a value
    denotes that value. *)
Class PostgresLaws `{Postgres} : Prop := {
  jsonb_string s b : to_jsonb (JString s) = Some b → jsonb_out b = JString s;
  jsonb_object fields b :
    NoDup fields.*1 → to_jsonb (JObject fields) = Some b →
    (∀ k v0, (k, v0) ∈ fields → is_Some (to_jsonb v0)) ∧
    ∃ fields', jsonb_out b = JObject fields' ∧ NoDup fields'.*1 ∧
      ∀ k v, (k, v) ∈ fields' ↔
        ∃ v0 b0, (k, v0) ∈ fields ∧ to_jsonb v0 = Some b0 ∧ jsonb_out b0 = v;
  jsonb_reread b : to_jsonb (jsonb_out b) = Some b;
}.

(** ** Equality of documents, and one instance of the class *)

#[export] Instance json_eq_dec : EqDecision json.
Proof.
  unshelve refine (fix go (x y : json) : Decision (x = y) :=
    let elems := fix elems (l k : list json) : Decision (l = k) :=
      match l, k with
      | [], [] => left eq_refl
      | x :: l, y :: k => match go x y with
                          | left _ => match elems l k with left _ => left _ | right _ => right _ end
                          | right _ => right _ end
      | _, _ => right _
      end in
    let members := fix members (l k : list (string * json)) : Decision (l = k) :=
      match l, k with
      | [], [] => left eq_refl
      | (n, x) :: l, (m, y) :: k =>
          match decide (n = m), go x y with
          | left _, left _ => match members l k with left _ => left _ | right _ => right _ end
          | _, _ => right _ end
      | _, _ => right _
      end in
    match x, y with
    | JNull, JNull => left eq_refl
    | JBool a, JBool b => cast_if (decide (a = b))
    | JNumber a, JNumber b => cast_if (decide (a = b))
    | JString a, JString b => cast_if (decide (a = b))
    | JArray l, JArray k => cast_if (elems l k)
    | JObject l, JObject k => cast_if (members l k)
    | _, _ => right _
    end); try clear members; try clear elems; try clear go; congruence.
Defined.

(** A Postgres that stores documents as they are. *)
Definition verbatim_postgres : Postgres := {|
  jsonb := json; to_jsonb := Some; jsonb_out := λ j, j; text_ok := λ _, true |}.

Lemma verbatim_laws : @PostgresLaws verbatim_postgres.
Proof.
  split; simpl.
  - by intros s b [= <-].
  - intros fields b Hnd [= <-]. split; [eauto|]. exists fields. repeat split; [done| |].
    + intros Hin. by exists v, v.
    + by intros (v0 & b0 & Hin & [= <-] & <-).
  - done.
Qed.

(** A codec for maps of strings. *)
Definition flat_json : GoJson := {|
  marshal_map m := Some (match m with
    | None => JNull
    | Some g => JObject ((λ kv, (kv.1, JString (as_string kv.2))) <$> map_to_list g)
    end);
  unmarshal_map d := match d with
    | JNull => Some None
    | JObject fs => Some (Some (list_to_map ((λ kv, (kv.1, match kv.2 with JString s => AString s | _ => ANil end)) <$> fs)))
    | _ => None
    end |}.

(** A codec that reads every document (integer literals only among numbers), as
    json.Unmarshal does: of equal keys the last one stands. *)
Fixpoint digits (acc : Z) (s : string) : Z :=
  match s with
  | EmptyString => acc
  | String c s => digits (10 * acc + Z.of_nat (Ascii.nat_of_ascii c) - 48)%Z s
  end.
Fixpoint any_of_json (j : json) : any :=
  match j with
  | JNull => ANil
  | JBool b => ABool b
  | JNumber lit => AFloat (f_of_Z (digits 0 lit))
  | JString s => AString s
  | JArray l => AList ((fix elems l := match l with [] => [] | x :: l => any_of_json x :: elems l end) l)
  | JObject fs => AMap ((fix members (m : gmap string any) fs :=
      match fs with [] => m | (k, v) :: fs => members (<[k := any_of_json v]> m) fs end) ∅ fs)
  end.
Definition tree_json : GoJson := {|
  marshal_map := @marshal_map flat_json;
  unmarshal_map d := match any_of_json d with
    | ANil => Some None
    | AMap m => Some (Some m)
    | _ => None
    end |}.
