(* ===== verification/Numbers.v ===== *)
(** * Numbers as text

    Package strconv as the program calls it: decimal integers written and read,
    and the binary64 nearest to a decimal literal of JSON's grammar. The lemmas
    say which integers a float holds exactly: those up to 2^53 survive, and no
    larger one is brought below that bound by rounding. *)

From Stdlib Require Import SpecFloat.
From stdpp Require Import pretty.
From S2P Require Import Prelude GoValue.

Local Open Scope string_scope.
Set Default Proof Using "Type*".

(** ** Reading *)

Definition digit_value (c : Ascii.ascii) : Z := Z.of_nat (Ascii.nat_of_ascii c) - 48.

(** The digits at the head of a text: their value after [acc], their number
    after [n], and what follows. *)
Fixpoint scan_digits (acc : Z) (n : nat) (s : string) : Z * nat * string :=
  match s with
  | String c r => if is_digit c then scan_digits (10 * acc + digit_value c) (S n) r else (acc, n, s)
  | EmptyString => (acc, n, EmptyString)
  end.

(** A decimal: sign, digits and power of ten. *)
Record decimal := mkDecimal { dec_neg : bool; dec_digits : Z; dec_exp : Z }.

Definition scan_sign (s : string) : bool * string :=
  match s with
  | String c r => if byte_is 45 c then (true, r) else (false, s)
  | EmptyString => (false, s)
  end.

Definition scan_exponent (s : string) : option Z :=
  match s with
  | EmptyString => Some 0%Z
  | String c r =>
      if byte_is 101 c || byte_is 69 c then
        let '(neg, r) := match r with
          | String d r' => if byte_is 43 d then (false, r') else scan_sign r
          | EmptyString => (false, r) end in
        let '(e, n, rest) := scan_digits 0 0 r in
        if (n =? 0)%nat || negb (sempty rest) then None else Some (if neg then - e else e)%Z
      else None
  end.

(** A number of JSON's grammar (encoding/json's isValidNumber), nothing else. *)
Definition number_literal (s : string) : option decimal :=
  let '(neg, s) := scan_sign s in
  let '(ip, n, s1) := scan_digits 0 0 s in
  let leading_zero := match s with String c _ => byte_is 48 c | EmptyString => false end in
  if (n =? 0)%nat || (leading_zero && negb (n =? 1)%nat) then None else
  '(m, k, s2) ← match s1 with
    | String c r =>
        if byte_is 46 c then
          let '(m, k, s2) := scan_digits ip 0 r in if (k =? 0)%nat then None else Some (m, k, s2)
        else Some (ip, O, s1)
    | EmptyString => Some (ip, O, s1)
    end;
  e ← scan_exponent s2;
  Some (mkDecimal neg m (e - Z.of_nat k)).

Definition signed (neg : bool) (z : Z) : Z := if neg then (- z)%Z else z.

(** The integer a decimal denotes, when it denotes one. *)
Definition dec_int (d : decimal) : option Z :=
  if (0 <=? dec_exp d)%Z then Some (signed (dec_neg d) (dec_digits d * 10 ^ dec_exp d))
  else let q := (10 ^ (- dec_exp d))%Z in
       if (dec_digits d mod q =? 0)%Z then Some (signed (dec_neg d) (dec_digits d / q)) else None.

(** The float nearest to [n / d], ties to even, both positive: the division of
    [SFdiv], whose operands may have any number of digits. *)
Definition f_of_ratio (neg : bool) (n d : Z) : float64 :=
  let '(q, e, l) := SFdiv_core_binary f64_prec f64_emax n 0 d 0 in
  binary_round_aux f64_prec f64_emax neg q e l.

(** The float nearest to a decimal. *)
Definition dec_float (d : decimal) : float64 :=
  match dec_int d with
  | Some 0%Z => S754_zero (dec_neg d)
  | Some z => f_of_Z z
  | None => f_of_ratio (dec_neg d) (dec_digits d) (10 ^ (- dec_exp d))
  end.

(** What strconv and encoding/json do beyond decimal integers and JSON literals:
    ParseFloat also reads hexadecimal, [Inf] and the like, and printing a float
    finds the shortest digits that read back. *)
Class GoNumbers := {
  parse_other_float : string → option float64;
  FormatFloat : Ascii.ascii → float64 → string;
  json_float : float64 → string;
  json_float32 : float64 → string;
}.

Definition is_finite (f : float64) : bool :=
  match f with S754_zero _ | S754_finite _ _ _ => true | _ => false end.

(** [strconv.ParseFloat(s, 64)]: no value when it reports an error, which an
    overflow to infinity is. *)
Definition ParseFloat `{GoNumbers} (s : string) : option float64 :=
  match number_literal s with
  | Some d => let f := dec_float d in if is_finite f then Some f else None
  | None => parse_other_float s
  end.

(** [strconv.ParseInt(s, 10, 64)]: an optional sign, then digits only. *)
Definition ParseInt (s : string) : option Z :=
  let '(neg, s) := match s with
    | String c r => if byte_is 43 c then (false, r) else scan_sign s
    | EmptyString => (false, s) end in
  let '(v, n, rest) := scan_digits 0 0 s in
  if (n =? 0)%nat || negb (sempty rest) then None
  else let z := signed neg v in if in_int64 z then Some z else None.

Example literal_plain : number_literal "-120.50e+3" = Some (mkDecimal true 12050 1).
Proof. reflexivity. Qed.
Example literal_folds :
  dec_float <$> number_literal "9007199254740993.0" = Some (f_of_Z (2 ^ 53)).
Proof. vm_compute. reflexivity. Qed.
Example literal_tenth : dec_float <$> number_literal "0.1" = Some (f_const 1 10).
Proof. vm_compute. reflexivity. Qed.
Example literal_leading_zero : number_literal "012" = None.
Proof. reflexivity. Qed.

(** ** Which integers a float holds *)

Lemma digits2_bounds p : (2 ^ (Z.pos (digits2_pos p) - 1) ≤ Z.pos p < 2 ^ Z.pos (digits2_pos p))%Z.
Proof.
  induction p as [p IH|p IH|]; cbn [digits2_pos]; [| |by vm_compute].
  all: rewrite Pos2Z.inj_succ; replace (Z.succ (Z.pos (digits2_pos p)) - 1)%Z
    with (Z.succ (Z.pos (digits2_pos p) - 1)) by lia; rewrite !Z.pow_succ_r; lia.
Qed.

Lemma digits2_unique p n : (0 < n → 2 ^ (n - 1) ≤ Z.pos p < 2 ^ n → Z.pos (digits2_pos p) = n)%Z.
Proof.
  intros Hn [Hl Hu]. pose proof (digits2_bounds p) as [Hl' Hu'].
  assert (¬ n < Z.pos (digits2_pos p))%Z as Hle.
  { intros Hlt. pose proof (Z.pow_le_mono_r 2 n (Z.pos (digits2_pos p) - 1) eq_refl ltac:(lia)). lia. }
  assert (¬ Z.pos (digits2_pos p) < n)%Z as Hge; [|lia].
  intros Hlt. pose proof (Z.pow_le_mono_r 2 (Z.pos (digits2_pos p)) (n - 1) eq_refl ltac:(lia)). lia.
Qed.

Lemma iter_xO_value p d : Z.pos (Pos.iter xO p d) = (Z.pos p * 2 ^ Z.pos d)%Z.
Proof.
  revert d. apply Pos.peano_ind; [simpl; lia|]. intros d IH.
  rewrite Pos.iter_succ, Pos2Z.inj_succ, Z.pow_succ_r; lia.
Qed.

(** A mantissa that fits needs no rounding. *)
Lemma binary_round_aux_exact s m e :
  fexp f64_prec f64_emax (Z.pos (digits2_pos m) + e) = e → (e ≤ f64_emax - f64_prec)%Z →
  binary_round_aux f64_prec f64_emax s (Z.pos m) e loc_Exact = S754_finite s m e.
Proof.
  intros He Hmax.
  assert (shr_fexp f64_prec f64_emax (Z.pos m) e loc_Exact = (Build_shr_record (Z.pos m) false false, e)) as Hs.
  { unfold shr_fexp. cbn [Zdigits2]. by rewrite He, Z.sub_diag. }
  unfold binary_round_aux. rewrite Hs. cbn [shr_m loc_of_shr_record round_nearest_even].
  rewrite Hs. cbn [shr_m]. by rewrite (proj2 (Z.leb_le _ _) Hmax).
Qed.

Definition pow53 : Z := 9007199254740992.

(** Below 2^53 in magnitude, [float64(z)] is exactly [z]. *)
Lemma binary_round_small s p :
  (Z.pos p < pow53)%Z →
  ∃ m e, binary_round f64_prec f64_emax s p 0 = S754_finite s m e ∧
         (e ≤ 0)%Z ∧ Z.pos m = (Z.pos p * 2 ^ (- e))%Z.
Proof.
  intros Hp. pose proof (digits2_bounds p) as [Hl Hu].
  assert (Z.pos (digits2_pos p) ≤ 53)%Z as Hd.
  { apply Z.nlt_ge. intros H.
    pose proof (Z.pow_le_mono_r 2 53 (Z.pos (digits2_pos p) - 1) eq_refl ltac:(lia)).
    change (2 ^ 53)%Z with pow53 in *. lia. }
  unfold binary_round. rewrite Z.add_0_r.
  assert (fexp f64_prec f64_emax (Z.pos (digits2_pos p)) = Z.pos (digits2_pos p) - 53)%Z as Hf
    by (unfold fexp, emin, f64_prec, f64_emax; lia).
  rewrite Hf. unfold shl_align. rewrite Z.sub_0_r.
  destruct (Z.pos (digits2_pos p) - 53)%Z as [|k|k] eqn:Hk; [|lia|].
  - exists p, 0%Z. rewrite binary_round_aux_exact; [|by rewrite Z.add_0_r, Hf, ?Hk|by vm_compute].
    split_and!; [done|lia|simpl; lia].
  - exists (Pos.iter xO p k), (Z.neg k). rewrite binary_round_aux_exact; [|idtac|simpl; unfold f64_emax, f64_prec; lia].
    { split_and!; [done|lia|apply iter_xO_value]. }
    rewrite (digits2_unique _ 53); [unfold fexp, emin, f64_prec, f64_emax; lia|lia|].
    rewrite iter_xO_value.
    replace (2 ^ (53 - 1))%Z with (2 ^ (Z.pos (digits2_pos p) - 1) * 2 ^ Z.pos k)%Z
      by (rewrite <-Z.pow_add_r by lia; f_equal; lia).
    replace (2 ^ 53)%Z with (2 ^ Z.pos (digits2_pos p) * 2 ^ Z.pos k)%Z
      by (rewrite <-Z.pow_add_r by lia; f_equal; lia).
    pose proof (Z.pow_pos_nonneg 2 (Z.pos k) eq_refl ltac:(lia)). nia.
Qed.

Lemma f_trunc_of_Z z : (- pow53 ≤ z ≤ pow53)%Z → f_trunc_Z (f_of_Z z) = Some z.
Proof.
  intros Hz. destruct (decide (z = pow53)) as [->|]; [by vm_compute|].
  destruct (decide (z = - pow53)%Z) as [->|]; [by vm_compute|].
  unfold f_of_Z, binary_normalize. destruct z as [|p|p]; [done|..].
  all: match goal with |- f_trunc_Z (binary_round _ _ ?s _ _) = _ =>
    destruct (binary_round_small s p ltac:(lia)) as (m & e & -> & He & Hm) end.
  all: cbn [f_trunc_Z]; rewrite Hm; destruct (Z.leb_spec 0 e) as [?|?].
  all: try (replace e with 0%Z by lia; f_equal; rewrite Z.pow_0_r; simpl; lia).
  all: rewrite Z.div_mul; [done|]; pose proof (Z.pow_pos_nonneg 2 (- e) eq_refl ltac:(lia)); lia.
Qed.

(** So distinct integers up to 2^53 are distinct floats. *)
Lemma f_of_Z_inj z1 z2 :
  (- pow53 ≤ z1 ≤ pow53)%Z → (- pow53 ≤ z2 ≤ pow53)%Z → f_of_Z z1 = f_of_Z z2 → z1 = z2.
Proof. intros H1 H2 Heq. apply f_trunc_of_Z in H1, H2. congruence. Qed.

(** ** Rounding does not bring a larger integer below 2^53 *)

Lemma shr_1_value mrs : (0 ≤ shr_m mrs → shr_m (shr_1 mrs) = shr_m mrs / 2)%Z.
Proof.
  destruct mrs as [m r s]. cbn [shr_m]. intros Hm. destruct m as [|[p|p|]|p]; [done| | |done|lia].
  - cbn [shr_1 shr_m]. apply Z.div_unique with 1%Z; lia.
  - cbn [shr_1 shr_m]. apply Z.div_unique with 0%Z; lia.
Qed.

Lemma iter_shr_value k mrs :
  (0 ≤ shr_m mrs → shr_m (SpecFloat.iter_pos shr_1 k mrs) = shr_m mrs / 2 ^ Z.pos k)%Z.
Proof.
  assert (∀ x, (0 ≤ shr_m x → 0 ≤ shr_m (shr_1 x))%Z) as Hpos.
  { intros x Hx. rewrite shr_1_value by done. by apply Z.div_pos. }
  revert mrs. induction k as [k IH|k IH|]; intros mrs Hm; cbn [SpecFloat.iter_pos].
  - assert (0 ≤ shr_m (SpecFloat.iter_pos shr_1 k (shr_1 mrs)))%Z as Hin.
    { rewrite IH by auto. apply Z.div_pos; [auto|]. by apply Z.pow_pos_nonneg. }
    rewrite IH, IH, shr_1_value by auto. rewrite !Z.div_div by (try apply Z.pow_nonzero; lia).
    replace (Z.pos k~1) with (1 + Z.pos k + Z.pos k)%Z by lia. rewrite !Z.pow_add_r by lia. by rewrite Z.pow_1_r, ?Z.mul_assoc.
  - assert (0 ≤ shr_m (SpecFloat.iter_pos shr_1 k mrs))%Z as Hin.
    { rewrite IH by auto. apply Z.div_pos; [auto|]. by apply Z.pow_pos_nonneg. }
    rewrite IH, IH by auto. rewrite !Z.div_div by (try apply Z.pow_nonzero; lia).
    replace (Z.pos k~0) with (Z.pos k + Z.pos k)%Z by lia. by rewrite Z.pow_add_r by lia.
  - by rewrite shr_1_value.
Qed.

Lemma shr_fexp_left m e :
  (0 ≤ m → shr_m (shr_fexp f64_prec f64_emax m e loc_Exact).1 =
           m / 2 ^ Z.max 0 (fexp f64_prec f64_emax (Zdigits2 m + e) - e) ∧
           (shr_fexp f64_prec f64_emax m e loc_Exact).2 =
           Z.max e (fexp f64_prec f64_emax (Zdigits2 m + e)))%Z.
Proof.
  intros Hm. unfold shr_fexp, shr_record_of_loc, shr.
  destruct (fexp f64_prec f64_emax (Zdigits2 m + e) - e)%Z as [|k|k] eqn:Hk; cbn [fst snd shr_m].
  - rewrite Z.div_1_r. split; [done|lia].
  - rewrite iter_shr_value by done. split; [done|lia].
  - rewrite Z.div_1_r. split; [done|lia].
Qed.

Lemma Zdigits2_pos p : Zdigits2 (Z.pos p) = Z.pos (digits2_pos p).
Proof. done. Qed.

(** An integer of at least 2^53 is rounded to a float of at least 2^53. *)
Lemma binary_round_large s p :
  (pow53 ≤ Z.pos p)%Z →
  fgeb (fabs (binary_round f64_prec f64_emax s p 0)) (f_of_Z pow53) = true.
Proof.
  intros Hp. pose proof (digits2_bounds p) as [Hl Hu].
  set (d := Z.pos (digits2_pos p)) in *.
  assert (54 ≤ d)%Z as Hd.
  { apply Z.nlt_ge. intros Hlt. pose proof (Z.pow_le_mono_r 2 d 53 eq_refl ltac:(lia)).
    change (2 ^ 53)%Z with pow53 in *. lia. }
  assert (∀ x, 54 ≤ x → fexp f64_prec f64_emax x = x - 53)%Z as Hf
    by (intros; unfold fexp, emin, f64_prec, f64_emax; lia).
  unfold binary_round. rewrite Z.add_0_r. fold d. rewrite Hf by done.
  unfold shl_align. rewrite Z.sub_0_r.
  replace (match (d - 53)%Z with Z.neg d0 => (Pos.iter xO p d0, (d - 53)%Z) | _ => (p, 0%Z) end) with (p, 0%Z)
    by (destruct (d - 53)%Z eqn:?; done || lia).
  unfold binary_round_aux.
  destruct (shr_fexp_left (Z.pos p) 0 ltac:(lia)) as [Hm1 He1].
  rewrite Zdigits2_pos, Z.add_0_r in Hm1, He1. fold d in Hm1, He1. rewrite Hf in Hm1, He1 by done.
  destruct (shr_fexp _ _ (Z.pos p) 0 _) as [mrs1 e1]. cbn [fst snd] in *.
  replace (Z.max 0 (d - 53 - 0))%Z with (d - 53)%Z in Hm1 by lia.
  replace (Z.max 0 (d - 53))%Z with (d - 53)%Z in He1 by lia.
  set (m1 := round_nearest_even (shr_m mrs1) (loc_of_shr_record mrs1)).
  assert (2 ^ 52 ≤ shr_m mrs1 < 2 ^ 53)%Z as Hq.
  { rewrite Hm1. pose proof (Z.pow_pos_nonneg 2 (d - 53) eq_refl ltac:(lia)) as Hpos. split.
    - apply Z.div_le_lower_bound; [done|]. rewrite <-Z.pow_add_r by lia.
      by replace (d - 53 + 52)%Z with (d - 1)%Z by lia.
    - apply Z.div_lt_upper_bound; [done|]. rewrite <-Z.pow_add_r by lia.
      by replace (d - 53 + 53)%Z with d by lia. }
  assert (2 ^ 52 ≤ m1 ≤ 2 ^ 53)%Z as Hm.
  { unfold m1, round_nearest_even. repeat case_match; lia. }
  clearbody m1. assert (∃ p1, m1 = Z.pos p1) as [p1 ->] by (destruct m1; [lia|eauto|lia]).
  destruct (shr_fexp_left (Z.pos p1) e1 ltac:(lia)) as [Hm2 He2].
  rewrite Zdigits2_pos in Hm2, He2.
  destruct (shr_fexp _ _ (Z.pos p1) e1 _) as [mrs2 e2]. cbn [fst snd] in *.
  assert (2 ^ 52 ≤ shr_m mrs2 ∧ 1 ≤ e2)%Z as [Hm3 He3].
  { destruct (decide (Z.pos p1 = 2 ^ 53)%Z) as [Heq|Hne].
    - assert (Z.pos (digits2_pos p1) = 54)%Z as Hd1 by (apply digits2_unique; [lia|]; rewrite Heq; by vm_compute).
      rewrite Hd1, Hf in Hm2, He2 by lia.
      replace (Z.max 0 (54 + e1 - 53 - e1))%Z with 1%Z in Hm2 by lia. rewrite Hm2, Heq. split; [by vm_compute|lia].
    - assert (Z.pos (digits2_pos p1) = 53)%Z as Hd1 by (apply digits2_unique; [lia|]; simpl in *; lia).
      rewrite Hd1, Hf in Hm2, He2 by lia.
      replace (Z.max 0 (53 + e1 - 53 - e1))%Z with 0%Z in Hm2 by lia. rewrite Z.div_1_r in Hm2. split; lia. }
  destruct (shr_m mrs2) as [|q|q]; [lia| |lia].
  destruct (e2 <=? _)%Z; [|done].
  change (f_of_Z pow53) with (S754_finite false 4503599627370496 1).
  unfold fgeb, fleb, SFleb, fabs. cbn [SFabs SFcompare].
  destruct (Z.compare_spec 1 e2); [|done|lia].
  change (Pos.compare_cont Eq 4503599627370496 q) with (4503599627370496 ?= q)%positive.
  destruct (Pos.compare_spec 4503599627370496 q) as [| |Hlt]; [reflexivity..|].
  apply Pos2Z.pos_lt_pos in Hlt. change (2 ^ 52)%Z with 4503599627370496%Z in Hm3.
  exfalso. exact (Z.lt_irrefl _ (Z.le_lt_trans _ _ _ Hm3 Hlt)).
Qed.

Lemma f_of_Z_large z : (pow53 ≤ Z.abs z)%Z → fgeb (fabs (f_of_Z z)) (f_of_Z pow53) = true.
Proof.
  intros Hz. unfold f_of_Z at 1, binary_normalize. destruct z as [|p|p]; [done|..];
    by apply binary_round_large.
Qed.

(** ** Printed integers read back *)

Lemma pretty_char_digit x : (x < 10)%N →
  is_digit (pretty_N_char x) = true ∧ digit_value (pretty_N_char x) = Z.of_N x.
Proof.
  intros Hx. assert (x = 0 ∨ x = 1 ∨ x = 2 ∨ x = 3 ∨ x = 4 ∨ x = 5 ∨ x = 6 ∨ x = 7 ∨ x = 8 ∨ x = 9)%N
    as Hc by lia. destruct_or!; subst; done.
Qed.

Lemma scan_pretty x s :
  ∃ k, (x ≠ 0%N → k ≠ 0%nat) ∧ ∀ acc n,
    scan_digits acc n (pretty_N_go x s) = scan_digits (acc * 10 ^ Z.of_nat k + Z.of_N x) (n + k) s.
Proof.
  revert s. induction (N.lt_wf_0 x) as [x _ IH]; intros s.
  destruct (decide (x = 0)%N) as [->|Hx].
  - exists 0%nat. split; [done|]. intros acc n. rewrite pretty_N_go_0. f_equal; lia.
  - rewrite pretty_N_go_step by lia.
    destruct (IH (x `div` 10)%N ltac:(apply N.div_lt; lia)
                (String (pretty_N_char (x `mod` 10)) s)) as (k & _ & Hk).
    exists (S k). split; [done|]. intros acc n. rewrite Hk. cbn [scan_digits].
    destruct (pretty_char_digit (x `mod` 10)%N) as [-> ->]; [by apply N.mod_lt|].
    f_equal; [|lia]. rewrite Nat2Z.inj_succ, Z.pow_succ_r by lia.
    pose proof (N.div_mod x 10 ltac:(done)). lia.
Qed.

Lemma pretty_head x s : x ≠ 0%N → ∃ c r, pretty_N_go x s = String c r ∧ is_digit c = true ∧ byte_is 48 c = false.
Proof.
  revert s. induction (N.lt_wf_0 x) as [x _ IH]; intros s Hx.
  rewrite pretty_N_go_step by lia. destruct (decide (x < 10)%N) as [Hlt|Hge].
  - rewrite N.div_small, pretty_N_go_0, N.mod_small by done. eexists _, _. split; [done|].
    assert (x = 1 ∨ x = 2 ∨ x = 3 ∨ x = 4 ∨ x = 5 ∨ x = 6 ∨ x = 7 ∨ x = 8 ∨ x = 9)%N as Hc by lia.
    destruct_or!; subst; done.
  - apply IH; [apply N.div_lt; lia|]. pose proof (N.div_str_pos x 10 ltac:(lia)). lia.
Qed.

(** [x] printed by Itoa, FormatInt or FormatUint, without its sign. *)
Lemma scan_pretty_N x : ∃ c r k, pretty x = String c r ∧ is_digit c = true ∧
  (byte_is 48 c = true → x = 0%N) ∧ scan_digits 0 0 (pretty x) = (Z.of_N x, S k, "") ∧
  (x = 0%N → k = 0%nat).
Proof.
  unfold pretty, pretty_N. case_decide as Hx.
  - subst. by eexists _, _, 0%nat.
  - destruct (pretty_head x "" Hx) as (c & r & Hs & Hd & H0).
    destruct (scan_pretty x "") as (k & Hk & Hscan).
    exists c, r, (pred k). rewrite Hs in *. split_and!; [done|done|by rewrite H0| |done].
    rewrite Hscan. cbn [scan_digits]. specialize (Hk Hx). do 2 f_equal; lia.
Qed.

Lemma digit_not_sign c : is_digit c = true → byte_is 45 c = false ∧ byte_is 43 c = false.
Proof.
  unfold is_digit. rewrite byte_in_true. intros Hc.
  split; apply not_true_is_false; rewrite byte_is_true; lia.
Qed.

Lemma scan_sign_pretty z :
  scan_sign (pretty z) = ((z <? 0)%Z, pretty (Z.abs_N z)).
Proof.
  destruct z as [|p|p]; [done| |done].
  change (pretty (Z.pos p)) with (pretty (N.pos p)). cbn [Z.abs_N].
  destruct (scan_pretty_N (N.pos p)) as (c & r & k & -> & Hd & _).
  simpl. by rewrite (proj1 (digit_not_sign c Hd)).
Qed.

Lemma number_literal_pretty z :
  number_literal (pretty z) = Some (mkDecimal (z <? 0)%Z (Z.abs z) 0).
Proof.
  unfold number_literal. rewrite scan_sign_pretty.
  destruct (scan_pretty_N (Z.abs_N z)) as (c & r & k & Hs & Hd & H0 & Hscan & Hk).
  rewrite Hscan, Hs. cbn [Nat.eqb orb].
  replace (byte_is 48 c && negb (k =? 0)%nat) with false
    by (destruct (byte_is 48 c); [rewrite Hk by auto|]; done).
  simpl. by rewrite N2Z.inj_abs_N.
Qed.

Lemma literal_int_pretty z : (number_literal (pretty z) ≫= dec_int) = Some z.
Proof.
  rewrite number_literal_pretty. simpl. unfold dec_int, signed. simpl.
  destruct (Z.ltb_spec z 0); f_equal; lia.
Qed.

Lemma ParseInt_pretty z : in_int64 z = true → ParseInt (pretty z) = Some z.
Proof.
  intros Hz. unfold ParseInt.
  assert ((match pretty z with
           | EmptyString => (false, pretty z)
           | String c r => if byte_is 43 c then (false, r) else scan_sign (pretty z) end)
          = ((z <? 0)%Z, pretty (Z.abs_N z))) as ->.
  { rewrite <-scan_sign_pretty. destruct z as [|p|p]; [done| |done].
    change (pretty (Z.pos p)) with (pretty (N.pos p)).
    destruct (scan_pretty_N (N.pos p)) as (c & r & k & -> & Hd & _).
    by rewrite (proj2 (digit_not_sign c Hd)). }
  destruct (scan_pretty_N (Z.abs_N z)) as (c & r & k & _ & _ & _ & -> & _). simpl.
  rewrite N2Z.inj_abs_N. unfold signed.
  replace (if (z <? 0)%Z then (- Z.abs z)%Z else Z.abs z) with z by (destruct (Z.ltb_spec z 0); lia).
  by rewrite Hz.
Qed.

(** ParseInt reads nothing that the literal's own value contradicts. *)
Lemma scan_digits_rest acc n s v k :
  scan_digits acc n s = (v, k, EmptyString) → str_all is_digit s = true.
Proof.
  revert acc n. induction s as [|c s IH]; intros acc n; [done|]. cbn [scan_digits str_all].
  destruct (is_digit c); [apply IH|done].
Qed.
Lemma ParseInt_literal s d z :
  number_literal s = Some d → ParseInt s = Some z → dec_int d = Some z.
Proof.
  unfold number_literal, ParseInt. intros Hd Hz.
  destruct s as [|c r]; [done|].
  destruct (byte_is 43 c) eqn:Hplus.
  { exfalso. apply byte_is_true in Hplus. unfold scan_sign, byte_is in Hd. rewrite Hplus in Hd.
    cbn -[byte_is] in Hd. unfold is_digit, byte_in in Hd. rewrite Hplus in Hd. done. }
  destruct (scan_sign (String c r)) as [neg s].
  destruct (scan_digits 0 0 s) as [[v n] rest] eqn:Hs.
  destruct (n =? 0)%nat eqn:Hn; [done|]. cbn [orb] in *.
  destruct (sempty rest) eqn:Hrest; [|done]. apply sempty_true in Hrest as ->. cbn in Hz.
  destruct (_ && _); [done|]. cbn in Hd. simplify_eq/=.
  destruct (in_int64 _) eqn:Hi in Hz; simplify_eq. unfold dec_int; simpl. by rewrite Z.mul_1_r.
Qed.

(** The integer a float denotes, when it denotes one. *)
Definition float_int (f : float64) : option Z :=
  match f with
  | S754_zero _ => Some 0%Z
  | S754_finite s m e =>
      if (0 <=? e)%Z then Some (signed s (Z.pos m * 2 ^ e))
      else if (Z.pos m mod 2 ^ (- e) =? 0)%Z then Some (signed s (Z.pos m / 2 ^ (- e))) else None
  | _ => None
  end.

Lemma float_int_trunc f z : float_int f = Some z → f_trunc_Z f = Some z.
Proof. unfold float_int, f_trunc_Z, signed. intros Hz. repeat case_match; simplify_eq; done. Qed.

(** A literal that denotes an integer up to 2^53 is read as that integer, and one
    that denotes a larger integer is read as a float of at least 2^53. *)
Lemma dec_float_int d z :
  dec_int d = Some z →
  f_trunc_Z (dec_float d) = Some z ∨ fgeb (fabs (dec_float d)) (f_of_Z pow53) = true.
Proof.
  intros Hz. unfold dec_float. rewrite Hz. destruct z as [|p|p]; [by left|..].
  all: match goal with |- context [f_of_Z ?z] => destruct (decide (pow53 ≤ Z.abs z)%Z) end;
    [right; by apply f_of_Z_large|left; apply f_trunc_of_Z; lia].
Qed.
Lemma dec_float_small d z :
  dec_int d = Some z → (- pow53 ≤ z ≤ pow53)%Z → f_trunc_Z (dec_float d) = Some z.
Proof.
  intros Hz Hb. unfold dec_float. rewrite Hz. destruct z; [done|..]; by apply f_trunc_of_Z.
Qed.
