(* ===== verification/StepIdentity.v ===== *)
(** * The approval hash of a step

    go/internal/stepidentity: the bound checked on every number before a step is
    serialized, the RFC 8785 canonical JSON of the step and its SHA-256. The
    canonicalizer (github.com/gowebpki/jcs) is not part of the repository: it is
    [Transform], and what RFC 8785 promises of it is stated as a hypothesis. The
    theorems say that two steps with one hash have the same shape, strings and
    integers, and where that promise ends. *)

From stdpp Require Import pretty.
From Stdlib Require Import SpecFloat.
From S2P Require Import Prelude GoValue Sha256 Json Numbers.

Local Open Scope string_scope.
Set Default Proof Using "Type*".

Record Step := mkStep { StepID : string; ToolName : string; ToolArgs : any }.

Definition maxExactInteger : Z := Z.shiftl 1 53.

Record ErrIntegerTooLargeToBind := mkTooLarge {
  Path : string; Value : string; Float : bool }.

Inductive step_error :=
| TooLargeToBind (e : ErrIntegerTooLargeToBind)
| EncodingStep
| CanonicalizingStep.

(** ** The bound *)

Section bounds.
Context `{GoNumbers}.

Definition checkIntMagnitude (path literal : string) (v : Z) : option ErrIntegerTooLargeToBind :=
  if (maxExactInteger <? v)%Z || (v <? - maxExactInteger)%Z
  then Some (mkTooLarge path literal false) else None.

Definition checkFloatMagnitude (path literal : string) (v : float64) : option ErrIntegerTooLargeToBind :=
  if negb (feqb v (ftrunc v)) && fltb (fabs v) (f_of_Z maxExactInteger) then None
  else if fgeb (fabs v) (f_of_Z maxExactInteger) then Some (mkTooLarge path literal true)
  else None.

Definition formatBigFloat (v : float64) : string :=
  if fltb (fabs v) (f_of_Z (10 ^ 18)) then FormatFloat (Ascii.ascii_of_nat 102) v
  else FormatFloat (Ascii.ascii_of_nat 103) v.

(** [sort.Strings] of a map's keys. *)
Definition sorted_keys {A} (m : gmap string A) : list string :=
  insertion_sort str_ltb (map_to_list m).*1.

(** The first error of a walk. *)
Fixpoint first_error {A E} (f : A → option E) (l : list A) : option E :=
  match l with
  | [] => None
  | x :: l => match f x with Some e => Some e | None => first_error f l end
  end.

Fixpoint checkIntegerBounds (v : any) (path : string) : option ErrIntegerTooLargeToBind :=
  match v with
  | ANumber n =>
      match ParseInt n with
      | Some i => checkIntMagnitude path n i
      | None => match ParseFloat n with
                | Some f => checkFloatMagnitude path n f
                | None => None end
      end
  | AFloat n => checkFloatMagnitude path (formatBigFloat n) n
  | AInt n => checkIntMagnitude path (pretty n) n
  | AInt64 n => checkIntMagnitude path (pretty n) n
  | AUint64 n =>
      if (maxExactInteger <? n)%Z then Some (mkTooLarge path (pretty n) false) else None
  | AMap n =>
      let checks := checkIntegerBounds <$> n in
      first_error (λ k, match checks !! k with
                        | Some check => check (path +:+ "." +:+ k) | None => None end)
        (sorted_keys checks)
  | AList n =>
      (fix go (i : nat) (l : list any) := match l with
        | [] => None
        | item :: l => match checkIntegerBounds item (path +:+ "[" +:+ pretty i +:+ "]") with
                       | Some e => Some e | None => go (S i) l end
        end) O n
  | _ => None
  end.

(** ** Serializing *)

Section marshal.
(** json.Marshal of a value of another dynamic type. *)
Context (json_other : string → option json).

Fixpoint marshal_any (v : any) : option json :=
  match v with
  | ANil => Some JNull
  | ABool b => Some (JBool b)
  | AInt z | AInt64 z | AUint64 z => Some (JNumber (pretty z))
  | AFloat32 f => if is_finite f then Some (JNumber (json_float32 f)) else None
  | AFloat f => if is_finite f then Some (JNumber (json_float f)) else None
  | ANumber lit =>
      if sempty lit then Some (JNumber "0")
      else _ ← number_literal lit; Some (JNumber lit)
  | AString s => Some (JString (to_valid_utf8 s))
  | AList l =>
      JArray <$> (fix go (l : list any) := match l with
        | [] => Some []
        | x :: l => d ← marshal_any x; ds ← go l; Some (d :: ds) end) l
  | AMap m =>
      let docs := marshal_any <$> m in
      JObject <$> mapM (λ k, d ← default None (docs !! k); Some (to_valid_utf8 k, d)) (sorted_keys docs)
  | AOther t => json_other t
  end.

Definition marshal_step (s : Step) : option json :=
  args ← marshal_any (ToolArgs s);
  Some (JObject [("step_id", JString (to_valid_utf8 (StepID s)));
                 ("tool_name", JString (to_valid_utf8 (ToolName s)));
                 ("tool_args", args)]).

(** [jcs.Transform], from a document to canonical bytes. *)
Context (Transform : json → option string).

Definition CanonicalJSON (s : Step) : result step_error string :=
  match checkIntegerBounds (ToolArgs s) "tool_args" with
  | Some e => Err (TooLargeToBind e)
  | None =>
      match marshal_step s with
      | None => Err EncodingStep
      | Some raw => match Transform raw with
                    | None => Err CanonicalizingStep
                    | Some canonical => Ok canonical end
      end
  end.

Definition Hash (s : Step) : result step_error string :=
  match CanonicalJSON s with
  | Ok canonical => Ok (sha256_hex canonical)
  | Err e => Err e
  end.
End marshal.
End bounds.

(** ** What a step says, place by place *)

Inductive seg := Key (k : string) | Idx (i : nat).

Fixpoint at_ (p : list seg) (v : any) : option any :=
  match p with
  | [] => Some v
  | Key k :: p => match v with AMap m => m !! k ≫= at_ p | _ => None end
  | Idx i :: p => match v with AList l => l !! i ≫= at_ p | _ => None end
  end.

(** The path an error shows. *)
Definition render_seg (path : string) (s : seg) : string :=
  match s with
  | Key k => path +:+ "." +:+ k
  | Idx i => path +:+ "[" +:+ pretty i +:+ "]"
  end.

Definition is_number (a : any) : bool :=
  match a with AInt _ | AInt64 _ | AUint64 _ | AFloat _ | ANumber _ => true | _ => false end.

(** The integer a number denotes, however it is written: [1000], [1e3], [1000.0]. *)
Definition int_leaf (a : any) : option Z :=
  match a with
  | AInt z | AInt64 z | AUint64 z => Some z
  | AFloat f => float_int f
  | ANumber lit => number_literal lit ≫= dec_int
  | _ => None
  end.

(** Two values bound by the same approval: numbers that are both integers are
    the same integer. *)
Definition agree (a b : any) : Prop :=
  match a, b with
  | ANil, ANil => True
  | ABool x, ABool y => x = y
  | AString s, AString t => s = t
  | AList l, AList k => length l = length k
  | AMap m, AMap n => dom m = dom n
  | _, _ => is_number a = true ∧ is_number b = true ∧
            ∀ z1 z2, int_leaf a = Some z1 → int_leaf b = Some z2 → z1 = z2
  end.

Definition agree_at (p : list seg) (v w : any) : Prop :=
  match at_ p v, at_ p w with
  | Some a, Some b => agree a b
  | None, None => True
  | _, _ => False
  end.

(** ** RFC 8785's data: a number is the double its literal reads as *)

#[export] Instance spec_float_eq_dec : EqDecision spec_float.
Proof. solve_decision. Defined.

Definition is_zero (f : float64) : bool := match f with S754_zero _ => true | _ => false end.

Section identity.
Context `{GoNumbers}.

Inductive jcs_eq : json → json → Prop :=
| jcs_null : jcs_eq JNull JNull
| jcs_bool b : jcs_eq (JBool b) (JBool b)
| jcs_string s : jcs_eq (JString s) (JString s)
| jcs_number l k f g :
    ParseFloat l = Some f → ParseFloat k = Some g →
    f = g ∨ (is_zero f = true ∧ is_zero g = true) →
    jcs_eq (JNumber l) (JNumber k)
| jcs_array l k : Forall2 jcs_eq l k → jcs_eq (JArray l) (JArray k)
| jcs_object fs gs :
    NoDup fs.*1 → NoDup gs.*1 →
    (∀ k d, (k, d) ∈ fs → ∃ d', (k, d') ∈ gs ∧ jcs_eq d d') →
    (∀ k d', (k, d') ∈ gs → ∃ d, (k, d) ∈ fs ∧ jcs_eq d d') →
    jcs_eq (JObject fs) (JObject gs).

(** The arguments encoding/json's decoder produces, with or without UseNumber,
    and Go's integers at their width: strings and keys are valid UTF-8, and the
    text a float is written as reads back as it ([FormatFloat]'s precision -1). *)
Fixpoint decoded (v : any) : bool :=
  match v with
  | ANil | ABool _ | ANumber _ => true
  | AInt z | AInt64 z => in_int64 z
  | AUint64 z => ((0 <=? z) && (z <? 2 ^ 64))%Z
  | AFloat f => is_finite f && bool_decide (dec_float <$> number_literal (json_float f) = Some f)
  | AString s => utf8_valid s
  | AList l => (fix go (l : list any) := match l with [] => true | x :: l => decoded x && go l end) l
  | AMap m => forallb (λ kv, utf8_valid kv.1 && kv.2) (map_to_list (decoded <$> m))
  | AFloat32 _ | AOther _ => false
  end.

Lemma decoded_list l i x : decoded (AList l) = true → l !! i = Some x → decoded x = true.
Proof.
  revert i. induction l as [|y l IH]; intros i Hd Hi; [done|]. simpl in Hd. bools.
  destruct i as [|i]; simpl in Hi; simplify_eq; [done|]. by eapply (IH i).
Qed.

Lemma decoded_map m k x :
  decoded (AMap m) = true → m !! k = Some x → utf8_valid k = true ∧ decoded x = true.
Proof.
  cbn [decoded]. rewrite forallb_forall. intros Hd Hk.
  assert ((k, decoded x) ∈ map_to_list (decoded <$> m)) as Hin
    by (apply elem_of_map_to_list; by rewrite lookup_fmap, Hk).
  specialize (Hd (k, decoded x) (proj1 (list_elem_of_In _ _) Hin)). simpl in Hd. by bools.
Qed.

(** *** The walk, one level down *)

Lemma first_error_None {A E} (f : A → option E) l :
  first_error f l = None ↔ ∀ x, x ∈ l → f x = None.
Proof.
  induction l as [|y l IH]; simpl; [split; [by intros _ x Hx%not_elem_of_nil|done]|].
  destruct (f y) eqn:Hy.
  - split; [done|]. intros Hall. specialize (Hall y ltac:(left)). congruence.
  - rewrite IH. setoid_rewrite elem_of_cons. naive_solver.
Qed.


Lemma elem_of_sorted_keys {A} (m : gmap string A) k : k ∈ sorted_keys m ↔ is_Some (m !! k).
Proof.
  unfold sorted_keys. rewrite insertion_sort_perm, list_elem_of_fmap. split.
  - intros ([k' x] & -> & Hin%elem_of_map_to_list). eauto.
  - intros [x Hx]. exists (k, x). split; [done|]. by apply elem_of_map_to_list.
Qed.
Lemma NoDup_sorted_keys {A} (m : gmap string A) : NoDup (sorted_keys m).
Proof. unfold sorted_keys. rewrite insertion_sort_perm. apply NoDup_fst_map_to_list. Qed.

Lemma check_map_None m path :
  checkIntegerBounds (AMap m) path = None ↔
  ∀ k x, m !! k = Some x → checkIntegerBounds x (render_seg path (Key k)) = None.
Proof.
  cbn [checkIntegerBounds]. cbv zeta. rewrite first_error_None.
  setoid_rewrite elem_of_sorted_keys. setoid_rewrite lookup_fmap. split.
  - intros Hall k x Hx. specialize (Hall k). rewrite Hx in Hall. apply Hall. eauto.
  - intros Hall k _. destruct (m !! k) eqn:Hk; simpl; [by apply Hall|done].
Qed.

Definition check_items (path : string) : nat → list any → option ErrIntegerTooLargeToBind :=
  fix go i l := match l with
    | [] => None
    | item :: l => match checkIntegerBounds item (path +:+ "[" +:+ pretty i +:+ "]") with
                   | Some e => Some e | None => go (S i) l end
    end.

Lemma check_items_None path i l :
  check_items path i l = None ↔
  ∀ j x, l !! j = Some x → checkIntegerBounds x (render_seg path (Idx (i + j)%nat)) = None.
Proof.
  revert i. induction l as [|y l IH]; intros i; simpl; [done|].
  destruct (checkIntegerBounds y _) as [e'|] eqn:Hy.
  - split; [done|]. intros Hall. specialize (Hall O y eq_refl). rewrite Nat.add_0_r in Hall.
    cbn in Hall. congruence.
  - rewrite IH. split; intros Hall j x Hj.
    + destruct j as [|j]; simplify_eq/=; [by rewrite Nat.add_0_r|]. rewrite Nat.add_succ_r. by apply Hall.
    + rewrite Nat.add_succ_l, <-Nat.add_succ_r. by apply (Hall (S j)).
Qed.

(** *** Which values are refused *)


Lemma fltb_fgeb x y : fltb x y = true → fgeb x y = false.
Proof.
  unfold fgeb, fltb, fleb, SFltb, SFleb, SFcompare.
  destruct x as [sx|sx| |sx mx ex], y as [sy|sy| |sy my ey]; try done; try destruct sx; try destruct sy; try done.
  all: rewrite (Z.compare_antisym ex ey); destruct (ex ?= ey)%Z; simpl; try done.
  all: change (Pos.compare_cont Eq mx my) with (mx ?= my)%positive;
    change (Pos.compare_cont Eq my mx) with (my ?= mx)%positive;
    rewrite (Pos.compare_antisym mx my); by destruct (mx ?= my)%positive.
Qed.

Lemma checkInt_too_large path lit z :
  checkIntMagnitude path lit z =
  if (maxExactInteger <? Z.abs z)%Z then Some (mkTooLarge path lit false) else None.
Proof.
  unfold checkIntMagnitude.
  replace (maxExactInteger <? Z.abs z)%Z with ((maxExactInteger <? z) || (z <? - maxExactInteger))%Z; [done|].
  assert (0 < maxExactInteger)%Z by done.
  destruct (Z.ltb_spec maxExactInteger z), (Z.ltb_spec z (- maxExactInteger)),
    (Z.ltb_spec maxExactInteger (Z.abs z)); lia.
Qed.
Lemma checkFloat_too_large path lit f :
  checkFloatMagnitude path lit f =
  if fgeb (fabs f) (f_of_Z maxExactInteger) then Some (mkTooLarge path lit true) else None.
Proof.
  unfold checkFloatMagnitude. destruct (fltb (fabs f) _) eqn:Hlt; [|by rewrite andb_false_r].
  rewrite (fltb_fgeb _ _ Hlt). by destruct (negb _).
Qed.




(** The checks pass along every path. *)
Lemma checked_child v path s x :
  checkIntegerBounds v path = None → at_ [s] v = Some x →
  checkIntegerBounds x (render_seg path s) = None.
Proof.
  intros Hc Hx. destruct s as [k|i], v; try done; simpl in Hx.
  - destruct (m !! k) eqn:Hk; simplify_eq/=. by eapply check_map_None.
  - destruct (l !! i) eqn:Hi; simplify_eq/=. by eapply (check_items_None path 0).
Qed.
Lemma at_cons s p v : at_ (s :: p) v = at_ [s] v ≫= at_ p.
Proof. destruct s, v; simpl; try done; by destruct (_ !! _). Qed.


Lemma jcs_eq_step a b c a' b' c' :
  jcs_eq (JObject [("step_id", JString a); ("tool_name", JString b); ("tool_args", c)])
         (JObject [("step_id", JString a'); ("tool_name", JString b'); ("tool_args", c')]) →
  a = a' ∧ b = b' ∧ jcs_eq c c'.
Proof.
  intros Heq. inversion Heq as [| | | | |? ? _ _ Hl _]; subst.
  destruct (Hl "step_id" (JString a)) as (d1 & Hd1 & H1); [set_solver|].
  destruct (Hl "tool_name" (JString b)) as (d2 & Hd2 & H2); [set_solver|].
  destruct (Hl "tool_args" c) as (d3 & Hd3 & H3); [set_solver|].
  rewrite !elem_of_cons, elem_of_nil in Hd1, Hd2, Hd3.
  destruct_or?; simplify_eq/=. inversion H1; inversion H2; by subst.
Qed.

Lemma jcs_eq_fields fs gs :
  NoDup fs.*1 → Forall2 (λ a b, a.1 = b.1 ∧ jcs_eq a.2 b.2) fs gs → jcs_eq (JObject fs) (JObject gs).
Proof.
  intros Hnd Hall. assert (fs.*1 = gs.*1) as Hkeys.
  { clear Hnd. induction Hall as [|[] [] ? ? [? _] _ IH]; simpl in *; by f_equal. }
  constructor; [done|by rewrite <-Hkeys|..]; intros k d Hin.
  - destruct (Forall2_elem_l _ _ _ _ Hall Hin) as ([k' d'] & Hin' & Hk & Hd). simpl in *; subst. eauto.
  - destruct (Forall2_elem_r _ _ _ _ Hall Hin) as ([k' d'] & Hin' & Hk & Hd). simpl in *; subst. eauto.
Qed.

Lemma jcs_eq_one_member k l l' f :
  ParseFloat l = Some f → ParseFloat l' = Some f →
  jcs_eq (JObject [(k, JNumber l)]) (JObject [(k, JNumber l')]).
Proof.
  intros Hl Hl'. apply jcs_eq_fields; [apply NoDup_singleton|].
  repeat constructor. apply (jcs_number _ _ f f); auto.
Qed.

(** *** Serialization, one level down *)

Section canonical.
Context (json_other : string → option json).
Abbreviation marshal := (marshal_any json_other).

Definition marshal_items : list any → option (list json) :=
  fix go l := match l with
    | [] => Some []
    | x :: l => d ← marshal x; ds ← go l; Some (d :: ds) end.

Lemma marshal_items_Some l ds :
  marshal_items l = Some ds → Forall2 (λ x d, marshal x = Some d) l ds.
Proof.
  revert ds. induction l as [|x l IH]; intros ds Hds; simpl in Hds; [simplify_eq; constructor|].
  destruct (marshal x) as [d|] eqn:Hx; [|done]. simpl in Hds.
  destruct (marshal_items l) as [ds'|]; simplify_eq/=. constructor; [done|]. by apply IH.
Qed.

(** The members written for a map: its keys, each with its value's document. *)
Definition written (m : gmap string any) (fs : list (string * json)) : Prop :=
  (∀ k d, (k, d) ∈ fs ↔ ∃ x, m !! k = Some x ∧ marshal x = Some d) ∧
  (∀ k x, m !! k = Some x → ∃ d, marshal x = Some d ∧ (k, d) ∈ fs).

Lemma marshal_map_Some m j :
  decoded (AMap m) = true → marshal (AMap m) = Some j →
  ∃ fs, j = JObject fs ∧ written m fs.
Proof.
  intros Hdec Hj. cbn [marshal_any] in Hj. cbv zeta in Hj.
  apply fmap_Some in Hj as (fs & Hfs & ->). exists fs. split; [done|].
  apply mapM_Some in Hfs.
  assert (∀ k' x, m !! k' = Some x → to_valid_utf8 k' = k' ∧
            default None ((marshal <$> m) !! k') = marshal x ∧ k' ∈ sorted_keys (marshal <$> m)) as Hkeys.
  { intros k' x Hx. rewrite elem_of_sorted_keys, lookup_fmap, Hx.
    destruct (decoded_map m k' x Hdec Hx) as [Hu _]. split_and!; [by apply utf8_valid_id|done|by eexists]. }
  assert (∀ k x, m !! k = Some x → ∃ d, marshal x = Some d ∧ (k, d) ∈ fs) as Hall.
  { intros k x Hx. destruct (Hkeys k x Hx) as (Hu & Hm & Hk).
    destruct (Forall2_elem_l _ _ _ _ Hfs Hk) as ([k' d'] & Hin & Hd). rewrite Hm in Hd.
    destruct (marshal x) as [d|]; [|done]. simpl in Hd. injection Hd as <- <-.
    rewrite Hu in Hin. by exists d. }
  split; [|done]. intros k d. split.
  - intros Hin. destruct (Forall2_elem_r _ _ _ _ Hfs Hin) as (k' & Hk'%elem_of_sorted_keys & Hd).
    rewrite lookup_fmap in Hk'. destruct (m !! k') as [x|] eqn:Hx; [|by destruct Hk'].
    destruct (Hkeys k' x Hx) as (Hu & Hm & _). rewrite Hm in Hd.
    destruct (marshal x) as [d'|] eqn:Hdx; simplify_eq/=. rewrite Hu. by exists x.
  - intros (x & Hx & Hd). destruct (Hall k x Hx) as (d' & Hd' & Hin). by simplify_eq.
Qed.

(** What each kind of value is written as; numbers are [JNumber]. *)
Lemma marshal_shape v j :
  decoded v = true → marshal v = Some j →
  match v with
  | ANil => j = JNull
  | ABool b => j = JBool b
  | AString s => j = JString s
  | AList l => ∃ ds, j = JArray ds ∧ Forall2 (λ x d, marshal x = Some d) l ds
  | AMap m => ∃ fs, j = JObject fs ∧ written m fs
  | _ => is_number v = true ∧ ∃ lit, j = JNumber lit
  end.
Proof.
  intros Hd Hj. destruct v; try done; simpl in Hj; simplify_eq; eauto.
  - destruct (is_finite f); simplify_eq; eauto.
  - destruct (sempty literal); simplify_eq; eauto.
    destruct (number_literal literal); simplify_eq/=; eauto.
  - by rewrite utf8_valid_id.
  - apply fmap_Some in Hj as (ds & Hds & ->). exists ds. split; [done|]. by apply marshal_items_Some.
  - by apply marshal_map_Some.
Qed.

(** The double an accepted number is read as holds its integer. *)
Lemma accepted_int v path lit f z :
  decoded v = true → checkIntegerBounds v path = None →
  marshal v = Some (JNumber lit) → ParseFloat lit = Some f → int_leaf v = Some z →
  f_trunc_Z f = Some z.
Proof.
  intros Hd Hc Hm Hf Hz.
  assert (∀ z, (- pow53 ≤ z ≤ pow53)%Z → ParseFloat (pretty z) = Some f → f_trunc_Z f = Some z) as Hint.
  { intros z' Hb Hp. unfold ParseFloat in Hp. pose proof (literal_int_pretty z') as Hlit.
    destruct (number_literal (pretty z')) as [d|]; [|done]. simpl in Hlit.
    cbv zeta in Hp. destruct (is_finite _); simplify_eq. by apply dec_float_small. }
  change maxExactInteger with pow53 in *.
  destruct v; try done; cbn [int_leaf checkIntegerBounds marshal_any] in *; simplify_eq.
  1,2: apply Hint; [|done]; rewrite checkInt_too_large in Hc; change maxExactInteger with pow53 in Hc;
    destruct (Z.ltb_spec pow53 (Z.abs z)); [done|lia].
  - apply Hint; [|done]. simpl in Hd. bools. change maxExactInteger with pow53 in Hc.
    destruct (Z.ltb_spec pow53 z); [done|]. unfold pow53 in *. lia.
  - cbn [decoded] in Hd. apply andb_true_iff in Hd as [Hfin Hback%bool_decide_eq_true].
    rewrite Hfin in Hm. simplify_eq. apply float_int_trunc.
    unfold ParseFloat in Hf. destruct (number_literal (json_float f0)) as [d|]; simplify_eq/=.
    destruct (is_finite _); by simplify_eq.
  - destruct (number_literal literal) as [d|] eqn:Hl; [|by destruct literal].
    assert (lit = literal) as -> by (by destruct literal; simplify_eq/=).
    simpl in Hz. assert (f = dec_float d) as -> by
      (unfold ParseFloat in Hf; rewrite Hl in Hf; cbv zeta in Hf; by destruct (is_finite _); simplify_eq).
    destruct (ParseInt literal) as [i|] eqn:Hi.
    + rewrite (ParseInt_literal _ _ _ Hl Hi) in Hz. simplify_eq.
      rewrite checkInt_too_large in Hc. change maxExactInteger with pow53 in Hc.
      destruct (Z.ltb_spec pow53 (Z.abs z)); [done|]. apply dec_float_small; [|lia]. by eapply ParseInt_literal.
    + rewrite Hf, checkFloat_too_large in Hc. destruct (dec_float_int _ _ Hz) as [?|Hlarge]; [done|].
      change maxExactInteger with pow53 in Hc. by rewrite Hlarge in Hc.
Qed.

Lemma same_double_trunc f g :
  f = g ∨ (is_zero f = true ∧ is_zero g = true) → f_trunc_Z f = f_trunc_Z g.
Proof. intros [->|[??]]; [done|]. by destruct f, g. Qed.

(** What a document was written from. *)
Lemma marshal_inv v j :
  decoded v = true → marshal v = Some j →
  match j with
  | JArray ds => ∃ l, v = AList l ∧ Forall2 (λ x d, marshal x = Some d) l ds
  | JObject fs => ∃ m, v = AMap m ∧ written m fs
  | _ => ∀ s, at_ [s] v = None
  end.
Proof.
  intros Hd Hj. pose proof (marshal_shape v j Hd Hj) as Hv.
  destruct v; try (by destruct Hv as (? & ? & ->); intros []).
  1-3: subst; by intros [].
  - destruct Hv as (ds & -> & Hall). eauto.
  - destruct Hv as (fs & -> & Hall). eauto.
Qed.

(** Equal data is equal place by place. *)
Lemma jcs_eq_child s v w j k :
  decoded v = true → decoded w = true →
  marshal v = Some j → marshal w = Some k → jcs_eq j k →
  match at_ [s] v, at_ [s] w with
  | Some x, Some y => decoded x = true ∧ decoded y = true ∧
      ∃ jx jy, marshal x = Some jx ∧ marshal y = Some jy ∧ jcs_eq jx jy
  | None, None => True
  | _, _ => False
  end.
Proof.
  intros Hdv Hdw Hj Hk Heq.
  pose proof (marshal_inv _ _ Hdv Hj) as Hv. pose proof (marshal_inv _ _ Hdw Hk) as Hw.
  destruct Heq as [| | | |ds es Hall|fs gs _ _ Hl Hr]; try (by rewrite Hv, Hw).
  - destruct Hv as (l & -> & Hv), Hw as (l' & -> & Hw). destruct s as [key|i]; simpl; [done|].
    destruct (l !! i) as [x|] eqn:Hx, (l' !! i) as [y|] eqn:Hy; simpl; try done.
    + destruct (Forall2_lookup_l _ _ _ _ _ Hv Hx) as (jx & Hjx & Hmx).
      destruct (Forall2_lookup_l _ _ _ _ _ Hw Hy) as (jy & Hjy & Hmy).
      pose proof (Forall2_lookup_lr _ _ _ _ _ _ Hall Hjx Hjy).
      split_and!; [by apply (decoded_list l i)|by apply (decoded_list l' i)|by exists jx, jy].
    + apply lookup_lt_Some in Hx. apply lookup_ge_None in Hy.
      apply Forall2_length in Hv, Hw, Hall. lia.
    + apply lookup_lt_Some in Hy. apply lookup_ge_None in Hx.
      apply Forall2_length in Hv, Hw, Hall. lia.
  - destruct Hv as (m & -> & Hv), Hw as (m' & -> & Hw). destruct s as [key|i]; simpl; [|done].
    destruct (m !! key) as [x|] eqn:Hx, (m' !! key) as [y|] eqn:Hy; simpl; try done.
    + destruct (proj2 Hv key x Hx) as (jx & Hmx & Hin).
      destruct (Hl key jx Hin) as (jy & (y' & Hy' & Hmy)%(proj1 Hw) & Hxy). simplify_eq.
      split_and!; [by apply (decoded_map m key)|by apply (decoded_map m' key)|by exists jx, jy].
    + destruct (proj2 Hv key x Hx) as (jx & Hmx & Hin).
      destruct (Hl key jx Hin) as (jy & (y' & Hy' & Hmy)%(proj1 Hw) & Hxy). by simplify_eq.
    + destruct (proj2 Hw key y Hy) as (jy & Hmy & Hin).
      destruct (Hr key jy Hin) as (jx & (x' & Hx' & Hmx)%(proj1 Hv) & Hxy). by simplify_eq.
Qed.

Lemma written_same_keys m m' fs gs :
  (∀ k d, (k, d) ∈ fs → ∃ d', (k, d') ∈ gs ∧ jcs_eq d d') →
  (∀ k d', (k, d') ∈ gs → ∃ d, (k, d) ∈ fs ∧ jcs_eq d d') →
  written m fs → written m' gs → dom m = dom m'.
Proof.
  intros Hl Hr [Hv Hv'] [Hw Hw']. apply set_eq. intros k. rewrite !elem_of_dom. split.
  - intros [x Hx]. destruct (Hv' k x Hx) as (d & _ & (d' & (y & Hy & _)%Hw & _)%Hl). eauto.
  - intros [x Hx]. destruct (Hw' k x Hx) as (d & _ & (d' & (y & Hy & _)%Hv & _)%Hr). eauto.
Qed.

Ltac wrong_shape H :=
  first [discriminate H
        | discriminate (proj1 H)
        | let E := fresh in destruct H as (? & E & _); discriminate E
        | let E := fresh in destruct H as (_ & ? & E); discriminate E].

(** Accepted arguments with the same RFC 8785 data agree everywhere. *)
Lemma jcs_eq_agree p v w pv pw j k :
  decoded v = true → decoded w = true →
  checkIntegerBounds v pv = None → checkIntegerBounds w pw = None →
  marshal v = Some j → marshal w = Some k → jcs_eq j k → agree_at p v w.
Proof.
  revert v w pv pw j k. induction p as [|s p IH]; intros v w pv pw j k Hdv Hdw Hcv Hcw Hj Hk Heq.
  - pose proof (marshal_shape _ _ Hdv Hj) as Hv. pose proof (marshal_shape _ _ Hdw Hk) as Hw.
    assert (∀ lit lit', j = JNumber lit → k = JNumber lit' → ∀ z z', int_leaf v = Some z →
              int_leaf w = Some z' → z = z') as Hnum.
    { intros lit lit' -> -> z z' Hz Hz'. inversion Heq as [| | |l l' f g Hf Hg Hfg| |]; subst.
      pose proof (accepted_int v pv lit f z Hdv Hcv Hj Hf Hz).
      pose proof (accepted_int w pw lit' g z' Hdw Hcw Hk Hg Hz').
      pose proof (same_double_trunc f g Hfg). congruence. }
    unfold agree_at. cbn [at_]. clear Hcv Hcw Hdv Hdw.
    destruct Heq; destruct v; try (wrong_shape Hv); destruct w; try (wrong_shape Hw).
    all: cbn [agree is_number]; try (split_and!; [done..|]; eapply Hnum; reflexivity).
    all: try exact I; try congruence.
    + destruct Hv as (ds & [= ->] & Hv%Forall2_length), Hw as (es & [= ->] & Hw%Forall2_length).
      match goal with Hall : Forall2 jcs_eq _ _ |- _ => apply Forall2_length in Hall end. simpl. lia.
    + destruct Hv as (fs' & [= <-] & Hv), Hw as (gs' & [= <-] & Hw).
      by apply (written_same_keys _ _ fs gs).
  - pose proof (jcs_eq_child s _ _ _ _ Hdv Hdw Hj Hk Heq) as Hchild.
    unfold agree_at in *. rewrite (at_cons s p v), (at_cons s p w).
    destruct (at_ [s] v) as [x|] eqn:Hx, (at_ [s] w) as [y|] eqn:Hy; simpl; try done.
    destruct Hchild as (Hdx & Hdy & jx & jy & Hjx & Hjy & Hxy).
    apply (IH x y (render_seg pv s) (render_seg pw s) jx jy);
      [done|done|by apply (checked_child v)|by apply (checked_child w)|done..].
Qed.

(** *** The hash *)

(** RFC 8785: the canonical text determines the data. *)
Definition canonicalizes (Transform : json → option string) : Prop :=
  ∀ j k text, Transform j = Some text → Transform k = Some text → jcs_eq j k.

Definition hash_collision (a b : string) : Prop := a ≠ b ∧ sha256_hex a = sha256_hex b.

Lemma CanonicalJSON_Ok Transform s text :
  CanonicalJSON json_other Transform s = Ok text ↔
  checkIntegerBounds (ToolArgs s) "tool_args" = None ∧
  ∃ args, marshal (ToolArgs s) = Some args ∧
    Transform (JObject [("step_id", JString (to_valid_utf8 (StepID s)));
                        ("tool_name", JString (to_valid_utf8 (ToolName s)));
                        ("tool_args", args)]) = Some text.
Proof.
  unfold CanonicalJSON, marshal_step. destruct (checkIntegerBounds _ _); [naive_solver|].
  destruct (marshal (ToolArgs s)) as [args|]; simpl; [|naive_solver].
  destruct (Transform _) eqn:HT; naive_solver.
Qed.

(** C9. Two accepted steps with the same hash are the same step, place by place:
    the same step id and tool name, the same shape of arguments, and in every
    place the same string, boolean or null, and of two integers, however each is
    written, the same one. The alternative is a collision of SHA-256. *)
Theorem equal_hashes_bind_the_same_step Transform s1 s2 h :
  canonicalizes Transform →
  decoded (ToolArgs s1) = true → decoded (ToolArgs s2) = true →
  Hash json_other Transform s1 = Ok h → Hash json_other Transform s2 = Ok h →
  (to_valid_utf8 (StepID s1) = to_valid_utf8 (StepID s2) ∧
   to_valid_utf8 (ToolName s1) = to_valid_utf8 (ToolName s2) ∧
   ∀ p, agree_at p (ToolArgs s1) (ToolArgs s2)) ∨
  ∃ a b, CanonicalJSON json_other Transform s1 = Ok a ∧
         CanonicalJSON json_other Transform s2 = Ok b ∧ hash_collision a b.
Proof.
  intros Hcan Hd1 Hd2 Hh1 Hh2. unfold Hash in *.
  destruct (CanonicalJSON _ _ s1) as [a|] eqn:Ha; simplify_eq/=.
  destruct (CanonicalJSON _ _ s2) as [b|] eqn:Hb; simplify_eq/=.
  destruct (decide (a = b)) as [->|Hne]; [left|right; by exists a, b].
  apply CanonicalJSON_Ok in Ha as (Hc1 & j1 & Hj1 & Ht1), Hb as (Hc2 & j2 & Hj2 & Ht2).
  destruct (jcs_eq_step _ _ _ _ _ _ (Hcan _ _ _ Ht1 Ht2)) as (-> & -> & Heq).
  split_and!; [done..|]. intros p.
  by apply (jcs_eq_agree p _ _ "tool_args" "tool_args" j1 j2).
Qed.



End canonical.

(** Below the bound a literal with a fraction is not judged by its digits:
    9007199254740991.4 and the integer 9007199254740991 are both accepted and are
    the same data to RFC 8785, so an approval of one validates the other. *)
Theorem fractional_literal_folds json_other id tool :
  ∃ args1 args2 d1 d2,
    checkIntegerBounds args1 "tool_args" = None ∧ checkIntegerBounds args2 "tool_args" = None ∧
    number_literal "9007199254740991.4" = Some (mkDecimal false 90071992547409914 (-1)) ∧
    args1 = AMap {["amount" := ANumber "9007199254740991.4"]} ∧
    args2 = AMap {["amount" := ANumber "9007199254740991"]} ∧
    marshal_step json_other (mkStep id tool args1) = Some d1 ∧
    marshal_step json_other (mkStep id tool args2) = Some d2 ∧ jcs_eq d1 d2.
Proof.
  eexists _, _, _, _. split_and!; [| | |reflexivity|reflexivity|reflexivity|reflexivity|].
  1-3: by vm_compute.
  apply jcs_eq_fields; [by apply (bool_decide_unpack _)|].
  repeat (constructor; [split; [done|]|]); [constructor..| |constructor].
  apply (jcs_eq_one_member _ _ _ (f_of_Z 9007199254740991)); by vm_compute.
Qed.
End identity.

(** ** A formatter that writes every float exactly, and the theorem at work *)

Module StepWitnesses.

Definition exact_decimal (f : float64) : string :=
  match f with
  | S754_zero s => if s then "-0" else "0"
  | S754_finite s m e =>
      if (0 <=? e)%Z then pretty (signed s (Z.pos m * 2 ^ e))
      else pretty (signed s (Z.pos m * 5 ^ (- e))) +:+ "e" +:+ pretty e
  | S754_infinity s => if s then "-Inf" else "+Inf"
  | S754_nan => "NaN"
  end.
#[local] Instance exact_numbers : GoNumbers := {|
  parse_other_float _ := None;
  FormatFloat _ := exact_decimal;
  json_float := exact_decimal;
  json_float32 := exact_decimal |}.
Definition no_other (t : string) : option json := None.

(** The same payment as Go's decoder hands it over and as a client built it. *)
Definition paid (amount : any) : Step :=
  mkStep "s1" "pay" (AMap (list_to_map [("amount", amount); ("rate", AFloat (f_const 1 10));
                                          ("to", AList [AString "acme"])])).
Definition decoded_step : Step := paid (ANumber "9.007199254740991e15").
Definition built_step : Step := paid (AInt 9007199254740991).

Definition decoded_doc : json := Eval vm_compute in default JNull (marshal_step no_other decoded_step).
Definition built_doc : json := Eval vm_compute in default JNull (marshal_step no_other built_step).
(** A canonicalizer that knows these two documents. *)
Definition Transform (j : json) : option string :=
  if decide (j = decoded_doc ∨ j = built_doc)
  then Some "{step_id:s1,tool_args:{amount:9007199254740991,rate:0.1,to:[acme]},tool_name:pay}"
  else None.

Ltac solve_jcs :=
  repeat first
    [ apply jcs_eq_fields; [apply (bool_decide_unpack _); vm_compute; exact I|]
    | eapply jcs_number; [vm_compute; reflexivity|vm_compute; reflexivity|by left]
    | progress constructor | split; [done|] ].

Lemma docs_equal j k :
  j = decoded_doc ∨ j = built_doc → k = decoded_doc ∨ k = built_doc → jcs_eq j k.
Proof. intros [->| ->] [->| ->]; unfold decoded_doc, built_doc; solve_jcs. Qed.

Lemma Transform_canonicalizes : canonicalizes Transform.
Proof.
  intros j k text Hj Hk. unfold Transform in *.
  destruct (decide (j = _ ∨ _)) as [Hj'|]; [|done].
  destruct (decide (k = _ ∨ _)) as [Hk'|]; [|done]. by apply docs_equal.
Qed.

Definition approved_hash : string :=
  match Hash no_other Transform decoded_step with Ok h => h | Err _ => "" end.

Lemma both_hash :
  decoded_doc ≠ built_doc ∧
  Hash no_other Transform decoded_step = Ok approved_hash ∧
  Hash no_other Transform built_step = Ok approved_hash.
Proof. split_and!; [by apply (bool_decide_unpack _); vm_compute|vm_compute; reflexivity..]. Qed.

Lemma equal_hashes_bind_the_same_step_witness :
  decoded_doc ≠ built_doc ∧
  ((to_valid_utf8 "s1" = to_valid_utf8 "s1" ∧ to_valid_utf8 "pay" = to_valid_utf8 "pay" ∧
    ∀ p, agree_at p (ToolArgs decoded_step) (ToolArgs built_step)) ∨
   ∃ a b, CanonicalJSON no_other Transform decoded_step = Ok a ∧
          CanonicalJSON no_other Transform built_step = Ok b ∧ hash_collision a b).
Proof.
  split; [exact (proj1 both_hash)|].
  apply (equal_hashes_bind_the_same_step no_other Transform decoded_step built_step approved_hash).
  - exact Transform_canonicalizes.
  - vm_compute. reflexivity.
  - vm_compute. reflexivity.
  - exact (proj1 (proj2 both_hash)).
  - exact (proj2 (proj2 both_hash)).
Defined.


(** The refusals the source's comments list. *)
Definition refused (a : any) : option ErrIntegerTooLargeToBind :=
  checkIntegerBounds (AMap {["payment" := AMap {["lines" := AList [AMap {["id" := a]}]]}]}) "tool_args".
Example int_at_bound : refused (AInt (2 ^ 53)) = None.
Proof. vm_compute. reflexivity. Qed.
Example int_above_bound :
  refused (ANumber "9007199254740993") =
  Some (mkTooLarge "tool_args.payment.lines[0].id" "9007199254740993" false).
Proof. vm_compute. reflexivity. Qed.
Example even_above_bound : is_Some (refused (ANumber "9007199254740994")).
Proof. vm_compute. by eexists. Qed.
Example float_at_bound :
  refused (ANumber "9007199254740993.0") =
  Some (mkTooLarge "tool_args.payment.lines[0].id" "9007199254740993.0" true).
Proof. vm_compute. reflexivity. Qed.
Example ordinary_fraction : refused (ANumber "1.5") = None.
Proof. vm_compute. reflexivity. Qed.
End StepWitnesses.
