(* ===== verification/Checkpoint.v ===== *)
(** * Package checkpoint: the durability seam

    Models go/internal/checkpoint/checkpoint.go: journal entries and their
    validation, the state rebuilt from a run's records, its durability level, and
    the outcome envelope that a completed record's payload carries. *)

From S2P Require Import Prelude GoValue Json.

Local Open Scope string_scope.
Set Default Proof Using "Type*".

Definition maxSubRunIDLen : nat := 512.

(** [Phase] is a string type: an unknown phase is a value, which [Valid] rejects. *)
Definition Phase : Type := string.
Definition PhaseAttempted : Phase := "attempted".
Definition PhaseCompleted : Phase := "completed".
Definition Phase_Valid (p : Phase) : bool :=
  String.eqb p PhaseAttempted || String.eqb p PhaseCompleted.

Record Entry := {
  RunID : string;
  SubRunID : string;
  StepID : string;
  EntryPhase : Phase;
  Payload : RawMessage;
}.

Inductive ValidateError :=
| RunIDRequired
| StepIDRequired
| UnknownPhase (p : Phase)
| PayloadNotJSON
| SubRunIDTooLong (len : nat).

Definition Validate (e : Entry) : result ValidateError () :=
  reject_if (sempty (RunID e)) RunIDRequired;;
  reject_if (sempty (StepID e)) StepIDRequired;;
  reject_if (negb (Phase_Valid (EntryPhase e))) (UnknownPhase (EntryPhase e));;
  reject_if (negb (raw_empty (Payload e)) && negb (json_Valid (Payload e))) PayloadNotJSON;;
  reject_if (maxSubRunIDLen <? slen (SubRunID e))%nat (SubRunIDTooLong (slen (SubRunID e))).

(** [Record]: a stored entry with its position and time. *)
Record Record_ := { rec_entry : Entry; Seq : Z; RecordedAt : Z }.

Record AppendResult := { res_Seq : Z; Duplicate : bool; PayloadDiverged : bool }.

(** ** The reconstructed journal *)

Abbreviation stepKey := (string * string)%type.

Record RunState := {
  runID : string;
  subRunID : string;
  records : list Record_;
  byStep : gmap stepKey (gmap Phase Record_);
  nextSeq : Z;
}.

Definition rec_key (r : Record_) : stepKey := (SubRunID (rec_entry r), StepID (rec_entry r)).
Definition rec_phase (r : Record_) : Phase := EntryPhase (rec_entry r).

(** One turn of the loop over the sorted records. *)
Definition index_record (s : RunState) (r : Record_) : RunState :=
  {| runID := runID s; subRunID := subRunID s; records := records s;
     byStep := <[rec_key r := <[rec_phase r := r]> (default ∅ (byStep s !! rec_key r))]> (byStep s);
     nextSeq := if (nextSeq s <=? Seq r)%Z then wrap64 (Seq r + 1) else nextSeq s |}.

Section run_state.
Context `{GoRuntime}.

Definition NewRunState (run : string) (recs : list Record_) : RunState :=
  let sorted := sort_slice (λ a b, (Seq a <? Seq b)%Z) recs in
  foldl index_record
    {| runID := run; subRunID := ""; records := sorted; byStep := ∅; nextSeq := 0 |} sorted.

Definition NewSubRunState (run sub : string) (recs : list Record_) (runWideNextSeq : Z) : RunState :=
  let s := NewRunState run recs in
  {| runID := runID s; subRunID := sub; records := records s; byStep := byStep s;
     nextSeq := runWideNextSeq |}.
End run_state.

Definition phases_of (s : RunState) (key : stepKey) : gmap Phase Record_ := default ∅ (byStep s !! key).

Definition Completed (s : RunState) (sub step : string) : option Record_ :=
  phases_of s (sub, step) !! PhaseCompleted.

Definition Attempted (s : RunState) (sub step : string) : bool :=
  match byStep s !! (sub, step) with
  | None => false
  | Some phases => bool_decide (is_Some (phases !! PhaseAttempted)) &&
                   negb (bool_decide (is_Some (phases !! PhaseCompleted)))
  end.

Inductive DurabilityLevel := DurabilityPerStep | DurabilityPerActivity | DurabilityMixed | DurabilityUnknown.
Record Durability := { Level : DurabilityLevel; Steps : nat; StepsWithIntent : nat }.

Definition durability (s : RunState) : Durability :=
  let steps := size (byStep s) in
  let with_intent := length (List.filter (λ kp, bool_decide (is_Some (kp.2 !! PhaseAttempted)))
                               (map_to_list (byStep s))) in
  {| Level := if (steps =? 0)%nat then DurabilityUnknown
              else if (with_intent =? steps)%nat then DurabilityPerStep
              else if (with_intent =? 0)%nat then DurabilityPerActivity
              else DurabilityMixed;
     Steps := steps; StepsWithIntent := with_intent |}.

(** ** Outcomes *)

(** [Outcome] is a string type too: a journal may hold one this code does not know. *)
Definition Outcome : Type := string.
Definition OutcomeResult : Outcome := "result".
Definition OutcomeDeniedByPolicy : Outcome := "denied_by_policy".
Definition OutcomeApprovalGranted : Outcome := "approval_granted".
Definition OutcomeApprovalDenied : Outcome := "approval_denied".
Definition OutcomeApprovalExpired : Outcome := "approval_expired".

Definition Denied (o : Outcome) : bool :=
  String.eqb o OutcomeDeniedByPolicy || String.eqb o OutcomeApprovalDenied ||
  String.eqb o OutcomeApprovalExpired.

Record outcomeEnvelope := {
  env_Outcome : Outcome;
  env_Reason : string;
  env_DecidedBy : string;
  env_Result : RawMessage;
}.
Definition zero_envelope : outcomeEnvelope :=
  {| env_Outcome := ""; env_Reason := ""; env_DecidedBy := ""; env_Result := RawEmpty |}.

(** A string member with [omitempty]. *)
Definition omit_empty (name v : string) : list (string * json) :=
  if sempty v then [] else [(name, JString (to_valid_utf8 v))].

Inductive OutcomeError := EncodingOutcome.

Definition OutcomePayloadDecidedBy (outcome : Outcome) (reason decidedBy : string) (res : RawMessage)
  : result OutcomeError RawMessage :=
  let members := ([("outcome", JString (to_valid_utf8 outcome))] ++ omit_empty "reason" reason ++
                  omit_empty "decided_by" decidedBy)%list in
  match res with
  | RawMalformed => Err EncodingOutcome
  | RawEmpty => Ok (RawDoc (JObject members))
  | RawDoc j => Ok (RawDoc (JObject (members ++ [("result", j)])))
  end.

Definition OutcomePayload (outcome : Outcome) (reason : string) (res : RawMessage)
  : result OutcomeError RawMessage := OutcomePayloadDecidedBy outcome reason "" res.

Definition env_names : list string := ["outcome"; "reason"; "decided_by"; "result"].

(** Decoding one member into the envelope, with the saved type error. *)
Definition env_member (st : outcomeEnvelope * bool) (kv : string * json) : outcomeEnvelope * bool :=
  let '(env, bad) := st in
  match field_of env_names kv.1 with
  | None => st
  | Some f =>
      if String.eqb f "outcome" then
        let '(v, e) := decode_string (env_Outcome env) kv.2 in
        ({| env_Outcome := v; env_Reason := env_Reason env; env_DecidedBy := env_DecidedBy env;
            env_Result := env_Result env |}, bad || e)
      else if String.eqb f "reason" then
        let '(v, e) := decode_string (env_Reason env) kv.2 in
        ({| env_Outcome := env_Outcome env; env_Reason := v; env_DecidedBy := env_DecidedBy env;
            env_Result := env_Result env |}, bad || e)
      else if String.eqb f "decided_by" then
        let '(v, e) := decode_string (env_DecidedBy env) kv.2 in
        ({| env_Outcome := env_Outcome env; env_Reason := env_Reason env; env_DecidedBy := v;
            env_Result := env_Result env |}, bad || e)
      else
        ({| env_Outcome := env_Outcome env; env_Reason := env_Reason env;
            env_DecidedBy := env_DecidedBy env; env_Result := RawDoc kv.2 |}, bad)
  end.

(** [json.Unmarshal(payload, &env)]: the envelope and whether it failed. *)
Definition unmarshal_envelope (p : RawMessage) : outcomeEnvelope * bool :=
  match p with
  | RawDoc (JObject fields) => foldl env_member (zero_envelope, false) fields
  | RawDoc JNull => (zero_envelope, false)
  | _ => (zero_envelope, true)
  end.

Definition StepOutcome (s : RunState) (sub step : string) : option (Outcome * string) :=
  match Completed s sub step with
  | None => None
  | Some rec =>
      if raw_empty (Payload (rec_entry rec)) then Some (OutcomeResult, "")
      else
        let '(env, bad) := unmarshal_envelope (Payload (rec_entry rec)) in
        if bad || sempty (env_Outcome env) then Some (OutcomeResult, "")
        else Some (env_Outcome env, env_Reason env)
  end.

(** Who decided, [None] where the code's second result is false. *)
Definition ApprovalActor (s : RunState) (sub step : string) : option string :=
  match Completed s sub step with
  | None => None
  | Some rec =>
      if raw_empty (Payload (rec_entry rec)) then None
      else
        let '(env, bad) := unmarshal_envelope (Payload (rec_entry rec)) in
        if bad || sempty (env_DecidedBy env) then None else Some (env_DecidedBy env)
  end.

Definition ApprovalStep (approvalID : string) : string := "approval:" +:+ approvalID.

Definition OutcomeForApproval (approved : bool) : Outcome :=
  if approved then OutcomeApprovalGranted else OutcomeApprovalDenied.

(** ** What the index answers *)

(** The records of [l] with an identity, in order. *)
Definition matching (key : stepKey) (ph : Phase) (l : list Record_) : list Record_ :=
  filter (λ r, rec_key r = key ∧ rec_phase r = ph) l.

Lemma elem_of_matching key ph l r :
  r ∈ matching key ph l ↔ r ∈ l ∧ rec_key r = key ∧ rec_phase r = ph.
Proof. unfold matching. rewrite list_elem_of_filter. tauto. Qed.

Lemma matching_snoc key ph l r :
  matching key ph (l ++ [r]) =
  (matching key ph l ++ (if decide (rec_key r = key ∧ rec_phase r = ph) then [r] else []))%list.
Proof. unfold matching. by rewrite filter_app, filter_cons, filter_nil. Qed.

Section index.
Context (s0 : RunState) (H0 : byStep s0 = ∅).

(** A phase of a step holds the last record of that identity. *)
Lemma index_lookup l key ph :
  phases_of (foldl index_record s0 l) key !! ph = last (matching key ph l).
Proof using H0.
  induction l as [|r l IH] using rev_ind.
  - unfold phases_of; simpl. rewrite H0, lookup_empty. simpl. apply lookup_empty.
  - rewrite foldl_app, matching_snoc. cbn [foldl]. unfold phases_of in *. cbn [index_record byStep].
    destruct (decide (rec_key r = key)) as [<-|Hk].
    + rewrite lookup_insert_eq. cbn [from_option id].
      destruct (decide (rec_phase r = ph)) as [<-|Hp].
      * rewrite lookup_insert_eq, decide_True by done. by rewrite last_snoc.
      * rewrite lookup_insert_ne, decide_False by (done || tauto). by rewrite app_nil_r.
    + rewrite lookup_insert_ne, decide_False by (done || tauto). by rewrite app_nil_r.
Qed.

Lemma index_step l key :
  is_Some (byStep (foldl index_record s0 l) !! key) ↔ ∃ r, r ∈ l ∧ rec_key r = key.
Proof using H0.
  induction l as [|r l IH] using rev_ind.
  - simpl. rewrite H0, lookup_empty. split; [by intros [? ?]|]. intros (r & Hr & _). set_solver.
  - rewrite foldl_app. cbn [foldl index_record byStep].
    destruct (decide (rec_key r = key)) as [<-|Hk].
    + rewrite lookup_insert_eq. split; [|by eauto]. intros _. exists r. set_solver.
    + rewrite lookup_insert_ne, IH by done. set_solver.
Qed.
End index.

Lemma index_records s l : records (foldl index_record s l) = records s.
Proof. revert s. induction l; intros s; simpl; [done|]. by rewrite IHl. Qed.

Lemma index_runID s l : runID (foldl index_record s l) = runID s.
Proof. revert s. induction l; intros s; simpl; [done|]. by rewrite IHl. Qed.

(** The next position while nothing overflows. *)
Lemma index_nextSeq s l :
  (∀ r, r ∈ l → 0 ≤ Seq r < int64_max)%Z →
  let n := nextSeq (foldl index_record s l) in
  (nextSeq s ≤ n)%Z ∧ (∀ r, r ∈ l → (Seq r < n)%Z) ∧
  (n = nextSeq s ∨ ∃ r, r ∈ l ∧ n = (Seq r + 1)%Z).
Proof.
  intros Hl. cbv zeta. induction l as [|r l IH] using rev_ind.
  - simpl. split; [lia|]. split; [set_solver|by left].
  - destruct IH as (IH1 & IH2 & IH3); [intros; apply Hl; set_solver|].
    assert (0 ≤ Seq r < int64_max)%Z as Hr by (apply Hl; set_solver).
    rewrite foldl_app. cbn [foldl index_record nextSeq].
    rewrite (wrap64_id (Seq r + 1)) by
      (unfold in_int64, int64_min; apply andb_true_iff; split; apply Z.leb_le; lia).
    destruct (Z.leb_spec (nextSeq (foldl index_record s l)) (Seq r)).
    + split; [lia|]. split.
      * intros r' [Hin| ->%list_elem_of_singleton]%elem_of_app; [specialize (IH2 r' Hin); lia|lia].
      * right. exists r. split; [set_solver|done].
    + split; [done|]. split.
      * intros r' [Hin| ->%list_elem_of_singleton]%elem_of_app; [auto|lia].
      * destruct IH3 as [?|(r' & ? & ?)]; [by left|]. right. exists r'. split; [set_solver|done].
Qed.

Lemma last_is_Some_elem {A} (l : list A) : is_Some (last l) ↔ ∃ x, x ∈ l.
Proof.
  rewrite last_is_Some. destruct l as [|x l]; split; [done|intros [? ?]; set_solver| |done].
  intros _. exists x. left.
Qed.

Section states.
Context `{GoRuntime}.

Lemma NewRunState_lookup run recs key ph :
  ∃ l, l ≡ₚ recs ∧ phases_of (NewRunState run recs) key !! ph = last (matching key ph l).
Proof.
  eexists. split; [apply sort_slice_perm|]. unfold NewRunState. by rewrite index_lookup.
Qed.

Lemma NewRunState_phase run recs key ph :
  is_Some (phases_of (NewRunState run recs) key !! ph) ↔
  ∃ r, r ∈ recs ∧ rec_key r = key ∧ rec_phase r = ph.
Proof.
  destruct (NewRunState_lookup run recs key ph) as (l & Hl & ->).
  rewrite last_is_Some_elem. setoid_rewrite elem_of_matching. by setoid_rewrite Hl.
Qed.

Lemma NewRunState_unique run recs key ph r :
  NoDup ((λ r, (rec_key r, rec_phase r)) <$> recs) →
  phases_of (NewRunState run recs) key !! ph = Some r ↔
  r ∈ recs ∧ rec_key r = key ∧ rec_phase r = ph.
Proof.
  intros Hnd. split.
  - destruct (NewRunState_lookup run recs key ph) as (l & Hl & ->). intros Hr%last_Some_elem_of.
    apply elem_of_matching in Hr. by rewrite <-Hl.
  - intros (Hin & Hk & Hp).
    assert (is_Some (phases_of (NewRunState run recs) key !! ph)) as [r' Hr']
      by (apply NewRunState_phase; eauto).
    destruct (NewRunState_lookup run recs key ph) as (l & Hl & He). rewrite He in Hr' |- *.
    rewrite Hr'. apply last_Some_elem_of, elem_of_matching in Hr' as (Hin' & Hk' & Hp').
    f_equal. rewrite <-Hl in Hin, Hnd. eapply NoDup_fmap_eq; eauto. simpl. congruence.
Qed.
End states.

Section answers.
Context `{GoRuntime}.

Lemma Attempted_phases s sub step :
  Attempted s sub step = true ↔
  is_Some (phases_of s (sub, step) !! PhaseAttempted) ∧
  ¬ is_Some (phases_of s (sub, step) !! PhaseCompleted).
Proof.
  unfold Attempted, phases_of. destruct (byStep s !! (sub, step)) as [phases|]; simpl.
  - rewrite andb_true_iff, negb_true_iff, bool_decide_eq_true, bool_decide_eq_false. done.
  - rewrite !lookup_empty. split; [done|]. by intros [[? ?] _].
Qed.

(** The state rebuilt from a run's records, whatever order they arrive in,
    answers a resuming loop's question one way: a step is completed exactly when
    a completed record of that sub-run and step exists, attempted exactly when an
    attempted one exists and no completed one does, and with distinct identities
    the record returned is that record. The journal is listed in sequence order. *)
Theorem RunState_answers run recs sub step :
  let s := NewRunState run recs in
  let wrote ph := ∃ r, r ∈ recs ∧ rec_key r = (sub, step) ∧ rec_phase r = ph in
  (is_Some (Completed s sub step) ↔ wrote PhaseCompleted) ∧
  (Attempted s sub step = true ↔ wrote PhaseAttempted ∧ ¬ wrote PhaseCompleted) ∧
  (NoDup ((λ r, (rec_key r, rec_phase r)) <$> recs) →
   ∀ r, Completed s sub step = Some r ↔
        r ∈ recs ∧ rec_key r = (sub, step) ∧ rec_phase r = PhaseCompleted) ∧
  records s ≡ₚ recs ∧ StronglySorted (λ a b, (Seq a ≤ Seq b)%Z) (records s).
Proof.
  cbv zeta. split; [apply NewRunState_phase|]. split.
  { by rewrite Attempted_phases, !NewRunState_phase. }
  split; [intros Hnd r; by apply NewRunState_unique|].
  unfold NewRunState. rewrite index_records. split; [apply sort_slice_perm|].
  eapply StronglySorted_weaken; [|apply sort_slice_sorted, (Zltb_sw Seq)].
  intros a b. simpl. apply Z.ltb_ge.
Qed.

Lemma NewRunState_step run recs key :
  is_Some (byStep (NewRunState run recs) !! key) ↔ ∃ r, r ∈ recs ∧ rec_key r = key.
Proof. unfold NewRunState. rewrite index_step by done. by setoid_rewrite sort_slice_perm. Qed.

Lemma NewRunState_intent run recs key phases :
  byStep (NewRunState run recs) !! key = Some phases →
  is_Some (phases !! PhaseAttempted) ↔
  ∃ r, r ∈ recs ∧ rec_key r = key ∧ rec_phase r = PhaseAttempted.
Proof.
  intros Hk. rewrite <-(NewRunState_phase run recs). unfold phases_of. by rewrite Hk.
Qed.

(** The steps of a journal, and those that recorded intent. *)
Definition step_keys (recs : list Record_) : gset stepKey := list_to_set (rec_key <$> recs).
Definition intent_keys (recs : list Record_) : gset stepKey :=
  list_to_set (rec_key <$> filter (λ r, rec_phase r = PhaseAttempted) recs).

Lemma intent_subset recs : intent_keys recs ⊆ step_keys recs.
Proof.
  intros key. unfold intent_keys, step_keys.
  rewrite !elem_of_list_to_set, !list_elem_of_fmap. intros (r & -> & Hr).
  apply list_elem_of_filter in Hr as [_ Hr]. eauto.
Qed.

Lemma dom_NewRunState run recs : dom (byStep (NewRunState run recs)) = step_keys recs.
Proof.
  apply set_eq. intros key. rewrite elem_of_dom, NewRunState_step. unfold step_keys.
  rewrite elem_of_list_to_set, list_elem_of_fmap. naive_solver.
Qed.

Lemma intent_count run recs :
  StepsWithIntent (durability (NewRunState run recs)) = size (intent_keys recs).
Proof.
  set (s := NewRunState run recs). unfold durability; cbn [StepsWithIntent].
  assert (NoDup (List.filter (λ kp, bool_decide (is_Some (kp.2 !! PhaseAttempted)))
                   (map_to_list (byStep s))).*1) as Hnd.
  { pose proof (NoDup_fst_map_to_list (byStep s)) as Hd.
    induction (map_to_list (byStep s)) as [|kp l IH]; simpl in *; [constructor|].
    apply NoDup_cons in Hd as [Hn Hd]. destruct (bool_decide _); [|auto]. csimpl.
    constructor; [|auto]. intros Hin. apply Hn. apply list_elem_of_fmap in Hin as (x & Hx & Hin).
    rewrite Hx. apply list_elem_of_fmap_2. apply list_elem_of_In.
    apply list_elem_of_In, List.filter_In in Hin. tauto. }
  rewrite <-(length_fmap fst), <-(size_list_to_set (C := gset stepKey)) by done. f_equal.
  apply set_eq. intros key. unfold intent_keys. rewrite !elem_of_list_to_set, !list_elem_of_fmap.
  split.
  - intros ([k ph] & -> & Hin). apply list_elem_of_In, List.filter_In in Hin as [Hin Hb].
    apply list_elem_of_In, elem_of_map_to_list in Hin. simpl in *.
    apply bool_decide_eq_true_1, (NewRunState_intent _ _ _ _ Hin) in Hb as (r & Hr & Hk & Hp).
    exists r. split; [done|]. by apply list_elem_of_filter.
  - intros (r & -> & [Hp Hr]%list_elem_of_filter).
    destruct (proj2 (NewRunState_step run recs (rec_key r))) as [ph Hph]; [eauto|].
    exists (rec_key r, ph). split; [done|]. apply list_elem_of_In, List.filter_In.
    split; [by apply list_elem_of_In, elem_of_map_to_list|].
    apply bool_decide_eq_true_2, (NewRunState_intent _ _ _ _ Hph). eauto.
Qed.

(** The durability level is the journal's own: unknown exactly when nothing
    was recorded, per step when every step recorded intent, per activity when
    none did, mixed when some did and some did not; the counts are the numbers of
    distinct steps, and of distinct steps with intent. *)
Theorem durability_level run recs :
  let d := durability (NewRunState run recs) in
  Steps d = size (step_keys recs) ∧ StepsWithIntent d = size (intent_keys recs) ∧
  match Level d with
  | DurabilityUnknown => recs = []
  | DurabilityPerStep => recs ≠ [] ∧ intent_keys recs = step_keys recs
  | DurabilityPerActivity => recs ≠ [] ∧ intent_keys recs = ∅
  | DurabilityMixed => ∅ ⊂ intent_keys recs ∧ intent_keys recs ⊂ step_keys recs
  end.
Proof.
  cbv zeta. pose proof (intent_count run recs) as Hi. pose proof (intent_subset recs) as Hsub.
  assert (Steps (durability (NewRunState run recs)) = size (step_keys recs)) as Hs
    by (unfold durability; cbn [Steps]; by rewrite <-(dom_NewRunState run), size_dom).
  split; [done|]. split; [done|].
  assert (size (step_keys recs) = 0%nat ↔ recs = []) as Hempty.
  { rewrite size_empty_iff. destruct recs as [|r recs]; [done|]. split; [|done].
    intros He. exfalso. set_unfold. apply (He (rec_key r)). unfold step_keys. set_solver. }
  unfold durability in *. cbn [Level Steps StepsWithIntent] in *. rewrite Hi, Hs.
  destruct (Nat.eqb_spec (size (step_keys recs)) 0) as [H1|H1]; [by apply Hempty|].
  assert (recs ≠ []) as Hne by (by rewrite <-Hempty).
  destruct (Nat.eqb_spec (size (intent_keys recs)) (size (step_keys recs))) as [H2|H2].
  { split; [done|]. apply set_subseteq_size_eq; [done|lia]. }

  destruct (Nat.eqb_spec (size (intent_keys recs)) 0) as [H3|H3].
  { split; [done|]. by apply leibniz_equiv, size_empty_iff. }
  split; (split; [set_solver|]); intros Hc; [|apply subseteq_size in Hc, Hsub; lia].
  apply H3, size_empty_iff. set_solver.
Qed.
End answers.

(** ** The outcome envelope *)

(** A field read from distinct members: the member's string, or nothing. *)
Definition reads (fields : list (string * json)) (k cur : string) : Prop :=
  (∀ s, (k, JString s) ∈ fields → cur = s) ∧ (k ∉ fields.*1 → cur = "").

Lemma reads_other fields k cur k' v :
  k' ≠ k → reads fields k cur → reads (fields ++ [(k', v)])%list k cur.
Proof.
  intros Hne [H1 H2]. split.
  - intros s [Hin|Heq%list_elem_of_singleton]%elem_of_app; [auto|congruence].
  - rewrite fmap_app. intros Hn. apply H2. set_solver.
Qed.

Lemma reads_set fields k s :
  k ∉ fields.*1 → reads (fields ++ [(k, JString s)])%list k s.
Proof.
  intros Hn. split.
  - intros s' [Hin|Heq%list_elem_of_singleton]%elem_of_app; [|congruence].
    destruct Hn. by apply (list_elem_of_fmap_2 fst) in Hin.
  - rewrite fmap_app. intros Hk. destruct Hk. apply elem_of_app. right. simpl. left.
Qed.

Lemma envelope_decode fields :
  NoDup fields.*1 →
  (∀ k v, (k, v) ∈ fields → k ∈ env_names ∧ (k = "result" ∨ ∃ s, v = JString s)) →
  let '(env, bad) := unmarshal_envelope (RawDoc (JObject fields)) in
  bad = false ∧ reads fields "outcome" (env_Outcome env) ∧
  reads fields "reason" (env_Reason env) ∧ reads fields "decided_by" (env_DecidedBy env).
Proof.
  unfold unmarshal_envelope.
  induction fields as [|[k v] fields IH] using rev_ind; intros Hnd Hf.
  - simpl. repeat split; set_solver.
  - rewrite fmap_app in Hnd. apply NoDup_app in Hnd as (Hnd & Hdisj & _).
    assert (k ∉ fields.*1) as Hk by (intros Hin; apply (Hdisj k Hin); left).
    rewrite foldl_app. cbn [foldl].
    destruct (foldl env_member (zero_envelope, false) fields) as [env bad].
    destruct IH as (-> & Ho & Hr & Hd); [done|intros; apply Hf; set_solver|].
    destruct (Hf k v) as [Hn Hv]; [set_solver|]. unfold env_member; cbn [fst snd].
    rewrite field_of_exact by done.
    repeat (apply elem_of_cons in Hn as [->|Hn]); [..|by apply not_elem_of_nil in Hn];
      [destruct Hv as [?|[s ->]]; [done|]; simpl..|simpl];
      split_and!; auto using reads_other, reads_set.
Qed.

(** The members an outcome's payload has: what [OutcomePayloadDecidedBy] writes,
    and what a store that keeps an object's members gives back. *)
Definition carries (o reason decidedBy : string) (fields : list (string * json)) : Prop :=
  NoDup fields.*1 ∧
  (∀ k v, (k, v) ∈ fields → k ∈ env_names ∧ (k = "result" ∨ ∃ s, v = JString s)) ∧
  ("outcome", JString o) ∈ fields ∧
  (if sempty reason then "reason" ∉ fields.*1 else ("reason", JString reason) ∈ fields) ∧
  (if sempty decidedBy then "decided_by" ∉ fields.*1
   else ("decided_by", JString decidedBy) ∈ fields).

Lemma carries_decode o reason decidedBy fields :
  carries o reason decidedBy fields →
  ∃ env, unmarshal_envelope (RawDoc (JObject fields)) = (env, false) ∧
    env_Outcome env = o ∧ env_Reason env = reason ∧ env_DecidedBy env = decidedBy.
Proof.
  intros (Hnd & Hf & Ho & Hr & Hd). pose proof (envelope_decode fields Hnd Hf) as Hdec.
  destruct (unmarshal_envelope _) as [env bad].
  destruct Hdec as (-> & [Eo _] & [Er Er'] & [Ed Ed']). exists env. split; [done|].
  split; [by apply Eo|]. split.
  - destruct (sempty reason) eqn:He; [|by apply Er]. apply sempty_true in He as ->. by apply Er'.
  - destruct (sempty decidedBy) eqn:He; [|by apply Ed]. apply sempty_true in He as ->. by apply Ed'.
Qed.

Lemma payload_carries o reason decidedBy res p :
  OutcomePayloadDecidedBy o reason decidedBy res = Ok p →
  ∃ fields, p = RawDoc (JObject fields) ∧
    carries (to_valid_utf8 o) (to_valid_utf8 reason) (to_valid_utf8 decidedBy) fields.
Proof.
  unfold OutcomePayloadDecidedBy, omit_empty. cbv zeta. unfold carries. rewrite !to_valid_utf8_empty.
  destruct res as [| |j]; [intros [= <-]|done|intros [= <-]]; eexists; (split; [reflexivity|]);
    destruct (sempty reason), (sempty decidedBy); simpl;
    (split; [by apply (bool_decide_unpack (NoDup _))|]); unfold env_names; set_solver.
Qed.

(** How a completed record that carries an outcome is read. *)
Lemma StepOutcome_carries s sub step rec o reason decidedBy fields :
  Completed s sub step = Some rec → Payload (rec_entry rec) = RawDoc (JObject fields) →
  carries o reason decidedBy fields → o ≠ "" →
  StepOutcome s sub step = Some (o, reason) ∧
  ApprovalActor s sub step = (if sempty decidedBy then None else Some decidedBy).
Proof.
  intros Hc Hp Hf Ho. destruct (carries_decode _ _ _ _ Hf) as (env & Hu & <- & <- & <-).
  unfold StepOutcome, ApprovalActor. rewrite Hc, Hp. cbn [raw_empty]. rewrite Hu. simpl.
  apply sempty_false in Ho. rewrite Ho. done.
Qed.

(** Approval steps are keyed by the approval: distinct approvals never share
    a journal step, and an approval's step is never a blank one. *)
Lemma ApprovalStep_injective a b :
  (ApprovalStep a = ApprovalStep b ↔ a = b) ∧ ApprovalStep a ≠ "".
Proof. split; [|done]. split; [apply str_app_inj_l|by intros ->]. Qed.
