(* ===== verification/CheckpointStore.v ===== *)
(** * Package store: the Postgres checkpointer

    Models go/internal/store/checkpointer.go over the table run_checkpoints, whose
    primary key is (tenant, run, sub-run, step, phase) and whose sequence numbers
    are unique per (tenant, run) (migrations 0001 to 0003). [Append] holds a
    per-run advisory lock for its whole transaction and touches only that run's
    rows, so appends are atomic steps; every call the code makes to the database
    may fail, and a commit may fail after it took effect. *)

From stdpp Require Import list_numbers.
From S2P Require Import Prelude GoValue Json Checkpoint.

Local Open Scope string_scope.
Set Default Proof Using "Type*".

(** The primary key: tenant, run, sub-run, step, phase. *)
Abbreviation ckey := (string * string * string * string * Phase)%type.
Definition key_tenant (k : ckey) : string := k.1.1.1.1.
Definition key_run (k : ckey) : string := k.1.1.1.2.
Definition key_sub (k : ckey) : string := k.1.1.2.
Definition key_step (k : ckey) : string := k.1.2.
Definition key_phase (k : ckey) : Phase := k.2.

Record row `{Postgres} := { row_seq : Z; row_payload : option jsonb; row_at : Z }.
Abbreviation table := (gmap ckey row).

(** A commit's fate: done, not done, or done and reported as an error. *)
Inductive commit_outcome := Committed | NotCommitted | CommittedUnreported.

(** Which of the calls of one [Append] fail. *)
Record faults := {
  begin_fails : bool; lock_fails : bool; select_fails : bool; insert_fails : bool;
  commit : commit_outcome;
}.
Definition no_faults : faults :=
  {| begin_fails := false; lock_fails := false; select_fails := false; insert_fails := false;
     commit := Committed |}.

Inductive AppendError :=
| Invalid (e : ValidateError)
| BeginAppend
| LockingRun
| ReadingExisting
| CommitDuplicate
| Appending
| CommitAppend.

Section store.
Context `{Postgres}.

Definition entry_key (tenant : string) (e : Entry) : ckey :=
  (tenant, RunID e, SubRunID e, StepID e, EntryPhase e).

(** The rows of a run, whatever their sub-run, and their sequence numbers. *)
Definition run_rows (t : table) (tenant run : string) : list (ckey * row) :=
  filter (λ kr, key_tenant kr.1 = tenant ∧ key_run kr.1 = run) (map_to_list t).
Definition seqs (t : table) (tenant run : string) : list Z := row_seq ∘ snd <$> run_rows t tenant run.

(** SQL's MAX, NULL on no rows. *)
Definition max_seq (l : list Z) : option Z :=
  foldr (λ z acc, Some (match acc with None => z | Some m => Z.max z m end)) None l.

(** An absent payload is SQL NULL. *)
Definition payloadArg (p : RawMessage) : option RawMessage :=
  if raw_empty p then None else Some p.

(** [$4::jsonb]: NULL, a value, or a refused document. *)
Definition cast_jsonb (a : option RawMessage) : option (option jsonb) :=
  match a with
  | None => Some None
  | Some (RawDoc j) => Some <$> to_jsonb j
  | Some _ => None
  end.

Definition texts_ok (tenant : string) (e : Entry) : bool :=
  text_ok tenant && text_ok (SubRunID e) && text_ok (StepID e) && text_ok (EntryPhase e).

Definition Append (tenant : string) (now : Z) (f : faults) (e : Entry) (t : table)
  : table * result AppendError AppendResult :=
  match Validate e with
  | Err err => (t, Err (Invalid err))
  | Ok _ =>
  if begin_fails f then (t, Err BeginAppend) else
  if lock_fails f || negb (text_ok (RunID e)) then (t, Err LockingRun) else
  match cast_jsonb (payloadArg (Payload e)) with
  | None => (t, Err ReadingExisting)
  | Some payload =>
  if select_fails f || negb (texts_ok tenant e) then (t, Err ReadingExisting) else
  match t !! entry_key tenant e with
  | Some r =>
      match commit f with
      | Committed => (t, Ok {| res_Seq := row_seq r; Duplicate := true;
                              PayloadDiverged := negb (bool_decide (row_payload r = payload)) |})
      | _ => (t, Err CommitDuplicate)
      end
  | None =>
      let used := seqs t tenant (RunID e) in
      let seq := (default (-1) (max_seq used) + 1)%Z in
      if insert_fails f || bool_decide (seq ∈ used) || (int64_max <? seq)%Z then (t, Err Appending)
      else
        let t' := <[entry_key tenant e :=
                     {| row_seq := seq; row_payload := payload; row_at := now |}]> t in
        match commit f with
        | Committed => (t', Ok {| res_Seq := seq; Duplicate := false; PayloadDiverged := false |})
        | NotCommitted => (t, Err CommitAppend)
        | CommittedUnreported => (t', Err CommitAppend)
        end
  end end end.

Inductive ReadError := RunIDMissing | CheckingRun | LoadingRun | ScanningCheckpoint | ReadingRun.

Definition KnownRun (tenant : string) (query_fails : bool) (run : string) (t : table)
  : result ReadError bool :=
  if sempty run then Err RunIDMissing
  else if query_fails || negb (text_ok run && text_ok tenant) then Err CheckingRun
  else Ok (negb (bool_decide (run_rows t tenant run = []))).

(** The rows the query returns, ORDER BY seq. *)
Definition ordered_rows (t : table) (tenant run : string) : list (ckey * row) :=
  insertion_sort (λ a b, (row_seq a.2 <? row_seq b.2)%Z) (run_rows t tenant run).

Definition record_of (run : string) (kr : ckey * row) : Record_ :=
  {| rec_entry := {| RunID := run; SubRunID := key_sub kr.1; StepID := key_step kr.1;
                     EntryPhase := key_phase kr.1;
                     Payload := match row_payload kr.2 with
                                | Some b => RawDoc (jsonb_out b) | None => RawEmpty end |};
     Seq := row_seq kr.2; RecordedAt := row_at kr.2 |}.

(** Which of the calls of one [Load] fail; a scan fails by row. *)
Record load_faults := { query_fails : bool; scan_fails : ckey → bool; rows_fail : bool }.

(** One turn of the loop over the rows. *)
Definition load_row (f : load_faults) (run sub : string) (acc : list Record_ * Z) (kr : ckey * row)
  : result ReadError (list Record_ * Z) :=
  if scan_fails f kr.1 then Err ScanningCheckpoint else
  let rec := record_of run kr in
  let next := if (acc.2 <=? Seq rec)%Z then wrap64 (Seq rec + 1) else acc.2 in
  if bool_decide (SubRunID (rec_entry rec) ≠ sub) then Ok (acc.1, next)
  else Ok ((acc.1 ++ [rec])%list, next).

Definition Load `{GoRuntime} (tenant : string) (f : load_faults) (run sub : string) (t : table)
  : result ReadError RunState :=
  if sempty run then Err RunIDMissing
  else if query_fails f || negb (text_ok run && text_ok tenant) then Err LoadingRun
  else
    '(recs, next) ← fold_res (load_row f run sub) ([], 0%Z) (ordered_rows t tenant run);
    reject_if (rows_fail f) ReadingRun;;
    Ok (NewSubRunState run sub recs next).

(** ** Sequence numbers *)

Lemma max_seq_Some l m : max_seq l = Some m ↔ m ∈ l ∧ ∀ x, x ∈ l → (x ≤ m)%Z.
Proof.
  revert m. induction l as [|z l IH]; intros m; simpl; [set_solver|].
  destruct (max_seq l) as [k|] eqn:Hk.
  - destruct (proj1 (IH k) eq_refl) as [Hin Hmax]. split.
    + intros [= <-]. split; [|set_unfold; intros x [->|Hx]; [lia|specialize (Hmax x Hx); lia]].
      destruct (Z.max_spec z k) as [[_ ->]|[_ ->]]; set_solver.
    + intros [Hm Hle]. f_equal. apply elem_of_cons in Hm as [->|Hm].
      * apply Z.max_l, Hle. set_solver.
      * assert (k ≤ m)%Z by (apply Hle; set_solver). assert (z ≤ m)%Z by (apply Hle; set_solver).
        specialize (Hmax m Hm). lia.
  - assert (l = []) as ->.
    { destruct l as [|y l]; [done|]. simpl in Hk. by destruct (max_seq l). }
    split; [intros [= <-]|]; set_solver.
Qed.

(** A run's numbers are 0, 1, ..., n-1. *)
Definition dense (t : table) : Prop :=
  ∀ tenant run, seqs t tenant run ≡ₚ seqZ 0 (Z.of_nat (length (seqs t tenant run))).

Lemma dense_elem l x :
  l ≡ₚ seqZ 0 (Z.of_nat (length l)) → x ∈ l ↔ (0 ≤ x < Z.of_nat (length l))%Z.
Proof.
  intros Hl. assert (x ∈ l ↔ x ∈ seqZ 0 (Z.of_nat (length l))) as -> by by rewrite <-Hl.
  rewrite elem_of_seqZ. lia.
Qed.

Lemma dense_next l :
  l ≡ₚ seqZ 0 (Z.of_nat (length l)) → (default (-1) (max_seq l) + 1 = Z.of_nat (length l))%Z.
Proof.
  intros Hl. destruct l as [|z l]; [done|].
  assert (max_seq (z :: l) = Some (Z.of_nat (length (z :: l)) - 1)%Z) as ->; [|simpl; lia].
  apply max_seq_Some. split; [|intros x]; rewrite dense_elem by done; simpl; lia.
Qed.

Lemma run_rows_insert t k r tenant run :
  t !! k = None →
  run_rows (<[k := r]> t) tenant run ≡ₚ
  if decide (key_tenant k = tenant ∧ key_run k = run) then (k, r) :: run_rows t tenant run
  else run_rows t tenant run.
Proof.
  intros Hk. unfold run_rows. rewrite map_to_list_insert by done. by rewrite filter_cons.
Qed.

Lemma seqs_insert t k r tenant run :
  t !! k = None →
  seqs (<[k := r]> t) tenant run ≡ₚ
  if decide (key_tenant k = tenant ∧ key_run k = run) then row_seq r :: seqs t tenant run
  else seqs t tenant run.
Proof.
  intros Hk. unfold seqs. rewrite run_rows_insert by done. by destruct (decide _).
Qed.

Lemma dense_insert t k r :
  dense t → t !! k = None →
  row_seq r = Z.of_nat (length (seqs t (key_tenant k) (key_run k))) →
  dense (<[k := r]> t).
Proof.
  intros Hd Hk Hr tenant run. pose proof (seqs_insert t k r tenant run Hk) as Hs.
  rewrite Hs. destruct (decide _) as [[<- <-]|]; [|apply Hd].
  simpl. rewrite Nat2Z.inj_succ, <-Z.add_1_r, seqZ_app by lia. simpl.
  rewrite Hr, Z.add_0_l. rewrite (Hd (key_tenant k) (key_run k)) at 2.
  rewrite Permutation_app_comm. done.
Qed.

(** ** What one append does *)

(** The cases of an append on a journal whose numbers are dense. *)
Lemma Append_cases tenant now f e t t' res :
  dense t → Append tenant now f e t = (t', res) →
  (t' = t ∧ ∃ err, res = Err err) ∨
  ∃ payload, cast_jsonb (payloadArg (Payload e)) = Some payload ∧ Validate e = Ok tt ∧
    ((∃ r, t !! entry_key tenant e = Some r ∧ t' = t ∧
       res = Ok {| res_Seq := row_seq r; Duplicate := true;
                   PayloadDiverged := negb (bool_decide (row_payload r = payload)) |}) ∨
     (t !! entry_key tenant e = None ∧
      let n := Z.of_nat (length (seqs t tenant (RunID e))) in
      (n ≤ int64_max)%Z ∧
      t' = <[entry_key tenant e := {| row_seq := n; row_payload := payload; row_at := now |}]> t ∧
      (res = Ok {| res_Seq := n; Duplicate := false; PayloadDiverged := false |} ∨
       res = Err CommitAppend))).
Proof.
  intros Hd. unfold Append. rewrite (dense_next _ (Hd tenant (RunID e))).
  destruct (Validate e) as [[]|err]; [|intros [= <- <-]; eauto].
  destruct (begin_fails f); [intros [= <- <-]; eauto|].
  destruct (lock_fails f || _); [intros [= <- <-]; eauto|].
  destruct (cast_jsonb _) as [payload|]; [|intros [= <- <-]; eauto].
  destruct (select_fails f || _); [intros [= <- <-]; eauto|].
  destruct (t !! entry_key tenant e) as [r|] eqn:Hk.
  - destruct (commit f); intros [= <- <-]; [|eauto|eauto].
    right. exists payload. split; [done|]. split; [done|]. left. eauto.
  - cbv zeta. destruct (insert_fails f); [intros [= <- <-]; eauto|]. cbn [orb].
    destruct (bool_decide _); [intros [= <- <-]; eauto|]. cbn [orb].
    destruct (Z.ltb_spec int64_max (Z.of_nat (length (seqs t tenant (RunID e))))) as [|Hle];
      [intros [= <- <-]; eauto|].
    destruct (commit f); intros [= <- <-]; [| by eauto |];
      right; exists payload; split_and!; auto; right; split_and!; auto.
Qed.

Lemma Append_dense tenant now f e t t' res :
  dense t → Append tenant now f e t = (t', res) → dense t' ∧ t ⊆ t'.
Proof.
  intros Hd Ha. destruct (Append_cases _ _ _ _ _ _ _ Hd Ha)
    as [[-> _]|(payload & _ & _ & [(r & _ & -> & _)|(Hk & _ & -> & _)])]; [done|done|].
  split; [by apply dense_insert|by apply insert_subseteq].
Qed.

(** ** Sequences of appends *)

(** One append as some process performs it, whatever fails. *)
Inductive append_step : table → table → Prop :=
| step_append tenant now f e t t' res :
    Append tenant now f e t = (t', res) → append_step t t'.

Lemma append_steps_mono t t' : rtc append_step t t' → dense t → dense t' ∧ t ⊆ t'.
Proof.
  induction 1 as [t|t t1 t2 Hs _ IH]; intros Hd; [done|].
  destruct Hs as [tenant now f e t t1 res Ha].
  destruct (Append_dense _ _ _ _ _ _ _ Hd Ha) as [Hd1 Hsub]. destruct (IH Hd1).
  split; [done|]. by transitivity t1.
Qed.

Lemma dense_empty : dense ∅.
Proof. intros ??. unfold seqs, run_rows. by rewrite map_to_list_empty. Qed.

(** C2. Whatever calls fail and however appends of any tenants interleave, a
    journal that starts empty keeps one contiguous, duplicate-free sequence per
    run (so the unique constraint never fires), and no stored record is ever
    changed or lost. *)
Theorem journal_invariant t t' :
  rtc append_step ∅ t → rtc append_step t t' →
  (∀ tenant run, seqs t' tenant run ≡ₚ seqZ 0 (Z.of_nat (length (run_rows t' tenant run)))) ∧
  t ⊆ t'.
Proof.
  intros H0 H1. destruct (append_steps_mono _ _ H0 dense_empty) as [Hd _].
  destruct (append_steps_mono _ _ H1 Hd) as [Hd' Hsub].
  split; [|done]. intros tenant run. rewrite (Hd' tenant run) at 1. unfold seqs. by rewrite length_fmap.
Qed.

(** C22. An append is safe to repeat under at-least-once execution: whatever became
    of a first attempt (an error before or after its commit included), a retry
    that succeeds leaves exactly one record for the identity, with the position
    the first attempt reported if it reported one, and touches nothing else; when
    the step was not journalled before, the record is this entry's and no
    divergence is reported. *)
Theorem Append_retry tenant now1 now2 f1 f2 e t t1 t2 res1 res :
  dense t → Append tenant now1 f1 e t = (t1, res1) → Append tenant now2 f2 e t1 = (t2, Ok res) →
  ∃ r payload, cast_jsonb (payloadArg (Payload e)) = Some payload ∧
    t2 !! entry_key tenant e = Some r ∧ row_seq r = res_Seq res ∧
    (∀ k, k ≠ entry_key tenant e → t2 !! k = t !! k) ∧
    (∀ res1', res1 = Ok res1' → Duplicate res = true ∧ res_Seq res1' = res_Seq res) ∧
    (∀ r0, t !! entry_key tenant e = Some r0 → r = r0) ∧
    (t !! entry_key tenant e = None → row_payload r = payload ∧ PayloadDiverged res = false).
Proof.
  intros Hd Ha1 Ha2. destruct (Append_dense _ _ _ _ _ _ _ Hd Ha1) as [Hd1 _].
  destruct (Append_cases _ _ _ _ _ _ _ Hd1 Ha2)
    as [[_ [? [=]]]|(payload & Hc & _ & [(r & Hr & -> & [= ->])|(Hn & _ & -> & [[= ->]|[=]])])].
  - (* the retry found the record *)
    exists r, payload. destruct (Append_cases _ _ _ _ _ _ _ Hd Ha1)
      as [[-> [? ->]]|(p1 & Hc1 & _ & [(r1 & Hr1 & -> & ->)|(Hn1 & _ & -> & Hres1)])]; simpl.
    + rewrite Hr. split_and!; naive_solver.
    + assert (r1 = r) as -> by congruence. split_and!; naive_solver.
    + rewrite lookup_insert_eq in Hr. simplify_eq/=. rewrite bool_decide_eq_true_2 by done.
      split_and!; try done; [by rewrite lookup_insert_eq|intros k ?; by rewrite lookup_insert_ne| |].
      * intros res1' ->. by destruct Hres1 as [[= ->]|[=]].
      * intros r0. by rewrite Hn1.
  - (* the retry wrote it *)
    assert (t1 = t ∧ ∃ err, res1 = Err err) as [-> [err ->]].
    { destruct (Append_cases _ _ _ _ _ _ _ Hd Ha1)
        as [?|(p1 & _ & _ & [(r1 & Hr1 & -> & _)|(_ & _ & -> & _)])]; [done|congruence|].
      by rewrite lookup_insert_eq in Hn. }
    eexists _, payload. rewrite lookup_insert_eq.
    split_and!; try done; [intros k ?; by rewrite lookup_insert_ne|].
    intros r0. by rewrite Hn.
Qed.

(** ** Loading *)

Context `{GoRuntime}.

Lemma elem_of_run_rows t tenant run k r :
  (k, r) ∈ run_rows t tenant run ↔ t !! k = Some r ∧ key_tenant k = tenant ∧ key_run k = run.
Proof. unfold run_rows. rewrite list_elem_of_filter, elem_of_map_to_list. simpl. tauto. Qed.

Lemma ordered_rows_perm t tenant run : ordered_rows t tenant run ≡ₚ run_rows t tenant run.
Proof. apply insertion_sort_perm. Qed.

Definition in_sub (sub : string) (kr : ckey * row) : Prop := key_sub kr.1 = sub.
#[local] Instance in_sub_dec sub kr : Decision (in_sub sub kr) := decide (key_sub kr.1 = sub).

Definition blank_state (run : string) : RunState :=
  {| runID := run; subRunID := ""; records := []; byStep := ∅; nextSeq := 0 |}.

(** The loop keeps the sub-run's records and counts positions over the whole run. *)
Lemma load_loop f run sub rows acc :
  fold_res (load_row f run sub) ([], 0%Z) rows = Ok acc →
  acc.1 = record_of run <$> filter (in_sub sub) rows ∧
  acc.2 = nextSeq (foldl index_record (blank_state run) (record_of run <$> rows)).
Proof.
  apply (fold_res_prefix (λ pre acc, acc.1 = record_of run <$> filter (in_sub sub) pre ∧
    acc.2 = nextSeq (foldl index_record (blank_state run) (record_of run <$> pre)))); [|done].
  intros pre kr [recs n] acc' [Hrecs Hn]. simpl in Hrecs, Hn. unfold load_row.
  destruct (scan_fails f kr.1); [done|]. cbv zeta.
  rewrite filter_app, filter_cons, filter_nil, !fmap_app, foldl_app. csimpl.
  rewrite <-Hrecs, <-Hn. case_bool_decide as Hsub; intros [= <-]; cbn [fst snd].
  - rewrite decide_False by done. by rewrite app_nil_r.
  - rewrite decide_True by exact Hsub. done.
Qed.

Lemma load_loop_ok f run sub rows acc :
  (∀ kr, kr ∈ rows → scan_fails f kr.1 = false) → is_ok (fold_res (load_row f run sub) acc rows) = true.
Proof.
  revert acc. induction rows as [|kr rows IH]; intros acc Hs; simpl; [done|].
  unfold load_row at 1. rewrite (Hs kr) by left. cbv zeta.
  case_bool_decide; apply IH; intros; apply Hs; by right.
Qed.

(** The run-wide next position is the number of records of the run. *)
Lemma load_next t tenant run :
  dense t → (Z.of_nat (length (run_rows t tenant run)) ≤ int64_max)%Z →
  nextSeq (foldl index_record (blank_state run) (record_of run <$> ordered_rows t tenant run)) =
  Z.of_nat (length (run_rows t tenant run)).
Proof.
  intros Hd Hlen. set (rows := ordered_rows t tenant run).
  assert (length (seqs t tenant run) = length (run_rows t tenant run)) as Hls by apply length_fmap.
  assert (∀ x, (∃ rec, rec ∈ record_of run <$> rows ∧ Seq rec = x) ↔
               (0 ≤ x < Z.of_nat (length (run_rows t tenant run)))%Z) as Hseq.
  { intros x. rewrite <-Hls, <-(dense_elem _ x (Hd tenant run)). unfold seqs.
    rewrite list_elem_of_fmap. setoid_rewrite list_elem_of_fmap.
    unfold rows. setoid_rewrite ordered_rows_perm. split.
    - intros (rec & (kr & -> & Hin) & <-). by exists kr.
    - intros (kr & -> & Hin). eauto. }
  destruct (index_nextSeq (blank_state run) (record_of run <$> rows)) as (H1 & H2 & H3).
  { intros rec Hin. destruct (proj1 (Hseq (Seq rec))) as [? ?]; [eauto|]. lia. }
  set (n := nextSeq (foldl _ _ _)) in *. simpl in H1, H3.
  assert (n ≤ Z.of_nat (length (run_rows t tenant run)))%Z.
  { destruct H3 as [->|(rec & Hin & ->)]; [lia|]. destruct (proj1 (Hseq (Seq rec))); [eauto|lia]. }
  destruct (decide (n < Z.of_nat (length (run_rows t tenant run)))%Z) as [Hlt|]; [|lia].
  destruct (proj2 (Hseq n)) as (rec & Hin & Hn); [lia|]. specialize (H2 rec Hin). lia.
Qed.

Lemma records_distinct t tenant run sub :
  NoDup ((λ r, (rec_key r, rec_phase r)) <$>
         (record_of run <$> filter (in_sub sub) (ordered_rows t tenant run))).
Proof.
  rewrite <-list_fmap_compose. apply NoDup_fmap_2_strong.
  - intros [k1 r1] [k2 r2] [_ H1]%list_elem_of_filter [_ H2]%list_elem_of_filter.
    rewrite ordered_rows_perm in H1, H2. apply elem_of_run_rows in H1 as (H1 & ? & ?), H2 as (H2 & ? & ?).
    destruct k1 as [[[[]]]], k2 as [[[[]]]]. unfold rec_key, rec_phase, key_sub, key_step, key_phase in *.
    unfold key_tenant, key_run in *. simpl in *.
    intros Heq. cbv in Heq. simplify_eq. congruence.
  - apply NoDup_filter. rewrite ordered_rows_perm. apply NoDup_filter, NoDup_map_to_list.
Qed.

(** The state [Load] returns when nothing fails. *)
Lemma Load_lookup tenant f run sub t s :
  Load tenant f run sub t = Ok s →
  runID s = run ∧ subRunID s = sub ∧
  nextSeq s = nextSeq (foldl index_record (blank_state run)
                         (record_of run <$> ordered_rows t tenant run)) ∧
  ∀ sub' step ph rec,
    phases_of s (sub', step) !! ph = Some rec ↔
    sub' = sub ∧ ∃ r, t !! (tenant, run, sub, step, ph) = Some r ∧
                      rec = record_of run ((tenant, run, sub, step, ph), r).
Proof.
  unfold Load. destruct (sempty run); [done|]. destruct (_ || _); [done|].
  intros ((recs, next) & Hl & Hs)%bind_Ok. inv_res.
  apply load_loop in Hl as [Hrecs Hnext]. simpl in Hrecs, Hnext. subst recs next.
  split; [cbn [NewSubRunState runID]; apply index_runID|].
  split; [done|]. split; [done|]. intros sub' step ph rec. unfold phases_of; cbn [NewSubRunState byStep].
  fold (phases_of (NewRunState run (record_of run <$> filter (in_sub sub) (ordered_rows t tenant run))) (sub', step)).
  rewrite NewRunState_unique by apply records_distinct. rewrite list_elem_of_fmap. split.
  - intros (([k r] & -> & [Hsub Hin]%list_elem_of_filter) & Hk & Hp).
    rewrite ordered_rows_perm in Hin. apply elem_of_run_rows in Hin as (Hin & Ht & Hr).
    destruct k as [[[[kt kr] ks] kst] kp]. unfold in_sub, rec_key, rec_phase in *.
    unfold key_tenant, key_run, key_sub, key_step, key_phase in *. simpl in *. simplify_eq.
    split; [done|]. by exists r.
  - intros (-> & r & Hr & ->). split; [|done]. eexists. split; [done|].
    apply list_elem_of_filter. split; [done|]. rewrite ordered_rows_perm. by apply elem_of_run_rows.
Qed.

(** C20. A sub-run resumes from exactly its own journal: loading finds, for every
    step and phase, the stored record of that sub-run and never a sibling's; the
    next position counts the whole run, and is the one the next new entry of any
    sub-run is given. *)
Theorem Load_resumes tenant f run sub t :
  dense t → run ≠ "" → text_ok run = true → text_ok tenant = true →
  query_fails f = false → rows_fail f = false → (∀ k, scan_fails f k = false) →
  (Z.of_nat (length (run_rows t tenant run)) ≤ int64_max)%Z →
  ∃ s, Load tenant f run sub t = Ok s ∧
    (∀ sub' step ph rec,
      phases_of s (sub', step) !! ph = Some rec ↔
      sub' = sub ∧ ∃ r, t !! (tenant, run, sub, step, ph) = Some r ∧
                        rec = record_of run ((tenant, run, sub, step, ph), r)) ∧
    nextSeq s = Z.of_nat (length (run_rows t tenant run)) ∧
    ∀ now fa e t' res, RunID e = run → t !! entry_key tenant e = None →
      Append tenant now fa e t = (t', Ok res) → res_Seq res = nextSeq s.
Proof.
  intros Hd Hrun Htr Htt Hq Hr Hs Hlen. apply sempty_false in Hrun.
  pose proof (load_loop_ok f run sub (ordered_rows t tenant run) ([], 0%Z) (λ kr _, Hs kr.1)) as Hok.
  destruct (Load tenant f run sub t) as [s|err] eqn:Hload.
  - destruct (Load_lookup _ _ _ _ _ _ Hload) as (_ & _ & Hn & Hl).
    rewrite load_next in Hn by done. exists s. split; [done|]. split; [done|]. split; [done|].
    intros now fa e t' res He Hk Ha. rewrite Hn.
    destruct (Append_cases _ _ _ _ _ _ _ Hd Ha)
      as [[_ [? [=]]]|(payload & _ & _ & [(r & Hr' & _)|(_ & _ & _ & [[= ->]|[=]])])]; [congruence|].
    simpl. rewrite He. unfold seqs. by rewrite length_fmap.
  - exfalso. unfold Load in Hload. rewrite Hrun, Hq, Htr, Htt in Hload. cbn [andb negb orb] in Hload.
    destruct (fold_res _ _ _) as [[recs next]|]; [|done]. simpl in Hload. by rewrite Hr in Hload.
Qed.

Context `{!PostgresLaws}.

(** What jsonb gives back of an outcome's payload carries the same outcome. *)
Lemma jsonb_carries o reason decidedBy fields b :
  carries o reason decidedBy fields → to_jsonb (JObject fields) = Some b →
  ∃ fields', jsonb_out b = JObject fields' ∧ carries o reason decidedBy fields'.
Proof.
  intros (Hnd & Hf & Ho & Hr & Hdec) Hb.
  destruct (jsonb_object _ _ Hnd Hb) as (Hall & fields' & Hout & Hnd' & Hin).
  exists fields'. split; [done|].
  assert (∀ k s, (k, JString s) ∈ fields → (k, JString s) ∈ fields') as Hstr.
  { intros k s Hk. apply Hin. destruct (Hall _ _ Hk) as [b0 Hb0].
    exists (JString s), b0. eauto using jsonb_string. }
  assert (∀ k, k ∉ fields.*1 → k ∉ fields'.*1) as Hkeys.
  { intros k Hk [[k' v] [-> Hv]]%list_elem_of_fmap. apply Hin in Hv as (v0 & b0 & Hv & _).
    apply Hk. by apply (list_elem_of_fmap_2 fst) in Hv. }
  split_and!; auto.
  - intros k v (v0 & b0 & Hv & Hb0 & <-)%Hin. destruct (Hf _ _ Hv) as [Hk Hs].
    split; [done|]. destruct Hs as [?|[s ->]]; [by left|]. right. exists s. by apply jsonb_string.
  - destruct (sempty reason); auto.
  - destruct (sempty decidedBy); auto.
Qed.

(** An outcome journalled for a step survives: once its append has written
    the record, then after any further appends, and through Postgres's jsonb, a
    state loaded for that sub-run reports that outcome, that reason and who
    decided it, unchanged. *)
Theorem outcome_survives tenant now f e t t' res o reason decidedBy payload t'' f' s result0 :
  dense t → Append tenant now f e t = (t', Ok res) → Duplicate res = false →
  EntryPhase e = PhaseCompleted → o ≠ "" →
  utf8_valid o = true → utf8_valid reason = true → utf8_valid decidedBy = true →
  OutcomePayloadDecidedBy o reason decidedBy result0 = Ok payload → Payload e = payload →
  rtc append_step t' t'' → Load tenant f' (RunID e) (SubRunID e) t'' = Ok s →
  StepOutcome s (SubRunID e) (StepID e) = Some (o, reason) ∧
  ApprovalActor s (SubRunID e) (StepID e) = (if sempty decidedBy then None else Some decidedBy).
Proof.
  intros Hd Ha Hdup Hph Ho Hv1 Hv2 Hv3 Hp He Hrtc Hload.
  destruct (payload_carries _ _ _ _ _ Hp) as (fields & -> & Hcar).
  rewrite !utf8_valid_id in Hcar by done.
  destruct (Append_dense _ _ _ _ _ _ _ Hd Ha) as [Hd' _].
  destruct (Append_cases _ _ _ _ _ _ _ Hd Ha)
    as [[_ [? [=]]]|(pl & Hc & _ & [(r & _ & _ & [= ->])|(_ & _ & -> & _)])]; [done|].
  rewrite He in Hc. cbn in Hc. destruct (to_jsonb (JObject fields)) as [b|] eqn:Hb; [|done].
  simplify_eq/=. destruct (jsonb_carries _ _ _ _ _ Hcar Hb) as (fields' & Hout & Hcar').
  assert (<[entry_key tenant e := _]> t ⊆ t'') as Hsub
    by (eapply append_steps_mono; eauto).
  destruct (Load_lookup _ _ _ _ _ _ Hload) as (_ & _ & _ & Hl).
  eapply (StepOutcome_carries _ _ _ (record_of _ (_, {| row_seq := _; row_payload := Some b; row_at := _ |})));
    [|cbn; f_equal; exact Hout|exact Hcar'|exact Ho].
  apply Hl. split; [done|]. eexists. split; [|reflexivity].
  eapply lookup_weaken; [|exact Hsub]. unfold entry_key. rewrite Hph. apply lookup_insert_eq.
Qed.
End store.

(** ** Witnesses *)

Module CheckpointWitnesses.
#[local] Existing Instance verbatim_postgres.
#[local] Existing Instance verbatim_laws.
#[local] Existing Instance amd64_runtime.

Definition step1 (sub : string) (ph : Phase) (p : RawMessage) : Entry :=
  {| RunID := "r"; SubRunID := sub; StepID := "s1"; EntryPhase := ph; Payload := p |}.
Definition denial : RawMessage :=
  RawDoc (JObject [("outcome", JString OutcomeApprovalDenied); ("reason", JString "no");
                   ("decided_by", JString "ana")]).
Definition first : Entry := step1 "" PhaseAttempted RawEmpty.
Definition denied : Entry := step1 "" PhaseCompleted denial.
Definition lost_commit : faults :=
  {| begin_fails := false; lock_fails := false; select_fails := false; insert_fails := false;
     commit := CommittedUnreported |}.
Definition t1 : table := (Append "t" 7 no_faults first ∅).1.
Definition t2 : table := (Append "t" 8 no_faults denied t1).1.
Definition no_load_faults : load_faults :=
  {| query_fails := false; scan_fails := λ _, false; rows_fail := false |}.

Lemma t1_steps : rtc append_step ∅ t1.
Proof. apply rtc_once. exact (step_append "t" 7 no_faults first ∅ t1 _ (surjective_pairing _)). Qed.
Lemma t2_steps : rtc append_step t1 t2.
Proof. apply rtc_once. exact (step_append "t" 8 no_faults denied t1 t2 _ (surjective_pairing _)). Qed.
Lemma t1_dense : dense t1.
Proof. apply (append_steps_mono _ _ t1_steps dense_empty). Qed.

Lemma journal_invariant_witness : seqs t2 "t" "r" ≡ₚ seqZ 0 2 ∧ t1 ⊆ t2.
Proof.
  destruct (journal_invariant t1 t2 t1_steps t2_steps) as [Hd Hsub].
  split; [exact (Hd "t" "r")|exact Hsub].
Defined.

(** The first attempt's commit is reported as an error although it took effect. *)
Lemma Append_retry_witness :
  ∃ r, (Append "t" 9 no_faults denied (Append "t" 8 lost_commit denied t1).1).1
         !! entry_key "t" denied = Some r ∧ row_seq r = 1%Z.
Proof.
  destruct (Append_retry "t" 8 9 lost_commit no_faults denied t1
              (Append "t" 8 lost_commit denied t1).1
              (Append "t" 9 no_faults denied (Append "t" 8 lost_commit denied t1).1).1
              (Append "t" 8 lost_commit denied t1).2
              {| res_Seq := 1; Duplicate := true; PayloadDiverged := false |})
    as (r & payload & _ & Hr & Hs & _); [exact t1_dense|reflexivity|reflexivity|].
  exists r. split; [exact Hr|exact Hs].
Defined.

Lemma Load_resumes_witness :
  ∃ s, Load "t" no_load_faults "r" "child" t1 = Ok s ∧ nextSeq s = 1%Z ∧
       phases_of s ("", "s1") !! PhaseAttempted = None.
Proof.
  destruct (Load_resumes "t" no_load_faults "r" "child" t1) as (s & Hs & Hl & Hn & _);
    [exact t1_dense|discriminate|reflexivity|reflexivity|reflexivity|reflexivity|reflexivity|
     vm_compute; discriminate|].
  exists s. split; [exact Hs|]. split; [exact Hn|].
  destruct (phases_of s ("", "s1") !! PhaseAttempted) as [rec|] eqn:Hrec; [|reflexivity].
  apply Hl in Hrec as [[=] _].
Defined.

Lemma outcome_survives_witness :
  ∃ s, Load "t" no_load_faults "r" "" t2 = Ok s ∧
       StepOutcome s "" "s1" = Some (OutcomeApprovalDenied, "no") ∧
       ApprovalActor s "" "s1" = Some "ana".
Proof.
  destruct (Load "t" no_load_faults "r" "" t2) as [s|] eqn:Hs; [|vm_compute in Hs; discriminate].
  exists s. split; [reflexivity|].
  eapply (outcome_survives "t" 8 no_faults denied t1 t2 _ OutcomeApprovalDenied "no" "ana" denial t2
            no_load_faults s RawEmpty); [exact t1_dense|reflexivity|reflexivity|reflexivity|discriminate|
    reflexivity|reflexivity|reflexivity|reflexivity|reflexivity|apply rtc_refl|exact Hs].
Defined.

Definition a_record (ph : Phase) (seq : Z) : Record_ :=
  {| rec_entry := step1 "" ph RawEmpty; Seq := seq; RecordedAt := 0 |}.
Lemma RunState_answers_witness :
  Completed (NewRunState "r" [a_record PhaseCompleted 1; a_record PhaseAttempted 0]) "" "s1"
  = Some (a_record PhaseCompleted 1).
Proof.
  destruct (RunState_answers "r" [a_record PhaseCompleted 1; a_record PhaseAttempted 0] "" "s1")
    as (_ & _ & Hrec & _).
  apply Hrec; [by apply (bool_decide_unpack (NoDup _))|]. split; [left|]. split; reflexivity.
Defined.
End CheckpointWitnesses.
