(* ===== verification/Program.v ===== *)
(** * Programs that call out, and pools of them

    A handler that talks to the database, runs a tool or writes a log is a tree of
    calls: it returns, or makes a call and continues with the reply. The same tree
    is run alone, asked which calls it can ever make, or interleaved with others
    over a shared world, one call at a time. *)

From S2P Require Import Prelude.

Set Default Proof Using "Type*".

Inductive prog {C : Type} (R : C → Type) (A : Type) : Type :=
| Ret (a : A)
| Vis (c : C) (k : R c → prog R A).
Arguments Ret {C R A} a.
Arguments Vis {C R A} c k.

Section prog.
Context {C : Type} {R : C → Type}.

#[global] Instance prog_ret : MRet (prog R) := λ A a, Ret a.
#[global] Instance prog_bind : MBind (prog R) := λ A B f,
  fix go (m : prog R A) : prog R B :=
    match m with
    | Ret a => f a
    | Vis c k => Vis c (λ r, go (k r))
    end.

Definition ask (c : C) : prog R (R c) := Vis c Ret.

(** The calls a program makes for some replies, and the values it can return. *)
Fixpoint emits {A} (m : prog R A) (c' : C) : Prop :=
  match m with
  | Ret _ => False
  | Vis c k => c' = c ∨ ∃ r, emits (k r) c'
  end.
Fixpoint returns {A} (m : prog R A) (a' : A) : Prop :=
  match m with
  | Ret a => a' = a
  | Vis c k => ∃ r, returns (k r) a'
  end.

Lemma emits_bind {A B} (m : prog R A) (f : A → prog R B) c :
  emits (m ≫= f) c ↔ emits m c ∨ ∃ a, returns m a ∧ emits (f a) c.
Proof.
  induction m as [a|c0 k IH]; [simpl; naive_solver|].
  change (Vis c0 k ≫= f) with (Vis c0 (λ r, k r ≫= f)). cbn [emits returns].
  setoid_rewrite IH. naive_solver.
Qed.

Lemma returns_bind {A B} (m : prog R A) (f : A → prog R B) b :
  returns (m ≫= f) b ↔ ∃ a, returns m a ∧ returns (f a) b.
Proof.
  induction m as [a|c0 k IH]; [simpl; naive_solver|].
  change (Vis c0 k ≫= f) with (Vis c0 (λ r, k r ≫= f)). cbn [returns].
  setoid_rewrite IH. naive_solver.
Qed.

(** Every call a program can make satisfies a predicate. *)
Definition within {A} (P : C → Prop) (m : prog R A) : Prop := ∀ c, emits m c → P c.

Lemma within_ret {A} P (a : A) : within P (mret a).
Proof. intros c []. Qed.
Lemma within_bind {A B} P (m : prog R A) (f : A → prog R B) :
  within P m → (∀ a, within P (f a)) → within P (m ≫= f).
Proof. intros Hm Hf c. rewrite emits_bind. intros [?|(a & _ & ?)]; [by apply Hm|by eapply Hf]. Qed.
Lemma within_vis {A} (P : C → Prop) c (k : R c → prog R A) :
  P c → (∀ r, within P (k r)) → within P (Vis c k).
Proof. intros Hc Hk c' [->|(r & Hr)]; [done|by eapply Hk]. Qed.

(** The calls of one complete run, in order, with the value it returns. *)
Fixpoint traces {A} (m : prog R A) (t : list C) (a' : A) : Prop :=
  match m with
  | Ret a => t = [] ∧ a' = a
  | Vis c k => ∃ r t', t = c :: t' ∧ traces (k r) t' a'
  end.

Lemma traces_bind {A B} (m : prog R A) (f : A → prog R B) t b :
  traces (m ≫= f) t b ↔ ∃ a t1 t2, t = t1 ++ t2 ∧ traces m t1 a ∧ traces (f a) t2 b.
Proof.
  revert t. induction m as [a|c0 k IH]; intros t.
  - split; [intros Ht; exists a, [], t; done|]. by intros (a' & t1 & t2 & -> & [-> ->] & ?).
  - change (Vis c0 k ≫= f) with (Vis c0 (λ r, k r ≫= f)). cbn [traces]. setoid_rewrite IH. split.
    + intros (r & t' & -> & a & t1 & t2 & -> & H1 & H2). exists a, (c0 :: t1), t2. naive_solver.
    + intros (a & t1 & t2 & -> & (r & t' & -> & H1) & H2). exists r, (t' ++ t2). naive_solver.
Qed.

(** A complete run with the replies it was given. *)
Fixpoint histories {A} (m : prog R A) (t : list {c : C & R c}) (a' : A) : Prop :=
  match m with
  | Ret a => t = [] ∧ a' = a
  | Vis c k => ∃ r t', t = existT c r :: t' ∧ histories (k r) t' a'
  end.

Lemma histories_emits {A} (m : prog R A) t a x : histories m t a → x ∈ t → emits m (projT1 x).
Proof.
  revert t. induction m as [a0|c k IH]; intros t; simpl.
  - intros [-> _] Hx. by apply not_elem_of_nil in Hx.
  - intros (r & t' & -> & Ht) [->|Hx]%elem_of_cons; [by left|]. right. eauto.
Qed.

Lemma histories_bind {A B} (m : prog R A) (f : A → prog R B) t b :
  histories (m ≫= f) t b ↔ ∃ a t1 t2, t = t1 ++ t2 ∧ histories m t1 a ∧ histories (f a) t2 b.
Proof.
  revert t. induction m as [a|c0 k IH]; intros t.
  - split; [intros Ht; exists a, [], t; done|]. by intros (a' & t1 & t2 & -> & [-> ->] & ?).
  - change (Vis c0 k ≫= f) with (Vis c0 (λ r, k r ≫= f)). cbn [histories]. setoid_rewrite IH. split.
    + intros (r & t' & -> & a & t1 & t2 & -> & H1 & H2).
      exists a, (existT c0 r :: t1), t2. naive_solver.
    + intros (a & t1 & t2 & -> & (r & t' & -> & H1) & H2). exists r, (t' ++ t2). naive_solver.
Qed.

Lemma histories_ask_bind {A} c (k : R c → prog R A) t a :
  histories (ask c ≫= k) t a ↔ ∃ r t', t = existT c r :: t' ∧ histories (k r) t' a.
Proof. done. Qed.

(** Running a program alone in a world whose calls may reply in several ways. *)
Fixpoint alone {W A} (sem : W → ∀ c : C, R c → W → Prop) (w : W) (m : prog R A) (w' : W) (a' : A)
  : Prop :=
  match m with
  | Ret a => w' = w ∧ a' = a
  | Vis c k => ∃ r w1, sem w c r w1 ∧ alone sem w1 (k r) w' a'
  end.

Lemma alone_bind {W A B} sem (m : prog R A) (f : A → prog R B) (w w' : W) b :
  alone sem w (m ≫= f) w' b ↔ ∃ a w1, alone sem w m w1 a ∧ alone sem w1 (f a) w' b.
Proof.
  revert w. induction m as [a|c0 k IH]; intros w.
  - split; [intros Ht; exists a, w; done|]. by intros (a' & w1 & [-> ->] & ?).
  - change (Vis c0 k ≫= f) with (Vis c0 (λ r, k r ≫= f)). cbn [alone]. setoid_rewrite IH. naive_solver.
Qed.

(** Running a program alone against a deterministic world. *)
Fixpoint run {W A} (handle : W → ∀ c : C, W * R c) (w : W) (m : prog R A) : W * A :=
  match m with
  | Ret a => (w, a)
  | Vis c k => let '(w', r) := handle w c in run handle w' (k r)
  end.

Lemma run_bind {W A B} (handle : W → ∀ c : C, W * R c) w (m : prog R A) (f : A → prog R B) :
  run handle w (m ≫= f) = let '(w', a) := run handle w m in run handle w' (f a).
Proof.
  revert w. induction m as [a|c k IH]; intros w; [done|]. simpl. destruct (handle w c). apply IH.
Qed.

(** The same, keeping the history. *)
Fixpoint run_log {W A} (handle : W → ∀ c : C, W * R c) (w : W) (m : prog R A)
  : W * list {c : C & R c} * A :=
  match m with
  | Ret a => (w, [], a)
  | Vis c k => let '(w', r) := handle w c in
               let '(w'', t, a) := run_log handle w' (k r) in (w'', existT c r :: t, a)
  end.

Lemma run_log_histories {W A} (handle : W → ∀ c : C, W * R c) (m : prog R A) (w : W) :
  histories m (run_log handle w m).1.2 (run_log handle w m).2.
Proof.
  revert w. induction m as [a|c k IH]; intros w; [done|]. simpl.
  destruct (handle w c) as [w' r]. specialize (IH r w').
  destruct (run_log handle w' (k r)) as [[w'' t] a]. simpl in *. eauto.
Qed.

(** What every call a program makes preserves, running it preserves. *)
Lemma run_preserves {W A} (P : W → Prop) (handle : W → ∀ c : C, W * R c) (m : prog R A) (w : W) :
  (∀ w c, emits m c → P w → P (handle w c).1) → P w → P (run handle w m).1.
Proof.
  revert w. induction m as [a|c k IH]; intros w Hc HP; [done|]. simpl.
  assert (HP' : P (handle w c).1) by (apply Hc; [by left|done]).
  destruct (handle w c) as [w1 r]. apply IH; [|done]. intros w0 c0 Hk. apply Hc. right. by exists r.
Qed.

(** A deterministic world is one way a nondeterministic one may behave. *)
Lemma run_alone {W A} sem (handle : W → ∀ c : C, W * R c) (m : prog R A) (w : W) :
  (∀ w c, sem w c (handle w c).2 (handle w c).1) →
  alone sem w m (run handle w m).1 (run handle w m).2.
Proof.
  intros Hs. revert w. induction m as [a|c k IH]; intros w; [done|]. simpl.
  specialize (Hs w c). destruct (handle w c) as [w1 r]. simpl in Hs. eauto.
Qed.
End prog.

(** ** Steps that may fail *)

(** A step, then the rest unless it failed. *)
Definition and_then {C} {R : C → Type} {E A B} (m : prog R (result E A)) (k : A → prog R (result E B)) : prog R (result E B) :=
  r ← m; match r with Ok a => k a | Err e => mret (Err e) end.

Lemma histories_and_then {C} {R : C → Type} {E A B} (m : prog R (result E A)) (k : A → prog R (result E B)) t b :
  histories (and_then m k) t b →
  (∃ e, histories m t (Err e) ∧ b = Err e) ∨ (∃ a t1 t2, t = t1 ++ t2 ∧ histories m t1 (Ok a) ∧ histories (k a) t2 b).
Proof.
  unfold and_then. rewrite histories_bind. intros ([a|e] & t1 & t2 & -> & Hm & Hk).
  - right. by exists a, t1, t2.
  - destruct Hk as [-> ->]. left. exists e. by rewrite app_nil_r.
Qed.

(** ** One answer per call *)

(** What a program returns when each call has one answer. *)
Definition answered_by {C A} {R : C → Type} (f : ∀ c, R c) (m : prog R A) : A := (run (λ (_ : unit) c, (tt, f c)) tt m).2.

Section answered.
Context {C : Type} {R : C → Type} (f : ∀ c : C, R c).
Lemma answered_by_bind {A B} (m : prog R A) (k : A → prog R B) :
  answered_by f (m ≫= k) = answered_by f (k (answered_by f m)).
Proof. unfold answered_by. rewrite run_bind. by destruct (run _ tt m) as [[] a]. Qed.
Lemma answered_by_and_then {E A B} (m : prog R (result E A)) (k : A → prog R (result E B)) :
  answered_by f (and_then m k) = match answered_by f m with Ok a => answered_by f (k a) | Err e => Err e end.
Proof. unfold and_then. rewrite answered_by_bind. by destruct (answered_by f m). Qed.
Lemma answered_by_ask {A} c (k : R c → prog R A) : answered_by f (ask c ≫= k) = answered_by f (k (f c)).
Proof. by rewrite answered_by_bind. Qed.
Lemma answered_by_if {A} (P : Prop) `{Decision P} (m n : prog R A) :
  answered_by f (if decide P then m else n) = if decide P then answered_by f m else answered_by f n.
Proof. by destruct (decide P). Qed.

(** A program whose calls are another's. *)
Lemma answered_by_lift {C' A} {R' : C' → Type} (g : ∀ c, R' c) (lift : prog R A → prog R' A)
    (tag : C → C') (back : ∀ c, R' (tag c) → R c) (m : prog R A) :
  (∀ a, lift (Ret a) = Ret a) → (∀ c k, lift (Vis c k) = Vis (tag c) (λ r, lift (k (back c r)))) →
  (∀ c, back c (g (tag c)) = f c) → answered_by g (lift m) = answered_by f m.
Proof.
  intros Hr Hv Hb. induction m as [a|c k IH]; [by rewrite Hr|]. rewrite Hv. unfold answered_by in *. simpl. by rewrite Hb, IH.
Qed.

(** Services that answer a program's possible calls alike are alike to it. *)
Lemma answered_by_ext {A} (g : ∀ c, R c) (P : C → Prop) (m : prog R A) :
  within P m → (∀ c, P c → f c = g c) → answered_by f m = answered_by g m.
Proof.
  intros Hw Hfg. induction m as [a|c k IH]; [done|]. change (answered_by f (k (f c)) = answered_by g (k (g c))).
  rewrite <- (Hfg c) by (apply Hw; by left). apply IH. intros c' Hc'. apply Hw. right. eauto.
Qed.
End answered.

(** ** Interleaving *)

Section pool.
Context {C : Type} {R : C → Type} {W T A : Type}.
(** What a call may reply and do to the world; the tag of the calling process is
    ghost, it names who made the call. *)
Context (sem : T → W → ∀ c : C, R c → W → Prop).
(** The program a process with a tag starts with. *)
Context (init : T → prog R A).

Abbreviation pool := (gmap nat (T * prog R A)).

Inductive pool_step : W * pool → W * pool → Prop :=
| pool_call w ps i t c k r w' :
    ps !! i = Some (t, Vis c k) → sem t w c r w' →
    pool_step (w, ps) (w', <[i := (t, k r)]> ps)
| pool_spawn w ps i t :
    ps !! i = None → pool_step (w, ps) (w, <[i := (t, init t)]> ps)
| pool_crash w ps i : pool_step (w, ps) (w, delete i ps).

(** A process that runs to its end while the others wait. *)
Lemma alone_steps i t m w ps w' a :
  alone (sem t) w m w' a → rtc pool_step (w, <[i := (t, m)]> ps) (w', <[i := (t, Ret a)]> ps).
Proof.
  revert w. induction m as [a0|c k IH]; intros w; simpl.
  - by intros [-> ->].
  - intros (r & w1 & Hs & Ha). eapply rtc_l.
    + eapply pool_call; [apply lookup_insert_eq|exact Hs].
    + rewrite insert_insert_eq. by apply IH.
Qed.

(** A process that runs a first part while the others wait. *)
Lemma alone_steps_bind {B} i t (m : prog R B) (f : B → prog R A) w ps w' b :
  alone (sem t) w m w' b → rtc pool_step (w, <[i := (t, m ≫= f)]> ps) (w', <[i := (t, f b)]> ps).
Proof.
  revert w. induction m as [a0|c k IH]; intros w.
  - by intros [-> ->].
  - intros (r & w1 & Hs & Ha). change (Vis c k ≫= f) with (Vis c (λ r, k r ≫= f)). eapply rtc_l.
    + eapply pool_call; [apply lookup_insert_eq|exact Hs].
    + rewrite insert_insert_eq. by apply IH.
Qed.

(** A deterministic world under a schedule: which process makes its next call. *)
Definition pick (handle : W → ∀ c : C, W * R c) (s : W * pool) (i : nat) : W * pool :=
  match s.2 !! i with
  | Some (t, Vis c k) => let '(w', r) := handle s.1 c in (w', <[i := (t, k r)]> s.2)
  | _ => s
  end.

Lemma scheduled_steps (handle : W → ∀ c : C, W * R c) sched s :
  (∀ t w c, sem t w c (handle w c).2 (handle w c).1) →
  rtc pool_step s (foldl (pick handle) s sched).
Proof.
  intros Hs. revert s. induction sched as [|i sched IH]; intros [w ps]; [constructor|]. simpl.
  etrans; [|apply IH]. unfold pick; simpl. destruct (ps !! i) as [[t [a|c k]]|] eqn:Hi; try constructor.
  specialize (Hs t w c). destruct (handle w c) as [w' r]. apply rtc_once. by eapply pool_call.
Qed.

(** Rely and guarantee: whatever larger world a program's calls find, they keep the
    invariant and only enlarge the world, and it ends in a postcondition. *)
Section safety.
Context (I : W → Prop) (le : relation W) {Hpre : PreOrder le}.

Fixpoint safe {B} (t : T) (Q : B → W → Prop) (m : prog R B) (w : W) : Prop :=
  match m with
  | Ret a => Q a w
  | Vis c k => ∀ w1 r w2, le w w1 → I w1 → sem t w1 c r w2 → I w2 ∧ le w1 w2 ∧ safe t Q (k r) w2
  end.

Lemma safe_bind {B B'} t (Q : B → W → Prop) (Q' : B' → W → Prop) m (f : B → prog R B') w :
  safe t Q m w → (∀ a w', le w w' → Q a w' → safe t Q' (f a) w') → safe t Q' (m ≫= f) w.
Proof using Hpre.
  revert w. induction m as [a|c k IH]; intros w Hm Hf; [by apply Hf|].
  change (Vis c k ≫= f) with (Vis c (λ r, k r ≫= f)). intros w1 r w2 Hle HI Hs.
  destruct (Hm w1 r w2 Hle HI Hs) as (HI2 & Hle2 & Hk). split; [done|]. split; [done|].
  apply IH; [done|]. intros a w' Hle'. apply Hf. by do 2 etrans.
Qed.

Lemma safe_mono {B} t (Q : B → W → Prop) m w w' :
  (∀ a w1 w2, le w1 w2 → Q a w1 → Q a w2) → le w w' → safe t Q m w → safe t Q m w'.
Proof using Hpre.
  intros HQ Hle. destruct m as [a|c k]; simpl; [by apply HQ|].
  intros Hm w1 r w2 Hle1. apply Hm. by etrans.
Qed.

(** A pool of safe programs keeps the invariant. *)
Lemma pool_safe s s' :
  (∀ t w, safe t (λ _ _, True) (init t) w) → rtc pool_step s s' →
  I s.1 → (∀ i t m, s.2 !! i = Some (t, m) → safe t (λ _ _, True) m s.1) →
  I s'.1 ∧ le s.1 s'.1.
Proof.
  intros Hinit. induction 1 as [s|s s1 s2 Hs _ IH]; [by intros|]. intros HI Hps.
  assert (I s1.1 ∧ le s.1 s1.1 ∧ ∀ i t m, s1.2 !! i = Some (t, m) → safe t (λ _ _, True) m s1.1)
    as (HI1 & Hle1 & Hps1).
  { destruct Hs as [w ps i t c k r w' Hi Hc|w ps i t Hi|w ps i]; simpl in *.
    - destruct (Hps i t _ Hi w r w' ltac:(done) HI Hc) as (HI' & Hle' & Hk). split; [done|]. split; [done|].
      intros j t' m [[<- [= <- <-]]|[_ Hj]]%lookup_insert_Some; [done|].
      eapply safe_mono; [done|exact Hle'|by eapply Hps].
    - split; [done|]. split; [done|]. intros j t' m [[<- [= <- <-]]|[_ Hj]]%lookup_insert_Some; eauto.
    - split; [done|]. split; [done|]. intros j t' m [_ Hj]%lookup_delete_Some. eauto. }
  destruct (IH HI1 Hps1) as [HI2 Hle2]. split; [done|]. by etrans.
Qed.
End safety.

(** What every call preserves, the whole pool preserves. *)
Lemma pool_preserves (P : W → Prop) s s' :
  (∀ t w c r w', sem t w c r w' → P w → P w') → rtc pool_step s s' → P s.1 → P s'.1.
Proof.
  intros Hc. induction 1 as [s|s s1 s2 Hs _ IH]; [done|]. intros HP. apply IH.
  destruct Hs; simpl in *; eauto.
Qed.

(** What the calls a process can make preserve, a pool of such processes preserves. *)
Lemma pool_within (P : T → C → Prop) (J : W → Prop) s s' :
  (∀ t, within (P t) (init t)) →
  (∀ t w c r w', P t c → sem t w c r w' → J w → J w') → rtc pool_step s s' →
  J s.1 → (∀ i t m, s.2 !! i = Some (t, m) → within (P t) m) → J s'.1.
Proof.
  intros Hinit Hc. induction 1 as [s|s s1 s2 Hs _ IH]; [by intros|]. intros HJ Hps. apply IH.
  - destruct Hs as [w ps i t c k r w' Hi Hr|w ps i t Hi|w ps i]; simpl in *; [|done..].
    eapply Hc; [|exact Hr|done]. apply (Hps _ _ _ Hi). by left.
  - destruct Hs as [w ps i t c k r w' Hi Hr|w ps i t Hi|w ps i]; simpl in *.
    + intros j t' m [[<- [= <- <-]]|[_ Hj]]%lookup_insert_Some; [|by eapply Hps].
      intros c' Hc'. apply (Hps _ _ _ Hi). right. by exists r.
    + intros j t' m [[<- [= <- <-]]|[_ Hj]]%lookup_insert_Some; [done|by eapply Hps].
    + intros j t' m [_ Hj]%lookup_delete_Some. by eapply Hps.
Qed.
End pool.

(** ** Statements sent to a database *)

(** Why a statement was refused; an error that is none is the connection's, and the
    statement may have taken effect. *)
Inductive refusal := UniqueViolation | Refused.
Abbreviation dberr := (option refusal).

(** A statement: done and answered, done and the answer lost, refused, or not done. *)
Definition stmt {W A : Type} (t : W) (s : result refusal (W * A)) (r : result dberr A) (t' : W) : Prop :=
  (∃ a, s = Ok (t', a) ∧ (r = Ok a ∨ r = Err None)) ∨
  (∃ e, s = Err e ∧ r = Err (Some e) ∧ t' = t) ∨
  (r = Err None ∧ t' = t).

Lemma stmt_cases {W A : Type} (t : W) (s : result refusal (W * A)) (r : result dberr A) (t' : W) :
  stmt t s r t' → t' = t ∨ ∃ a, s = Ok (t', a).
Proof. unfold stmt. naive_solver. Qed.

Lemma stmt_ok {W A : Type} (t : W) (s : result refusal (W * A)) a (t' : W) :
  stmt t s (Ok a) t' → s = Ok (t', a).
Proof. unfold stmt. naive_solver. Qed.

(** A statement served without a fault. *)
Definition served_stmt {W A : Type} (t : W) (s : result refusal (W * A)) : W * result dberr A :=
  match s with Ok (t', a) => (t', Ok a) | Err e => (t, Err (Some e)) end.

Lemma served_stmt_stmt {W A : Type} (t : W) (s : result refusal (W * A)) :
  stmt t s (served_stmt t s).2 (served_stmt t s).1.
Proof. destruct s as [[t' a]|e]; unfold stmt; simpl; [left|right; left]; eauto. Qed.
