(* ===== verification/AgentRegistry.v ===== *)
(** * Package store: the agent registry

    Models go/internal/store/agent_registry.go: the table agents (its primary key
    and CHECK constraint), the statements sent to it, and the registry's
    operations as sequences of those statements, between which other processes
    run. Every statement may fail, before or after it took effect. *)

From S2P Require Import Prelude GoValue Json Program.

Local Open Scope string_scope.
Set Default Proof Using "Type*".

Definition LifecycleDraft : string := "Draft".
Definition LifecycleCandidate : string := "Candidate".
Definition LifecycleReleased : string := "Released".
Definition LifecycleRetired : string := "Retired".

Definition validTransitions : gmap string string :=
  list_to_map [(LifecycleDraft, LifecycleCandidate); (LifecycleCandidate, LifecycleReleased);
               (LifecycleReleased, LifecycleRetired)].

Record ReleaseGateDecision := { Allowed : bool; Reason : string }.

(** ** The table *)

(** The primary key: tenant, name and version. *)
Abbreviation akey := (string * string * string)%type.

Section agents.
Context `{Postgres, GoJson}.
Implicit Types (k : akey) (name version : string).

Record agent_row := {
  ag_owner : string;
  ag_lifecycle : string;
  ag_manifest : jsonb;
  ag_created_at : Z;
  ag_updated_at : Z;
  ag_quarantined : bool;
  ag_reason : option string;
}.
Abbreviation atable := (gmap akey agent_row).

(** The CHECK constraint agents_lifecycle_valid. *)
Definition lifecycle_valid (s : string) : bool :=
  String.eqb s "Draft" || String.eqb s "Candidate" || String.eqb s "Released" || String.eqb s "Retired".

(** The statements, at a clock reading. *)
Definition sql_insert (now : Z) (t : atable) (k : akey) (owner lifecycle : string) (manifest : json)
  : result refusal (atable * ()) :=
  match to_jsonb manifest with
  | Some m =>
      if text_ok k.1.1 && text_ok k.1.2 && text_ok k.2 && text_ok owner && lifecycle_valid lifecycle then
        match t !! k with
        | Some _ => Err UniqueViolation
        | None => Ok (<[k := {| ag_owner := owner; ag_lifecycle := lifecycle; ag_manifest := m;
                                ag_created_at := now; ag_updated_at := now; ag_quarantined := false;
                                ag_reason := None |}]> t, tt)
        end
      else Err Refused
  | None => Err Refused
  end.

Definition sql_select (t : atable) (k : akey) : result refusal (atable * option agent_row) :=
  if text_ok k.1.1 && text_ok k.1.2 && text_ok k.2 then Ok (t, t !! k) else Err Refused.

(** An UPDATE that matches no row is not an error. *)
Definition sql_update (t : atable) (k : akey) (f : agent_row → agent_row)
  : result refusal (atable * ()) :=
  if text_ok k.1.1 && text_ok k.1.2 && text_ok k.2 then Ok (alter f k t, tt) else Err Refused.

Definition with_lifecycle (now : Z) (target : string) (r : agent_row) : agent_row :=
  {| ag_owner := ag_owner r; ag_lifecycle := target; ag_manifest := ag_manifest r;
     ag_created_at := ag_created_at r; ag_updated_at := now; ag_quarantined := ag_quarantined r;
     ag_reason := ag_reason r |}.
Definition with_quarantine (now : Z) (q : bool) (reason : option string) (r : agent_row) : agent_row :=
  {| ag_owner := ag_owner r; ag_lifecycle := ag_lifecycle r; ag_manifest := ag_manifest r;
     ag_created_at := ag_created_at r; ag_updated_at := now; ag_quarantined := q;
     ag_reason := reason |}.

Definition sql_lifecycle (now : Z) (t : atable) (k : akey) (target : string) :=
  if lifecycle_valid target then sql_update t k (with_lifecycle now target) else Err Refused.
Definition sql_quarantine (now : Z) (t : atable) (k : akey) (reason : string) :=
  if text_ok reason then sql_update t k (with_quarantine now true (Some reason)) else Err Refused.
Definition sql_unquarantine (now : Z) (t : atable) (k : akey) :=
  sql_update t k (with_quarantine now false None).

(** ** Calls *)

Inductive acall :=
| AInsert (k : akey) (owner lifecycle : string) (manifest : json)
| ASelect (k : akey)
| ALifecycle (k : akey) (target : string)
| AQuarantine (k : akey) (reason : string)
| AUnquarantine (k : akey).

Definition areply (c : acall) : Type :=
  match c with
  | ASelect _ => result dberr (option agent_row)
  | _ => result dberr ()
  end.
Abbreviation AM := (prog areply).

Definition key_of (c : acall) : akey :=
  match c with
  | AInsert k _ _ _ | ASelect k | ALifecycle k _ | AQuarantine k _ | AUnquarantine k => k
  end.

Definition asem (t : atable) (c : acall) : areply c → atable → Prop :=
  match c with
  | AInsert k owner lifecycle m => λ r t', ∃ now, stmt t (sql_insert now t k owner lifecycle m) r t'
  | ASelect k => stmt t (sql_select t k)
  | ALifecycle k target => λ r t', ∃ now, stmt t (sql_lifecycle now t k target) r t'
  | AQuarantine k reason => λ r t', ∃ now, stmt t (sql_quarantine now t k reason) r t'
  | AUnquarantine k => λ r t', ∃ now, stmt t (sql_unquarantine now t k) r t'
  end.

(** ** The operations *)

Record AgentRecord := {
  Name : string;
  Version : string;
  Owner : string;
  Lifecycle : string;
  Manifest : gomap;
  CreatedAt : Z;
  UpdatedAt : Z;
  Quarantined : bool;
  QuarantineReason : string;
}.

Inductive AgentError :=
| ManifestNoMetadata
| ManifestNoNameVersion
| MarshalManifest
| ErrAlreadyExists (name version : string)
| ErrNotFound
| UnmarshalManifest
| ErrInvalidTransition (current target allowed : string)
| ErrReleaseGateBlocked (reason : string)
| ErrNotReleased (lifecycle : string)
| StoreFailed (op : string) (e : dberr).

Definition manifestNameVersion (manifest : gomap) : result AgentError (string * string) :=
  match as_map_opt (mget (items manifest) "metadata") with
  | None => Err ManifestNoMetadata
  | Some metadata =>
      let name := as_string (mget metadata "name") in
      let version := as_string (mget metadata "version") in
      if sempty name || sempty version then Err ManifestNoNameVersion else Ok (name, version)
  end.

Definition scanAgentRow (name version : string) (row : option agent_row)
  : result AgentError AgentRecord :=
  match row with
  | None => Err ErrNotFound
  | Some r =>
      match unmarshal_map (jsonb_out (ag_manifest r)) with
      | None => Err UnmarshalManifest
      | Some m => Ok {| Name := name; Version := version; Owner := ag_owner r;
                        Lifecycle := ag_lifecycle r; Manifest := m; CreatedAt := ag_created_at r;
                        UpdatedAt := ag_updated_at r; Quarantined := ag_quarantined r;
                        QuarantineReason := default "" (ag_reason r) |}
      end
  end.

(** [r.Get] of the registry of a tenant. *)
Definition Get (tenant name version : string) : AM (result AgentError AgentRecord) :=
  row ← ask (ASelect (tenant, name, version));
  mret (match row with
        | Err e => Err (StoreFailed "scan agent" e)
        | Ok row => scanAgentRow name version row
        end).

Definition Create (tenant : string) (manifest : gomap) (owner : string)
  : AM (result AgentError AgentRecord) :=
  match manifestNameVersion manifest with
  | Err e => mret (Err e)
  | Ok (name, version) =>
      match marshal_map manifest with
      | None => mret (Err MarshalManifest)
      | Some m =>
          r ← ask (AInsert (tenant, name, version) owner LifecycleDraft m);
          match r : result dberr () with
          | Err (Some UniqueViolation) => mret (Err (ErrAlreadyExists name version))
          | Err e => mret (Err (StoreFailed "create agent" e))
          | Ok _ => Get tenant name version
          end
      end
  end.

Definition TransitionLifecycle (tenant name version target : string) (gate : ReleaseGateDecision)
  : AM (result AgentError AgentRecord) :=
  got ← Get tenant name version;
  match got with
  | Err e => mret (Err e)
  | Ok current =>
      if negb (bool_decide (validTransitions !! Lifecycle current = Some target))
      then mret (Err (ErrInvalidTransition (Lifecycle current) target
                        (default "" (validTransitions !! Lifecycle current))))
      else if bool_decide (Lifecycle current = LifecycleCandidate) &&
              bool_decide (target = LifecycleReleased) && negb (Allowed gate)
      then mret (Err (ErrReleaseGateBlocked
                        (if sempty (Reason gate) then "no passing release gate decision was provided"
                         else Reason gate)))
      else
        r ← ask (ALifecycle (tenant, name, version) target);
        match r : result dberr () with
        | Err e => mret (Err (StoreFailed "transition lifecycle" e))
        | Ok _ => Get tenant name version
        end
  end.

Definition Quarantine (tenant name version reason : string) : AM (result AgentError AgentRecord) :=
  got ← Get tenant name version;
  match got with
  | Err e => mret (Err e)
  | Ok current =>
      if negb (bool_decide (Lifecycle current = LifecycleReleased))
      then mret (Err (ErrNotReleased (Lifecycle current)))
      else
        r ← ask (AQuarantine (tenant, name, version) reason);
        match r : result dberr () with
        | Err e => mret (Err (StoreFailed "quarantine" e))
        | Ok _ => Get tenant name version
        end
  end.

Definition Unquarantine (tenant name version : string) : AM (result AgentError AgentRecord) :=
  got ← Get tenant name version;
  match got with
  | Err e => mret (Err e)
  | Ok _ =>
      r ← ask (AUnquarantine (tenant, name, version));
      match r : result dberr () with
      | Err e => mret (Err (StoreFailed "unquarantine" e))
      | Ok _ => Get tenant name version
      end
  end.

(** ** What a statement does to a row *)

(** The effect of a call that took effect. *)
Definition effect (c : acall) (t t' : atable) : Prop :=
  ∃ now, match c with
         | AInsert k owner lifecycle m => t !! k = None ∧ ∃ m',
             t' = <[k := {| ag_owner := owner; ag_lifecycle := lifecycle; ag_manifest := m';
                            ag_created_at := now; ag_updated_at := now; ag_quarantined := false;
                            ag_reason := None |}]> t
         | ASelect _ => t' = t
         | ALifecycle k target => t' = alter (with_lifecycle now target) k t
         | AQuarantine k reason => t' = alter (with_quarantine now true (Some reason)) k t
         | AUnquarantine k => t' = alter (with_quarantine now false None) k t
         end.

Lemma asem_cases (t : atable) (c : acall) (r : areply c) (t' : atable) : asem t c r t' → t' = t ∨ effect c t t'.
Proof.
  destruct c; simpl; try intros [now Hs]; try intros Hs.
  all: apply stmt_cases in Hs as [->|[a Hs]]; [by left|right].
  - exists now. unfold sql_insert in Hs. cases; simplify_eq. eauto.
  - exists 0%Z. unfold sql_select in Hs. cases; by simplify_eq.
  - exists now. unfold sql_lifecycle, sql_update in Hs. cases; by simplify_eq.
  - exists now. unfold sql_quarantine, sql_update in Hs. cases; by simplify_eq.
  - exists now. unfold sql_unquarantine, sql_update in Hs. cases; by simplify_eq.
Qed.

(** What is fixed when a version is created. *)
Definition same_version (r r' : agent_row) : Prop :=
  ag_manifest r' = ag_manifest r ∧ ag_owner r' = ag_owner r ∧ ag_created_at r' = ag_created_at r.

Lemma effect_row (c : acall) (t t' : atable) (k : akey) (r : agent_row) :
  effect c t t' → t !! k = Some r →
  ∃ r', t' !! k = Some r' ∧ same_version r r' ∧
    (ag_lifecycle r' = ag_lifecycle r ∨ ∃ target, c = ALifecycle k target ∧ ag_lifecycle r' = target).
Proof.
  assert (Halter : ∀ (f : agent_row → agent_row) k', t !! k = Some r → same_version r (f r) →
    ∃ r', alter f k' t !! k = Some r' ∧ same_version r r' ∧
      (ag_lifecycle r' = ag_lifecycle r ∨ (k' = k ∧ r' = f r))).
  { intros f k' Hr Hf. destruct (decide (k' = k)) as [->|Hk].
    - exists (f r). rewrite lookup_alter_eq, Hr. eauto.
    - exists r. rewrite lookup_alter_ne by done. repeat split; auto. }
  intros [now He] Hr. destruct c; simpl in He.
  - destruct He as (Hk & m' & ->). rewrite lookup_insert_ne by congruence.
    exists r. by repeat split; auto.
  - subst. exists r. by repeat split; auto.
  - subst. destruct (Halter (with_lifecycle now target) k0 Hr) as (r' & Hr' & Hv & Hl);
      [by repeat split|]. exists r'. split; [done|]. split; [done|].
    destruct Hl as [?|[-> ->]]; eauto.
  - subst. destruct (Halter (with_quarantine now true (Some reason)) k0 Hr) as (r' & Hr' & Hv & Hl);
      [by repeat split|]. exists r'. split; [done|]. split; [done|]. left. by destruct Hl as [?|[_ ->]].
  - subst. destruct (Halter (with_quarantine now false None) k0 Hr) as (r' & Hr' & Hv & Hl);
      [by repeat split|]. exists r'. split; [done|]. split; [done|]. left. by destruct Hl as [?|[_ ->]].
Qed.

(** ** Every interleaving *)

Inductive agent_op :=
| OpCreate (manifest : gomap) (owner : string)
| OpGet (name version : string)
| OpTransition (name version target : string) (gate : ReleaseGateDecision)
| OpQuarantine (name version reason : string)
| OpUnquarantine (name version : string).

(** An operation of a tenant's registry. *)
Definition program (op : string * agent_op) : AM (result AgentError AgentRecord) :=
  match op.2 with
  | OpCreate manifest owner => Create op.1 manifest owner
  | OpGet name version => Get op.1 name version
  | OpTransition name version target gate => TransitionLifecycle op.1 name version target gate
  | OpQuarantine name version reason => Quarantine op.1 name version reason
  | OpUnquarantine name version => Unquarantine op.1 name version
  end.

Implicit Types (op : string * agent_op) (t : gmap akey agent_row) (r : agent_row).
Abbreviation asteps := (pool_step (λ _, asem) program).

(** Whatever operations interleave, die or lose their connection, a version
    that exists keeps the manifest, the owner and the creation time it was
    created with: no statement of the registry rewrites or removes them, so the
    budget a run is held to cannot move under it. *)
Theorem version_is_immutable s s' (k : akey) (r : agent_row) :
  rtc asteps s s' → s.1 !! k = Some r → ∃ r', s'.1 !! k = Some r' ∧ same_version r r'.
Proof.
  intros Hs Hr.
  refine (pool_preserves _ _ (λ t, ∃ r', t !! k = Some r' ∧ same_version r r') s s' _ Hs _);
    [|exists r; by repeat split].
  intros _ t c re t' Hc (r1 & Hr1 & Hm1).
  apply asem_cases in Hc as [->|He]; [by exists r1|].
  destruct (effect_row _ _ _ _ _ He Hr1) as (r2 & Hr2 & Hm2 & _).
  exists r2. split; [done|]. unfold same_version in *. by destruct_and!; repeat split; etrans.
Qed.

(** ** One operation after another *)

Definition next (a b : string) : Prop := validTransitions !! a = Some b.

(** Operations served to their end one after another, whatever fails in them. *)
Inductive served : list (string * agent_op) → atable → atable → Prop :=
| served_none t : served [] t t
| served_op ops t t1 t2 op res :
    served ops t t1 → alone asem t1 (program op) t2 res → served (ops ++ [op])%list t t2.

(** How an operation alone may change a row. *)
Definition moves (op : string * agent_op) (k : akey) (r r' : agent_row) : Prop :=
  same_version r r' ∧
  (ag_lifecycle r' = ag_lifecycle r ∨
   ∃ name version target gate, op = (k.1.1, OpTransition name version target gate) ∧
     k = (k.1.1, name, version) ∧ next (ag_lifecycle r) target ∧ ag_lifecycle r' = target ∧
     (target = LifecycleReleased → Allowed gate = true)) ∧
  (ag_quarantined r' = true → ag_quarantined r = true ∨ ag_lifecycle r' = LifecycleReleased).

Definition op_effect (op : string * agent_op) (t t' : atable) : Prop :=
  (∀ k r, t !! k = Some r → ∃ r', t' !! k = Some r' ∧ moves op k r r') ∧
  (∀ k r', t !! k = None → t' !! k = Some r' →
     ag_lifecycle r' = LifecycleDraft ∧ ag_quarantined r' = false).

Lemma op_effect_refl op t : op_effect op t t.
Proof. split; [|naive_solver]. intros k r Hr. exists r. repeat split; auto. Qed.

Lemma op_effect_alter op (t : atable) (k : akey) (f : agent_row → agent_row) :
  (∀ r, t !! k = Some r → moves op k r (f r)) → op_effect op t (alter f k t).
Proof.
  intros Hf. split.
  - intros k' r Hr. destruct (decide (k = k')) as [<-|Hk].
    + exists (f r). rewrite lookup_alter_eq, Hr. auto.
    + exists r. rewrite lookup_alter_ne by done. repeat split; auto.
  - intros k' r' Hn Hs. destruct (decide (k = k')) as [<-|Hk].
    + by rewrite lookup_alter_eq, Hn in Hs.
    + by rewrite lookup_alter_ne, Hn in Hs.
Qed.

Lemma Get_alone t tenant name version t' res :
  alone asem t (Get tenant name version) t' res →
  t' = t ∧ ∀ rec, res = Ok rec →
    ∃ r, t !! (tenant, name, version) = Some r ∧ Lifecycle rec = ag_lifecycle r.
Proof.
  intros (r & t1 & Hs & -> & ->). simpl in Hs.
  assert (Ht : t1 = t) by (apply asem_cases with (c := ASelect _) in Hs as [?|[? ?]]; done).
  split; [done|]. intros rec Hrec. destruct r as [row|e]; [|done].
  destruct Hs as [(a & Ha & [Hr|?])|[(e & _ & ? & _)|[? _]]]; try done. injection Hr as <-.
  unfold sql_select in Ha. destruct (_ && _); [|done]. injection Ha as _ <-.
  destruct (t !! _) as [r|] eqn:Hrow; [|done]. exists r. split; [done|].
  unfold scanAgentRow in Hrec. destruct (unmarshal_map (jsonb_out (ag_manifest r))); [|done].
  by injection Hrec as <-.
Qed.

Lemma then_get op t t1 t' (u : result dberr ()) tenant name version msg res :
  op_effect op t t1 →
  alone asem t1 (match u with
                 | Err e => mret (Err (StoreFailed msg e))
                 | Ok _ => Get tenant name version
                 end) t' res →
  op_effect op t t'.
Proof.
  intros He Ha. destruct u as [[]|e]; [by apply Get_alone in Ha as [-> _]|by destruct Ha as [-> _]].
Qed.

Lemma Create_alone tenant manifest owner t t' res :
  alone asem t (Create tenant manifest owner) t' res →
  op_effect (tenant, OpCreate manifest owner) t t'.
Proof.
  unfold Create. destruct (manifestNameVersion manifest) as [[name version]|e];
    [|by intros [-> _]; apply op_effect_refl].
  destruct (marshal_map manifest); [|by intros [-> _]; apply op_effect_refl].
  intros (u & t1 & Hs & Hk).
  assert (He : op_effect (tenant, OpCreate manifest owner) t t1).
  { apply asem_cases in Hs as [->|[now (Hn & m' & ->)]]; [apply op_effect_refl|]. split.
    - intros k r0 Hr0. rewrite lookup_insert_ne by congruence. exists r0. repeat split; auto.
    - intros k r' Hnk Hr'. destruct (decide ((tenant, name, version) = k)) as [<-|?].
      + rewrite lookup_insert_eq in Hr'. by simplify_eq.
      + rewrite lookup_insert_ne in Hr' by done. congruence. }
  destruct u as [[]|[[]|]]; [by apply Get_alone in Hk as [-> _]|by destruct Hk as [-> _]..].
Qed.

Lemma released_comes_from s : next s LifecycleReleased → s = LifecycleCandidate.
Proof.
  unfold next, validTransitions. simpl. intros Hnext.
  repeat (rewrite lookup_insert_Some in Hnext; destruct Hnext as [[? ?]|[? Hnext]]; [done|]).
  done.
Qed.

Lemma Transition_alone tenant name version target gate t t' res :
  alone asem t (TransitionLifecycle tenant name version target gate) t' res →
  op_effect (tenant, OpTransition name version target gate) t t'.
Proof.
  unfold TransitionLifecycle. rewrite alone_bind. intros (got & t1 & [-> Hgot]%Get_alone & Ha).
  destruct got as [current|e]; [|by destruct Ha as [-> _]; apply op_effect_refl].
  destruct (Hgot current eq_refl) as (r & Hr & Hl). rewrite Hl in Ha.
  case_bool_decide as Hnext; simpl in Ha; [|by destruct Ha as [-> _]; apply op_effect_refl].
  match type of Ha with alone _ _ (if ?b then _ else _) _ _ => destruct b eqn:Hgate end;
    [by destruct Ha as [-> _]; apply op_effect_refl|].
  destruct Ha as (u & t2 & Hs & Ha). eapply then_get; [|exact Ha].
  apply (asem_cases _ (ALifecycle _ _)) in Hs as [->|[now ->]]; [apply op_effect_refl|].
  apply op_effect_alter. intros r0 Hr0. rewrite Hr in Hr0. injection Hr0 as <-.
  split; [by repeat split|]. split; [|simpl; auto].
  right. exists name, version, target, gate. repeat split; try done. intros ->.
  rewrite (released_comes_from _ Hnext) in Hgate. by destruct (Allowed gate).
Qed.

Lemma Quarantine_alone tenant name version reason t t' res :
  alone asem t (Quarantine tenant name version reason) t' res →
  op_effect (tenant, OpQuarantine name version reason) t t'.
Proof.
  unfold Quarantine. rewrite alone_bind. intros (got & t1 & [-> Hgot]%Get_alone & Ha).
  destruct got as [current|e]; [|by destruct Ha as [-> _]; apply op_effect_refl].
  destruct (Hgot current eq_refl) as (r & Hr & Hl). rewrite Hl in Ha.
  case_bool_decide as Hrel; simpl in Ha; [|by destruct Ha as [-> _]; apply op_effect_refl].
  destruct Ha as (u & t2 & Hs & Ha). eapply then_get; [|exact Ha].
  apply (asem_cases _ (AQuarantine _ _)) in Hs as [->|[now ->]]; [apply op_effect_refl|].
  apply op_effect_alter. intros r0 Hr0. rewrite Hr in Hr0. injection Hr0 as <-.
  repeat split; auto.
Qed.

Lemma Unquarantine_alone tenant name version t t' res :
  alone asem t (Unquarantine tenant name version) t' res →
  op_effect (tenant, OpUnquarantine name version) t t'.
Proof.
  unfold Unquarantine. rewrite alone_bind. intros (got & t1 & [-> _]%Get_alone & Ha).
  destruct got as [current|e]; [|by destruct Ha as [-> _]; apply op_effect_refl].
  destruct Ha as (u & t2 & Hs & Ha). eapply then_get; [|exact Ha].
  apply (asem_cases _ (AUnquarantine _)) in Hs as [->|[now ->]]; [apply op_effect_refl|].
  apply op_effect_alter. intros r0 Hr0. split; [by repeat split|]. split; [by left|done].
Qed.

Lemma op_alone op t t' res : alone asem t (program op) t' res → op_effect op t t'.
Proof.
  destruct op as [tenant []]; unfold program; cbn [fst snd];
    eauto using Create_alone, Transition_alone, Quarantine_alone, Unquarantine_alone.
  intros [-> _]%Get_alone. apply op_effect_refl.
Qed.

(** The stages of a version's life, in their order, by the names of the schema. *)
Definition stages : list string := ["Draft"; "Candidate"; "Released"; "Retired"].
Definition at_stage (r : agent_row) (n : nat) : Prop := stages !! n = Some (ag_lifecycle r).

(** A version went on from a stage to another as some operations asked: never back, and
    into each stage it reached because a transition of that version to that stage was
    asked, into Released with a gate that allows it. *)
Definition advanced (ops : list (string * agent_op)) (k : akey) (n n' : nat) : Prop :=
  (n ≤ n')%nat ∧ ∀ i, (n < i ≤ n')%nat → ∃ target gate,
    stages !! i = Some target ∧ (k.1.1, OpTransition k.1.2 k.2 target gate) ∈ ops ∧ (target = "Released" → Allowed gate = true).

Lemma next_stage a b n : stages !! n = Some a → next a b → stages !! S n = Some b.
Proof.
  unfold next, validTransitions. cbn [list_to_map foldr fst snd]. intros Hn Hb.
  rewrite !lookup_insert_Some in Hb.
  destruct Hb as [[<- <-]|[_ [[<- <-]|[_ [[<- <-]|[_ Hb]]]]]]; [| | |by rewrite lookup_empty in Hb];
    do 4 (destruct n as [|n]; [by simplify_eq/=|]); done.
Qed.
Lemma stages_inj n m a : stages !! n = Some a → stages !! m = Some a → n = m.
Proof. intros Hn Hm. eapply NoDup_lookup; [|exact Hn|exact Hm]. apply (bool_decide_unpack (NoDup stages)). reflexivity. Qed.

Lemma advanced_refl ops k n : advanced ops k n n.
Proof. split; [done|]. intros i Hi. lia. Qed.
Lemma advanced_snoc ops op k n m : advanced ops k n m → advanced (ops ++ [op])%list k n m.
Proof.
  intros [Hle Hall]. split; [done|]. intros i Hi. destruct (Hall i Hi) as (target & gate & ? & ? & ?).
  exists target, gate. split_and!; [done|apply elem_of_app; by left|done].
Qed.

Lemma moves_stage op ops k r r' n m :
  at_stage r m → advanced ops k n m → moves op k r r' →
  ∃ m', at_stage r' m' ∧ advanced (ops ++ [op])%list k n m'.
Proof.
  intros Hm Hadv (_ & [Hl|(name & version & target & gate & -> & Hk & Hn & Hl & Hgate)] & _).
  - exists m. split; [unfold at_stage; by rewrite Hl|by apply advanced_snoc].
  - pose proof (next_stage _ _ _ Hm Hn) as Hs. exists (S m). split; [unfold at_stage; by rewrite Hl|].
    destruct Hadv as [Hle Hall]. split; [lia|]. intros i Hi. destruct (decide (i = S m)) as [->|Hne].
    + exists target, gate. rewrite Hk. simpl. split_and!; [done|apply elem_of_app; right; left|exact Hgate].
    + destruct (Hall i) as (target' & gate' & ? & ? & ?); [lia|]. exists target', gate'.
      split_and!; [done|apply elem_of_app; by left|done].
Qed.

Lemma served_stage ops t t' k r n :
  served ops t t' → t !! k = Some r → at_stage r n →
  ∃ r' n', t' !! k = Some r' ∧ at_stage r' n' ∧ advanced ops k n n'.
Proof.
  intros Hs Hr Hn. induction Hs as [t|ops t t1 t2 op res Hs IH Ha]; [exists r, n; eauto using advanced_refl|].
  destruct (IH Hr) as (r1 & n1 & Hr1 & Hn1 & Had). apply op_alone in Ha as [Hold _].
  destruct (Hold _ _ Hr1) as (r2 & Hr2 & Hm). exists r2.
  destruct (moves_stage _ _ _ _ _ _ _ Hn1 Had Hm) as (n2 & ? & ?). by exists n2.
Qed.

(** From an empty registry, every version was created as a draft. *)
Lemma served_from_draft ops t k r :
  served ops ∅ t → t !! k = Some r →
  ∃ n, at_stage r n ∧ advanced ops k 0%nat n ∧ (ag_quarantined r = true → (2 ≤ n)%nat).
Proof.
  intros Hs. remember ∅ as t0. revert r.
  induction Hs as [t|ops t t1 t2 op res Hs IH Ha]; intros r' Hr'; subst; [by rewrite lookup_empty in Hr'|].
  apply op_alone in Ha as [Hold Hnew]. destruct (t1 !! k) as [r|] eqn:Hr.
  - destruct (Hold _ _ Hr) as (r1 & Hr1 & Hm). rewrite Hr1 in Hr'. injection Hr' as <-.
    destruct (IH eq_refl r eq_refl) as (n & Hn & Had & Hq).
    destruct (moves_stage _ _ _ _ _ _ _ Hn Had Hm) as (n' & Hn' & Had'). exists n'. split_and!; [done|done|].
    destruct Hm as (_ & Hl & Hq'). intros [Hqr|Hrel]%Hq'.
    + destruct Hl as [Hl|(? & ? & ? & ? & _ & _ & Hnx & Hl & _)].
      * unfold at_stage in Hn'. rewrite Hl in Hn'. rewrite (stages_inj _ _ _ Hn' Hn). auto.
      * apply (next_stage _ _ _ Hn) in Hnx. unfold at_stage in Hn'. rewrite Hl in Hn'.
        rewrite (stages_inj _ _ _ Hn' Hnx). specialize (Hq Hqr). lia.
    + unfold at_stage in Hn'. rewrite Hrel in Hn'. by rewrite (stages_inj n' 2%nat LifecycleReleased).
  - destruct (Hnew _ _ Hr Hr') as [Hl Hq]. exists 0%nat. split_and!; [unfold at_stage; by rewrite Hl|apply advanced_refl|].
    by rewrite Hq.
Qed.

(** C32. When operations are served one after another, whatever fails in them, every
    version is a draft, a candidate, released or retired; it starts as a draft and
    never goes back, so a retired one stays retired; it enters a stage only because a
    transition of that very version to that stage was asked, so it skips none, and it
    is released only through a release gate that allows it; and only a version that has
    been released is ever quarantined. *)
Theorem lifecycle_only_advances before after t t' k r :
  served before ∅ t → served after t t' → t !! k = Some r →
  ∃ n r' n', at_stage r n ∧ advanced before k 0%nat n ∧ (ag_quarantined r = true → (2 ≤ n)%nat) ∧
    t' !! k = Some r' ∧ at_stage r' n' ∧ advanced after k n n'.
Proof.
  intros Hb Ha Hr. destruct (served_from_draft _ _ _ _ Hb Hr) as (n & Hn & Had & Hq).
  destruct (served_stage _ _ _ _ _ _ Ha Hr Hn) as (r' & n' & ? & ? & ?). by exists n, r', n'.
Qed.

(** ** Two transitions at once *)

(** The calls served at a clock reading, none of them failing. *)
Definition aserve (now : Z) (t : atable) (c : acall) : atable * areply c :=
  match c with
  | AInsert k owner lifecycle m => served_stmt t (sql_insert now t k owner lifecycle m)
  | ASelect k => served_stmt t (sql_select t k)
  | ALifecycle k target => served_stmt t (sql_lifecycle now t k target)
  | AQuarantine k reason => served_stmt t (sql_quarantine now t k reason)
  | AUnquarantine k => served_stmt t (sql_unquarantine now t k)
  end.

Lemma aserve_sem now t (c : acall) : asem t c (aserve now t c).2 (aserve now t c).1.
Proof.
  destruct c; simpl; try exists now; apply served_stmt_stmt.
Qed.

Definition key_ok (k : akey) : bool := text_ok k.1.1 && text_ok k.1.2 && text_ok k.2.
Definition readable (r : agent_row) : Prop := is_Some (unmarshal_map (jsonb_out (ag_manifest r))).

Lemma lifecycle_of_next a b : next a b → lifecycle_valid b = true.
Proof.
  unfold next, validTransitions. simpl. intros Ha.
  repeat (rewrite lookup_insert_Some in Ha; destruct Ha as [[_ <-]|[_ Ha]]; [done|]). done.
Qed.

(** A transition that is allowed writes the row and answers it. *)
Lemma Transition_served now t tenant name version target gate r :
  key_ok (tenant, name, version) = true → t !! (tenant, name, version) = Some r → readable r →
  next (ag_lifecycle r) target → (target = LifecycleReleased → Allowed gate = true) →
  ∃ rec, run (aserve now) t (TransitionLifecycle tenant name version target gate) =
    (alter (with_lifecycle now target) (tenant, name, version) t, Ok rec).
Proof.
  intros Hk Hr [m Hm] Hn Hg. unfold TransitionLifecycle, Get. rewrite run_bind. simpl.
  unfold sql_select. fold (key_ok (tenant, name, version)). rewrite Hk, Hr. simpl. rewrite Hm. simpl.
  rewrite bool_decide_eq_true_2 by done. simpl.
  assert (Hgate : bool_decide (ag_lifecycle r = LifecycleCandidate) &&
    bool_decide (target = LifecycleReleased) && negb (Allowed gate) = false).
  { case_bool_decide; [|done]. case_bool_decide; [|done]. by rewrite Hg. }
  rewrite Hgate. simpl. unfold sql_lifecycle, sql_update. rewrite (lifecycle_of_next _ _ Hn).
  fold (key_ok (tenant, name, version)). rewrite Hk. simpl. unfold sql_select.
  fold (key_ok (tenant, name, version)). rewrite Hk. simpl.
  rewrite lookup_alter_eq, Hr. simpl. rewrite Hm.
  eexists. reflexivity.
Qed.

(** The same against the nondeterministic registry. *)
Lemma Transition_alone_served now t tenant name version target gate r :
  key_ok (tenant, name, version) = true → t !! (tenant, name, version) = Some r → readable r →
  next (ag_lifecycle r) target → (target = LifecycleReleased → Allowed gate = true) →
  ∃ rec, alone asem t (program (tenant, OpTransition name version target gate))
    (alter (with_lifecycle now target) (tenant, name, version) t) (Ok rec).
Proof.
  intros Hk Hr Hm Hn Hg.
  destruct (Transition_served now _ _ _ _ _ _ _ Hk Hr Hm Hn Hg) as [rec Hrun]. exists rec.
  pose proof (run_alone _ _ (TransitionLifecycle tenant name version target gate) t (aserve_sem now)) as Ha.
  by rewrite Hrun in Ha.
Qed.

(** A transition of a version that read Candidate stands at its update. *)
Lemma Transition_after_read tenant name version gate r :
  readable r → ag_lifecycle r = LifecycleCandidate → Allowed gate = true →
  ∃ f g, program (tenant, OpTransition name version LifecycleReleased gate) =
      Vis (ASelect (tenant, name, version)) f ∧
    f (Ok (Some r)) = Vis (ALifecycle (tenant, name, version) LifecycleReleased) g.
Proof.
  intros [m Hm] Hl Hg. eexists _, _. split; [reflexivity|].
  unfold mret, prog_ret. cbn [mbind prog_bind scanAgentRow]. rewrite Hm.
  cbn [Lifecycle]. rewrite Hl. rewrite bool_decide_eq_true_2 by done. cbn [negb].
  rewrite Hg, andb_false_r. reflexivity.
Qed.

Lemma select_sem t k : key_ok k = true → asem t (ASelect k) (Ok (t !! k)) t.
Proof. intros Hk. left. exists (t !! k). unfold sql_select. fold (key_ok k). rewrite Hk. auto. Qed.

Lemma lifecycle_sem now t k target :
  key_ok k = true → lifecycle_valid target = true →
  asem t (ALifecycle k target) (Ok tt) (alter (with_lifecycle now target) k t).
Proof.
  intros Hk Hv. exists now. left. exists tt. unfold sql_lifecycle, sql_update. fold (key_ok k).
  rewrite Hk, Hv. auto.
Qed.

(** A process that starts in a free slot and runs to its end. *)
Lemma spawn_and_run op w ps i w' res :
  ps !! i = None → alone asem w (program op) w' res →
  rtc asteps (w, ps) (w', <[i := (op, Ret res)]> ps).
Proof. intros Hi Ha. eapply rtc_l; [by apply pool_spawn|]. by apply alone_steps. Qed.

(** Transitions served at once can move a version backwards: [TransitionLifecycle]
    reads the state and then writes the target whatever the state has become. A
    request that read Candidate before the version was released and retired
    writes Released over Retired. *)
Theorem concurrent_transition_revives_retired t tenant name version gate r :
  let k := (tenant, name, version) in
  key_ok k = true → t !! k = Some r → readable r → ag_lifecycle r = LifecycleCandidate →
  Allowed gate = true →
  ∃ t1 ps1 t2 ps2 r1 r2,
    rtc asteps (t, ∅) (t1, ps1) ∧ t1 !! k = Some r1 ∧ ag_lifecycle r1 = LifecycleRetired ∧
    rtc asteps (t1, ps1) (t2, ps2) ∧ t2 !! k = Some r2 ∧ ag_lifecycle r2 = LifecycleReleased.
Proof.
  intros k Hk Hr Hm Hl Hg. subst k.
  set (k := (tenant, name, version)) in *.
  set (up := (tenant, OpTransition name version LifecycleReleased gate)).
  set (down := (tenant, OpTransition name version LifecycleRetired gate)).
  set (t1 := alter (with_lifecycle 0 LifecycleReleased) k t).
  set (t2 := alter (with_lifecycle 0 LifecycleRetired) k t1).
  assert (Ht1 : t1 !! k = Some (with_lifecycle 0 LifecycleReleased r))
    by (unfold t1; by rewrite lookup_alter_eq, Hr).
  assert (Ht2 : t2 !! k = Some (with_lifecycle 0 LifecycleRetired (with_lifecycle 0 LifecycleReleased r)))
    by (unfold t2; by rewrite lookup_alter_eq, Ht1).
  destruct Hm as [m Hm].
  assert (Hup : next (ag_lifecycle r) LifecycleReleased) by (rewrite Hl; done).
  destruct (Transition_alone_served 0 t tenant name version LifecycleReleased gate r)
    as [rec1 Ha1]; [done..|by exists m|done|done|].
  destruct (Transition_alone_served 0 t1 tenant name version LifecycleRetired gate
    (with_lifecycle 0 LifecycleReleased r)) as [rec2 Ha2]; [done..|by exists m|done|done|].
  destruct (Transition_after_read tenant name version gate r) as (f & g & Hf & Hgo); [by exists m|done..|].
  fold k up in Hf, Hgo.
  set (ps1 := <[2 := (down, Ret (Ok rec2))]> (<[1 := (up, Ret (Ok rec1))]>
    (<[0 := (up, f (Ok (Some r)))]> ∅)) : gmap nat _).
  exists t2, ps1, (alter (with_lifecycle 1 LifecycleReleased) k t2), (<[0 := (up, g (Ok tt))]> ps1),
    (with_lifecycle 0 LifecycleRetired (with_lifecycle 0 LifecycleReleased r)),
    (with_lifecycle 1 LifecycleReleased (with_lifecycle 0 LifecycleRetired
       (with_lifecycle 0 LifecycleReleased r))).
  split; [|split; [done|split; [done|split; [|split; [by rewrite lookup_alter_eq, Ht2|done]]]]].
  - (* Process 0 reads; processes 1 and 2 release and retire. *)
    eapply rtc_l; [by apply (pool_spawn _ _ t ∅ 0 up)|]. rewrite Hf.
    eapply rtc_l; [eapply pool_call; [apply lookup_insert_eq|by apply (select_sem t k)]|].
    rewrite insert_insert_eq, Hr.
    etrans; [by apply (spawn_and_run up t _ 1 t1 (Ok rec1))|].
    by apply (spawn_and_run down t1 _ 2 t2 (Ok rec2)).
  - apply rtc_once. eapply pool_call; [unfold ps1; rewrite !lookup_insert_ne by done;
      rewrite lookup_insert_eq, Hgo; reflexivity|]. by apply lifecycle_sem.
Qed.

End agents.

(** ** Witnesses *)

Module AgentWitnesses.
#[local] Existing Instance verbatim_postgres.
#[local] Existing Instance flat_json.

Definition toy_manifest : gomap :=
  Some {["metadata" := AMap {["name" := AString "a"; "version" := AString "1"]}]}.
Definition yes : ReleaseGateDecision := {| Allowed := true; Reason := "" |}.
Definition ops : list (string * agent_op) :=
  [("t", OpCreate toy_manifest "me"); ("t", OpTransition "a" "1" LifecycleCandidate yes);
   ("t", OpTransition "a" "1" LifecycleReleased yes); ("t", OpQuarantine "a" "1" "spend")].
Definition K : akey := ("t", "a", "1").

(** The table after some operations, served without faults at time 0. *)
Definition after (l : list (string * agent_op)) : gmap akey agent_row :=
  foldl (λ t op, (run (aserve 0) t (program op)).1) ∅ l.

Lemma after_served l : served l ∅ (after l).
Proof.
  induction l as [|op l IH] using rev_ind; [constructor|].
  unfold after. rewrite foldl_app. simpl. eapply served_op; [exact IH|].
  apply run_alone. intros w c. apply (aserve_sem 0 w c).
Qed.

Definition released_row : agent_row := default
  {| ag_owner := ""; ag_lifecycle := ""; ag_manifest := JNull : jsonb; ag_created_at := 0;
     ag_updated_at := 0; ag_quarantined := false; ag_reason := None |} (after (take 3 ops) !! K).

Lemma after_three : after (take 3 ops) !! K = Some released_row.
Proof. vm_compute. reflexivity. Qed.

Lemma served_last : served [("t", OpQuarantine "a" "1" "spend")] (after (take 3 ops)) (after ops).
Proof.
  apply (served_op [] _ (after (take 3 ops)) _ _ (run (aserve 0) (after (take 3 ops)) (program ("t", OpQuarantine "a" "1" "spend"))).2);
    [constructor|].
  apply (run_alone _ (aserve 0)). intros w c. apply (aserve_sem 0 w c).
Qed.

Lemma lifecycle_only_advances_witness :
  ∃ n r' n', at_stage released_row n ∧ advanced (take 3 ops) K 0%nat n ∧ (ag_quarantined released_row = true → (2 ≤ n)%nat) ∧
    after ops !! K = Some r' ∧ at_stage r' n' ∧ advanced [("t", OpQuarantine "a" "1" "spend")] K n n'.
Proof.
  apply (lifecycle_only_advances (take 3 ops) [("t", OpQuarantine "a" "1" "spend")]
    (after (take 3 ops)) (after ops) K released_row).
  - apply after_served.
  - apply served_last.
  - apply after_three.
Defined.

Definition candidate_row : agent_row :=
  {| ag_owner := "me"; ag_lifecycle := "Candidate"; ag_manifest := JObject [] : jsonb;
     ag_created_at := 0; ag_updated_at := 0; ag_quarantined := false; ag_reason := None |}.

Lemma concurrent_transition_revives_retired_witness :
  ∃ t1 ps1 t2 ps2 r1 r2,
    rtc (pool_step (λ _ : string * agent_op, asem) program) ({[K := candidate_row]}, ∅) (t1, ps1) ∧
    t1 !! K = Some r1 ∧ ag_lifecycle r1 = LifecycleRetired ∧
    rtc (pool_step (λ _, asem) program) (t1, ps1) (t2, ps2) ∧ t2 !! K = Some r2 ∧
    ag_lifecycle r2 = LifecycleReleased.
Proof.
  apply (concurrent_transition_revives_retired {[K := candidate_row]} "t" "a" "1" yes candidate_row);
    [reflexivity|reflexivity|by eexists|reflexivity|reflexivity].
Defined.

Definition release : string * agent_op := ("t", OpTransition "a" "1" LifecycleReleased yes).
Lemma toy_release : ∃ ps, rtc (pool_step (λ _ : string * agent_op, asem) program)
  ({[K := candidate_row]}, ∅) (alter (with_lifecycle 0 LifecycleReleased) K {[K := candidate_row]}, ps).
Proof.
  destruct (Transition_alone_served 0 {[K := candidate_row]} "t" "a" "1" LifecycleReleased yes candidate_row)
    as [rec Ha]; [done|done|by eexists|done|done|].
  eexists. by apply (spawn_and_run release _ ∅ 0 _ (Ok rec)).
Qed.

Lemma version_is_immutable_witness :
  ∃ r', alter (with_lifecycle 0 LifecycleReleased) K ({[K := candidate_row]} : gmap akey agent_row) !! K = Some r' ∧
    same_version candidate_row r'.
Proof.
  destruct toy_release as [ps Hps].
  apply (version_is_immutable _ _ K candidate_row Hps). reflexivity.
Defined.
End AgentWitnesses.
