(* ===== verification/FinopsLedger.v ===== *)
(** * Package store: the cost ledger

    Models go/internal/store/finops_ledger.go over the table model_gateway_costs:
    a row per priced or unpriced call, what an INSERT accepts (INTEGER columns),
    and the aggregations the dashboard and the budget ceiling read. A query is
    given its rows in the order the database happens to read them: the order of a
    floating point sum is Postgres's, not the program's. Sums of counters are
    exact below 2^32 rows. *)

From Stdlib Require Import SpecFloat.
From S2P Require Import Prelude GoValue Json.

Local Open Scope string_scope.
Set Default Proof Using "Type".

Record CostEntry := {
  Provider : string;
  Model : string;
  CostModel : option string;
  PromptTokens : option Z;
  CompletionTokens : option Z;
  CostUSD : option float64;
  RunID : string;
  AgentManifestRef : string;
  CacheReadTokens : option Z;
  CacheWriteTokens : option Z;
  ReasoningTokens : option Z;
  ProviderRequestID : string;
  IdempotentReplayOf : string;
  ServedModel : string;
  ServedByInstance : string;
  DiscardedReason : string;
}.

(** A row, its serial id left to its place in the table. *)
Record cost_row := {
  cr_provider : string;
  cr_model : string;
  cr_cost_model : option string;
  cr_prompt : option Z;
  cr_completion : option Z;
  cr_cost : option float64;
  cr_run : option string;
  cr_agent : option string;
  cr_cache_read : option Z;
  cr_cache_write : option Z;
  cr_reasoning : option Z;
  cr_request_id : option string;
  cr_replay_of : option string;
  cr_served_model : option string;
  cr_served_by : option string;
  cr_tenant : string;
  cr_discarded : option string;
}.

Definition nullable (v : string) : option string := if sempty v then None else Some v.

(** The row an entry of a tenant becomes. *)
Definition row_of (tenant : string) (e : CostEntry) : cost_row := {|
  cr_provider := Provider e; cr_model := Model e; cr_cost_model := CostModel e;
  cr_prompt := PromptTokens e; cr_completion := CompletionTokens e; cr_cost := CostUSD e;
  cr_run := nullable (RunID e); cr_agent := nullable (AgentManifestRef e);
  cr_cache_read := CacheReadTokens e; cr_cache_write := CacheWriteTokens e;
  cr_reasoning := ReasoningTokens e; cr_request_id := nullable (ProviderRequestID e);
  cr_replay_of := nullable (IdempotentReplayOf e); cr_served_model := nullable (ServedModel e);
  cr_served_by := nullable (ServedByInstance e); cr_tenant := tenant;
  cr_discarded := nullable (DiscardedReason e) |}.

(** ** Recording *)

(** The range of an INTEGER column. *)
Definition int32_or_null (v : option Z) : bool := match v with Some z => in_int32 z | None => true end.

Section ledger.
Context `{Postgres}.

Definition text_or_null (v : option string) : bool := match v with Some s => text_ok s | None => true end.

Definition row_ok (r : cost_row) : bool :=
  forallb int32_or_null [cr_prompt r; cr_completion r; cr_cache_read r; cr_cache_write r; cr_reasoning r] &&
  forallb text_ok [cr_provider r; cr_model r; cr_tenant r] &&
  forallb text_or_null [cr_cost_model r; cr_run r; cr_agent r; cr_request_id r; cr_replay_of r;
                        cr_served_model r; cr_served_by r; cr_discarded r].

(** [FinOpsLedger.Record]: the table with the row appended, or a refused INSERT. *)
Definition Record_ (tenant : string) (e : CostEntry) (table : list cost_row) : option (list cost_row) :=
  if row_ok (row_of tenant e) then Some (table ++ [row_of tenant e])%list else None.
End ledger.

(** ** Aggregates *)

(** coalesce(SUM, 0) of an INTEGER column, and COUNT with a FILTER. *)
Definition sum_of (f : cost_row → option Z) (rows : list cost_row) : Z :=
  zsum (λ r, default 0 (f r))%Z rows.
Definition count_if (p : cost_row → bool) (rows : list cost_row) : Z :=
  zsum (λ r, if p r then 1 else 0)%Z rows.

Definition is_null {A} (v : option A) : bool := match v with None => true | Some _ => false end.
Definition served (r : cost_row) : bool := is_null (cr_discarded r).
Definition unpriced (r : cost_row) : bool := is_null (cr_cost r) && served r.

(** float8pl: an infinite sum of finite terms is an error. *)
Definition float_finite (f : float64) : bool :=
  match f with S754_infinity _ => false | _ => true end.
Definition float8pl (a b : float64) : option float64 :=
  let s := fadd a b in
  if negb (float_finite s) && float_finite a && float_finite b then None else Some s.

(** SUM over a DOUBLE PRECISION column: NULL of no value, the error aside. *)
Definition sum_cost (rows : list cost_row) : option (option float64) :=
  match omap cr_cost rows with
  | [] => Some None
  | c :: cs => s ← foldl (λ acc x, a ← acc; float8pl a x) (Some c) cs; Some (Some s)
  end.

(** count(DISTINCT (provider, model)). *)
Definition distinct_models (rows : list cost_row) : Z :=
  Z.of_nat (length (remove_dups ((λ r, (cr_provider r, cr_model r)) <$> rows))).

(** ** What a run has spent *)

Record RunSpend := {
  rs_CostUSD : float64;
  PricedCalls : Z;
  UnpricedCalls : Z;
  ModelCalls : Z;
  DiscardedCalls : Z;
  DiscardedCostUSD : float64;
  Tokens : Z;
  UnreportedUsageCalls : Z;
  rs_PromptTokens : Z;
  rs_CompletionTokens : Z;
  DistinctModels : Z;
}.

Inductive SpendError := IntegerOutOfRange | FloatOutOfRange | SpendFailed (msg : string).

(** The rows of WHERE tenant_id = $2 AND run_id = $1. *)
Definition run_rows (table : list cost_row) (tenant run : string) : list cost_row :=
  List.filter (λ r, bool_decide (cr_tenant r = tenant) && bool_decide (cr_run r = Some run)) table.

(** coalesce(prompt, 0) + coalesce(completion, 0): an INTEGER, so it may
    overflow, and then the query fails. *)
Definition row_tokens (r : cost_row) : Z := (default 0 (cr_prompt r) + default 0 (cr_completion r))%Z.
Definition tokens_fit (r : cost_row) : bool := in_int32 (row_tokens r).

(** [SpendForRun] over the run's rows. *)
Definition SpendForRun (rows : list cost_row) : result SpendError RunSpend :=
  if negb (forallb tokens_fit rows) then Err IntegerOutOfRange
  else match sum_cost rows, sum_cost (List.filter (λ r, negb (served r)) rows) with
       | Some cost, Some discarded => Ok {|
           rs_CostUSD := default f_zero cost;
           PricedCalls := count_if (λ r, negb (is_null (cr_cost r)) && served r) rows;
           UnpricedCalls := count_if unpriced rows;
           ModelCalls := count_if served rows;
           DiscardedCalls := count_if (λ r, negb (served r)) rows;
           DiscardedCostUSD := default f_zero discarded;
           Tokens := sum_of (λ r, Some (row_tokens r)) rows;
           UnreportedUsageCalls :=
             count_if (λ r, is_null (cr_prompt r) && is_null (cr_completion r) && served r) rows;
           rs_PromptTokens := sum_of cr_prompt rows;
           rs_CompletionTokens := sum_of cr_completion rows;
           DistinctModels := distinct_models rows |}
       | _, _ => Err FloatOutOfRange
       end.

(** ** The dashboard's totals *)

(** What an ORDER BY promises: the rows, sorted; ties and the collation of text
    are the database's. *)
Class SqlOrder := {
  order_by : ∀ {A}, (A → A → bool) → list A → list A;
  order_by_perm : ∀ {A} (lt : A → A → bool) l, order_by lt l ≡ₚ l;
  collate : string → string → bool;
}.

(** sum(cost_usd) DESC NULLS LAST; a NaN is above every other float8. *)
Definition float8_lt (x y : float64) : bool :=
  match x, y with
  | S754_nan, _ => false
  | _, S754_nan => true
  | _, _ => fltb x y
  end.
Definition desc_nulls_last (a b : option float64) : bool :=
  match a, b with
  | Some x, Some y => float8_lt y x
  | Some _, None => true
  | None, _ => false
  end.

Record ModelTotal := {
  mt_Key : string * string * option string;
  mt_CallCount : Z;
  mt_DiscardedCalls : Z;
  mt_TotalCostUSD : option float64;
  mt_UnpricedCalls : Z;
  mt_PromptTokens : Z;
  mt_CompletionTokens : Z;
  mt_CacheReadTokens : Z;
  mt_CacheWriteTokens : Z;
  mt_ReasoningTokens : Z;
}.

Record AttributionTotal := {
  at_Key : option string;
  at_CallCount : Z;
  at_DiscardedCalls : Z;
  at_TotalCostUSD : option float64;
  at_UnpricedCalls : Z;
  at_DistinctModels : Z;
  at_PromptTokens : Z;
  at_CompletionTokens : Z;
}.

Definition model_total (g : (string * string * option string) * list cost_row) : option ModelTotal :=
  cost ← sum_cost g.2;
  Some {| mt_Key := g.1; mt_CallCount := count_if served g.2;
          mt_DiscardedCalls := count_if (λ r, negb (served r)) g.2; mt_TotalCostUSD := cost;
          mt_UnpricedCalls := count_if unpriced g.2; mt_PromptTokens := sum_of cr_prompt g.2;
          mt_CompletionTokens := sum_of cr_completion g.2;
          mt_CacheReadTokens := sum_of cr_cache_read g.2;
          mt_CacheWriteTokens := sum_of cr_cache_write g.2;
          mt_ReasoningTokens := sum_of cr_reasoning g.2 |}.

Definition attribution_total (g : option string * list cost_row) : option AttributionTotal :=
  cost ← sum_cost g.2;
  Some {| at_Key := g.1; at_CallCount := count_if served g.2;
          at_DiscardedCalls := count_if (λ r, negb (served r)) g.2; at_TotalCostUSD := cost;
          at_UnpricedCalls := count_if unpriced g.2; at_DistinctModels := distinct_models g.2;
          at_PromptTokens := sum_of cr_prompt g.2; at_CompletionTokens := sum_of cr_completion g.2 |}.

Section totals.
Context `{SqlOrder}.

(** The aggregations over a tenant's rows; [None] where a float sum overflows. *)
Definition TotalsByModel (rows : list cost_row) : option (list ModelTotal) :=
  totals ← mapM model_total (group_by (λ r, (cr_provider r, cr_model r, cr_cost_model r)) rows);
  Some (order_by (λ a b, desc_nulls_last (mt_TotalCostUSD a) (mt_TotalCostUSD b)) totals).

Definition key_nulls_last (a b : option string) : bool :=
  match a, b with
  | Some x, Some y => collate x y
  | Some _, None => true
  | None, _ => false
  end.
Definition by_cost_then_key (a b : AttributionTotal) : bool :=
  desc_nulls_last (at_TotalCostUSD a) (at_TotalCostUSD b) ||
  (negb (desc_nulls_last (at_TotalCostUSD b) (at_TotalCostUSD a)) && key_nulls_last (at_Key a) (at_Key b)).

Definition totalsByAttribution (column : cost_row → option string) (rows : list cost_row)
  : option (list AttributionTotal) :=
  totals ← mapM attribution_total (group_by column rows);
  Some (order_by by_cost_then_key totals).
Definition TotalsByRun : list cost_row → option (list AttributionTotal) := totalsByAttribution cr_run.
Definition TotalsByAgent : list cost_row → option (list AttributionTotal) := totalsByAttribution cr_agent.
End totals.

(** ** Rows to reconcile *)

Record LedgerRow := {
  lr_Provider : string;
  lr_Model : string;
  lr_PromptTokens : option Z;
  lr_CompletionTokens : option Z;
  lr_CostUSD : option float64;
  lr_ProviderRequestID : string;
  lr_IdempotentReplayOf : string;
  lr_ServedModel : string;
  lr_ServedByInstance : string;
}.
Definition ledger_row (r : cost_row) : LedgerRow := {|
  lr_Provider := cr_provider r; lr_Model := cr_model r; lr_PromptTokens := cr_prompt r;
  lr_CompletionTokens := cr_completion r; lr_CostUSD := cr_cost r;
  lr_ProviderRequestID := default "" (cr_request_id r);
  lr_IdempotentReplayOf := default "" (cr_replay_of r);
  lr_ServedModel := default "" (cr_served_model r);
  lr_ServedByInstance := default "" (cr_served_by r) |}.

(** ORDER BY id DESC LIMIT: the newest rows of the table first. *)
Definition newest (limit dflt : Z) (keep : cost_row → bool) (table : list cost_row) : list LedgerRow :=
  ledger_row <$> take (Z.to_nat (if (limit <=? 0)%Z then dflt else limit)) (List.filter keep (rev table)).

Definition RowsWithProviderRequestID (table : list cost_row) (tenant provider : string) (limit : Z) :=
  newest limit 100 (λ r, bool_decide (cr_tenant r = tenant) && bool_decide (cr_provider r = provider) &&
                         negb (is_null (cr_request_id r))) table.
Definition RowsForModel (table : list cost_row) (tenant provider model : string) (limit : Z) :=
  newest limit 20 (λ r, bool_decide (cr_tenant r = tenant) && bool_decide (cr_provider r = provider) &&
                        bool_decide (cr_model r = model)) table.

Definition tenant_rows (table : list cost_row) (tenant : string) : list cost_row :=
  List.filter (λ r, bool_decide (cr_tenant r = tenant)) table.

(** ** What the aggregates account for *)

Lemma filter_perm {A} (p : A → bool) l k : l ≡ₚ k → List.filter p l ≡ₚ List.filter p k.
Proof.
  induction 1 as [|x l k _ IH|x y l|l k m _ IH1 _ IH2]; simpl; [done|by destruct (p x); rewrite IH| |by rewrite IH1].
  destruct (p x), (p y); try done. apply perm_swap.
Qed.

Lemma count_if_perm p rows rows' : rows ≡ₚ rows' → count_if p rows = count_if p rows'.
Proof. apply zsum_perm. Qed.
Lemma sum_of_perm f rows rows' : rows ≡ₚ rows' → sum_of f rows = sum_of f rows'.
Proof. apply zsum_perm. Qed.

(** A counter summed over the totals is that counter of all the rows. *)
Lemma zsum_totals {K T} `{EqDecision K} (key : cost_row → K) (total : K * list cost_row → option T)
    (field : T → Z) (f : cost_row → Z) rows totals :
  (∀ g t, total g = Some t → field t = zsum f g.2) →
  mapM total (group_by key rows) = Some totals → zsum field totals = zsum f rows.
Proof.
  intros Hf Hm. apply mapM_Some_1 in Hm. rewrite <-(zsum_group_by key f rows).
  induction Hm as [|g t gs ts Hg _ IH]; simpl; [done|]. by rewrite (Hf _ _ Hg), IH.
Qed.

Lemma keys_totals {K T} `{EqDecision K} (key : cost_row → K) (total : K * list cost_row → option T)
    (field : T → K) rows totals :
  (∀ g t, total g = Some t → field t = g.1) →
  mapM total (group_by key rows) = Some totals → NoDup (field <$> totals).
Proof.
  intros Hf Hm. apply mapM_Some_1 in Hm.
  assert (field <$> totals = (group_by key rows).*1) as ->.
  { induction Hm as [|g t gs ts Hg _ IH]; [done|]. csimpl. by rewrite (Hf _ _ Hg), IH. }
  unfold group_by. rewrite <-list_fmap_compose. rewrite (list_fmap_ext _ id), list_fmap_id by done. apply NoDup_remove_dups.
Qed.

(** The two kinds of totals, with the fields they share. *)
Lemma model_total_fields g t : model_total g = Some t →
  mt_Key t = g.1 ∧ mt_CallCount t = count_if served g.2 ∧
  mt_DiscardedCalls t = count_if (λ r, negb (served r)) g.2 ∧
  mt_UnpricedCalls t = count_if unpriced g.2 ∧ mt_PromptTokens t = sum_of cr_prompt g.2 ∧
  mt_CompletionTokens t = sum_of cr_completion g.2.
Proof. unfold model_total. destruct (sum_cost g.2); simpl; [|done]. by intros [= <-]. Qed.

Lemma attribution_total_fields g t : attribution_total g = Some t →
  at_Key t = g.1 ∧ at_CallCount t = count_if served g.2 ∧
  at_DiscardedCalls t = count_if (λ r, negb (served r)) g.2 ∧
  at_UnpricedCalls t = count_if unpriced g.2 ∧ at_PromptTokens t = sum_of cr_prompt g.2 ∧
  at_CompletionTokens t = sum_of cr_completion g.2.
Proof. unfold attribution_total. destruct (sum_cost g.2); simpl; [|done]. by intros [= <-]. Qed.

(** Calls, discarded attempts, unpriced calls and tokens of some rows. *)
Definition counters (rows : list cost_row) : list Z :=
  [count_if served rows; count_if (λ r, negb (served r)) rows; count_if unpriced rows;
   sum_of cr_prompt rows; sum_of cr_completion rows].
Definition model_counters (ts : list ModelTotal) : list Z :=
  [zsum mt_CallCount ts; zsum mt_DiscardedCalls ts; zsum mt_UnpricedCalls ts;
   zsum mt_PromptTokens ts; zsum mt_CompletionTokens ts].
Definition attribution_counters (ts : list AttributionTotal) : list Z :=
  [zsum at_CallCount ts; zsum at_DiscardedCalls ts; zsum at_UnpricedCalls ts;
   zsum at_PromptTokens ts; zsum at_CompletionTokens ts].

Lemma counters_perm rows rows' : rows ≡ₚ rows' → counters rows = counters rows'.
Proof. intros Hp. unfold counters. by rewrite !(count_if_perm _ _ _ Hp), !(sum_of_perm _ _ _ Hp). Qed.

Section accounting.
Context `{SqlOrder}.

Lemma TotalsByModel_spec rows ts :
  TotalsByModel rows = Some ts →
  ∃ ts', mapM model_total (group_by (λ r, (cr_provider r, cr_model r, cr_cost_model r)) rows) = Some ts' ∧
    ts ≡ₚ ts'.
Proof.
  unfold TotalsByModel. destruct (mapM _ _) as [ts'|]; simpl; [|done]. intros [= <-].
  exists ts'. split; [done|]. apply order_by_perm.
Qed.

Lemma totalsByAttribution_spec column rows ts :
  totalsByAttribution column rows = Some ts →
  ∃ ts', mapM attribution_total (group_by column rows) = Some ts' ∧ ts ≡ₚ ts'.
Proof.
  unfold totalsByAttribution. destruct (mapM _ _) as [ts'|]; simpl; [|done]. intros [= <-].
  exists ts'. split; [done|]. apply order_by_perm.
Qed.

Lemma model_counters_spec rows ts :
  TotalsByModel rows = Some ts → model_counters ts = counters rows ∧ NoDup (mt_Key <$> ts).
Proof.
  intros (ts' & Hm & Hp)%TotalsByModel_spec. split.
  - unfold model_counters. rewrite !(zsum_perm _ _ _ Hp). unfold counters.
    do 4 (f_equal; [eapply zsum_totals; [|exact Hm]; by intros g t ?%model_total_fields; destruct_and?|]).
    f_equal. eapply zsum_totals; [|exact Hm]. by intros g t ?%model_total_fields; destruct_and?.
  - rewrite Hp. eapply keys_totals; [|exact Hm]. by intros g t ?%model_total_fields; destruct_and?.
Qed.

Lemma attribution_counters_spec column rows ts :
  totalsByAttribution column rows = Some ts →
  attribution_counters ts = counters rows ∧ NoDup (at_Key <$> ts).
Proof.
  intros (ts' & Hm & Hp)%totalsByAttribution_spec. split.
  - unfold attribution_counters. rewrite !(zsum_perm _ _ _ Hp). unfold counters.
    do 4 (f_equal; [eapply zsum_totals; [|exact Hm]; by intros g t ?%attribution_total_fields; destruct_and?|]).
    f_equal. eapply zsum_totals; [|exact Hm]. by intros g t ?%attribution_total_fields; destruct_and?.
  - rewrite Hp. eapply keys_totals; [|exact Hm]. by intros g t ?%attribution_total_fields; destruct_and?.
Qed.

(** The dashboard's three tables account for the same money trail: however the
    database reads the rows, the totals by model, by run and by agent each list a
    key once, and each adds up to the same calls, discarded attempts, unpriced
    calls and tokens, those of the tenant's rows; a call with no run or no agent
    is in the unattributed group and not left out. *)
Theorem totals_account_for_every_row rows rows1 rows2 rows3 byModel byRun byAgent :
  rows1 ≡ₚ rows → rows2 ≡ₚ rows → rows3 ≡ₚ rows →
  TotalsByModel rows1 = Some byModel → TotalsByRun rows2 = Some byRun → TotalsByAgent rows3 = Some byAgent →
  model_counters byModel = counters rows ∧ attribution_counters byRun = counters rows ∧
  attribution_counters byAgent = counters rows ∧
  NoDup (mt_Key <$> byModel) ∧ NoDup (at_Key <$> byRun) ∧ NoDup (at_Key <$> byAgent).
Proof.
  intros H1 H2 H3 HM HR HA. apply model_counters_spec in HM as [Hm Hm'].
  apply (attribution_counters_spec cr_run) in HR as [Hr Hr'].
  apply (attribution_counters_spec cr_agent) in HA as [Ha Ha'].
  rewrite Hm, Hr, Ha, (counters_perm _ _ H1), (counters_perm _ _ H2), (counters_perm _ _ H3). auto 10.
Qed.
End accounting.

(** ** What a run has spent *)

Lemma SpendForRun_ok rows s :
  SpendForRun rows = Ok s →
  forallb tokens_fit rows = true ∧
  ModelCalls s = count_if served rows ∧ DiscardedCalls s = count_if (λ r, negb (served r)) rows ∧
  UnpricedCalls s = count_if unpriced rows ∧
  PricedCalls s = count_if (λ r, negb (is_null (cr_cost r)) && served r) rows ∧
  Tokens s = sum_of (λ r, Some (row_tokens r)) rows ∧
  rs_PromptTokens s = sum_of cr_prompt rows ∧ rs_CompletionTokens s = sum_of cr_completion rows.
Proof.
  unfold SpendForRun. destruct (forallb tokens_fit rows); [|done].
  cbn [negb]. destruct (sum_cost rows); [|done].
  destruct (sum_cost (List.filter (λ r, negb (served r)) rows)); [|done]. intros [= <-].
  by repeat split.
Qed.

Lemma count_if_add p q rows :
  (count_if p rows + count_if q rows)%Z =
  zsum (λ r, (if p r then 1 else 0) + (if q r then 1 else 0))%Z rows.
Proof. unfold count_if. by rewrite <-zsum_add. Qed.

Lemma filter_filter_and {A} (p q : A → bool) l :
  List.filter p (List.filter q l) = List.filter (λ x, q x && p x) l.
Proof. induction l as [|x l IH]; simpl; [done|]. destruct (q x); simpl; [destruct (p x)|]; by rewrite IH. Qed.

Lemma group_by_lookup {A K} `{EqDecision K} (key : A → K) rows k :
  List.filter (λ r, bool_decide (key r = k)) rows ≠ [] →
  (k, List.filter (λ r, bool_decide (key r = k)) rows) ∈ group_by key rows.
Proof.
  intros Hne. unfold group_by. apply list_elem_of_fmap. exists k. split; [done|].
  apply elem_of_remove_dups. destruct (List.filter _ rows) as [|r l] eqn:Hf; [done|].
  assert (Hin : r ∈ List.filter (λ r, bool_decide (key r = k)) rows) by (rewrite Hf; left).
  apply list_elem_of_In, filter_In in Hin as [Hin Hk]. bools. subst.
  apply list_elem_of_fmap_2. by apply list_elem_of_In.
Qed.

Section spend.
Context `{SqlOrder}.

(** The number the ceiling enforces is the number the dashboard shows: for a
    run with recorded calls, [SpendForRun] and the one line of [TotalsByRun] for
    it report the same calls, discarded attempts, unpriced calls and tokens,
    however the two queries read the table; priced and unpriced calls add up to
    the served ones, and the token ceiling's figure is prompt plus completion. *)
Theorem enforced_spend_is_the_shown_one table tenant run rows1 rows2 s ts :
  rows1 ≡ₚ run_rows table tenant run → rows2 ≡ₚ tenant_rows table tenant →
  run_rows table tenant run ≠ [] →
  SpendForRun rows1 = Ok s → TotalsByRun rows2 = Some ts →
  ∃ t, t ∈ ts ∧ at_Key t = Some run ∧ (∀ t', t' ∈ ts → at_Key t' = Some run → t' = t) ∧
    at_CallCount t = ModelCalls s ∧ at_DiscardedCalls t = DiscardedCalls s ∧
    at_UnpricedCalls t = UnpricedCalls s ∧ at_PromptTokens t = rs_PromptTokens s ∧
    at_CompletionTokens t = rs_CompletionTokens s ∧
    (PricedCalls s + UnpricedCalls s = ModelCalls s)%Z ∧
    (rs_PromptTokens s + rs_CompletionTokens s = Tokens s)%Z.
Proof.
  intros Hp1 Hp2 Hne Hs HT.
  pose proof (attribution_counters_spec cr_run _ _ HT) as [_ Hnd].
  apply SpendForRun_ok in Hs as (_ & Hmc & Hdc & Huc & Hpc & Htk & Hpt & Hct).
  apply (totalsByAttribution_spec cr_run) in HT as (ts' & Hm & Hts).
  assert (Hgroup : List.filter (λ r, bool_decide (cr_run r = Some run)) rows2 ≡ₚ rows1).
  { rewrite (filter_perm _ _ _ Hp2), Hp1. unfold tenant_rows, run_rows. by rewrite filter_filter_and. }
  assert (Hin : (Some run, List.filter (λ r, bool_decide (cr_run r = Some run)) rows2) ∈ group_by cr_run rows2).
  { apply group_by_lookup. intros Hnil. rewrite Hnil, Hp1 in Hgroup. by apply Permutation_nil_l in Hgroup. }
  apply mapM_Some_1 in Hm. apply list_elem_of_lookup_1 in Hin as [i Hi].
  destruct (Forall2_lookup_l _ _ _ _ _ Hm Hi) as (t & Ht & Hft).
  apply attribution_total_fields in Hft as (Hk & ? & ? & ? & ? & ?). simpl in *.
  assert (Hint : t ∈ ts) by (rewrite Hts; by eapply list_elem_of_lookup_2).
  exists t. rewrite Hmc, Hdc, Huc, Hpc, Htk, Hpt, Hct, <-!(count_if_perm _ _ _ Hgroup), <-!(sum_of_perm _ _ _ Hgroup).
  split; [done|]. split; [done|]. split; [|do 5 (split; [done|])].
  - intros t' Ht' Hk'. eapply (NoDup_fmap_eq at_Key); eauto. congruence.
  - split.
    + rewrite count_if_add. apply zsum_ext. intros r _. unfold unpriced. by destruct (is_null _), (served r).
    + unfold sum_of. rewrite <-zsum_add. by apply zsum_ext.
Qed.
End spend.

(** ** Recording changes one run of one tenant *)

Section record.
Context `{Postgres}.

Lemma run_rows_app table table' tenant run :
  run_rows (table ++ table') tenant run = (run_rows table tenant run ++ run_rows table' tenant run)%list.
Proof. apply List.filter_app. Qed.

Lemma Record_run_rows tenant e table table' t run :
  Record_ tenant e table = Some table' →
  run_rows table' t run = (run_rows table t run ++
    if bool_decide (tenant = t) && bool_decide (nullable (RunID e) = Some run)
    then [row_of tenant e] else [])%list.
Proof.
  unfold Record_. destruct (row_ok _); [|done]. intros [= <-]. rewrite run_rows_app.
  f_equal.
Qed.

(** Other tenants and other runs see the table they saw. *)
Lemma Record_elsewhere tenant e table table' t run :
  Record_ tenant e table = Some table' → tenant ≠ t ∨ nullable (RunID e) ≠ Some run →
  run_rows table' t run = run_rows table t run.
Proof.
  intros Hr Hne. rewrite (Record_run_rows _ _ _ _ _ _ Hr).
  assert (bool_decide (tenant = t) && bool_decide (nullable (RunID e) = Some run) = false) as ->.
  { apply andb_false_iff. rewrite !bool_decide_eq_false. tauto. }
  by rewrite app_nil_r.
Qed.

(** One row whose two counters do not fit an INTEGER together makes every later
    query of its run fail. *)
Lemma overflow_blocks table tenant run r rows :
  r ∈ run_rows table tenant run → tokens_fit r = false → rows ≡ₚ run_rows table tenant run →
  SpendForRun rows = Err IntegerOutOfRange.
Proof.
  intros Hin Hfit Hp. unfold SpendForRun.
  assert (forallb tokens_fit rows = false) as ->; [|done].
  apply not_true_iff_false. rewrite forallb_forall. intros Hall.
  rewrite <-Hp in Hin. apply list_elem_of_In in Hin. by rewrite (Hall r Hin) in Hfit.
Qed.

Lemma row_stays tenant e table table' t run r :
  Record_ tenant e table = Some table' → r ∈ run_rows table t run → r ∈ run_rows table' t run.
Proof. intros Hr Hin. rewrite (Record_run_rows _ _ _ _ _ _ Hr). apply elem_of_app. by left. Qed.
End record.

(** ** Witnesses *)

Module LedgerWitnesses.
#[local] Existing Instance verbatim_postgres.

Definition sorted_sql : SqlOrder := {|
  order_by A lt l := insertion_sort lt l;
  order_by_perm A lt l := insertion_sort_perm lt l;
  collate := str_ltb |}.
#[local] Existing Instance sorted_sql.

Definition entry (model run reason : string) (p c : Z) (usd : option float64) : CostEntry := {|
  Provider := "openai"; Model := model; CostModel := Some "token_based"; PromptTokens := Some p;
  CompletionTokens := Some c; CostUSD := usd; RunID := run; AgentManifestRef := "a@1";
  CacheReadTokens := None; CacheWriteTokens := None; ReasoningTokens := None;
  ProviderRequestID := ""; IdempotentReplayOf := ""; ServedModel := ""; ServedByInstance := "";
  DiscardedReason := reason |}.

(** Four calls of two runs and one of no run; one of them discarded, one unpriced. *)
Definition toy_table : list cost_row :=
  [row_of "t" (entry "m" "r" "" 10 20 (Some (f_const 1 4))); row_of "t" (entry "m" "r" "empty" 7 1 None);
   row_of "t" (entry "n" "r" "" 5 5 None); row_of "t" (entry "m" "" "" 2 3 (Some (f_const 1 2)))].

Definition toy_by_model : list ModelTotal := default [] (TotalsByModel toy_table).
Definition toy_by_run : list AttributionTotal := default [] (TotalsByRun toy_table).
Definition toy_by_agent : list AttributionTotal := default [] (TotalsByAgent toy_table).
Lemma toy_totals : TotalsByModel toy_table = Some toy_by_model ∧ TotalsByRun toy_table = Some toy_by_run ∧
  TotalsByAgent toy_table = Some toy_by_agent.
Proof. by vm_compute. Qed.

Lemma totals_account_for_every_row_witness :
  model_counters toy_by_model = [3; 1; 1; 24; 29]%Z ∧ attribution_counters toy_by_run = [3; 1; 1; 24; 29]%Z ∧
  attribution_counters toy_by_agent = [3; 1; 1; 24; 29]%Z.
Proof.
  destruct toy_totals as (Hm & Hr & Ha).
  destruct (totals_account_for_every_row toy_table _ _ _ _ _ _
    (Permutation_refl _) (Permutation_refl _) (Permutation_refl _) Hm Hr Ha) as (H1 & H2 & H3 & _).
  auto.
Defined.

Definition toy_spend : result SpendError RunSpend := SpendForRun (run_rows toy_table "t" "r").
Definition zero_spend : RunSpend :=
  {| rs_CostUSD := f_zero; PricedCalls := 0; UnpricedCalls := 0; ModelCalls := 0; DiscardedCalls := 0;
     DiscardedCostUSD := f_zero; Tokens := 0; UnreportedUsageCalls := 0; rs_PromptTokens := 0;
     rs_CompletionTokens := 0; DistinctModels := 0 |}.
Definition toy_run_spend : RunSpend := match toy_spend with Ok s => s | Err _ => zero_spend end.
Lemma toy_spend_ok : SpendForRun (run_rows toy_table "t" "r") = Ok toy_run_spend.
Proof. by vm_compute. Qed.
Lemma toy_run_rows : run_rows toy_table "t" "r" ≠ [].
Proof. by vm_compute. Qed.

Lemma enforced_spend_is_the_shown_one_witness :
  ∃ t, t ∈ toy_by_run ∧ at_Key t = Some "r" ∧ at_CallCount t = ModelCalls toy_run_spend.
Proof.
  destruct toy_totals as (_ & Hr & _).
  destruct (enforced_spend_is_the_shown_one toy_table "t" "r" _ toy_table _ _
    (Permutation_refl _) (Permutation_refl _) toy_run_rows toy_spend_ok Hr)
    as (t & Hin & Hk & _ & Hc & _).
  exists t. auto.
Defined.
End LedgerWitnesses.
