(* ===== verification/ToolCalls.v ===== *)
(** * What the tool gateway calls: tables, tools and logs

    The data of go/internal/toolexec/executor.go and of the tables
    tool_executions and tool_invocations (go/internal/store), the statements the
    store sends as functions on the tables, and the calls a handler makes with
    what each may reply. Every statement may fail, before or after it took effect;
    a tool may do anything. *)

From S2P Require Import Prelude GoValue Json Checkpoint CheckpointStore Program.

Local Open Scope string_scope.
Set Default Proof Using "Type*".

(** ** Package toolexec: an invocation and its record *)

Definition DoorHTTP : string := "http".
Definition DoorHTTPDedupe : string := "http-dedupe".
Definition DoorMCP : string := "mcp".

Record Invocation := {
  inv_Tenant : string;
  inv_ToolName : string;
  inv_Args : gomap;
  inv_RunID : string;
  inv_StepID : string;
  inv_AgentManifestRef : string;
  inv_Door : string;
}.

Definition OutcomeOK : string := "ok".
Definition OutcomeError : string := "error".
Definition OutcomeDenied : string := "denied".
Definition OutcomeReplayed : string := "replayed".

Record InvocationRecord := {
  ir_Tenant : string;
  ir_ToolName : string;
  ir_Door : string;
  ir_Outcome : string;
  ir_ErrorMessage : string;
  ir_RunID : string;
  ir_StepID : string;
  ir_AgentManifestRef : string;
  ir_DurationMS : option Z;
  ir_Disposition : string;
  ir_PolicyID : string;
}.

(** ** The table tool_invocations *)

Record invocation_row := {
  ti_tenant : string;
  ti_tool_name : string;
  ti_door : string;
  ti_outcome : string;
  ti_error_message : option string;
  ti_run_id : string;
  ti_step_id : string;
  ti_agent_manifest_ref : string;
  ti_duration_ms : option Z;
  ti_disposition : string;
  ti_policy_id : string;
}.

(** The table's CHECK constraints (migrations 0004 and 0005). *)
Definition invocation_row_valid (r : invocation_row) : bool :=
  (String.eqb (ti_outcome r) "ok" || String.eqb (ti_outcome r) "error" ||
   String.eqb (ti_outcome r) "denied" || String.eqb (ti_outcome r) "replayed") &&
  Bool.eqb (String.eqb (ti_outcome r) "error") (bool_decide (is_Some (ti_error_message r))) &&
  Bool.eqb (String.eqb (ti_outcome r) "denied") (negb (sempty (ti_disposition r))).

(** ** The table tool_executions *)

Inductive exec_state := InFlight | Completed_ | Released.

(** The primary key: tenant and idempotency key. *)
Abbreviation ekey := (string * string)%type.

Section tables.
Context `{Postgres}.

Record exec_row := {
  ex_tool : string;
  ex_agent : string;
  ex_args : option jsonb;
  ex_result : option jsonb;
  ex_state : exec_state;
  ex_failed : Z;
}.

Abbreviation etable := (gmap ekey exec_row).

(** INSERT ... ON CONFLICT DO NOTHING RETURNING true: whether a row came back. *)
Definition sql_claim (t : etable) (tenant key tool agent : string) (args : json)
  : option (etable * bool) :=
  if text_ok tenant && text_ok key && text_ok tool && text_ok agent then
    args' ← to_jsonb args;
    Some (match t !! (tenant, key) with
          | Some _ => (t, false)
          | None => (<[(tenant, key) := {| ex_tool := tool; ex_agent := agent; ex_args := Some args';
                                           ex_result := None; ex_state := InFlight;
                                           ex_failed := 0 |}]> t, true)
          end)
  else None.

(** The columns of the SELECT: result, state, whether the arguments are the same,
    failed attempts. No row is an error to the code. *)
Record exec_view := {
  view_result : option jsonb; view_state : exec_state; view_same : bool; view_failed : Z }.

Definition sql_read (t : etable) (tenant key : string) (args : json) : option (etable * exec_view) :=
  if text_ok tenant && text_ok key then
    args' ← to_jsonb args;
    r ← t !! (tenant, key);
    Some (t, {| view_result := ex_result r; view_state := ex_state r;
                view_same := bool_decide (ex_args r = Some args'); view_failed := ex_failed r |})
  else None.

Definition with_state (r : exec_row) (s : exec_state) (res : option jsonb) (failed : Z) : exec_row :=
  {| ex_tool := ex_tool r; ex_agent := ex_agent r; ex_args := ex_args r; ex_result := res;
     ex_state := s; ex_failed := failed |}.

(** UPDATE ... WHERE state = 'released' RETURNING true. *)
Definition sql_reclaim (t : etable) (tenant key : string) : option (etable * bool) :=
  if text_ok tenant && text_ok key then
    Some (match t !! (tenant, key) with
          | Some r => match ex_state r with
                      | Released => (<[(tenant, key) := with_state r InFlight (ex_result r) (ex_failed r)]> t, true)
                      | _ => (t, false)
                      end
          | None => (t, false)
          end)
  else None.

Definition sql_complete (t : etable) (tenant key : string) (res : json) : option (etable * ()) :=
  if text_ok tenant && text_ok key then
    res' ← to_jsonb res;
    Some (match t !! (tenant, key) with
          | Some r => <[(tenant, key) := with_state r Completed_ (Some res') (ex_failed r)]> t
          | None => t
          end, tt)
  else None.

(** failed_attempts is an INTEGER: the statement fails where it would overflow. *)
Definition int32_max : Z := 2 ^ 31 - 1.
Definition sql_release (t : etable) (tenant key : string) : option (etable * ()) :=
  if text_ok tenant && text_ok key then
    match t !! (tenant, key) with
    | Some r => if (ex_failed r <? int32_max)%Z
                then Some (<[(tenant, key) := with_state r Released None (ex_failed r + 1)]> t, tt)
                else None
    | None => Some (t, tt)
    end
  else None.

(** ** Calls and replies *)

Inductive call :=
| CClaim (tenant key tool agent : string) (args : json)
| CRead (tenant key : string) (args : json)
| CReclaim (tenant key : string)
| CComplete (tenant key : string) (res : json)
| CRelease (tenant key : string)
| CTool (tenant tool : string) (args : gomap)
| CInvocation (r : invocation_row)
| CAppend (tenant : string) (e : Entry).

Record tool_reply := { tr_result : gomap; tr_err : option string; tr_ms : Z }.

Definition reply (c : call) : Type :=
  match c with
  | CClaim _ _ _ _ _ => result string bool
  | CRead _ _ _ => result string exec_view
  | CReclaim _ _ => result string bool
  | CComplete _ _ _ => result string ()
  | CRelease _ _ => result string ()
  | CTool _ _ _ => tool_reply
  | CInvocation _ => option string
  | CAppend _ _ => result AppendError AppendResult
  end.

(** A tool's function was run; [ev_key] is the idempotency key of the request. *)
Record event := {
  ev_key : option ekey; ev_tenant : string; ev_tool : string; ev_args : gomap;
  ev_result : gomap; ev_err : option string;
}.

Record world := {
  executions : etable;
  journal : gmap ckey row;
  invocations : list invocation_row;
  effects : list event;
}.
Definition put_executions (w : world) (t : etable) : world :=
  {| executions := t; journal := journal w; invocations := invocations w; effects := effects w |}.

(** A statement: done and answered, done and the answer lost, or not done. *)
Definition statement {A} (w : world) (stmt : option (etable * A)) (r : result string A) (w' : world)
  : Prop :=
  (∃ t a, stmt = Some (t, a) ∧ w' = put_executions w t ∧ (r = Ok a ∨ ∃ e, r = Err e)) ∨
  (w' = w ∧ ∃ e, r = Err e).

(** What a call may reply and do; [key] is the caller's idempotency key. *)
Definition sem (key : option ekey) (w : world) (c : call) : reply c → world → Prop :=
  match c with
  | CClaim tenant k tool agent args => statement w (sql_claim (executions w) tenant k tool agent args)
  | CRead tenant k args => statement w (sql_read (executions w) tenant k args)
  | CReclaim tenant k => statement w (sql_reclaim (executions w) tenant k)
  | CComplete tenant k res => statement w (sql_complete (executions w) tenant k res)
  | CRelease tenant k => statement w (sql_release (executions w) tenant k)
  | CTool tenant tool args => λ r w',
      w' = {| executions := executions w; journal := journal w; invocations := invocations w;
              effects := effects w ++ [{| ev_key := key; ev_tenant := tenant; ev_tool := tool;
                                          ev_args := args; ev_result := tr_result r;
                                          ev_err := tr_err r |}] |}
  | CInvocation row => λ r w',
      (w' = w ∧ is_Some r) ∨
      (invocation_row_valid row = true ∧
       w' = {| executions := executions w; journal := journal w;
               invocations := invocations w ++ [row]; effects := effects w |})
  | CAppend tenant e => λ r w', ∃ now f j,
      Append tenant now f e (journal w) = (j, r) ∧
      w' = {| executions := executions w; journal := j; invocations := invocations w;
              effects := effects w |}
  end%list.
End tables.

Abbreviation etable := (gmap ekey exec_row).
(** A program of such calls. *)
Abbreviation M := (prog reply).
