(* ===== verification/ToolExec.v ===== *)
(** * Package toolexec: the executor

    Models go/internal/toolexec/executor.go and the recorder that files its
    records (go/internal/api/tool_invocation_recorder.go,
    go/internal/store/tool_invocations.go). A registered tool is code of its own
    behind [ExecuteFunc]: running it is a call that may answer anything. *)

From S2P Require Import Prelude GoValue Json Checkpoint CheckpointStore Program ToolCalls.

Local Open Scope string_scope.
Set Default Proof Using "Type*".

Section executor.
Context `{Postgres}.

(** [Recorder]: files a record, or says why it could not. *)
Definition Recorder : Type := InvocationRecord → M (option string).

(** The registered names, and the recorder if there is one. *)
Record Executor := { fns : gset string; recorder : option Recorder }.

Record Outcome := { Result : gomap; Recorded : bool; RecordErr : option string }.
Definition no_outcome : Outcome := {| Result := None; Recorded := false; RecordErr := None |}.

Definition NewExecutor : Executor := {| fns := ∅; recorder := None |}.
Definition WithRecorder (e : Executor) (r : Recorder) : Executor := {| fns := fns e; recorder := Some r |}.
Definition Register (e : Executor) (toolName : string) : Executor :=
  {| fns := {[toolName]} ∪ fns e; recorder := recorder e |}.
Definition Knows (e : Executor) (toolName : string) : bool := bool_decide (toolName ∈ fns e).

Definition record (e : Executor) (rec : InvocationRecord) : M Outcome :=
  match recorder e with
  | None => mret no_outcome
  | Some recorder =>
      err ← recorder rec;
      mret (match err with
            | Some msg => {| Result := None; Recorded := false; RecordErr := Some msg |}
            | None => {| Result := None; Recorded := true; RecordErr := None |}
            end)
  end.

(** The record of an invocation with an outcome. *)
Definition record_for (inv : Invocation) (outcome errorMessage : string) (ms : option Z)
    (disposition policyID : string) : InvocationRecord :=
  {| ir_Tenant := inv_Tenant inv; ir_ToolName := inv_ToolName inv; ir_Door := inv_Door inv;
     ir_Outcome := outcome; ir_ErrorMessage := errorMessage; ir_RunID := inv_RunID inv;
     ir_StepID := inv_StepID inv; ir_AgentManifestRef := inv_AgentManifestRef inv;
     ir_DurationMS := ms; ir_Disposition := disposition; ir_PolicyID := policyID |}.

Definition unknown_tool (toolName : string) : string := "toolexec: unknown tool " +:+ toolName.

(** The outcome and the error, both of which the code returns. *)
Definition Execute (e : Executor) (inv : Invocation) : M (Outcome * option string) :=
  if negb (Knows e (inv_ToolName inv)) then mret (no_outcome, Some (unknown_tool (inv_ToolName inv)))
  else
    r ← ask (CTool (inv_Tenant inv) (inv_ToolName inv) (inv_Args inv));
    match recorder e with
    | None => mret ({| Result := tr_result r; Recorded := false; RecordErr := None |}, tr_err r)
    | Some _ =>
        written ← record e (match tr_err r with
                            | Some msg => record_for inv OutcomeError msg (Some (tr_ms r)) "" ""
                            | None => record_for inv OutcomeOK "" (Some (tr_ms r)) "" ""
                            end);
        mret ({| Result := tr_result r; Recorded := Recorded written;
                 RecordErr := RecordErr written |}, tr_err r)
    end.

Definition RecordRefusal (e : Executor) (inv : Invocation) (disposition policyID : string) : M Outcome :=
  record e (record_for inv OutcomeDenied "" None disposition policyID).

Definition RecordReplay (e : Executor) (inv : Invocation) (policyID : string) : M Outcome :=
  record e (record_for inv OutcomeReplayed "" None "" policyID).

(** ** Filing the record *)

Definition empty_error : string := "(the executor returned an error with an empty message)".

(** [store.ToolInvocations.Record]. *)
Definition ToolInvocations_Record (tenant : string) (inv : InvocationRecord) : M (option string) :=
  ask (CInvocation
    {| ti_tenant := tenant; ti_tool_name := ir_ToolName inv; ti_door := ir_Door inv;
       ti_outcome := ir_Outcome inv;
       ti_error_message :=
         if String.eqb (ir_Outcome inv) OutcomeError
         then Some (if sempty (ir_ErrorMessage inv) then empty_error else ir_ErrorMessage inv)
         else None;
       ti_run_id := ir_RunID inv; ti_step_id := ir_StepID inv;
       ti_agent_manifest_ref := ir_AgentManifestRef inv; ti_duration_ms := ir_DurationMS inv;
       ti_disposition := ir_Disposition inv; ti_policy_id := ir_PolicyID inv |}).

Definition ToolInvocationRecorder (defaultTenant : string) : Recorder := λ rec,
  let filedUnder := if sempty (ir_Tenant rec) then defaultTenant else ir_Tenant rec in
  ToolInvocations_Record filedUnder rec.
End executor.

(** ** Results forwarded from an MCP server *)

Definition ForwardedContentKey : string := "aeon.mcp.content".
Definition ForwardedStructuredKey : string := "aeon.mcp.structured_content".

Definition ForwardedResult (content : list any) (structured : any) : gmap string any :=
  let out := {[ForwardedContentKey := AList content]} in
  if is_nil structured then out else <[ForwardedStructuredKey := structured]> out.

Definition ForwardedFrom (result : gmap string any) : option (list any * any) :=
  match result !! ForwardedContentKey with
  | None => None
  | Some raw => Some (as_list raw, mget result ForwardedStructuredKey)
  end.

(** What a federated tool answered is read back exactly as it was forwarded,
    and a result that was not forwarded is never taken for one. *)
Theorem Forwarded_roundtrip content structured result :
  ForwardedFrom (ForwardedResult content structured) = Some (content, structured) ∧
  (ForwardedFrom result = None ↔ result !! ForwardedContentKey = None).
Proof.
  split.
  - unfold ForwardedFrom, ForwardedResult, mget. destruct (is_nil structured) eqn:Hn.
    + destruct structured; done.
    + rewrite lookup_insert_ne, lookup_singleton_eq, lookup_insert_eq by done. done.
  - unfold ForwardedFrom. by destruct (result !! ForwardedContentKey).
Qed.

(** ** The records an executor writes *)

Section records.
Context `{Postgres}.

(** Every record the executor files satisfies the table's constraints: an
    error message exactly on errors, a disposition exactly on refusals. So a
    refused tool call, a replay, and an execution whatever its result are always
    storable, provided a refusal names its disposition. *)
Theorem invocation_rows_valid (e : Executor) inv tenant disposition policyID row :
  recorder e = Some (ToolInvocationRecorder tenant) → disposition ≠ "" →
  emits (Execute e inv) (CInvocation row) ∨
  emits (RecordRefusal e inv disposition policyID) (CInvocation row) ∨
  emits (RecordReplay e inv policyID) (CInvocation row) →
  invocation_row_valid row = true ∧ ti_tool_name row = inv_ToolName inv ∧
  ti_tenant row = (if sempty (inv_Tenant inv) then tenant else inv_Tenant inv).
Proof.
  intros Hr Hd. apply sempty_false in Hd.
  unfold Execute, RecordRefusal, RecordReplay, record. rewrite Hr.
  intros [He|[He|He]].
  - destruct (negb _); [done|]. simpl in He. destruct He as [[=]|[r He]].
    destruct (tr_err r); simpl in He; destruct He as [[= ->]|[? []]]; simpl; auto.
  - simpl in He. destruct He as [[= ->]|[? []]]. simpl. unfold invocation_row_valid; simpl.
    by rewrite Hd.
  - simpl in He. by destruct He as [[= ->]|[? []]].
Qed.
End records.
