(* ===== verification/ToolExecutions.v ===== *)
(** * Package store: the execution claims of the tool gateway

    Models go/internal/store/tool_executions.go: [Claim] as up to three
    statements, between which other processes run, [Complete] and [Release]. *)

From S2P Require Import Prelude GoValue Json Checkpoint CheckpointStore Program ToolCalls.

Local Open Scope string_scope.
Set Default Proof Using "Type*".

Section executions.
Context `{Postgres, GoJson}.

Record ClaimResult := {
  ClaimCompleted : option json;
  Claimed : bool;
  ArgsDiverged : bool;
  FailedAttempts : Z;
}.
Definition no_claim : ClaimResult :=
  {| ClaimCompleted := None; Claimed := false; ArgsDiverged := false; FailedAttempts := 0 |}.

Inductive ClaimError :=
| KeyRequired
| EncodingArgs
| ClaimingKey (msg : string)
| ReadingExecution (msg : string)
| ReclaimingKey (msg : string)
| ErrExecutionInFlight.

(** Both results, as the code returns them: a claim may come with an error. *)
Definition Claim (tenant key toolName agentRef : string) (args : gomap)
  : M (ClaimResult * option ClaimError) :=
  if sempty key then mret (no_claim, Some KeyRequired) else
  match marshal_map args with
  | None => mret (no_claim, Some EncodingArgs)
  | Some encodedArgs =>
  inserted ← ask (CClaim tenant key toolName agentRef encodedArgs);
  match inserted with
  | Err msg => mret (no_claim, Some (ClaimingKey msg))
  | Ok true =>
      mret ({| ClaimCompleted := None; Claimed := true; ArgsDiverged := false; FailedAttempts := 0 |}, None)
  | Ok false =>
  read ← ask (CRead tenant key encodedArgs);
  match read with
  | Err msg => mret (no_claim, Some (ReadingExecution msg))
  | Ok view =>
      let out claimed completed :=
        {| ClaimCompleted := completed; Claimed := claimed; ArgsDiverged := negb (view_same view);
           FailedAttempts := view_failed view |} in
      match view_state view with
      | Completed_ => mret (out false (jsonb_out <$> view_result view), None)
      | Released =>
          reclaimed ← ask (CReclaim tenant key);
          match reclaimed with
          | Ok false => mret (out false None, Some ErrExecutionInFlight)
          | Err msg => mret (no_claim, Some (ReclaimingKey msg))
          | Ok true => mret (out true None, None)
          end
      | InFlight => mret (out false None, Some ErrExecutionInFlight)
      end
  end end end.

Definition Complete (tenant key : string) (result : gomap) : M (option string) :=
  match marshal_map result with
  | None => mret (Some "store: encoding tool result")
  | Some encoded =>
      r ← ask (CComplete tenant key encoded);
      mret (match r with Ok _ => None | Err msg => Some msg end)
  end.

Definition Release (tenant key : string) : M (option string) :=
  r ← ask (CRelease tenant key);
  mret (match r with Ok _ => None | Err msg => Some msg end).
End executions.
