(* ===== verification/ToolGateway.v ===== *)
(** * The tool gateway's handlers

    Models go/internal/api/tool_gateway_handlers.go and go/internal/api/run_tenant.go:
    whose tenant a request acts for, the three routes, the journalling of a denial
    and the deduplicated execution. A request is what the middleware leaves: the
    decoded body (or none, if it does not decode), the authenticated caller and
    the tenant header. Tracing is left out. *)

From S2P Require Import Prelude GoValue Json Policy Auth Checkpoint CheckpointStore Program.
From S2P Require Import ToolCalls ToolExec ToolExecutions.
Import Policy.Engine Policy.PolicySet.

Local Open Scope string_scope.
Set Default Proof Using "Type*".

(** ** Whose tenant a request acts for *)

Inductive TenantRefusal :=
| NoCaller
| BadTenantHeader (requested : string)
| MayNotActFor (callerID requested callerTenant : string).

Definition effectiveTenant (caller : option Caller) (header : string) : result TenantRefusal string :=
  match caller with
  | None => Err NoCaller
  | Some c =>
      if sempty header then Ok (Tenant c)
      else if negb (ident63 header) then Err (BadTenantHeader header)
      else if negb (ActsForTenant c header) then Err (MayNotActFor (ID c) header (Tenant c))
      else Ok header
  end.

Definition effectiveTenantOrCaller (caller : option Caller) (header : string) : string :=
  match caller with
  | None => ""
  | Some c => if negb (sempty header) && ident63 header && ActsForTenant c header then header
              else Tenant c
  end.

(** ** Requests and responses *)

Record toolCallRequest := {
  AgentManifestRef : string;
  ToolName : string;
  Args : gomap;
  IdempotencyKey : string;
  req_RunID : string;
  req_StepID : string;
}.

Record activityPolicyRequest := {
  act_AgentManifestRef : string;
  ActivityName : string;
  TaskQueue : string;
}.

Record request (B : Type) := { body : option B; caller : option Caller; tenant_header : string }.
Arguments body {B} _.
Arguments caller {B} _.
Arguments tenant_header {B} _.

Inductive JournalReason :=
| NoReason
| WaitingForPerson
| NoRunOrStep
| NoCheckpointer
| PayloadFailed (e : Checkpoint.OutcomeError)
| AppendFailed (e : AppendError).

Record denialResult := {
  Journalled : bool; JReason : JournalReason; JSeq : Z; JDuplicate : bool }.
Definition not_journalled (r : JournalReason) : denialResult :=
  {| Journalled := false; JReason := r; JSeq := 0; JDuplicate := false |}.

Inductive Response :=
| BadBody
| ActivityFieldsRequired
| Unauthenticated
| MayNotActAs (callerID agent : string)
| TenantRefused (r : TenantRefusal)
| NoPolicyBundle (tenant : string)
| PolicyAnswer (d : Decision)
| DeniedByPolicy (outcome : option Checkpoint.Outcome) (journal : denialResult) (d : Decision)
    (recorded : bool)
| ToolFailed (msg : string)
| DedupeNotConfigured
| KeyReused (key : string)
| KeyInFlight (key : string)
| ClaimFailed (e : ClaimError)
| RecordedUnreadable
| Replayed (policyID : string) (res : gomap) (recorded : bool)
| Executed (policyID : string) (res : gomap) (failedAttempts : option Z) (warning : bool)
    (recorded : option bool) (recordError : option string).

Definition status (r : Response) : Z :=
  match r with
  | BadBody | ActivityFieldsRequired | TenantRefused (BadTenantHeader _) => 400
  | Unauthenticated | TenantRefused NoCaller => 401
  | MayNotActAs _ _ | TenantRefused (MayNotActFor _ _ _) | NoPolicyBundle _
  | DeniedByPolicy _ _ _ _ => 403
  | ToolFailed _ => 404
  | KeyReused _ | KeyInFlight _ => 409
  | DedupeNotConfigured | ClaimFailed _ | RecordedUnreadable => 500
  | PolicyAnswer _ | Replayed _ _ _ | Executed _ _ _ _ _ _ => 200
  end.

(** ** The handlers *)

Definition denialReason (decision : Decision) : string :=
  if sempty (PolicyID decision)
  then "denied by policy: no policy in the bundle permits this tool for this agent (Cedar is default-deny)"
  else "denied by policy " +:+ PolicyID decision.

Definition dispositionOutcome (d : string) : option Checkpoint.Outcome :=
  if String.eqb d Disposition.DenyStep || String.eqb d Disposition.TerminateRun
  then Some OutcomeDeniedByPolicy else None.

Section handlers.
Context `{Cedar, Postgres, GoJson}.

Record ToolGatewayHandlers := {
  Policy : option Set_;
  Executor_ : Executor;
  Executions : bool;    (** an execution store is configured *)
  Checkpointer : bool;  (** a journal is configured *)
}.

Definition engineFor (h : ToolGatewayHandlers) {B} (r : request B) : result Response (Engine * string) :=
  match effectiveTenant (caller r) (tenant_header r) with
  | Err e => Err (TenantRefused e)
  | Ok tenant =>
      match EngineFor (Policy h) tenant with
      | None => Err (NoPolicyBundle tenant)
      | Some engine => Ok (engine, tenant)
      end
  end.

Definition checkPolicy (h : ToolGatewayHandlers) (r : request toolCallRequest) : Response :=
  match body r with
  | None => BadBody
  | Some b =>
      match engineFor h r with
      | Err resp => resp
      | Ok (engine, _) => PolicyAnswer (IsAllowed engine (AgentManifestRef b) (ToolName b))
      end
  end.

Definition checkActivityPolicy (h : ToolGatewayHandlers) (r : request activityPolicyRequest) : Response :=
  match body r with
  | None => BadBody
  | Some b =>
      if sempty (ActivityName b) || sempty (TaskQueue b) then ActivityFieldsRequired else
      match caller r with
      | None => Unauthenticated
      | Some c =>
          if negb (ActsAs c (act_AgentManifestRef b))
          then MayNotActAs (ID c) (act_AgentManifestRef b) else
          match engineFor h r with
          | Err resp => resp
          | Ok (engine, _) =>
              PolicyAnswer (IsAllowedToRunActivity engine (act_AgentManifestRef b)
                              (ActivityName b) (TaskQueue b))
          end
      end
  end.

Definition invocation (tenant : string) (b : toolCallRequest) (door : string) : Invocation :=
  {| inv_Tenant := tenant; inv_ToolName := ToolName b; inv_Args := Args b;
     inv_RunID := req_RunID b; inv_StepID := req_StepID b;
     inv_AgentManifestRef := AgentManifestRef b; inv_Door := door |}.

Definition journalDenial (h : ToolGatewayHandlers) (tenant : string) (b : toolCallRequest)
    (outcome : Checkpoint.Outcome) (reason : string) : M denialResult :=
  if sempty (req_RunID b) || sempty (req_StepID b) then mret (not_journalled NoRunOrStep)
  else if negb (Checkpointer h) then mret (not_journalled NoCheckpointer)
  else
    match OutcomePayload outcome reason RawEmpty with
    | Err e => mret (not_journalled (PayloadFailed e))
    | Ok payload =>
        res ← ask (CAppend tenant {| RunID := req_RunID b; SubRunID := ""; StepID := req_StepID b;
                                     EntryPhase := PhaseCompleted; Payload := payload |});
        mret (match res with
              | Err e => not_journalled (AppendFailed e)
              | Ok res => {| Journalled := true; JReason := NoReason; JSeq := res_Seq res;
                             JDuplicate := Duplicate res |}
              end)
    end.

(** [response]: what the answer says of the invocation log. *)
Definition recorded_field (out : Outcome) : option bool * option string :=
  if Recorded out then (Some true, None)
  else match RecordErr out with
       | Some msg => (Some false, Some msg)
       | None => (None, None)
       end.

Definition executed (policyID : string) (out : Outcome) (failed : option Z) (warning : bool) : Response :=
  Executed policyID (Result out) failed warning (recorded_field out).1 (recorded_field out).2.

(** The part of [executeDeduplicated] after the claim is won. *)
Definition run_claimed (h : ToolGatewayHandlers) (tenant : string) (b : toolCallRequest)
    (policyID : string) (failedAttempts : Z) : M Response :=
  '(out, execErr) ← Execute (Executor_ h) (invocation tenant b DoorHTTPDedupe);
  match execErr with
  | Some msg => Release tenant (IdempotencyKey b);; mret (ToolFailed msg)
  | None =>
      err ← Complete tenant (IdempotencyKey b) (Result out);
      mret (match err with
            | Some _ => executed policyID out None true
            | None => executed policyID out (Some failedAttempts) false
            end)
  end.

Definition executeDeduplicated (h : ToolGatewayHandlers) (r : request toolCallRequest)
    (b : toolCallRequest) (policyID : string) : M Response :=
  if negb (Executions h) then mret DedupeNotConfigured else
  match effectiveTenant (caller r) (tenant_header r) with
  | Err e => mret (TenantRefused e)
  | Ok tenant =>
      '(claim, err) ← Claim tenant (IdempotencyKey b) (ToolName b) (AgentManifestRef b) (Args b);
      if ArgsDiverged claim then mret (KeyReused (IdempotencyKey b)) else
      match err with
      | Some ErrExecutionInFlight => mret (KeyInFlight (IdempotencyKey b))
      | Some e => mret (ClaimFailed e)
      | None =>
          match ClaimCompleted claim with
          | Some doc =>
              match unmarshal_map doc with
              | None => mret RecordedUnreadable
              | Some res =>
                  replay ← RecordReplay (Executor_ h) (invocation tenant b DoorHTTPDedupe) policyID;
                  mret (Replayed policyID res (Recorded replay))
              end
          | None => run_claimed h tenant b policyID (FailedAttempts claim)
          end
      end
  end.

(** The refusal of a call that policy does not allow. *)
Definition refuse (h : ToolGatewayHandlers) (tenant : string) (b : toolCallRequest)
    (decision : Decision) : M Response :=
  let outcome := dispositionOutcome (DecisionDisposition decision) in
  journal ← match outcome with
            | Some o => journalDenial h tenant b o (denialReason decision)
            | None => mret (not_journalled WaitingForPerson)
            end;
  refusal ← RecordRefusal (Executor_ h) (invocation tenant b DoorHTTP)
              (DecisionDisposition decision) (PolicyID decision);
  mret (DeniedByPolicy outcome journal decision (Recorded refusal)).

Definition execute (h : ToolGatewayHandlers) (r : request toolCallRequest) : M Response :=
  match body r with
  | None => mret BadBody
  | Some b =>
  match caller r with
  | None => mret Unauthenticated
  | Some c =>
  if negb (ActsAs c (AgentManifestRef b)) then mret (MayNotActAs (ID c) (AgentManifestRef b)) else
  match engineFor h r with
  | Err resp => mret resp
  | Ok (engine, tenant) =>
  let decision := IsAllowed engine (AgentManifestRef b) (ToolName b) in
  if negb (Allowed decision) then refuse h tenant b decision
  else if negb (sempty (IdempotencyKey b)) then executeDeduplicated h r b (PolicyID decision)
  else
    '(out, err) ← Execute (Executor_ h) (invocation tenant b DoorHTTP);
    mret (match err with
          | Some msg => ToolFailed msg
          | None => executed (PolicyID decision) out None false
          end)
  end end end.
End handlers.

(** ** What a request may cause *)

Section authorization.
Context `{Cedar, Postgres, GoJson}.

(** The executor logs to the invocation table, or not at all. *)
Definition logs_invocations (e : Executor) : Prop :=
  recorder e = None ∨ ∃ tenant, recorder e = Some (ToolInvocationRecorder tenant).

(** The tenant whose data a call touches. *)
Definition call_tenant (c : call) : string :=
  match c with
  | CClaim t _ _ _ _ | CRead t _ _ | CReclaim t _ | CComplete t _ _ | CRelease t _
  | CTool t _ _ | CAppend t _ => t
  | CInvocation row => ti_tenant row
  end.

(** A call made for a request in a tenant: a tool call is the request's. *)
Definition call_for (tenant : string) (b : toolCallRequest) (e : Executor) (c : call) : Prop :=
  call_tenant c = tenant ∧
  match c with
  | CTool _ tool args => tool = ToolName b ∧ args = Args b ∧ Knows e tool = true
  | _ => True
  end.

Lemma record_emits e rec tenant b c :
  logs_invocations e → ir_Tenant rec = tenant → tenant ≠ "" →
  emits (record e rec) c → call_for tenant b e c ∧ ∃ row, c = CInvocation row.
Proof.
  intros [Hr|[d Hr]] Ht Hne%sempty_false; unfold record; rewrite Hr; simpl; [done|].
  intros [->|[? []]]. split; [|eauto]. split; [|done]. simpl. by rewrite Ht, Hne.
Qed.

Lemma Execute_emits e tenant b door c :
  logs_invocations e → tenant ≠ "" →
  emits (Execute e (invocation tenant b door)) c →
  call_for tenant b e c ∧ (∃ t tool args, c = CTool t tool args) ∨
  call_for tenant b e c ∧ ∃ row, c = CInvocation row.
Proof.
  intros Hl Hne. unfold Execute. destruct (Knows e (ToolName b)) eqn:Hk; cbn [inv_ToolName invocation];
    rewrite Hk; [|done]. cbn [negb]. intros He. apply emits_bind in He as [He|(r & _ & He)].
  - left. simpl in He. destruct He as [->|[? []]]. split; [|eauto]. done.
  - right. destruct (recorder e) as [rcd|] eqn:Hr; [|done].
    apply emits_bind in He as [He|(? & _ & [])].
    eapply record_emits; [done| |done|exact He]. by destruct (tr_err r).
Qed.

Lemma Claim_emits tenant key tool agent args c :
  emits (Claim tenant key tool agent args) c →
  (∃ a, c = CClaim tenant key tool agent a) ∨ (∃ a, c = CRead tenant key a) ∨ c = CReclaim tenant key.
Proof.
  unfold Claim. destruct (sempty key); [done|]. destruct (marshal_map args) as [a|]; [|done].
  cbn [mbind prog_bind ask emits]. intros [->|[ins He]]; [eauto|].
  destruct ins as [[]|]; [done| |done]. cbn [mbind prog_bind ask emits] in He.
  destruct He as [->|[rd He]]; [eauto|]. destruct rd as [view|]; [|done].
  destruct (view_state view); [done|done|]. cbn [mbind prog_bind ask emits] in He.
  destruct He as [->|[rc He]]; [auto|]. by destruct rc as [[]|].
Qed.

Lemma executeDeduplicated_emits h r b policyID tenant c :
  logs_invocations (Executor_ h) → tenant ≠ "" →
  effectiveTenant (caller r) (tenant_header r) = Ok tenant →
  emits (executeDeduplicated h r b policyID) c → Executions h = true ∧ call_for tenant b (Executor_ h) c.
Proof.
  intros Hl Hne Ht. unfold executeDeduplicated. destruct (Executions h); [|done]. cbn [negb].
  rewrite Ht. intros He. split; [done|]. apply emits_bind in He as [He|([claim err] & _ & He)].
  { apply Claim_emits in He as [[a ->]|[[a ->]| ->]]; done. }
  destruct (ArgsDiverged claim); [done|]. destruct err as [[]|]; [done..|].
  destruct (ClaimCompleted claim) as [doc|].
  - destruct (unmarshal_map doc); [|done]. apply emits_bind in He as [He|(? & _ & [])].
    by apply (record_emits _ _ tenant b) in He as [He _].
  - apply emits_bind in He as [He|([out execErr] & _ & He)].
    { by apply Execute_emits in He as [[He _]|[He _]]. }
    destruct execErr; apply emits_bind in He as [He|(? & _ & [])].
    + simpl in He. by destruct He as [->|[? []]].
    + unfold Complete in He. destruct (marshal_map (Result out)); [|done].
      simpl in He. by destruct He as [->|[? []]].
Qed.

Lemma refuse_emits h tenant b decision c :
  logs_invocations (Executor_ h) → tenant ≠ "" → emits (refuse h tenant b decision) c →
  call_for tenant b (Executor_ h) c ∧ ∀ t tool args, c ≠ CTool t tool args.
Proof.
  intros Hl Hne He. apply emits_bind in He as [He|(journal & _ & He)].
  - destruct (dispositionOutcome _); [|done]. unfold journalDenial in He.
    destruct (_ || _); [done|]. destruct (negb _); [done|]. simpl in He.
    by destruct He as [->|[? []]].
  - apply emits_bind in He as [He|(? & _ & [])].
    apply (record_emits _ _ tenant b) in He as [He [row ->]]; done.
Qed.

(** C8. Nothing happens for a request that is not entitled to it: every call the
    execute route makes is for the one tenant the caller may act for, and a tool
    runs only when the caller is authenticated, may act as the named agent, that
    tenant has a policy bundle and its engine allows this agent this tool; it is
    then the named tool with the request's own arguments. *)
Theorem execute_entitled h r c :
  logs_invocations (Executor_ h) → emits (execute h r) c →
  ∃ b who engine tenant,
    body r = Some b ∧ caller r = Some who ∧ ActsAs who (AgentManifestRef b) = true ∧
    effectiveTenant (Some who) (tenant_header r) = Ok tenant ∧
    EngineFor (Policy h) tenant = Some engine ∧ call_for tenant b (Executor_ h) c ∧
    ((∃ t tool args, c = CTool t tool args) →
     Allowed (IsAllowed engine (AgentManifestRef b) (ToolName b)) = true).
Proof.
  intros Hl. unfold execute. destruct (body r) as [b|]; [|done].
  destruct (caller r) as [who|] eqn:Hc; [|done].
  destruct (ActsAs who (AgentManifestRef b)) eqn:Ha; [|done]. cbn [negb].
  unfold engineFor. rewrite Hc. destruct (effectiveTenant (Some who) _) as [tenant|] eqn:Ht; [|done].
  destruct (EngineFor (Policy h) tenant) as [engine|] eqn:He; [|done].
  assert (tenant ≠ "") as Hne.
  { intros ->. unfold EngineFor in He. by destruct (Policy h). }
  cbv zeta. intros Hem. exists b, who, engine, tenant. do 5 (split; [done|]).
  destruct (Allowed (IsAllowed engine (AgentManifestRef b) (ToolName b))) eqn:Hok; cbn [negb] in Hem.
  - split; [|done]. destruct (sempty (IdempotencyKey b)); cbn [negb] in Hem.
    + apply emits_bind in Hem as [Hem|([? ?] & _ & [])].
      by apply Execute_emits in Hem as [[? _]|[? _]].
    + eapply executeDeduplicated_emits in Hem; [apply Hem|done..|by rewrite Hc].
  - apply refuse_emits in Hem as [Hfor Hno]; [|done..]. split; [done|].
    intros (t & tool & args & ->). by destruct (Hno t tool args).
Qed.
End authorization.

(** A request acts for its caller's own tenant, or for one it names in the
    header when the operator listed that tenant for this caller, and for no other;
    the route that cannot refuse falls back to the caller's own tenant exactly
    where the others refuse. *)
Theorem effectiveTenant_entitled who header :
  (∀ tenant, effectiveTenant who header = Ok tenant ↔
    ∃ c, who = Some c ∧
      (header = "" ∧ tenant = Tenant c ∨
       header ≠ "" ∧ tenant = header ∧ ident63 header = true ∧
       (header = Tenant c ∨ header ∈ MayActForTenants c))) ∧
  effectiveTenantOrCaller who header =
    match effectiveTenant who header with
    | Ok tenant => tenant
    | Err _ => match who with Some c => Tenant c | None => "" end
    end.
Proof.
  unfold effectiveTenant, effectiveTenantOrCaller. destruct who as [c|]; [|naive_solver].
  assert (ActsForTenant c header = true ↔ header = Tenant c ∨ header ∈ MayActForTenants c) as Ha.
  { unfold ActsForTenant. rewrite orb_true_iff, bool_decide_eq_true, existsb_exists.
    setoid_rewrite bool_decide_eq_true. setoid_rewrite <-list_elem_of_In. naive_solver. }
  destruct (sempty header) eqn:He.
  - apply sempty_true in He as ->. simpl. naive_solver.
  - apply sempty_false in He. cbn [negb andb]. destruct (ident63 header); cbn [negb andb]; [|naive_solver].
    destruct (ActsForTenant c header); cbn [negb]; naive_solver.
Qed.

Section denials.
Context `{Cedar, Postgres, GoJson}.

(** A policy denial of a step is made a known outcome of the step by the
    gateway itself: when the decision is deny_step or terminate_run and the request
    names its run and step, the first thing the route does is to append, in the
    run's tenant, a completed record whose outcome is denied_by_policy with the
    decision's reason; the caller is always refused, no tool runs, and the answer
    says journalled exactly when the append succeeded. *)
Theorem denial_is_journalled h r b who engine tenant :
  let decision := IsAllowed engine (AgentManifestRef b) (ToolName b) in
  logs_invocations (Executor_ h) →
  body r = Some b → caller r = Some who → ActsAs who (AgentManifestRef b) = true →
  effectiveTenant (Some who) (tenant_header r) = Ok tenant →
  EngineFor (Policy h) tenant = Some engine → Allowed decision = false →
  DecisionDisposition decision = Disposition.DenyStep ∨
  DecisionDisposition decision = Disposition.TerminateRun →
  req_RunID b ≠ "" → req_StepID b ≠ "" → Checkpointer h = true →
  ∃ e fields k, execute h r = Vis (CAppend tenant e) k ∧
    RunID e = req_RunID b ∧ StepID e = req_StepID b ∧ EntryPhase e = PhaseCompleted ∧
    SubRunID e = "" ∧ Payload e = RawDoc (JObject fields) ∧
    carries OutcomeDeniedByPolicy (to_valid_utf8 (denialReason decision)) "" fields ∧
    (∀ t tool args, ¬ emits (execute h r) (CTool t tool args)) ∧
    ∀ rep resp, returns (k rep) resp →
      ∃ journal recorded, resp = DeniedByPolicy (Some OutcomeDeniedByPolicy) journal decision recorded ∧
        Journalled journal = is_ok rep.
Proof.
  intros decision Hl Hb Hc Ha Ht Heng Hno Hdisp Hrun%sempty_false Hstep%sempty_false Hck.
  assert (execute h r = refuse h tenant b decision) as Heq.
  { unfold execute. rewrite Hb, Hc, Ha. unfold engineFor. rewrite Hc, Ht, Heng. cbv zeta.
    fold decision. by rewrite Hno. }
  assert (tenant ≠ "") as Hne by (intros ->; unfold EngineFor in Heng; by destruct (Policy h)).
  assert (dispositionOutcome (DecisionDisposition decision) = Some OutcomeDeniedByPolicy) as Ho
    by (by destruct Hdisp as [-> | ->]).
  rewrite Heq. pose proof (refuse_emits h tenant b decision) as Hem. unfold refuse in *. rewrite Ho in *.
  unfold journalDenial in *. rewrite Hrun, Hstep, Hck in *. cbn [orb negb] in *.
  destruct (OutcomePayload OutcomeDeniedByPolicy (denialReason decision) RawEmpty) as [payload|] eqn:Hp;
    [|done].
  destruct (payload_carries _ _ _ _ _ Hp) as (fields & -> & Hcar).
  eexists _, fields, _. split; [reflexivity|]. do 5 (split; [done|]). split; [exact Hcar|]. split.
  { intros t tool args He. destruct (Hem (CTool t tool args) Hl Hne He) as [_ Hn].
    by apply (Hn t tool args). }
  intros rep resp Hr. apply returns_bind in Hr as (journal & Hj & Hr).
  apply returns_bind in Hr as (refusal & _ & ->). eexists _, _. split; [reflexivity|].
  simpl in Hj. subst journal. by destruct rep.
Qed.
End denials.
