(* ===== verification/ToolOnce.v ===== *)
(** * At most one execution per idempotency key

    Any number of tool gateway requests, in any number of processes, interleave
    one call at a time over the shared tables; any statement may fail before or
    after it took effect, and any process may die at any point. The protocol of a
    claim is stated once, as what a process may call in each mode; the handler is
    shown to follow it, and the claims table to be safe for whoever does. *)

From S2P Require Import Prelude GoValue Json Policy Auth Checkpoint CheckpointStore Program.
From S2P Require Import ToolCalls ToolExec ToolExecutions ToolGateway.
Import Policy.Engine Policy.PolicySet.

Local Open Scope string_scope.
Set Default Proof Using "Type".

(** ** The protocol *)

(** Where a process is with its key: it has no claim, it has read a row (with the
    same arguments or not), it holds the claim, or the tool has answered. *)
Inductive mode :=
| Idle
| Seen (same : bool)
| Held (same : bool)
| Ran (res : gomap) (err : option string).

Definition holding (m : mode) : Prop := match m with Held _ | Ran _ _ => True | _ => False end.

Section protocol.
Context `{Postgres, GoJson}.

(** The calls a process of key [K] with arguments [args] may make in a mode. *)
Definition permitted (K : ekey) (args : gomap) (m : mode) (c : call) : Prop :=
  match c with
  | CClaim t k _ _ a | CRead t k a => m = Idle ∧ (t, k) = K ∧ marshal_map args = Some a
  | CReclaim t k => (∃ same, m = Seen same) ∧ (t, k) = K
  | CTool _ _ args' => m = Held true ∧ args' = args
  | CComplete t k res => (∃ r, m = Ran r None ∧ marshal_map r = Some res) ∧ (t, k) = K
  | CRelease t k => ((∃ same, m = Held same) ∨ ∃ r e, m = Ran r (Some e)) ∧ (t, k) = K
  | CInvocation _ | CAppend _ _ => True
  end.

(** The mode after a reply. *)
Definition next (m : mode) (c : call) : reply c → mode :=
  match c with
  | CClaim _ _ _ _ _ => λ r, match r with Ok true => Held true | _ => Idle end
  | CRead _ _ _ => λ r, match r with Ok view => Seen (view_same view) | Err _ => Idle end
  | CReclaim _ _ => λ r, match r, m with Ok true, Seen same => Held same | _, _ => Idle end
  | CTool _ _ _ => λ r, Ran (tr_result r) (tr_err r)
  | CComplete _ _ _ | CRelease _ _ => λ _, Idle
  | CInvocation _ | CAppend _ _ => λ _, m
  end.

(** What the table answers as long as everyone follows the protocol: a completed
    row has its result. *)
Definition plausible (c : call) : reply c → Prop :=
  match c with
  | CRead _ _ _ => λ r, match r with
                        | Ok view => view_state view = Completed_ → is_Some (view_result view)
                        | Err _ => True
                        end
  | _ => λ _, True
  end.

Fixpoint disciplined {A} (K : ekey) (args : gomap) (m : mode) (p : M A) : Prop :=
  match p with
  | Ret _ => True
  | Vis c k => permitted K args m c ∧ ∀ r, plausible c r → disciplined K args (next m c r) (k r)
  end.

(** Calls that have nothing to do with claims. *)
Definition neutral (c : call) : Prop :=
  match c with CInvocation _ | CAppend _ _ => True | _ => False end.

Lemma disciplined_neutral {A B} K args m (p : M A) (f : A → M B) :
  (∀ c, emits p c → neutral c) → (∀ a, returns p a → disciplined K args m (f a)) →
  disciplined K args m (p ≫= f).
Proof.
  intros Hp Hf. induction p as [a|c k IH]; [by apply Hf|].
  change (Vis c k ≫= f) with (Vis c (λ r, k r ≫= f)). cbn [disciplined].
  assert (neutral c) as Hc by (apply Hp; by left).
  assert (∀ r, next m c r = m) as Hn by (by destruct c).
  split; [by destruct c|]. intros r _. rewrite Hn. apply IH.
  - intros c' He. apply Hp. right. eauto.
  - intros a Ha. apply Hf. by exists r.
Qed.

Lemma record_neutral e rec c : logs_invocations e → emits (record e rec) c → neutral c.
Proof.
  intros [Hr|[d Hr]]; unfold record; rewrite Hr; simpl; [done|]. by intros [->|[? []]].
Qed.

(** ** The claims of one key *)

(** A row holds the arguments a process sends. *)
Definition row_args (args : gomap) (r : exec_row) : Prop :=
  ∃ a b, marshal_map args = Some a ∧ to_jsonb a = Some b ∧ ex_args r = Some b.

Definition row_result (res : gomap) (r : exec_row) : Prop :=
  ∃ a b, marshal_map res = Some a ∧ to_jsonb a = Some b ∧ ex_result r = Some b.

(** Modes in which the row is known to hold the process's arguments. *)
Definition same_args (m : mode) : Prop :=
  match m with Seen true | Held true | Ran _ _ => True | _ => False end.

(** The key's row, the executions under it in order, and the live processes of
    the key with their arguments and modes. *)
Record key_inv (row : option exec_row) (evs : list event) (P : nat → option (gomap * mode)) : Prop := {
  ki_held i a m : P i = Some (a, m) → holding m → ∃ r, row = Some r ∧ ex_state r = InFlight;
  ki_one i j a m b n : P i = Some (a, m) → P j = Some (b, n) → holding m → holding n → i = j;
  ki_same i a m : P i = Some (a, m) → same_args m → ∃ r, row = Some r ∧ row_args a r;
  ki_events ev : ev ∈ evs → ∃ r, row = Some r ∧ row_args (ev_args ev) r;
  ki_done ev : ev ∈ evs → ev_err ev = None →
    (∀ r, row = Some r → ex_state r ≠ Released) ∧
    ∀ i a m, P i = Some (a, m) → holding m → ∃ res, m = Ran res None;
  ki_last l1 ev l2 : evs = (l1 ++ ev :: l2)%list → ev_err ev = None → l2 = [];
  ki_ran i a res : P i = Some (a, Ran res None) → ∃ ev, ev ∈ evs ∧ ev_err ev = None ∧ ev_result ev = res;
  ki_completed r : row = Some r → ex_state r = Completed_ →
    ∃ ev, ev ∈ evs ∧ ev_err ev = None ∧ row_result (ev_result ev) r;
}.

Definition set_proc (P : nat → option (gomap * mode)) (i : nat) (x : option (gomap * mode)) :=
  λ j, if decide (j = i) then x else P j.

Lemma set_proc_Some P i x j y :
  set_proc P i x j = Some y ↔ (j = i ∧ x = Some y) ∨ (j ≠ i ∧ P j = Some y).
Proof. unfold set_proc. destruct (decide (j = i)); naive_solver. Qed.

(** A process that holds nothing, dies, or is new does not disturb the others. *)
Lemma key_inv_quiet row evs P i x :
  key_inv row evs P →
  (∀ a m, x = Some (a, m) → ¬ holding m ∧ (same_args m → ∃ r, row = Some r ∧ row_args a r)) →
  key_inv row evs (set_proc P i x).
Proof.
  intros [H1 H2 H3 H4 H5 H6 H7 H8] Hx. split; auto.
  - intros j a m [[-> ->]|[_ Hj]]%set_proc_Some Hh; [by destruct (Hx a m eq_refl)|eauto].
  - intros j k a m b n [[-> ->]|[? Hj]]%set_proc_Some [[-> Hk]|[? Hk]]%set_proc_Some Hm Hn;
      [done|by destruct (Hx a m eq_refl)|by destruct (Hx b n Hk)|eauto].
  - intros j a m [[-> ->]|[_ Hj]]%set_proc_Some Hs; [by apply (Hx a m eq_refl)|eauto].
  - intros ev Hev He. destruct (H5 ev Hev He) as [Hs Hp]. split; [done|].
    intros j a m [[-> ->]|[_ Hj]]%set_proc_Some Hh; [by destruct (Hx a m eq_refl)|eauto].
  - intros j a res [[-> ->]|[_ Hj]]%set_proc_Some; [by destruct (Hx a _ eq_refl) as [[] _]|eauto].
Qed.

(** The one process that may hold the key changes the row and its own mode. *)
Lemma key_inv_row r r' evs P i args m' :
  key_inv (Some r) evs P → ex_args r' = ex_args r →
  (∀ j a m, P j = Some (a, m) → holding m → j = i) →
  (holding m' → ex_state r' = InFlight) → (same_args m' → row_args args r) →
  (∀ ev, ev ∈ evs → ev_err ev = None → ex_state r' ≠ Released ∧ ¬ holding m') →
  (∀ res, m' ≠ Ran res None) →
  (ex_state r' = Completed_ → ∃ ev, ev ∈ evs ∧ ev_err ev = None ∧ row_result (ev_result ev) r') →
  key_inv (Some r') evs (set_proc P i (Some (args, m'))).
Proof.
  intros [H1 H2 H3 H4 H5 H6 H7 H8] Ha Hone Hh Hs Hd Hr Hc.
  assert (∀ a, row_args a r → row_args a r') as Hargs by (intros a (x & y & ? & ? & ?); exists x, y; by rewrite Ha).
  assert (∀ a, (∃ r0, Some r = Some r0 ∧ row_args a r0) → ∃ r0, Some r' = Some r0 ∧ row_args a r0) as Hargs'
    by (intros a (r0 & [= <-] & ?); eauto).
  split; auto.
  - intros j a m [[-> [= <- <-]]|[Hj Hp]]%set_proc_Some Hm; [eauto|]. by destruct Hj; eapply Hone.
  - intros j k a m b n [[-> ?]|[Hj Hp]]%set_proc_Some [[-> ?]|[Hk Hq]]%set_proc_Some Hm Hn;
      [done|by destruct Hk; eapply Hone|by destruct Hj; eapply Hone|eauto].
  - intros j a m [[-> [= <- <-]]|[Hj Hp]]%set_proc_Some Hm; [eauto|]. eauto.
  - intros ev Hev He. destruct (Hd ev Hev He) as [Hst Hnh]. split; [by intros ? [= <-]|].
    intros j a m [[-> [= <- <-]]|[Hj Hp]]%set_proc_Some Hm; [done|]. by destruct Hj; eapply Hone.
  - intros j a res [[-> [= <- ->]]|[Hj Hp]]%set_proc_Some; [by destruct (Hr res)|eauto].
  - intros ? [= <-]. auto.
Qed.

Lemma key_inv_claim evs P i args m' r' :
  key_inv None evs P → ex_state r' = InFlight → row_args args r' → m' = Held true ∨ m' = Idle →
  key_inv (Some r') evs (set_proc P i (Some (args, m'))).
Proof.
  intros [H1 H2 H3 H4 H5 H6 H7 H8] Hst Ha Hm.
  assert (evs = []) as ->.
  { destruct evs as [|ev evs]; [done|]. destruct (H4 ev) as (? & ? & _); [left|done]. }
  assert (∀ j a m, P j = Some (a, m) → ¬ holding m) as Hnone
    by (intros j a m Hj Hh; destruct (H1 j a m Hj Hh) as (? & ? & _); done).
  split.
  - intros j a m [[-> ?]|[? Hj]]%set_proc_Some Hh; [eauto|]. by destruct (Hnone j a m Hj).
  - intros j k a m b n [[-> ?]|[? Hj]]%set_proc_Some [[-> ?]|[? Hk]]%set_proc_Some ? ?;
      [done|by destruct (Hnone k b n Hk)|by destruct (Hnone j a m Hj)|by destruct (Hnone j a m Hj)].
  - intros j a m [[-> [= <- <-]]|[? Hj]]%set_proc_Some Hs; [eauto|].
    destruct (H3 j a m Hj Hs) as (? & ? & _). done.
  - intros ev Hev. by apply not_elem_of_nil in Hev.
  - intros ev Hev. by apply not_elem_of_nil in Hev.
  - intros [|? ?] ev l2 He; done.
  - intros j a res [[-> [= <- ->]]|[? Hj]]%set_proc_Some; [by destruct Hm|].
    by destruct (Hnone j a _ Hj).
  - intros r [= <-]. by rewrite Hst.
Qed.

(** The tool runs under a claim, and its answer is the last of the key so far. *)
Lemma key_inv_run r evs P i args ev :
  key_inv (Some r) evs P → P i = Some (args, Held true) → ev_args ev = args →
  key_inv (Some r) (evs ++ [ev])%list (set_proc P i (Some (args, Ran (ev_result ev) (ev_err ev)))).
Proof.
  intros [H1 H2 H3 H4 H5 H6 H7 H8] Hi Ha.
  destruct (H1 i _ _ Hi I) as (? & [= <-] & Hst). destruct (H3 i _ _ Hi I) as (? & [= <-] & Hargs).
  assert (∀ e, e ∈ evs → ev_err e ≠ None) as Hfail.
  { intros e Hin He. destruct (proj2 (H5 e Hin He) i _ _ Hi I) as [? [=]]. }
  assert (∀ j a m, P j = Some (a, m) → holding m → j = i) as Hone by (intros; by eapply H2).
  split; auto.
  - intros j a m [[-> ?]|[? Hj]]%set_proc_Some Hh; eauto.
  - intros j k a m b n [[-> ?]|[Hj Hp]]%set_proc_Some [[-> ?]|[Hk Hq]]%set_proc_Some Hm Hn;
      [done|by destruct Hk; eapply Hone|by destruct Hj; eapply Hone|eauto].
  - intros j a m [[-> [= <- <-]]|[? Hj]]%set_proc_Some Hs; [|eauto]. eauto.
  - intros e [Hin| ->%list_elem_of_singleton]%elem_of_app; [eauto|]. rewrite Ha. eauto.
  - intros e [Hin| ->%list_elem_of_singleton]%elem_of_app He; [by destruct (Hfail e Hin)|].
    split; [by intros ? [= <-]; rewrite Hst|].
    intros j a m [[-> [= <- <-]]|[Hj Hp]]%set_proc_Some Hm; [rewrite He; eauto|].
    by destruct Hj; eapply Hone.
  - intros l1 e l2 Heq He. destruct l2 as [|x l2] using rev_ind; [done|]. clear IHl2. exfalso.
    rewrite app_comm_cons, app_assoc in Heq. apply app_inj_2 in Heq as [Heq _]; [|done].
    apply (Hfail e); [rewrite Heq; set_solver|done].
  - intros j a res [[-> [= <- <- He]]|[Hj Hp]]%set_proc_Some.
    + exists ev. set_solver.
    + destruct Hj. by eapply Hone.
  - intros r0 [= <-]. by rewrite Hst.
Qed.

Lemma key_inv_ext row evs P P' : (∀ i, P' i = P i) → key_inv row evs P → key_inv row evs P'.
Proof.
  intros He [H1 H2 H3 H4 H5 H6 H7 H8]. split; auto.
  - intros i a m. rewrite He. eauto.
  - intros i j a m b n. rewrite !He. eauto.
  - intros i a m. rewrite He. eauto.
  - intros ev Hev Herr. destruct (H5 ev Hev Herr) as [? Hp]. split; [done|].
    intros i a m. rewrite He. eauto.
  - intros i a res. rewrite He. eauto.
Qed.

Lemma key_inv_same row evs P i x : key_inv row evs P → P i = x → key_inv row evs (set_proc P i x).
Proof.
  intros HK Hi. eapply key_inv_ext; [|exact HK]. intros j. unfold set_proc.
  by destruct (decide (j = i)) as [->|].
Qed.

(** ** One call *)

(** The executions under a key, in order. *)
Definition executed_under (w : world) (K : ekey) : list event :=
  filter (λ ev, ev_key ev = Some K) (effects w).

Lemma row_args_fresh args a b tool agent :
  marshal_map args = Some a → to_jsonb a = Some b →
  row_args args {| ex_tool := tool; ex_agent := agent; ex_args := Some b; ex_result := None;
                   ex_state := InFlight; ex_failed := 0 |}.
Proof. intros. by exists a, b. Qed.

Ltac stmt_cases Hsem :=
  destruct Hsem as [(t' & ans & Hst & -> & Hrep)|[-> [e ->]]]; cbn [executions put_executions effects].

Lemma quiet_idle row evs P i (args : gomap) :
  key_inv row evs P → key_inv row evs (set_proc P i (Some (args, Idle))).
Proof. intros Hk. apply key_inv_quiet; [done|]. intros a m [= <- <-]. split; intros []. Qed.

Section call.
Context (w w' : world) (K : ekey) (P : nat → option (gomap * mode)) (i : nat) (args : gomap) (m : mode).
Context (HK : key_inv (executions w !! K) (executed_under w K) P) (Hi : P i = Some (args, m)).

Abbreviation after m' := (key_inv (executions w' !! K) (executed_under w' K)
                            (set_proc P i (Some (args, m')))).

Lemma claim_call tool agent a rep :
  m = Idle → marshal_map args = Some a →
  statement w (sql_claim (executions w) K.1 K.2 tool agent a) rep w' →
  after (match rep with Ok true => Held true | _ => Idle end).
Proof using HK Hi.
  intros -> Ha Hsem. stmt_cases Hsem; [|by apply quiet_idle].
  unfold sql_claim in Hst. destruct (_ && _); [|done].
  destruct (to_jsonb a) as [b|] eqn:Hb; [|done]. simpl in Hst. rewrite <-surjective_pairing in Hst.
  change (executed_under _ K) with (executed_under w K).
  destruct (executions w !! K) as [r|] eqn:Hrow; simplify_eq.
  - rewrite Hrow. assert (match rep with Ok true => Held true | _ => Idle end = Idle) as ->
      by (destruct Hrep as [->|[? ->]]; done). by apply quiet_idle.
  - rewrite lookup_insert_eq. apply key_inv_claim; [done|done| |].
    + by eapply row_args_fresh.
    + destruct Hrep as [->|[? ->]]; auto.
Qed.

Lemma read_call a rep :
  m = Idle → marshal_map args = Some a →
  statement w (sql_read (executions w) K.1 K.2 a) rep w' →
  after (match rep with Ok view => Seen (view_same view) | Err _ => Idle end).
Proof using HK Hi.
  intros -> Ha Hsem. stmt_cases Hsem; [|by apply quiet_idle].
  unfold sql_read in Hst. destruct (_ && _); [|done].
  destruct (to_jsonb a) as [b|] eqn:Hb; [|done]. simpl in Hst. rewrite <-surjective_pairing in Hst.
  change (executed_under _ K) with (executed_under w K).
  destruct (executions w !! K) as [r|] eqn:Hrow; [|done]. simplify_eq/=. rewrite Hrow.
  destruct Hrep as [->|[? ->]]; [|by apply quiet_idle].
  apply key_inv_quiet; [done|]. intros ? ? [= <- <-]. split; [intros []|]. simpl.
  case_bool_decide; [|done]. intros _. exists r. split; [done|]. by exists a, b.
Qed.

Lemma reclaim_call same rep :
  m = Seen same → statement w (sql_reclaim (executions w) K.1 K.2) rep w' →
  after (match rep with Ok true => Held same | _ => Idle end).
Proof using HK Hi.
  intros -> Hsem. stmt_cases Hsem; [|by apply quiet_idle].
  unfold sql_reclaim in Hst. destruct (_ && _); [|done]. rewrite <-surjective_pairing in Hst.
  change (executed_under _ K) with (executed_under w K).
  assert (executions w !! K = t' !! K → ans = false →
          key_inv (t' !! K) (executed_under w K)
            (set_proc P i (Some (args, match rep with Ok true => Held same | _ => Idle end)))) as Hno.
  { intros <- ->. destruct Hrep as [->|[? ->]]; by apply quiet_idle. }
  destruct (executions w !! K) as [r|] eqn:Hrow; [|simplify_eq; by apply Hno].
  destruct (ex_state r) eqn:Hst'; simplify_eq; [by apply Hno|by apply Hno|]. clear Hno.
  rewrite lookup_insert_eq. rewrite ?Hrow in HK.
  pose proof HK as [H1 H2 H3 H4 H5 H6 H7 H8].
  assert (∀ ev, ev ∈ executed_under w K → ev_err ev ≠ None) as Hfail
    by (intros ev Hev He; by destruct (proj1 (H5 ev Hev He) r)).
  eapply key_inv_row; [exact HK|done| |done| |intros ev Hev He; by destruct (Hfail ev Hev)| |done].
  - intros j a m' Hj Hh. destruct (H1 j a m' Hj Hh) as (r0 & [= <-] & ?). congruence.
  - intros Hs. destruct (H3 i args (Seen same) Hi) as (r0 & [= <-] & ?); [|done].
    by destruct Hrep as [->|[? ->]].
  - intros res. by destruct Hrep as [->|[? ->]].
Qed.

Lemma complete_call res a rep :
  m = Ran res None → marshal_map res = Some a →
  statement w (sql_complete (executions w) K.1 K.2 a) rep w' → after Idle.
Proof using HK Hi.
  intros -> Ha Hsem. stmt_cases Hsem; [|by apply quiet_idle].
  unfold sql_complete in Hst. destruct (_ && _); [|done].
  destruct (to_jsonb a) as [b|] eqn:Hb; [|done]. simpl in Hst. rewrite <-surjective_pairing in Hst.
  change (executed_under _ K) with (executed_under w K).
  pose proof HK as [H1 H2 H3 H4 H5 H6 H7 H8]. destruct (H1 i _ _ Hi I) as (r & Hrow & Hfl).
  rewrite Hrow in Hst. simplify_eq. rewrite lookup_insert_eq. rewrite ?Hrow in HK.
  eapply key_inv_row; [exact HK|done| |intros []|intros []|by split; [|intros []]|done|].
  - intros j a' m' Hj Hh. by eapply H2.
  - intros _. destruct (H7 i args res Hi) as (ev & Hev & He & Hres).
    exists ev. split; [done|]. split; [done|]. exists a, b. by rewrite Hres.
Qed.

Lemma release_call rep :
  (∃ same, m = Held same) ∨ (∃ res e, m = Ran res (Some e)) →
  statement w (sql_release (executions w) K.1 K.2) rep w' → after Idle.
Proof using HK Hi.
  intros Hm Hsem. stmt_cases Hsem; [|by apply quiet_idle].
  unfold sql_release in Hst. destruct (_ && _); [|done]. rewrite <-surjective_pairing in Hst.
  change (executed_under _ K) with (executed_under w K).
  assert (holding m) as Hh by (destruct Hm as [[? ->]|(? & ? & ->)]; done).
  pose proof HK as [H1 H2 H3 H4 H5 H6 H7 H8]. destruct (H1 i _ _ Hi Hh) as (r & Hrow & Hfl).
  rewrite Hrow in Hst. destruct (_ <? _)%Z; [|done]. simplify_eq.
  rewrite lookup_insert_eq. rewrite ?Hrow in HK.
  eapply key_inv_row; [exact HK|done| |intros []|intros []| |done|done].
  - intros j a' m' Hj Hh'. by eapply H2.
  - intros ev Hev He. destruct (proj2 (H5 ev Hev He) i _ _ Hi Hh) as [? ->].
    by destruct Hm as [[? [=]]|(? & ? & [=])].
Qed.
End call.

(** A permitted call keeps its own key's claims consistent. *)
Lemma call_own w w' K P i args m c rep :
  key_inv (executions w !! K) (executed_under w K) P → P i = Some (args, m) →
  permitted K args m c → sem (Some K) w c rep w' →
  key_inv (executions w' !! K) (executed_under w' K) (set_proc P i (Some (args, next m c rep))).
Proof.
  intros HK Hi. destruct c; cbn [permitted sem next].
  - intros (Hm & <- & Ha) Hs. eapply claim_call; eauto.
  - intros (Hm & <- & Ha) Hs. eapply read_call; eauto.
  - intros ([same Hm] & <-) Hs.
    replace (match rep with Ok true => match m with Seen same => Held same | _ => Idle end | _ => Idle end)
      with (match rep with Ok true => Held same | _ => Idle end) by (by rewrite Hm).
    eapply reclaim_call; eauto.
  - intros ((res0 & Hm & Ha) & <-) Hs. eapply complete_call; eauto.
  - intros (Hm & <-) Hs. eapply release_call; eauto.
  - intros [-> ->] ->. cbn [executions].
    destruct (ki_held _ _ _ HK i _ _ Hi I) as (r & Hrow & _). rewrite Hrow in HK |- *.
    unfold executed_under; cbn [effects]. rewrite filter_app, filter_cons, filter_nil.
    cbn [ev_key]. rewrite decide_True by done.
    by apply (key_inv_run r _ P i args {| ev_key := Some K |}).
  - intros _ Hs.
    assert (executions w' = executions w ∧ executed_under w' K = executed_under w K) as [-> ->]
      by (by destruct Hs as [[-> _]|[_ ->]]).
    apply (key_inv_same _ _ _ _ _ HK Hi).
  - intros _ (now & f & j & _ & ->). cbn [executions].
    apply (key_inv_same _ _ _ _ _ HK Hi).
Qed.

Lemma call_plausible w w' K P args m c rep :
  key_inv (executions w !! K) (executed_under w K) P → permitted K args m c →
  sem (Some K) w c rep w' → plausible c rep.
Proof.
  intros HK. destruct c; try done. cbn [permitted sem plausible]. intros (_ & <- & _) Hs.
  destruct Hs as [(t & view & Hst & _ & [->|[? ->]])|[_ [? ->]]]; [|done|done].
  intros Hc. unfold sql_read, mbind, option_bind in Hst. repeat (case_match; simplify_eq).
  simpl in Hc |- *. destruct (ki_completed _ _ _ HK _ eq_refl Hc) as (ev & _ & _ & a & b & _ & _ & ->).
  done.
Qed.

(** And leaves every other key alone. *)
Lemma statement_other {A} (w w' : world) (stmt : option (etable * A)) rep K' :
  (∀ t a, stmt = Some (t, a) → t !! K' = executions w !! K') → statement w stmt rep w' →
  executions w' !! K' = executions w !! K' ∧ executed_under w' K' = executed_under w K'.
Proof. intros Ht [(t & a & Hst & -> & _)|[-> _]]; [|done]. split; [by eapply Ht|done]. Qed.

Lemma call_other w w' K K' args m c rep :
  permitted K args m c → K' ≠ K → sem (Some K) w c rep w' →
  executions w' !! K' = executions w !! K' ∧ executed_under w' K' = executed_under w K'.
Proof.
  intros Hp Hne. destruct c; cbn [permitted sem] in *;
    try (apply statement_other; intros t a Hst;
         unfold sql_claim, sql_read, sql_reclaim, sql_complete, sql_release in Hst;
         unfold mbind, option_bind in Hst; repeat (case_match; simplify_eq);
         destruct Hp as (? & <- & ?) || destruct Hp as (? & <-);
         by rewrite ?lookup_insert_ne).
  - intros ->. split; [done|]. unfold executed_under; cbn [effects].
    rewrite filter_app, filter_cons, filter_nil. cbn [ev_key].
    rewrite decide_False by congruence. by rewrite app_nil_r.
  - by intros [[-> _]|[_ ->]].
  - by intros (now & f & j & _ & ->).
Qed.
End protocol.


(** ** The handler follows the protocol *)

Section gateway.
Context `{Cedar, Postgres, GoJson}.
Context (h : ToolGatewayHandlers) (Hlog : logs_invocations (Executor_ h)).

Lemma finish_disciplined (tenant : string) (b : toolCallRequest) policyID n (out : Outcome) res err :
  Result out = res →
  disciplined (tenant, IdempotencyKey b) (Args b) (Ran res err)
    (match err with
     | Some msg => Release tenant (IdempotencyKey b);; mret (ToolFailed msg)
     | None =>
         e ← Complete tenant (IdempotencyKey b) (Result out);
         mret (match e with
               | Some _ => executed policyID out None true
               | None => executed policyID out (Some n) false
               end)
     end).
Proof.
  intros <-. destruct err as [msg|].
  - simpl. split; [|done]. eauto.
  - unfold Complete. destruct (marshal_map (Result out)) as [a|] eqn:Ha; [|done].
    simpl. split; [|done]. eauto.
Qed.

Lemma run_claimed_disciplined tenant b policyID n :
  disciplined (tenant, IdempotencyKey b) (Args b) (Held true) (run_claimed h tenant b policyID n).
Proof using Hlog.
  unfold run_claimed, Execute. cbn [inv_ToolName invocation].
  destruct (Knows _ _); cbn [negb].
  - simpl. split; [done|]. intros r _. destruct (recorder (Executor_ h)) as [rcd|] eqn:Hr.
    + apply disciplined_neutral.
      * intros c He. apply emits_bind in He as [He|(? & _ & [])]. eapply record_neutral; eauto.
      * intros [out err] Hret. apply returns_bind in Hret as (written & _ & [= -> ->]).
        by apply finish_disciplined.
    + by apply (finish_disciplined tenant b policyID n
                  {| Result := tr_result r; Recorded := false; RecordErr := None |}).
  - simpl. split; [|done]. eauto.
Qed.

Lemma executeDeduplicated_disciplined r b policyID tenant :
  effectiveTenant (caller r) (tenant_header r) = Ok tenant →
  disciplined (tenant, IdempotencyKey b) (Args b) Idle (executeDeduplicated h r b policyID).
Proof using Hlog.
  intros Ht. unfold executeDeduplicated. destruct (negb _); [done|]. rewrite Ht.
  unfold Claim. destruct (sempty (IdempotencyKey b)); [done|].
  destruct (marshal_map (Args b)) as [a|] eqn:Ha; [|done].
  simpl. split; [done|]. intros [[]|msg] _; [by apply run_claimed_disciplined| |done].
  simpl. split; [done|]. intros [view|msg] Hpl; [|done].
  destruct (view_state view) eqn:Hst; simpl.
  - by destruct (negb _).
  - destruct (negb _); [done|]. destruct (Hpl eq_refl) as [res ->]. simpl.
    destruct (unmarshal_map _); [|done]. apply disciplined_neutral; [|done].
    intros c. by apply record_neutral.
  - split; [eauto|]. intros [[]|msg] _; [| |done].
    + destruct (view_same view); simpl; [by apply run_claimed_disciplined|done].
    + simpl. by destruct (negb _).
Qed.

(** ** Requests in a pool *)

(** The idempotency key of a request, in the tenant it acts for. *)
Definition req_key (r : request toolCallRequest) : option ekey :=
  match body r with
  | None => None
  | Some b =>
      if sempty (IdempotencyKey b) then None
      else match effectiveTenant (caller r) (tenant_header r) with
           | Ok tenant => Some (tenant, IdempotencyKey b)
           | Err _ => None
           end
  end.
Definition req_args (r : request toolCallRequest) : gomap :=
  match body r with Some b => Args b | None => None end.

(** One step of any gateway process: a call of a request being served, a request
    arriving, or a process dying. *)
Definition gateway_step : relation (world * gmap nat (request toolCallRequest * M Response)) :=
  pool_step (λ r, sem (req_key r)) (execute h).

(** Calls that claim nothing, for a request without a key. *)
Definition unclaimed (c : call) : Prop :=
  match c with CTool _ _ _ | CInvocation _ | CAppend _ _ => True | _ => False end.

Definition proc_ok (r : request toolCallRequest) (m : mode) (p : M Response) : Prop :=
  match req_key r with
  | Some K => disciplined K (req_args r) m p
  | None => ∀ c, emits p c → unclaimed c
  end.

Lemma refuse_neutral tenant b decision c : emits (refuse h tenant b decision) c → neutral c.
Proof using Hlog.
  intros He. apply emits_bind in He as [He|(journal & _ & He)].
  - destruct (dispositionOutcome _); [|done]. unfold journalDenial in He.
    destruct (_ || _); [done|]. destruct (negb _); [done|]. simpl in He.
    by destruct He as [->|[? []]].
  - apply emits_bind in He as [He|(? & _ & [])]. by eapply record_neutral.
Qed.

Lemma neutral_disciplined {A} K args m (p : M A) :
  (∀ c, emits p c → neutral c) → disciplined K args m p.
Proof.
  revert m. induction p as [a|c k IH]; intros m Hp; [done|].
  assert (neutral c) as Hc by (apply Hp; by left). split; [by destruct c|].
  intros r _. apply IH. intros c' He. apply Hp. right. eauto.
Qed.

Lemma execute_ok r : proc_ok r Idle (execute h r).
Proof using Hlog.
  unfold proc_ok, req_key, req_args, execute, engineFor.
  destruct (body r) as [b|]; [|done]. destruct (caller r) as [who|] eqn:Hc.
  2:{ case_match; [done|]. by destruct (sempty _). }
  destruct (effectiveTenant (Some who) (tenant_header r)) as [tenant|e] eqn:Ht.
  2:{ destruct (sempty _); destruct (negb _); done. }
  destruct (sempty (IdempotencyKey b)) eqn:Hk.
  - intros c. destruct (negb (ActsAs _ _)); [done|]. destruct (EngineFor _ _) as [engine|]; [|done].
    cbv zeta. destruct (negb (Allowed _)).
    + intros He%refuse_neutral. by destruct c.
    + cbn [negb]. intros He. apply emits_bind in He as [He|([? ?] & _ & [])].
      unfold Execute in He. destruct (negb _); [done|]. apply emits_bind in He as [He|(rr & _ & He)].
      { simpl in He. by destruct He as [->|[? []]]. }
      destruct (recorder _) eqn:Hrec; [|done]. apply emits_bind in He as [He|(? & _ & [])].
      apply record_neutral in He; [|done]. by destruct c.
  - destruct (negb (ActsAs _ _)); [done|]. destruct (EngineFor _ _) as [engine|]; [|done].
    cbv zeta. destruct (negb (Allowed _)).
    + apply neutral_disciplined, refuse_neutral.
    + cbn [negb]. apply executeDeduplicated_disciplined. by rewrite Hc.
Qed.

(** The requests being served, by process. *)
Abbreviation requests := (gmap nat (request toolCallRequest * M Response)).

(** The live processes of a key. *)
Definition procs (ps : requests) (modes : nat → mode) (K : ekey) : nat → option (gomap * mode) := λ i,
  match ps !! i with
  | Some (r, _) => if decide (req_key r = Some K) then Some (req_args r, modes i) else None
  | None => None
  end.

Definition inv_with (modes : nat → mode) (s : world * requests) : Prop :=
  (∀ i r p, s.2 !! i = Some (r, p) → proc_ok r (modes i) p) ∧
  ∀ K, key_inv (executions s.1 !! K) (executed_under s.1 K) (procs s.2 modes K).

Definition set_mode (modes : nat → mode) (i : nat) (m : mode) : nat → mode :=
  λ j, if decide (j = i) then m else modes j.

Lemma procs_set ps modes i r p m K j :
  procs (<[i := (r, p)]> ps) (set_mode modes i m) K j =
  set_proc (procs ps modes K) i (if decide (req_key r = Some K) then Some (req_args r, m) else None) j.
Proof.
  unfold procs, set_proc, set_mode. destruct (decide (j = i)) as [->|Hne].
  - by rewrite lookup_insert_eq.
  - by rewrite lookup_insert_ne.
Qed.

Lemma inv_call modes w ps i r c k rep w' :
  inv_with modes (w, ps) → ps !! i = Some (r, Vis c k) → sem (req_key r) w c rep w' →
  inv_with (set_mode modes i (next (modes i) c rep)) (w', <[i := (r, k rep)]> ps).
Proof.
  intros [Hok HK] Hi Hsem. simpl in Hok, HK.
  pose proof (Hok i r _ Hi) as Hp. unfold proc_ok in Hp.
  unfold inv_with. simpl. destruct (req_key r) as [K|] eqn:Hr.
  - destruct Hp as [Hperm Hcont].
    assert (procs ps modes K i = Some (req_args r, modes i)) as Hpi
      by (unfold procs; rewrite Hi; by rewrite decide_True).
    pose proof (call_plausible _ _ _ _ _ _ _ _ (HK K) Hperm Hsem) as Hpl. split.
    + intros j r' p. unfold set_mode. destruct (decide (j = i)) as [->|Hne].
      * rewrite lookup_insert_eq. intros [= <- <-]. unfold proc_ok. rewrite Hr. by apply Hcont.
      * rewrite lookup_insert_ne by done. by apply Hok.
    + intros K'. destruct (decide (K' = K)) as [->|Hne].
      * eapply key_inv_ext; [intros j; apply procs_set|]. rewrite decide_True by done.
        by eapply call_own.
      * destruct (call_other _ _ _ _ _ _ _ _ Hperm Hne Hsem) as [-> ->].
        eapply key_inv_ext; [intros j; apply procs_set|]. rewrite decide_False by congruence.
        apply key_inv_same; [apply HK|]. unfold procs. rewrite Hi. by rewrite decide_False by congruence.
  - split.
    + intros j r' p. unfold set_mode. destruct (decide (j = i)) as [->|Hne].
      * rewrite lookup_insert_eq. intros [= <- <-]. unfold proc_ok. rewrite Hr.
        intros c' He. apply Hp. right. eauto.
      * rewrite lookup_insert_ne by done. by apply Hok.
    + intros K'. assert (unclaimed c) as Hu by (apply Hp; by left).
      assert (executions w' = executions w ∧ executed_under w' K' = executed_under w K') as [-> ->].
      { destruct c; try done; simpl in Hsem.
        - subst w'. split; [done|]. unfold executed_under; cbn [effects].
          rewrite filter_app, filter_cons, filter_nil. cbn [ev_key].
          rewrite decide_False by done. by rewrite app_nil_r.
        - by destruct Hsem as [[-> _]|[_ ->]].
        - by destruct Hsem as (now & f & j & _ & ->). }
      eapply key_inv_ext; [intros j; apply procs_set|]. rewrite decide_False by congruence.
      apply key_inv_same; [apply HK|]. unfold procs. rewrite Hi. by rewrite decide_False by congruence.
Qed.

Lemma inv_spawn modes w ps i r :
  inv_with modes (w, ps) → inv_with (set_mode modes i Idle) (w, <[i := (r, execute h r)]> ps).
Proof using Hlog.
  intros [Hok HK]. split; simpl in *.
  - intros j r' p. unfold set_mode. destruct (decide (j = i)) as [->|Hne].
    + rewrite lookup_insert_eq. intros [= <- <-]. apply execute_ok.
    + rewrite lookup_insert_ne by done. by apply Hok.
  - intros K. eapply key_inv_ext; [intros j; apply procs_set|].
    apply key_inv_quiet; [apply HK|]. intros a m. destruct (decide _); [|done].
    intros [= <- <-]. split; intros [].
Qed.

Lemma inv_crash modes w ps i : inv_with modes (w, ps) → inv_with modes (w, delete i ps).
Proof.
  intros [Hok HK]. split; simpl in *.
  - intros j r' p Hj. apply lookup_delete_Some in Hj as [_ Hj]. by eapply Hok.
  - intros K. apply key_inv_ext with (P := set_proc (procs ps modes K) i None);
      [|by apply key_inv_quiet].
    intros j. unfold procs, set_proc. destruct (decide (j = i)) as [->|Hne];
      [by rewrite lookup_delete_eq|by rewrite lookup_delete_ne].
Qed.

(** A deployment whose claims table and execution log start empty. *)
Definition fresh (w : world) : Prop := executions w = ∅ ∧ effects w = [].

Lemma reachable_inv w0 s : fresh w0 → rtc gateway_step (w0, ∅) s → ∃ modes, inv_with modes s.
Proof using Hlog.
  intros [Hex Hef] Hrtc.
  assert (inv_with (λ _, Idle) (w0, ∅)) as H0'.
  { split; simpl; [by intros i r p|]. intros K. unfold executed_under.
    rewrite Hex, Hef, lookup_empty. unfold procs. split; try done.
    all: try (intros ev Hev; by apply not_elem_of_nil in Hev).
    by intros [|? ?] ev l2. }
  revert H0'. generalize (λ _ : nat, Idle).
  induction Hrtc as [|s1 s2 s3 Hs _ IH]; intros modes Hinv; [by exists modes|].
  destruct Hs; eapply IH; eauto using inv_call, inv_spawn, inv_crash.
Qed.

(** C1. However requests interleave, fail or die, the executions under one
    idempotency key of a tenant are attempts that failed, then at most one that
    succeeded, after which the tool is never run under that key again. *)
Theorem at_most_once w0 w ps K l1 ev l2 :
  fresh w0 → rtc gateway_step (w0, ∅) (w, ps) →
  executed_under w K = (l1 ++ ev :: l2)%list → ev_err ev = None → l2 = [].
Proof using Hlog.
  intros Hf Hr. destruct (reachable_inv _ _ Hf Hr) as (modes & _ & HK). apply (ki_last _ _ _ (HK K)).
Qed.

(** C17. No two live requests ever stand at the tool call of the same idempotency
    key: the claim is a mutual exclusion, across processes and crashes. *)
Theorem one_claim_at_a_time w0 w ps K i j ri rj ti tj tli tlj ai aj ki kj :
  fresh w0 → rtc gateway_step (w0, ∅) (w, ps) →
  ps !! i = Some (ri, Vis (CTool ti tli ai) ki) → req_key ri = Some K →
  ps !! j = Some (rj, Vis (CTool tj tlj aj) kj) → req_key rj = Some K → i = j.
Proof using Hlog.
  intros Hf Hr Hi HKi Hj HKj. destruct (reachable_inv _ _ Hf Hr) as (modes & Hok & HK).
  pose proof (Hok _ _ _ Hi) as Hpi. pose proof (Hok _ _ _ Hj) as Hpj.
  unfold proc_ok in Hpi, Hpj. rewrite HKi in Hpi. rewrite HKj in Hpj.
  destruct Hpi as [[Hmi _] _], Hpj as [[Hmj _] _].
  eapply (ki_one _ _ _ (HK K) i j (req_args ri) (modes i) (req_args rj) (modes j)).
  - unfold procs. simpl. rewrite Hi. by rewrite decide_True.
  - unfold procs. simpl. rewrite Hj. by rewrite decide_True.
  - by rewrite Hmi.
  - by rewrite Hmj.
Qed.

(** C19. What a later call is answered without running the tool is what the tool
    answered: a claims row reported completed to a request with the same
    arguments holds, as JSON, the result of an execution that succeeded under that
    key, whose arguments have the same JSON as the request's. *)
Theorem replay_is_the_execution w0 w ps tenant key args a view t :
  fresh w0 → rtc gateway_step (w0, ∅) (w, ps) → marshal_map args = Some a →
  sql_read (executions w) tenant key a = Some (t, view) →
  view_state view = Completed_ → view_same view = true →
  ∃ ev b res, ev ∈ executed_under w (tenant, key) ∧ ev_err ev = None ∧
    (b' ← marshal_map (ev_args ev); to_jsonb b') = Some b ∧ to_jsonb a = Some b ∧
    (r' ← marshal_map (ev_result ev); to_jsonb r') = Some res ∧ view_result view = Some res.
Proof using Hlog.
  intros Hf Hr Ha Hread Hst Hsame. destruct (reachable_inv _ _ Hf Hr) as (modes & _ & HK).
  unfold sql_read, mbind, option_bind in Hread. repeat (case_match; simplify_eq). simpl in *.
  rename select (executions w !! _ = Some _) into Hrow. rename select (to_jsonb a = Some _) into Hb.
  specialize (HK (tenant, key)). simpl in HK. rewrite Hrow in HK.
  destruct (ki_completed _ _ _ HK _ eq_refl Hst) as (ev & Hev & Herr & ra & rb & Hra & Hrb & Hrow').
  destruct (ki_events _ _ _ HK ev Hev) as (? & [= <-] & ea & eb & Hea & Heb & Hargs).
  apply bool_decide_eq_true_1 in Hsame. eexists ev, _, rb.
  rewrite Hea, Hra. cbn. split_and!; try done. congruence.
Qed.

(** ** Claims nobody owns *)

(** The key's row is in flight, and no live request of the key holds it. *)
Definition stranded (modes : nat → mode) (K : ekey) (s : world * requests) : Prop :=
  (∃ r, executions s.1 !! K = Some r ∧ ex_state r = InFlight) ∧
  ∀ i r p, s.2 !! i = Some (r, p) → req_key r = Some K → ¬ holding (modes i).

Lemma stranded_own w w' K args m c rep r :
  executions w !! K = Some r → ex_state r = InFlight → ¬ holding m →
  permitted K args m c → sem (Some K) w c rep w' →
  executions w' !! K = Some r ∧ executed_under w' K = executed_under w K ∧ ¬ holding (next m c rep).
Proof.
  intros Hrow Hst Hm. destruct c; cbn [permitted sem next].
  - intros (_ & <- & _) [(t & x & Hs & -> & Hrep)|[-> [e ->]]]; [|by split_and!; [|..|intros []]].
    unfold sql_claim in Hs. rewrite Hrow in Hs. destruct (_ && _); [|done].
    destruct (to_jsonb _); [|done]. simpl in Hs. simplify_eq.
    destruct Hrep as [Hrep|[? Hrep]]; rewrite Hrep; by split_and!; [|..|intros []].
  - intros (_ & <- & _) [(t & x & Hs & -> & Hrep)|[-> [e ->]]]; [|by split_and!; [|..|intros []]].
    unfold sql_read in Hs. rewrite Hrow in Hs. destruct (_ && _); [|done].
    destruct (to_jsonb _); [|done]. simpl in Hs. simplify_eq.
    destruct Hrep as [Hrep|[? Hrep]]; rewrite Hrep; by split_and!; [|..|intros []].
  - intros (_ & <-) [(t & x & Hs & -> & Hrep)|[-> [e ->]]]; [|by split_and!; [|..|intros []]].
    unfold sql_reclaim in Hs. rewrite Hrow, Hst in Hs. destruct (_ && _); [|done]. simplify_eq.
    destruct Hrep as [Hrep|[? Hrep]]; rewrite Hrep; by split_and!; [|..|intros []].
  - by intros ((res0 & -> & _) & _).
  - by intros ([[? ->]|(? & ? & ->)] & _).
  - by intros [-> _].
  - intros _ Hs. by destruct Hs as [[-> _]|[_ ->]].
  - by intros _ (now & f & j & _ & ->).
Qed.

Lemma stranded_step modes K w ps w' ps' :
  inv_with modes (w, ps) → stranded modes K (w, ps) → gateway_step (w, ps) (w', ps') →
  ∃ modes', inv_with modes' (w', ps') ∧ stranded modes' K (w', ps') ∧
    executions w' !! K = executions w !! K ∧ executed_under w' K = executed_under w K.
Proof using Hlog.
  intros Hinv [(r0 & Hrow & Hst) Hno] Hs. simpl in *. inversion Hs as [? ? i r c k rep ? Hi Hsem|? ? i r Hi|? ? i]; subst.
  - eexists. split; [by eapply inv_call|].
    assert (executions w' !! K = Some r0 ∧ executed_under w' K = executed_under w K ∧
            (req_key r = Some K → ¬ holding (next (modes i) c rep))) as (Hr' & He' & Hm').
    { pose proof (proj1 Hinv _ _ _ Hi) as Hp. unfold proc_ok in Hp.
      destruct (req_key r) as [K'|] eqn:HK'.
      - destruct Hp as [Hperm _]. destruct (decide (K' = K)) as [->|Hne].
        + destruct (stranded_own _ _ _ _ _ _ _ _ Hrow Hst (Hno _ _ _ Hi HK') Hperm Hsem) as (? & ? & ?).
          done.
        + destruct (call_other _ _ _ K _ _ _ _ Hperm (not_eq_sym Hne) Hsem) as [-> ->].
          split_and!; [done|done|]. intros [=]. congruence.
      - assert (unclaimed c) as Hu by (apply Hp; by left). split_and!; [| |done].
        + destruct c; try done; simpl in Hsem; [by subst w'|by destruct Hsem as [[-> _]|[_ ->]]|].
          by destruct Hsem as (now & f & j & _ & ->).
        + destruct c; try done; simpl in Hsem.
          * subst w'. unfold executed_under; cbn [effects]. rewrite filter_app, filter_cons, filter_nil.
            cbn [ev_key]. rewrite decide_False by done. by rewrite app_nil_r.
          * by destruct Hsem as [[-> _]|[_ ->]].
          * by destruct Hsem as (now & f & j & _ & ->). }
    rewrite Hr', He', Hrow. split_and!; try done. split; [eauto|]. simpl.
    intros j r' p. unfold set_mode. destruct (decide (j = i)) as [->|Hne].
    + rewrite lookup_insert_eq. intros [= <- <-]. done.
    + rewrite lookup_insert_ne by done. apply Hno.
  - eexists. split; [by apply inv_spawn|]. split_and!; try done. split; [eauto|]. simpl.
    intros j r' p. unfold set_mode. destruct (decide (j = i)) as [->|Hne]; [intros _ _ []|].
    rewrite lookup_insert_ne by done. apply Hno.
  - eexists. split; [by apply inv_crash|]. split_and!; try done. split; [eauto|]. simpl.
    intros j r' p Hj. apply lookup_delete_Some in Hj as [_ Hj]. by eapply Hno.
Qed.

(** A claim whose owner is gone is never taken again: once a key's row is in
    flight and no live request has that key (its process died, or answered
    without completing or releasing), the row stays in flight and the tool is
    never run under the key, whatever requests arrive. In particular a retry after
    a result that could not be recorded does not execute again. *)
Theorem unowned_claim_is_forever w0 w ps K r w' ps' :
  fresh w0 → rtc gateway_step (w0, ∅) (w, ps) →
  executions w !! K = Some r → ex_state r = InFlight →
  (∀ i rq p, ps !! i = Some (rq, p) → req_key rq ≠ Some K) →
  rtc gateway_step (w, ps) (w', ps') →
  executions w' !! K = Some r ∧ executed_under w' K = executed_under w K.
Proof using Hlog.
  intros Hf Hr Hrow Hst Hno Hrtc. destruct (reachable_inv _ _ Hf Hr) as [modes Hinv].
  assert (stranded modes K (w, ps)) as Hs.
  { split; [by eauto|]. intros i rq p Hi HK. by destruct (Hno i rq p Hi). }
  rewrite <-Hrow. clear Hf Hr Hno Hrow Hst r.
  remember (w, ps) as s eqn:Hs0. remember (w', ps') as s' eqn:Hs1.
  revert modes w ps w' ps' Hs0 Hs1 Hinv Hs.
  induction Hrtc as [s|s1 [w2 ps2] s3 Hstep _ IH]; intros modes w ps w' ps' -> Hs1 Hinv Hs.
  - by simplify_eq.
  - destruct (stranded_step _ _ _ _ _ _ Hinv Hs Hstep) as (modes' & Hinv' & Hs' & He & Hx).
    rewrite <-He, <-Hx. by eapply IH.
Qed.

Lemma step_call w w' ps i rq c k rep :
  sem (req_key rq) w c rep w' →
  gateway_step (w, <[i := (rq, Vis c k)]> ps) (w', <[i := (rq, k rep)]> ps).
Proof.
  intros Hs. rewrite <-(insert_insert_eq ps i (rq, k rep) (rq, Vis c k)).
  eapply (pool_call _ _ w _ i rq c k rep w'); [apply lookup_insert_eq|done].
Qed.

Lemma answered w t {A} (a : A) : statement w (Some (t, a)) (Ok a) (put_executions w t).
Proof. left. exists t, a. auto. Qed.

(** A retry with other arguments strands the key: when an earlier attempt
    failed and released its key, a request that reuses the key with different
    arguments, and meets no fault at all, takes the claim before noticing, answers
    409 and ends; the row is left in flight with nobody to complete or release it,
    so the original request can never be retried. *)
Theorem diverged_claim_strands_key w ps i rq b who engine tenant a j r :
  let K := (tenant, IdempotencyKey b) in
  body rq = Some b → caller rq = Some who → ActsAs who (AgentManifestRef b) = true →
  effectiveTenant (Some who) (tenant_header rq) = Ok tenant →
  EngineFor (Policy h) tenant = Some engine →
  Allowed (IsAllowed engine (AgentManifestRef b) (ToolName b)) = true →
  Executions h = true → IdempotencyKey b ≠ "" →
  marshal_map (Args b) = Some a → to_jsonb a = Some j →
  text_ok tenant = true → text_ok (IdempotencyKey b) = true → text_ok (ToolName b) = true →
  text_ok (AgentManifestRef b) = true →
  executions w !! K = Some r → ex_state r = Released → ex_args r ≠ Some j →
  rtc gateway_step (w, <[i := (rq, execute h rq)]> ps)
    (put_executions w (<[K := with_state r InFlight (ex_result r) (ex_failed r)]> (executions w)),
     <[i := (rq, Ret (KeyReused (IdempotencyKey b)))]> ps).
Proof.
  intros K Hb Hc Ha Ht He Hok Hx Hk%sempty_false Hm Hj T1 T2 T3 T4 Hrow Hst Hne.
  unfold execute at 1. rewrite Hb, Hc, Ha. unfold engineFor. rewrite Hc, Ht, He. cbv zeta. rewrite Hok, Hk.
  cbn [negb]. unfold executeDeduplicated. rewrite Hx, Hc, Ht. unfold Claim. rewrite Hk, Hm. cbn [negb].
  eapply rtc_l.
  { apply (step_call w w) with (rep := Ok false). cbn [sem]. unfold sql_claim. rewrite T1, T2, T3, T4. cbn.
    rewrite Hj. cbn. fold K. rewrite Hrow. left. exists (executions w), false. by destruct w; auto. }
  eapply rtc_l.
  { apply (step_call w w) with (rep := Ok {| view_result := ex_result r; view_state := ex_state r;
      view_same := bool_decide (ex_args r = Some j); view_failed := ex_failed r |}).
    cbn [sem]. unfold sql_read. rewrite T1, T2. cbn. rewrite Hj. cbn. fold K. rewrite Hrow. cbn.
    left. eexists (executions w), _. by destruct w; auto. }
  cbn [view_state]. rewrite Hst, bool_decide_eq_false_2 by done. eapply rtc_l.
  { apply step_call with (rep := Ok true). cbn [sem]. unfold sql_reclaim. rewrite T1, T2. cbn. fold K.
    rewrite Hrow, Hst. apply answered. }
  apply rtc_refl.
Qed.

(** ** A world where nothing fails *)

Definition reply_ok {A} (w : world) (stmt : option (etable * A)) : world * result string A :=
  match stmt with
  | Some (t, a) => (put_executions w t, Ok a)
  | None => (w, Err "statement refused")
  end.

(** Every statement is performed and answered; [tool] is what the tool answers. *)
Definition serve (key : option ekey) (tool : tool_reply) (w : world) (c : call) : world * reply c :=
  match c with
  | CClaim tenant k tl agent args => reply_ok w (sql_claim (executions w) tenant k tl agent args)
  | CRead tenant k args => reply_ok w (sql_read (executions w) tenant k args)
  | CReclaim tenant k => reply_ok w (sql_reclaim (executions w) tenant k)
  | CComplete tenant k res => reply_ok w (sql_complete (executions w) tenant k res)
  | CRelease tenant k => reply_ok w (sql_release (executions w) tenant k)
  | CTool tenant tl args =>
      ({| executions := executions w; journal := journal w; invocations := invocations w;
          effects := effects w ++ [{| ev_key := key; ev_tenant := tenant; ev_tool := tl;
                                      ev_args := args; ev_result := tr_result tool;
                                      ev_err := tr_err tool |}] |}, tool)
  | CInvocation row =>
      if invocation_row_valid row
      then ({| executions := executions w; journal := journal w;
               invocations := invocations w ++ [row]; effects := effects w |}, None)
      else (w, Some "constraint violated")
  | CAppend tenant e =>
      let '(j, r) := Append tenant 0 no_faults e (journal w) in
      ({| executions := executions w; journal := j; invocations := invocations w;
          effects := effects w |}, r)
  end%list.

Lemma serve_sem key tool w c : sem key w c (serve key tool w c).2 (serve key tool w c).1.
Proof.
  assert (∀ A (stmt : option (etable * A)), statement w stmt (reply_ok w stmt).2 (reply_ok w stmt).1) as Hs.
  { intros A [[t a]|]; [apply answered|]. right. eauto. }
  destruct c; cbn [sem serve]; try apply Hs.
  - done.
  - destruct (invocation_row_valid r) eqn:Hv; [by right|left]. eauto.
  - destruct (Append _ _ _ _ _) as [j r] eqn:Ha. exists 0%Z, no_faults, j. done.
Qed.

(** Serving a request to its end is a run of the pool. *)
Lemma serve_reaches tool rq i ps p : ∀ w,
  rtc gateway_step (w, <[i := (rq, p)]> ps)
    ((run (serve (req_key rq) tool) w p).1, <[i := (rq, Ret (run (serve (req_key rq) tool) w p).2)]> ps).
Proof.
  induction p as [a|c k IH]; intros w; [done|]. simpl.
  pose proof (serve_sem (req_key rq) tool w c) as Hs.
  destruct (serve (req_key rq) tool w c) as [w' r]. simpl in Hs.
  eapply rtc_l; [by apply step_call|]. apply IH.
Qed.

Lemma record_run key tool w rec :
  ∃ w' o, run (serve key tool) w (record (Executor_ h) rec) = (w', o) ∧
    executions w' = executions w ∧ effects w' = effects w.
Proof using Hlog.
  unfold record. destruct Hlog as [Hr|[d Hr]]; rewrite Hr; simpl; [eauto|].
  destruct (invocation_row_valid _); simpl; eauto.
Qed.

(** The row a completed execution leaves. *)
Definition completed_row (b : toolCallRequest) (j rb : jsonb) : exec_row :=
  {| ex_tool := ToolName b; ex_agent := AgentManifestRef b; ex_args := Some j; ex_result := Some rb;
     ex_state := Completed_; ex_failed := 0 |}.

Section replay.
Context (rq : request toolCallRequest) (b : toolCallRequest) (policyID tenant : string) (tool : tool_reply).
Context (a ra : json) (j rb : jsonb) (res' : gomap).
Context (Hk : IdempotencyKey b ≠ "") (Hx : Executions h = true).
Context (Ht : effectiveTenant (caller rq) (tenant_header rq) = Ok tenant).
Context (Hm : marshal_map (Args b) = Some a) (Hj : to_jsonb a = Some j).
Context (Hok : Knows (Executor_ h) (ToolName b) = true) (Herr : tr_err tool = None).
Context (Hrm : marshal_map (tr_result tool) = Some ra) (Hrj : to_jsonb ra = Some rb).
Context (Hun : unmarshal_map (jsonb_out rb) = Some res').
Context (Htext : text_ok tenant && text_ok (IdempotencyKey b) = true).
Context (Htext' : text_ok (ToolName b) && text_ok (AgentManifestRef b) = true).
Abbreviation K := (tenant, IdempotencyKey b).
Abbreviation served := (run (serve (Some K) tool)).

Lemma first_run w :
  executions w !! K = None →
  ∃ w1 failed rec recErr, served w (executeDeduplicated h rq b policyID) =
      (w1, Executed policyID (tr_result tool) failed false rec recErr) ∧
    executions w1 !! K = Some (completed_row b j rb) ∧
    effects w1 = (effects w ++ [{| ev_key := Some K; ev_tenant := tenant; ev_tool := ToolName b;
                                   ev_args := Args b; ev_result := tr_result tool;
                                   ev_err := None |}])%list.
Proof using Type*.
  intros Hrow. apply sempty_false in Hk. apply andb_true_iff in Htext as [T1 T2], Htext' as [T3 T4].
  unfold executeDeduplicated. rewrite Hx, Ht. cbn [negb]. rewrite run_bind. unfold Claim.
  rewrite Hk, Hm. simpl. unfold sql_claim at 1. rewrite T1, T2, T3, T4. simpl. rewrite Hj. simpl.
  rewrite Hrow. simpl. unfold run_claimed. rewrite run_bind. unfold Execute. cbn [inv_ToolName invocation].
  rewrite Hok. simpl.
  assert (∀ w2 out, executions w2 !! K = Some (with_state (completed_row b j rb) InFlight None 0) →
    ∃ w3, run (serve (Some K) tool) w2
      (err ← Complete tenant (IdempotencyKey b) (tr_result tool);
       mret (match err with Some _ => executed policyID out None true
             | None => executed policyID out (Some 0%Z) false end)) =
      (w3, executed policyID out (Some 0%Z) false) ∧
      executions w3 !! K = Some (completed_row b j rb) ∧ effects w3 = effects w2) as Hend.
  { intros w2 out Hrow2. unfold Complete. rewrite Hrm. simpl. unfold sql_complete.
    rewrite T1, T2. simpl. rewrite Hrj. simpl. rewrite Hrow2. simpl. eexists. split; [done|].
    simpl. by rewrite lookup_insert_eq. }
  destruct (recorder (Executor_ h)) as [rcd|] eqn:Hrec; rewrite ?run_bind, ?Herr; simpl.
  - edestruct (record_run (Some K) tool) as (w2 & o & -> & He & Hf). simpl.
    destruct (Hend w2 {| Result := tr_result tool; Recorded := Recorded o; RecordErr := RecordErr o |})
      as (w3 & -> & H1' & H2'); [rewrite He; simpl; by rewrite lookup_insert_eq|].
    eexists _, _, _, _. split; [reflexivity|]. split; [done|]. by rewrite H2', Hf.
  - edestruct (λ w2, Hend w2 {| Result := tr_result tool; Recorded := false; RecordErr := None |})
      as (w3 & -> & H1' & H2'); [simpl; by rewrite lookup_insert_eq|].
    eexists _, _, _, _. split; [reflexivity|]. split; [done|]. by rewrite H2'.
Qed.

Lemma second_run w :
  executions w !! K = Some (completed_row b j rb) →
  ∃ w2 rec, served w (executeDeduplicated h rq b policyID) = (w2, Replayed policyID res' rec) ∧
    effects w2 = effects w ∧ executions w2 = executions w.
Proof using Type*.
  intros Hrow. apply sempty_false in Hk. apply andb_true_iff in Htext as [T1 T2], Htext' as [T3 T4].
  unfold executeDeduplicated. rewrite Hx, Ht. cbn [negb]. rewrite run_bind. unfold Claim.
  rewrite Hk, Hm. simpl. unfold sql_claim at 1. rewrite T1, T2, T3, T4. simpl. rewrite Hj. simpl.
  rewrite Hrow. simpl. unfold sql_read. rewrite T1, T2. simpl. rewrite Hj. simpl. rewrite Hrow. simpl.
  rewrite bool_decide_eq_true_2 by done. simpl. rewrite Hun, run_bind. unfold RecordReplay.
  edestruct (record_run (Some K) tool) as (w2 & o & -> & He & Hf).
  simpl. eexists _, _. split; [reflexivity|]. by rewrite Hf, He.
Qed.
End replay.

(** Deduplication works when nothing fails: the first request under a new key
    runs the tool once and returns its result, and the same request sent again
    returns that result as it was recorded, without running the tool. *)
Theorem dedupe_replays w rq b who engine tenant tool a ra j rb res' :
  let policyID := PolicyID (IsAllowed engine (AgentManifestRef b) (ToolName b)) in
  let K := (tenant, IdempotencyKey b) in
  let served w := run (serve (Some K) tool) w (execute h rq) in
  body rq = Some b → caller rq = Some who → ActsAs who (AgentManifestRef b) = true →
  effectiveTenant (Some who) (tenant_header rq) = Ok tenant →
  EngineFor (Policy h) tenant = Some engine →
  Allowed (IsAllowed engine (AgentManifestRef b) (ToolName b)) = true →
  Executions h = true → IdempotencyKey b ≠ "" →
  text_ok tenant && text_ok (IdempotencyKey b) = true →
  text_ok (ToolName b) && text_ok (AgentManifestRef b) = true →
  Knows (Executor_ h) (ToolName b) = true → tr_err tool = None →
  marshal_map (Args b) = Some a → to_jsonb a = Some j →
  marshal_map (tr_result tool) = Some ra → to_jsonb ra = Some rb →
  unmarshal_map (jsonb_out rb) = Some res' → executions w !! K = None →
  ∃ w1 w2 failed rec recErr rec',
    served w = (w1, Executed policyID (tr_result tool) failed false rec recErr) ∧
    served w1 = (w2, Replayed policyID res' rec') ∧
    effects w1 = (effects w ++ [{| ev_key := Some K; ev_tenant := tenant; ev_tool := ToolName b;
                                   ev_args := Args b; ev_result := tr_result tool;
                                   ev_err := None |}])%list ∧
    effects w2 = effects w1.
Proof using Hlog.
  intros policyID K served Hb Hc Ha Ht He Hok Hx Hk T T' Hkn Herr Hm Hj Hrm Hrj Hun Hrow.
  assert (execute h rq = executeDeduplicated h rq b policyID) as Heq.
  { unfold execute, engineFor. rewrite Hb, Hc, Ha, Ht, He. cbv zeta. rewrite Hok.
    apply sempty_false in Hk. by rewrite Hk. }
  assert (effectiveTenant (caller rq) (tenant_header rq) = Ok tenant) as Ht' by (by rewrite Hc).
  subst served. cbv beta. rewrite Heq.
  destruct (first_run rq b policyID tenant tool a ra j rb res' Hk Hx Ht' Hm Hj Hkn Herr Hrm Hrj Hun T T' w Hrow)
    as (w1 & failed & rec & recErr & H1' & Hr1 & He1).
  destruct (second_run rq b policyID tenant tool a ra j rb res' Hk Hx Ht' Hm Hj Hkn Herr Hrm Hrj Hun T T' w1 Hr1)
    as (w2 & rec' & H2' & He2 & _).
  exists w1, w2, failed, rec, recErr, rec'. done.
Qed.
End gateway.

(** ** Witnesses *)

Module ToolWitnesses.
Import ToyCedar.
#[local] Existing Instance verbatim_postgres.

#[local] Existing Instance flat_json.

Definition agent : Caller :=
  {| ID := "svc"; Kind := KindService; TokenSHA256 := ""; MayActAs := ["a@1"]; MayApprove := false;
     Tenant := "team-a"; MayActForTenants := [] |}.
Definition gw : ToolGatewayHandlers :=
  {| Policy := Some PolicyWitnesses.toy_set;
     Executor_ := WithRecorder (Register NewExecutor "search.web") (ToolInvocationRecorder "default");
     Executions := true; Checkpointer := true |}.
Definition call_body (tool q : string) : toolCallRequest :=
  {| AgentManifestRef := "a@1"; ToolName := tool; Args := Some {["q" := AString q]};
     IdempotencyKey := "k1"; req_RunID := "r"; req_StepID := "s" |}.
Definition req (tool q : string) : request toolCallRequest :=
  {| body := Some (call_body tool q); caller := Some agent; tenant_header := "" |}.
Definition empty_world : world :=
  {| executions := ∅; journal := ∅; invocations := []; effects := [] |}.
Definition answer : tool_reply := {| tr_result := Some {["r" := AString "42"]}; tr_err := None; tr_ms := 3 |}.
Definition failure : tool_reply := {| tr_result := None; tr_err := Some "boom"; tr_ms := 3 |}.

Lemma gw_logs : logs_invocations (Executor_ gw).
Proof. right. by exists "default". Qed.

Lemma fresh_empty : fresh empty_world.
Proof. done. Qed.

(** One request served to its end, from a pool, and removed from it. *)
Definition after (tool : tool_reply) (rq : request toolCallRequest) (w : world) : world :=
  (run (serve (req_key rq) tool) w (execute gw rq)).1.
Lemma served_reaches tool rq w : rtc (gateway_step gw) (w, ∅) (after tool rq w, ∅).
Proof.
  eapply rtc_l; [by apply (pool_spawn _ _ w ∅ 0%nat rq)|].
  etrans; [apply (serve_reaches gw tool rq 0%nat ∅ (execute gw rq) w)|].
  apply rtc_once.
  assert (∀ x : request toolCallRequest * M Response, ∅ = delete 0%nat (<[0%nat := x]> ∅)) as Hd
    by (intros x; by rewrite delete_insert_eq, delete_empty).
  rewrite (Hd (rq, Ret (run (serve (req_key rq) tool) w (execute gw rq)).2)) at 2. apply pool_crash.
Qed.

(** A failed attempt, and the retry that succeeds. *)
Definition w1 : world := after failure (req "search.web" "x") empty_world.
Definition w2 : world := after answer (req "search.web" "x") w1.
Definition K1 : ekey := ("team-a", "k1").
Lemma w1_reachable : rtc (gateway_step gw) (empty_world, ∅) (w1, ∅).
Proof. apply served_reaches. Qed.
Lemma w2_reachable : rtc (gateway_step gw) (empty_world, ∅) (w2, ∅).
Proof. etrans; apply served_reaches. Qed.

Lemma w2_history : map ev_err (executed_under w2 K1) = [Some "boom"; None].
Proof. vm_compute. reflexivity. Qed.
Lemma at_most_once_witness :
  map ev_err (executed_under w2 K1) = [Some "boom"; None] ∧
  ∀ l1 ev l2, executed_under w2 K1 = (l1 ++ ev :: l2)%list → ev_err ev = None → l2 = [].
Proof.
  split; [exact w2_history|]. intros l1 ev l2.
  exact (at_most_once gw gw_logs empty_world w2 ∅ K1 l1 ev l2 fresh_empty w2_reachable).
Defined.

(** A request standing at its tool call. *)
Definition at_tool : world * M Response :=
  let '(w, _) := reply_ok empty_world (sql_claim ∅ "team-a" "k1" "search.web" "a@1"
                    (JObject [("q", JString "x")])) in
  (w, run_claimed gw "team-a" (call_body "search.web" "x") "search" 0).

Lemma one_claim_at_a_time_witness :
  ∃ ps k, rtc (gateway_step gw) (empty_world, ∅) (at_tool.1, ps) ∧
    ps !! 0%nat = Some (req "search.web" "x", Vis (CTool "team-a" "search.web" (Args (call_body "search.web" "x"))) k) ∧
    ∀ j rj tj tlj aj kj, ps !! j = Some (rj, Vis (CTool tj tlj aj) kj) → req_key rj = Some K1 → 0%nat = j.
Proof.
  assert (rtc (gateway_step gw) (empty_world, ∅)
            (at_tool.1, <[0%nat := (req "search.web" "x", at_tool.2)]> ∅)) as Hr.
  { eapply rtc_l; [by apply (pool_spawn _ _ empty_world ∅ 0%nat (req "search.web" "x"))|].
    assert (∃ k, execute gw (req "search.web" "x") =
                   Vis (CClaim "team-a" "k1" "search.web" "a@1" (JObject [("q", JString "x")])) k ∧
                 k (Ok true) = at_tool.2) as (k & -> & <-).
    { eexists. split; [vm_compute; reflexivity|]. vm_compute. reflexivity. }
    apply rtc_once, step_call.
    left. eexists _, true. split; [reflexivity|]. split; [reflexivity|]. by left. }
  eexists _, _. split; [exact Hr|]. split; [reflexivity|].
  intros j rj tj tlj aj kj Hj HK.
  exact (one_claim_at_a_time gw gw_logs empty_world at_tool.1 _ K1 0%nat j _ rj _ tj _ tlj _ aj _ kj
           fresh_empty Hr eq_refl eq_refl Hj HK).
Defined.

Definition doc_x : json := JObject [("q", JString "x")].
Definition doc_r : @jsonb verbatim_postgres := JObject [("r", JString "42")].
Definition seen : @exec_view verbatim_postgres :=
  {| view_result := Some doc_r; view_state := Completed_; view_same := true; view_failed := 1 |}.
Lemma read_w2 : sql_read (executions w2) "team-a" "k1" doc_x = Some (executions w2, seen).
Proof. vm_compute. reflexivity. Qed.
Lemma replay_is_the_execution_witness :
  ∃ ev, ev ∈ executed_under w2 K1 ∧ ev_err ev = None.
Proof.
  destruct (replay_is_the_execution gw gw_logs empty_world w2 ∅ "team-a" "k1"
              (Args (call_body "search.web" "x")) doc_x seen (executions w2))
    as (ev & ? & ? & Hev & Herr & _);
    [exact fresh_empty|exact w2_reachable|reflexivity|exact read_w2|reflexivity|reflexivity|].
  exists ev. split; [exact Hev|exact Herr].
Defined.

(** The key released by the failed attempt, reused with other arguments. *)
Definition args_x : @jsonb verbatim_postgres := doc_x.
Definition released : @exec_row verbatim_postgres :=
  {| ex_tool := "search.web"; ex_agent := "a@1"; ex_args := Some args_x; ex_result := None;
     ex_state := Released; ex_failed := 1 |}.
Definition w3 : world :=
  put_executions w1 (<[K1 := with_state released InFlight None 1]> (executions w1)).
Lemma diverged_claim_strands_key_witness :
  rtc (gateway_step gw) (w1, {[0%nat := (req "search.web" "y", execute gw (req "search.web" "y"))]})
    (w3, {[0%nat := (req "search.web" "y", Ret (KeyReused "k1"))]}).
Proof.
  apply (diverged_claim_strands_key gw w1 ∅ 0%nat (req "search.web" "y") (call_body "search.web" "y")
           agent toy_engine "team-a" (JObject [("q", JString "y")]) (JObject [("q", JString "y")]) released);
    try reflexivity; discriminate.
Defined.

(** A process that died holding the key, and a retry of its request. *)
Definition claimed_row : @exec_row verbatim_postgres :=
  {| ex_tool := "search.web"; ex_agent := "a@1"; ex_args := Some args_x; ex_result := None;
     ex_state := InFlight; ex_failed := 0 |}.
Lemma crash_reachable : rtc (gateway_step gw) (empty_world, ∅) (at_tool.1, ∅).
Proof.
  eapply rtc_l; [by apply (pool_spawn _ _ empty_world ∅ 0%nat (req "search.web" "x"))|].
  assert (∃ k, execute gw (req "search.web" "x") =
                 Vis (CClaim "team-a" "k1" "search.web" "a@1" (JObject [("q", JString "x")])) k) as (k & ->).
  { eexists. vm_compute. reflexivity. }
  eapply rtc_l.
  { apply step_call with (rep := Ok true) (w' := at_tool.1).
    left. eexists _, true. split; [reflexivity|]. split; [reflexivity|]. by left. }
  apply rtc_once.
  assert (∀ x : request toolCallRequest * M Response, ∅ = delete 0%nat (<[0%nat := x]> ∅)) as Hd
    by (intros x; by rewrite delete_insert_eq, delete_empty).
  rewrite (Hd (req "search.web" "x", k (Ok true))) at 2. apply pool_crash.
Qed.

Lemma unowned_claim_is_forever_witness :
  (run (serve (Some K1) answer) at_tool.1 (execute gw (req "search.web" "x"))).2 = KeyInFlight "k1" ∧
  executed_under (after answer (req "search.web" "x") at_tool.1) K1 = [].
Proof.
  split; [vm_compute; reflexivity|].
  exact (proj2 (unowned_claim_is_forever gw gw_logs empty_world at_tool.1 ∅ K1 claimed_row
    (after answer (req "search.web" "x") at_tool.1) ∅ fresh_empty crash_reachable eq_refl eq_refl
    (λ i rq p Hi, False_ind _ (eq_ind None (λ o, match o with None => True | Some _ => False end) I _ Hi))
    (served_reaches answer (req "search.web" "x") at_tool.1))).
Defined.

Lemma dedupe_replays_witness :
  ∃ w w' first rec, run (serve (Some K1) answer) empty_world (execute gw (req "search.web" "x")) = (w, first) ∧
    run (serve (Some K1) answer) w (execute gw (req "search.web" "x")) = (w', Replayed "search" (tr_result answer) rec).
Proof.
  destruct (dedupe_replays gw gw_logs empty_world (req "search.web" "x") (call_body "search.web" "x")
              agent toy_engine "team-a" answer doc_x doc_r args_x doc_r (tr_result answer))
    as (wa & wb & failed & rec & recErr & rec' & Ha & Hb & _);
    [reflexivity..|discriminate|reflexivity|reflexivity|reflexivity|reflexivity|reflexivity|reflexivity|
     reflexivity|reflexivity|reflexivity|reflexivity|].
  eexists wa, wb, _, rec'. split; [exact Ha|exact Hb].
Defined.

Lemma execute_entitled_witness :
  ∃ who, caller (req "search.web" "x") = Some who ∧ ActsAs who "a@1" = true.
Proof.
  assert (∃ k, execute gw (req "search.web" "x") =
                 Vis (CClaim "team-a" "k1" "search.web" "a@1" (JObject [("q", JString "x")])) k) as (k & Hk).
  { eexists. vm_compute. reflexivity. }
  destruct (execute_entitled gw (req "search.web" "x")
              (CClaim "team-a" "k1" "search.web" "a@1" (JObject [("q", JString "x")])))
    as (b & who & engine & tenant & Hb & Hc & Ha & _); [exact gw_logs|rewrite Hk; left; reflexivity|].
  exists who. split; [exact Hc|]. injection Hb as <-. exact Ha.
Defined.

Lemma denial_is_journalled_witness :
  ∃ e k, execute gw (req "secrets.read" "x") = Vis (CAppend "team-a" e) k ∧ RunID e = "r".
Proof.
  destruct (denial_is_journalled gw (req "secrets.read" "x") (call_body "secrets.read" "x") agent
              toy_engine "team-a")
    as (e & fields & k & He & Hr & _);
    [exact gw_logs|reflexivity|reflexivity|reflexivity|reflexivity|reflexivity|reflexivity|
     by right|discriminate|discriminate|reflexivity|].
  exists e, k. split; [exact He|exact Hr].
Defined.

Lemma invocation_rows_valid_witness :
  ∃ row, emits (RecordReplay (Executor_ gw) (invocation "team-a" (call_body "search.web" "x") DoorHTTP) "p")
           (CInvocation row) ∧ invocation_row_valid row = true.
Proof.
  eexists. assert (emits (RecordReplay (Executor_ gw)
    (invocation "team-a" (call_body "search.web" "x") DoorHTTP) "p") (CInvocation _)) as He
    by (hnf; left; reflexivity).
  split; [exact He|].
  apply (invocation_rows_valid (Executor_ gw) (invocation "team-a" (call_body "search.web" "x") DoorHTTP)
           "default" "deny_step" "p"); [reflexivity|discriminate|right; right; exact He].
Defined.
End ToolWitnesses.
