(* ===== verification/Providers.v ===== *)
(** * Package providers: the normalized vocabulary of model adapters

    Models go/internal/providers: usage blocks and the normalized response
    (provider.go), tool calls and content parts (normalization.go), stream chunks
    (streaming.go) and rate limits (throttled.go). The adapters themselves talk to
    a network service and are behind the Provider interface. *)

From S2P Require Import Prelude GoValue Json.

Local Open Scope string_scope.
Set Default Proof Using "Type*".

(** ** Usage *)

Record Usage := {
  PromptTokens : option Z;
  CompletionTokens : option Z;
  CacheReadTokens : option Z;
  CacheWriteTokens : option Z;
  ReasoningTokens : option Z;
  Estimated : option bool;
}.
Definition no_usage : Usage :=
  {| PromptTokens := None; CompletionTokens := None; CacheReadTokens := None;
     CacheWriteTokens := None; ReasoningTokens := None; Estimated := None |}.

Definition with_estimated (u : Usage) (b : bool) : Usage :=
  {| PromptTokens := PromptTokens u; CompletionTokens := CompletionTokens u;
     CacheReadTokens := CacheReadTokens u; CacheWriteTokens := CacheWriteTokens u;
     ReasoningTokens := ReasoningTokens u; Estimated := Some b |}.
Definition DerivedUsage (u : Usage) : Usage := with_estimated u true.
Definition ReportedUsage (u : Usage) : Usage := with_estimated u false.

(** [if p != nil { m[k] = *p }]. *)
Definition put_some (k : string) (v : option any) (m : gmap string any) : gmap string any :=
  match v with Some x => <[k := x]> m | None => m end.

Definition usageBlock (promptTokens completionTokens : option Z) : gmap string any :=
  let usage := put_some "completion_tokens" (AInt <$> completionTokens)
                 (put_some "prompt_tokens" (AInt <$> promptTokens) ∅) in
  match promptTokens, completionTokens with
  | Some p, Some c => <["total_tokens" := AInt (wrap64 (p + c))]> usage
  | _, _ => usage
  end.

(** ** Tool calls *)

Record ToolCall := {
  tc_ID : string;
  tc_Name : string;
  tc_Arguments : gomap;
  RawArguments : string;
  ArgumentsError : string;
}.

(** Why an argument string does not decode: where it is malformed, or which JSON
    type it has instead of an object. *)
Inductive ArgumentsFailure := MalformedAt (offset : Z) | NotAnObject (type : string).

Definition json_type (j : json) : string :=
  match j with
  | JNull => "null" | JBool _ => "bool" | JNumber _ => "number" | JString _ => "string"
  | JArray _ => "array" | JObject _ => "object"
  end.

Section arguments.
(** encoding/json: the document a text denotes, or the offset of the syntax error;
    the Go value of a document; and the failure rendered without the bytes. *)
Context (json_parse : string → result Z json).
Context (any_of : json → any).
Context (describeJSONFailure : string → ArgumentsFailure → string).

(** Unmarshalling an object stores its members, the last of a name winning; the
    literal null leaves the nil map and is no error. *)
Definition DecodeToolArguments (raw : string) : result string gomap :=
  if sempty raw then Ok (Some ∅) else
  match json_parse raw with
  | Err offset => Err (describeJSONFailure raw (MalformedAt offset))
  | Ok (JObject fields) => Ok (Some (list_to_map (reverse ((λ kv, (kv.1, any_of kv.2)) <$> fields))))
  | Ok JNull => Ok None
  | Ok j => Err (describeJSONFailure raw (NotAnObject (json_type j)))
  end.

Definition ToolCallFromWire (id name raw : string) : ToolCall :=
  match DecodeToolArguments raw with
  | Err msg => {| tc_ID := id; tc_Name := name; tc_Arguments := None; RawArguments := raw;
                  ArgumentsError := msg |}
  | Ok args => {| tc_ID := id; tc_Name := name; tc_Arguments := args; RawArguments := raw;
                  ArgumentsError := "" |}
  end.

(** A tool call is never dropped or emptied on the way: whatever argument
    string the wire carried, the call keeps its id, its name and that string, and
    its arguments are an empty object only when the wire sent nothing or an empty
    object. Arguments that did not decode are null with the reason; but so, with
    no reason at all, is the literal null. *)
Theorem ToolCallFromWire_keeps id name raw :
  (∀ f, describeJSONFailure raw f ≠ "") →
  let tc := ToolCallFromWire id name raw in
  tc_ID tc = id ∧ tc_Name tc = name ∧ RawArguments tc = raw ∧
  (tc_Arguments tc = Some ∅ ↔ raw = "" ∨ json_parse raw = Ok (JObject [])) ∧
  (ArgumentsError tc ≠ "" ↔
   raw ≠ "" ∧ json_parse raw ≠ Ok JNull ∧ ∀ fields, json_parse raw ≠ Ok (JObject fields)) ∧
  (raw ≠ "" → json_parse raw = Ok JNull → tc_Arguments tc = None ∧ ArgumentsError tc = "").
Proof.
  intros Hd. unfold ToolCallFromWire, DecodeToolArguments. destruct (sempty raw) eqn:Hr.
  { apply sempty_true in Hr as ->. simpl. naive_solver. }
  apply sempty_false in Hr. destruct (json_parse raw) as [j|offset] eqn:Hp; simpl.
  2:{ specialize (Hd (MalformedAt offset)). naive_solver. }
  destruct j as [| | | | |fields]; simpl;
    [naive_solver|specialize (Hd (NotAnObject "bool")); naive_solver
    |specialize (Hd (NotAnObject "number")); naive_solver
    |specialize (Hd (NotAnObject "string")); naive_solver
    |specialize (Hd (NotAnObject "array")); naive_solver|].
  assert (Some (list_to_map (reverse ((λ kv : string * json, (kv.1, any_of kv.2)) <$> fields)) : gmap string any)
          = Some ∅ ↔ fields = []) as Hempty.
  { split; [|by intros ->]. intros [= He]. destruct fields as [|[k v] fields _] using rev_ind; [done|].
    rewrite fmap_app, reverse_app in He. simpl in He. by apply insert_non_empty in He. }
  split_and!; try done; naive_solver.
Qed.
End arguments.

(** ** Content parts *)

Definition PartThinking : string := "thinking".
Definition PartText : string := "text".
Definition PartToolCall : string := "tool_call".

Record ContentPart := {
  cp_Kind : string; cp_Text : string; cp_Signature : string; cp_ToolCall : option ToolCall }.

Definition drop_raw (tc : ToolCall) : ToolCall :=
  {| tc_ID := tc_ID tc; tc_Name := tc_Name tc; tc_Arguments := tc_Arguments tc; RawArguments := "";
     ArgumentsError := ArgumentsError tc |}.

Definition ContentParts (reasoning text : string) (toolCalls : list ToolCall) (signature : string)
  : list ContentPart :=
  ((if sempty reasoning then [] else
      [{| cp_Kind := PartThinking; cp_Text := reasoning; cp_Signature := signature; cp_ToolCall := None |}]) ++
   (if sempty text then [] else
      [{| cp_Kind := PartText; cp_Text := text; cp_Signature := ""; cp_ToolCall := None |}]) ++
   map (λ tc, {| cp_Kind := PartToolCall; cp_Text := ""; cp_Signature := "";
                 cp_ToolCall := Some (drop_raw tc) |}) toolCalls)%list.

(** ** The normalized response *)

Record ChatResult := {
  cr_ProviderRequestID : string;
  cr_IdempotentReplayOf : string;
  cr_ServedByInstance : string;
  cr_Model : string;
  cr_Content : string;
  cr_FinishReason : string;
  cr_ReasoningContent : string;
  cr_ReasoningSignature : string;
  cr_ToolCalls : list ToolCall;
  cr_Usage : Usage;
}.

(** One choice, with its message. *)
Definition choice_of (message : gmap string any) (finishReason : string) : any :=
  AMap (obj [("index", AInt 0); ("message", AMap message); ("finish_reason", AString finishReason)]).
Definition response_of (model : string) (choice : any) (usage : gmap string any) : gmap string any :=
  obj [("model", AString model); ("choices", AList [choice]); ("usage", AMap usage)].
Definition assistant (content : string) : gmap string any :=
  obj [("role", AString "assistant"); ("content", AString content)].

Definition NormalizedChatResponse (model content finishReason : string)
    (promptTokens completionTokens : option Z) : gmap string any :=
  response_of model (choice_of (assistant content) finishReason) (usageBlock promptTokens completionTokens).

(** The usage block with the cache, reasoning and provenance counters. *)
Definition full_usage (u : Usage) : gmap string any :=
  put_some "estimated" (ABool <$> Estimated u)
    (put_some "reasoning_tokens" (AInt <$> ReasoningTokens u)
      (put_some "cache_write_tokens" (AInt <$> CacheWriteTokens u)
        (put_some "cache_read_tokens" (AInt <$> CacheReadTokens u)
          (usageBlock (PromptTokens u) (CompletionTokens u))))).

Definition NormalizedChatResponseWithUsage (model content finishReason : string) (u : Usage)
  : gmap string any :=
  response_of model (choice_of (assistant content) finishReason) (full_usage u).

Section normalized.
(** json.Marshal of an argument map, as text. *)
Context (marshal_text : gmap string any → option string).

Definition shaped_arguments (tc : ToolCall) : option string :=
  if negb (sempty (RawArguments tc)) then Some (RawArguments tc)
  else match tc_Arguments tc with
       | Some args => marshal_text args
       | None => None
       end.

Definition shaped_call (i : nat) (tc : ToolCall) (args : string) : any :=
  let call := obj [("index", AInt (Z.of_nat i)); ("id", AString (tc_ID tc)); ("type", AString "function");
                   ("function", AMap (obj [("name", AString (tc_Name tc)); ("arguments", AString args)]))] in
  AMap (if sempty (ArgumentsError tc) then call
        else <["aeon_arguments_error" := AString (ArgumentsError tc)]> call).

(** The index of a call is its position among all the calls, skipped ones too. *)
Fixpoint shape_from (i : nat) (calls : list ToolCall) : list any :=
  match calls with
  | [] => []
  | tc :: calls =>
      match shaped_arguments tc with
      | Some args => shaped_call i tc args :: shape_from (S i) calls
      | None => shape_from (S i) calls
      end
  end.
Definition openAIShapedToolCalls (calls : list ToolCall) : list any := shape_from 0 calls.

(** The message of a complete result. *)
Definition message_from (r : ChatResult) : gmap string any :=
  let message := put_some "reasoning_content"
    (if sempty (cr_ReasoningContent r) then None else Some (AString (cr_ReasoningContent r)))
    (assistant (cr_Content r)) in
  let parts := ContentParts (cr_ReasoningContent r) (cr_Content r) (cr_ToolCalls r) (cr_ReasoningSignature r) in
  let message := match parts with [] => message
                 | _ => <["content_parts" := AOther "[]providers.ContentPart"]> message end in
  match cr_ToolCalls r with
  | [] => message
  | _ =>
      let message := <["tool_calls" := AList (openAIShapedToolCalls (cr_ToolCalls r))]> message in
      if sempty (cr_Content r) then <["content" := ANil]> message else message
  end.

Definition put_string (k v : string) (m : gmap string any) : gmap string any :=
  if sempty v then m else <[k := AString v]> m.

Definition NormalizedChatResponseFrom (r : ChatResult) : gmap string any :=
  put_string "served_by_instance" (cr_ServedByInstance r)
    (put_string "idempotent_replay_of" (cr_IdempotentReplayOf r)
      (put_string "provider_request_id" (cr_ProviderRequestID r)
        (response_of (cr_Model r) (choice_of (message_from r) (cr_FinishReason r))
           (full_usage (cr_Usage r))))).
End normalized.

(** ** Streaming *)

Record Chunk := {
  Delta : string;
  ReasoningDelta : string;
  FinishReason : string;
  ch_Model : string;
  ch_Usage : option Usage;
  Event : string;
  ToolCallIndex : Z;
  ToolCallDelta : string;
  ch_ToolCall : option ToolCall;
}.
Definition empty_chunk : Chunk :=
  {| Delta := ""; ReasoningDelta := ""; FinishReason := ""; ch_Model := ""; ch_Usage := None;
     Event := ""; ToolCallIndex := 0; ToolCallDelta := ""; ch_ToolCall := None |}.

Definition CarriesWireContent (c : Chunk) : bool :=
  negb (sempty (Delta c)) || negb (sempty (ReasoningDelta c)) || negb (sempty (FinishReason c)) ||
  bool_decide (is_Some (ch_Usage c)).

(** ** Rate limits *)

Record Throttled := {
  th_Provider : string; th_Model : string; th_Scope : string; RetryAfterSeconds : option float64 }.

(** A provider's error: its text, and the rate limit in its chain if there is one. *)
Record perr := { err_text : string; ThrottleOf : option Throttled }.

(** The loop's state: the shortest wait so far, and whether all were throttles. *)
Definition retry_step (st : option float64 * bool) (e : perr) : option float64 * bool :=
  let '(wait, all) := st in
  match ThrottleOf e with
  | None => (wait, false)
  | Some t =>
      match RetryAfterSeconds t, wait with
      | None, _ => (wait, all)
      | Some s, None => (Some s, all)
      | Some s, Some w => (if fltb s w then Some s else wait, all)
      end
  end.
Definition SoonestRetry (errs : list perr) : option float64 * bool :=
  match errs with
  | [] => (None, false)
  | _ => foldl retry_step (None, true) errs
  end.

(** The waits the throttles among the errors supply. *)
Definition waits (errs : list perr) : list float64 :=
  omap (λ e, t ← ThrottleOf e; RetryAfterSeconds t) errs.

Lemma retry_fold errs :
  let '(wait, all) := foldl retry_step (None, true) errs in
  (all = true ↔ ∀ e, e ∈ errs → is_Some (ThrottleOf e)) ∧
  match wait with
  | None => waits errs = []
  | Some w => w ∈ waits errs ∧ ∀ s, s ∈ waits errs → fltb s w = false
  end.
Proof.
  induction errs as [|e errs IH] using rev_ind; [by split; [split; [intros _ e He; set_solver|]|]|].
  rewrite foldl_app. cbn [foldl].
  destruct (foldl retry_step (None, true) errs) as [wait all]. destruct IH as [IHa IHw].
  assert (waits (errs ++ [e]) = waits errs ++ waits [e])%list as Hw by apply omap_app.
  unfold retry_step. rewrite Hw. unfold waits at 2 4 6. cbn [omap list_omap].
  destruct (ThrottleOf e) as [t|] eqn:Ht; cbn [mbind option_bind].
  - assert (all = true ↔ ∀ e', e' ∈ (errs ++ [e])%list → is_Some (ThrottleOf e')) as Ha.
    { rewrite IHa. split; [|set_solver]. intros Hall e' [?| ->%list_elem_of_singleton]%elem_of_app; eauto. }
    destruct (RetryAfterSeconds t) as [s|]; [|split; [done|]; by rewrite app_nil_r].
    destruct wait as [w|].
    + split; [done|]. destruct IHw as [Hin Hmin]. destruct (fltb s w) eqn:Hlt.
      * split; [set_solver|]. intros x [Hx| ->%list_elem_of_singleton]%elem_of_app; [|apply fltb_irrefl].
        destruct (fltb x s) eqn:Hxs; [|done]. rewrite <-(Hmin x Hx). symmetry. by eapply fltb_trans.
      * split; [set_solver|]. intros x [Hx| ->%list_elem_of_singleton]%elem_of_app; auto.
    + split; [done|]. rewrite IHw. split; [set_solver|].
      intros x [[]%not_elem_of_nil| ->%list_elem_of_singleton]%elem_of_app. apply fltb_irrefl.
  - split; [|by destruct wait; rewrite app_nil_r]. split; [done|]. intros Hall.
    destruct (Hall e) as [? ?]; [set_solver|congruence].
Qed.

Lemma SoonestRetry_all errs :
  (SoonestRetry errs).2 = true ↔ errs ≠ [] ∧ ∀ e, e ∈ errs → is_Some (ThrottleOf e).
Proof.
  unfold SoonestRetry. pose proof (retry_fold errs) as Hf. destruct errs as [|e errs]; [naive_solver|].
  destruct (foldl _ _ _) as [wait all]. simpl. destruct Hf as [Ha _]. rewrite Ha. naive_solver.
Qed.

(** The answer to a cascade that failed is to wait only when waiting can help:
    every error has to be a rate limit, and the wait reported is one a provider
    supplied, with none shorter; it is absent exactly when none was supplied. *)
Theorem SoonestRetry_spec errs :
  let '(wait, all) := SoonestRetry errs in
  (all = true ↔ errs ≠ [] ∧ ∀ e, e ∈ errs → is_Some (ThrottleOf e)) ∧
  match wait with
  | None => waits errs = []
  | Some w => w ∈ waits errs ∧ ∀ s, s ∈ waits errs → fltb s w = false
  end.
Proof.
  unfold SoonestRetry. pose proof (retry_fold errs) as Hf. destruct errs as [|e errs]; [naive_solver|].
  destruct (foldl _ _ _) as [wait all]. destruct Hf as [Ha Hw]. split; [|done]. rewrite Ha. naive_solver.
Qed.
