(* ===== verification/ModelGateway.v ===== *)
(** * Package modelgateway: profiles, routing and streaming

    Models go/internal/modelgateway: the ModelPolicyBundle and what it resolves to
    (bundle.go), the cascade over candidates (gateway.go), its streaming form
    (streaming.go) and the repair of messages no wire can carry (unsendable.go).
    Providers, the quality gate and the client that receives chunks are calls; a
    streaming provider is any terminating exchange of chunks. *)

From S2P Require Import Prelude GoValue Json Program Providers.
From S2P Require Import Finops.

Local Open Scope string_scope.
Set Default Proof Using "Type".

(** ** The bundle *)

Record LocalInferenceException := { Environment : string; AllowedProviders : list string }.
Record RoutingConstraints := { DataSensitivity : string; InNetworkProviders : list string }.
Record CandidateDoc := {
  cd_Provider : string;
  cd_Model : string;
  Modality : string;
  InferenceClass : string;
  cd_Priority : Z;
  CostModel : string;
  CostPerMillionInputTokens : float64;
  CostPerMillionOutputTokens : float64;
}.
Record ModelProfileDoc := {
  Profile : string;
  Candidates : list CandidateDoc;
  LocalInference : option LocalInferenceException;
  RoutingConstraints_ : option RoutingConstraints;
}.
Record ModelPolicyBundleDoc := { mb_APIVersion : string; mb_Kind : string; Profiles : list ModelProfileDoc }.

Definition ModalityText : string := "text".
Definition ModalityVision : string := "vision".
Definition chatServableModalities (m : string) : bool :=
  String.eqb m ModalityText || String.eqb m ModalityVision.
Definition InferenceClassLocal : string := "local".
Definition InferenceClassCloud : string := "cloud".

Record Candidate := { Provider : string; Model : string; Priority : Z; InNetwork : bool }.

Inductive ProfileError :=
| ErrProfileNotFound (profile : string)
| ErrCandidateModalityMismatch (profile : string) (c : CandidateDoc)
| ErrLocalInferenceProviderDenied (profile : string) (c : CandidateDoc)
| ErrInferenceClassUndeclared (profile : string) (c : CandidateDoc).

Definition checkInferenceClass (profile : string) (c : CandidateDoc)
    (exception : option LocalInferenceException) : result ProfileError () :=
  if String.eqb (InferenceClass c) InferenceClassCloud then Ok tt
  else if String.eqb (InferenceClass c) InferenceClassLocal then
    match exception with
    | Some e =>
        if negb (sempty (Environment e)) && existsb (String.eqb (cd_Provider c)) (AllowedProviders e)
        then Ok tt else Err (ErrLocalInferenceProviderDenied profile c)
    | None => Err (ErrLocalInferenceProviderDenied profile c)
    end
  else Err (ErrInferenceClassUndeclared profile c).

(** One turn of the loop over a profile's candidates. *)
Definition resolve_candidate (p : ModelProfileDoc) (acc : list Candidate) (c : CandidateDoc)
  : result ProfileError (list Candidate) :=
  checkInferenceClass (Profile p) c (LocalInference p);;
  reject_if (negb (chatServableModalities (Modality c))) (ErrCandidateModalityMismatch (Profile p) c);;
  let inNetwork := match RoutingConstraints_ p with Some r => InNetworkProviders r | None => [] end in
  Ok (acc ++ [{| Provider := cd_Provider c; Model := cd_Model c; Priority := cd_Priority c;
                 InNetwork := existsb (String.eqb (cd_Provider c)) inNetwork |}])%list.

Definition resolve (p : ModelProfileDoc) : result ProfileError (list Candidate * string) :=
  candidates ← fold_res (resolve_candidate p) [] (Candidates p);
  Ok (candidates, match RoutingConstraints_ p with Some r => DataSensitivity r | None => "" end).

Definition ResolveProfile (doc : ModelPolicyBundleDoc) (profile : string)
  : result ProfileError (list Candidate * string) :=
  match list_find (λ p, Profile p = profile) (Profiles doc) with
  | Some (_, p) => resolve p
  | None => Err (ErrProfileNotFound profile)
  end.

Definition PricingRates (doc : ModelPolicyBundleDoc) : list Pricing.Rate :=
  p ← Profiles doc;
  omap (λ c, if sempty (CostModel c) then None else
    Some {| Pricing.Provider := cd_Provider c; Pricing.Model := cd_Model c;
            Pricing.CostModel := CostModel c;
            Pricing.InputPerMillionUSD := CostPerMillionInputTokens c;
            Pricing.OutputPerMillionUSD := CostPerMillionOutputTokens c |}) (Candidates p).

Record CatalogEntry := { ce_Model : string; ce_Modality : string }.
Record ModalityContradiction := {
  mc_Profile : string; mc_Provider : string; mc_Model : string; Declared : string; Actual : string }.

Definition actual_modalities (catalog : list CatalogEntry) : gmap string string :=
  foldl (λ m e, <[ce_Model e := ce_Modality e]> m) ∅ catalog.

Definition contradiction (p : ModelProfileDoc) (provider : string) (actual : gmap string string)
    (c : CandidateDoc) : option ModalityContradiction :=
  if negb (String.eqb (cd_Provider c) provider) then None
  else match actual !! cd_Model c with
       | None => Some {| mc_Profile := Profile p; mc_Provider := cd_Provider c; mc_Model := cd_Model c;
                         Declared := Modality c; Actual := "" |}
       | Some got => if String.eqb got (Modality c) then None else
                       Some {| mc_Profile := Profile p; mc_Provider := cd_Provider c;
                               mc_Model := cd_Model c; Declared := Modality c; Actual := got |}
       end.

Definition VerifyModalitiesAgainstCatalog (doc : ModelPolicyBundleDoc) (provider : string)
    (catalog : list CatalogEntry) : list ModalityContradiction :=
  p ← Profiles doc; omap (contradiction p provider (actual_modalities catalog)) (Candidates p).

(** ** Messages no wire can carry *)

Definition unsendableAssistantTurn (m : gmap string any) : bool :=
  String.eqb (as_string (mget m "role")) "assistant" && is_nil (mget m "content") &&
  match as_list (mget m "tool_calls") with [] => true | _ => false end.

Definition unsendable (rm : any) : bool :=
  match rm with AMap m => unsendableAssistantTurn m | _ => false end.

(** The repaired input and the number of turns dropped. *)
Definition dropUnsendableAssistantTurns (input : gmap string any) : gmap string any * nat :=
  match mget input "messages" with
  | AList raw =>
      let kept := List.filter (λ rm, negb (unsendable rm)) raw in
      let dropped := (length raw - length kept)%nat in
      if (dropped =? 0)%nat then (input, 0%nat) else (<["messages" := AList kept]> input, dropped)
  | _ => (input, 0%nat)
  end.

(** ** The cascade *)

Record AttemptRecord := {
  at_Provider : string;
  at_Model : string;
  at_Err : string;
  Cause : option perr;
  DiscardedOutput : gomap;
}.

Record DecisionResult := {
  ProviderUsed : string;
  ModelUsed : string;
  Output : gomap;
  Attempts : list AttemptRecord;
  UnsendableTurnsDropped : nat;
}.

Inductive GatewayError :=
| ErrNoRestrictedCandidate
| AllCandidatesFailed (attempts : list AttemptRecord).

Definition Causes (attempts : list AttemptRecord) : list perr := omap Cause attempts.
Definition DiscardedAttempts (attempts : list AttemptRecord) : list AttemptRecord :=
  List.filter (λ a, bool_decide (is_Some (DiscardedOutput a))) attempts.

(** What a streaming adapter does with its yield: it ends, or yields a chunk and
    goes on knowing whether the caller asked it to stop. *)
Inductive session :=
| SEnd (err : option perr)
| SChunk (c : Chunk) (k : option perr → session).

Record StreamStart := {
  ss_Provider : string; ss_Model : string; ss_Streamed : bool; ss_Dropped : nat }.

Inductive mcall :=
| QDegraded (provider model : string)
| QDecide (provider : string) (input : gmap string any)
| QStream (provider : string) (input : gmap string any)
| QYield (c : Chunk)
| QStart (s : StreamStart).

Definition mreply (c : mcall) : Type :=
  match c with
  | QDegraded _ _ => bool
  | QDecide _ _ => result perr gomap
  | QStream _ _ => session
  | QYield _ => option perr
  | QStart _ => ()
  end.
Abbreviation MG := (prog mreply).

(** [providers]: the registered names, and whether each can stream. [Quality]: a
    gate is configured. *)
Record Gateway := { providers : gmap string bool; Quality : bool }.
Definition New : Gateway := {| providers := ∅; Quality := false |}.
Definition RegisterProvider (g : Gateway) (name : string) (streams : bool) : Gateway :=
  {| providers := <[name := streams]> (providers g); Quality := Quality g |}.

Definition emptyAnswer (output : gomap) : string :=
  match as_list (mget (items output) "choices") with
  | [] => "provider returned no choices"
  | c0 :: _ =>
      let choice := as_map c0 in
      if String.eqb (as_string (mget choice "finish_reason")) "length" then "" else
      let message := as_map (mget choice "message") in
      if negb (sempty (trim_space (as_string (mget message "content")))) then "" else
      match as_list (mget message "tool_calls") with
      | _ :: _ => ""
      | [] =>
          if negb (sempty (trim_space (as_string (mget message "reasoning_content"))))
          then "provider returned only reasoning and no answer"
          else "provider returned empty content"
      end
  end.

Definition intFrom `{GoRuntime} (v : any) : option Z :=
  match v with
  | AInt n => Some n
  | AInt64 n => Some n
  | AFloat f => Some (f_to_int f)
  | _ => None
  end.
Definition usageOf `{GoRuntime} (output : gomap) : option Z * option Z :=
  let usage := as_map (mget (items output) "usage") in
  (intFrom (mget usage "prompt_tokens"), intFrom (mget usage "completion_tokens")).
Definition responseModelOf (output : gomap) : string := as_string (mget (items output) "model").

Definition restrictPool (candidates : list Candidate) (dataSensitivity : string)
  : result GatewayError (list Candidate) :=
  if negb (String.eqb dataSensitivity "restricted") then Ok candidates
  else match List.filter InNetwork candidates with
       | [] => Err ErrNoRestrictedCandidate
       | out => Ok out
       end.

Definition degraded_msg : string := "skipped: quality score degraded below threshold".
Definition unregistered_msg : string := "provider not registered".
Definition attempt (c : Candidate) (err : string) (cause : option perr) (discarded : gomap)
  : AttemptRecord :=
  {| at_Provider := Provider c; at_Model := Model c; at_Err := err; Cause := cause;
     DiscardedOutput := discarded |}.

(** The copy of the rendered context sent to a candidate, and what was dropped. *)
Definition input_for (renderedContext : gomap) (c : Candidate) : gmap string any * nat :=
  dropUnsendableAssistantTurns (<["model" := AString (Model c)]> (items renderedContext)).

Definition ask_degraded (g : Gateway) (c : Candidate) : MG bool :=
  if Quality g then ask (QDegraded (Provider c) (Model c)) else mret false.

Fixpoint decide_loop (g : Gateway) (renderedContext : gomap) (attempts : list AttemptRecord)
    (sorted : list Candidate) : MG (result GatewayError DecisionResult) :=
  match sorted with
  | [] => mret (Err (AllCandidatesFailed attempts))
  | c :: rest =>
      let skip a := decide_loop g renderedContext (attempts ++ [a])%list rest in
      degraded ← ask_degraded g c;
      if degraded : bool then skip (attempt c degraded_msg None None) else
      match providers g !! Provider c with
      | None => skip (attempt c unregistered_msg None None)
      | Some _ =>
          let '(input, dropped) := input_for renderedContext c in
          res ← ask (QDecide (Provider c) input);
          match res with
          | Err e => skip (attempt c (err_text e) (Some e) None)
          | Ok output =>
              let unusable := emptyAnswer output in
              if negb (sempty unusable) then skip (attempt c unusable None output)
              else mret (Ok {| ProviderUsed := Provider c; ModelUsed := Model c; Output := output;
                               Attempts := (attempts ++ [attempt c "" None None])%list;
                               UnsendableTurnsDropped := dropped |})
          end
      end
  end.

Section decide.
Context `{GoRuntime}.

Definition by_priority (candidates : list Candidate) : list Candidate :=
  sort_slice (λ a b, (Priority a <? Priority b)%Z) candidates.

Definition Decide (g : Gateway) (candidates : list Candidate) (renderedContext : gomap)
    (dataSensitivity : string) : MG (result GatewayError DecisionResult) :=
  match restrictPool candidates dataSensitivity with
  | Err e => mret (Err e)
  | Ok pool => decide_loop g renderedContext [] (by_priority pool)
  end.

(** ** Streaming *)

Record StreamResult := {
  sr_ProviderUsed : string;
  sr_ModelUsed : string;
  Streamed : bool;
  sr_Attempts : list AttemptRecord;
  sr_Dropped : nat;
}.

Definition optionalIntFrom (v : any) : option Z :=
  match v with
  | AInt n => Some n
  | AFloat f => Some (f_to_int f)
  | _ => None
  end.

(** The one chunk a non-streaming adapter's answer becomes. *)
Definition single_chunk (output : gomap) : Chunk :=
  let choice0 := match mget (items output) "choices" with
                 | AList (AMap choice :: _) => Some choice
                 | _ => None
                 end in
  {| Delta := match choice0 with
              | Some choice => as_string (mget (as_map (mget choice "message")) "content")
              | None => ""
              end;
     ReasoningDelta := "";
     FinishReason := match choice0 with
                     | Some choice => as_string (mget choice "finish_reason")
                     | None => ""
                     end;
     ch_Model := as_string (mget (items output) "model");
     ch_Usage := match mget (items output) "usage" with
                 | AMap usage =>
                     Some {| PromptTokens := optionalIntFrom (mget usage "prompt_tokens");
                             CompletionTokens := optionalIntFrom (mget usage "completion_tokens");
                             CacheReadTokens := None; CacheWriteTokens := None;
                             ReasoningTokens := None; Estimated := None |}
                 | _ => None
                 end;
     Event := ""; ToolCallIndex := 0; ToolCallDelta := ""; ch_ToolCall := None |}.

(** The result of a candidate: whether anything was delivered, and its error. *)
Definition decideAsSingleChunk (provider : string) (input : gmap string any) : MG (bool * option perr) :=
  res ← ask (QDecide provider input);
  match res with
  | Err e => mret (false, Some e)
  | Ok output => err ← ask (QYield (single_chunk output)); mret (true, err)
  end.

Fixpoint play (delivered : bool) (s : session) : MG (bool * option perr) :=
  match s with
  | SEnd err => mret (delivered, err)
  | SChunk c k => err ← ask (QYield c); play true (k err)
  end.

Definition stream_candidate (g : Gateway) (c : Candidate) (streamable : bool) (input : gmap string any)
  : MG (bool * option perr) :=
  if streamable then s ← ask (QStream (Provider c) input); play false s
  else decideAsSingleChunk (Provider c) input.

(** The result, and the error it comes with. *)
Abbreviation stream_answer := (option StreamResult * option (GatewayError + perr))%type.

Fixpoint stream_loop (g : Gateway) (renderedContext : gomap) (onStart : bool)
    (attempts : list AttemptRecord) (sorted : list Candidate) : MG stream_answer :=
  match sorted with
  | [] => mret (None, Some (inl (AllCandidatesFailed attempts)))
  | c :: rest =>
      let skip a := stream_loop g renderedContext onStart (attempts ++ [a])%list rest in
      degraded ← ask_degraded g c;
      if degraded : bool then skip (attempt c degraded_msg None None) else
      match providers g !! Provider c with
      | None => skip (attempt c unregistered_msg None None)
      | Some streamable =>
          let '(input, dropped) := input_for renderedContext c in
          (if onStart then ask (QStart {| ss_Provider := Provider c; ss_Model := Model c;
                                          ss_Streamed := streamable; ss_Dropped := dropped |})
           else mret ());;
          '(delivered, err) ← stream_candidate g c streamable input;
          match err with
          | Some e =>
              let a := attempt c (err_text e) (Some e) None in
              if delivered : bool then
                mret (Some {| sr_ProviderUsed := Provider c; sr_ModelUsed := Model c;
                              Streamed := streamable; sr_Attempts := (attempts ++ [a])%list;
                              sr_Dropped := 0 |}, Some (inr e))
              else skip a
          | None =>
              mret (Some {| sr_ProviderUsed := Provider c; sr_ModelUsed := Model c;
                            Streamed := streamable;
                            sr_Attempts := (attempts ++ [attempt c "" None None])%list;
                            sr_Dropped := dropped |}, None)
          end
      end
  end.

Definition DecideStream (g : Gateway) (candidates : list Candidate) (renderedContext : gomap)
    (dataSensitivity : string) (onStart : bool) : MG stream_answer :=
  match restrictPool candidates dataSensitivity with
  | Err e => mret (None, Some (inl e))
  | Ok pool => stream_loop g renderedContext onStart [] (by_priority pool)
  end.
End decide.

(** ** Which providers a call reaches *)

(** A call made on behalf of a candidate. *)
Definition call_for (renderedContext : gomap) (c : Candidate) (q : mcall) : Prop :=
  match q with
  | QDegraded p m => p = Provider c ∧ m = Model c
  | QDecide p input | QStream p input => p = Provider c ∧ input = (input_for renderedContext c).1
  | QYield _ | QStart _ => True
  end.

Lemma input_names_model renderedContext c input dropped :
  input_for renderedContext c = (input, dropped) → mget input "model" = AString (Model c).
Proof.
  unfold input_for, dropUnsendableAssistantTurns. intros Hi.
  repeat case_match; injection Hi as <- _; unfold mget; rewrite ?lookup_insert_ne by done;
    by rewrite lookup_insert_eq.
Qed.

Lemma ask_degraded_emits g c ctx q : emits (ask_degraded g c) q → call_for ctx c q.
Proof. unfold ask_degraded. destruct (Quality g); [|done]. simpl. intros [->|[? []]]. done. Qed.

Lemma decide_loop_emits g ctx l : ∀ attempts q,
  emits (decide_loop g ctx attempts l) q → ∃ c, c ∈ l ∧ call_for ctx c q.
Proof.
  induction l as [|c rest IH]; intros attempts q; [done|]. cbn [decide_loop].
  assert (∀ a, emits (decide_loop g ctx (attempts ++ [a])%list rest) q → ∃ c0, c0 ∈ c :: rest ∧ call_for ctx c0 q)
    as Hskip by (intros a He; destruct (IH _ _ He) as (c0 & ? & ?); exists c0; split; [by right|done]).
  intros He. apply emits_bind in He as [He|(degraded & _ & He)].
  { exists c. split; [left|]. by eapply ask_degraded_emits. }
  destruct degraded; [by eapply Hskip|].
  destruct (providers g !! Provider c); [|by eapply Hskip].
  destruct (input_for ctx c) as [input dropped] eqn:Hi.
  apply emits_bind in He as [He|(res & _ & He)].
  { exists c. split; [left|]. simpl in He. destruct He as [->|[? []]]. simpl. by rewrite Hi. }
  destruct res as [output|e]; [|by eapply Hskip]. cbv zeta in He.
  destruct (negb _); [by eapply Hskip|done].
Qed.

Lemma play_emits s : ∀ b q, emits (play b s) q → ∃ ch, q = QYield ch.
Proof.
  induction s as [e|ch k IH]; intros b q; [done|]. simpl.
  intros [->|[r He]]; [eauto|]. by eapply IH.
Qed.

Section stream_emits.
Context `{GoRuntime}.

Lemma stream_candidate_emits g c streamable ctx q :
  emits (stream_candidate g c streamable (input_for ctx c).1) q → call_for ctx c q.
Proof.
  unfold stream_candidate. destruct streamable.
  - intros He. apply emits_bind in He as [He|(s & _ & He)].
    + simpl in He. by destruct He as [->|[? []]].
    + by apply play_emits in He as [ch ->].
  - intros He. apply emits_bind in He as [He|(res & _ & He)].
    + simpl in He. by destruct He as [->|[? []]].
    + destruct res; [|done]. simpl in He. by destruct He as [->|[? []]].
Qed.

Lemma stream_loop_emits g ctx onStart l : ∀ attempts q,
  emits (stream_loop g ctx onStart attempts l) q → ∃ c, c ∈ l ∧ call_for ctx c q.
Proof.
  induction l as [|c rest IH]; intros attempts q; [done|]. cbn [stream_loop].
  assert (∀ a, emits (stream_loop g ctx onStart (attempts ++ [a])%list rest) q →
               ∃ c0, c0 ∈ c :: rest ∧ call_for ctx c0 q)
    as Hskip by (intros a He; destruct (IH _ _ He) as (c0 & ? & ?); exists c0; split; [by right|done]).
  intros He. apply emits_bind in He as [He|(degraded & _ & He)].
  { exists c. split; [left|]. by eapply ask_degraded_emits. }
  destruct degraded; [by eapply Hskip|].
  destruct (providers g !! Provider c) as [streamable|]; [|by eapply Hskip].
  destruct (input_for ctx c) as [input dropped] eqn:Hi.
  apply emits_bind in He as [He|(? & _ & He)].
  { exists c. split; [left|]. destruct onStart; [|done]. simpl in He. by destruct He as [->|[? []]]. }
  apply emits_bind in He as [He|([delivered err] & _ & He)].
  { exists c. split; [left|]. replace input with (input_for ctx c).1 in He by (by rewrite Hi).
    by eapply stream_candidate_emits. }
  destruct err; [|done]. destruct delivered; [done|]. by eapply Hskip.
Qed.

(** The provider a call goes to. *)
Definition reaches (q : mcall) (p : string) : Prop :=
  match q with
  | QDegraded p' _ | QDecide p' _ | QStream p' _ => p' = p
  | QYield _ | QStart _ => False
  end.

Lemma restrictPool_restricted candidates pool :
  restrictPool candidates "restricted" = Ok pool → ∀ c, c ∈ pool → c ∈ candidates ∧ InNetwork c = true.
Proof.
  unfold restrictPool. cbn [negb String.eqb]. intros Hp c Hc.
  assert (pool = List.filter InNetwork candidates) as Heq
    by (simpl in Hp; by destruct (List.filter InNetwork candidates); simplify_eq).
  rewrite Heq in Hc. apply list_elem_of_In, List.filter_In in Hc as [Hin ?].
  split; [by apply list_elem_of_In|done].
Qed.

Lemma resolve_candidates p cs l : ∀ acc,
  fold_res (resolve_candidate p) acc cs = Ok l →
  ∃ new, l = (acc ++ new)%list ∧
    Forall2 (λ d c, checkInferenceClass (Profile p) d (LocalInference p) = Ok tt ∧
                    chatServableModalities (Modality d) = true ∧
                    Provider c = cd_Provider d ∧ Model c = cd_Model d ∧ Priority c = cd_Priority d ∧
                    (InNetwork c = true ↔ ∃ r, RoutingConstraints_ p = Some r ∧
                                              cd_Provider d ∈ InNetworkProviders r)) cs new.
Proof.
  induction cs as [|d cs IH]; intros acc; simpl.
  - intros [= <-]. exists []. by rewrite app_nil_r.
  - unfold resolve_candidate at 1. destruct (checkInferenceClass _ _ _) as [[]|] eqn:Hc; [|done]. simpl.
    destruct (chatServableModalities (Modality d)) eqn:Hm; [|done]. simpl. intros Hf.
    destruct (IH _ Hf) as (new & -> & Hall). rewrite <-app_assoc. eexists. split; [reflexivity|].
    constructor; [|done]. simpl. split_and!; try done.
    rewrite existsb_exists. setoid_rewrite <-list_elem_of_In. setoid_rewrite String.eqb_eq.
    destruct (RoutingConstraints_ p) as [r|].
    + split; [intros (? & ? & <-); eauto|intros (? & [= <-] & ?); eauto].
    + split; [intros (? & ?%not_elem_of_nil & _); done|intros (? & ? & _); done].
Qed.

Lemma ResolveProfile_found doc profile cands s :
  ResolveProfile doc profile = Ok (cands, s) →
  ∃ p, p ∈ Profiles doc ∧ Profile p = profile ∧ resolve p = Ok (cands, s).
Proof.
  unfold ResolveProfile. destruct (list_find _ _) as [[i p]|] eqn:Hf; [|done].
  apply list_find_Some in Hf as (Hi & Hp & _). intros Hr. exists p.
  split; [by eapply list_elem_of_lookup_2|done].
Qed.

(** Restricted data stays in the network: when a call is restricted, every
    provider the gateway asks anything of, streaming or not, in whatever order the
    cascade runs and whatever fails, is one the resolved profile declares
    in-network. *)
Theorem restricted_stays_in_network doc profile cands s g ctx onStart q p :
  ResolveProfile doc profile = Ok (cands, s) →
  emits (Decide g cands ctx "restricted") q ∨ emits (DecideStream g cands ctx "restricted" onStart) q →
  reaches q p →
  ∃ prof r, prof ∈ Profiles doc ∧ Profile prof = profile ∧ RoutingConstraints_ prof = Some r ∧
    p ∈ InNetworkProviders r.
Proof.
  intros (prof & Hin & Hp & Hr)%ResolveProfile_found He Hq.
  assert (∃ c pool, restrictPool cands "restricted" = Ok pool ∧ c ∈ pool ∧ call_for ctx c q)
    as (c & pool & Hpool & Hc & Hcall).
  { unfold Decide, DecideStream in He.
    destruct (restrictPool cands "restricted") as [pool|]; [|by destruct He].
    assert (∃ c, c ∈ by_priority pool ∧ call_for ctx c q) as (c & Hc & Hcall)
      by (destruct He as [He|He]; [by eapply decide_loop_emits|by eapply stream_loop_emits]).
    unfold by_priority in Hc. rewrite sort_slice_perm in Hc. eauto. }
  destruct (restrictPool_restricted _ _ Hpool c Hc) as [Hcands Hnet].
  unfold resolve in Hr. inv_res.
  rename select (fold_res _ _ _ = Ok _) into Hf.
  destruct (resolve_candidates _ _ _ _ Hf) as (new & Hnew & Hall). simpl in Hnew. subst new.
  apply list_elem_of_lookup in Hcands as [i Hi].
  destruct (Forall2_lookup_r _ _ _ _ _ Hall Hi) as (d & _ & _ & _ & Hprov & _ & _ & Hiff).
  destruct (proj1 Hiff Hnet) as (r & Hrc & Hmem). exists prof, r. split_and!; try done.
  destruct q; simpl in Hq, Hcall; try done; destruct Hcall as [-> _]; by rewrite <-Hq, Hprov.
Qed.
End stream_emits.

(** ** What the cascade returns *)

(** An answer a caller can use: a first choice that was cut at its length, or has text
    that is not blank, or asks for a tool. *)
Definition usable (output : gomap) : Prop :=
  ∃ c0 rest, mget (items output) "choices" = AList (c0 :: rest) ∧
    let message := as_map (mget (as_map c0) "message") in
    mget (as_map c0) "finish_reason" = AString "length" ∨
    trim_space (as_string (mget message "content")) ≠ "" ∨
    ∃ call calls, mget message "tool_calls" = AList (call :: calls).

Lemma as_list_cons v x l : as_list v = x :: l ↔ v = AList (x :: l).
Proof. destruct v; simpl; split; congruence. Qed.
Lemma as_string_is v s : s ≠ "" → as_string v = s ↔ v = AString s.
Proof. destruct v; simpl; split; congruence. Qed.

Lemma emptyAnswer_usable output : emptyAnswer output = "" ↔ usable output.
Proof.
  unfold emptyAnswer, usable. setoid_rewrite <- as_list_cons. setoid_rewrite <- as_string_is; [|done].
  destruct (as_list (mget (items output) "choices")) as [|c0 rest]; [naive_solver|].
  set (message := as_map (mget (as_map c0) "message")).
  transitivity (as_string (mget (as_map c0) "finish_reason") = "length" ∨
    trim_space (as_string (mget message "content")) ≠ "" ∨ ∃ call calls, as_list (mget message "tool_calls") = call :: calls).
  2: { split; [intros Hu; by exists c0, rest|]. by intros (? & ? & [= <- <-] & Hu). }
  destruct (String.eqb_spec (as_string (mget (as_map c0) "finish_reason")) "length") as [Hf|Hf]; [tauto|].
  destruct (sempty (trim_space (as_string (mget message "content")))) eqn:Ht; cbn [negb].
  2: { apply sempty_false in Ht. tauto. }
  apply sempty_true in Ht. destruct (as_list (mget message "tool_calls")) as [|call calls].
  - split; [by destruct (sempty _)|]. intros [?|[?|(? & ? & [=])]]; done.
  - split; [|done]. intros _. right; right. by exists call, calls.
Qed.

Abbreviation asked := {q : mcall & mreply q}.

(** A candidate the quality gate was asked about and did not hold back: nothing is
    asked without a gate. *)
Definition cleared (g : Gateway) (c : Candidate) : list asked :=
  if Quality g then [existT (P := mreply) (QDegraded (Provider c) (Model c)) false] else [].

(** A candidate that did not serve: what it and the gate were asked and answered, and
    how that is logged. *)
Inductive passed_over (g : Gateway) (ctx : gomap) (c : Candidate) : list asked → AttemptRecord → Prop :=
| held_back :
    Quality g = true →
    passed_over g ctx c [existT (P := mreply) (QDegraded (Provider c) (Model c)) true] (attempt c degraded_msg None None)
| not_registered :
    providers g !! Provider c = None →
    passed_over g ctx c (cleared g c) (attempt c unregistered_msg None None)
| provider_failed e :
    is_Some (providers g !! Provider c) →
    passed_over g ctx c (cleared g c ++ [existT (P := mreply) (QDecide (Provider c) (input_for ctx c).1) (Err e)])%list
      (attempt c (err_text e) (Some e) None)
| answered_nothing output reason :
    is_Some (providers g !! Provider c) → (¬ usable output) → reason ≠ "" →
    passed_over g ctx c (cleared g c ++ [existT (P := mreply) (QDecide (Provider c) (input_for ctx c).1) (Ok output)])%list
      (attempt c reason None output).

Inductive all_passed_over (g : Gateway) (ctx : gomap) : list Candidate → list asked → list AttemptRecord → Prop :=
| none_left : all_passed_over g ctx [] [] []
| one_more c cs t ts a log :
    passed_over g ctx c t a → all_passed_over g ctx cs ts log →
    all_passed_over g ctx (c :: cs) (t ++ ts)%list (a :: log).

(** The candidate that served: not held back, registered, and with a usable answer,
    which is the one returned. *)
Definition serves (g : Gateway) (ctx : gomap) (c : Candidate) (t : list asked) (log : list AttemptRecord) (res : DecisionResult) : Prop :=
  ∃ output, is_Some (providers g !! Provider c) ∧ usable output ∧
    t = (cleared g c ++ [existT (P := mreply) (QDecide (Provider c) (input_for ctx c).1) (Ok output)])%list ∧
    res = {| ProviderUsed := Provider c; ModelUsed := Model c; Output := output;
             Attempts := (log ++ [attempt c "" None None])%list; UnsendableTurnsDropped := (input_for ctx c).2 |}.

(** What happened, given the order the candidates are tried in. *)
Definition cascade (g : Gateway) (ctx : gomap) (order : list Candidate) (before : list AttemptRecord) (t : list asked)
    (out : result GatewayError DecisionResult) : Prop :=
  match out with
  | Ok res => ∃ pre c post log t1 t2, order = (pre ++ c :: post)%list ∧ t = (t1 ++ t2)%list ∧
                all_passed_over g ctx pre t1 log ∧ serves g ctx c t2 (before ++ log)%list res
  | Err (AllCandidatesFailed all) => ∃ log, all = (before ++ log)%list ∧ all_passed_over g ctx order t log
  | Err ErrNoRestrictedCandidate => False
  end.

Lemma cascade_cons g ctx c rest before t ts a out :
  passed_over g ctx c t a → cascade g ctx rest (before ++ [a])%list ts out → cascade g ctx (c :: rest) before (t ++ ts)%list out.
Proof.
  intros Hp. destruct out as [res|[|all]]; simpl; [|done|].
  - intros (pre & c' & post & log & t1 & t2 & -> & -> & Ha & Hs).
    exists (c :: pre), c', post, (a :: log), (t ++ t1)%list, t2. rewrite <- app_assoc in Hs |- *.
    split_and!; try done. by constructor.
  - intros (log & -> & Ha). exists (a :: log). rewrite <- app_assoc. split; [done|by constructor].
Qed.

Lemma ask_degraded_history g c t b :
  histories (ask_degraded g c) t b →
  (b = true ∧ Quality g = true ∧ t = [existT (P := mreply) (QDegraded (Provider c) (Model c)) true]) ∨
  (b = false ∧ t = cleared g c).
Proof.
  unfold ask_degraded, cleared. destruct (Quality g).
  - intros (r & t' & -> & -> & ->). destruct r; auto.
  - intros [-> ->]. by right.
Qed.

Lemma decide_loop_history g ctx l : ∀ before t out,
  histories (decide_loop g ctx before l) t out → cascade g ctx l before t out.
Proof.
  induction l as [|c rest IH]; intros before t out; cbn [decide_loop].
  { intros [-> ->]. exists []. rewrite app_nil_r. split; [done|constructor]. }
  intros (degraded & t1 & t2 & -> & Hd & Hr)%histories_bind.
  apply ask_degraded_history in Hd as [(-> & Hq & ->)|[-> ->]].
  { eapply cascade_cons; [by constructor|by apply IH]. }
  destruct (providers g !! Provider c) eqn:Hp; [|eapply cascade_cons; [by constructor|by apply IH]].
  assert (Hreg : is_Some (providers g !! Provider c)) by eauto.
  destruct (input_for ctx c) as [input dropped] eqn:Hi.
  assert (input = (input_for ctx c).1 ∧ dropped = (input_for ctx c).2) as [-> ->] by by rewrite Hi.
  apply histories_bind in Hr as (? & ? & t3 & -> & (res & ? & -> & -> & ->) & Hr). rewrite app_assoc.
  destruct res as [output|e]; [|eapply cascade_cons; [by constructor|by apply IH]]. cbv zeta in Hr.
  destruct (sempty (emptyAnswer output)) eqn:Hu; cbn [negb] in Hr.
  - destruct Hr as [-> ->]. apply sempty_true, emptyAnswer_usable in Hu. rewrite app_nil_r.
    exists [], c, rest, [], []. eexists. split_and!; [done|reflexivity|constructor|].
    exists output. by rewrite app_nil_r.
  - apply sempty_false in Hu. eapply cascade_cons; [|by apply IH].
    apply answered_nothing; [done|by rewrite <- emptyAnswer_usable|done].
Qed.

Section decide_spec.
Context `{GoRuntime}.

(** C14. The gateway tries the candidates in ascending priority, only the in-network
    ones for restricted data, and asks nothing else: the quality gate first when there
    is one, then the provider, once. A candidate is passed over exactly because the gate
    answered that it is degraded, because it is not registered, because the provider
    answered that error, or because its answer has nothing a caller can use, which is
    logged with the output that was paid for. The first candidate that is none of these
    serves: what is returned is what that provider answered, with every earlier
    candidate logged; nobody after it is asked. Failure is reported only when all were
    passed over; and restricted data without an in-network candidate asks nobody. *)
Theorem Decide_serves_first_usable g cands ctx sensitivity t out :
  histories (Decide g cands ctx sensitivity) t out →
  (out = Err ErrNoRestrictedCandidate ↔ sensitivity = "restricted" ∧ ∀ c, c ∈ cands → InNetwork c = false) ∧
  match out with
  | Err ErrNoRestrictedCandidate => t = []
  | _ => ∃ order, order ≡ₚ (if decide (sensitivity = "restricted") then List.filter InNetwork cands else cands) ∧
      StronglySorted (λ a b, (Priority a ≤ Priority b)%Z) order ∧ cascade g ctx order [] t out
  end.
Proof.
  unfold Decide. assert (Hnone : List.filter InNetwork cands = [] ↔ ∀ c, c ∈ cands → InNetwork c = false).
  { clear. induction cands as [|c l IH]; simpl; [set_solver|]. destruct (InNetwork c) eqn:Hn.
    - split; [done|]. intros Hall. rewrite (Hall c) in Hn by left. done.
    - rewrite IH. set_solver. }
  destruct (restrictPool cands sensitivity) as [pool|e] eqn:Hp; unfold restrictPool in Hp.
  - intros Hr%decide_loop_history.
    assert (StronglySorted (λ a b, (Priority a ≤ Priority b)%Z) (by_priority pool)) as Hs.
    { eapply StronglySorted_weaken; [|apply sort_slice_sorted, (Zltb_sw Priority)].
      intros a b. simpl. apply Z.ltb_ge. }
    pose proof (sort_slice_perm (λ a b, (Priority a <? Priority b)%Z) pool) as Hperm.
    assert (pool = (if decide (sensitivity = "restricted") then List.filter InNetwork cands else cands) ∧
            ¬ (sensitivity = "restricted" ∧ ∀ c, c ∈ cands → InNetwork c = false)) as [Hpool Hno].
    { destruct (String.eqb_spec sensitivity "restricted") as [->|]; simpl in Hp.
      - rewrite decide_True by done. rewrite <- Hnone. destruct (List.filter InNetwork cands); [done|].
        injection Hp as <-. split; [done|]. by intros [_ [=]].
      - rewrite decide_False by done. injection Hp as <-. split; [done|]. by intros [? _]. }
    rewrite <- Hpool. split; [|destruct out as [res|[|all]]; [|done|]; by exists (by_priority pool)].
    destruct out as [res|[|all]]; [|done|]; by split.
  - intros [-> ->]. destruct (String.eqb_spec sensitivity "restricted") as [->|]; simpl in Hp; [|done].
    destruct (List.filter InNetwork cands) eqn:Hf; [|done]. injection Hp as <-. split; [|done].
    by rewrite <- Hnone.
Qed.
End decide_spec.

(** ** What a streaming client receives *)

Definition is_yield (q : mcall) : bool := match q with QYield _ => true | _ => false end.
Definition yields (t : list mcall) : Prop := Forall (λ q, is_yield q = true) t.
Definition quiet (t : list mcall) : Prop := Forall (λ q, is_yield q = false) t.

Lemma play_traces s : ∀ b t d e, traces (play b s) t (d, e) →
  yields t ∧ d = (b || match t with [] => false | _ => true end).
Proof.
  induction s as [err|ch k IH]; intros b t d e; cbn [play].
  - intros [-> [= -> ->]]. split; [constructor|]. by rewrite orb_false_r.
  - intros (r & t' & -> & Ht). apply IH in Ht as [Hy ->]. split; [by constructor|].
    by rewrite orb_true_r.
Qed.

Section stream_spec.
Context `{GoRuntime}.

(** A candidate is asked once, and everything after that is its chunks. *)
Lemma stream_candidate_traces g c streamable ctx t d e :
  traces (stream_candidate g c streamable (input_for ctx c).1) t (d, e) →
  ∃ q ys, t = q :: ys ∧ is_yield q = false ∧ reaches q (Provider c) ∧ call_for ctx c q ∧ yields ys ∧
    d = match ys with [] => false | _ => true end.
Proof.
  unfold stream_candidate, decideAsSingleChunk. destruct streamable; intros (r & t' & -> & Ht).
  - apply play_traces in Ht as [Hy ->]. eexists _, t'. split_and!; done.
  - destruct r as [output|err].
    + destruct Ht as (r & t'' & -> & -> & [= -> ->]). eexists _, [_]. split_and!; try done.
      by constructor.
    + destruct Ht as [-> [= -> ->]]. eexists _, []. split_and!; try done. constructor.
Qed.

(** The chunks of a run, if any, are its end and come from the last provider
    asked, which the result names. *)
Definition unspliced (ctx : gomap) (cands : list Candidate) (t : list mcall)
    (ans : option StreamResult * option (GatewayError + perr)) : Prop :=
  ∃ t1 t2, t = (t1 ++ t2)%list ∧ quiet t1 ∧ yields t2 ∧
    (t2 ≠ [] → ∃ c sr q, c ∈ cands ∧ ans.1 = Some sr ∧ sr_ProviderUsed sr = Provider c ∧
                 sr_ModelUsed sr = Model c ∧ last t1 = Some q ∧ reaches q (Provider c) ∧ call_for ctx c q).

Lemma unspliced_cons ctx c cands pre t ans :
  quiet pre → unspliced ctx cands t ans → unspliced ctx (c :: cands) (pre ++ t)%list ans.
Proof.
  intros Hpre (t1 & t2 & -> & H1 & H2 & H3). exists (pre ++ t1)%list, t2.
  split_and!; [by rewrite app_assoc|by apply Forall_app|done|]. intros Hne.
  destruct (H3 Hne) as (c' & sr & q & Hc & Ha & Hp & Hm & Hl & Hr & Hf). exists c', sr, q.
  split_and!; try done; [by right|]. by rewrite last_app, Hl.
Qed.

Lemma stream_loop_traces g ctx onStart l : ∀ attempts t ans,
  traces (stream_loop g ctx onStart attempts l) t ans → unspliced ctx l t ans.
Proof.
  induction l as [|c rest IH]; intros attempts t ans; cbn [stream_loop].
  { intros [-> ->]. exists [], []. split_and!; [done|constructor|constructor|done]. }
  intros Ht. apply traces_bind in Ht as (degraded & td & t0 & -> & Htd & Ht).
  assert (quiet td) as Hqd.
  { unfold ask_degraded in Htd. destruct (Quality g); [|by destruct Htd as [-> _]; constructor].
    destruct Htd as (r & t' & -> & -> & _). by constructor. }
  destruct degraded; [apply unspliced_cons; [done|by eapply IH]|].
  destruct (providers g !! Provider c) as [streamable|]; [|apply unspliced_cons; [done|by eapply IH]].
  destruct (input_for ctx c) as [input dropped] eqn:Hi.
  apply traces_bind in Ht as ([] & ts & t3 & -> & Hts & Ht).
  assert (quiet ts) as Hqs.
  { destruct onStart; [|by destruct Hts as [-> _]; constructor].
    destruct Hts as (r & t' & -> & -> & _). by constructor. }
  apply traces_bind in Ht as ([delivered err] & tc & t4 & -> & Htc & Ht).
  replace input with (input_for ctx c).1 in Htc by (by rewrite Hi).
  apply stream_candidate_traces in Htc as (q & ys & -> & Hq & Hreach & Hfor & Hys & Hdel).
  assert (∀ sr ans, t4 = [] → ans.1 = Some sr → sr_ProviderUsed sr = Provider c → sr_ModelUsed sr = Model c →
            unspliced ctx (c :: rest) (td ++ ts ++ (q :: ys) ++ t4)%list ans) as Hend.
  { intros sr ans' -> Ha Hp Hm. exists (td ++ ts ++ [q])%list, ys.
    split_and!; [rewrite app_nil_r, <-!app_assoc; done|..|done|].
    - repeat apply Forall_app_2; try done. by constructor.
    - intros _. exists c, sr, q. split_and!; try done; [left|]. by rewrite !last_app. }
  destruct err as [e|]; [destruct delivered|].
  - destruct Ht as [Ht4 ->]. by eapply Hend.
  - assert (ys = []) as -> by (by destruct ys). rewrite !app_assoc. apply unspliced_cons; [|by eapply IH].
    rewrite <-!app_assoc. repeat apply Forall_app_2; try done. by constructor.
  - destruct Ht as [Ht4 ->]. by eapply Hend.
Qed.

(** A streamed response is never spliced from two models: in every run, once a
    chunk has been delivered nothing but chunks follows, all of them from the last
    provider asked, asked with that candidate's own input, and the result names
    that candidate. *)
Theorem stream_never_splices g cands ctx sensitivity onStart t ans :
  traces (DecideStream g cands ctx sensitivity onStart) t ans →
  ∃ t1 t2, t = (t1 ++ t2)%list ∧ quiet t1 ∧ yields t2 ∧
    (t2 ≠ [] → ∃ c sr q, c ∈ cands ∧ ans.1 = Some sr ∧ sr_ProviderUsed sr = Provider c ∧
                 sr_ModelUsed sr = Model c ∧ last t1 = Some q ∧ reaches q (Provider c) ∧ call_for ctx c q).
Proof.
  unfold DecideStream. destruct (restrictPool cands sensitivity) as [pool|e] eqn:Hp.
  - intros (t1 & t2 & Ht & H1 & H2 & H3)%stream_loop_traces. exists t1, t2. split_and!; try done.
    intros Hne. destruct (H3 Hne) as (c & sr & q & Hc & Hrest). exists c, sr, q. split; [|done].
    unfold by_priority in Hc. rewrite sort_slice_perm in Hc. unfold restrictPool in Hp.
    destruct (negb _); [by injection Hp as ->|].
    assert (pool = List.filter InNetwork cands) as -> by (by destruct (List.filter _ _); simplify_eq).
    apply list_elem_of_In, List.filter_In in Hc as [Hc _]. by apply list_elem_of_In.
  - intros [-> ->]. exists [], []. split_and!; [done|constructor|constructor|done].
Qed.
End stream_spec.

(** ** Adapters' answers, read by the gateway *)

Lemma mget_insert k v (m : gmap string any) k' :
  mget (<[k := v]> m) k' = if String.eqb k k' then v else mget m k'.
Proof.
  unfold mget. destruct (String.eqb_spec k k') as [->|Hne];
    [by rewrite lookup_insert_eq|by rewrite lookup_insert_ne].
Qed.
Lemma mget_put_some k v m k' :
  mget (put_some k v m) k' = match v with Some x => if String.eqb k k' then x else mget m k' | None => mget m k' end.
Proof. destruct v; [apply mget_insert|done]. Qed.
Lemma mget_put_string k v m k' :
  mget (put_string k v m) k' =
  if negb (sempty v) && String.eqb k k' then AString v else mget m k'.
Proof. unfold put_string. destruct (sempty v); [done|]. apply mget_insert. Qed.

Lemma normalized_reads marshal_text r :
  let out := NormalizedChatResponseFrom marshal_text r in
  mget out "choices" = AList [choice_of (message_from marshal_text r) (cr_FinishReason r)] ∧
  mget out "usage" = AMap (full_usage (cr_Usage r)) ∧ mget out "model" = AString (cr_Model r).
Proof.
  cbv zeta. unfold NormalizedChatResponseFrom. rewrite !mget_put_string, !andb_false_r. done.
Qed.

Lemma message_reads marshal_text r :
  let m := message_from marshal_text r in
  as_string (mget m "content") = cr_Content r ∧
  as_list (mget m "tool_calls") = openAIShapedToolCalls marshal_text (cr_ToolCalls r) ∧
  as_string (mget m "reasoning_content") = cr_ReasoningContent r.
Proof.
  cbv zeta. unfold message_from.
  set (base := put_some "reasoning_content" _ (assistant (cr_Content r))).
  assert (as_string (mget base "content") = cr_Content r ∧ mget base "tool_calls" = ANil ∧
          as_string (mget base "reasoning_content") = cr_ReasoningContent r) as (H1 & H2 & H3).
  { unfold base. rewrite !mget_put_some. destruct (sempty (cr_ReasoningContent r)) eqn:He; simpl; [|done].
    apply sempty_true in He as ->. done. }
  set (with_parts := match ContentParts _ _ _ _ with [] => base | _ => _ end).
  assert (as_string (mget with_parts "content") = cr_Content r ∧ mget with_parts "tool_calls" = ANil ∧
          as_string (mget with_parts "reasoning_content") = cr_ReasoningContent r) as (H1' & H2' & H3')
    by (unfold with_parts; destruct (ContentParts _ _ _ _); [done|rewrite !mget_insert; done]).
  destruct (cr_ToolCalls r) as [|tc calls]; [rewrite H2'; done|].
  destruct (sempty (cr_Content r)) eqn:He.
  - apply sempty_true in He. rewrite !mget_insert. simpl. by rewrite He.
  - rewrite !mget_insert. done.
Qed.

(** What an adapter extracts is what the gateway reads back: an answer counts
    as usable exactly when it was cut by its length, says something other than
    blanks, or carries a tool call the wire can express; and the two token counters
    are the provider's, an unreported one staying unreported. *)
Theorem normalized_answer_read_back `{GoRuntime} marshal_text r :
  let out := Some (NormalizedChatResponseFrom marshal_text r) in
  (emptyAnswer out = "" ↔
   cr_FinishReason r = "length" ∨ trim_space (cr_Content r) ≠ "" ∨
   openAIShapedToolCalls marshal_text (cr_ToolCalls r) ≠ []) ∧
  usageOf out = (PromptTokens (cr_Usage r), CompletionTokens (cr_Usage r)) ∧
  responseModelOf out = cr_Model r.
Proof.
  cbv zeta. destruct (normalized_reads marshal_text r) as (Hc & Hu & Hm).
  destruct (message_reads marshal_text r) as (M1 & M2 & M3).
  split; [|split].
  - unfold emptyAnswer, items; cbn [from_option id]. rewrite Hc. cbn [as_list].
    assert (as_string (mget (as_map (choice_of (message_from marshal_text r) (cr_FinishReason r))) "finish_reason")
            = cr_FinishReason r) as -> by done.
    assert (as_map (mget (as_map (choice_of (message_from marshal_text r) (cr_FinishReason r))) "message")
            = message_from marshal_text r) as -> by done.
    rewrite M1, M2, M3. destruct (String.eqb_spec (cr_FinishReason r) "length"); [naive_solver|].
    destruct (sempty (trim_space (cr_Content r))) eqn:He; cbn [negb].
    + apply sempty_true in He. rewrite He.
      destruct (openAIShapedToolCalls marshal_text (cr_ToolCalls r)); [|naive_solver].
      destruct (negb _); naive_solver.
    + apply sempty_false in He. naive_solver.
  - unfold usageOf, items; cbn [from_option id]. rewrite Hu. cbn [as_map as_map_opt from_option id].
    unfold full_usage, usageBlock. destruct (cr_Usage r) as [p c cr cw rt est]. cbn.
    rewrite !mget_put_some. destruct p, c, cr, cw, rt, est; reflexivity.
  - unfold responseModelOf, items; cbn [from_option id]. by rewrite Hm.
Qed.

(** ** The bundle and the request *)

(** A candidate a chat profile may use: it declares its inference class, a local
    one being named in the profile's exception, and a modality chat serves. *)
Definition admissible (p : ModelProfileDoc) (d : CandidateDoc) : Prop :=
  (Modality d = "text" ∨ Modality d = "vision") ∧
  (InferenceClass d = "cloud" ∨
   InferenceClass d = "local" ∧
   ∃ e, LocalInference p = Some e ∧ Environment e ≠ "" ∧ cd_Provider d ∈ AllowedProviders e).

Lemma checkInferenceClass_ok profile d exception :
  checkInferenceClass profile d exception = Ok tt ↔
  InferenceClass d = "cloud" ∨
  InferenceClass d = "local" ∧
  ∃ e, exception = Some e ∧ Environment e ≠ "" ∧ cd_Provider d ∈ AllowedProviders e.
Proof.
  unfold checkInferenceClass, InferenceClassCloud, InferenceClassLocal.
  destruct (String.eqb_spec (InferenceClass d) "cloud") as [->|Hc]; [naive_solver|].
  destruct (String.eqb_spec (InferenceClass d) "local") as [->|Hl]; [|naive_solver].
  destruct exception as [e|]; [|naive_solver].
  assert (existsb (String.eqb (cd_Provider d)) (AllowedProviders e) = true ↔
          cd_Provider d ∈ AllowedProviders e) as Hex.
  { rewrite existsb_exists. setoid_rewrite <-list_elem_of_In. setoid_rewrite String.eqb_eq. naive_solver. }
  destruct (sempty (Environment e)) eqn:He.
  - apply sempty_true in He. simpl. naive_solver.
  - apply sempty_false in He. simpl. destruct (existsb _ _); naive_solver.
Qed.

Lemma resolve_ok p :
  (∀ d, d ∈ Candidates p → admissible p d) ↔ is_ok (resolve p) = true.
Proof.
  unfold resolve.
  assert (∀ cs acc, (∀ d, d ∈ cs → admissible p d) ↔ is_ok (fold_res (resolve_candidate p) acc cs) = true) as Hg.
  { induction cs as [|d cs IH]; intros acc; simpl; [set_solver|].
    unfold resolve_candidate at 1.
    destruct (checkInferenceClass (Profile p) d (LocalInference p)) as [[]|err] eqn:Hc; simpl.
    - apply checkInferenceClass_ok in Hc.
      destruct (chatServableModalities (Modality d)) eqn:Hm; simpl.
      + rewrite <-IH. unfold chatServableModalities in Hm.
        apply orb_true_iff in Hm. rewrite !String.eqb_eq in Hm.
        assert (admissible p d) by (unfold admissible; tauto). setoid_rewrite elem_of_cons. naive_solver.
      + unfold chatServableModalities in Hm. apply orb_false_iff in Hm as [M1 M2].
        apply String.eqb_neq in M1, M2. split; [|done]. intros Hall.
        destruct (Hall d) as [[?|?] _]; [left|done|done].
    - split; [|done]. intros Hall. destruct (Hall d) as [_ Hcl]; [left|].
      apply (checkInferenceClass_ok (Profile p)) in Hcl. congruence. }
  rewrite (Hg _ []). by destruct (fold_res _ _ _).
Qed.

(** A profile resolves exactly when every candidate of the first profile with
    that name is admissible, and then to its candidates, in order, each in-network
    exactly when the profile declares its provider so. *)
Theorem ResolveProfile_admits doc profile p :
  (∃ i, list_find (λ p, Profile p = profile) (Profiles doc) = Some (i, p)) →
  (is_ok (ResolveProfile doc profile) = true ↔ ∀ d, d ∈ Candidates p → admissible p d) ∧
  ∀ cands s, ResolveProfile doc profile = Ok (cands, s) →
    s = match RoutingConstraints_ p with Some r => DataSensitivity r | None => "" end ∧
    Forall2 (λ d c, Provider c = cd_Provider d ∧ Model c = cd_Model d ∧ Priority c = cd_Priority d ∧
                    (InNetwork c = true ↔ ∃ r, RoutingConstraints_ p = Some r ∧
                                              cd_Provider d ∈ InNetworkProviders r))
      (Candidates p) cands.
Proof.
  intros [i Hf]. unfold ResolveProfile. rewrite Hf. split; [by rewrite <-resolve_ok|].
  intros cands s. unfold resolve. intros Hr. inv_res.
  rename select (fold_res _ _ _ = Ok _) into Hfold.
  destruct (resolve_candidates _ _ _ _ Hfold) as (new & -> & Hall). split; [done|]. simpl.
  eapply Forall2_impl; [exact Hall|]. simpl. tauto.
Qed.

Lemma actual_modalities_last catalog m :
  actual_modalities catalog !! m = ce_Modality <$> last (filter (λ e, ce_Model e = m) catalog).
Proof.
  unfold actual_modalities. induction catalog as [|e catalog IH] using rev_ind; [done|].
  rewrite foldl_app, filter_app, filter_cons, filter_nil. cbn [foldl].
  destruct (decide (ce_Model e = m)) as [<-|Hne].
  - by rewrite lookup_insert_eq, last_snoc.
  - by rewrite lookup_insert_ne, app_nil_r.
Qed.

(** The catalogue check reports exactly the declarations the provider's
    catalogue contradicts: a candidate of that provider whose model the catalogue
    does not list, or lists (last) with another modality, and nothing else. *)
Theorem VerifyModalities_exact doc provider catalog mc :
  mc ∈ VerifyModalitiesAgainstCatalog doc provider catalog ↔
  ∃ p d, p ∈ Profiles doc ∧ d ∈ Candidates p ∧ cd_Provider d = provider ∧
    mc_Profile mc = Profile p ∧ mc_Provider mc = provider ∧ mc_Model mc = cd_Model d ∧
    Declared mc = Modality d ∧
    match last (filter (λ e, ce_Model e = cd_Model d) catalog) with
    | None => Actual mc = ""
    | Some e => Actual mc = ce_Modality e ∧ ce_Modality e ≠ Modality d
    end.
Proof.
  unfold VerifyModalitiesAgainstCatalog. rewrite list_elem_of_bind.
  setoid_rewrite list_elem_of_omap. unfold contradiction.
  setoid_rewrite actual_modalities_last. split.
  - intros (p & (d & Hd & Hc) & Hp). exists p, d.
    destruct (String.eqb_spec (cd_Provider d) provider) as [<-|]; [|done]. cbn [negb] in Hc.
    destruct (last _) as [e|]; simpl in Hc; [|simplify_eq; by split_and!].
    destruct (String.eqb_spec (ce_Modality e) (Modality d)); simplify_eq. by split_and!.
  - intros (p & d & Hp & Hd & <- & H1 & H2 & H3 & H4 & H5). exists p. split; [|done]. exists d. split; [done|].
    rewrite String.eqb_refl. cbn [negb]. destruct mc as [m1 m2 m3 m4 m5]; simpl in *; subst.
    destruct (last _) as [e|]; simpl; [|by subst]. destruct H5 as [-> Hne].
    by destruct (String.eqb_spec (ce_Modality e) (Modality d)).
Qed.

(** The repair of a request removes exactly the assistant turns nothing on the
    wire could carry, keeps every other message in order, touches no other field,
    and counts what it removed. *)
Theorem dropUnsendable_exact input :
  let '(out, dropped) := dropUnsendableAssistantTurns input in
  (∀ k, k ≠ "messages" → out !! k = input !! k) ∧
  match mget input "messages" with
  | AList raw => out !! "messages" = Some (AList (List.filter (λ rm, negb (unsendable rm)) raw)) ∧
                 dropped = length (List.filter unsendable raw)
  | _ => out = input ∧ dropped = 0%nat
  end.
Proof.
  unfold dropUnsendableAssistantTurns. destruct (mget input "messages") as [| | | | | | | | |raw| |] eqn:Hm;
    try (by split).
  assert (length (List.filter unsendable raw) + length (List.filter (λ rm, negb (unsendable rm)) raw)
          = length raw)%nat as Hlen
    by (rewrite <-(List.filter_length unsendable raw); lia).
  cbv zeta. destruct (Nat.eqb_spec (length raw - length (List.filter (λ rm, negb (unsendable rm)) raw)) 0)
    as [H0|Hn].
  - split; [done|]. assert (List.filter (λ rm, negb (unsendable rm)) raw = raw) as ->.
    { apply List.forallb_filter_id, List.forallb_forall. intros x Hx.
      destruct (unsendable x) eqn:Hux; [|done]. exfalso.
      assert (x ∈ List.filter unsendable raw) as Hin by (by apply list_elem_of_In, List.filter_In).
      destruct (List.filter unsendable raw); [by apply not_elem_of_nil in Hin|simpl in Hlen; lia]. }
    split; [|lia]. unfold mget in Hm. destruct (input !! "messages"); simpl in Hm; congruence.
  - split; [intros k Hk; by rewrite lookup_insert_ne|]. rewrite lookup_insert_eq. split; [done|lia].
Qed.

(** ** Where the two surfaces part *)

(** The streaming surface serves what the cascade rejects: an answer with no
    usable content is a failed candidate for Decide, whose output is kept so that it
    is paid for, but through a provider that cannot stream the same answer is
    delivered as one chunk and reported as success. *)
Theorem single_chunk_serves_unusable `{GoRuntime} g c ctx output
    (handle : () → ∀ q : mcall, () * mreply q) :
  Quality g = false → providers g !! Provider c = Some false → emptyAnswer output ≠ "" →
  (handle tt (QDecide (Provider c) (input_for ctx c).1)).2 = Ok output →
  (∀ ch, (handle tt (QYield ch)).2 = None) →
  (run handle tt (Decide g [c] ctx "")).2 =
    Err (AllCandidatesFailed [attempt c (emptyAnswer output) None output]) ∧
  (run handle tt (DecideStream g [c] ctx "" false)).2 =
    (Some {| sr_ProviderUsed := Provider c; sr_ModelUsed := Model c; Streamed := false;
             sr_Attempts := [attempt c "" None None]; sr_Dropped := (input_for ctx c).2 |}, None).
Proof.
  intros Hq Hp Hu Hd Hy. apply sempty_false in Hu.
  assert (by_priority [c] = [c]) as Hs.
  { apply Permutation_singleton_r. apply sort_slice_perm. }
  assert (restrictPool [c] "" = Ok [c]) as Hpool by done.
  split.
  - unfold Decide. rewrite Hpool, Hs.
    cbn [decide_loop]. rewrite run_bind. unfold ask_degraded. rewrite Hq. simpl. rewrite Hp.
    destruct (input_for ctx c) as [input dropped]. simpl in *.
    destruct (handle tt (QDecide (Provider c) input)) as [[] r]. simpl in Hd. subst r. by rewrite Hu.
  - unfold DecideStream. rewrite Hpool, Hs. cbn [stream_loop].
    rewrite run_bind. unfold ask_degraded. rewrite Hq. simpl. rewrite Hp.
    destruct (input_for ctx c) as [input dropped]. simpl in *.
    destruct (handle tt (QDecide (Provider c) input)) as [[] r]. simpl in Hd. subst r. simpl.
    pose proof (Hy (single_chunk output)) as Hyc.
    destruct (handle tt (QYield (single_chunk output))) as [[] r]. simpl in Hyc. by subst r.
Qed.

(** ** Witnesses *)

Module ModelWitnesses.
#[local] Existing Instance amd64_runtime.

Definition cand (provider model cls : string) (prio : Z) : CandidateDoc :=
  {| cd_Provider := provider; cd_Model := model; Modality := "text"; InferenceClass := cls;
     cd_Priority := prio; CostModel := ""; CostPerMillionInputTokens := f_zero;
     CostPerMillionOutputTokens := f_zero |}.
Definition research : ModelProfileDoc :=
  {| Profile := "research"; Candidates := [cand "openai" "gpt" "cloud" 1; cand "prom" "qwen" "local" 2];
     LocalInference := Some {| Environment := "lab"; AllowedProviders := ["prom"] |};
     RoutingConstraints_ := Some {| DataSensitivity := "restricted"; InNetworkProviders := ["prom"] |} |}.
Definition doc : ModelPolicyBundleDoc :=
  {| mb_APIVersion := "v1"; mb_Kind := "ModelPolicyBundle"; Profiles := [research] |}.
Definition openai : Candidate := {| Provider := "openai"; Model := "gpt"; Priority := 1; InNetwork := false |}.
Definition prom : Candidate := {| Provider := "prom"; Model := "qwen"; Priority := 2; InNetwork := true |}.
Definition gw : Gateway := RegisterProvider (RegisterProvider New "openai" true) "prom" false.

Lemma doc_resolves : ResolveProfile doc "research" = Ok ([openai; prom], "restricted").
Proof. reflexivity. Qed.

Lemma restricted_stays_in_network_witness :
  ∃ r, RoutingConstraints_ research = Some r ∧ "prom" ∈ InNetworkProviders r.
Proof.
  destruct (restricted_stays_in_network doc "research" [openai; prom] "restricted" gw None true
              (QDecide "prom" (input_for None prom).1) "prom")
    as (prof & r & Hin & _ & Hr & Hp);
    [exact doc_resolves|left; left; reflexivity|reflexivity|].
  apply list_elem_of_singleton in Hin. subst prof. exists r. split; [exact Hr|exact Hp].
Defined.

Lemma ResolveProfile_admits_witness :
  is_ok (ResolveProfile doc "research") = true ∧ ∀ d, d ∈ Candidates research → admissible research d.
Proof.
  split; [reflexivity|].
  apply (proj1 (ResolveProfile_admits doc "research" research (ex_intro _ 0%nat eq_refl))). reflexivity.
Defined.

Definition reply_text (s : string) : gomap :=
  Some (NormalizedChatResponse "gpt" s "stop" (Some 3%Z) None).

Definition openai_served : DecisionResult :=
  {| ProviderUsed := "openai"; ModelUsed := "gpt"; Output := reply_text "hi";
     Attempts := [attempt openai "" None None]; UnsendableTurnsDropped := 0 |}.
(** The first candidate answers nothing, so the second one serves. *)
Definition local_is_silent (q : mcall) : mreply q :=
  match q return mreply q with
  | QDegraded _ _ => false
  | QDecide p _ => Ok (reply_text (if String.eqb p "openai" then "hi" else " "))
  | QStream _ _ => SEnd None
  | QYield _ => None
  | QStart _ => tt
  end.
Definition openai_last : Candidate := {| Provider := "openai"; Model := "gpt"; Priority := 3; InNetwork := false |}.
Lemma Decide_serves_first_usable_witness :
  let out := run_log (λ (_ : unit) c, (tt, local_is_silent c)) tt (Decide gw [openai_last; prom] None "") in
  ∃ order, order ≡ₚ [openai_last; prom] ∧ StronglySorted (λ a b, (Priority a ≤ Priority b)%Z) order ∧
    cascade gw None order [] out.1.2 out.2.
Proof.
  pose proof (run_log_histories (λ (_ : unit) c, (tt, local_is_silent c)) (Decide gw [openai_last; prom] None "") tt) as Hh.
  exact (proj2 (Decide_serves_first_usable gw [openai_last; prom] None "" _ _ Hh)).
Defined.

Definition one_chunk : Chunk := empty_chunk.
Lemma stream_never_splices_witness :
  ∃ t1 t2, [QStream "openai" (input_for None openai).1; QYield one_chunk] = (t1 ++ t2)%list ∧
    quiet t1 ∧ yields t2.
Proof.
  destruct (stream_never_splices gw [prom; openai] None "" false
              [QStream "openai" (input_for None openai).1; QYield one_chunk]
              (Some {| sr_ProviderUsed := "openai"; sr_ModelUsed := "gpt"; Streamed := true;
                       sr_Attempts := [attempt openai "" None None]; sr_Dropped := 0 |}, None))
    as (t1 & t2 & Ht & H1 & H2 & _).
  { exists (SChunk one_chunk (λ _, SEnd None)), [QYield one_chunk]. split; [reflexivity|].
    exists None, []. split; [reflexivity|]. split; reflexivity. }
  exists t1, t2. split; [exact Ht|]. split; [exact H1|exact H2].
Defined.

Definition blank_handle (u : ()) (q : mcall) : () * mreply q :=
  (tt, match q return mreply q with
       | QDegraded _ _ => false
       | QDecide _ _ => Ok (reply_text "")
       | QStream _ _ => SEnd None
       | QYield _ => None
       | QStart _ => tt
       end).
Lemma single_chunk_serves_unusable_witness :
  (run blank_handle tt (Decide gw [prom] None "")).2 =
    Err (AllCandidatesFailed [attempt prom "provider returned empty content" None (reply_text "")]).
Proof.
  apply (single_chunk_serves_unusable gw prom None (reply_text "") blank_handle);
    [reflexivity|reflexivity|discriminate|reflexivity|reflexivity].
Defined.

Definition toy_parse (s : string) : result Z json :=
  if String.eqb s "null" then Ok JNull else if String.eqb s "{}" then Ok (JObject []) else Err 0%Z.
Lemma ToolCallFromWire_keeps_witness :
  tc_Arguments (ToolCallFromWire toy_parse (λ _, ANil) (λ _ _, "bad") "1" "f" "null") = None ∧
  ArgumentsError (ToolCallFromWire toy_parse (λ _, ANil) (λ _ _, "bad") "1" "f" "null") = "".
Proof.
  apply (ToolCallFromWire_keeps toy_parse (λ _, ANil) (λ _ _, "bad") "1" "f" "null");
    [discriminate|discriminate|reflexivity].
Defined.
End ModelWitnesses.
