(* ===== verification/ModelApi.v ===== *)
(** * Package api: the model gateway's handlers

    Models go/internal/api/model_gateway_handlers.go: the budget check before a
    call, the routing of the request, and the ledger rows of what was paid for,
    served or thrown away. A request is what the middleware leaves (the decoded
    body, the caller, the tenant header); the providers, the registry's statements
    and the ledger's are calls, each of which may fail. Tracing, logging and the
    wording of messages are left out. *)

From S2P Require Import Prelude GoValue Json Program Policy Auth ToolGateway.
From S2P Require Import Finops FinopsLedger AgentRegistry Providers ModelGateway.

Local Open Scope string_scope.
Set Default Proof Using "Type".

Record ModelGatewayHandlers := {
  mh_Gateway : Gateway;
  mh_Pricing : option Pricing.PricingTable;
  mh_Ledger : bool;
  mh_Agents : bool;
}.

Record decideCandidate := { dc_Provider : string; dc_Model : string; dc_Priority : Z }.
Record decideRequest := {
  dr_Candidates : list decideCandidate;
  dr_RenderedContext : gomap;
  dr_DataSensitivity : string;
  dr_RunID : string;
  dr_AgentManifestRef : string;
}.

(** ** Reading a normalized answer *)

Section reading.
Context `{GoRuntime}.

Definition toInt (v : any) : Z :=
  match v with
  | AInt n | AInt64 n => n
  | AFloat n => f_to_int n
  | _ => 0%Z
  end.
Definition optionalInt (v : any) : option Z := if is_nil v then None else Some (toInt v).

Definition usageBlock (output : gomap) : gmap string any := as_map (mget (items output) "usage").
Definition usageTokens (output : gomap) : option Z * option Z :=
  (optionalInt (mget (usageBlock output) "prompt_tokens"),
   optionalInt (mget (usageBlock output) "completion_tokens")).
Definition usageCacheTokens (output : gomap) : option Z * option Z :=
  (optionalInt (mget (usageBlock output) "cache_read_tokens"),
   optionalInt (mget (usageBlock output) "cache_write_tokens")).
Definition tokensOrZero (v : option Z) : Z := default 0%Z v.
Definition stringField (output : gomap) (key : string) : string := as_string (mget (items output) key).

Definition costModelName (pricing : option Pricing.PricingTable) (provider model : string)
  : option string :=
  Pricing.CostModel <$> Pricing.lookup_rate pricing provider model.

(** The cost model and the cost of a call: a cost only when both counters are
    known and the rate is token based. *)
Definition price (pricing : option Pricing.PricingTable) (provider model : string) (p c : option Z)
  : option string * option float64 :=
  (costModelName pricing provider model,
   match p, c with
   | Some p, Some c => Pricing.CostUSD pricing provider model p c
   | _, _ => None
   end).

Definition splitManifestRef (ref : string) : option (string * string) :=
  match last_index (Ascii.ascii_of_nat 64) ref with
  | None | Some 0%nat => None
  | Some at_ => if (at_ =? slen ref - 1)%nat then None
               else Some (take_str at_ ref, drop_str (S at_) ref)
  end.

(** ** Ledger entries *)

(** The entry of an answer that was served, and of one that was thrown away. *)
Definition served_entry (pricing : option Pricing.PricingTable) (runID agentRef : string)
    (provider model : string) (output : gomap) : CostEntry :=
  let '(p, c) := usageTokens output in
  let '(costModel, costUSD) := price pricing provider model p c in
  let '(cacheRead, cacheWrite) := usageCacheTokens output in
  {| FinopsLedger.Provider := provider; FinopsLedger.Model := model;
     FinopsLedger.CostModel := costModel; FinopsLedger.PromptTokens := p;
     FinopsLedger.CompletionTokens := c; FinopsLedger.CostUSD := costUSD;
     FinopsLedger.RunID := runID; FinopsLedger.AgentManifestRef := agentRef;
     FinopsLedger.CacheReadTokens := cacheRead; FinopsLedger.CacheWriteTokens := cacheWrite;
     FinopsLedger.ReasoningTokens := optionalInt (mget (usageBlock output) "reasoning_tokens");
     ProviderRequestID := stringField output "provider_request_id"; IdempotentReplayOf := "";
     ServedModel := stringField output "model";
     ServedByInstance := stringField output "served_by_instance"; DiscardedReason := "" |}.

Definition discarded_entry (pricing : option Pricing.PricingTable) (runID agentRef : string)
    (provider model reason : string) (output : gomap) : CostEntry :=
  let e := served_entry pricing runID agentRef provider model output in
  {| FinopsLedger.Provider := provider; FinopsLedger.Model := model;
     FinopsLedger.CostModel := FinopsLedger.CostModel e;
     FinopsLedger.PromptTokens := FinopsLedger.PromptTokens e;
     FinopsLedger.CompletionTokens := FinopsLedger.CompletionTokens e;
     FinopsLedger.CostUSD := FinopsLedger.CostUSD e;
     FinopsLedger.RunID := runID; FinopsLedger.AgentManifestRef := agentRef;
     FinopsLedger.CacheReadTokens := FinopsLedger.CacheReadTokens e;
     FinopsLedger.CacheWriteTokens := FinopsLedger.CacheWriteTokens e;
     FinopsLedger.ReasoningTokens := FinopsLedger.ReasoningTokens e;
     ProviderRequestID := ProviderRequestID e; IdempotentReplayOf := "";
     ServedModel := ServedModel e; ServedByInstance := ServedByInstance e; DiscardedReason := reason |}.

(** A replay is a row of measured zeroes that names the billed request. *)
Definition replay_entry (pricing : option Pricing.PricingTable) (runID agentRef : string)
    (provider model replayOf : string) (output : gomap) : CostEntry :=
  {| FinopsLedger.Provider := provider; FinopsLedger.Model := model;
     FinopsLedger.CostModel := costModelName pricing provider model;
     FinopsLedger.PromptTokens := Some 0%Z; FinopsLedger.CompletionTokens := Some 0%Z;
     FinopsLedger.CostUSD := Some f_zero;
     FinopsLedger.RunID := runID; FinopsLedger.AgentManifestRef := agentRef;
     FinopsLedger.CacheReadTokens := None; FinopsLedger.CacheWriteTokens := None;
     FinopsLedger.ReasoningTokens := None;
     ProviderRequestID := stringField output "provider_request_id"; IdempotentReplayOf := replayOf;
     ServedModel := stringField output "model";
     ServedByInstance := stringField output "served_by_instance"; DiscardedReason := "" |}.
End reading.

(** ** Throttling *)

Record throttle := {
  th_retry_after : option float64;
  th_rate_limited : list Throttled;
}.

Definition throttleRefusal (err : GatewayError) : option throttle :=
  match err with
  | ErrNoRestrictedCandidate => None
  | AllCandidatesFailed attempts =>
      let causes := Causes attempts in
      let '(wait, all) := SoonestRetry causes in
      if negb all || match causes with [] => true | _ => false end then None
      else Some {| th_retry_after := wait; th_rate_limited := omap ThrottleOf causes |}
  end.

(** [math.Ceil], and the Retry-After header. *)
Definition fceil (x : float64) : float64 :=
  let t := ftrunc x in if fltb t x then fadd t (f_of_Z 1) else t.
Definition retry_after_header `{GoRuntime} (t : throttle) : option Z :=
  (λ w, f_to_int (fceil w)) <$> th_retry_after t.

(** ** Calls *)

Section api.
Context `{GoRuntime, Postgres, GoJson}.

(** A call of the gateway, a statement of the registry, an INSERT of the ledger,
    or its query of a run's spend. *)
Inductive gcall :=
| GModel (q : mcall)
| GAgent (c : acall)
| GRecord (tenant : string) (e : CostEntry)
| GSpend (tenant runID : string).
Definition greply (c : gcall) : Type :=
  match c with
  | GModel q => mreply q
  | GAgent c => areply c
  | GRecord _ _ => result string ()
  | GSpend _ _ => result SpendError RunSpend
  end.
Abbreviation GM := (prog greply).

(** The gateway's and the registry's programs, as programs of the handler. *)
Fixpoint of_gateway {A} (m : prog mreply A) : GM A :=
  match m with Ret a => Ret a | Vis q k => Vis (GModel q) (λ r, of_gateway (k r)) end.
Fixpoint of_registry {A} (m : prog areply A) : GM A :=
  match m with Ret a => Ret a | Vis c k => Vis (GAgent c) (λ r, of_registry (k r)) end.

(** ** Whose tables *)

Definition tenantOf {B} (rq : request B) : string * bool :=
  match caller rq with
  | None => ("", false)
  | Some c => (effectiveTenantOrCaller (Some c) (tenant_header rq), negb (sempty (Tenant c)))
  end.
Definition ledgerFor {B} (h : ModelGatewayHandlers) (rq : request B) : option string :=
  let '(tenant, ok) := tenantOf rq in if negb ok || negb (mh_Ledger h) then None else Some tenant.
Definition agentsFor {B} (h : ModelGatewayHandlers) (rq : request B) : option string :=
  let '(tenant, ok) := tenantOf rq in if negb ok || negb (mh_Agents h) then None else Some tenant.

(** ** The budget check *)

Inductive Exceeded :=
| OverCost (spent ceiling : float64)
| OverTokens (spent ceiling : Z)
| OverModelCalls (spent ceiling : Z).

Record Refusal := {
  rf_exceeded : Exceeded;
  rf_run_id : string;
  rf_agent_manifest_ref : string;
  rf_ceiling : Ceiling.Ceiling;
  rf_spend : RunSpend;
  rf_unreported_usage_calls : option Z;
  rf_unpriced_calls : option Z;
  rf_retryable : bool;
  rf_disposition : string;
}.

(** Which ceiling a run's spend has reached, if any. *)
Definition exceeded (ceiling : Ceiling.Ceiling) (spend : RunSpend) : option Exceeded :=
  let over_calls :=
    match Ceiling.ModelCalls ceiling with
    | Some n => let attempts := (ModelCalls spend + DiscardedCalls spend)%Z in
                if (n <=? attempts)%Z then Some (OverModelCalls attempts n) else None
    | None => None
    end in
  let over_tokens :=
    match Ceiling.Tokens ceiling with
    | Some n => if (n <=? Tokens spend)%Z then Some (OverTokens (Tokens spend) n) else over_calls
    | None => over_calls
    end in
  match Ceiling.CostUSD ceiling with
  | Some usd => if fgeb (rs_CostUSD spend) usd then Some (OverCost (rs_CostUSD spend) usd) else over_tokens
  | None => over_tokens
  end.

Definition positive (n : Z) : option Z := if (0 <? n)%Z then Some n else None.
Definition refusal_of (runID agentRef : string) (ceiling : Ceiling.Ceiling) (spend : RunSpend)
    (e : Exceeded) : Refusal :=
  {| rf_exceeded := e; rf_run_id := runID; rf_agent_manifest_ref := agentRef; rf_ceiling := ceiling;
     rf_spend := spend; rf_unreported_usage_calls := positive (UnreportedUsageCalls spend);
     rf_unpriced_calls := positive (UnpricedCalls spend); rf_retryable := false;
     rf_disposition := Disposition.TerminateRun |}.

Definition overBudget {B} (h : ModelGatewayHandlers) (rq : request B) (runID agentRef : string)
  : GM (option Refusal) :=
  match agentsFor h rq, ledgerFor h rq with
  | Some agents, Some ledger =>
      if sempty runID || sempty agentRef then mret None else
      match splitManifestRef agentRef with
      | None => mret None
      | Some (name, version) =>
          got ← of_registry (Get agents name version);
          match got with
          | Err _ => mret None
          | Ok record =>
              let '(ceiling, _) := Ceiling.CeilingFromManifest (items (Manifest record)) in
              if negb (Ceiling.Declared ceiling) then mret None else
              spent ← ask (GSpend ledger runID);
              match spent : result SpendError RunSpend with
              | Err _ => mret None
              | Ok spend => mret (refusal_of runID agentRef ceiling spend <$> exceeded ceiling spend)
              end
          end
      end
  | _, _ => mret None
  end.

(** ** Recording costs *)

(** [ledger.Record]: its error is logged and dropped. *)
Definition record_entry (ledger : string) (e : CostEntry) : GM () := r ← ask (GRecord ledger e); mret tt.

(** The loop of [recordDiscardedAttempts]: an attempt that reported no usage
    leaves no row. *)
Fixpoint record_attempts (h : ModelGatewayHandlers) (ledger runID agentRef : string)
    (attempts : list AttemptRecord) : GM () :=
  match attempts with
  | [] => mret tt
  | a :: rest =>
      match usageTokens (DiscardedOutput a) with
      | (None, None) => record_attempts h ledger runID agentRef rest
      | _ => _ ← record_entry ledger (discarded_entry (mh_Pricing h) runID agentRef (at_Provider a)
                                       (at_Model a) (at_Err a) (DiscardedOutput a));
             record_attempts h ledger runID agentRef rest
      end
  end.

Definition recordDiscardedAttempts {B} (h : ModelGatewayHandlers) (rq : request B)
    (attempts : list AttemptRecord) (runID agentRef : string) : GM () :=
  let discarded := DiscardedAttempts attempts in
  match discarded, ledgerFor h rq with
  | [], _ | _, None => mret tt
  | _, Some ledger => record_attempts h ledger runID agentRef discarded
  end.

Definition recordDiscardedAttemptsFromError {B} (h : ModelGatewayHandlers) (rq : request B)
    (err : GatewayError) (runID agentRef : string) : GM () :=
  match err with
  | AllCandidatesFailed attempts => recordDiscardedAttempts h rq attempts runID agentRef
  | ErrNoRestrictedCandidate => mret tt
  end.

(** The facts a served answer adds to the response. *)
Definition served_facts (result : DecisionResult) (response : gmap string any) : gmap string any :=
  let servedModel := stringField (Output result) "model" in
  let servedByInstance := stringField (Output result) "served_by_instance" in
  let response := if negb (sempty servedModel) && negb (String.eqb servedModel (ModelUsed result))
                  then <["served_model_differs" := ABool true]>
                         (<["served_model" := AString servedModel]> response)
                  else response in
  put_string "served_by_instance" servedByInstance response.

Definition recordCost {B} (h : ModelGatewayHandlers) (rq : request B) (result : DecisionResult)
    (runID agentRef : string) (response : gmap string any) : GM (gmap string any) :=
  let provider := ProviderUsed result in
  let model := ModelUsed result in
  let output := Output result in
  let response := served_facts result response in
  let replayOf := stringField output "idempotent_replay_of" in
  if negb (sempty replayOf) then
    _ ← (match ledgerFor h rq with
         | Some ledger => record_entry ledger
                            (replay_entry (mh_Pricing h) runID agentRef provider model replayOf output)
         | None => mret tt
         end);
    mret (<["cost_usd" := AFloat f_zero]> (<["idempotent_replay_of" := AString replayOf]> response))
  else
    let '(p, c) := usageTokens output in
    let '(costModel, costUSD) := price (mh_Pricing h) provider model p c in
    let response := put_some "cost_usd" (AFloat <$> costUSD)
                      (put_some "cost_model" (AString <$> costModel) response) in
    match ledgerFor h rq with
    | None => mret response
    | Some ledger =>
        _ ← record_entry ledger (served_entry (mh_Pricing h) runID agentRef provider model output);
        _ ← recordDiscardedAttempts h rq (Attempts result) runID agentRef;
        mret response
    end.

(** ** POST /decide *)

Inductive DecideResponse :=
| DecideBadBody
| DecideNoCandidates
| DecideOverBudget (r : Refusal)
| DecideThrottled (t : throttle)
| DecideFailed (e : GatewayError)
| DecideServed (result : DecisionResult) (dropped : option nat) (facts : gmap string any).

Definition decide_status (r : DecideResponse) : Z :=
  match r with
  | DecideBadBody | DecideNoCandidates => 400
  | DecideOverBudget _ => 402
  | DecideThrottled _ => 429
  | DecideFailed _ => 502
  | DecideServed _ _ _ => 200
  end.

Definition candidate_of (c : decideCandidate) : Candidate :=
  {| ModelGateway.Provider := dc_Provider c; ModelGateway.Model := dc_Model c;
     Priority := dc_Priority c; InNetwork := false |}.

(** What follows a check that did not refuse. *)
Definition admitted (h : ModelGatewayHandlers) (rq : request decideRequest) (b : decideRequest)
  : GM DecideResponse :=
  res ← of_gateway (Decide (mh_Gateway h) (candidate_of <$> dr_Candidates b) (dr_RenderedContext b)
                      (dr_DataSensitivity b));
  match res with
  | Err err =>
      _ ← recordDiscardedAttemptsFromError h rq err (dr_RunID b) (dr_AgentManifestRef b);
      mret (match throttleRefusal err with
            | Some t => DecideThrottled t
            | None => DecideFailed err
            end)
  | Ok result =>
      facts ← recordCost h rq result (dr_RunID b) (dr_AgentManifestRef b) ∅;
      mret (DecideServed result
              (if (0 <? UnsendableTurnsDropped result)%nat then Some (UnsendableTurnsDropped result)
               else None) facts)
  end.

Definition decide (h : ModelGatewayHandlers) (rq : request decideRequest) : GM DecideResponse :=
  match body rq with
  | None => mret DecideBadBody
  | Some b =>
      match dr_Candidates b with
      | [] => mret DecideNoCandidates
      | _ =>
          refusal ← overBudget h rq (dr_RunID b) (dr_AgentManifestRef b);
          match refusal with
          | Some r => mret (DecideOverBudget r)
          | None => admitted h rq b
          end
      end
  end.
(** ** What a request was answered and what it recorded *)

Abbreviation event := {c : gcall & greply c}.

(** An answer a provider gave: who gave it, the model it was asked for, and the
    output. *)
Definition answer_of (e : event) : option (string * string * gomap) :=
  let '(existT c r) := e in
  match c return greply c → option (string * string * gomap) with
  | GModel (QDecide p input) => λ r : result perr gomap,
      match r with Ok out => Some (p, as_string (mget input "model"), out) | Err _ => None end
  | _ => λ _, None
  end r.
Definition entry_of (e : event) : option (string * CostEntry) :=
  match projT1 e with GRecord tenant e => Some (tenant, e) | _ => None end.
Definition answers (t : list event) := omap answer_of t.
Definition recorded (t : list event) := omap entry_of t.

(** A provider that reported at least one of the two counters. *)
Definition reports (output : gomap) : bool :=
  match usageTokens output with (None, None) => false | _ => true end.

Definition quiet (t : list event) : Prop := answers t = [] ∧ recorded t = [].

Lemma quiet_nil : quiet [].
Proof. done. Qed.
Lemma quiet_app t t' : quiet t → quiet t' → quiet (t ++ t')%list.
Proof. unfold quiet, answers, recorded. intros [Ha Hr] [Ha' Hr']. by rewrite !omap_app, Ha, Hr, Ha', Hr'. Qed.

Lemma of_registry_quiet {A} (m : prog areply A) t a : histories (of_registry m) t a → quiet t.
Proof.
  revert t. induction m as [a0|c k IH]; intros t; simpl; [by intros [-> _]|].
  intros (r & t' & -> & Ht). destruct (IH _ _ Ht) as [Ha Hr]. by split.
Qed.

Lemma of_gateway_histories {A} (m : MG A) t a :
  histories (of_gateway m) t a →
  ∃ t0, t = (λ e : {q : mcall & mreply q}, existT (GModel (projT1 e)) (projT2 e) : event) <$> t0 ∧ histories m t0 a.
Proof.
  revert t. induction m as [a0|q k IH]; intros t; simpl; [by intros [-> ->]; exists []|].
  intros (r & t' & -> & (t0 & -> & Ht)%IH). exists (existT q r :: t0). split; [done|]. by exists r, t0.
Qed.

Lemma of_gateway_recorded {A} (m : MG A) t a : histories (of_gateway m) t a → recorded t = [].
Proof.
  intros (t0 & -> & _)%of_gateway_histories. unfold recorded.
  induction t0 as [|e t0 IH]; [done|]. csimpl. apply IH.
Qed.

Lemma overBudget_quiet {B} h (rq : request B) runID agentRef t a :
  histories (overBudget h rq runID agentRef) t a → quiet t.
Proof.
  unfold overBudget. destruct (agentsFor h rq), (ledgerFor h rq); try (by intros [-> _]; apply quiet_nil).
  destruct (sempty runID || sempty agentRef); [by intros [-> _]; apply quiet_nil|].
  destruct (splitManifestRef agentRef) as [[name version]|]; [|by intros [-> _]; apply quiet_nil].
  rewrite histories_bind. intros (got & t1 & t2 & -> & Hq%of_registry_quiet & Hk).
  apply quiet_app; [done|]. destruct got as [record|]; [|by destruct Hk as [-> _]].
  destruct (Ceiling.CeilingFromManifest _) as [ceiling problems].
  destruct (negb _); [by destruct Hk as [-> _]|].
  destruct Hk as (spent & t3 & -> & Hs). destruct spent; by destruct Hs as [-> _].
Qed.

(** What the cascade leaves: every answer with usage belongs to an attempt that
    kept it, with the reason it could not be used, or is the one that served. *)
Definition answered (a : AttemptRecord) : string * string * gomap :=
  (at_Provider a, at_Model a, DiscardedOutput a).
Definition paid (l : list (string * string * gomap)) := List.filter (λ x, reports x.2) l.
#[local] Arguments paid : simpl never.
#[local] Arguments reports : simpl never.
Definition reasoned (a : AttemptRecord) : Prop :=
  reports (DiscardedOutput a) = true →
  at_Err a = emptyAnswer (DiscardedOutput a) ∧ emptyAnswer (DiscardedOutput a) ≠ "".

Definition accounted (attempts : list AttemptRecord) (l : list (string * string * gomap))
    (res : result GatewayError DecisionResult) : Prop :=
  match res with
  | Ok d => ∃ A c before, Attempts d = (attempts ++ A ++ [attempt c "" None None])%list ∧
      l = (before ++ [(ProviderUsed d, ModelUsed d, Output d)])%list ∧
      paid before = paid (answered <$> A) ∧ Forall reasoned A
  | Err (AllCandidatesFailed L) => ∃ A, L = (attempts ++ A)%list ∧
      paid l = paid (answered <$> A) ∧ Forall reasoned A
  | Err ErrNoRestrictedCandidate => l = []
  end.

Definition lifted (t : list {q : mcall & mreply q}) : list event :=
  (λ e : {q : mcall & mreply q}, existT (GModel (projT1 e)) (projT2 e) : event) <$> t.
Definition asked_answers (t : list {q : mcall & mreply q}) := answers (lifted t).

Lemma paid_app l k : paid (l ++ k) = (paid l ++ paid k)%list.
Proof. apply List.filter_app. Qed.

(** One more failed attempt in front. *)
Lemma accounted_skip attempts a x l res :
  res ≠ Err ErrNoRestrictedCandidate → reasoned a → paid x = paid [answered a] →
  accounted (attempts ++ [a]) l res → accounted attempts (x ++ l) res.
Proof.
  intros Hne Ha Hx. unfold accounted. destruct res as [d|[|L]]; [|done|].
  - intros (A & c & before & Hat & -> & Hp & HA). exists (a :: A), c, (x ++ before)%list.
    rewrite Hat, <-!app_assoc. split; [done|]. split; [done|]. split; [|by constructor].
    rewrite paid_app, Hx, Hp, <-paid_app. done.
  - intros (A & -> & Hp & HA). exists (a :: A). rewrite <-app_assoc. split; [done|].
    split; [|by constructor]. rewrite paid_app, Hx, Hp, <-paid_app. done.
Qed.

Lemma decide_loop_no_restricted g ctx attempts sorted t :
  ¬ histories (decide_loop g ctx attempts sorted) t (Err ErrNoRestrictedCandidate).
Proof.
  revert attempts t. induction sorted as [|c rest IH]; intros attempts t; simpl; [by intros [_ ?]|].
  rewrite histories_bind. intros (degraded & t1 & t2 & _ & _ & Ht).
  destruct degraded; [by apply IH in Ht|]. destruct (providers g !! _); [|by apply IH in Ht].
  destruct (input_for ctx c) as [input dropped]. destruct Ht as (r & t' & _ & Ht).
  destruct r as [out|e]; [|by apply IH in Ht]. destruct (negb _); [by apply IH in Ht|].
  by destruct Ht as [_ ?].
Qed.

Lemma ask_degraded_answers g c t b :
  histories (ask_degraded g c) t b → asked_answers t = [].
Proof.
  unfold ask_degraded. destruct (Quality g); [|by intros [-> _]]. by intros (r & t' & -> & -> & _).
Qed.

Lemma decide_loop_accounted g ctx attempts sorted t res :
  histories (decide_loop g ctx attempts sorted) t res → accounted attempts (asked_answers t) res.
Proof.
  revert attempts t. induction sorted as [|c rest IH]; intros attempts t Ht.
  { destruct Ht as [-> ->]. exists []. by rewrite app_nil_r. }
  assert (Hres : res ≠ Err ErrNoRestrictedCandidate) by (intros ->; by eapply decide_loop_no_restricted).
  simpl in Ht. rewrite histories_bind in Ht. destruct Ht as (degraded & t1 & t2 & -> & Hd & Ht).
  apply ask_degraded_answers in Hd. unfold asked_answers, answers, lifted in *.
  rewrite fmap_app, omap_app, Hd. simpl.
  assert (Hskip : ∀ e cause l, accounted (attempts ++ [attempt c e cause None]) l res →
    accounted attempts l res)
    by (intros e cause l Hacc; by apply (accounted_skip attempts (attempt c e cause None) [] _ res)).
  destruct degraded; [by eapply Hskip, IH|]. destruct (providers g !! _); [|by eapply Hskip, IH].
  destruct (input_for ctx c) as [input dropped] eqn:Hin. apply input_names_model in Hin.
  destruct Ht as (r & t' & -> & Ht). destruct r as [out|e].
  - destruct (negb _) eqn:Hu.
    + apply IH in Ht. revert Ht. apply (accounted_skip _ _ [_]); [done| |].
      * intros _. split; [done|]. simpl. by apply negb_true_iff, sempty_false in Hu.
      * simpl. by rewrite Hin.
    + destruct Ht as [-> ->]. exists [], c, []. simpl. by rewrite Hin.
  - csimpl. by eapply Hskip, IH.
Qed.

Lemma Decide_accounted g candidates ctx sensitivity t res :
  histories (Decide g candidates ctx sensitivity) t res → accounted [] (asked_answers t) res.
Proof.
  unfold Decide. destruct (restrictPool candidates sensitivity) as [pool|e] eqn:Hr.
  - apply decide_loop_accounted.
  - intros [-> ->]. unfold restrictPool in Hr. repeat case_match; by simplify_eq.
Qed.

(** *** The rows recorded *)

(** The rows owed for answers thrown away. *)
Definition discarded_rows (h : ModelGatewayHandlers) (ledger runID agentRef : string)
    (l : list (string * string * gomap)) : list (string * CostEntry) :=
  (λ x, (ledger, discarded_entry (mh_Pricing h) runID agentRef x.1.1 x.1.2 (emptyAnswer x.2) x.2)) <$> paid l.

Lemma record_attempts_cons h ledger runID agentRef a A :
  record_attempts h ledger runID agentRef (a :: A) =
  if reports (DiscardedOutput a)
  then _ ← record_entry ledger (discarded_entry (mh_Pricing h) runID agentRef (at_Provider a)
                                  (at_Model a) (at_Err a) (DiscardedOutput a));
       record_attempts h ledger runID agentRef A
  else record_attempts h ledger runID agentRef A.
Proof. unfold reports. cbn [record_attempts]. by destruct (usageTokens _) as [[p|] [c|]]. Qed.

Lemma record_attempts_recorded h ledger runID agentRef A t u :
  histories (record_attempts h ledger runID agentRef A) t u → Forall reasoned A →
  answers t = [] ∧ recorded t = discarded_rows h ledger runID agentRef (answered <$> A).
Proof.
  revert t. induction A as [|a A IH]; intros t Ht HA; [by destruct Ht as [-> _]|].
  apply Forall_cons in HA as [Ha HA]. rewrite record_attempts_cons in Ht.
  unfold discarded_rows, paid. csimpl. unfold reasoned in Ha.
  destruct (reports (DiscardedOutput a)); [|by apply IH].
  destruct Ht as (r & t' & -> & Ht). destruct (IH _ Ht HA) as [Ha' Hr]. destruct (Ha eq_refl) as [He _].
  split; [exact Ha'|]. unfold recorded in *. csimpl. rewrite Hr, He. reflexivity.
Qed.

Lemma paid_cons x l : paid (x :: l) = if reports x.2 then x :: paid l else paid l.
Proof. done. Qed.

(** Attempts that kept no output owe nothing: the filter drops nothing that is paid. *)
Lemma paid_discarded A : paid (answered <$> DiscardedAttempts A) = paid (answered <$> A).
Proof.
  unfold DiscardedAttempts. induction A as [|a A IH]; [done|]. csimpl.
  destruct (DiscardedOutput a) as [m|] eqn:Ho.
  - rewrite bool_decide_eq_true_2 by done. csimpl. rewrite !paid_cons. by destruct (reports _); rewrite IH.
  - rewrite bool_decide_eq_false_2 by apply is_Some_None. rewrite paid_cons, IH.
    unfold answered. by rewrite Ho.
Qed.

Lemma Forall_discarded A : Forall reasoned A → Forall reasoned (DiscardedAttempts A).
Proof.
  rewrite !Forall_forall. unfold DiscardedAttempts. intros HA a Ha. apply HA.
  by apply list_elem_of_In, filter_In in Ha as [?%list_elem_of_In _].
Qed.

Lemma recordDiscardedAttempts_recorded {B} h (rq : request B) ledger runID agentRef A t u :
  ledgerFor h rq = Some ledger → Forall reasoned A →
  histories (recordDiscardedAttempts h rq A runID agentRef) t u →
  answers t = [] ∧ recorded t = discarded_rows h ledger runID agentRef (answered <$> A).
Proof.
  intros Hl HA Ht. unfold discarded_rows. rewrite <-paid_discarded.
  unfold recordDiscardedAttempts in Ht. rewrite Hl in Ht. apply Forall_discarded in HA.
  destruct (DiscardedAttempts A) as [|a A'] eqn:HD; [by destruct Ht as [-> _]|].
  by eapply record_attempts_recorded.
Qed.

Lemma reasoned_served A c : Forall reasoned A → Forall reasoned (A ++ [attempt c "" None None]).
Proof. intros HA. apply Forall_app. split; [done|]. constructor; [|constructor]. by intros ?. Qed.

Lemma paid_served A c :
  paid (answered <$> (A ++ [attempt c "" None None])%list) = paid (answered <$> A).
Proof. rewrite fmap_app, paid_app. apply app_nil_r. Qed.

Definition replays (d : DecisionResult) : bool := negb (sempty (stringField (Output d) "idempotent_replay_of")).

(** What [recordCost] records for a decision that followed some answers. *)
Definition cost_rows (h : ModelGatewayHandlers) (ledger runID agentRef : string) (d : DecisionResult)
    (before : list (string * string * gomap)) : list (string * CostEntry) :=
  if replays d
  then [(ledger, replay_entry (mh_Pricing h) runID agentRef (ProviderUsed d) (ModelUsed d)
                   (stringField (Output d) "idempotent_replay_of") (Output d))]
  else (ledger, served_entry (mh_Pricing h) runID agentRef (ProviderUsed d) (ModelUsed d) (Output d))
       :: discarded_rows h ledger runID agentRef before.

Lemma recordCost_recorded {B} h (rq : request B) ledger runID agentRef d A c before response t facts :
  ledgerFor h rq = Some ledger → Attempts d = (A ++ [attempt c "" None None])%list →
  Forall reasoned A → paid before = paid (answered <$> A) →
  histories (recordCost h rq d runID agentRef response) t facts →
  answers t = [] ∧ recorded t = cost_rows h ledger runID agentRef d before.
Proof.
  intros Hl Hd HA Hp Ht. unfold recordCost in Ht. unfold cost_rows, replays. cbv zeta in Ht.
  destruct (negb (sempty (stringField (Output d) "idempotent_replay_of"))).
  { rewrite Hl in Ht. destruct Ht as (r & t' & -> & -> & _). done. }
  destruct (usageTokens (Output d)) as [p c']. destruct (price _ _ _ _ _) as [costModel costUSD].
  rewrite Hl, histories_bind in Ht. destruct Ht as (u0 & t0 & t' & -> & (r & t1 & -> & -> & _) & Ht).
  rewrite histories_bind in Ht. destruct Ht as (u & t2 & t3 & -> & Hk & Hret).
  destruct Hret as [-> _]. rewrite app_nil_r.
  rewrite Hd in Hk. apply (recordDiscardedAttempts_recorded _ _ ledger) in Hk as [Ha Hr];
    [|done|by apply reasoned_served].
  split; [exact Ha|]. unfold recorded in *. csimpl. rewrite Hr. unfold discarded_rows.
  by rewrite paid_served, Hp.
Qed.

(** What an answered request promises of its answers and rows. *)
Definition accounts (h : ModelGatewayHandlers) (ledger : string) (b : decideRequest) (t : list event)
    (resp : DecideResponse) : Prop :=
  match resp with
  | DecideServed d _ _ => ∃ before,
      answers t = (before ++ [(ProviderUsed d, ModelUsed d, Output d)])%list ∧
      Forall (λ x, emptyAnswer x.2 ≠ "") (paid before) ∧
      recorded t = cost_rows h ledger (dr_RunID b) (dr_AgentManifestRef b) d before
  | DecideThrottled _ | DecideFailed _ =>
      Forall (λ x, emptyAnswer x.2 ≠ "") (paid (answers t)) ∧
      recorded t = discarded_rows h ledger (dr_RunID b) (dr_AgentManifestRef b) (answers t)
  | _ => answers t = [] ∧ recorded t = []
  end.

Lemma paid_reasoned A : Forall reasoned A → Forall (λ x, emptyAnswer x.2 ≠ "") (paid (answered <$> A)).
Proof.
  induction 1 as [|a A Ha _ IH]; [constructor|]. csimpl. rewrite paid_cons.
  destruct (reports _) eqn:Hr; [|done]. constructor; [|done]. by apply Ha.
Qed.

Lemma admitted_recorded h rq b ledger t resp :
  ledgerFor h rq = Some ledger → histories (admitted h rq b) t resp → accounts h ledger b t resp.
Proof.
  intros Hl Ht. unfold admitted in Ht. rewrite histories_bind in Ht.
  destruct Ht as (res & t1 & t2 & -> & Hg & Ht). pose proof (of_gateway_recorded _ _ _ Hg) as Hgr.
  apply of_gateway_histories in Hg as (t0 & -> & Hg%Decide_accounted).
  assert (Happ : ∀ t', answers t' = [] →
    answers (lifted t0 ++ t') = asked_answers t0 ∧ recorded (lifted t0 ++ t') = recorded t').
  { intros t' Ht'. unfold asked_answers, answers, recorded in *. rewrite !omap_app, Ht', app_nil_r.
    split; [done|]. unfold lifted. by rewrite Hgr. }
  fold (lifted t0) in *. destruct res as [d|err].
  - destruct Hg as (A & c & before & Hat & Hans & Hp & HA). rewrite histories_bind in Ht.
    destruct Ht as (facts & t3 & t4 & -> & Hk & -> & ->). rewrite app_nil_r.
    apply (recordCost_recorded _ _ ledger _ _ _ A c before) in Hk as [Ha Hr]; [|done..].
    destruct (Happ t3 Ha) as [He Hre]. exists before. rewrite He, Hre. split; [done|]. split; [|done].
    rewrite Hp. by apply paid_reasoned.
  - rewrite histories_bind in Ht. destruct Ht as (u & t3 & t4 & -> & Hk & -> & ->). rewrite app_nil_r.
    assert (Hrec : answers t3 = [] ∧ Forall (λ x, emptyAnswer x.2 ≠ "") (paid (asked_answers t0)) ∧
      recorded t3 = discarded_rows h ledger (dr_RunID b) (dr_AgentManifestRef b) (asked_answers t0)).
    { destruct err as [|L]; simpl in Hg, Hk; [by rewrite Hg; destruct Hk as [-> _]|].
      destruct Hg as (A & -> & Hp & HA).
      apply (recordDiscardedAttempts_recorded _ _ ledger) in Hk as [Ha Hr]; [|done..].
      unfold discarded_rows in *. rewrite Hp. split; [done|]. split; [by apply paid_reasoned|done]. }
    destruct Hrec as (Ha & Hf & Hr). destruct (Happ t3 Ha) as [He Hre].
    destruct (throttleRefusal err); unfold accounts; by rewrite He, Hre.
Qed.

(** C6. Every answer that was paid for has its ledger row: whatever the providers,
    the registry and the ledger reply, a served request records the answer that
    served and then one row, marked with the reason, for each earlier answer that
    reported usage; a request nothing could serve records those rows too; a
    request refused before routing asks nobody and records nothing. The one
    exception is an answer served as an idempotent replay: only its row of
    measured zeroes is recorded, and the answers thrown away before it are
    not. *)
Theorem every_paid_answer_is_recorded h rq b ledger t resp :
  body rq = Some b → ledgerFor h rq = Some ledger → histories (decide h rq) t resp →
  accounts h ledger b t resp.
Proof.
  intros Hb Hl Ht. unfold decide in Ht. rewrite Hb in Ht.
  destruct (dr_Candidates b) as [|dc dcs] eqn:Hc; [by destruct Ht as [-> ->]|].
  rewrite histories_bind in Ht. destruct Ht as (refusal & tq & ta & -> & Hq%overBudget_quiet & Ht).
  assert (Happ : answers (tq ++ ta) = answers ta ∧ recorded (tq ++ ta) = recorded ta).
  { unfold answers, recorded. rewrite !omap_app. destruct Hq as [Ha Hr]. unfold answers, recorded in *.
    by rewrite Ha, Hr. }
  destruct Happ as [Ha Hr].
  enough (accounts h ledger b ta resp) by (unfold accounts; rewrite Ha, Hr; done).
  destruct refusal as [r|]; [by destruct Ht as [-> ->]|by apply (admitted_recorded _ rq)].
Qed.

(** ** The ceiling *)

(** The registry's table, the ledger's, and the calls the providers got. *)
Record gworld := {
  gw_agents : gmap akey agent_row;
  gw_costs : list cost_row;
  gw_asked : list mcall;
}.
Definition with_agents (w : gworld) (t : gmap akey agent_row) : gworld :=
  {| gw_agents := t; gw_costs := gw_costs w; gw_asked := gw_asked w |}.
Definition with_costs (w : gworld) (l : list cost_row) : gworld :=
  {| gw_agents := gw_agents w; gw_costs := l; gw_asked := gw_asked w |}.
Definition with_asked (w : gworld) (q : mcall) : gworld :=
  {| gw_agents := gw_agents w; gw_costs := gw_costs w; gw_asked := (gw_asked w ++ [q])%list |}.

(** What a call may reply and do: a provider replies anything, a statement may
    fail before or after it took effect, and the query of a run's spend reads the
    run's rows in any order, or fails. *)
Definition gsem (w : gworld) (c : gcall) : greply c → gworld → Prop :=
  match c with
  | GModel q => λ _ w', w' = with_asked w q
  | GAgent c => λ r w', ∃ t, asem (gw_agents w) c r t ∧ w' = with_agents w t
  | GRecord tenant e => λ r w',
      (∃ l, Record_ tenant e (gw_costs w) = Some l ∧ w' = with_costs w l) ∨ (w' = w ∧ ∃ msg, r = Err msg)
  | GSpend tenant run => λ r w', w' = w ∧
      ((∃ msg, r = Err (SpendFailed msg)) ∨
       ∃ rows, rows ≡ₚ run_rows (gw_costs w) tenant run ∧ r = SpendForRun rows)
  end.

(** The same served without faults at a clock reading, the providers being some
    function of what they were asked so far. *)
Section served.
Context (now : Z) (provider : list mcall → ∀ q, mreply q).

Definition gserve (w : gworld) (c : gcall) : gworld * greply c :=
  match c with
  | GModel q => (with_asked w q, provider (gw_asked w) q)
  | GAgent c => let '(t, r) := aserve now (gw_agents w) c in (with_agents w t, r)
  | GRecord tenant e =>
      match Record_ tenant e (gw_costs w) with
      | Some l => (with_costs w l, Ok tt)
      | None => (w, Err "refused")
      end
  | GSpend tenant run => (w, SpendForRun (run_rows (gw_costs w) tenant run))
  end.

Lemma gserve_sem w c : gsem w c (gserve w c).2 (gserve w c).1.
Proof.
  destruct c as [q|c|tenant e|tenant run]; simpl.
  - done.
  - pose proof (aserve_sem now (gw_agents w) c) as Hs. destruct (aserve now (gw_agents w) c) as [t r].
    simpl in *. eauto.
  - destruct (Record_ tenant e (gw_costs w)) as [l|] eqn:Hr; simpl; [left|right]; eauto.
  - split; [done|]. right. by exists (run_rows (gw_costs w) tenant run).
Qed.

Definition serve {A} (w : gworld) (m : GM A) : gworld * A := run gserve w m.

(** A request that names a run and a version whose manifest is readable. *)
Definition governed (h : ModelGatewayHandlers) (rq : request decideRequest) (w : gworld)
    (tenant runID : string) (k : akey) (ceiling : Ceiling.Ceiling) : Prop :=
  ∃ b r m, body rq = Some b ∧ dr_Candidates b ≠ [] ∧ dr_RunID b = runID ∧ runID ≠ "" ∧
    dr_AgentManifestRef b ≠ "" ∧ mh_Ledger h = true ∧ mh_Agents h = true ∧
    tenantOf rq = (tenant, true) ∧ splitManifestRef (dr_AgentManifestRef b) = Some (k.1.2, k.2) ∧
    k.1.1 = tenant ∧ key_ok k = true ∧ gw_agents w !! k = Some r ∧
    unmarshal_map (jsonb_out (ag_manifest r)) = Some m ∧
    (Ceiling.CeilingFromManifest (items m)).1 = ceiling.

Lemma with_agents_same w : with_agents w (gw_agents w) = w.
Proof. by destruct w. Qed.

Lemma run_of_registry {A} w (m : prog areply A) :
  serve w (of_registry m) = let '(t, a) := run (aserve now) (gw_agents w) m in (with_agents w t, a).
Proof.
  revert w. induction m as [a|c k IH]; intros w; unfold serve; simpl; [by rewrite with_agents_same|].
  destruct (aserve now (gw_agents w) c) as [t r]. unfold serve in IH. rewrite IH. simpl.
  by destruct (run (aserve now) t (k r)).
Qed.

Lemma Get_served t k r m :
  key_ok k = true → t !! k = Some r → unmarshal_map (jsonb_out (ag_manifest r)) = Some m →
  ∃ rec, run (aserve now) t (Get k.1.1 k.1.2 k.2) = (t, Ok rec) ∧ Manifest rec = m.
Proof.
  intros Hk Hr Hm. destruct k as [[tenant name] version]. unfold Get. rewrite run_bind. simpl.
  unfold sql_select. fold (key_ok (tenant, name, version)). rewrite Hk, Hr. simpl. rewrite Hm. eauto.
Qed.

(** The check, served: it reads, and refuses by the ceiling the manifest declares. *)
Lemma overBudget_served h rq w tenant runID k ceiling b :
  governed h rq w tenant runID k ceiling → body rq = Some b →
  serve w (overBudget h rq (dr_RunID b) (dr_AgentManifestRef b)) =
    (w, match SpendForRun (run_rows (gw_costs w) tenant runID) with
        | Ok spend => if Ceiling.Declared ceiling
                      then refusal_of runID (dr_AgentManifestRef b) ceiling spend <$> exceeded ceiling spend
                      else None
        | Err _ => None
        end).
Proof.
  intros (b' & r & m & Hb & Hne & Hrun & Hr0 & Ha0 & Hl & Hag & Ht & Hsp & Hk1 & Hk & Hr & Hm & Hc) Hb'.
  rewrite Hb in Hb'. injection Hb' as ->. unfold overBudget, agentsFor, ledgerFor.
  rewrite Ht, Hl, Hag, Hrun. cbn [negb orb]. rewrite (proj2 (sempty_false runID)) by done.
  rewrite (proj2 (sempty_false (dr_AgentManifestRef b))) by done. cbn [orb]. rewrite Hsp.
  unfold serve. rewrite run_bind. pose proof (run_of_registry w (Get tenant k.1.2 k.2)) as Hreg.
  unfold serve in Hreg. rewrite Hreg.
  destruct (Get_served _ _ _ _ Hk Hr Hm) as (rec & Hget & Hrec). rewrite Hk1 in Hget. rewrite Hget.
  rewrite with_agents_same, Hrec, (surjective_pairing (Ceiling.CeilingFromManifest (items m))), Hc.
  destruct (Ceiling.Declared ceiling); simpl; [|by destruct (SpendForRun _)].
  by destruct (SpendForRun _).
Qed.
(** A ceiling that the spend has reached. *)
Definition reached (ceiling : Ceiling.Ceiling) (spend : RunSpend) : Prop :=
  (∃ usd, Ceiling.CostUSD ceiling = Some usd ∧ fgeb (rs_CostUSD spend) usd = true) ∨
  (∃ n, Ceiling.Tokens ceiling = Some n ∧ (n ≤ Tokens spend)%Z) ∨
  (∃ n, Ceiling.ModelCalls ceiling = Some n ∧ (n ≤ ModelCalls spend + DiscardedCalls spend)%Z).

Lemma exceeded_reached ceiling spend : is_Some (exceeded ceiling spend) ↔ reached ceiling spend.
Proof.
  unfold exceeded, reached. cbv zeta.
  destruct (Ceiling.CostUSD ceiling) as [usd|]; [destruct (fgeb _ usd) eqn:Hu|];
    destruct (Ceiling.Tokens ceiling) as [tk|]; try destruct (Z.leb_spec tk (Tokens spend));
    destruct (Ceiling.ModelCalls ceiling) as [mc|];
    try destruct (Z.leb_spec mc (ModelCalls spend + DiscardedCalls spend));
    (split; [intros [e He]; try done; naive_solver
            |intros [(u & [= <-] & ?)|[(n & [= <-] & ?)|(n & [= <-] & ?)]]; try congruence; try lia; by eexists]).
Qed.

Lemma undeclared_unreached ceiling spend : Ceiling.Declared ceiling = false → exceeded ceiling spend = None.
Proof. destruct ceiling as [[] [] []]; done. Qed.

Lemma ceiling_gate h rq w tenant runID k ceiling b spend :
  governed h rq w tenant runID k ceiling → body rq = Some b →
  SpendForRun (run_rows (gw_costs w) tenant runID) = Ok spend →
  (reached ceiling spend → ∃ e, exceeded ceiling spend = Some e ∧
     serve w (decide h rq) =
       (w, DecideOverBudget (refusal_of runID (dr_AgentManifestRef b) ceiling spend e))) ∧
  (¬ reached ceiling spend → serve w (decide h rq) = serve w (admitted h rq b)).
Proof.
  intros Hg Hb Hs. pose proof (overBudget_served _ _ _ _ _ _ _ _ Hg Hb) as Ho. rewrite Hs in Ho.
  destruct Hg as (b' & _ & _ & Hb' & Hne & _). rewrite Hb in Hb'. injection Hb' as <-.
  assert (Hd : serve w (decide h rq) = match exceeded ceiling spend with
    | Some e => (w, DecideOverBudget (refusal_of runID (dr_AgentManifestRef b) ceiling spend e))
    | None => serve w (admitted h rq b) end).
  { unfold decide. rewrite Hb. destruct (dr_Candidates b) as [|dc dcs]; [done|].
    unfold serve in *. rewrite run_bind, Ho. destruct (Ceiling.Declared ceiling) eqn:Hdec.
    - by destruct (exceeded ceiling spend).
    - by rewrite undeclared_unreached. }
  rewrite Hd, <-exceeded_reached. split.
  - intros [e He]. exists e. by rewrite He.
  - intros Hn. destruct (exceeded ceiling spend); [|done]. by destruct Hn.
Qed.

(** The ceiling is checked before anything is bought: a governed request whose
    run has reached a ceiling its manifest declares (cost, tokens, or calls with
    discarded attempts counted) is refused, no provider is asked and nothing
    changes; any other goes on exactly as if there were no ceiling. *)
Theorem ceiling_gates_requests h rq w tenant runID k ceiling b spend :
  governed h rq w tenant runID k ceiling → body rq = Some b →
  SpendForRun (run_rows (gw_costs w) tenant runID) = Ok spend →
  (reached ceiling spend → ∃ e, exceeded ceiling spend = Some e ∧
     serve w (decide h rq) =
       (w, DecideOverBudget (refusal_of runID (dr_AgentManifestRef b) ceiling spend e))) ∧
  (¬ reached ceiling spend → serve w (decide h rq) = serve w (admitted h rq b)).
Proof. by apply ceiling_gate. Qed.

(** *** One request after another *)

Lemma of_registry_emits {A} (m : prog areply A) c : emits (of_registry m) c → ∃ q, c = GAgent q ∧ emits m q.
Proof.
  induction m as [a|q k IH]; simpl; [done|]. intros [->|[r (q' & -> & He)%IH]]; eauto 10.
Qed.

Lemma of_gateway_emits {A} (m : MG A) c : emits (of_gateway m) c → ∃ q, c = GModel q.
Proof. induction m as [a|q k IH]; simpl; [done|]. intros [->|[r He]]; eauto. Qed.

Lemma overBudget_emits {B} h (rq : request B) runID agentRef c :
  emits (overBudget h rq runID agentRef) (GAgent c) → ∃ k, c = ASelect k.
Proof.
  unfold overBudget. destruct (agentsFor h rq), (ledgerFor h rq); try done.
  destruct (_ || _); [done|]. destruct (splitManifestRef agentRef) as [[name version]|]; [|done].
  rewrite emits_bind. intros [(q & [= <-] & [->|[r []]])%of_registry_emits|(got & _ & He)]; [eauto|].
  destruct got; [|done]. destruct (Ceiling.CeilingFromManifest _). destruct (negb _); [done|].
  destruct He as [?|[spent He]]; [done|]. by destruct spent.
Qed.

Lemma record_attempts_emits h ledger runID agentRef A c :
  emits (record_attempts h ledger runID agentRef A) c → ∃ e, c = GRecord ledger e.
Proof.
  induction A as [|a A IH]; [done|]. rewrite record_attempts_cons. destruct (reports _); [|done].
  intros [->|[r He]]; eauto.
Qed.

Lemma recordDiscarded_emits {B} h (rq : request B) A runID agentRef c :
  emits (recordDiscardedAttempts h rq A runID agentRef) c → ∃ ledger e, c = GRecord ledger e.
Proof.
  unfold recordDiscardedAttempts. destruct (DiscardedAttempts A); [done|].
  destruct (ledgerFor h rq); [|done]. intros [e ->]%record_attempts_emits. eauto.
Qed.

Lemma recordCost_emits {B} h (rq : request B) d runID agentRef response c :
  emits (recordCost h rq d runID agentRef response) c → ∃ ledger e, c = GRecord ledger e.
Proof.
  unfold recordCost. cbv zeta. destruct (negb _).
  - rewrite emits_bind. intros [He|(u & _ & [])]. destruct (ledgerFor h rq); [|done].
    destruct He as [->|[r []]]. eauto.
  - destruct (usageTokens _), (price _ _ _ _ _). destruct (ledgerFor h rq) as [ledger|]; [|done].
    intros [->|[r He]]; [eauto|]. change (emits (recordDiscardedAttempts h rq (Attempts d) runID agentRef ≫=
      (λ _, mret (put_some "cost_usd" (AFloat <$> o2) (put_some "cost_model" (AString <$> o1)
        (served_facts d response))))) c) in He.
    rewrite emits_bind in He. destruct He as [He|(u & _ & [])]. by eapply recordDiscarded_emits.
Qed.

Lemma admitted_emits h rq b c : emits (admitted h rq b) (GAgent c) → False.
Proof.
  unfold admitted. rewrite emits_bind. intros [[q ?]%of_gateway_emits|(res & _ & He)]; [done|].
  destruct res as [d|err]; rewrite emits_bind in He; destruct He as [He|(u & _ & [])].
  - by apply recordCost_emits in He as (ledger & e & ?).
  - destruct err; [done|]. by apply recordDiscarded_emits in He as (ledger & e & ?).
Qed.

Lemma decide_emits h rq c : emits (decide h rq) (GAgent c) → ∃ k, c = ASelect k.
Proof.
  unfold decide. destruct (body rq) as [b|]; [|done]. destruct (dr_Candidates b) as [|dc dcs]; [done|].
  rewrite emits_bind. intros [He|(refusal & _ & He)]; [by eapply overBudget_emits|].
  destruct refusal; [done|]. by apply admitted_emits in He.
Qed.

Definition serve_all (h : ModelGatewayHandlers) (w : gworld) (rqs : list (request decideRequest)) : gworld :=
  foldl (λ w rq, (serve w (decide h rq)).1) w rqs.
Definition run_spend (w : gworld) (tenant runID : string) : result SpendError RunSpend :=
  SpendForRun (run_rows (gw_costs w) tenant runID).

Lemma serve_agents h rq w : gw_agents (serve w (decide h rq)).1 = gw_agents w.
Proof.
  unfold serve. apply (run_preserves (λ w', gw_agents w' = gw_agents w)); [|done].
  intros w0 c Hc Hw. destruct c as [q|c|tenant e|tenant run]; simpl; try done.
  - apply decide_emits in Hc as [k ->]. simpl. unfold sql_select. by destruct (_ && _).
  - by destruct (Record_ _ _ _).
Qed.

Lemma serve_all_agents h rqs w : gw_agents (serve_all h w rqs) = gw_agents w.
Proof.
  induction rqs as [|rq rqs IH] using rev_ind; [done|]. unfold serve_all in *.
  by rewrite foldl_app, <-IH, <-(serve_agents h rq (foldl _ w rqs)).
Qed.

(** C27. When a run's requests are served one after another, it overshoots its
    ceiling by one request: all the rows it ends with were there when its spend
    was still below every ceiling, but for those of the one request admitted
    then. *)
Theorem serial_overshoot_is_one_request h w tenant runID k ceiling rqs :
  Forall (λ rq, governed h rq w tenant runID k ceiling) rqs →
  (∀ pre, pre `prefix_of` rqs → is_ok (run_spend (serve_all h w pre) tenant runID) = true) →
  let rows w := run_rows (gw_costs w) tenant runID in
  rows (serve_all h w rqs) = rows w ∨
  ∃ pre rq post spend, rqs = (pre ++ rq :: post)%list ∧
    run_spend (serve_all h w pre) tenant runID = Ok spend ∧ ¬ reached ceiling spend ∧
    rows (serve_all h w rqs) = rows (serve_all h w (pre ++ [rq])).
Proof.
  intros Hg Hok rows. induction rqs as [|rq rqs IH] using rev_ind; [by left|].
  apply Forall_app in Hg as [Hg Hrq]. apply Forall_inv in Hrq.
  assert (Hstep : serve_all h w (rqs ++ [rq]) = (serve (serve_all h w rqs) (decide h rq)).1)
    by (unfold serve_all; by rewrite foldl_app).
  assert (Hspend : is_ok (run_spend (serve_all h w rqs) tenant runID) = true)
    by (apply Hok; by apply prefix_app_r).
  destruct (run_spend (serve_all h w rqs) tenant runID) as [spend|] eqn:Hs; [|done].
  assert (Hg' : governed h rq (serve_all h w rqs) tenant runID k ceiling).
  { unfold governed in *. by rewrite serve_all_agents. }
  destruct Hrq as (b & _ & _ & Hb & _).
  destruct (ceiling_gate _ _ _ _ _ _ _ _ _ Hg' Hb Hs) as [Hyes Hno].
  destruct (exceeded ceiling spend) as [e|] eqn:He.
  - destruct Hyes as (e' & _ & Hd); [by apply exceeded_reached; rewrite He|].
    assert (Hsame : serve_all h w (rqs ++ [rq]) = serve_all h w rqs) by (by rewrite Hstep, Hd).
    rewrite Hsame. destruct IH as [?|(pre & rq' & post & s & -> & ? & ? & ?)]; [done| |by left|].
    + intros pre Hpre. apply Hok. by apply prefix_app_r.
    + right. exists pre, rq', (post ++ [rq])%list, s. by rewrite <-app_assoc.
  - right. exists rqs, rq, [], spend. split; [done|]. split; [done|]. split; [|done].
    rewrite <-exceeded_reached, He. apply is_Some_None.
Qed.
End served.

(** *** Requests at once *)

Abbreviation gsteps h := (pool_step (λ _ : request decideRequest, gsem) (decide h)).

(** Requests that all read the spend before any of them records. *)
Lemma all_checked (now : Z) (provider : list mcall → ∀ q, mreply q) h rq w tenant runID k ceiling b spend n :
  governed h rq w tenant runID k ceiling → body rq = Some b →
  run_spend w tenant runID = Ok spend → ¬ reached ceiling spend →
  ∃ ps, rtc (gsteps h) (w, ∅) (w, ps) ∧
    (∀ i, (i < n)%nat → ps !! i = Some (rq, admitted h rq b)) ∧ (∀ i, (n ≤ i)%nat → ps !! i = None).
Proof.
  intros Hg Hb Hs Hr. induction n as [|n (ps & Hps & Hin & Hout)].
  { exists ∅. split; [apply rtc_refl|]. split; [lia|done]. }
  exists (<[n := (rq, admitted h rq b)]> ps). split; [|split].
  - etrans; [exact Hps|]. eapply rtc_l; [by apply (pool_spawn _ _ w ps n rq), Hout|].
    pose proof (overBudget_served now provider _ _ _ _ _ _ _ _ Hg Hb) as Ho.
    unfold run_spend in Hs. rewrite Hs in Ho.
    assert (Hnone : (if Ceiling.Declared ceiling then refusal_of runID (dr_AgentManifestRef b) ceiling spend
      <$> exceeded ceiling spend else None) = None).
    { destruct (Ceiling.Declared ceiling); [|done]. rewrite <-exceeded_reached in Hr.
      destruct (exceeded ceiling spend); [|done]. by destruct Hr. }
    rewrite Hnone in Ho.
    pose proof (run_alone gsem (gserve now provider) (overBudget h rq (dr_RunID b) (dr_AgentManifestRef b)) w
      (gserve_sem now provider)) as Ha. unfold serve in Ho. rewrite Ho in Ha.
    destruct Hg as (b' & _ & _ & Hb' & Hne & _). rewrite Hb in Hb'. injection Hb' as <-.
    unfold decide at 2. rewrite Hb. destruct (dr_Candidates b) as [|dc dcs]; [done|].
    apply (alone_steps_bind (λ _, gsem) (decide h) n rq _
      (λ refusal, match refusal with Some r => mret (DecideOverBudget r) | None => admitted h rq b end)
      w ps w None Ha).
  - intros i Hi. destruct (Nat.eq_dec i n) as [->|]; [apply lookup_insert_eq|].
    rewrite lookup_insert_ne by done. apply Hin. lia.
  - intros i Hi. rewrite lookup_insert_ne by lia. apply Hout. lia.
Qed.

(** Requests of a run served at once are not held to its ceiling: the check
    reads the ledger and the row is written when the provider has answered, so
    any number of requests that read the spend while it was below the ceiling
    are all admitted, and each records what it spent. *)
Theorem concurrent_requests_overshoot (now : Z) (provider : list mcall → ∀ q, mreply q) h rq w tenant runID k ceiling b spend n :
  governed h rq w tenant runID k ceiling → body rq = Some b →
  run_spend w tenant runID = Ok spend → ¬ reached ceiling spend →
  (∀ w', ∃ w'' resp row rows, serve now provider w' (admitted h rq b) = (w'', resp) ∧
     run_rows (gw_costs w'') tenant runID = (run_rows (gw_costs w') tenant runID ++ row :: rows)%list) →
  ∃ w' ps, rtc (gsteps h) (w, ∅) (w', ps) ∧
    (length (run_rows (gw_costs w) tenant runID) + n ≤ length (run_rows (gw_costs w') tenant runID))%nat.
Proof.
  intros Hg Hb Hs Hr Hrow.
  destruct (all_checked now provider _ _ _ _ _ _ _ _ _ n Hg Hb Hs Hr) as (ps & Hps & Hin & _).
  assert (Hgo : ∀ j, (j ≤ n)%nat → ∃ w' ps', rtc (gsteps h) (w, ps) (w', ps') ∧
    (length (run_rows (gw_costs w) tenant runID) + j ≤ length (run_rows (gw_costs w') tenant runID))%nat ∧
    ∀ i, (j ≤ i)%nat → (i < n)%nat → ps' !! i = Some (rq, admitted h rq b)).
  { induction j as [|j IH]; intros Hj.
    { exists w, ps. split; [apply rtc_refl|]. split; [lia|]. intros i _ Hi. by apply Hin. }
    destruct IH as (w' & ps' & Hst & Hlen & Hleft); [lia|].
    destruct (Hrow w') as (w'' & resp & row & rows & Hserve & Hrows).
    exists w'', (<[j := (rq, Ret resp)]> ps'). split; [|split].
    - etrans; [exact Hst|]. rewrite <-(insert_id ps' j (rq, admitted h rq b)) at 1 by (apply Hleft; lia).
      apply alone_steps. pose proof (run_alone gsem (gserve now provider) (admitted h rq b) w'
        (gserve_sem now provider)) as Ha. unfold serve in Hserve. by rewrite Hserve in Ha.
    - rewrite Hrows, length_app. simpl. lia.
    - intros i Hi Hi'. rewrite lookup_insert_ne by lia. apply Hleft; lia. }
  destruct (Hgo n ltac:(lia)) as (w' & ps' & Hst & Hlen & _). exists w', ps'. split; [by etrans|done].
Qed.

(** ** A row that cannot be summed *)

Lemma of_registry_costs {A} (m : prog areply A) w w' a :
  alone gsem w (of_registry m) w' a → gw_costs w' = gw_costs w.
Proof.
  revert w. induction m as [a0|c k IH]; intros w; simpl; [by intros [-> _]|].
  intros (r & w1 & (t & _ & ->) & Ha). by apply IH in Ha.
Qed.

Lemma overBudget_unreadable {B} h (rq : request B) tenant runID agentRef w w' r res :
  r ∈ run_rows (gw_costs w) tenant runID → tokens_fit r = false → ledgerFor h rq = Some tenant →
  alone gsem w (overBudget h rq runID agentRef) w' res → res = None.
Proof.
  intros Hin Hfit Hl. unfold overBudget. rewrite Hl.
  destruct (agentsFor h rq); [|by intros [_ ->]]. destruct (_ || _); [by intros [_ ->]|].
  destruct (splitManifestRef agentRef) as [[name version]|]; [|by intros [_ ->]].
  rewrite alone_bind. intros (got & w1 & Hc%of_registry_costs & Ha).
  destruct got as [record|]; [|by destruct Ha as [_ ->]].
  destruct (Ceiling.CeilingFromManifest _) as [ceiling problems].
  destruct (negb _); [by destruct Ha as [_ ->]|].
  destruct Ha as (spent & w2 & (-> & Hs) & Ha). rewrite Hc in Hs.
  destruct Hs as [[msg ->]|(rows & Hp & ->)]; [by destruct Ha as [_ ->]|].
  rewrite (overflow_blocks _ _ _ _ _ Hin Hfit Hp) in Ha. by destruct Ha as [_ ->].
Qed.

(** One recorded call whose two counters do not fit an INTEGER together takes
    the ceiling off its run for good: the sum in [SpendForRun] overflows, the
    query fails, and a spend that cannot be read refuses nothing, whatever is
    recorded or requested afterwards. *)
Theorem overflowing_row_lifts_the_ceiling h s s' tenant runID r rq b w1 resp :
  r ∈ run_rows (gw_costs s.1) tenant runID → tokens_fit r = false →
  rtc (gsteps h) s s' → body rq = Some b → dr_RunID b = runID → ledgerFor h rq = Some tenant →
  alone gsem s'.1 (decide h rq) w1 resp → ∀ refusal, resp ≠ DecideOverBudget refusal.
Proof.
  intros Hin Hfit Hst Hb Hrun Hl Ha refusal ->.
  assert (Hin' : r ∈ run_rows (gw_costs s'.1) tenant runID).
  { refine (pool_preserves _ _ (λ w, r ∈ run_rows (gw_costs w) tenant runID) _ _ _ Hst Hin).
    intros _ w c re w' Hs Hw. destruct c as [q|c|t e|t run]; simpl in Hs.
    - by subst.
    - by destruct Hs as (tb & _ & ->).
    - destruct Hs as [(l & Hl' & ->)|[-> _]]; [by eapply row_stays|done].
    - by destruct Hs as [-> _]. }
  unfold decide in Ha. rewrite Hb in Ha. destruct (dr_Candidates b) as [|dc dcs]; [by destruct Ha as [_ ?]|].
  rewrite alone_bind, Hrun in Ha. destruct Ha as (res & w2 & Ho & Ha).
  rewrite (overBudget_unreadable _ _ _ _ _ _ _ _ _ Hin' Hfit Hl Ho) in Ha.
  unfold admitted in Ha. rewrite alone_bind in Ha. destruct Ha as (res' & w3 & _ & Ha).
  destruct res'; rewrite alone_bind in Ha; destruct Ha as (u & w4 & _ & _ & ?); [done|].
  by destruct (throttleRefusal e).
Qed.

(** ** Throttling *)

(** A failed request is answered as rate limited exactly when some candidate
    gave a typed error and every typed error is a rate limit. Candidates that
    failed without one do not count: with one rate limited candidate and any
    number that are not registered, degraded or gave an unusable answer, the
    request is still answered "every candidate is rate limited, retry". *)
Theorem throttled_when_every_typed_error_is err :
  (is_Some (throttleRefusal err) ↔
   ∃ attempts, err = AllCandidatesFailed attempts ∧ Causes attempts ≠ [] ∧
     Forall (λ e, is_Some (ThrottleOf e)) (Causes attempts)) ∧
  (∀ before after c e t, Forall (λ a, Cause a = None) (before ++ after) → ThrottleOf e = Some t →
     throttleRefusal (AllCandidatesFailed (before ++ attempt c (err_text e) (Some e) None :: after)) =
     Some {| th_retry_after := RetryAfterSeconds t; th_rate_limited := [t] |}).
Proof.
  split.
  - destruct err as [|attempts]; simpl; [split; [by intros [? ?]|naive_solver]|].
    pose proof (SoonestRetry_all (Causes attempts)) as Hall.
    destruct (SoonestRetry (Causes attempts)) as [wait all]. simpl in Hall.
    destruct all; simpl.
    + destruct Hall as [Hall _]. destruct (Hall eq_refl) as [Hne Hf].
      destruct (Causes attempts) as [|e es] eqn:Hc; [done|]. split; [|by eexists].
      intros _. exists attempts. rewrite Hc. by rewrite Forall_forall.
    + split; [by intros [? ?]|]. intros (a & [= <-] & Hne & Hf).
      destruct Hall as [_ Hall]. rewrite Forall_forall in Hf. by specialize (Hall (conj Hne Hf)).
  - intros before after c e t Hn Ht.
    assert (Hc : Causes (before ++ attempt c (err_text e) (Some e) None :: after) = [e]).
    { apply Forall_app in Hn as [Hb Ha]. unfold Causes. rewrite omap_app. csimpl.
      assert (Hnil : ∀ l, Forall (λ a, Cause a = None) l → omap Cause l = []).
      { induction 1 as [|a l Hl _ IH]; [done|]. csimpl. by rewrite Hl. }
      by rewrite !Hnil. }
    unfold throttleRefusal. rewrite Hc. simpl. rewrite Ht. by destruct (RetryAfterSeconds t).
Qed.

End api.

(** ** Witnesses *)

Module ApiWitnesses.
#[local] Existing Instance amd64_runtime.
#[local] Existing Instance verbatim_postgres.
#[local] Existing Instance tree_json.

Definition who : Caller :=
  {| ID := "svc"; Kind := KindService; TokenSHA256 := ""; MayActAs := []; MayApprove := false;
     Tenant := "t"; MayActForTenants := [] |}.
Definition gw : Gateway := RegisterProvider (RegisterProvider New "p" false) "q" false.
Definition h : ModelGatewayHandlers :=
  {| mh_Gateway := gw; mh_Pricing := None; mh_Ledger := true; mh_Agents := true |}.
Definition b : decideRequest :=
  {| dr_Candidates := [{| dc_Provider := "p"; dc_Model := "m"; dc_Priority := 1 |};
                       {| dc_Provider := "q"; dc_Model := "n"; dc_Priority := 2 |}];
     dr_RenderedContext := None; dr_DataSensitivity := ""; dr_RunID := "r";
     dr_AgentManifestRef := "a@1" |}.
Definition rq : request decideRequest := {| body := Some b; caller := Some who; tenant_header := "" |}.
Definition K : akey := ("t", "a", "1").

(** A version whose manifest allows one call. *)
Definition one_call : json :=
  JObject [("spec", JObject [("runtime", JObject [("budgets", JObject [("modelCalls", JNumber "1")])])])].
Definition version_row : agent_row :=
  {| ag_owner := "me"; ag_lifecycle := "Released"; ag_manifest := one_call : jsonb; ag_created_at := 0;
     ag_updated_at := 0; ag_quarantined := false; ag_reason := None |}.
Definition manifest : gomap := default None (unmarshal_map one_call).
Definition ceiling : Ceiling.Ceiling := (Ceiling.CeilingFromManifest (items manifest)).1.
Definition world (costs : list cost_row) : gworld :=
  {| gw_agents := {[K := version_row]}; gw_costs := costs; gw_asked := [] |}.

(** "p" answers with nothing usable, "q" answers; both report usage. *)
Definition answer_with (content : string) (p c : Z) : gomap :=
  Some {["choices" := AList [AMap {["message" := AMap {["content" := AString content]}]}];
         "usage" := AMap {["prompt_tokens" := AInt p; "completion_tokens" := AInt c]}]}.
Definition toy_provider (asked : list mcall) (q : mcall) : mreply q :=
  match q with
  | QDegraded _ _ => false
  | QDecide p _ => Ok (if String.eqb p "p" then answer_with "" 7 0 else answer_with "hi" 10 20)
  | QStream _ _ => SEnd None
  | QYield _ => None
  | QStart _ => tt
  end.
Abbreviation toy := (gserve 0 toy_provider).

Lemma toy_governed costs : governed h rq (world costs) "t" "r" K ceiling.
Proof. by exists b, version_row, manifest. Qed.

Definition toy_log : list {c : gcall & greply c} := (run_log toy (world []) (decide h rq)).1.2.
Definition toy_resp : DecideResponse := (run_log toy (world []) (decide h rq)).2.
Lemma toy_recorded : length (answers toy_log) = 2 ∧ length (recorded toy_log) = 2.
Proof. by vm_compute. Qed.

Lemma every_paid_answer_is_recorded_witness : accounts h "t" b toy_log toy_resp.
Proof.
  apply (every_paid_answer_is_recorded h rq b "t"); [reflexivity|reflexivity|].
  apply (run_log_histories toy).
Defined.

Definition served_row : cost_row :=
  row_of "t" (served_entry None "r" "a@1" "q" "n" (answer_with "hi" 10 20)).
Definition spend_of (costs : list cost_row) : RunSpend :=
  match run_spend (world costs) "t" "r" with Ok s => s | Err _ => LedgerWitnesses.zero_spend end.
Lemma spend_one : run_spend (world [served_row]) "t" "r" = Ok (spend_of [served_row]).
Proof. by vm_compute. Qed.
Lemma spend_zero : run_spend (world []) "t" "r" = Ok (spend_of []).
Proof. by vm_compute. Qed.
Lemma reached_one : reached ceiling (spend_of [served_row]).
Proof. apply exceeded_reached. by vm_compute; eexists. Qed.
Lemma unreached_zero : ¬ reached ceiling (spend_of []).
Proof. rewrite <-exceeded_reached. intros [e He]. by vm_compute in He. Qed.

Lemma ceiling_gates_requests_witness : ∃ r,
  serve 0 toy_provider (world [served_row]) (decide h rq) = (world [served_row], DecideOverBudget r).
Proof.
  destruct (ceiling_gates_requests 0 toy_provider h rq (world [served_row]) "t" "r" K ceiling b _
    (toy_governed _) eq_refl spend_one) as [Hyes _].
  destruct (Hyes reached_one) as (e & _ & Hs). eexists. exact Hs.
Defined.

Lemma toy_prefixes pre : pre `prefix_of` [rq; rq] →
  is_ok (run_spend (serve_all 0 toy_provider h (world []) pre) "t" "r") = true.
Proof.
  intros [k Hk]. destruct pre as [|a [|a' [|a'' pre]]]; [|injection Hk as <- _|injection Hk as <- <- _|done];
    by vm_compute.
Qed.

Lemma serial_overshoot_is_one_request_witness :
  let w' := serve_all 0 toy_provider h (world []) [rq; rq] in
  run_rows (gw_costs w') "t" "r" = run_rows (gw_costs (world [])) "t" "r" ∨
  ∃ pre rq' post spend, [rq; rq] = (pre ++ rq' :: post)%list ∧
    run_spend (serve_all 0 toy_provider h (world []) pre) "t" "r" = Ok spend ∧ ¬ reached ceiling spend ∧
    run_rows (gw_costs w') "t" "r" =
      run_rows (gw_costs (serve_all 0 toy_provider h (world []) (pre ++ [rq']))) "t" "r".
Proof.
  apply (serial_overshoot_is_one_request 0 toy_provider h (world []) "t" "r" K ceiling [rq; rq]).
  - repeat constructor; apply toy_governed.
  - apply toy_prefixes.
Defined.
Definition discarded_row : cost_row :=
  row_of "t" (discarded_entry None "r" "a@1" "p" "m" "provider returned empty content" (answer_with "" 7 0)).
Lemma toy_costs w' :
  gw_costs (serve 0 toy_provider w' (admitted h rq b)).1 = ((gw_costs w' ++ [served_row]) ++ [discarded_row])%list.
Proof. vm_compute. reflexivity. Qed.

Lemma toy_admitted w' : ∃ w'' resp row rows, serve 0 toy_provider w' (admitted h rq b) = (w'', resp) ∧
  run_rows (gw_costs w'') "t" "r" = (run_rows (gw_costs w') "t" "r" ++ row :: rows)%list.
Proof.
  eexists _, _, _, _. split; [apply surjective_pairing|].
  rewrite toy_costs, <-app_assoc, run_rows_app. reflexivity.
Qed.

Lemma concurrent_requests_overshoot_witness :
  ∃ w' ps, rtc (pool_step (λ _ : request decideRequest, gsem) (decide h)) (world [], ∅) (w', ps) ∧
    (length (run_rows (gw_costs (world [])) "t" "r") + 5 ≤ length (run_rows (gw_costs w') "t" "r"))%nat.
Proof.
  apply (concurrent_requests_overshoot 0 toy_provider h rq (world []) "t" "r" K ceiling b _ 5
    (toy_governed _) eq_refl spend_zero unreached_zero toy_admitted).
Defined.

Definition huge : Z := 2 ^ 31 - 1.
Definition huge_row : cost_row :=
  row_of "t" (served_entry None "r" "a@1" "q" "n" (answer_with "hi" huge huge)).
Lemma huge_recorded : row_ok huge_row = true ∧ tokens_fit huge_row = false ∧
  huge_row ∈ run_rows (gw_costs (world [huge_row])) "t" "r".
Proof. split; [by vm_compute|]. split; [by vm_compute|]. by left. Qed.

Lemma overflowing_row_lifts_the_ceiling_witness refusal :
  (run toy (world [huge_row]) (decide h rq)).2 ≠ DecideOverBudget refusal.
Proof.
  destruct huge_recorded as (_ & Hfit & Hin).
  apply (overflowing_row_lifts_the_ceiling h (world [huge_row], ∅) (world [huge_row], ∅) "t" "r" huge_row rq b
    (run toy (world [huge_row]) (decide h rq)).1);
    [exact Hin|exact Hfit|apply rtc_refl|reflexivity|reflexivity|reflexivity|].
  apply (run_alone gsem toy). apply gserve_sem.
Defined.

Definition slowly : Throttled :=
  {| th_Provider := "p"; th_Model := "m"; th_Scope := ""; RetryAfterSeconds := None |}.
Definition slow : perr := {| err_text := "429"; ThrottleOf := Some slowly |}.
Definition cand (p : string) : Candidate :=
  {| ModelGateway.Provider := p; ModelGateway.Model := "m"; Priority := 1; InNetwork := false |}.
Lemma throttled_when_every_typed_error_is_witness :
  is_Some (throttleRefusal (AllCandidatesFailed
    [attempt (cand "gone") unregistered_msg None None; attempt (cand "p") "429" (Some slow) None])).
Proof.
  destruct (throttled_when_every_typed_error_is ErrNoRestrictedCandidate) as [_ Ht].
  eexists. apply (Ht [attempt (cand "gone") unregistered_msg None None] [] (cand "p") slow slowly);
    [repeat constructor|reflexivity].
Defined.
End ApiWitnesses.
