(* ===== verification/RunController.v ===== *)
(** * Runs: the controller over Temporal

    go/internal/runcontroller: starting, signalling, approving and describing a
    run. Temporal's client is not part of the repository: each of its methods is a
    call whose reply is whatever the server answers, and its data converter is a
    class. The ledger's query is the one of FinopsLedger. *)

From S2P Require Import Prelude GoValue Json Program FinopsLedger.

Local Open Scope string_scope.
Set Default Proof Using "Type*".

Definition TenantMemoKey : string := "aeon_tenant".
Definition DefaultTenant : string := "default".
Definition DefaultTaskQueue : string := "aeon-agent-run".
Definition WorkflowType : string := "GraphRunWorkflow".
Definition WorkflowIDPrefix : string := "graph-run-".

(** ** What Temporal answers *)

(** The payloads of the SDK and what [Get] and [FromPayload] read from them:
    nothing when they report an error, which leaves the target as it was. *)
Class Converter := {
  payload : Type;
  get_bool : payload → option bool;
  get_map : payload → option gomap;
  get_string : payload → option string;
}.

Inductive WorkflowExecutionStatus :=
| STATUS_RUNNING | STATUS_COMPLETED | STATUS_FAILED | STATUS_CANCELED | STATUS_TERMINATED
| STATUS_TIMED_OUT | STATUS_other (n : Z).
#[export] Instance WorkflowExecutionStatus_eq_dec : EqDecision WorkflowExecutionStatus.
Proof. solve_decision. Defined.

(** A failure of the protocol: its getters read a missing part as empty. *)
Record ApplicationFailureInfo := mkApp { app_Type : string; app_NonRetryable : bool }.
Inductive failure := mkFailure {
  f_Message : string;
  f_ActivityName : string;
  f_Application : option ApplicationFailureInfo;
  f_Cause : option failure;
}.

Inductive close_event :=
| ExecutionFailed (f : option failure)
| ExecutionTimedOut
| ExecutionTerminated (reason identity : string)
| OtherEvent.

(** The history iterator filtered to the close event: empty, failing, or the
    event. *)
Inductive history := NoEvent | EventError | CloseEvent (e : close_event).

(** ** What the controller answers *)

Record Failure := {
  fl_Kind : string;
  fl_Message : string;
  fl_Type : string;
  fl_Activity : string;
  Retryable : option bool;
  TerminatedBy : string;
}.

Record Status := {
  st_WorkflowID : string;
  st_Status : string;
  Paused : bool;
  st_PendingApproval : gomap;
  BudgetsConsumed : gomap;
  st_Failure : option Failure;
}.

Record RunInfo := { ri_RunID : string; ri_WorkflowID : string; TemporalRunID : string }.

Record ApprovalDecision := {
  ApprovalID : string;
  NodeID : string;
  ToolCallHash : string;
  Approved : bool;
}.

Inductive RunError :=
| StartFailed (msg : string)
| CancelFailed (msg : string)
| SignalFailed (op msg : string)
| PendingFailed (msg : string)
| DecodingPending
| DecisionFailed (op : string) (e : RunError)
| NoPendingApproval (op workflowID : string)
| DescribeFailed (msg : string)
| ReadingMemo.

(** *** Why a run ended badly *)

Definition set_level (f : failure) (out : Failure) : Failure :=
  let activity := if negb (sempty (f_ActivityName f)) && sempty (fl_Activity out)
                  then f_ActivityName f else fl_Activity out in
  let type := match f_Application f with
              | Some app => if sempty (app_Type app) then fl_Type out else app_Type app
              | None => fl_Type out end in
  let retryable := match f_Application f with
                   | Some app => Some (negb (app_NonRetryable app))
                   | None => Retryable out end in
  let message := if sempty (f_Message f) then fl_Message out else f_Message f in
  {| fl_Kind := fl_Kind out; fl_Message := message; fl_Type := type; fl_Activity := activity;
     Retryable := retryable; TerminatedBy := TerminatedBy out |}.

(** The loop over the chain of causes, from a depth on. *)
Fixpoint walk_causes (levels : nat) (f : option failure) (out : Failure) : Failure :=
  match levels, f with
  | S levels, Some f => walk_causes levels (f_Cause f) (set_level f out)
  | _, _ => out
  end.

Definition failed_kind (kind : string) : Failure :=
  {| fl_Kind := kind; fl_Message := ""; fl_Type := ""; fl_Activity := ""; Retryable := None;
     TerminatedBy := "" |}.

Definition failureFromProto (f : option failure) : option Failure :=
  match f with
  | None => None
  | Some _ => Some (walk_causes 10 f (failed_kind "failed"))
  end.

Definition failure_of_event (e : close_event) : option Failure :=
  match e with
  | ExecutionFailed f => failureFromProto f
  | ExecutionTimedOut => Some
      {| fl_Kind := "timed_out"; fl_Message := "the run exceeded its workflow execution timeout";
         fl_Type := ""; fl_Activity := ""; Retryable := None; TerminatedBy := "" |}
  | ExecutionTerminated reason identity => Some
      {| fl_Kind := "terminated"; fl_Message := reason; fl_Type := ""; fl_Activity := "";
         Retryable := None; TerminatedBy := identity |}
  | OtherEvent => None
  end.

Definition mapStatus (s : WorkflowExecutionStatus) (paused hasPendingApproval : bool) : string :=
  match s with
  | STATUS_RUNNING =>
      if hasPendingApproval then "PAUSED_FOR_APPROVAL" else if paused then "PAUSED" else "RUNNING"
  | STATUS_COMPLETED => "SUCCEEDED"
  | STATUS_FAILED | STATUS_TIMED_OUT | STATUS_TERMINATED => "FAILED"
  | STATUS_CANCELED => "CANCELLED"
  | STATUS_other _ => "PENDING"
  end.

(** *** The ledger's numbers *)

Definition spend_fields (spend : RunSpend) (consumed : gmap string any) : gmap string any :=
  let m := <["cost_usd" := AFloat (rs_CostUSD spend)]>
          (<["tokens" := AInt64 (Tokens spend)]>
          (<["model_calls" := AInt64 (ModelCalls spend)]> consumed)) in
  let m := if (0 <? UnpricedCalls spend)%Z
           then <["unpriced_calls" := AInt64 (UnpricedCalls spend)]> m else m in
  if (0 <? UnreportedUsageCalls spend)%Z
  then <["unreported_usage_calls" := AInt64 (UnreportedUsageCalls spend)]> m else m.

(** ** The operations *)

Section controller.
Context `{Converter}.

Record description := {
  desc_status : WorkflowExecutionStatus;
  desc_memo : option (gmap string payload);
}.

Inductive tcall :=
| TDescribe (wf : string)
| TQuery (wf name : string)
| TSignal (wf name : string) (arg : option (gmap string any))
| TCancel (wf : string)
| TExecute (wf queue : string) (memo : gmap string any) (type : string) (input : gmap string any)
| THistory (wf : string)
| TSpend (tenant runID : string).
Definition treply (c : tcall) : Type :=
  match c with
  | TDescribe _ => result string description
  | TQuery _ _ => result string payload
  | TSignal _ _ _ | TCancel _ => result string ()
  | TExecute _ _ _ _ _ => result string string
  | THistory _ => history
  | TSpend _ _ => result SpendError RunSpend
  end.
Abbreviation TM := (prog treply).

Record Controller := { TaskQueue : string; Ledger : bool }.

Definition New (taskQueue : string) : Controller :=
  {| TaskQueue := if sempty taskQueue then DefaultTaskQueue else taskQueue; Ledger := false |}.

Definition start_input (runID : string) (graph budgets : gomap) (agentManifestRef : string)
  : gmap string any :=
  let any_map (m : gomap) := match m with Some m => AMap m | None => ANil end in
  let input := <["graph" := any_map graph]> {["run_id" := AString runID]} in
  let input := if sempty agentManifestRef then input
               else <["agent_manifest_ref" := AString agentManifestRef]> input in
  match budgets with Some b => <["budgets" := AMap b]> input | None => input end.

Definition Start (c : Controller) (runID : string) (graph budgets : gomap)
    (agentManifestRef tenant : string) : TM (result RunError RunInfo) :=
  let workflowID := WorkflowIDPrefix +:+ runID in
  run ← ask (TExecute workflowID (TaskQueue c) {[TenantMemoKey := AString tenant]} WorkflowType
               (start_input runID graph budgets agentManifestRef));
  mret (match run : result string string with
        | Err msg => Err (StartFailed msg)
        | Ok id => Ok {| ri_RunID := runID; ri_WorkflowID := workflowID; TemporalRunID := id |}
        end).

Definition Cancel (workflowID : string) : TM (result RunError ()) :=
  r ← ask (TCancel workflowID);
  mret (match r : result string () with Err msg => Err (CancelFailed msg) | Ok _ => Ok tt end).

Definition signal (workflowID name : string) : TM (result RunError ()) :=
  r ← ask (TSignal workflowID name None);
  mret (match r : result string () with Err msg => Err (SignalFailed name msg) | Ok _ => Ok tt end).
Definition Pause (workflowID : string) : TM (result RunError ()) := signal workflowID "pause".
Definition Resume (workflowID : string) : TM (result RunError ()) := signal workflowID "resume".

Definition PendingApproval (workflowID : string) : TM (result RunError gomap) :=
  v ← ask (TQuery workflowID "pending_approval");
  mret (match v : result string payload with
        | Err msg => Err (PendingFailed msg)
        | Ok p => match get_map p with
                  | None => Err DecodingPending
                  | Some pending => Ok pending end
        end).

Definition stringField (m : gmap string any) (key : string) : string := as_string (mget m key).

Definition sendApprovalDecision (workflowID signalName toolCallHash : string) (approved : bool)
  : TM (result RunError ApprovalDecision) :=
  got ← PendingApproval workflowID;
  match got with
  | Err e => mret (Err (DecisionFailed signalName e))
  | Ok None => mret (Err (NoPendingApproval signalName workflowID))
  | Ok (Some pending) =>
      r ← ask (TSignal workflowID signalName
                 (Some (<["tool_call_hash" := AString toolCallHash]>
                        {["approval_id" := mget pending "approval_id"]})));
      mret (match r : result string () with
            | Err msg => Err (SignalFailed signalName msg)
            | Ok _ => Ok {| ApprovalID := stringField pending "approval_id";
                            NodeID := stringField pending "node_id";
                            ToolCallHash := toolCallHash; Approved := approved |}
            end)
  end.
Definition Approve (workflowID toolCallHash : string) :=
  sendApprovalDecision workflowID "approve" toolCallHash true.
Definition Reject (workflowID toolCallHash : string) :=
  sendApprovalDecision workflowID "reject" toolCallHash false.

Definition failureOf (workflowID : string) : TM (option Failure) :=
  h ← ask (THistory workflowID);
  mret (match h : history with
        | CloseEvent e => failure_of_event e
        | NoEvent | EventError => None
        end).

Definition addLedgerSpend (c : Controller) (workflowID tenant : string) (consumed : gomap) : TM gomap :=
  if negb (Ledger c) || sempty tenant then mret consumed
  else
    let runID := trim_prefix workflowID WorkflowIDPrefix in
    spend ← ask (TSpend tenant runID);
    mret (match spend : result SpendError RunSpend with
          | Err _ => consumed
          | Ok spend => Some (spend_fields spend (items consumed))
          end).

(** A query's map, nil when the query or its decoding failed. *)
Definition queried_map (v : result string payload) : gomap :=
  match v with Ok p => default None (get_map p) | Err _ => None end.

(** The two queries a running workflow answers about itself. *)
Definition running_queries (workflowID : string) : TM (bool * gomap) :=
  v ← ask (TQuery workflowID "is_paused");
  let paused := match v : result string payload with
                | Ok p => default false (get_bool p) | Err _ => false end in
  pending ← PendingApproval workflowID;
  mret (paused, match pending with Ok m => m | Err _ => None end).

Definition Status_ (c : Controller) (workflowID tenant : string) : TM (result RunError Status) :=
  desc ← ask (TDescribe workflowID);
  match desc : result string description with
  | Err msg => mret (Err (DescribeFailed msg))
  | Ok desc =>
      let temporalStatus := desc_status desc in
      '(paused, pendingApproval) ←
        (if decide (temporalStatus = STATUS_RUNNING) then running_queries workflowID
         else mret (false, None));
      v ← ask (TQuery workflowID "budgets_consumed");
      budgetsConsumed ← addLedgerSpend c workflowID tenant (queried_map v);
      failure ←
        (match temporalStatus with
         | STATUS_FAILED | STATUS_TIMED_OUT | STATUS_TERMINATED => failureOf workflowID
         | _ => mret None
         end);
      let has : bool := match pendingApproval : gomap with Some _ => true | None => false end in
      mret (Ok {| st_WorkflowID := workflowID;
                  st_Status := mapStatus temporalStatus paused has;
                  Paused := paused; st_PendingApproval := pendingApproval;
                  BudgetsConsumed := budgetsConsumed; st_Failure := failure |})
  end.

Definition tenant_of_memo (memo : option (gmap string payload)) : result RunError string :=
  match memo with
  | None => Ok DefaultTenant
  | Some fields =>
      match fields !! TenantMemoKey with
      | None => Ok DefaultTenant
      | Some p => match get_string p with
                  | None => Err ReadingMemo
                  | Some tenant => Ok (if sempty tenant then DefaultTenant else tenant)
                  end
      end
  end.
Definition TenantOf (workflowID : string) : TM (result RunError string) :=
  desc ← ask (TDescribe workflowID);
  mret (match desc : result string description with
        | Err msg => Err (DescribeFailed msg)
        | Ok desc => tenant_of_memo (desc_memo desc)
        end).
End controller.

(** ** The cause chain *)

(** The first levels of a chain of causes, outermost first. *)
Fixpoint levels (n : nat) (f : option failure) : list failure :=
  match n, f with
  | S n, Some f => f :: levels n (f_Cause f)
  | _, _ => []
  end.

Definition nonempty (s : string) : bool := negb (sempty s).
Definition first_text (l : list string) : string := default "" (head (List.filter nonempty l)).
Definition last_text (l : list string) : string := default "" (last (List.filter nonempty l)).
Definition apps (l : list failure) : list ApplicationFailureInfo := omap f_Application l.

(** What a chain's levels say, each read where it is worth reading. *)
Definition failure_of_levels (l : list failure) : Failure :=
  {| fl_Kind := "failed";
     fl_Message := last_text (f_Message <$> l);
     fl_Type := last_text (app_Type <$> apps l);
     fl_Activity := first_text (f_ActivityName <$> l);
     Retryable := (λ a, negb (app_NonRetryable a)) <$> last (apps l);
     TerminatedBy := "" |}.

Lemma last_default {A} (l : list A) (x d : A) : default d (last (x :: l)) = default x (last l).
Proof. rewrite last_cons. by destruct (last l). Qed.

(** The accumulator of the loop, as a failure whose levels came before. *)
Definition after (out : Failure) (l : list failure) : Failure :=
  {| fl_Kind := fl_Kind out;
     fl_Message := default (fl_Message out) (last (List.filter nonempty (f_Message <$> l)));
     fl_Type := default (fl_Type out) (last (List.filter nonempty (app_Type <$> apps l)));
     fl_Activity := if sempty (fl_Activity out) then first_text (f_ActivityName <$> l) else fl_Activity out;
     Retryable := match last (apps l) with
                  | Some a => Some (negb (app_NonRetryable a)) | None => Retryable out end;
     TerminatedBy := TerminatedBy out |}.

Lemma after_cons out f l : after out (f :: l) = after (set_level f out) l.
Proof.
  destruct out, f as [msg act app cause]. unfold after, set_level, apps, first_text, nonempty. simpl.
  f_equal.
  - destruct (sempty msg); simpl; [done|]. apply last_default.
  - destruct app as [[ty nr]|]; simpl; [|done]. destruct (sempty ty); simpl; [done|]. apply last_default.
  - destruct (sempty act) eqn:Ha, (sempty fl_Activity0) eqn:Hb; simpl; rewrite ?Ha, ?Hb; done.
  - destruct app as [a|]; simpl; [|done]. rewrite last_cons.
    change (list_omap failure ApplicationFailureInfo f_Application l) with (omap f_Application l).
    by destruct (last (omap f_Application l)).
Qed.

Lemma after_nil out : after out [] = out.
Proof.
  destruct out as [k m ty a r tb]. unfold after; simpl. destruct (sempty a) eqn:Ha; [|done].
  by apply sempty_true in Ha as ->.
Qed.

Lemma walk_causes_levels n f out : walk_causes n f out = after out (levels n f).
Proof.
  revert f out. induction n as [|n IH]; intros f out; [by rewrite after_nil|].
  destruct f as [f|]; simpl; [by rewrite IH, after_cons|by rewrite after_nil].
Qed.

(** However long the chain of causes is, the walk ends within ten levels and
    reports of those: the message of the deepest that has one, the error type of
    the deepest application error that names one, the activity of the outermost,
    and whether the deepest application error may be retried. *)
Theorem failure_reads_ten_levels f :
  failureFromProto f =
  match f with None => None | Some _ => Some (failure_of_levels (levels 10 f)) end ∧
  (length (levels 10 f) ≤ 10)%nat.
Proof.
  split.
  - destruct f as [f|]; [|done]. unfold failureFromProto. by rewrite walk_causes_levels.
  - generalize 10%nat. intros n. revert f. induction n as [|n IH]; intros [f|]; simpl; try lia.
    specialize (IH (f_Cause f)). lia.
Qed.

(** ** What a status says *)

Section status.
Context `{Converter}.

Definition terminal_failure (s : WorkflowExecutionStatus) : Prop :=
  s = STATUS_FAILED ∨ s = STATUS_TIMED_OUT ∨ s = STATUS_TERMINATED.

(** The history of a status: described, queried while running, its budgets read,
    its spend looked up, its close event read. *)
Lemma Status_histories c wf tenant t s :
  histories (Status_ c wf tenant) t (Ok s) ↔
  ∃ desc paused pending budgets failure t1 v t2 t3,
    t = existT (TDescribe wf) (Ok desc) :: t1 ++ existT (TQuery wf "budgets_consumed") v :: t2 ++ t3 ∧
    histories (if decide (desc_status desc = STATUS_RUNNING) then running_queries wf
               else mret (false, None)) t1 (paused, pending) ∧
    histories (addLedgerSpend c wf tenant (queried_map v)) t2 budgets ∧
    histories (match desc_status desc with
               | STATUS_FAILED | STATUS_TIMED_OUT | STATUS_TERMINATED => failureOf wf
               | _ => mret None end) t3 failure ∧
    s = {| st_WorkflowID := wf;
           st_Status := mapStatus (desc_status desc) paused
                          (match pending : gomap with Some _ => true | None => false end);
           Paused := paused; st_PendingApproval := pending; BudgetsConsumed := budgets;
           st_Failure := failure |}.
Proof.
  unfold Status_. split.
  - intros (r & t' & -> & Hk). destruct r as [desc|msg]; [|by destruct Hk].
    simpl in Hk. apply histories_bind in Hk as ([paused pending] & t1 & t2' & -> & H1 & Hk).
    destruct Hk as (v & t2'' & -> & Hk).
    apply histories_bind in Hk as (budgets & t2 & t3' & -> & H2 & Hk).
    apply histories_bind in Hk as (failure & t3 & t4 & -> & H3 & [-> [= ->]]).
    exists desc, paused, pending, budgets, failure, t1, v, t2, t3. rewrite app_nil_r.
    split_and!; [done|exact H1|exact H2|exact H3|done].
  - intros (desc & paused & pending & budgets & failure & t1 & v & t2 & t3 & -> & H1 & H2 & H3 & ->).
    simpl. eexists (Ok desc), _. split; [reflexivity|].
    apply histories_bind. eexists (paused, pending), t1, _. split; [done|]. split; [exact H1|].
    eexists v, _. split; [reflexivity|].
    apply histories_bind. exists budgets, t2, t3. split; [done|]. split; [exact H2|].
    apply histories_bind. exists failure, t3, []. rewrite app_nil_r. by split_and!.
Qed.

Definition run_states : list string :=
  ["PENDING"; "RUNNING"; "PAUSED"; "PAUSED_FOR_APPROVAL"; "SUCCEEDED"; "FAILED"; "CANCELLED"].

(** Every status is a well-formed state of a run: its state is one of the
    schema's, an approval is shown exactly when the state is
    PAUSED_FOR_APPROVAL, a reason of failure only when it is FAILED, and a pause
    only while the run goes on. *)
Theorem status_well_formed c wf tenant t s :
  histories (Status_ c wf tenant) t (Ok s) →
  st_WorkflowID s = wf ∧ st_Status s ∈ run_states ∧
  (is_Some (st_PendingApproval s) ↔ st_Status s = "PAUSED_FOR_APPROVAL") ∧
  (is_Some (st_Failure s) → st_Status s = "FAILED") ∧
  (Paused s = true → st_Status s = "PAUSED" ∨ st_Status s = "PAUSED_FOR_APPROVAL") ∧
  (st_Status s = "PAUSED" → Paused s = true).
Proof.
  intros (desc & paused & pending & budgets & failure & t1 & v & t2 & t3 & _ & Hq & _ & Hf & ->)%Status_histories.
  cbn [st_WorkflowID st_Status st_PendingApproval st_Failure Paused].
  assert (desc_status desc ≠ STATUS_RUNNING → paused = false ∧ pending = None) as Hidle.
  { intros Hne. rewrite decide_False in Hq by done. by destruct Hq as [_ [= -> ->]]. }
  assert (¬ terminal_failure (desc_status desc) → failure = None) as Hnone.
  { unfold terminal_failure. intros Hne. destruct (desc_status desc); try (by destruct Hf as [_ ->]); naive_solver. }
  unfold run_states. destruct (desc_status desc) eqn:Hs; cbn [mapStatus].
  1: rewrite (Hnone ltac:(unfold terminal_failure; naive_solver)); destruct pending, paused;
     (split_and!; [done|set_solver|split; [by intros []|done]|by intros []|naive_solver|done]).
  all: destruct (Hidle ltac:(done)) as [? ?]; subst;
    (split_and!; [done|set_solver|split; [by intros []|done]| |done|done]).
  all: try (intros _; reflexivity).
  all: rewrite (Hnone ltac:(unfold terminal_failure; naive_solver)); by intros [].
Qed.

Lemma spend_fields_read spend m k :
  spend_fields spend m !! k =
  if decide (k = "unreported_usage_calls" ∧ (0 < UnreportedUsageCalls spend)%Z)
  then Some (AInt64 (UnreportedUsageCalls spend))
  else if decide (k = "unpriced_calls" ∧ (0 < UnpricedCalls spend)%Z)
  then Some (AInt64 (UnpricedCalls spend))
  else if decide (k = "cost_usd") then Some (AFloat (rs_CostUSD spend))
  else if decide (k = "tokens") then Some (AInt64 (Tokens spend))
  else if decide (k = "model_calls") then Some (AInt64 (ModelCalls spend))
  else m !! k.
Proof.
  unfold spend_fields.
  destruct (Z.ltb_spec 0 (UnreportedUsageCalls spend)), (Z.ltb_spec 0 (UnpricedCalls spend));
    rewrite !lookup_insert; repeat case_decide; subst; naive_solver lia.
Qed.

(** A status shows what the ledger says its run has spent, under the run id
    the caller chose and for its own tenant; where the ledger cannot be asked or
    cannot answer, the workflow's own counters are left as they are. *)
Theorem status_shows_the_ledger c run tenant t s :
  histories (Status_ c (WorkflowIDPrefix +:+ run) tenant) t (Ok s) →
  ∃ v, existT (TQuery (WorkflowIDPrefix +:+ run) "budgets_consumed") v ∈ t ∧
    (∀ tenant' run' r, existT (TSpend tenant' run') r ∈ t →
       Ledger c = true ∧ tenant ≠ "" ∧ tenant' = tenant ∧ run' = run) ∧
    if Ledger c && negb (sempty tenant) then
      ∃ r, existT (TSpend tenant run) r ∈ t ∧
        BudgetsConsumed s = match r : result SpendError RunSpend with
                            | Ok spend => Some (spend_fields spend (items (queried_map v)))
                            | Err _ => queried_map v end
    else BudgetsConsumed s = queried_map v.
Proof.
  intros (desc & paused & pending & budgets & failure & t1 & v & t2 & t3 & -> & Hq & Hl & Hf & ->)%Status_histories.
  exists v. cbn [BudgetsConsumed].
  assert (∀ tn rn r, existT (TSpend tn rn) r ∉ t1) as Hq1.
  { intros tn rn r Hin. destruct (decide _).
    - destruct Hq as (r1 & t' & -> & r2 & t'' & -> & -> & _). set_solver.
    - destruct Hq as [-> _]. set_solver. }
  assert (∀ tn rn r, existT (TSpend tn rn) r ∉ t3) as Hq3.
  { intros tn rn r Hin. destruct (desc_status desc);
      solve [destruct Hf as [-> _]; set_solver|destruct Hf as (? & ? & -> & -> & _); set_solver]. }
  split; [set_solver|].
  unfold addLedgerSpend in Hl. rewrite trim_prefix_app in Hl.
  destruct (Ledger c) eqn:HL; [|destruct Hl as [-> ->]; split; [set_solver|done]].
  destruct (sempty tenant) eqn:Ht; [destruct Hl as [-> ->]; split; [set_solver|done]|].
  simpl in Hl. destruct Hl as (r & t' & -> & -> & ->). simpl. split.
  - intros tn rn r'. rewrite elem_of_cons, elem_of_app, !elem_of_cons.
    intros [Heq|[Hin|[Heq|[Heq|Hin]]]]; [discriminate|by apply Hq1 in Hin|discriminate| |by apply Hq3 in Hin].
    apply sempty_false in Ht. by simplify_eq.
  - exists r. split; [set_solver|]. by destruct r.
Qed.
End status.

(** ** The theorems at work *)

Module RunWitnesses.

(** A converter whose payloads are the values themselves. *)
#[export] Instance plain_converter : Converter := {|
  payload := any;
  get_bool v := match v with ABool b => Some b | _ => None end;
  get_map v := match v with AMap m => Some (Some m) | ANil => Some None | _ => None end;
  get_string v := match v with AString s => Some s | _ => None end |}.

Definition spent : RunSpend :=
  {| rs_CostUSD := f_of_Z 2; PricedCalls := 3; UnpricedCalls := 1; ModelCalls := 4; DiscardedCalls := 0;
     DiscardedCostUSD := f_zero; Tokens := 120; UnreportedUsageCalls := 0; rs_PromptTokens := 100;
     rs_CompletionTokens := 20; DistinctModels := 1 |}.

Definition pending : gmap string any := <["approval_id" := AString "ap-1"]> {["node_id" := AString "n"]}.

(** A server where a run of tenant t waits for an approval. *)
Definition serve_run (w : ()) (c : tcall) : () * treply c :=
  (tt, match c return treply c with
       | TDescribe _ => Ok {| desc_status := STATUS_RUNNING;
                              desc_memo := Some {[TenantMemoKey := AString "t"]} |}
       | TQuery _ name => Ok (if String.eqb name "pending_approval" then AMap pending
                              else if String.eqb name "is_paused" then ABool false else ANil)
       | TSignal _ _ _ | TCancel _ => Ok tt
       | TExecute _ _ _ _ _ => Ok "id"
       | THistory _ => NoEvent
       | TSpend _ _ => Ok spent
       end).

Definition ctl : Controller := {| TaskQueue := "q"; Ledger := true |}.
Definition status_log : list {c : tcall & treply c} := (run_log serve_run tt (Status_ ctl "graph-run-r" "t")).1.2.
Definition status_shown : Status :=
  {| st_WorkflowID := "graph-run-r"; st_Status := "PAUSED_FOR_APPROVAL"; Paused := false;
     st_PendingApproval := Some pending; BudgetsConsumed := Some (spend_fields spent ∅); st_Failure := None |}.

Lemma status_history : histories (Status_ ctl "graph-run-r" "t") status_log (Ok status_shown).
Proof. exact (run_log_histories serve_run (Status_ ctl "graph-run-r" "t") tt). Qed.

Lemma status_well_formed_witness :
  st_WorkflowID status_shown = "graph-run-r" ∧ st_Status status_shown ∈ run_states ∧
  (is_Some (st_PendingApproval status_shown) ↔ st_Status status_shown = "PAUSED_FOR_APPROVAL") ∧
  (is_Some (st_Failure status_shown) → st_Status status_shown = "FAILED") ∧
  (Paused status_shown = true →
     st_Status status_shown = "PAUSED" ∨ st_Status status_shown = "PAUSED_FOR_APPROVAL") ∧
  (st_Status status_shown = "PAUSED" → Paused status_shown = true).
Proof. exact (status_well_formed ctl "graph-run-r" "t" status_log status_shown status_history). Defined.

Lemma status_shows_the_ledger_witness :
  ∃ v, existT (TQuery (WorkflowIDPrefix +:+ "r") "budgets_consumed") v ∈ status_log ∧
    (∀ tenant' run' r, existT (TSpend tenant' run') r ∈ status_log →
       Ledger ctl = true ∧ "t" ≠ "" ∧ tenant' = "t" ∧ run' = "r") ∧
    if Ledger ctl && negb (sempty "t") then
      ∃ r, existT (TSpend "t" "r") r ∈ status_log ∧
        BudgetsConsumed status_shown = match r : result SpendError RunSpend with
                            | Ok spend => Some (spend_fields spend (items (queried_map v)))
                            | Err _ => queried_map v end
    else BudgetsConsumed status_shown = queried_map v.
Proof. exact (status_shows_the_ledger ctl "r" "t" status_log status_shown status_history). Defined.

(** A chain of twelve causes: what the last two say is not reported. *)
Fixpoint nested (n : nat) : option failure :=
  match n with
  | O => None
  | S n => Some (mkFailure (if (n =? 0)%nat then "root" else "wrapper") "" None (nested n))
  end.
Example ten_levels_read : fl_Message <$> failureFromProto (nested 10) = Some "root".
Proof. reflexivity. Qed.
Example eleventh_not_read : fl_Message <$> failureFromProto (nested 12) = Some "wrapper".
Proof. reflexivity. Qed.
End RunWitnesses.
