(* ===== verification/RunApi.v ===== *)
(** * The run controller's routes

    go/internal/api/run_controller_handlers.go: starting a run, the routes that
    name one, the decision of an approval and its journalling, and the stream of a
    run's states. A request is what the middleware leaves: the authenticated
    caller, the path's run id and the decoded body (or none, if it does not
    decode). Tracing is left out. *)

From S2P Require Import ModelApi.
From S2P Require Import Prelude GoValue Json Program Auth Checkpoint CheckpointStore AgentRegistry FinopsLedger RunController.

Local Open Scope string_scope.
Set Default Proof Using "Type*".

(** ** Text *)

(** [%q]: a text of printable ASCII without quotes or backslashes is put between
    quotes; how strconv escapes any other is [quote_other]. *)
Definition quotable (c : Ascii.ascii) : bool := byte_in 32 126 c && negb (byte_is 34 c) && negb (byte_is 92 c).
Definition quote (quote_other : string → string) (s : string) : string :=
  if str_all quotable s then dquote +:+ s +:+ dquote else quote_other s.

(** [strings.Cut(s, sep)] for a separator of one byte: around its first occurrence. *)
Fixpoint cut (c : Ascii.ascii) (s : string) : option (string * string) :=
  match s with
  | EmptyString => None
  | String a r => if Ascii.eqb a c then Some (EmptyString, r)
                  else (λ p, (String a p.1, p.2)) <$> cut c r
  end.
Definition at_sign : Ascii.ascii := Ascii.ascii_of_nat 64.

(** ** Requests and responses *)

Record startRunRequest := {
  sr_RunID : string;
  sr_Graph : gomap;
  sr_Budgets : gomap;
  sr_AgentManifestRef : string;
}.

(** Why a decision was not journalled. *)
Inductive ApprovalReason :=
| NoReason
| NoCheckpointer
| NoApprovalID
| PayloadFailed (e : OutcomeError)
| AppendFailed (e : AppendError).
Record approvalJournalResult := {
  aj_Journalled : bool;
  aj_StepID : string;
  aj_Reason : ApprovalReason;
  aj_Seq : Z;
  aj_Duplicate : bool;
}.
Definition not_journalled (reason : ApprovalReason) : approvalJournalResult :=
  {| aj_Journalled := false; aj_StepID := ""; aj_Reason := reason; aj_Seq := 0; aj_Duplicate := false |}.

Inductive RunResponse :=
| BadBody
| FieldsRequired
| Unauthenticated
| NoSuchRun
| AgentQuarantined (ref reason : string)
| Started (info : RunInfo)
| MayNotApprove (callerID : string)
| StatusFound (s : RunController.Status)
| StatusMissing (e : RunError)
| Accepted
| Decided (approvalID toolCallHash outcome decidedBy : string) (journal : approvalJournalResult)
| ControllerFailed (e : RunError).

Definition run_status (r : RunResponse) : Z :=
  match r with
  | BadBody | FieldsRequired => 400
  | Unauthenticated => 401
  | NoSuchRun | StatusMissing _ => 404
  | AgentQuarantined _ _ | MayNotApprove _ => 403
  | Started _ => 201
  | StatusFound _ => 200
  | Accepted | Decided _ _ _ _ _ => 202
  | ControllerFailed _ => 500
  end.

(** The server-sent events of a stream. *)
Inductive sse := DataEvent (s : RunController.Status) | ErrorEvent (e : RunError).

(** ** The handlers *)

Section runs.
Context `{Converter, Postgres, GoJson}.
(** strconv.Quote beyond plain text. *)
Context (quote_other : string → string).

Inductive rcall :=
| RTemporal (c : tcall)
| RAgent (c : acall)
| RAppend (tenant : string) (e : Entry)
| REvent (e : sse)     (** an event written to the client *)
| RWait.               (** the client left, or the ticker fired *)
Definition rreply (c : rcall) : Type :=
  match c with
  | RTemporal c => treply c
  | RAgent c => areply c
  | RAppend _ _ => result AppendError AppendResult
  | REvent _ => ()
  | RWait => bool
  end.
Abbreviation RM := (prog rreply).

Fixpoint of_temporal {A} (m : prog treply A) : RM A :=
  match m with Ret a => Ret a | Vis c k => Vis (RTemporal c) (λ r, of_temporal (k r)) end.
Fixpoint of_registry {A} (m : prog areply A) : RM A :=
  match m with Ret a => Ret a | Vis c k => Vis (RAgent c) (λ r, of_registry (k r)) end.

Record RunControllerHandlers := {
  rh_Controller : Controller;
  rh_Registry : bool;
  rh_Checkpointer : bool;
}.

Definition workflowID (runID : string) : string := WorkflowIDPrefix +:+ runID.

Definition callerTenantOrEmpty (caller : option Caller) : string :=
  match caller with Some c => Tenant c | None => "" end.

(** The tenant whose registry is asked, when there is one. *)
Definition registryForCaller (h : RunControllerHandlers) (caller : option Caller) : option string :=
  let tenant := callerTenantOrEmpty caller in
  if negb (rh_Registry h) || sempty tenant then None else Some tenant.

(** The workflow id of a run the caller's tenant owns, or the refusal. *)
Definition ownedRun (caller : option Caller) (runID : string) : RM (result RunResponse string) :=
  match caller with
  | None => mret (Err Unauthenticated)
  | Some c =>
      let wfID := workflowID runID in
      owner ← of_temporal (TenantOf wfID);
      mret (match owner with
            | Err _ => Err NoSuchRun
            | Ok owner => if bool_decide (owner = Tenant c) then Ok wfID else Err NoSuchRun
            end)
  end.

(** *** Starting *)

(** The reason a known, quarantined version is refused with. *)
Definition checkNotQuarantined (registry : option string) (agentManifestRef : string)
  : RM (option string) :=
  match registry with
  | None => mret None
  | Some tenant =>
      if sempty agentManifestRef then mret None else
      match cut at_sign agentManifestRef with
      | None => mret None
      | Some (name, version) =>
          rec ← of_registry (AgentRegistry.Get tenant name version);
          mret (match rec with
                | Err _ => None
                | Ok rec => if Quarantined rec then Some (QuarantineReason rec) else None
                end)
      end
  end.

Definition start (h : RunControllerHandlers) (caller : option Caller) (body : option startRunRequest)
  : RM RunResponse :=
  match body with
  | None => mret BadBody
  | Some b =>
      if sempty (sr_RunID b) || match sr_Graph b with None => true | Some _ => false end
      then mret FieldsRequired
      else
        quarantined ← checkNotQuarantined (registryForCaller h caller) (sr_AgentManifestRef b);
        match quarantined with
        | Some reason => mret (AgentQuarantined (sr_AgentManifestRef b) reason)
        | None =>
            info ← of_temporal (Start (rh_Controller h) (sr_RunID b) (sr_Graph b) (sr_Budgets b)
                                  (sr_AgentManifestRef b) (callerTenantOrEmpty caller));
            mret (match info with Err e => ControllerFailed e | Ok info => Started info end)
        end
  end.

(** *** The routes of one run *)

Definition status (h : RunControllerHandlers) (caller : option Caller) (runID : string) : RM RunResponse :=
  owned ← ownedRun caller runID;
  match owned with
  | Err resp => mret resp
  | Ok wfID =>
      s ← of_temporal (Status_ (rh_Controller h) wfID (callerTenantOrEmpty caller));
      mret (match s with Err e => StatusMissing e | Ok s => StatusFound s end)
  end.

(** cancel, pause and resume differ by the controller's method. *)
Definition command (op : string → prog treply (result RunError ())) (caller : option Caller)
    (runID : string) : RM RunResponse :=
  owned ← ownedRun caller runID;
  match owned with
  | Err resp => mret resp
  | Ok wfID => r ← of_temporal (op wfID);
               mret (match r with Err e => ControllerFailed e | Ok _ => Accepted end)
  end.
Definition cancel := command Cancel.
Definition pause := command Pause.
Definition resume := command Resume.

(** *** Approvals *)

Definition approver (caller : option Caller) : result RunResponse Caller :=
  match caller with
  | None => Err Unauthenticated
  | Some c => if MayApprove c then Ok c else Err (MayNotApprove (ID c))
  end.

(** json.Marshal of the decision's detail: a map, so its keys are sorted. *)
Definition approval_detail (decision : ApprovalDecision) : RawMessage :=
  RawDoc (JObject [("approved", JBool (Approved decision));
                   ("node_id", JString (to_valid_utf8 (NodeID decision)));
                   ("tool_call_hash", JString (to_valid_utf8 (ToolCallHash decision)))]).

Definition decided_reason (caller : Caller) : string :=
  "decided by " +:+ Kind caller +:+ " " +:+ quote quote_other (ID caller) +:+ " via the run controller".

Definition approval_payload (caller : Caller) (decision : ApprovalDecision) : result OutcomeError RawMessage :=
  OutcomePayloadDecidedBy (OutcomeForApproval (Approved decision)) (decided_reason caller)
    (ID caller) (approval_detail decision).

Definition approval_entry (runID : string) (decision : ApprovalDecision) (payload : RawMessage) : Entry :=
  {| Checkpoint.RunID := runID; SubRunID := ""; StepID := ApprovalStep (ApprovalID decision);
     EntryPhase := PhaseCompleted; Payload := payload |}.

Definition journalApproval (h : RunControllerHandlers) (tenant runID : string) (caller : Caller)
    (decision : ApprovalDecision) : RM approvalJournalResult :=
  if negb (rh_Checkpointer h) then mret (not_journalled NoCheckpointer)
  else if sempty (ApprovalID decision) then mret (not_journalled NoApprovalID)
  else match approval_payload caller decision with
       | Err e => mret (not_journalled (PayloadFailed e))
       | Ok payload =>
           res ← ask (RAppend tenant (approval_entry runID decision payload));
           mret (match res : result AppendError AppendResult with
                 | Err e => not_journalled (AppendFailed e)
                 | Ok res => {| aj_Journalled := true; aj_StepID := ApprovalStep (ApprovalID decision);
                                aj_Reason := NoReason; aj_Seq := res_Seq res;
                                aj_Duplicate := Duplicate res |}
                 end)
       end.

Definition respondToApproval (h : RunControllerHandlers) (tenant runID : string) (caller : Caller)
    (decision : ApprovalDecision) : RM RunResponse :=
  journal ← journalApproval h tenant runID caller decision;
  mret (Decided (ApprovalID decision) (ToolCallHash decision)
          (OutcomeForApproval (Approved decision)) (ID caller) journal).

(** approve and reject differ by the controller's method (and reject's span). *)
Definition decide_route (op : string → string → prog treply (result RunError ApprovalDecision))
    (h : RunControllerHandlers) (caller : option Caller) (runID : string) (body : option string)
  : RM RunResponse :=
  match body with
  | None => mret BadBody
  | Some hash =>
      if sempty hash then mret FieldsRequired else
      match approver caller with
      | Err resp => mret resp
      | Ok c =>
          owned ← ownedRun caller runID;
          match owned with
          | Err resp => mret resp
          | Ok wfID =>
              decision ← of_temporal (op wfID hash);
              match decision with
              | Err e => mret (ControllerFailed e)
              | Ok decision => respondToApproval h (callerTenantOrEmpty caller) runID c decision
              end
          end
      end
  end.
Definition approve := decide_route Approve.
Definition reject := decide_route Reject.

(** *** The stream *)

Definition isTerminal (s : string) : bool :=
  String.eqb s "SUCCEEDED" || String.eqb s "FAILED" || String.eqb s "CANCELLED".

(** How a stream ended; [StillOpen] is the fuel of the model. *)
Inductive stream_end := Refused (r : RunResponse) | Failed | Finished | ClientLeft | StillOpen.

Fixpoint stream_loop (fuel : nat) (h : RunControllerHandlers) (wfID tenant last : string) : RM stream_end :=
  match fuel with
  | O => mret StillOpen
  | S fuel =>
      s ← of_temporal (Status_ (rh_Controller h) wfID tenant);
      match s with
      | Err e => _ ← ask (REvent (ErrorEvent e)); mret Failed
      | Ok s =>
          let state := RunController.st_Status s in
          _ ← (if bool_decide (state = last) then mret tt else ask (REvent (DataEvent s)));
          if isTerminal state then mret Finished
          else gone ← ask RWait;
               if gone : bool then mret ClientLeft else stream_loop fuel h wfID tenant state
      end
  end.

(** The writer is a [http.Flusher]. *)
Definition stream (fuel : nat) (h : RunControllerHandlers) (caller : option Caller) (runID : string)
  : RM stream_end :=
  owned ← ownedRun caller runID;
  match owned with
  | Err resp => mret (Refused resp)
  | Ok wfID => stream_loop fuel h wfID (callerTenantOrEmpty caller) ""
  end.

(** ** Which runs a route touches *)

(** The routes that name a run, with the streamed one's fuel. *)
Inductive route :=
| GetStatus | PostCancel | PostPause | PostResume
| PostApprove (body : option string) | PostReject (body : option string)
| GetStream (fuel : nat).

Definition answered {A} (f : A → RunResponse + stream_end) (m : RM A) : RM (RunResponse + stream_end) :=
  r ← m; mret (f r).

Definition by_route (h : RunControllerHandlers) (caller : option Caller) (runID : string) (rt : route)
  : RM (RunResponse + stream_end) :=
  match rt with
  | GetStatus => answered inl (status h caller runID)
  | PostCancel => answered inl (cancel caller runID)
  | PostPause => answered inl (pause caller runID)
  | PostResume => answered inl (resume caller runID)
  | PostApprove body => answered inl (approve h caller runID body)
  | PostReject body => answered inl (reject h caller runID body)
  | GetStream fuel => answered inr (stream fuel h caller runID)
  end.

(** A call about one run, and about what its tenant keeps of it. *)
Definition touches (tenant runID : string) (c : rcall) : Prop :=
  match c with
  | RTemporal (TDescribe wf | TQuery wf _ | TSignal wf _ _ | TCancel wf | THistory wf) =>
      wf = workflowID runID
  | RTemporal (TSpend tn run) => tn = tenant ∧ run = runID
  | RTemporal (TExecute _ _ _ _ _) => False
  | RAppend tn e => tn = tenant ∧ Checkpoint.RunID e = runID
  | RAgent _ => False
  | REvent _ | RWait => True
  end.

Lemma emits_of_temporal {A} (m : prog treply A) c :
  emits (of_temporal m) c ↔ ∃ c', c = RTemporal c' ∧ emits m c'.
Proof.
  induction m as [a|c0 k IH]; simpl; [naive_solver|]. setoid_rewrite IH. naive_solver.
Qed.

Lemma within_temporal {A} P (m : prog treply A) :
  within (λ c, P (RTemporal c)) m → within P (of_temporal m).
Proof. intros Hm c (c' & -> & Hc)%emits_of_temporal. by apply Hm. Qed.

Ltac within_step :=
  first [ apply within_ret | apply within_temporal | apply within_vis; [|intros ?]
        | apply within_bind; [|intros ?] | case_match | split ]; simpl; try done.

Lemma within_running P wf :
  P (TQuery wf "is_paused") → P (TQuery wf "pending_approval") → within P (running_queries wf).
Proof. intros Hp Hq. unfold running_queries, PendingApproval. repeat within_step. Qed.

Lemma within_Status c tenant runID :
  within (λ c, touches tenant runID (RTemporal c)) (Status_ c (workflowID runID) tenant).
Proof.
  unfold Status_, addLedgerSpend, failureOf, workflowID. rewrite trim_prefix_app.
  repeat first [apply within_running; done|within_step].
Qed.

Lemma within_decision tenant runID name hash approved :
  within (λ c, touches tenant runID (RTemporal c))
    (sendApprovalDecision (workflowID runID) name hash approved).
Proof. unfold sendApprovalDecision, PendingApproval. repeat within_step. Qed.

Lemma within_stream fuel h tenant runID last :
  within (touches tenant runID) (stream_loop fuel h (workflowID runID) tenant last).
Proof.
  revert last. induction fuel as [|fuel IH]; intros last; [apply within_ret|]. cbn [stream_loop].
  apply within_bind; [apply within_temporal, within_Status|]. intros [s|e]; repeat within_step.
Qed.

Lemma within_respond h tenant runID c d : within (touches tenant runID) (respondToApproval h tenant runID c d).
Proof. unfold respondToApproval, journalApproval. repeat within_step. Qed.

(** What the ownership check leaves behind. *)
Lemma ownedRun_histories caller runID t r :
  histories (ownedRun caller runID) t r →
  (caller = None ∧ t = [] ∧ r = Err Unauthenticated) ∨
  ∃ c reply, caller = Some c ∧ t = [existT (RTemporal (TDescribe (workflowID runID))) reply] ∧
    (r = Err NoSuchRun ∧ (∀ desc, reply = Ok desc → tenant_of_memo (desc_memo desc) ≠ Ok (Tenant c)) ∨
     r = Ok (workflowID runID) ∧ ∃ desc, reply = Ok desc ∧ tenant_of_memo (desc_memo desc) = Ok (Tenant c)).
Proof.
  destruct caller as [c|]; [|by intros [-> ->]; left]. intros (reply & t' & -> & -> & ->).
  right. exists c, reply. split_and!; [done..|].
  destruct reply as [desc|msg]; simpl; [|by left].
  destruct (tenant_of_memo (desc_memo desc)) as [owner|] eqn:Ho; simpl.
  2: { left. split; [done|]. intros ? [= <-]. by rewrite Ho. }
  case_bool_decide as Heq; [right; split; [done|]; exists desc; by subst|].
  left. split; [done|]. intros ? [= <-]. rewrite Ho. congruence.
Qed.

(** A history of a program about an owned run: one description shows the caller's
    tenant owns it, and all that follows touches this run alone. *)
Definition owned_history (caller : option Caller) (runID : string) (t : list {c : rcall & rreply c}) : Prop :=
  ∃ c desc rest, caller = Some c ∧
    t = existT (RTemporal (TDescribe (workflowID runID))) (Ok desc) :: rest ∧
    tenant_of_memo (desc_memo desc) = Ok (Tenant c) ∧
    ∀ x, x ∈ rest → touches (Tenant c) runID (projT1 x).

(** A refusal: nothing was asked, or only whose run it is. *)
Definition turned_away (runID : string) (t : list {c : rcall & rreply c}) (resp : RunResponse) : Prop :=
  (t = [] ∧ (resp = BadBody ∨ resp = FieldsRequired ∨ resp = Unauthenticated ∨ ∃ id, resp = MayNotApprove id)) ∨
  ∃ reply, t = [existT (RTemporal (TDescribe (workflowID runID))) reply] ∧ resp = NoSuchRun.

Lemma owned_gate {A} (f : RunResponse → A) (k : string → RM A) caller runID t a :
  (∀ c, caller = Some c → within (touches (Tenant c) runID) (k (workflowID runID))) →
  histories (owned ← ownedRun caller runID; match owned with Err resp => mret (f resp) | Ok wfID => k wfID end) t a →
  owned_history caller runID t ∨ ∃ resp, turned_away runID t resp ∧ a = f resp.
Proof.
  intros Hk Ht. apply histories_bind in Ht as (owned & t1 & t2 & -> & Ho & Ht).
  apply ownedRun_histories in Ho as [(-> & -> & ->)|(c & reply & -> & -> & [[-> _]|(-> & desc & -> & Hm)])].
  - destruct Ht as [-> ->]. right. exists Unauthenticated. split; [left; auto|done].
  - destruct Ht as [-> ->]. right. exists NoSuchRun. split; [right; by exists reply|done].
  - left. exists c, desc, t2. split_and!; [done..|]. intros x Hx.
    eapply Hk; [done|]. by eapply histories_emits.
Qed.

Lemma answered_histories {A} (f : A → RunResponse + stream_end) (m : RM A) t a :
  histories (answered f m) t a → ∃ r, histories m t r ∧ a = f r.
Proof.
  intros (r & t1 & t2 & -> & Hm & -> & ->)%histories_bind. exists r. by rewrite app_nil_r.
Qed.

Lemma decide_gate op h caller runID body t resp :
  (∀ tenant hash, within (λ c, touches tenant runID (RTemporal c)) (op (workflowID runID) hash)) →
  histories (decide_route op h caller runID body) t resp →
  owned_history caller runID t ∨ turned_away runID t resp.
Proof.
  intros Hop Ht. unfold decide_route in Ht.
  destruct body as [hash|]; [|destruct Ht as [-> ->]; right; left; eauto 6].
  destruct (sempty hash); [destruct Ht as [-> ->]; right; left; naive_solver|].
  unfold approver in Ht. destruct caller as [c|]; [|destruct Ht as [-> ->]; right; left; eauto 6].
  destruct (MayApprove c); [|destruct Ht as [-> ->]; right; left; eauto 6].
  apply (owned_gate id) in Ht as [?|(r & ? & ->)]; [by left|by right|].
  intros c' [= <-]. apply within_bind; [apply within_temporal, Hop|].
  intros [d|e]; [apply within_respond|apply within_ret].
Qed.

(** C4. A run is reached by its own tenant only. Whatever route is asked, either
    Temporal's record of the run names the caller's tenant and every call that
    follows is about this run and this tenant's ledger and journal, or nothing
    was asked beyond whose run it is, and then a run of another tenant and a run
    that does not exist are answered alike. *)
Theorem runs_stay_in_their_tenant h caller runID rt t resp :
  histories (by_route h caller runID rt) t resp →
  owned_history caller runID t ∨
  ∃ r, turned_away runID t r ∧ (resp = inl r ∨ resp = inr (Refused r)).
Proof.
  destruct rt as [| | | |body|body|fuel]; simpl; intros (r & Ht & ->)%answered_histories.
  1: apply (owned_gate id) in Ht as [?|(r' & ? & ->)]; [by left|right; exists r'; auto|].
  2-4: apply (owned_gate id) in Ht as [?|(r' & ? & ->)]; [by left|right; exists r'; auto|].
  5,6: apply decide_gate in Ht as [?|?]; [by left|right; exists r; auto|].
  7: apply (owned_gate Refused) in Ht as [?|(r' & ? & ->)]; [by left|right; exists r'; auto|].
  - intros c ->. apply within_bind; [apply within_temporal, within_Status|]. intros [s|e]; apply within_ret.
  - intros c ->. apply within_bind; [apply within_temporal|intros [s|e]; apply within_ret].
    unfold Cancel. repeat within_step.
  - intros c ->. apply within_bind; [apply within_temporal|intros [s|e]; apply within_ret].
    unfold Pause, signal. repeat within_step.
  - intros c ->. apply within_bind; [apply within_temporal|intros [s|e]; apply within_ret].
    unfold Resume, signal. repeat within_step.
  - intros tenant hash. apply within_decision.
  - intros tenant hash. apply within_decision.
  - intros c ->. apply within_stream.
Qed.

(** ** Decisions *)

Definition signal_name (approved : bool) : string := if approved then "approve" else "reject".
Definition decision_signal (runID : string) (approved : bool) (pending : gmap string any) (hash : string) : rcall :=
  RTemporal (TSignal (workflowID runID) (signal_name approved)
    (Some (<["tool_call_hash" := AString hash]> {["approval_id" := mget pending "approval_id"]}))).
Definition decision_of (approved : bool) (pending : gmap string any) (hash : string) : ApprovalDecision :=
  {| ApprovalID := stringField pending "approval_id"; NodeID := stringField pending "node_id";
     ToolCallHash := hash; Approved := approved |}.
Definition decide_approval (approved : bool) := if approved then approve else reject.

(** The calls about a decision: whose run it is, what it waits for, and the decision. *)
Definition describes (runID : string) (d : result string description) : {c : rcall & rreply c} :=
  existT (P := rreply) (RTemporal (TDescribe (workflowID runID))) d.
Definition asks_pending (runID : string) (v : result string payload) : {c : rcall & rreply c} :=
  existT (P := rreply) (RTemporal (TQuery (workflowID runID) "pending_approval")) v.
Definition signals (runID : string) (approved : bool) (pending : gmap string any) (hash : string) (s : result string ())
  : {c : rcall & rreply c} := existT (P := rreply) (decision_signal runID approved pending hash) s.

(** What the journal is asked after a decision was taken, and what is said of it:
    nothing when there is no journal, the approval has no name or its record cannot be
    written, else one append. *)
Definition journals (h : RunControllerHandlers) (c : Caller) (runID : string) (d : ApprovalDecision)
    (t : list {c : rcall & rreply c}) (j : approvalJournalResult) : Prop :=
  (t = [] ∧ aj_Journalled j = false ∧
     (rh_Checkpointer h = false ∨ ApprovalID d = "" ∨ ∃ e, approval_payload c d = Err e)) ∨
  ∃ payload (r : result AppendError AppendResult),
    rh_Checkpointer h = true ∧ ApprovalID d ≠ "" ∧ approval_payload c d = Ok payload ∧
    t = [existT (P := rreply) (RAppend (Tenant c) (approval_entry runID d payload)) r] ∧ aj_Journalled j = is_ok r.

(** Everything a decision can be: the calls it makes, with their answers, and the
    response. *)
Inductive decision_history (approved : bool) (h : RunControllerHandlers) (caller : option Caller) (runID : string)
    (body : option string) : list {c : rcall & rreply c} → RunResponse → Prop :=
| d_unreadable : body = None → decision_history approved h caller runID body [] BadBody
| d_no_hash : body = Some "" → decision_history approved h caller runID body [] FieldsRequired
| d_no_caller hash : body = Some hash → hash ≠ "" → caller = None → decision_history approved h caller runID body [] Unauthenticated
| d_may_not hash c :
    body = Some hash → hash ≠ "" → caller = Some c → MayApprove c = false →
    decision_history approved h caller runID body [] (MayNotApprove (ID c))
| d_not_theirs hash c d :
    body = Some hash → hash ≠ "" → caller = Some c → MayApprove c = true →
    (∀ desc, d = Ok desc → tenant_of_memo (desc_memo desc) ≠ Ok (Tenant c)) →
    decision_history approved h caller runID body [describes runID d] NoSuchRun
| d_nothing_pending hash c desc v e :
    body = Some hash → hash ≠ "" → caller = Some c → MayApprove c = true →
    tenant_of_memo (desc_memo desc) = Ok (Tenant c) →
    (∀ p pending, v = Ok p → get_map p ≠ Some (Some pending)) →
    decision_history approved h caller runID body [describes runID (Ok desc); asks_pending runID v] (ControllerFailed e)
| d_not_taken hash c desc p pending msg e :
    body = Some hash → hash ≠ "" → caller = Some c → MayApprove c = true →
    tenant_of_memo (desc_memo desc) = Ok (Tenant c) → get_map p = Some (Some pending) →
    decision_history approved h caller runID body
      [describes runID (Ok desc); asks_pending runID (Ok p); signals runID approved pending hash (Err msg)] (ControllerFailed e)
| d_taken hash c desc p pending journalled j :
    body = Some hash → hash ≠ "" → caller = Some c → MayApprove c = true →
    tenant_of_memo (desc_memo desc) = Ok (Tenant c) → get_map p = Some (Some pending) →
    journals h c runID (decision_of approved pending hash) journalled j →
    decision_history approved h caller runID body
      (describes runID (Ok desc) :: asks_pending runID (Ok p) :: signals runID approved pending hash (Ok tt) :: journalled)
      (Decided (ApprovalID (decision_of approved pending hash)) hash (OutcomeForApproval approved) (ID c) j).

Lemma decision_histories (approved : bool) runID hash t r :
  histories (of_temporal ((if approved then Approve else Reject) (workflowID runID) hash)) t r →
  ∃ v, (t = [asks_pending runID v] ∧ (∀ p pending, v = Ok p → get_map p ≠ Some (Some pending)) ∧ ∃ e, r = Err e) ∨
    ∃ p pending s, v = Ok p ∧ get_map p = Some (Some pending) ∧
      t = [asks_pending runID v; signals runID approved pending hash s] ∧
      match s with Ok _ => r = Ok (decision_of approved pending hash) | Err _ => ∃ e, r = Err e end.
Proof.
  intros Ht.
  assert (histories (of_temporal (sendApprovalDecision (workflowID runID) (signal_name approved) hash approved)) t r)
    as (v & t' & -> & Hk) by (by destruct approved). clear Ht. exists v.
  destruct v as [p|msg]; simpl in Hk; [|destruct Hk as [-> ->]; left; eauto].
  destruct (get_map p) as [[pending|]|] eqn:Hp; simpl in Hk;
    try (destruct Hk as [-> ->]; left; split_and!; [done| |by eexists]; by intros ?? [= <-]; rewrite Hp).
  destruct Hk as (s & t'' & -> & -> & ->). right. exists p, pending, s. split_and!; [done..|].
  destruct s; eauto.
Qed.

Lemma journal_histories h runID c d t j :
  histories (journalApproval h (Tenant c) runID c d) t j → journals h c runID d t j.
Proof.
  unfold journalApproval, journals. destruct (rh_Checkpointer h); [|intros [-> ->]; left; auto].
  destruct (sempty (ApprovalID d)) eqn:Hid; [apply sempty_true in Hid; intros [-> ->]; left; auto|].
  apply sempty_false in Hid.
  destruct (approval_payload c d) as [payload|e]; [|intros [-> ->]; left; eauto 6].
  intros (r & t' & -> & -> & ->). right. exists payload, r. split_and!; [done..|]. by destruct r.
Qed.

(** C16. A decision is signalled once, then journalled once, by someone who may: no
    call is made for a body that names no hash, without a caller, or for a caller that
    may not approve; one, whose run it is, when the run is not the tenant's; nothing is
    signalled when the run waits for no approval; and otherwise exactly one signal is
    sent, with the approval Temporal answered and the hash that was named, and only when
    Temporal took it is that decision appended to the tenant's journal, once, under the
    approval's own step with the caller's name. The answer says decided exactly when it
    was taken, and journalled exactly when the append succeeded. *)
Theorem decisions_are_signalled_then_journalled (approved : bool) h caller runID body t resp :
  histories (decide_approval approved h caller runID body) t resp →
  decision_history approved h caller runID body t resp.
Proof.
  intros Ht.
  assert (histories (decide_route (if approved then Approve else Reject) h caller runID body) t resp) as Ht'
    by (by destruct approved). clear Ht. unfold decide_route in Ht'.
  destruct body as [hash|]; [|destruct Ht' as [-> ->]; by constructor].
  destruct (sempty hash) eqn:Hh; [apply sempty_true in Hh as ->; destruct Ht' as [-> ->]; by constructor|].
  apply sempty_false in Hh. unfold approver in Ht'.
  destruct caller as [c|]; [|destruct Ht' as [-> ->]; by econstructor].
  destruct (MayApprove c) eqn:Hmay; [|destruct Ht' as [-> ->]; by econstructor].
  apply histories_bind in Ht' as (owned & t1 & t2 & -> & Ho & Ht).
  apply ownedRun_histories in Ho as [(? & _)|(c' & d & [= <-] & -> & [[-> Hno]|(-> & desc & -> & Hm)])]; [done| |].
  { destruct Ht as [-> ->]. by eapply d_not_theirs. }
  apply histories_bind in Ht as (r & t3 & t4 & -> & Hd & Ht).
  apply decision_histories in Hd as (v & [(-> & Hv & e & ->)|(p & pending & s & -> & Hp & -> & Hs)]).
  { destruct Ht as [-> ->]. by eapply d_nothing_pending. }
  destruct s as [[]|msg]; [|destruct Hs as [e ->]; destruct Ht as [-> ->]; by eapply d_not_taken].
  subst r. simpl in Ht. apply histories_bind in Ht as (j & t5 & t6 & -> & Hj%journal_histories & [-> ->]).
  rewrite app_nil_r. by eapply d_taken.
Qed.

(** ** Starting *)

Lemma checkNotQuarantined_histories tenant ref name version t q :
  cut at_sign ref = Some (name, version) →
  histories (checkNotQuarantined (Some tenant) ref) t q →
  ∃ row, t = [existT (RAgent (ASelect (tenant, name, version))) row] ∧
    q = match match row : result (option refusal) (option agent_row) with
              | Err e => Err (StoreFailed "scan agent" e) | Ok row => scanAgentRow name version row end with
        | Err _ => None | Ok rec => if Quarantined rec then Some (QuarantineReason rec) else None end.
Proof.
  intros Hcut. unfold checkNotQuarantined. rewrite Hcut.
  destruct (sempty ref) eqn:He; [by apply sempty_true in He as ->|].
  intros (row & t' & -> & -> & ->). exists row. done.
Qed.

Definition select_reply (x : {c : rcall & rreply c})
  : option (AgentRegistry.akey * result (option Program.refusal) (option agent_row)) :=
  match x with existT (RAgent (ASelect k)) r => Some (k, r) | _ => None end.

(** A version the registry answers as quarantined is not started: Temporal is
    not asked, and the answer carries the reason. Every run that is started
    carries the caller's tenant in its memo and the id the caller chose. *)
Theorem quarantined_versions_do_not_start h c b name version t resp :
  cut at_sign (sr_AgentManifestRef b) = Some (name, version) → rh_Registry h = true → Tenant c ≠ "" →
  histories (start h (Some c) (Some b)) t resp →
  (∀ row, existT (RAgent (ASelect (Tenant c, name, version))) (Ok (Some row)) ∈ t →
     readable row → ag_quarantined row = true →
     resp = AgentQuarantined (sr_AgentManifestRef b) (default "" (ag_reason row)) ∧
     ∀ x, x ∈ t → match projT1 x with RTemporal _ => False | _ => True end) ∧
  (∀ id queue memo type input r, existT (RTemporal (TExecute id queue memo type input)) r ∈ t →
     id = workflowID (sr_RunID b) ∧ memo = {[TenantMemoKey := AString (Tenant c)]}).
Proof.
  intros Hcut Hreg Hten Ht. unfold start in Ht.
  destruct (_ || _); [destruct Ht as [-> _]; split; intros; exfalso; by eapply not_elem_of_nil|].
  unfold registryForCaller in Ht. simpl in Ht. rewrite Hreg in Ht.
  rewrite (proj2 (sempty_false (Tenant c)) Hten) in Ht. simpl in Ht.
  apply histories_bind in Ht as (q & t1 & t2 & -> & Hq & Ht).
  apply (checkNotQuarantined_histories _ _ _ _ _ _ Hcut) in Hq as (row & -> & ->). split.
  - intros r Hin [m Hm] Hqr.
    assert (row = Ok (Some r)) as ->.
    { apply elem_of_cons in Hin as [Hin%(f_equal select_reply)|Hin]; [by simplify_eq/=|]. exfalso.
      assert (∀ x, x ∈ t2 → match projT1 x with RAgent _ => False | _ => True end) as Hno.
      { intros x Hx. destruct (match match row with Ok _ => _ | _ => _ end with Ok _ => _ | _ => _ end).
        - destruct Ht as [-> _]. by apply not_elem_of_nil in Hx.
        - destruct Ht as (r1 & t' & -> & -> & _). apply elem_of_cons in Hx as [->|Hx]; [done|].
          by apply not_elem_of_nil in Hx. }
      exact (Hno _ Hin). }
    unfold scanAgentRow in Ht. rewrite Hm in Ht. simpl in Ht. rewrite Hqr in Ht.
    destruct Ht as [-> ->]. split; [done|]. intros x [->|Hx]%elem_of_cons; [done|].
    by apply not_elem_of_nil in Hx.
  - intros id queue memo type input r [Hin|Hin]%elem_of_cons; [done|].
    destruct (match match row with Ok _ => _ | _ => _ end with Ok _ => _ | _ => _ end).
    + destruct Ht as [-> _]. by apply not_elem_of_nil in Hin.
    + destruct Ht as (r1 & t' & -> & -> & _). apply elem_of_cons in Hin as [Heq|Hx].
      * by simplify_eq.
      * by apply not_elem_of_nil in Hx.
Qed.

(** *** The separator of a manifest reference *)

Lemma cut_app c s r : cut c s = None → cut c (s +:+ String c r) = Some (s, r).
Proof.
  induction s as [|a s IH]; intros Hs; cbn [cut String.append] in *.
  - change ("" +:+ String c r) with (String c r). cbn [cut]. by rewrite Ascii.eqb_refl.
  - change (String a s +:+ String c r) with (String a (s +:+ String c r)). cbn [cut].
    destruct (Ascii.eqb a c); [done|]. destruct (cut c s); [done|]. by rewrite IH.
Qed.
Lemma cut_longer c s p q r : cut c s = Some (p, q) → cut c (s +:+ r) = Some (p, q +:+ r).
Proof.
  revert p. induction s as [|a s IH]; intros p; cbn [cut]; [done|].
  change (String a s +:+ r) with (String a (s +:+ r)). cbn [cut].
  destruct (Ascii.eqb a c); [by intros [= <- <-]|].
  destruct (cut c s) as [[p' q']|]; [|done]. intros [= <- <-]. by rewrite (IH p').
Qed.
Lemma cut_shorter c s p q : cut c s = Some (p, q) → (slen p < slen s)%nat.
Proof.
  revert p. induction s as [|a s IH]; intros p; cbn [cut]; [done|].
  destruct (Ascii.eqb a c); [intros [= <- <-]; simpl; lia|].
  destruct (cut c s) as [[p' q']|]; [|done]. intros [= <- <-]. specialize (IH p' eq_refl).
  unfold slen in *. simpl. lia.
Qed.

Lemma last_index_absent i c v : cut c v = None → last_index_from i c v = None.
Proof.
  revert i. induction v as [|a v IH]; intros i; cbn [cut last_index_from]; [done|].
  destruct (Ascii.eqb_spec a c) as [->|Hne]; [done|]. destruct (cut c v); [done|]. intros _.
  rewrite IH by done. by rewrite bool_decide_eq_false_2.
Qed.
Lemma last_index_last i c s v :
  cut c v = None → last_index_from i c (s +:+ String c v) = Some (i + slen s)%nat.
Proof.
  intros Hv. revert i. induction s as [|a s IH]; intros i.
  - change ("" +:+ String c v) with (String c v). cbn [last_index_from].
    rewrite last_index_absent by done. rewrite bool_decide_eq_true_2 by done. f_equal. unfold slen. simpl. lia.
  - change (String a s +:+ String c v) with (String a (s +:+ String c v)). cbn [last_index_from].
    rewrite IH. f_equal. unfold slen. simpl. lia.
Qed.
Lemma drop_str_sep s c v : drop_str (S (slen s)) (s +:+ String c v) = v.
Proof. induction s as [|d s IH]; [by destruct v|exact IH]. Qed.

Lemma splitManifestRef_joined name version :
  name ≠ "" → version ≠ "" → cut at_sign version = None →
  splitManifestRef (name +:+ String at_sign version) = Some (name, version).
Proof.
  intros Hn Hv Hc. unfold splitManifestRef, last_index. fold at_sign.
  rewrite last_index_last by done. simpl.
  destruct name as [|a name]; [done|]. change (slen (String a name)) with (S (slen name)).
  assert (slen (String a name +:+ String at_sign version) = S (slen name) + S (slen version))%nat as Hlen.
  { clear. change (S (slen name)) with (slen (String a name)). generalize (String a name). intros s.
    induction s as [|b s IH]; [done|]. unfold slen in *.
    change (String b s +:+ String at_sign version) with (String b (s +:+ String at_sign version)).
    cbn [String.length]. lia. }
  rewrite Hlen. destruct version as [|b version]; [done|].
  replace (S (slen name) =? S (slen name) + S (slen (String b version)) - 1)%nat with false
    by (symmetry; apply Nat.eqb_neq; unfold slen; simpl; lia).
  f_equal. f_equal.
  - apply (take_str_app (String a name)).
  - apply (drop_str_sep (String a name)).
Qed.

(** The quarantine is looked up around the first [@] of a reference and the
    ceiling around the last: for an agent whose name holds one, the gateway reads
    the name and version that were registered, while starting a run asks about
    another key, so no row of that version can refuse it. *)
Theorem quarantine_misses_names_with_at h c b name n1 n2 version :
  cut at_sign name = Some (n1, n2) → version ≠ "" → cut at_sign version = None →
  sr_AgentManifestRef b = name +:+ String at_sign version →
  splitManifestRef (sr_AgentManifestRef b) = Some (name, version) ∧
  ∀ c', emits (start h (Some c) (Some b)) (RAgent c') → key_of c' ≠ (Tenant c, name, version).
Proof.
  intros Hcut Hv Hnv Href. rewrite Href. split.
  { apply splitManifestRef_joined; [by intros ->|done|done]. }
  intros c' Hc. unfold start in Hc. destruct (_ || _); [done|].
  apply emits_bind in Hc as [Hc|(q & _ & Hc)].
  - unfold checkNotQuarantined, registryForCaller in Hc.
    destruct (_ || _); [done|]. destruct (sempty _); [done|].
    rewrite Href, (cut_longer _ _ _ _ _ Hcut) in Hc. simpl in Hc.
    destruct Hc as [[= ->]|[_ []]]. simpl. intros [= Hn _]. apply cut_shorter in Hcut. rewrite Hn in Hcut. lia.
  - destruct q; [done|]. simpl in Hc. by destruct Hc as [Hc|[_ []]].
Qed.

(** ** The stream *)

(** A run Temporal has closed. *)
Definition closed (s : WorkflowExecutionStatus) : Prop :=
  s = STATUS_COMPLETED ∨ s = STATUS_FAILED ∨ s = STATUS_CANCELED ∨ s = STATUS_TERMINATED ∨ s = STATUS_TIMED_OUT.
#[global] Instance closed_dec s : Decision (closed s).
Proof. unfold closed. apply _. Defined.

(** How the schema names what Temporal says of a run: for one that goes on, what the
    workflow answers about itself decides. *)
Inductive named (rest : list {c : rcall & rreply c}) (wf : string) : WorkflowExecutionStatus → string → Prop :=
| named_completed : named rest wf STATUS_COMPLETED "SUCCEEDED"
| named_canceled : named rest wf STATUS_CANCELED "CANCELLED"
| named_failed : named rest wf STATUS_FAILED "FAILED"
| named_terminated : named rest wf STATUS_TERMINATED "FAILED"
| named_timed_out : named rest wf STATUS_TIMED_OUT "FAILED"
| named_other n : named rest wf (STATUS_other n) "PENDING"
| named_awaiting v p pending more :
    rest = existT (P := rreply) (RTemporal (TQuery wf "is_paused")) v ::
           existT (P := rreply) (RTemporal (TQuery wf "pending_approval")) (Ok p) :: more →
    get_map p = Some (Some pending) → named rest wf STATUS_RUNNING "PAUSED_FOR_APPROVAL"
| named_going v q (paused : bool) more :
    rest = existT (P := rreply) (RTemporal (TQuery wf "is_paused")) v ::
           existT (P := rreply) (RTemporal (TQuery wf "pending_approval")) q :: more →
    (∀ p pending, q = Ok p → get_map p ≠ Some (Some pending)) →
    (paused = true ↔ ∃ p, v = Ok p ∧ get_bool p = Some true) →
    named rest wf STATUS_RUNNING (if paused then "PAUSED" else "RUNNING").

(** One look at the run: described first, then read, and nothing but Temporal and the
    ledger is asked. *)
Definition look (wf : string) (t : list {c : rcall & rreply c}) (desc : description) (s : RunController.Status) : Prop :=
  ∃ rest, t = existT (P := rreply) (RTemporal (TDescribe wf)) (Ok desc) :: rest ∧
    named rest wf (desc_status desc) (st_Status s) ∧ st_WorkflowID s = wf ∧
    ∀ x, x ∈ rest → match projT1 x with RTemporal (TDescribe _) => False | RTemporal _ => True | _ => False end.

(** A state is shown when it is not the one shown before. *)
Definition shown (last : string) (s : RunController.Status) : list {c : rcall & rreply c} :=
  if decide (st_Status s = last) then [] else [existT (P := rreply) (REvent (DataEvent s)) tt].

(** What the client of a stream sees, look by look. *)
Inductive watched (wf : string) : string → list {c : rcall & rreply c} → stream_end → Prop :=
| w_open last : watched wf last [] StillOpen
| w_unreadable last msg :
    watched wf last [existT (P := rreply) (RTemporal (TDescribe wf)) (Err msg);
                     existT (P := rreply) (REvent (ErrorEvent (DescribeFailed msg))) tt] Failed
| w_over last t desc s :
    look wf t desc s → closed (desc_status desc) → watched wf last (t ++ shown last s)%list Finished
| w_left last t desc s :
    look wf t desc s → (¬ closed (desc_status desc)) →
    watched wf last (t ++ shown last s ++ [existT (P := rreply) RWait true])%list ClientLeft
| w_on last t desc s t' e :
    look wf t desc s → (¬ closed (desc_status desc)) → watched wf (st_Status s) t' e →
    watched wf last (t ++ shown last s ++ existT (P := rreply) RWait false :: t')%list e.

(** How often Temporal was asked what the run is doing. *)
Definition is_look (x : {c : rcall & rreply c}) : bool :=
  match projT1 x with RTemporal (TDescribe _) => true | _ => false end.
Definition looks (t : list {c : rcall & rreply c}) : nat := length (List.filter is_look t).

Lemma looks_app t1 t2 : looks (t1 ++ t2)%list = (looks t1 + looks t2)%nat.
Proof. unfold looks. by rewrite List.filter_app, length_app. Qed.
Lemma looks_none t : (∀ x, x ∈ t → is_look x = false) → looks t = 0%nat.
Proof.
  intros Hx. unfold looks. induction t as [|x t IH]; [done|]. simpl. rewrite (Hx x) by left.
  apply IH. intros y Hy. apply Hx. by right.
Qed.
Lemma looks_shown last s : looks (shown last s) = 0%nat.
Proof. unfold shown. by case_decide. Qed.
Lemma look_looks wf t desc s : look wf t desc s → looks t = 1%nat.
Proof.
  intros (rest & -> & _ & _ & Hr). unfold looks. simpl. f_equal. apply looks_none. intros x Hx.
  specialize (Hr x Hx). unfold is_look. by repeat case_match.
Qed.

Lemma closed_terminal s p a : isTerminal (mapStatus s p a) = bool_decide (closed s).
Proof. destruct s; simpl; [destruct a, p|..]; reflexivity. Qed.

Lemma of_temporal_histories {A} (m : prog treply A) t a :
  histories (of_temporal m) t a →
  ∃ t', histories m t' a ∧ t = (λ x, existT (P := rreply) (RTemporal (projT1 x)) (projT2 x)) <$> t'.
Proof.
  revert t. induction m as [a'|c k IH]; intros t; [intros [-> ->]; by exists []|].
  intros (r & t' & -> & (t2 & Ht2 & ->)%IH). exists (existT c r :: t2). split; [by exists r, t2|done].
Qed.

(** What a look finds: the run cannot be described, or it is read. *)
Lemma Status_look c wf tenant t r :
  histories (of_temporal (Status_ c wf tenant)) t r →
  (∃ msg, t = [existT (P := rreply) (RTemporal (TDescribe wf)) (Err msg)] ∧ r = Err (DescribeFailed msg)) ∨
  ∃ desc s p a, r = Ok s ∧ look wf t desc s ∧ st_Status s = mapStatus (desc_status desc) p a.
Proof.
  intros (t' & Hh & ->)%of_temporal_histories. destruct r as [s|e].
  - right. apply Status_histories in Hh as (desc & paused & pending & budgets & failure & t1 & v & t2 & t3 & -> & Hq & Hl & Hf & ->).
    eexists desc, _, _, _. split; [reflexivity|]. split; [|reflexivity]. eexists. split; [reflexivity|].
    split; [|split; [done|]].
    + cbn [st_Status]. destruct (desc_status desc) eqn:Hd; cbn [mapStatus]; try by constructor.
      rewrite decide_True in Hq by done. destruct Hq as (v1 & t' & -> & v2 & t'' & -> & -> & [= -> ->]).
      destruct v2 as [p|msg]; [destruct (get_map p) as [[m|]|] eqn:Hm|]; simpl; rewrite ?Hm;
        [by eapply named_awaiting| | |];
        (eapply named_going; [reflexivity|by intros ?? [= <-]; rewrite ?Hm|]);
        (destruct v1 as [p1|?]; simpl; [destruct (get_bool p1) as [[]|] eqn:Hb; simpl|]; (split; [try done|]);
         [eauto|done|intros (? & [= <-] & ?); congruence..|by intros (? & ? & _)]).
    + assert (∀ x, x ∈ (t1 ++ existT (TQuery wf "budgets_consumed") v :: t2 ++ t3)%list →
               match projT1 x with TDescribe _ => False | _ => True end) as Hx.
      { intros x. rewrite elem_of_app, elem_of_cons, elem_of_app. intros [Hin|[->|[Hin|Hin]]]; [| done| |].
        - eapply histories_emits in Hin; [|exact Hq]. revert Hin. case_decide; [|done].
          unfold running_queries, PendingApproval. simpl. intros [->|(? & [->|(? & [])])]; done.
        - eapply histories_emits in Hin; [|exact Hl]. revert Hin. unfold addLedgerSpend.
          destruct (_ || _); [done|]. simpl. by intros [->|(? & [])].
        - eapply histories_emits in Hin; [|exact Hf]. revert Hin. unfold failureOf.
          destruct (desc_status desc); simpl; try done; by intros [->|(? & [])]. }
      intros x ([c0 r0] & -> & Hin)%list_elem_of_fmap. specialize (Hx _ Hin). simpl in *. by destruct c0.
  - left. destruct Hh as (d & t1 & -> & Hk). destruct d as [desc|msg]; [exfalso|destruct Hk as [-> [= ->]]; by exists msg].
    simpl in Hk. apply histories_bind in Hk as ([paused pending] & t2 & t3 & _ & _ & Hk).
    destruct Hk as (v & t4 & _ & Hk). apply histories_bind in Hk as (b & t5 & t6 & _ & _ & Hk).
    by apply histories_bind in Hk as (f & t7 & t8 & _ & _ & [_ Hk]).
Qed.

Lemma stream_loop_watched fuel h wf tenant last t e :
  histories (stream_loop fuel h wf tenant last) t e →
  watched wf last t e ∧ (looks t ≤ fuel)%nat ∧ (e = StillOpen → looks t = fuel).
Proof.
  revert last t. induction fuel as [|fuel IH]; intros last t Ht.
  { destruct Ht as [-> ->]. split; [constructor|done]. }
  cbn [stream_loop] in Ht. apply histories_bind in Ht as (r & t1 & t2 & -> & Hs & Ht).
  apply Status_look in Hs as [(msg & -> & ->)|(desc & s & p & a & -> & Hlook & Hst)].
  { destruct Ht as (u & t' & -> & -> & ->). destruct u. split; [constructor|]. unfold looks; simpl. split; [lia|done]. }
  apply histories_bind in Ht as (u & t3 & t4 & -> & He & Ht).
  assert (t3 = shown last s) as ->.
  { unfold shown. case_bool_decide; case_decide; try done; [by destruct He as [-> _]|].
    destruct He as (u' & t' & -> & -> & _). by destruct u'. }
  rewrite looks_app, looks_app, looks_shown, (look_looks _ _ _ _ Hlook).
  rewrite Hst, closed_terminal, <- Hst in Ht. case_bool_decide as Hc.
  { destruct Ht as [-> ->]. rewrite app_nil_r. split; [by eapply w_over|]. unfold looks; simpl. split; [lia|done]. }
  destruct Ht as (gone & t' & -> & Ht). destruct gone.
  { destruct Ht as [-> ->]. split; [by eapply w_left|]. unfold looks; simpl. split; [lia|done]. }
  apply IH in Ht as (Hw & Hle & Hopen). change (looks (existT RWait false :: t')) with (looks t').
  split; [by eapply w_on|]. split; [lia|]. intros ->. by rewrite Hopen.
Qed.

(** A stream is finished exactly when a look found the run closed. *)
(** What Temporal described, if a call asked it. *)
Definition described (x : {c : rcall & rreply c}) : option (result string description) :=
  match x with existT (RTemporal (TDescribe _)) r => Some r | _ => None end.

Lemma watched_finished wf last t e :
  watched wf last t e →
  e = Finished ↔ ∃ desc, existT (P := rreply) (RTemporal (TDescribe wf)) (Ok desc) ∈ t ∧ closed (desc_status desc).
Proof.
  assert (Hlook : ∀ t desc s d, look wf t desc s → existT (P := rreply) (RTemporal (TDescribe wf)) (Ok d) ∈ t → d = desc).
  { intros t0 desc s d (rest & -> & _ & _ & Hr) [Heq%(f_equal described)|Hin]%elem_of_cons; [by simplify_eq/=|]. by specialize (Hr _ Hin). }
  assert (Hshown : ∀ last s d, existT (P := rreply) (RTemporal (TDescribe wf)) (Ok d) ∉ shown last s).
  { intros l s d. unfold shown. case_decide; [apply not_elem_of_nil|]. by intros [?|?%not_elem_of_nil]%elem_of_cons. }
  induction 1 as [last|last msg|last t desc s Hl Hc|last t desc s Hl Hc|last t desc s t' e Hl Hc Hw IH].
  - split; [done|]. intros (? & Hin & _). by apply not_elem_of_nil in Hin.
  - split; [done|]. intros (d & Hin & _). apply elem_of_cons in Hin as [Heq%(f_equal described)|Hin]; [by simplify_eq/=|].
    apply elem_of_cons in Hin as [?|Hin]; [done|by apply not_elem_of_nil in Hin].
  - split; [|done]. intros _. exists desc. split; [|done]. destruct Hl as (rest & -> & _). left.
  - split; [done|]. intros (d & Hin & Hd). rewrite !elem_of_app in Hin. destruct Hin as [Hin|[Hin|Hin]].
    + by rewrite (Hlook _ _ _ _ Hl Hin) in Hd.
    + by apply Hshown in Hin.
    + apply elem_of_cons in Hin as [?|Hin]; [done|by apply not_elem_of_nil in Hin].
  - rewrite IH. split; intros (d & Hin & Hd); exists d; (split; [|done]).
    + rewrite !elem_of_app, elem_of_cons. auto.
    + rewrite !elem_of_app, elem_of_cons in Hin. destruct Hin as [Hin|[Hin|[?|Hin]]]; [|by apply Hshown in Hin|done|done].
      by rewrite (Hlook _ _ _ _ Hl Hin) in Hd.
Qed.

(** C39. A stream is for the run's own tenant and follows the run: each look asks
    Temporal to describe it, and the state it finds, as Temporal's and the workflow's
    answers give it, is shown unless it was the last one shown. It stays open while
    Temporal says the run goes on and the client stays, it is finished exactly when a
    look found the run completed, failed, canceled, terminated or timed out, which is
    shown and is the last look, and it looks as often as it lasts: only as many looks
    as [fuel] leave it open. *)
Theorem stream_follows_the_run fuel h caller runID t e :
  histories (stream fuel h caller runID) t e →
  (∃ resp, turned_away runID t resp ∧ e = Refused resp) ∨
  ∃ c desc t', caller = Some c ∧ t = describes runID (Ok desc) :: t' ∧ tenant_of_memo (desc_memo desc) = Ok (Tenant c) ∧
    watched (workflowID runID) "" t' e ∧
    (e = Finished ↔ ∃ d, describes runID (Ok d) ∈ t' ∧ closed (desc_status d)) ∧
    (looks t' ≤ fuel)%nat ∧ (e = StillOpen → looks t' = fuel).
Proof.
  intros (owned & t1 & t2 & -> & Ho & Ht)%histories_bind.
  apply ownedRun_histories in Ho as [(-> & -> & ->)|(c & reply & -> & -> & [[-> _]|(-> & desc & -> & Hm)])].
  - destruct Ht as [-> ->]. left. exists Unauthenticated. split; [left; auto|done].
  - destruct Ht as [-> ->]. left. exists NoSuchRun. split; [right; by exists reply|done].
  - right. apply stream_loop_watched in Ht as (Hw & Hl & Ho). exists c, desc, t2.
    split_and!; [done..|by eapply watched_finished|done|done].
Qed.
End runs.

(** ** Two people decide at once *)

Module RunApiWitnesses.
Import RunController.RunWitnesses.
#[local] Existing Instance verbatim_postgres.
#[local] Existing Instance flat_json.

(** What Temporal took and what the journal and the registry hold. *)
Record rworld := {
  rw_signals : list rcall;
  rw_journal : gmap ckey row;
  rw_agents : gmap AgentRegistry.akey agent_row;
  rw_over : bool;   (** the run completed *)
}.
Definition with_signal (w : rworld) (c : rcall) : rworld :=
  {| rw_signals := (rw_signals w ++ [c])%list; rw_journal := rw_journal w; rw_agents := rw_agents w;
     rw_over := rw_over w |}.
Definition with_journal (w : rworld) (t : gmap ckey row) : rworld :=
  {| rw_signals := rw_signals w; rw_journal := t; rw_agents := rw_agents w; rw_over := rw_over w |}.
Definition finish (w : rworld) : rworld :=
  {| rw_signals := rw_signals w; rw_journal := rw_journal w; rw_agents := rw_agents w; rw_over := true |}.

(** A signal is taken as it comes; the workflow is told of it later. *)
Definition rserve (w : rworld) (c : rcall) : rworld * rreply c :=
  match c return rworld * rreply c with
  | RTemporal (TDescribe _) =>
      (w, Ok {| desc_status := if rw_over w then STATUS_COMPLETED else STATUS_RUNNING;
                desc_memo := Some {[TenantMemoKey := AString "t"]} |})
  | RTemporal (TSignal wf name arg) => (with_signal w (RTemporal (TSignal wf name arg)), Ok tt)
  | RTemporal c => (w, (serve_run tt c).2)
  | RAgent c => (w, (aserve 0 (rw_agents w) c).2)
  | RAppend tenant e => let '(t, r) := Append tenant 0 no_faults e (rw_journal w) in (with_journal w t, r)
  | REvent _ => (w, tt)
  | RWait => (finish w, false)
  end.

Definition person (id tenant : string) : Caller :=
  {| ID := id; Kind := KindHuman; TokenSHA256 := ""; MayActAs := []; MayApprove := true;
     Tenant := tenant; MayActForTenants := [] |}.
Definition hs : RunControllerHandlers :=
  {| rh_Controller := ctl; rh_Registry := true; rh_Checkpointer := true |}.
Definition empty_world : rworld :=
  {| rw_signals := []; rw_journal := ∅; rw_agents := ∅; rw_over := false |}.
Definition no_quote (s : string) : string := s.

Definition rsem (u : ()) (w : rworld) (c : rcall) (r : rreply c) (w' : rworld) : Prop := rserve w c = (w', r).
Lemma rserve_sem u w c : rsem u w c (rserve w c).2 (rserve w c).1.
Proof. unfold rsem. by destruct (rserve w c). Qed.

(** Alice approves and Bob rejects the same pending approval. *)
Definition both : gmap nat (() * prog rreply RunResponse) :=
  <[0%nat := (tt, approve no_quote hs (Some (person "alice" "t")) "r" (Some "h"))]>
  {[1%nat := (tt, reject no_quote hs (Some (person "bob" "t")) "r" (Some "h"))]}.
(** Both look, Alice's signal is sent, Bob's signal and record, Alice's record. *)
Definition schedule : list nat := [0; 0; 1; 1; 0; 1; 1; 0]%nat.
Definition later : rworld * gmap nat (() * prog rreply RunResponse) :=
  foldl (pick rserve) (empty_world, both) schedule.

Definition said (i : nat) : option RunResponse :=
  match later.2 !! i with Some (_, Ret r) => Some r | _ => None end.
Definition record_of_approval : option outcomeEnvelope :=
  (λ r, match row_payload r with
        | Some j => (unmarshal_envelope (RawDoc j)).1
        | None => zero_envelope end)
  <$> rw_journal later.1 !! (("t", "r", "", "approval:ap-1", PhaseCompleted) : ckey).

(** Two people may decide the same pending approval at once: both are
    answered that their decision was taken and journalled, Temporal has the
    approval first, and the one record of the step says it was denied by the
    other. *)
Theorem concurrent_decisions_contradict_the_journal :
  rtc (pool_step (T:=()) rsem (λ _, mret BadBody)) (empty_world, both) later ∧
  rw_signals later.1 = [decision_signal "r" true pending "h"; decision_signal "r" false pending "h"] ∧
  (∃ j, said 0 = Some (Decided "ap-1" "h" OutcomeApprovalGranted "alice" j) ∧ aj_Journalled j = true) ∧
  (∃ j, said 1 = Some (Decided "ap-1" "h" OutcomeApprovalDenied "bob" j) ∧ aj_Journalled j = true) ∧
  ∃ env, record_of_approval = Some env ∧ env_Outcome env = OutcomeApprovalDenied ∧ env_DecidedBy env = "bob".
Proof.
  split; [apply scheduled_steps; intros [] w c; apply rserve_sem|].
  split; [vm_compute; reflexivity|].
  split; [eexists; split; vm_compute; reflexivity|].
  split; [eexists; split; vm_compute; reflexivity|].
  eexists. split; [vm_compute; reflexivity|]. split; reflexivity.
Qed.

(** *** Instances *)

Definition alice : Caller := person "alice" "t".
Definition log {A} (w : rworld) (m : prog rreply A) : list {c : rcall & rreply c} := (run_log rserve w m).1.2.
Definition answer {A} (w : rworld) (m : prog rreply A) : A := (run_log rserve w m).2.
Lemma log_history {A} w (m : prog rreply A) : histories m (log w m) (answer w m).
Proof. apply run_log_histories. Qed.

(** Bob of another tenant asks to cancel. *)
Definition stranger : prog rreply (RunResponse + stream_end) :=
  by_route no_quote hs (Some (person "bob" "u")) "r" PostCancel.
Lemma runs_stay_in_their_tenant_witness :
  answer empty_world stranger = inl NoSuchRun ∧
  (owned_history (Some (person "bob" "u")) "r" (log empty_world stranger) ∨
   ∃ r, turned_away "r" (log empty_world stranger) r ∧
        (answer empty_world stranger = inl r ∨ answer empty_world stranger = inr (Refused r))).
Proof.
  split; [vm_compute; reflexivity|].
  exact (runs_stay_in_their_tenant no_quote hs (Some (person "bob" "u")) "r" PostCancel
           (log empty_world stranger) (answer empty_world stranger) (log_history empty_world stranger)).
Defined.

Definition deciding : prog rreply RunResponse :=
  decide_approval no_quote true hs (Some alice) "r" (Some "h").
Lemma deciding_journals :
  ∃ j, answer empty_world deciding = Decided "ap-1" "h" OutcomeApprovalGranted "alice" j ∧ aj_Journalled j = true.
Proof. eexists. split; vm_compute; reflexivity. Qed.
Lemma decisions_are_signalled_then_journalled_witness :
  decision_history no_quote true hs (Some alice) "r" (Some "h") (log empty_world deciding) (answer empty_world deciding).
Proof.
  exact (decisions_are_signalled_then_journalled no_quote true hs (Some alice) "r" (Some "h")
           (log empty_world deciding) (answer empty_world deciding) (log_history empty_world deciding)).
Defined.

(** A registry with a quarantined version. *)
Definition bad_row : agent_row :=
  {| ag_owner := "o"; ag_lifecycle := LifecycleReleased; ag_manifest := JObject [];
     ag_created_at := 0; ag_updated_at := 0; ag_quarantined := true; ag_reason := Some "looping" |}.
Definition bad_world : rworld :=
  {| rw_signals := []; rw_journal := ∅; rw_agents := {[("t", "a", "1") := bad_row]}; rw_over := false |}.
Definition run_of (ref : string) : startRunRequest :=
  {| sr_RunID := "r"; sr_Graph := Some ∅; sr_Budgets := None; sr_AgentManifestRef := ref |}.
Definition starting : prog rreply RunResponse := start hs (Some alice) (Some (run_of "a@1")).

Lemma quarantined_versions_do_not_start_witness :
  answer bad_world starting = AgentQuarantined "a@1" "looping" ∧
  (∀ row, existT (RAgent (ASelect ("t", "a", "1"))) (Ok (Some row)) ∈ log bad_world starting →
     readable row → ag_quarantined row = true →
     answer bad_world starting = AgentQuarantined "a@1" (default "" (ag_reason row)) ∧
     ∀ x, x ∈ log bad_world starting → match projT1 x with RTemporal _ => False | _ => True end) ∧
  (∀ id queue memo type input r, existT (RTemporal (TExecute id queue memo type input)) r ∈ log bad_world starting →
     id = workflowID "r" ∧ memo = {[TenantMemoKey := AString "t"]}).
Proof.
  split; [vm_compute; reflexivity|].
  apply (quarantined_versions_do_not_start hs alice (run_of "a@1") "a" "1" (log bad_world starting)
           (answer bad_world starting)); [reflexivity|reflexivity|done|apply log_history].
Defined.

Lemma quarantine_misses_names_with_at_witness :
  splitManifestRef "a@b@1" = Some ("a@b", "1") ∧
  ∀ c', emits (start hs (Some alice) (Some (run_of "a@b@1"))) (RAgent c') → key_of c' ≠ ("t", "a@b", "1").
Proof.
  apply (quarantine_misses_names_with_at hs alice (run_of "a@b@1") "a@b" "a" "b" "1"); done.
Defined.

(** A stream of two polls: the run waits, then completes. *)
Definition streaming : prog rreply stream_end := stream 5 hs (Some alice) "r".
Example streamed : answer empty_world streaming = Finished ∧ looks (log empty_world streaming) = 3%nat.
Proof. vm_compute. split; reflexivity. Qed.
Lemma stream_follows_the_run_witness :
  answer empty_world streaming = Finished ∧
  ((∃ resp, turned_away "r" (log empty_world streaming) resp ∧ answer empty_world streaming = Refused resp) ∨
   ∃ c desc t', Some alice = Some c ∧ log empty_world streaming = describes "r" (Ok desc) :: t' ∧
     tenant_of_memo (desc_memo desc) = Ok (Tenant c) ∧
     watched (workflowID "r") "" t' (answer empty_world streaming) ∧
     (answer empty_world streaming = Finished ↔ ∃ d, describes "r" (Ok d) ∈ t' ∧ closed (desc_status d)) ∧
     (looks t' ≤ 5)%nat ∧ (answer empty_world streaming = StillOpen → looks t' = 5%nat)).
Proof.
  split; [vm_compute; reflexivity|].
  exact (stream_follows_the_run 5 hs (Some alice) "r" (log empty_world streaming)
           (answer empty_world streaming) (log_history empty_world streaming)).
Defined.
End RunApiWitnesses.
