(* ===== verification/ChatApi.v ===== *)
(** * Package api: the OpenAI-compatible surface

    Models go/internal/api/openai_compatible_handlers.go and
    openai_compatible_streaming.go: the governance headers, profile resolution,
    the same budget check, routing and ledger rows as /decide, and the stream of
    server-sent events. The gateway's yield and onStart hooks are the handler's
    own code, so the gateway's program is interpreted by them; the client's
    connection (whether it is still there, whether a write succeeds) is a call.
    A request also carries the id and the clock reading the handler draws. *)

From S2P Require Import Prelude GoValue Json Program Policy Auth ToolGateway.
From S2P Require Import Finops FinopsLedger AgentRegistry Providers ModelGateway ModelApi.

Local Open Scope string_scope.
Set Default Proof Using "Type".

Record OpenAICompatibleHandlers := {
  oc_Gateway : Gateway;
  oc_Bundle : ModelPolicyBundleDoc;
  oc_Governance : option ModelGatewayHandlers;
}.

Record chat_request := {
  cq_request : request gomap;
  cq_run_id : string;
  cq_agent_ref : string;
  cq_idempotency_key : string;
  cq_flusher : bool;
  cq_id : string;
  cq_created : Z;
}.

(** ** Governance of a call *)

Definition RunIDHeader : string := "X-Aeon-Run-Id".
Definition AgentManifestRefHeader : string := "X-Aeon-Agent-Manifest-Ref".
Definition IdempotencyKeyField : string := "idempotency_key".

(** The three headers, and the body with the idempotency key folded in unless it
    names one itself. *)
Definition governanceContext (rq : chat_request) (body : gmap string any)
  : string * string * string * gmap string any :=
  let key := trim_space (cq_idempotency_key rq) in
  (trim_space (cq_run_id rq), trim_space (cq_agent_ref rq), key,
   if sempty key then body
   else match body !! IdempotencyKeyField with
        | Some _ => body
        | None => <[IdempotencyKeyField := AString key]> body
        end).

Definition no_ledger_reason : string :=
  "this gateway has no cost ledger or agent registry configured, so no ceiling is enforced and no cost is recorded (needs AEON_PG_DSN)".
Definition no_run_reason : string :=
  "no X-Aeon-Run-Id header: this call is not attributed to a run, so its cost is recorded without one and no per-run ceiling can apply to it".
Definition no_agent_reason : string :=
  "no X-Aeon-Agent-Manifest-Ref header: the ceiling is declared in an agent manifest, and without the ref there is no manifest to read it from".

Definition ungoverned_reasons (g : option ModelGatewayHandlers) (runID agentRef : string) : list string :=
  match g with
  | Some h =>
      if mh_Ledger h && mh_Agents h
      then (if sempty runID then [no_run_reason] else []) ++ (if sempty agentRef then [no_agent_reason] else [])
      else [no_ledger_reason]
  | None => [no_ledger_reason]
  end%list.

(** A [[]string] is represented as a list of strings. *)
Definition governanceReport (h : OpenAICompatibleHandlers) (runID agentRef idempotencyKey : string)
  : gmap string any :=
  let reasons := ungoverned_reasons (oc_Governance h) runID agentRef in
  let report := put_string "idempotency_key" idempotencyKey
                  (put_string "agent_manifest_ref" agentRef (put_string "run_id" runID ∅)) in
  let report := <["idempotent" := ABool (negb (sempty idempotencyKey))]> report in
  let report := <["governed" := ABool (match reasons with [] => true | _ => false end)]> report in
  match reasons with
  | [] => report
  | _ => <["ungoverned_reasons" := AList (AString <$> reasons)]> report
  end.

Definition governanceHeaders (governance : gmap string any) : gmap string string :=
  let headers := match mget governance "governed" with
                 | ABool b => {["X-Aeon-Governed" := if b then "true" else "false"]}
                 | _ => ∅
                 end in
  let headers := match as_list (mget governance "ungoverned_reasons") with
                 | [] => headers
                 | reasons => <["X-Aeon-Ungoverned-Reason" := str_join "; " (as_string <$> reasons)]> headers
                 end in
  let runID := as_string (mget governance "run_id") in
  if sempty runID then headers else <[RunIDHeader := runID]> headers.

(** ** Answers *)

Definition isPolicyDenial (err : ProfileError) : bool :=
  match err with
  | ErrCandidateModalityMismatch _ _ | ErrInferenceClassUndeclared _ _
  | ErrLocalInferenceProviderDenied _ _ => true
  | ErrProfileNotFound _ => false
  end.
Definition resolveErrorStatus (err : ProfileError) : Z := if isPolicyDenial err then 403 else 404.
Definition resolveErrorType (err : ProfileError) : string :=
  if isPolicyDenial err then "aeon_policy_denied" else "invalid_request_error".

(** The normalized answer with the envelope fields it does not bring itself. *)
Definition toOpenAIChatCompletionResponse (id : string) (created : Z) (normalized : gomap)
  : gmap string any :=
  items normalized ∪
  {["id" := AString ("chatcmpl-" +:+ id); "object" := AString "chat.completion"; "created" := AInt64 created]}.

Definition streamChunkEnvelope (id : string) (created : Z) (chunk : Chunk) : gmap string any :=
  let delta := put_string "reasoning_content" (ReasoningDelta chunk)
                 (put_string "content" (Delta chunk) ∅) in
  let choice := put_string "finish_reason" (FinishReason chunk)
                  {["index" := AInt 0; "delta" := AMap delta]} in
  let envelope : gmap string any :=
    {["id" := AString ("chatcmpl-" +:+ id); "object" := AString "chat.completion.chunk";
      "created" := AInt64 created; "model" := AString (ch_Model chunk); "choices" := AList [AMap choice]]} in
  match ch_Usage chunk with
  | None => envelope
  | Some u =>
      let usage := put_some "completion_tokens" (AInt <$> CompletionTokens u)
                     (put_some "prompt_tokens" (AInt <$> PromptTokens u) ∅) in
      let usage := match PromptTokens u, CompletionTokens u with
                   | Some p, Some c => <["total_tokens" := AInt (wrap64 (p + c))]> usage
                   | _, _ => usage
                   end in
      <["usage" := AMap usage]> envelope
  end.

(** ** The stream *)

Inductive frame :=
| FData (envelope : gmap string any)
| FError (err : GatewayError + perr)
| FDone.

(** The calls of the handler: those of the gateway's surface, whether the client
    is still there, and a write to it. *)
Inductive hcall :=
| HApi (c : gcall)
| HAlive
| HWrite (f : frame).

#[local] Arguments paid : simpl never.
#[local] Arguments reports : simpl never.

Section chat.
Context `{GoRuntime, Postgres, GoJson}.

Definition hreply (c : hcall) : Type :=
  match c with
  | HApi c => greply c
  | HAlive => option perr
  | HWrite _ => option perr
  end.
Abbreviation HM := (prog hreply).

Fixpoint of_api {A} (m : prog greply A) : HM A :=
  match m with Ret a => Ret a | Vis c k => Vis (HApi c) (λ r, of_api (k r)) end.

(** The handler's variables while it streams. *)
Record stream_state := {
  headersSent : bool;
  streamedUsage : option Usage;
  streamedModel : string;
  responseHeaders : gmap string string;
}.

Definition see_chunk (c : Chunk) (st : stream_state) : stream_state :=
  {| headersSent := true;
     streamedUsage := match ch_Usage c with Some u => Some u | None => streamedUsage st end;
     streamedModel := if sempty (ch_Model c) then streamedModel st else ch_Model c;
     responseHeaders := if headersSent st then responseHeaders st
                        else <["Connection" := "keep-alive"]> (<["Cache-Control" := "no-cache"]>
                               (<["Content-Type" := "text/event-stream"]> (responseHeaders st))) |}.

(** The closure [yield]. *)
Definition yield (rq : chat_request) (c : Chunk) (st : stream_state) : HM (stream_state * option perr) :=
  gone ← ask HAlive;
  match gone : option perr with
  | Some e => mret (st, Some e)
  | None =>
      let st := see_chunk c st in
      if negb (CarriesWireContent c) then mret (st, None)
      else err ← ask (HWrite (FData (streamChunkEnvelope (cq_id rq) (cq_created rq) c)));
           mret (st, err)
  end.

(** The decimal digits of a count. *)
Definition decimal_digit (n : nat) : string := String (Ascii.ascii_of_nat (48 + n)) EmptyString.
Fixpoint decimal_from (fuel n : nat) (acc : string) : string :=
  match fuel with
  | O => acc
  | S fuel => let acc := decimal_digit (n mod 10) +:+ acc in
              if (n / 10 =? 0)%nat then acc else decimal_from fuel (n / 10) acc
  end.
Definition itoa (n : nat) : string := decimal_from (S n) n "".

(** The hook [onStart]. *)
Definition on_start (s : StreamStart) (st : stream_state) : stream_state :=
  if headersSent st then st
  else
    let hs := responseHeaders st in
    let hs := if negb (ss_Streamed s) then <["X-Aeon-Streamed" := "false"]> hs else hs in
    let hs := if (0 <? ss_Dropped s)%nat
              then <["X-Aeon-Unsendable-Turns-Dropped" := itoa (ss_Dropped s)]> hs else hs in
    {| headersSent := false; streamedUsage := streamedUsage st; streamedModel := streamedModel st;
       responseHeaders := hs |}.

(** The gateway's program with the handler's hooks. *)
Fixpoint with_hooks {A} (rq : chat_request) (m : prog mreply A) (st : stream_state)
  : HM (stream_state * A) :=
  match m with
  | Ret a => Ret (st, a)
  | Vis q k =>
      match q return (mreply q → prog mreply A) → HM (stream_state * A) with
      | QYield c => λ k, '(st', err) ← yield rq c st; with_hooks rq (k err) st'
      | QStart s => λ k, with_hooks rq (k tt) (on_start s st)
      | q => λ k, Vis (HApi (GModel q)) (λ r, with_hooks rq (k r) st)
      end k
  end.

(** ** POST /v1/chat/completions *)

Inductive StreamOutcome :=
| StreamDone
| StreamNotStarted (err : GatewayError + perr)
| StreamBroken.

Inductive ChatResponse :=
| ChatBadBody
| ChatNoModel
| ChatProfileRefused (err : ProfileError)
| ChatOverBudget (r : Refusal)
| ChatThrottled (t : throttle)
| ChatFailed (err : GatewayError)
| ChatServed (response : gmap string any)
| ChatCannotStream
| ChatStreamed (o : StreamOutcome) (headers : gmap string string).

Definition chat_status (r : ChatResponse) : Z :=
  match r with
  | ChatBadBody | ChatNoModel => 400
  | ChatProfileRefused err => resolveErrorStatus err
  | ChatOverBudget _ => 402
  | ChatThrottled _ => 429
  | ChatFailed _ | ChatStreamed (StreamNotStarted _) _ => 502
  | ChatCannotStream => 500
  | ChatServed _ | ChatStreamed _ _ => 200
  end.

(** The ledger's view of a stream: the last usage and the last model seen. *)
Definition streamed_output (usage : option Usage) (servedModel : string) : gomap :=
  let output : gmap string any := match usage with
    | None => ∅
    | Some u => {["usage" := AMap (put_some "reasoning_tokens" (AInt <$> ReasoningTokens u)
                   (put_some "completion_tokens" (AInt <$> CompletionTokens u)
                     (put_some "prompt_tokens" (AInt <$> PromptTokens u) ∅)))]}
    end in
  Some (put_string "model" servedModel output).

Definition streamed_decision (result : StreamResult) (usage : option Usage) (servedModel : string)
  : DecisionResult :=
  {| ProviderUsed := sr_ProviderUsed result; ModelUsed := sr_ModelUsed result;
     Output := streamed_output usage servedModel; Attempts := sr_Attempts result;
     UnsendableTurnsDropped := 0 |}.

Definition recordStreamedCost (h : OpenAICompatibleHandlers) (rq : chat_request)
    (result : option StreamResult) (usage : option Usage) (servedModel runID agentRef : string) : HM () :=
  match oc_Governance h, result with
  | Some g, Some result =>
      _ ← of_api (recordCost g (cq_request rq) (streamed_decision result usage servedModel) runID agentRef ∅);
      mret tt
  | _, _ => mret tt
  end.

Definition record_discarded (h : OpenAICompatibleHandlers) (rq : chat_request)
    (err : GatewayError) (runID agentRef : string) : HM () :=
  match oc_Governance h with
  | Some g => of_api (recordDiscardedAttemptsFromError g (cq_request rq) err runID agentRef)
  | None => mret tt
  end.

(** What the handler does when [DecideStream] returned. *)
Definition finish_stream (h : OpenAICompatibleHandlers) (rq : chat_request) (runID agentRef : string)
    (st : stream_state) (answer : option StreamResult * option (GatewayError + perr))
  : HM ChatResponse :=
  match answer.2 with
  | Some err =>
      _ ← (match err with
           | inl e => record_discarded h rq e runID agentRef
           | inr _ => mret tt
           end);
      if negb (headersSent st) then mret (ChatStreamed (StreamNotStarted err) (responseHeaders st))
      else
        gone ← ask HAlive;
        _ ← (match gone : option perr with
             | None => _ ← ask (HWrite (FError err)); mret tt
             | Some _ => mret tt
             end);
        mret (ChatStreamed StreamBroken (responseHeaders st))
  | None =>
      _ ← recordStreamedCost h rq answer.1 (streamedUsage st) (streamedModel st) runID agentRef;
      _ ← ask (HWrite FDone);
      mret (ChatStreamed StreamDone (responseHeaders st))
  end.

Definition streamChatCompletions (h : OpenAICompatibleHandlers) (rq : chat_request)
    (candidates : list Candidate) (body : gmap string any) (dataSensitivity runID agentRef : string)
    (governance : gmap string any) : HM ChatResponse :=
  if negb (cq_flusher rq) then mret ChatCannotStream
  else
    let st := {| headersSent := false; streamedUsage := None; streamedModel := "";
                 responseHeaders := governanceHeaders governance |} in
    '(st, answer) ← with_hooks rq (DecideStream (oc_Gateway h) candidates (Some body) dataSensitivity true) st;
    finish_stream h rq runID agentRef st answer.

Definition chat_decide (h : OpenAICompatibleHandlers) (rq : chat_request) (candidates : list Candidate)
    (body : gmap string any) (dataSensitivity runID agentRef : string) (governance : gmap string any)
  : HM ChatResponse :=
  res ← of_api (of_gateway (Decide (oc_Gateway h) candidates (Some body) dataSensitivity));
  match res with
  | Err err =>
      _ ← record_discarded h rq err runID agentRef;
      mret (match throttleRefusal err with
            | Some t => ChatThrottled t
            | None => ChatFailed err
            end)
  | Ok result =>
      let governance :=
        if (0 <? UnsendableTurnsDropped result)%nat
        then <["unsendable_turns_dropped" := AInt (Z.of_nat (UnsendableTurnsDropped result))]> governance
        else governance in
      governance ← (match oc_Governance h with
                    | Some g => of_api (recordCost g (cq_request rq) result runID agentRef governance)
                    | None => mret governance
                    end);
      mret (ChatServed (<["aeon" := AMap governance]>
              (toOpenAIChatCompletionResponse (cq_id rq) (cq_created rq) (Output result))))
  end.

Definition chatCompletions (h : OpenAICompatibleHandlers) (rq : chat_request) : HM ChatResponse :=
  match body (cq_request rq) with
  | None => mret ChatBadBody
  | Some decoded =>
      let profile := as_string (mget (items decoded) "model") in
      if sempty profile then mret ChatNoModel else
      match ResolveProfile (oc_Bundle h) profile with
      | Err err => mret (ChatProfileRefused err)
      | Ok (candidates, dataSensitivity) =>
          let '(runID, agentRef, idempotencyKey, body) := governanceContext rq (items decoded) in
          let governance := governanceReport h runID agentRef idempotencyKey in
          refusal ← (match oc_Governance h with
                     | Some g => of_api (overBudget g (cq_request rq) runID agentRef)
                     | None => mret None
                     end);
          match refusal with
          | Some r => mret (ChatOverBudget r)
          | None =>
              match mget body "stream" with
              | ABool true =>
                  streamChatCompletions h rq candidates body dataSensitivity runID agentRef governance
              | _ => chat_decide h rq candidates body dataSensitivity runID agentRef governance
              end
          end
      end
  end.

(** ** What a client reads of a chunk *)

(** The fields of an envelope, as an OpenAI client reads them. *)
Record delivered := {
  dl_content : string;
  dl_reasoning : string;
  dl_finish_reason : string;
  dl_model : string;
  dl_usage : option (option Z * option Z);
}.
Definition as_int (a : any) : option Z := match a with AInt z => Some z | _ => None end.
Definition read_envelope (e : gmap string any) : delivered :=
  let choice := as_map (List.hd ANil (as_list (mget e "choices"))) in
  let delta := as_map (mget choice "delta") in
  {| dl_content := as_string (mget delta "content");
     dl_reasoning := as_string (mget delta "reasoning_content");
     dl_finish_reason := as_string (mget choice "finish_reason");
     dl_model := as_string (mget e "model");
     dl_usage := match mget e "usage" with
                 | AMap u => Some (as_int (mget u "prompt_tokens"), as_int (mget u "completion_tokens"))
                 | _ => None
                 end |}.

(** What a client reads back from an event is what the provider's chunk said:
    the text, the deliberation, the finish reason, the model and the counters it
    reported, and nothing else; a chunk's tool call is in none of it. *)
Theorem chunk_read_back id created c :
  read_envelope (streamChunkEnvelope id created c) =
  {| dl_content := Delta c; dl_reasoning := ReasoningDelta c; dl_finish_reason := FinishReason c;
     dl_model := ch_Model c;
     dl_usage := (λ u, (PromptTokens u, CompletionTokens u)) <$> ch_Usage c |} ∧
  (∀ tc d i, streamChunkEnvelope id created
     {| Delta := Delta c; ReasoningDelta := ReasoningDelta c; FinishReason := FinishReason c;
        ch_Model := ch_Model c; ch_Usage := ch_Usage c; Event := Event c; ToolCallIndex := i;
        ToolCallDelta := d; ch_ToolCall := tc |} = streamChunkEnvelope id created c).
Proof.
  split; [|done].
  destruct c as [content reasoning finish model usage ev i d tc]. unfold streamChunkEnvelope. simpl.
  destruct content, reasoning, finish; destruct usage as [[[p|] [q|] cr cw rt est]|]; reflexivity.
Qed.

(** ** Histories of the handler *)

Abbreviation hevent := {c : hcall & hreply c}.
Definition api_event (e : hevent) : option {c : gcall & greply c} :=
  let '(existT c r) := e in
  match c return hreply c → option {c : gcall & greply c} with
  | HApi c => λ r, Some (existT c r)
  | _ => λ _, None
  end r.
Definition api_events (t : list hevent) := omap api_event t.
Definition frame_of (e : hevent) : option frame :=
  match projT1 e with HWrite f => Some f | _ => None end.
Definition frames (t : list hevent) := omap frame_of t.
(** A provider, the quality gate or the stream was asked. *)
Definition asks_model (e : {c : gcall & greply c}) : Prop := ∃ q r, e = existT (GModel q) r.

Lemma of_api_histories {A} (m : prog greply A) t a :
  histories (of_api m) t a → frames t = [] ∧ histories m (api_events t) a.
Proof.
  revert t. induction m as [a0|c k IH]; intros t; simpl; [by intros [-> ->]|].
  intros (r & t' & -> & Ht). apply IH in Ht as [Hf Ht]. split; [exact Hf|]. by exists r, (api_events t').
Qed.

Lemma api_events_app t t' : api_events (t ++ t') = (api_events t ++ api_events t')%list.
Proof. apply omap_app. Qed.
Lemma frames_app t t' : frames (t ++ t') = (frames t ++ frames t')%list.
Proof. apply omap_app. Qed.
Lemma recorded_app (t t' : list {c : gcall & greply c}) : recorded (t ++ t') = (recorded t ++ recorded t')%list.
Proof. apply omap_app. Qed.

Lemma yield_histories rq c st t st' err :
  histories (yield rq c st) t (st', err) →
  api_events t = [] ∧
  ((st' = st ∧ frames t = []) ∨
   (st' = see_chunk c st ∧
    frames t = if CarriesWireContent c
               then [FData (streamChunkEnvelope (cq_id rq) (cq_created rq) c)] else [])).
Proof.
  unfold yield. intros (gone & t1 & -> & Hk). destruct gone as [e|].
  - destruct Hk as [-> [= -> ->]]. split; [done|by left].
  - destruct (CarriesWireContent c); simpl in Hk.
    + destruct Hk as (w & t2 & -> & -> & [= -> ->]). split; [done|by right].
    + destruct Hk as [-> [= -> ->]]. split; [done|by right].
Qed.

(** The chunks that were put on the wire, and what they leave behind. *)
Definition sent (rq : chat_request) (cs : list Chunk) : list frame :=
  (λ c, FData (streamChunkEnvelope (cq_id rq) (cq_created rq) c)) <$> List.filter CarriesWireContent cs.

(** What a history with the hooks leaves. *)
Definition hooked {A} (rq : chat_request) (m : prog mreply A) st (t : list hevent) st' (a : A) : Prop :=
  returns m a ∧ recorded (api_events t) = [] ∧ Forall asks_model (api_events t) ∧
  ∃ cs, frames t = sent rq cs ∧ (headersSent st' = false → cs = []) ∧
    (headersSent st = true → headersSent st' = true).

(** One more call of the gateway in front. *)
Lemma model_event {A} (q : mcall) rq (k : mreply q → prog mreply A) st t st' (a : A)
    (h : mreply q → prog hreply (stream_state * A)) :
  (∀ r t', histories (h r) t' (st', a) → hooked rq (k r) st t' st' a) →
  histories (Vis (HApi (GModel q)) h) t (st', a) → hooked rq (Vis q k) st t st' a.
Proof.
  intros IH (r & t' & -> & Ht). destruct (IH _ _ Ht) as (Hr & Hrec & Hall & Hcs).
  split; [by exists r|]. split; [done|]. split; [|done].
  change (Forall asks_model (existT (GModel q) r :: api_events t')).
  constructor; [by exists q, r|done].
Qed.

Lemma with_hooks_histories {A} rq (m : prog mreply A) st t st' a :
  histories (with_hooks rq m st) t (st', a) → hooked rq m st t st' a.
Proof.
  revert st t. induction m as [a0|q k IH]; intros st t.
  { intros [-> [= -> ->]]. split; [done|]. split; [done|]. split; [constructor|]. exists []. done. }
  destruct q as [p m|p input|p input|c|s]; simpl.
  - apply (model_event (QDegraded p m)). intros r t'. apply IH.
  - apply (model_event (QDecide p input)). intros r t'. apply IH.
  - apply (model_event (QStream p input)). intros r t'. apply IH.
  - intros Ht. change (histories (yield rq c st ≫= λ '(st', err), with_hooks rq (k err) st') t (st', a)) in Ht.
    rewrite histories_bind in Ht. destruct Ht as ([st1 err] & t1 & t2 & -> & Hy & Ht).
    destruct (IH _ _ _ Ht) as (Hr & Hrec & Hall & cs & Hf & Hcs & Hs).
    apply yield_histories in Hy as [Ha Hy]. unfold hooked. rewrite api_events_app, frames_app, Ha, Hf.
    split; [by exists err|]. split; [done|]. split; [done|].
    destruct Hy as [[-> ->]|[-> ->]]; [by exists cs|].
    exists (c :: cs). unfold sent. simpl. split; [by destruct (CarriesWireContent c)|].
    split; [|by intros; apply Hs]. rewrite Hs by done. done.
  - intros Ht. destruct (IH _ _ _ Ht) as (Hr & Hrec & Hall & cs & Hf & Hcs & Hs).
    split; [by exists tt|]. split; [done|]. split; [done|]. exists cs. split; [done|]. split; [done|].
    intros Hst. apply Hs. unfold on_start. by rewrite Hst.
Qed.

(** ** What a stream leaves *)

Definition unpaid (a : AttemptRecord) : Prop := DiscardedOutput a = None.

(** How the gateway's streaming cascade can end: served by a candidate, failed
    before any chunk, or broken after one; none of its attempts keeps an answer. *)
Definition stream_end (ans : option StreamResult * option (GatewayError + perr)) : Prop :=
  match ans.2 with
  | None => ∃ d A c, ans.1 = Some d ∧ sr_Attempts d = (A ++ [attempt c "" None None])%list ∧ Forall unpaid A
  | Some (inl (AllCandidatesFailed L)) => Forall unpaid L
  | _ => True
  end.

Lemma stream_loop_end g ctx onStart attempts sorted ans :
  Forall unpaid attempts → returns (stream_loop g ctx onStart attempts sorted) ans → stream_end ans.
Proof.
  revert attempts. induction sorted as [|c rest IH]; intros attempts HA; cbn [stream_loop]; [by intros ->|].
  assert (Hskip : ∀ e cause, returns (stream_loop g ctx onStart (attempts ++ [attempt c e cause None]) rest) ans →
    stream_end ans) by (intros e cause; apply IH, Forall_app; split; [done|by repeat constructor]).
  intros (degraded & _ & Hr)%returns_bind. destruct degraded; [by eapply Hskip|].
  destruct (providers g !! _) as [streamable|]; [|by eapply Hskip].
  destruct (input_for ctx c) as [input dropped].
  apply returns_bind in Hr as (u & _ & Hr). apply returns_bind in Hr as ([dl err] & _ & Hr).
  destruct err as [e|].
  - destruct dl; [by rewrite Hr|by eapply Hskip].
  - rewrite Hr. by eexists _, attempts, c.
Qed.

Lemma DecideStream_end g candidates ctx sensitivity onStart ans :
  returns (DecideStream g candidates ctx sensitivity onStart) ans → stream_end ans.
Proof.
  unfold DecideStream. destruct (restrictPool candidates sensitivity) as [pool|e] eqn:Hp.
  - apply stream_loop_end. constructor.
  - intros ->. unfold restrictPool in Hp. repeat case_match; by simplify_eq.
Qed.

Lemma unpaid_reasoned A : Forall unpaid A → Forall reasoned A.
Proof. intros HA. eapply Forall_impl; [exact HA|]. intros a Ha. unfold reasoned. by rewrite Ha. Qed.
Lemma unpaid_paid A : Forall unpaid A → paid (answered <$> A) = [].
Proof.
  induction 1 as [|a A Ha _ IH]; [done|]. csimpl. rewrite paid_cons. unfold answered. by rewrite Ha.
Qed.

Lemma unpaid_discarded A : Forall unpaid A → DiscardedAttempts A = [].
Proof.
  induction 1 as [|a A Ha _ IH]; [done|]. unfold DiscardedAttempts in *. simpl.
  by rewrite Ha, bool_decide_eq_false_2 by apply is_Some_None.
Qed.

Lemma streamed_not_replay result u m : replays (streamed_decision result u m) = false.
Proof.
  destruct m, u as [[[p|] [c|] cr cw [rt|] est]|]; reflexivity.
Qed.

(** The rows of a stream by how it ended. *)
Definition stream_rows (g : ModelGatewayHandlers) (ledger runID agentRef : string) (o : StreamOutcome)
    (rows : list (string * CostEntry)) : Prop :=
  match o with
  | StreamDone => ∃ provider model usage served,
      rows = [(ledger, served_entry (mh_Pricing g) runID agentRef provider model
                         (streamed_output usage served))]
  | StreamNotStarted _ | StreamBroken => rows = []
  end.
(** The events of a stream by how it ended. *)
Definition stream_frames (rq : chat_request) (o : StreamOutcome) (fs : list frame) : Prop :=
  match o with
  | StreamDone => ∃ cs, fs = (sent rq cs ++ [FDone])%list
  | StreamNotStarted _ => fs = []
  | StreamBroken => ∃ cs tail, fs = (sent rq cs ++ tail)%list ∧ (tail = [] ∨ ∃ e, tail = [FError e])
  end.

Lemma record_discarded_unpaid h rq err runID agentRef t u :
  match err with AllCandidatesFailed L => Forall unpaid L | _ => True end →
  histories (record_discarded h rq err runID agentRef) t u → frames t = [] ∧ recorded (api_events t) = [].
Proof.
  intros HL Ht. unfold record_discarded in Ht. destruct (oc_Governance h) as [g|]; [|by destruct Ht as [-> _]].
  apply of_api_histories in Ht as [Hf Ht]. split; [done|].
  destruct err as [|L]; simpl in Ht; [by destruct Ht as [-> _]|]. unfold recordDiscardedAttempts in Ht.
  rewrite (unpaid_discarded L HL) in Ht. by destruct Ht as [-> _].
Qed.

Lemma recordStreamedCost_recorded h g rq ledger d A c u m runID agentRef t x :
  oc_Governance h = Some g → ledgerFor g (cq_request rq) = Some ledger →
  sr_Attempts d = (A ++ [attempt c "" None None])%list → Forall unpaid A →
  histories (recordStreamedCost h rq (Some d) u m runID agentRef) t x →
  frames t = [] ∧ recorded (api_events t) =
    [(ledger, served_entry (mh_Pricing g) runID agentRef (sr_ProviderUsed d) (sr_ModelUsed d)
                (streamed_output u m))].
Proof.
  intros Hg Hl Hd HA Ht. unfold recordStreamedCost in Ht. rewrite Hg, histories_bind in Ht.
  destruct Ht as (facts & t1 & t2 & -> & Ht & -> & _). rewrite app_nil_r.
  apply of_api_histories in Ht as [Hf Ht]. split; [done|].
  apply (recordCost_recorded _ _ ledger _ _ _ A c []) in Ht as [_ Hr];
    [|done|done|by apply unpaid_reasoned|by rewrite unpaid_paid by done].
  rewrite Hr. unfold cost_rows. by rewrite streamed_not_replay.
Qed.

Lemma finish_stream_leaves h g rq ledger runID agentRef st ans t o hs cs :
  oc_Governance h = Some g → ledgerFor g (cq_request rq) = Some ledger → stream_end ans →
  (headersSent st = false → cs = []) →
  histories (finish_stream h rq runID agentRef st ans) t (ChatStreamed o hs) →
  stream_rows g ledger runID agentRef o (recorded (api_events t)) ∧
  stream_frames rq o (sent rq cs ++ frames t).
Proof.
  intros Hg Hl Hend Hcs Ht. unfold finish_stream in Ht. unfold stream_end in Hend.
  destruct (ans.2) as [err|].
  - rewrite histories_bind in Ht. destruct Ht as (u & t1 & t2 & -> & Hk & Ht).
    assert (frames t1 = [] ∧ recorded (api_events t1) = []) as [Hf1 Hr1].
    { destruct err as [e|e]; [|by destruct Hk as [-> _]]. eapply record_discarded_unpaid; [|exact Hk].
      by destruct e. }
    rewrite frames_app, api_events_app, recorded_app, Hf1, Hr1. simpl.
    destruct (headersSent st); simpl in Ht.
    + destruct Ht as (gone & t3 & -> & Ht). destruct gone as [e|]; simpl in Ht.
      * destruct Ht as [-> [= -> ->]]. split; [done|]. exists cs, []. split; [done|by left].
      * destruct Ht as (w & t4 & -> & -> & [= -> ->]). split; [done|].
        exists cs, [FError err]. split; [done|]. right. by exists err.
    + destruct Ht as [-> [= -> ->]]. rewrite Hcs by done. split; done.
  - destruct Hend as (d & A & c & Hd & Hat & HA). rewrite Hd, histories_bind in Ht.
    destruct Ht as (u & t1 & t2 & -> & Hk & w & t3 & -> & -> & [= -> ->]).
    apply (recordStreamedCost_recorded _ _ _ _ _ _ _ _ _ _ _ _ _ Hg Hl Hat HA) in Hk as [Hf Hr].
    rewrite frames_app, api_events_app, recorded_app, Hf, Hr. split.
    + by eexists _, _, _, _.
    + by exists cs.
Qed.

(** A chat that streamed, up to the stream: nothing was recorded or written. *)
Lemma chat_streamed h g rq t o hs :
  oc_Governance h = Some g → histories (chatCompletions h rq) t (ChatStreamed o hs) →
  ∃ decoded runID agentRef key body candidates sensitivity st ans t1 t2 t3 cs,
    ToolGateway.body (cq_request rq) = Some decoded ∧
    governanceContext rq (items decoded) = (runID, agentRef, key, body) ∧
    t = (t1 ++ t2 ++ t3)%list ∧ frames t1 = [] ∧ recorded (api_events t1) = [] ∧
    returns (DecideStream (oc_Gateway h) candidates (Some body) sensitivity true) ans ∧
    recorded (api_events t2) = [] ∧ frames t2 = sent rq cs ∧ (headersSent st = false → cs = []) ∧
    histories (finish_stream h rq runID agentRef st ans) t3 (ChatStreamed o hs).
Proof.
  intros Hg Ht. unfold chatCompletions in Ht.
  destruct (ToolGateway.body (cq_request rq)) as [decoded|] eqn:Hb; [|by destruct Ht as [_ ?]].
  destruct (sempty _); [by destruct Ht as [_ ?]|].
  destruct (ResolveProfile _ _) as [[candidates sensitivity]|]; [|by destruct Ht as [_ ?]].
  destruct (governanceContext rq (items decoded)) as [[[runID agentRef] key] body] eqn:Hc.
  rewrite Hg, histories_bind in Ht. destruct Ht as (refusal & t1 & t' & -> & [Hf1 Hq]%of_api_histories & Ht).
  apply overBudget_quiet in Hq as [_ Hr1]. destruct refusal; [by destruct Ht as [_ ?]|].
  assert (Hs : histories (streamChatCompletions h rq candidates body sensitivity runID agentRef
    (governanceReport h runID agentRef key)) t' (ChatStreamed o hs)).
  { destruct (mget body "stream") as [|[]| | | | | | | | | |]; try exact Ht.
    all: exfalso; unfold chat_decide in Ht; rewrite histories_bind in Ht;
      destruct Ht as ([d|e] & t2 & t3 & _ & _ & Ht); rewrite histories_bind in Ht;
      destruct Ht as (u & t4 & t5 & _ & _ & _ & ?); [done|by destruct (throttleRefusal e)]. }
  unfold streamChatCompletions in Hs. destruct (negb _); [by destruct Hs as [_ ?]|].
  rewrite histories_bind in Hs. destruct Hs as ([st ans] & t2 & t3 & -> & Hw & Hfin).
  apply with_hooks_histories in Hw as (Hr & Hrec & _ & cs & Hf & Hcs & _).
  by exists decoded, runID, agentRef, key, body, candidates, sensitivity, st, ans, t1, t2, t3, cs.
Qed.

(** Only a stream that ends is paid for in the ledger: it leaves one row, with
    the usage and the model its chunks reported, and a stream that broke after
    its first chunk (a provider's error, or a client that read what it wanted
    and left) leaves none, whatever was generated. *)
Theorem broken_stream_is_not_recorded h g rq ledger t o hs :
  oc_Governance h = Some g → ledgerFor g (cq_request rq) = Some ledger →
  histories (chatCompletions h rq) t (ChatStreamed o hs) →
  stream_rows g ledger (trim_space (cq_run_id rq)) (trim_space (cq_agent_ref rq)) o (recorded (api_events t)).
Proof.
  intros Hg Hl (decoded & runID & agentRef & key & body & candidates & sensitivity & st & ans & t1 & t2 & t3 &
    cs & _ & Hc & -> & _ & Hr1 & Hans & Hr2 & _ & Hcs & Hfin)%(chat_streamed _ g); [|done].
  injection Hc as <- <- _ _. apply DecideStream_end in Hans.
  rewrite !api_events_app, !recorded_app, Hr1, Hr2.
  by apply (finish_stream_leaves _ _ _ _ _ _ _ _ _ _ _ cs Hg Hl Hans Hcs) in Hfin as [? _].
Qed.

(** What goes down the wire is well formed: the chunks that carry something, in
    order, then one [DONE] exactly when the stream served; after a failure that
    had begun, at most one error event and nothing else; and nothing at all when
    it had not begun, so that the answer is still an ordinary error. *)
Theorem stream_events_well_formed h g rq ledger t o hs :
  oc_Governance h = Some g → ledgerFor g (cq_request rq) = Some ledger →
  histories (chatCompletions h rq) t (ChatStreamed o hs) → stream_frames rq o (frames t).
Proof.
  intros Hg Hl (decoded & runID & agentRef & key & body & candidates & sensitivity & st & ans & t1 & t2 & t3 &
    cs & _ & _ & -> & Hf1 & _ & Hans & _ & Hf2 & Hcs & Hfin)%(chat_streamed _ g); [|done].
  apply DecideStream_end in Hans. rewrite !frames_app, Hf1, Hf2. simpl.
  by apply (finish_stream_leaves _ _ _ _ _ _ _ _ _ _ _ cs Hg Hl Hans Hcs) in Hfin as [_ ?].
Qed.

(** ** What a single answer leaves *)

(** As for /decide, by the answer given. *)
Definition chat_accounts (g : ModelGatewayHandlers) (ledger runID agentRef : string)
    (t : list {c : gcall & greply c}) (resp : ChatResponse) : Prop :=
  match resp with
  | ChatServed _ => ∃ d before,
      answers t = (before ++ [(ProviderUsed d, ModelUsed d, Output d)])%list ∧
      recorded t = cost_rows g ledger runID agentRef d before
  | ChatThrottled _ | ChatFailed _ => recorded t = discarded_rows g ledger runID agentRef (answers t)
  | ChatStreamed _ _ | ChatCannotStream => True
  | _ => answers t = [] ∧ recorded t = []
  end.

Lemma chat_decide_recorded h g rq ledger candidates body sensitivity runID agentRef governance t resp :
  oc_Governance h = Some g → ledgerFor g (cq_request rq) = Some ledger →
  histories (chat_decide h rq candidates body sensitivity runID agentRef governance) t resp →
  chat_accounts g ledger runID agentRef (api_events t) resp.
Proof.
  intros Hg Hl Ht. unfold chat_decide in Ht. rewrite histories_bind in Ht.
  destruct Ht as (res & t1 & t2 & -> & [_ Hgw]%of_api_histories & Ht). rewrite api_events_app.
  pose proof (of_gateway_recorded _ _ _ Hgw) as Hgr.
  apply of_gateway_histories in Hgw as (t0 & Hlift & Hacc%Decide_accounted). fold (lifted t0) in Hlift.
  rewrite Hlift in *.
  assert (Happ : ∀ t', answers t' = [] →
    answers (lifted t0 ++ t') = asked_answers t0 ∧ recorded (lifted t0 ++ t') = recorded t').
  { intros t' Ht'. unfold asked_answers, answers, recorded in *. rewrite !omap_app, Ht', app_nil_r.
    split; [done|]. by rewrite Hgr. }
  destruct res as [d|err].
  - destruct Hacc as (A & c & before & Hat & Hans & Hp & HA). rewrite Hg, histories_bind in Ht.
    destruct Ht as (facts & t3 & t4 & -> & [_ Hk]%of_api_histories & -> & ->). rewrite app_nil_r.
    apply (recordCost_recorded _ _ ledger _ _ _ A c before) in Hk as [Ha Hr]; [|done..].
    destruct (Happ _ Ha) as [He Hre]. exists d, before. by rewrite He, Hre.
  - rewrite histories_bind in Ht. destruct Ht as (u & t3 & t4 & -> & Hk & -> & ->). rewrite app_nil_r.
    unfold record_discarded in Hk. rewrite Hg in Hk. apply of_api_histories in Hk as [_ Hk].
    assert (Hrec : answers (api_events t3) = [] ∧
      recorded (api_events t3) = discarded_rows g ledger runID agentRef (asked_answers t0)).
    { destruct err as [|L]; simpl in Hacc, Hk; [rewrite Hacc; by destruct Hk as [-> _]|].
      destruct Hacc as (A & -> & Hp & HA).
      apply (recordDiscardedAttempts_recorded _ _ ledger) in Hk as [Ha Hr]; [|done..].
      unfold discarded_rows in *. by rewrite Hp. }
    destruct Hrec as [Ha Hr]. destruct (Happ _ Ha) as [He Hre].
    destruct (throttleRefusal err); simpl; by rewrite He, Hre.
Qed.

Lemma stream_answers h rq candidates body sensitivity runID agentRef governance t resp :
  histories (streamChatCompletions h rq candidates body sensitivity runID agentRef governance) t resp →
  resp = ChatCannotStream ∨ ∃ o hs, resp = ChatStreamed o hs.
Proof.
  unfold streamChatCompletions. destruct (negb _); [by intros [_ ->]; left|].
  rewrite histories_bind. intros ([st ans] & t1 & t2 & _ & _ & Ht). right. unfold finish_stream in Ht.
  destruct (ans.2).
  - rewrite histories_bind in Ht. destruct Ht as (u & t3 & t4 & _ & _ & Ht).
    destruct (headersSent st); simpl in Ht.
    + destruct Ht as (gone & t5 & _ & Ht). destruct gone; [destruct Ht as [_ ->]; eauto|].
      destruct Ht as (w & t6 & _ & _ & ->). eauto.
    + destruct Ht as [_ ->]. eauto.
  - rewrite histories_bind in Ht. destruct Ht as (u & t3 & t4 & _ & _ & w & t5 & _ & _ & ->). eauto.
Qed.

(** The OpenAI-compatible door keeps the same books as /decide: a call answered
    at once records the answer that served and every answer thrown away before
    it, a call nothing could serve records those, and a call refused (its body,
    its profile, its run's ceiling) asked nobody and recorded nothing. *)
Theorem chat_answers_are_recorded h g rq ledger t resp :
  oc_Governance h = Some g → ledgerFor g (cq_request rq) = Some ledger →
  histories (chatCompletions h rq) t resp →
  chat_accounts g ledger (trim_space (cq_run_id rq)) (trim_space (cq_agent_ref rq)) (api_events t) resp.
Proof.
  intros Hg Hl Ht. unfold chatCompletions in Ht.
  destruct (ToolGateway.body (cq_request rq)) as [decoded|]; [|by destruct Ht as [-> ->]].
  destruct (sempty _); [by destruct Ht as [-> ->]|].
  destruct (ResolveProfile _ _) as [[candidates sensitivity]|]; [|by destruct Ht as [-> ->]].
  destruct (governanceContext rq (items decoded)) as [[[runID agentRef] key] body] eqn:Hc.
  injection Hc as <- <- _ _.
  rewrite Hg, histories_bind in Ht. destruct Ht as (refusal & t1 & t2 & -> & [_ Hq]%of_api_histories & Ht).
  apply overBudget_quiet in Hq as [Ha1 Hr1]. rewrite api_events_app.
  destruct refusal; [by destruct Ht as [-> ->]; rewrite app_nil_r|].
  assert (Happ : answers (api_events t1 ++ api_events t2) = answers (api_events t2) ∧
    recorded (api_events t1 ++ api_events t2) = recorded (api_events t2)).
  { unfold answers, recorded in *. by rewrite !omap_app, Ha1, Hr1. }
  assert (Hacc : chat_accounts g ledger (trim_space (cq_run_id rq)) (trim_space (cq_agent_ref rq))
    (api_events t2) resp).
  { destruct (mget body "stream") as [|[]| | | | | | | | | |];
      first [by eapply chat_decide_recorded|by apply stream_answers in Ht as [->|(o & hs & ->)]]. }
  destruct Happ as [Ha Hr]. unfold chat_accounts in *. by rewrite Ha, Hr.
Qed.

End chat.

(** ** Witnesses *)

Module ChatWitnesses.
#[local] Existing Instance amd64_runtime.
#[local] Existing Instance verbatim_postgres.
#[local] Existing Instance tree_json.

Definition candidate_doc (p : string) (priority : Z) : CandidateDoc :=
  {| cd_Provider := p; cd_Model := "m"; Modality := "text"; InferenceClass := "cloud";
     cd_Priority := priority; ModelGateway.CostModel := ""; CostPerMillionInputTokens := f_zero;
     CostPerMillionOutputTokens := f_zero |}.
Definition bundle : ModelPolicyBundleDoc :=
  {| mb_APIVersion := ""; mb_Kind := "";
     Profiles := [{| Profile := "general"; Candidates := [candidate_doc "p" 1; candidate_doc "s" 2];
                     LocalInference := None; RoutingConstraints_ := None |}] |}.
(** "p" cannot stream and fails; "s" streams. *)
Definition gw : Gateway := RegisterProvider (RegisterProvider New "p" false) "s" true.
Definition governor : ModelGatewayHandlers :=
  {| mh_Gateway := gw; mh_Pricing := None; mh_Ledger := true; mh_Agents := true |}.
Definition h : OpenAICompatibleHandlers :=
  {| oc_Gateway := gw; oc_Bundle := bundle; oc_Governance := Some governor |}.
Definition chat (stream : bool) : chat_request :=
  {| cq_request := {| body := Some (Some {["model" := AString "general"; "stream" := ABool stream]});
                      caller := Some ApiWitnesses.who; tenant_header := "" |};
     cq_run_id := "r"; cq_agent_ref := ""; cq_idempotency_key := ""; cq_flusher := true;
     cq_id := "1"; cq_created := 7 |}.

Definition gone : perr := {| err_text := "context canceled"; ThrottleOf := None |}.
Definition down : perr := {| err_text := "down"; ThrottleOf := None |}.
Definition said (s : string) (u : option Usage) : Chunk :=
  {| Delta := s; ReasoningDelta := ""; FinishReason := ""; ch_Model := "m"; ch_Usage := u; Event := "";
     ToolCallIndex := 0; ToolCallDelta := ""; ch_ToolCall := None |}.
Definition used : Usage :=
  {| PromptTokens := Some 5%Z; CompletionTokens := Some 6%Z; CacheReadTokens := None;
     CacheWriteTokens := None; ReasoningTokens := None; Estimated := None |}.
(** Two chunks, the second with the usage; it stops when told to. *)
Definition two_chunks : session :=
  SChunk (said "hi" (Some used)) (λ e, match e with
    | Some e => SEnd (Some e)
    | None => SChunk (said "!" None) (λ e, SEnd e)
    end).
Definition toy_provider (asked : list mcall) (q : mcall) : mreply q :=
  match q with
  | QDegraded _ _ => false
  | QDecide p _ => if String.eqb p "p" then Err down else Ok (ApiWitnesses.answer_with "hi" 1 2)
  | QStream _ _ => two_chunks
  | QYield _ => None
  | QStart _ => tt
  end.

(** The client goes away after a number of chunks. *)
Definition toy (w : gworld * nat) (c : hcall) : (gworld * nat) * hreply c :=
  match c with
  | HApi c => let '(w', r) := gserve 0 toy_provider w.1 c in ((w', w.2), r)
  | HAlive => ((w.1, w.2 - 1)%nat, if (w.2 =? 0)%nat then Some gone else None)
  | HWrite _ => (w, None)
  end.
Definition fresh (patience : nat) : gworld * nat := (ApiWitnesses.world [], patience).
Definition log (stream : bool) (patience : nat) := (run_log toy (fresh patience) (chatCompletions h (chat stream))).1.2.

Lemma run_streams patience o hs :
  (run_log toy (fresh patience) (chatCompletions h (chat true))).2 = ChatStreamed o hs →
  histories (chatCompletions h (chat true)) (log true patience) (ChatStreamed o hs).
Proof. intros <-. apply run_log_histories. Qed.

(** A candidate that cannot stream and fails leaves its header on the stream of the
    next one. *)
Definition headers_seen : gmap string string :=
  match (run_log toy (fresh 9) (chatCompletions h (chat true))).2 with ChatStreamed _ hs => hs | _ => ∅ end.
Lemma streams_to_the_end :
  (run_log toy (fresh 9) (chatCompletions h (chat true))).2 = ChatStreamed StreamDone headers_seen.
Proof. vm_compute. reflexivity. Qed.
Lemma failed_candidate_leaves_its_header : headers_seen !! "X-Aeon-Streamed" = Some "false".
Proof. vm_compute. reflexivity. Qed.

Definition headers_broken : gmap string string :=
  match (run_log toy (fresh 1) (chatCompletions h (chat true))).2 with ChatStreamed _ hs => hs | _ => ∅ end.
Lemma breaks_after_one :
  (run_log toy (fresh 1) (chatCompletions h (chat true))).2 = ChatStreamed StreamBroken headers_broken.
Proof. vm_compute. reflexivity. Qed.

Lemma broken_stream_is_not_recorded_witness : recorded (api_events (log true 1)) = [].
Proof.
  apply (broken_stream_is_not_recorded h governor (chat true) "t" (log true 1) StreamBroken headers_broken);
    [reflexivity|reflexivity|]. apply run_streams, breaks_after_one.
Defined.

Lemma stream_events_well_formed_witness : ∃ cs, frames (log true 9) = (sent (chat true) cs ++ [FDone])%list.
Proof.
  apply (stream_events_well_formed h governor (chat true) "t" (log true 9) StreamDone headers_seen);
    [reflexivity|reflexivity|]. apply run_streams, streams_to_the_end.
Defined.

Lemma chat_answers_are_recorded_witness :
  chat_accounts governor "t" "r" "" (api_events (log false 9))
    (run_log toy (fresh 9) (chatCompletions h (chat false))).2.
Proof.
  apply (chat_answers_are_recorded h governor (chat false) "t"); [reflexivity|reflexivity|].
  apply run_log_histories.
Defined.
Lemma chat_serves : length (recorded (api_events (log false 9))) = 1.
Proof. by vm_compute. Qed.
End ChatWitnesses.
