(* ===== verification/Secrets.v ===== *)
(** * Package secrets and secretref: leases and where a secret comes from

    go/internal/secrets/broker.go, go/internal/secretref/secretref.go, the route of
    go/internal/api/secret_broker_handlers.go and the tool of
    go/internal/toolexec/secrets_tool.go. Times and durations are nanoseconds, the
    clock's readings are arguments and so are the bytes crypto/rand draws. Each
    method holds the mutex, so a broker's life is a sequence of method calls. *)

From S2P Require Import Prelude GoValue Sha256 Json.

Local Open Scope string_scope.
Set Default Proof Using "Type*".

(** ** The broker *)

Definition second : Z := 1000000000.
Definition DefaultLeaseTTL : Z := 5 * 60 * second.

Record lease := { secretName : string; expiresAt : Z; lease_owner : string }.
Record Broker := { br_secrets : gmap string string; leases : gmap string lease }.

Inductive BrokerError :=
| UnknownSecret (name : string)
| NoRandomness
| UnknownLease
| LeaseExpired (at_ : Z)
| SecretGone (name : string).

Definition NewBroker (values : gmap string string) : Broker :=
  {| br_secrets := values; leases := ∅ |}.

Definition with_leases (b : Broker) (l : gmap string lease) : Broker :=
  {| br_secrets := br_secrets b; leases := l |}.

(** [rand.Read] of sixteen bytes, or its failure. *)
Definition randomRef (bytes : option (list Z)) : result BrokerError string :=
  match bytes with
  | None => Err NoRandomness
  | Some bs => Ok ("lease_" +:+ hex_encode bs)
  end.

Definition IssueForOwner (b : Broker) (now : Z) (bytes : option (list Z)) (name : string) (ttl : Z)
    (owner : string) : Broker * result BrokerError (string * Z) :=
  let ttl := if (ttl <=? 0)%Z then DefaultLeaseTTL else ttl in
  match br_secrets b !! name with
  | None => (b, Err (UnknownSecret name))
  | Some _ =>
      match randomRef bytes with
      | Err e => (b, Err e)
      | Ok ref =>
          let expires := (now + ttl)%Z in
          (with_leases b (<[ref := {| secretName := name; expiresAt := expires; lease_owner := owner |}]> (leases b)),
           Ok (ref, expires))
      end
  end.
Definition Issue (b : Broker) (now : Z) (bytes : option (list Z)) (name : string) (ttl : Z) :=
  IssueForOwner b now bytes name ttl "".

Definition Resolve (b : Broker) (now : Z) (ref : string) : Broker * result BrokerError string :=
  match leases b !! ref with
  | None => (b, Err UnknownLease)
  | Some l =>
      if (expiresAt l <? now)%Z
      then (with_leases b (delete ref (leases b)), Err (LeaseExpired (expiresAt l)))
      else match br_secrets b !! secretName l with
           | None => (b, Err (SecretGone (secretName l)))
           | Some value => (b, Ok value)
           end
  end.

Definition Revoke (b : Broker) (ref : string) : Broker := with_leases b (delete ref (leases b)).

Definition RevokeAllForOwner (b : Broker) (owner : string) : Broker * Z :=
  if sempty owner then (b, 0%Z)
  else let mine := filter (λ kv : string * lease, lease_owner kv.2 = owner) (leases b) in
       (with_leases b (filter (λ kv : string * lease, lease_owner kv.2 ≠ owner) (leases b)),
        Z.of_nat (size mine)).

(** ** The route and the tool *)

Record issueLeaseRequest := { il_Name : string; TTLSeconds : Z }.
Inductive IssueResponse := IssueBadBody | IssueNotFound (e : BrokerError) | Issued (ref : string) (expires : Z).

(** [time.Duration(n) * time.Second] wraps around. *)
Definition issue (b : Broker) (now : Z) (bytes : option (list Z)) (body : option issueLeaseRequest)
  : Broker * IssueResponse :=
  match body with
  | None => (b, IssueBadBody)
  | Some body =>
      let ttl := if (0 <? TTLSeconds body)%Z then wrap64 (TTLSeconds body * second) else 0%Z in
      let '(b', r) := Issue b now bytes (il_Name body) ttl in
      (b', match r with Err e => IssueNotFound e | Ok (ref, expires) => Issued ref expires end)
  end.

Inductive WhoamiError := MissingRef | WhoamiFailed (e : BrokerError).
Definition whoami (b : Broker) (now : Z) (args : gomap) : Broker * result WhoamiError (gmap string any) :=
  let ref := as_string (mget (items args) "secret_ref") in
  if sempty ref then (b, Err MissingRef)
  else let '(b', r) := Resolve b now ref in
       (b', match r with
            | Err e => Err (WhoamiFailed e)
            | Ok value => Ok (obj [("status", AString "executed"); ("tool", AString "secrets.whoami");
                                   ("secret_fingerprint",
                                    AString (hex_encode (firstn 8 (sha256 (bytes_of_string value)))))])
            end).

(** ** The life of a broker *)

Inductive broker_op :=
| OpIssue (bytes : option (list Z)) (name : string) (ttl : Z) (owner : string)
| OpResolve (ref : string)
| OpRevoke (ref : string)
| OpRevokeAll (owner : string).

Definition broker_step (b : Broker) (op : Z * broker_op) : Broker :=
  match op.2 with
  | OpIssue bytes name ttl owner => (IssueForOwner b op.1 bytes name ttl owner).1
  | OpResolve ref => (Resolve b op.1 ref).1
  | OpRevoke ref => Revoke b ref
  | OpRevokeAll owner => (RevokeAllForOwner b owner).1
  end.
Definition broker_after (values : gmap string string) (ops : list (Z * broker_op)) : Broker :=
  foldl broker_step (NewBroker values) ops.

(** The reading of the clock at an operation, and clocks that never go back. *)
Definition in_order (ops : list (Z * broker_op)) (now : Z) : Prop := StronglySorted Z.le (ops.*1 ++ [now]).

(** An operation grants [ref] this lease; or it is about [ref] or ends it. *)
Definition grants (values : gmap string string) (ref : string) (l : lease) (op : Z * broker_op) : Prop :=
  ∃ bytes ttl, op.2 = OpIssue (Some bytes) (secretName l) ttl (lease_owner l) ∧
    ref = "lease_" +:+ hex_encode bytes ∧ is_Some (values !! secretName l) ∧
    expiresAt l = (op.1 + if (ttl <=? 0)%Z then DefaultLeaseTTL else ttl)%Z.
Definition ends (values : gmap string string) (ref : string) (l : lease) (op : Z * broker_op) : Prop :=
  match op.2 with
  | OpIssue (Some bytes) name _ _ => is_Some (values !! name) ∧ ref = "lease_" +:+ hex_encode bytes
  | OpRevoke ref' => ref' = ref
  | OpRevokeAll owner => owner ≠ "" ∧ lease_owner l = owner
  | _ => False
  end.
(** The lease a history has left [ref] with: granted by one operation and ended by
    none that follows. *)
Definition granted (values : gmap string string) (ops : list (Z * broker_op)) (ref : string) (l : lease) : Prop :=
  ∃ before op after, ops = (before ++ op :: after)%list ∧ grants values ref l op ∧
    ∀ op', op' ∈ after → ¬ ends values ref l op'.

Lemma broker_secrets values ops : br_secrets (broker_after values ops) = values.
Proof.
  unfold broker_after. assert (∀ b, br_secrets (foldl broker_step b ops) = br_secrets b) as Hs; [|apply Hs].
  induction ops as [|[t op] ops IH]; intros b; [done|]. simpl. rewrite IH. clear IH.
  destruct op; unfold broker_step; simpl; [unfold IssueForOwner|unfold Resolve| |unfold RevokeAllForOwner];
    repeat case_match; done.
Qed.

Lemma broker_after_snoc values ops op : broker_after values (ops ++ [op]) = broker_step (broker_after values ops) op.
Proof. unfold broker_after. by rewrite foldl_app. Qed.

Lemma granted_snoc values ops op ref l :
  granted values (ops ++ [op]) ref l ↔
  grants values ref l op ∨ granted values ops ref l ∧ ¬ ends values ref l op.
Proof.
  split.
  - intros (before & op' & after & Heq & Hg & Hend).
    destruct after as [|x after _] using rev_ind.
    + apply app_inj_tail in Heq as [-> ->]. by left.
    + right. rewrite app_comm_cons, app_assoc in Heq. apply app_inj_tail in Heq as [-> ->]. split.
      * exists before, op', after. split_and!; [done..|]. intros o Ho. apply Hend. set_solver.
      * apply Hend. set_solver.
  - intros [Hg|((before & op' & after & -> & Hg & Hend) & Hn)].
    + exists ops, op, []. split_and!; [done..|]. by intros ? ?%not_elem_of_nil.
    + exists before, op', (after ++ [op])%list. split_and!; [by rewrite <-app_assoc|done|].
      intros o [Ho| ->%list_elem_of_singleton]%elem_of_app; auto.
Qed.

(** What a broker holds, against what its history granted. *)
Definition holds (values : gmap string string) (ops : list (Z * broker_op)) : Prop :=
  ∀ ref l, (leases (broker_after values ops) !! ref = Some l → granted values ops ref l) ∧
    (granted values ops ref l →
     leases (broker_after values ops) !! ref = Some l ∨
     leases (broker_after values ops) !! ref = None ∧ ∃ op, op ∈ ops ∧ (expiresAt l < op.1)%Z).

(** One operation on a lease that does not end it leaves it, unless it finds it expired. *)
Lemma step_keeps values ops op ref l :
  leases (broker_after values ops) !! ref = Some l → ¬ ends values ref l op →
  leases (broker_after values (ops ++ [op])) !! ref = Some l ∨
  leases (broker_after values (ops ++ [op])) !! ref = None ∧ (expiresAt l < op.1)%Z.
Proof.
  rewrite broker_after_snoc. pose proof (broker_secrets values ops) as Hs.
  destruct op as [t [bytes name ttl owner|ref'|ref'|owner]]; unfold broker_step, ends; simpl; intros Hl Hn.
  - left. unfold IssueForOwner. rewrite Hs. destruct (values !! name) eqn:Hv; [|done].
    destruct bytes as [bs|]; [|done]. simpl. rewrite lookup_insert_ne; [done|].
    intros <-. apply Hn. by split; [eexists|].
  - unfold Resolve. destruct (leases (broker_after values ops) !! ref') as [l'|] eqn:Hl'; [|by left].
    destruct (expiresAt l' <? t)%Z eqn:Ht; [|case_match; by left]. simpl.
    destruct (decide (ref' = ref)) as [->|Hne]; [|left; by rewrite lookup_delete_ne].
    right. simplify_eq. rewrite lookup_delete_eq. split; [done|]. lia.
  - left. unfold Revoke. simpl. rewrite lookup_delete_ne; [done|]. congruence.
  - left. unfold RevokeAllForOwner. destruct (sempty owner) eqn:He; [done|]. simpl.
    apply map_lookup_filter_Some. split; [done|]. simpl. intros Ho. apply Hn. split; [|done].
    by intros ->.
Qed.

(** What one operation leaves held was granted by it, or held before and not ended by it. *)
Lemma step_holds values ops op ref l :
  leases (broker_after values (ops ++ [op])) !! ref = Some l →
  grants values ref l op ∨
  leases (broker_after values ops) !! ref = Some l ∧ ¬ ends values ref l op.
Proof.
  rewrite broker_after_snoc. pose proof (broker_secrets values ops) as Hs.
  destruct op as [t [bytes name ttl owner|ref'|ref'|owner]]; unfold broker_step, ends, grants; simpl.
  - unfold IssueForOwner. rewrite Hs. destruct (values !! name) as [v|] eqn:Hv; simpl.
    2: { intros Hl. right. split; [done|]. destruct bytes; [|tauto]. by intros [[? [=]] _]. }
    destruct bytes as [bs|]; simpl; [|right; tauto].
    intros [[<- <-]|[Hne Hl]]%lookup_insert_Some.
    + left. exists bs, ttl. simpl. split_and!; [done|done|by eexists|done].
    + right. split; [done|]. by intros [_ ->].
  - unfold Resolve. intros Hl. right. split; [|tauto]. revert Hl.
    case_match; [|done]. case_match; simpl; [by intros [_ ?]%lookup_delete_Some|]. by case_match.
  - unfold Revoke. simpl. intros [Hne ?]%lookup_delete_Some. right. by split; [|intros ->].
  - unfold RevokeAllForOwner. destruct (sempty owner) eqn:He; simpl.
    + right. split; [done|]. apply sempty_true in He as ->. by intros [].
    + intros [Hl Ho]%map_lookup_filter_Some. right. split; [done|]. simpl in Ho. by intros [_ ?].
Qed.

(** An operation that grants a lease leaves it held. *)
Lemma grants_held values ops op ref l :
  grants values ref l op → leases (broker_after values (ops ++ [op])) !! ref = Some l.
Proof.
  rewrite broker_after_snoc. pose proof (broker_secrets values ops) as Hs.
  destruct op as [t o]. intros (bytes & ttl & Ho & -> & [v Hv] & He). simpl in *.
  subst o. unfold broker_step, IssueForOwner. simpl.
  rewrite Hs, Hv. simpl. apply lookup_insert_Some. left. split; [done|]. destruct l. simpl in *. by rewrite He.
Qed.

Lemma broker_holds values ops : holds values ops.
Proof.
  induction ops as [|op ops IH] using rev_ind.
  - intros ref l. split; [done|]. by intros ([|] & ? & ? & ? & _).
  - intros ref l. destruct (IH ref l) as [IH1 IH2]. rewrite granted_snoc. split.
    + intros [Hg|[Hl Hn]]%step_holds; [by left|]. right. by split; [apply IH1|].
    + intros [Hg|[Hg Hn]]; [left; by apply grants_held|].
      destruct (IH2 Hg) as [Hl|(Hl & o & Ho & Hx)].
      * destruct (step_keeps _ _ _ _ _ Hl Hn) as [?|[? ?]]; [by left|].
        right. split; [done|]. exists op. set_solver.
      * destruct (leases (broker_after values (ops ++ [op])) !! ref) as [l'|] eqn:Hl'.
        -- exfalso. apply step_holds in Hl' as [(bytes & ttl & Heq & Href & Hv & _)|[? _]]; [|congruence].
           apply Hn. unfold ends. rewrite Heq. by split.
        -- right. split; [done|]. exists o. set_solver.
Qed.

(** ** What a lease is worth *)

(** C23. A reference resolves to a value exactly when some operation granted it a
    lease of a secret with that value, no later operation revoked the lease, its
    owner's leases or gave the reference to another, and the lease has not
    expired: what the map of leases keeps and forgets is the history's verdict.
    The clock does not go back between the operations and the resolution. *)
Theorem resolves_iff_granted values ops now ref v :
  (∀ op, op ∈ ops → (op.1 ≤ now)%Z) →
  (Resolve (broker_after values ops) now ref).2 = Ok v ↔
  ∃ l, granted values ops ref l ∧ (now ≤ expiresAt l)%Z ∧ values !! secretName l = Some v.
Proof.
  intros Hclock. unfold Resolve. rewrite broker_secrets. split.
  - destruct (leases _ !! ref) as [l|] eqn:Hl; [|done].
    destruct (expiresAt l <? now)%Z eqn:Ht; [done|]. destruct (values !! secretName l) as [v'|] eqn:Hv; [|done].
    simpl. intros [= ->]. exists l. split_and!; [by apply broker_holds|lia|done].
  - intros (l & Hg & Ht & Hv). apply broker_holds in Hg as [Hl|(_ & op & Hop & Hx)].
    + rewrite Hl. destruct (expiresAt l <? now)%Z eqn:?; [lia|]. by rewrite Hv.
    + specialize (Hclock op Hop). lia.
Qed.

(** The kill switch: once an owner's leases are revoked none is held, whatever
    was granted before and whatever follows, until one is issued to it again. *)
Theorem revoked_owner_is_cut_off values before t owner after ref l :
  owner ≠ "" →
  (∀ op bytes name ttl, op ∈ after → op.2 ≠ OpIssue bytes name ttl owner) →
  leases (broker_after values (before ++ (t, OpRevokeAll owner) :: after)) !! ref = Some l →
  lease_owner l ≠ owner.
Proof.
  intros Hne Hafter Hl Ho. apply broker_holds in Hl. revert Hl. rewrite cons_middle, app_assoc.
  induction after as [|op after IH] using rev_ind.
  - rewrite app_nil_r, granted_snoc. intros [(? & ? & [=] & _)|[_ Hn]]. by apply Hn.
  - rewrite app_assoc, granted_snoc. intros [(bytes & ttl & Heq & _)|[Hg _]].
    + rewrite Ho in Heq. by eapply Hafter; [apply elem_of_app; right; apply list_elem_of_singleton|].
    + apply IH; [|done]. intros op' ??? Hop. apply Hafter. apply elem_of_app. by left.
Qed.

(** ** Where a secret comes from: package secretref *)

Definition FileSuffix : string := "_FILE".

Inductive Source := SourceAbsent | SourceEnv | SourceFile.
Inductive TakeError := BothSet (name : string) | Unreadable (name path : string) | EmptyFile (name path : string).
Record resolved := { res_value : string; res_source : Source; res_err : option TakeError }.

(** [strings.TrimRight] with carriage returns and newlines. *)
Fixpoint trim_left_newlines (s : string) : string :=
  match s with
  | String c r => if byte_is 13 c || byte_is 10 c then trim_left_newlines r else s
  | EmptyString => s
  end.
Definition trim_right_newlines (s : string) : string := str_rev (trim_left_newlines (str_rev s)).

Section secretref.
Implicit Types (files : string → option string).

(** [read], of an environment and the files a path leads to. *)
Definition read (env : gmap string string) files (name : string) : resolved :=
  let direct := default "" (env !! name) in
  let path := default "" (env !! (name +:+ FileSuffix)) in
  let directSet := negb (sempty direct) in
  let pathSet := negb (sempty (trim_space path)) in
  let refuse e := {| res_value := ""; res_source := SourceAbsent; res_err := Some e |} in
  if directSet && pathSet then refuse (BothSet name)
  else if pathSet then
    let path := trim_space path in
    match files path with
    | None => refuse (Unreadable name path)
    | Some raw =>
        let value := trim_right_newlines raw in
        if sempty value then refuse (EmptyFile name path)
        else {| res_value := value; res_source := SourceFile; res_err := None |}
    end
  else if directSet then {| res_value := direct; res_source := SourceEnv; res_err := None |}
  else {| res_value := ""; res_source := SourceAbsent; res_err := None |}.

(** The process: its environment and the package's cache. *)
Record process := { environ : gmap string string; cache : gmap string resolved }.
Definition boot (env : gmap string string) : process := {| environ := env; cache := ∅ |}.

Definition Take (p : process) files (name : string) : process * resolved :=
  match cache p !! name with
  | Some got => (p, got)
  | None =>
      let got := read (environ p) files name in
      ({| environ := delete (name +:+ FileSuffix) (delete name (environ p));
          cache := <[name := got]> (cache p) |}, got)
  end.

(** What is handed to [fatal], and what is returned if that comes back. *)
Definition TakeOrFatal (p : process) files (name : string) : process * option TakeError * (string * bool) :=
  let '(p', got) := Take p files name in
  match res_err got with
  | Some e => (p', Some e, ("", false))
  | None => (p', None, (res_value got, match res_source got with SourceAbsent => false | _ => true end))
  end.

(** ** Every taking of a process's life *)

Definition takes (p : process) (l : list ((string → option string) * string)) : process :=
  foldl (λ p fn, (Take p fn.1 fn.2).1) p l.

Lemma takes_snoc p l fn : takes p (l ++ [fn]) = (Take (takes p l) fn.1 fn.2).1.
Proof. unfold takes. by rewrite foldl_app. Qed.

Lemma cached_names env l n : is_Some (cache (takes (boot env) l) !! n) ↔ n ∈ l.*2.
Proof.
  induction l as [|fn l IH] using rev_ind; simpl.
  - rewrite is_Some_alt. by split; [|intros ?%not_elem_of_nil].
  - rewrite takes_snoc, fmap_app, elem_of_app. simpl. rewrite list_elem_of_singleton, <-IH. unfold Take.
    destruct (cache (takes (boot env) l) !! fn.2) eqn:Hc; simpl.
    + split; [by left|]. intros [?| ->]; [done|]. by rewrite Hc.
    + rewrite lookup_insert_is_Some. destruct (decide (fn.2 = n)); intuition auto.
Qed.

(** A variable a taking removes. *)
Definition scrubs (n x : string) : Prop := x = n ∨ x = n +:+ FileSuffix.
#[export] Instance scrubs_dec n x : Decision (scrubs n x) := _.

Lemma environ_scrubbed env l x :
  (Exists (λ n, scrubs n x) l.*2 → environ (takes (boot env) l) !! x = None) ∧
  (Forall (λ n, ¬ scrubs n x) l.*2 → environ (takes (boot env) l) !! x = env !! x).
Proof.
  induction l as [|fn l [IH1 IH2]] using rev_ind; simpl.
  - split; [intros Hx; inversion Hx|done].
  - rewrite takes_snoc, fmap_app, Exists_app, Forall_app. simpl. rewrite Exists_cons, Exists_nil.
    rewrite Forall_singleton. unfold Take.
    destruct (cache (takes (boot env) l) !! fn.2) eqn:Hc; simpl.
    + assert (Hin : fn.2 ∈ l.*2) by (apply (cached_names env); by rewrite Hc).
      split; [|by intros [? _]; apply IH2]. intros [?|[Hs|[]]]; apply IH1; [done|].
      apply Exists_exists. by exists fn.2.
    + split.
      * intros [He|[[->| ->]|[]]]; rewrite !lookup_delete_None; auto.
      * intros [Hf Hn]. unfold scrubs in Hn.
        rewrite lookup_delete_ne by (intros <-; tauto). rewrite lookup_delete_ne by (intros <-; tauto). by apply IH2.
Qed.

(** The files as they were when a name was first taken. *)
Fixpoint first_view (l : list ((string → option string) * string)) (name : string) files :=
  match l with
  | [] => files
  | (f, n) :: l => if bool_decide (n = name) then f else first_view l name files
  end.

Lemma first_view_snoc l f n name files :
  first_view (l ++ [(f, n)]) name files =
  first_view l name (if bool_decide (n = name) then f else files).
Proof. induction l as [|[f' n'] l IH]; [done|]. simpl. rewrite IH. by case_bool_decide. Qed.

Lemma first_view_taken l name files files' :
  name ∈ l.*2 → first_view l name files = first_view l name files'.
Proof.
  induction l as [|[f n] l IH]; simpl; [by intros ?%not_elem_of_nil|].
  intros [->|Hin]%elem_of_cons; [by rewrite bool_decide_eq_true_2|]. case_bool_decide; auto.
Qed.
Lemma first_view_fresh l name files : name ∉ l.*2 → first_view l name files = files.
Proof.
  induction l as [|[f n] l IH]; simpl; [done|]. intros [Hn Hl]%not_elem_of_cons.
  rewrite bool_decide_eq_false_2 by done. auto.
Qed.

(** Names no taking of which touches the other's variables. *)
Definition apart (n m : string) : Prop := n = m ∨ n ≠ m +:+ FileSuffix ∧ m ≠ n +:+ FileSuffix.
#[export] Instance apart_dec n m : Decision (apart n m) := _.

Lemma apart_scrubs n m x : apart n m → scrubs m x → n ≠ m → ¬ scrubs n x.
Proof.
  intros [?|[H1 H2]] [->| ->] Hne [Hs|Hs]; try congruence.
  by apply str_app_inj_r in Hs.
Qed.

Lemma read_unscrubbed env l files name :
  Forall (λ n, n ≠ name ∧ apart n name) l.*2 →
  read (environ (takes (boot env) l)) files name = read env files name.
Proof.
  intros Hl. unfold read.
  assert (Hx : ∀ x, scrubs name x → environ (takes (boot env) l) !! x = env !! x).
  { intros x Hx. apply environ_scrubbed. eapply Forall_impl; [exact Hl|]. simpl. intros n [Hn Ha].
    by eapply apart_scrubs. }
  rewrite (Hx name), (Hx (name +:+ FileSuffix)) by (unfold scrubs; auto). done.
Qed.

(** A name is read from the environment the process was started with. *)
Lemma take_reads env l files name :
  Forall (λ n, apart n name) l.*2 →
  (Take (takes (boot env) l) files name).2 = read env (first_view l name files) name.
Proof.
  revert files. induction l as [|[f n] l IH] using rev_ind; intros files; [done|].
  rewrite fmap_app, Forall_app. intros [Hl [Hn _]%Forall_cons]. simpl in Hn.
  rewrite takes_snoc, first_view_snoc. simpl.
  destruct (cache (takes (boot env) l) !! name) as [got|] eqn:Hc.
  - assert (Hin : name ∈ l.*2) by (apply (cached_names env); by rewrite Hc).
    rewrite (first_view_taken l name _ files Hin), <-(IH files Hl). unfold Take. rewrite Hc.
    destruct (cache _ !! n) eqn:Hcn; simpl; [by rewrite Hc|].
    rewrite lookup_insert_ne by congruence. by rewrite Hc.
  - assert (Hout : name ∉ l.*2) by (rewrite <-(cached_names env), Hc; by intros []).
    assert (Hread : ∀ g, read (environ (takes (boot env) l)) g name = read env g name).
    { intros g. apply read_unscrubbed. apply Forall_forall. intros n' Hn'.
      split; [congruence|]. by eapply Forall_forall in Hl. }
    rewrite (first_view_fresh l name _ Hout). case_bool_decide as Hnn.
    + subst n. unfold Take. rewrite Hc. simpl. rewrite lookup_insert_eq. apply Hread.
    + transitivity (read (environ (takes (boot env) (l ++ [(f, n)]))) files name).
      * unfold Take at 1. rewrite takes_snoc. simpl.
        destruct (cache ((Take _ _ _).1) !! name) eqn:Hx; [|done].
        exfalso. revert Hx. unfold Take. destruct (cache _ !! n) eqn:Hcn; simpl; [congruence|].
        rewrite lookup_insert_ne by done. congruence.
      * apply read_unscrubbed. rewrite fmap_app. apply Forall_app. split; [|by apply Forall_singleton].
        apply Forall_forall. intros n' Hn'. split; [congruence|]. by eapply Forall_forall in Hl.
Qed.

(** Once a name is taken, refused or not, neither variable is left for a child process
    to inherit, and every other variable is. *)
Lemma environ_left env l x :
  environ (takes (boot env) l) !! x =
  if bool_decide (Exists (λ n, scrubs n x) l.*2) then None else env !! x.
Proof.
  destruct (environ_scrubbed env l x) as [H1 H2]. case_bool_decide as Hx; [auto|].
  apply H2. apply Forall_Exists_neg. done.
Qed.

(** However often and in whatever order a process takes its secrets, a name
    yields what the environment it was started with and the files of that first
    taking say: the taking that removes the variables is remembered, so a second
    reader of the same credential is not handed an empty one. Only a name that is
    another's _FILE variable can be lost. Refused or not, no name taken so far is
    left for a child process to inherit, and every other variable is. *)
Theorem takes_read_the_startup_environment env l files name :
  Forall (λ n, apart n name) l.*2 →
  let '(p, got) := Take (takes (boot env) l) files name in
  got = read env (first_view l name files) name ∧
  ∀ x, environ p !! x = if bool_decide (Exists (λ n, scrubs n x) (l.*2 ++ [name])) then None else env !! x.
Proof.
  intros Hl. pose proof (take_reads env l files name Hl) as Hr.
  pose proof (takes_snoc (boot env) l (files, name)) as Hs. simpl in Hs.
  destruct (Take (takes (boot env) l) files name) as [p got]. simpl in *. split; [done|].
  intros x. rewrite <-Hs, environ_left. by rewrite fmap_app.
Qed.
End secretref.

Section from_env.
Context (unicode_upper : string → string).
Implicit Types (files : string → option string) (values : gmap string string).

(** [strings.ToUpper] and [strings.ReplaceAll(name, ".", "_")]. *)
Definition to_upper (s : string) : string :=
  if is_ascii s then str_map upper_byte s else unicode_upper s.
Definition dot_to_underscore (c : Ascii.ascii) : Ascii.ascii :=
  if byte_is 46 c then Ascii.ascii_of_nat 95 else c.
Definition envVarName (name : string) : string :=
  "AEON_SECRET_" +:+ to_upper (str_map dot_to_underscore name).

(** The loop of [NewBrokerFromEnv]. *)
Fixpoint load_secrets (p : process) files (names : list string) values
  : process * result (string * TakeError) (gmap string string) :=
  match names with
  | [] => (p, Ok values)
  | name :: names =>
      let '(p', got) := Take p files (envVarName name) in
      match res_err got with
      | Some e => (p', Err (name, e))
      | None => load_secrets p' files names
                  (if sempty (res_value got) then values else <[name := res_value got]> values)
      end
  end.
Definition NewBrokerFromEnv (p : process) files (names : list string)
  : process * result (string * TakeError) Broker :=
  let '(p', r) := load_secrets p files names ∅ in
  (p', match r with Err e => Err e | Ok values => Ok (NewBroker values) end).

(** What the environment and the files configure for a name. *)
Definition configured (env : gmap string string) files (name : string) : option string :=
  let got := read env files (envVarName name) in
  if sempty (res_value got) then None else Some (res_value got).

Lemma first_view_const l name files : Forall (λ fn, fn.1 = files) l → first_view l name files = files.
Proof.
  induction 1 as [|[f n] l Hf _ IH]; [done|]. simpl in *. subst. by case_bool_decide.
Qed.

Lemma load_secrets_reads env files names l values :
  Forall (λ fn : (string → option string) * string, fn.1 = files) l →
  (∀ n m, n ∈ (l.*2 ++ (envVarName <$> names))%list → m ∈ envVarName <$> names → apart n m) →
  match (load_secrets (takes (boot env) l) files names values).2 with
  | Ok values' =>
      (∀ name, name ∈ names → res_err (read env files (envVarName name)) = None) ∧
      ∀ name, values' !! name = if bool_decide (name ∈ names) && bool_decide (configured env files name ≠ None)
                                then configured env files name else values !! name
  | Err (name, e) => name ∈ names ∧ res_err (read env files (envVarName name)) = Some e
  end.
Proof.
  revert l values. induction names as [|name names IH]; intros l values Hf Hap; simpl.
  - split; [|done]. by intros ? ?%not_elem_of_nil.
  - assert (Hl : Forall (λ n, apart n (envVarName name)) l.*2).
    { apply Forall_forall. intros n Hn. apply Hap; [apply elem_of_app; by left|left]. }
    pose proof (take_reads env l files (envVarName name) Hl) as Hr.
    rewrite first_view_const in Hr by done.
    pose proof (takes_snoc (boot env) l (files, envVarName name)) as Hs. simpl in Hs.
    destruct (Take _ files (envVarName name)) as [p' got] eqn:Ht. simpl in Hr, Hs. subst got p'.
    destruct (res_err (read env files (envVarName name))) as [e|] eqn:He; [by split; [left|]|].
    specialize (IH (l ++ [(files, envVarName name)])%list
      (if sempty (res_value (read env files (envVarName name))) then values
       else <[name := res_value (read env files (envVarName name))]> values)).
    match type of IH with _ → _ → match ?x with _ => _ end => destruct x as [values'|[bad e]] end.
    + destruct IH as [IH1 IH2]; [apply Forall_app; by split; [|apply Forall_singleton]|..].
      { intros n m Hn Hm. apply Hap; [|by right]. rewrite fmap_app in Hn. set_solver. }
      split; [intros n [->|?]%elem_of_cons; auto|].
      intros n. rewrite IH2. clear IH1 IH2. unfold configured. destruct (decide (n = name)) as [->|Hne].
      * rewrite (bool_decide_eq_true_2 (name ∈ name :: names)) by left.
        destruct (sempty _) eqn:Hv; [by rewrite !andb_false_r|]. rewrite lookup_insert_eq. by case_match.
      * rewrite (bool_decide_ext (n ∈ name :: names) (n ∈ names)) by set_solver.
        destruct (_ && _); [done|]. destruct (sempty _); [done|]. by rewrite lookup_insert_ne.
    + destruct IH as [? ?]; [apply Forall_app; by split; [|apply Forall_singleton]|..|split; [by right|done]].
      intros n m Hn Hm. apply Hap; [|by right]. rewrite fmap_app in Hn. set_solver.
Qed.

(** A broker built at startup holds for each of its names what the environment
    or the named file configures, and nothing else; a name configured twice, or by
    a file that is missing or empty, stops it. Names that share a variable, as a.b
    and a_b do, share its secret. *)
Theorem NewBrokerFromEnv_loads env files names :
  (∀ n m, n ∈ names → m ∈ names → apart (envVarName n) (envVarName m)) →
  match (NewBrokerFromEnv (boot env) files names).2 with
  | Ok b =>
      (∀ name, name ∈ names → res_err (read env files (envVarName name)) = None) ∧
      (∀ name, br_secrets b !! name = if bool_decide (name ∈ names) then configured env files name else None) ∧
      leases b = ∅
  | Err (name, e) => name ∈ names ∧ res_err (read env files (envVarName name)) = Some e
  end.
Proof.
  intros Hap. unfold NewBrokerFromEnv.
  pose proof (load_secrets_reads env files names [] ∅ (Forall_nil_2 _)) as Hl.
  change (takes (boot env) []) with (boot env) in Hl.
  destruct (load_secrets (boot env) files names ∅) as [p [values|[name e]]]; simpl in *.
  - destruct Hl as [H1 H2]; [set_solver|]. split_and!; [done| |done]. intros name. rewrite H2.
    case_bool_decide; simpl; [|done]. case_bool_decide as Hc; [done|].
    symmetry. exact Hc.
  - apply Hl. set_solver.
Qed.
End from_env.

Module SecretsWitnesses.
Definition vault : gmap string string := {["db" := "s3cret"]}.
Definition sixteen : list Z := replicate 16 7%Z.
Definition ref7 : string := "lease_" +:+ hex_encode sixteen.
Definition history : list (Z * broker_op) :=
  [(0%Z, OpIssue (Some sixteen) "db" (10 * second)%Z "a@1"); (second, OpResolve ref7)].

Lemma resolves_iff_granted_witness :
  (Resolve (broker_after vault history) (9 * second) ref7).2 = Ok "s3cret" ∧
  ∃ l, granted vault history ref7 l ∧ (9 * second ≤ expiresAt l)%Z ∧ vault !! secretName l = Some "s3cret".
Proof.
  split; [vm_compute; reflexivity|].
  apply (resolves_iff_granted vault history (9 * second) ref7 "s3cret"); [|vm_compute; reflexivity].
  intros op [->|[->|[]%not_elem_of_nil]%elem_of_cons]%elem_of_cons; vm_compute; discriminate.
Defined.

Definition other : list Z := replicate 16 8%Z.
Definition later : list (Z * broker_op) := [(second, OpIssue (Some other) "db" 0%Z "b@1")].
Lemma revoked_owner_is_cut_off_witness :
  lease_owner {| secretName := "db"; expiresAt := second + DefaultLeaseTTL; lease_owner := "b@1" |} ≠ "a@1".
Proof.
  apply (revoked_owner_is_cut_off vault history second "a@1" later ("lease_" +:+ hex_encode other)).
  - discriminate.
  - intros op bytes name ttl [->|[]%not_elem_of_nil]%elem_of_cons. discriminate.
  - vm_compute. reflexivity.
Defined.

Definition disk (path : string) : option string := if bool_decide (path = "/run/k") then Some ("k1" +:+ String (Ascii.ascii_of_nat 10) "") else None.
Definition startup : gmap string string :=
  list_to_map [("AEON_SECRET_DB_MAIN", "pw"); ("AEON_SECRET_KEY_FILE", " /run/k "); ("HOME", "/root")].
Lemma takes_read_the_startup_environment_witness :
  let '(p, got) := Take (takes (boot startup) [(disk, "AEON_SECRET_KEY"); (disk, "AEON_SECRET_DB_MAIN")])
                     (λ _, None) "AEON_SECRET_KEY" in
  got = {| res_value := "k1"; res_source := SourceFile; res_err := None |} ∧
  environ p !! "AEON_SECRET_KEY_FILE" = None ∧ environ p !! "HOME" = Some "/root".
Proof.
  set (l := [(disk, "AEON_SECRET_KEY"); (disk, "AEON_SECRET_DB_MAIN")]).
  assert (Hap : Forall (λ n, apart n "AEON_SECRET_KEY") l.*2)
    by (constructor; [by left|]; constructor; [right; by split|constructor]).
  pose proof (takes_read_the_startup_environment startup l (λ _, None) "AEON_SECRET_KEY" Hap) as Ht.
  destruct (Take (takes (boot startup) l) (λ _, None) "AEON_SECRET_KEY") as [p got]. destruct Ht as [-> He].
  split; [vm_compute; reflexivity|]. rewrite !He. split; vm_compute; reflexivity.
Defined.

Lemma NewBrokerFromEnv_loads_witness :
  ∃ b, (NewBrokerFromEnv (λ s, s) (boot startup) disk ["db.main"; "db_main"; "key"; "none"]).2 = Ok b ∧
    br_secrets b !! "db.main" = Some "pw" ∧ br_secrets b !! "db_main" = Some "pw" ∧
    br_secrets b !! "key" = Some "k1" ∧ br_secrets b !! "none" = None.
Proof.
  pose proof (NewBrokerFromEnv_loads (λ s, s) startup disk ["db.main"; "db_main"; "key"; "none"]) as Hl.
  destruct (NewBrokerFromEnv _ _ _ _) as [p [b|[name e]]] eqn:Hb; simpl in Hl.
  - exists b. split; [done|]. destruct Hl as (_ & Hs & _).
    + assert (Hall : Forall (λ n, Forall (λ m, apart (envVarName (λ s, s) n) (envVarName (λ s, s) m))
        ["db.main"; "db_main"; "key"; "none"]) ["db.main"; "db_main"; "key"; "none"])
        by (apply (bool_decide_eq_true_1 _); vm_compute; reflexivity).
      intros n m Hn Hm. eapply Forall_forall in Hall; [|exact Hn]. by eapply Forall_forall in Hall.
    + rewrite !Hs. split_and!; vm_compute; reflexivity.
  - exfalso. revert Hb. vm_compute. discriminate.
Defined.
End SecretsWitnesses.
