(* ===== verification/KillSwitch.v ===== *)
(** * The circuit breaker's routes

    go/internal/api/circuit_breaker_handlers.go: an outcome is reported, a version
    is quarantined or cleared by hand. The handlers are programs over the breaker,
    the agent registry and the secret broker, which other requests may use between
    two calls. A request is the authenticated caller, the path's name and version
    and the decoded body (or none). *)

From S2P Require Import Prelude GoValue Sha256 Json Program Auth Breaker AgentRegistry Secrets.

Local Open Scope string_scope.
Set Default Proof Using "Type*".

Section kill_switch.
Context `{Postgres, GoJson}.

(** The shared state the calls reach, and the calls. *)
Record kworld := { kw_breaker : Breaker.Breaker; kw_broker : Broker; kw_agents : gmap akey agent_row }.

Inductive kcall :=
| KRecord (name version : string) (obs : Observation)
| KReset (name version : string)
| KRevokeAll (owner : string)
| KAgent (c : acall).
Definition kreply (c : kcall) : Type :=
  match c with
  | KRecord _ _ _ => Verdict
  | KReset _ _ => ()
  | KRevokeAll _ => Z
  | KAgent c => areply c
  end.
Abbreviation KM := (prog kreply).

Definition with_breaker (w : kworld) b : kworld :=
  {| kw_breaker := b; kw_broker := kw_broker w; kw_agents := kw_agents w |}.
Definition with_broker (w : kworld) b : kworld :=
  {| kw_breaker := kw_breaker w; kw_broker := b; kw_agents := kw_agents w |}.
Definition with_agents (w : kworld) t : kworld :=
  {| kw_breaker := kw_breaker w; kw_broker := kw_broker w; kw_agents := t |}.

Definition ksem (w : kworld) (c : kcall) : kreply c → kworld → Prop :=
  match c with
  | KRecord name version obs => λ r w',
      let '(b, v) := RecordOutcome (kw_breaker w) name version obs in r = v ∧ w' = with_breaker w b
  | KReset name version => λ _ w', w' = with_breaker w (Reset_ (kw_breaker w) name version)
  | KRevokeAll owner => λ r w',
      let '(b, n) := RevokeAllForOwner (kw_broker w) owner in r = n ∧ w' = with_broker w b
  | KAgent c => λ r w', ∃ t', asem (kw_agents w) c r t' ∧ w' = with_agents w t'
  end.

Fixpoint of_agents {A} (m : prog areply A) : KM A :=
  match m with Ret a => Ret a | Vis c k => Vis (KAgent c) (λ r, of_agents (k r)) end.

(** ** The handlers *)

(** Whether a broker is wired in. *)
Record CircuitBreakerHandlers := { ch_Secrets : bool }.

Record recordOutcomeRequest := { or_Success : bool; or_CostUSD : option float64 }.

Inductive BreakerResponse :=
| KUnauthenticated
| KBadBody
| NotTripped
| TrippedOut (reason : Breaker.Reason) (rec : AgentRecord)
| TripFailed (e : AgentError)
| KRecordFound (rec : AgentRecord)
| KFailed (e : AgentError).

Definition breaker_status (r : BreakerResponse) : Z :=
  match r with
  | KUnauthenticated => 401
  | KBadBody => 400
  | NotTripped | TrippedOut _ _ | KRecordFound _ => 200
  | KFailed ErrNotFound => 404
  | KFailed (ErrNotReleased _) => 409
  | TripFailed _ | KFailed _ => 500
  end.

Definition ownerOf (name version : string) : string := name +:+ "@" +:+ version.

(** The reason an outcome gives; formatting it into a sentence is [sentence]. *)
Definition applyQuarantine (h : CircuitBreakerHandlers) (tenant name version reason : string)
  : KM (result AgentError AgentRecord) :=
  r ← of_agents (Quarantine tenant name version reason);
  match r with
  | Err e => mret (Err e)
  | Ok rec =>
      if ch_Secrets h then
        _ ← ask (KRevokeAll (ownerOf name version)); mret (Ok rec)
      else mret (Ok rec)
  end.

Context (sentence : Breaker.Reason → string).

Definition recordOutcome (h : CircuitBreakerHandlers) (caller : option Caller) (name version : string)
    (body : option recordOutcomeRequest) : KM BreakerResponse :=
  match caller with
  | None => mret KUnauthenticated
  | Some c =>
      match body with
      | None => mret KBadBody
      | Some b =>
          verdict ← ask (KRecord name version {| Success := or_Success b; CostUSD := or_CostUSD b |});
          if negb (Tripped verdict) then mret NotTripped
          else
            r ← applyQuarantine h (Tenant c) name version (sentence (VerdictReason verdict));
            mret (match r with
                  | Err e => TripFailed e
                  | Ok rec => TrippedOut (VerdictReason verdict) rec
                  end)
      end
  end.

Definition quarantine_route (h : CircuitBreakerHandlers) (caller : option Caller) (name version : string)
    (body : option string) : KM BreakerResponse :=
  match caller with
  | None => mret KUnauthenticated
  | Some c =>
      match body with
      | None => mret KBadBody
      | Some reason =>
          let reason := if sempty reason then "manual kill switch" else reason in
          r ← applyQuarantine h (Tenant c) name version reason;
          mret (match r with Err e => KFailed e | Ok rec => KRecordFound rec end)
      end
  end.

Definition unquarantine_route (h : CircuitBreakerHandlers) (caller : option Caller) (name version : string)
  : KM BreakerResponse :=
  match caller with
  | None => mret KUnauthenticated
  | Some c =>
      r ← of_agents (Unquarantine (Tenant c) name version);
      match r with
      | Err e => mret (KFailed e)
      | Ok rec => _ ← ask (KReset name version); mret (KRecordFound rec)
      end
  end.

(** ** What the registry was left with *)

Lemma of_agents_alone {A} (m : prog areply A) w w' a :
  alone ksem w (of_agents m) w' a ↔ ∃ t', alone asem (kw_agents w) m t' a ∧ w' = with_agents w t'.
Proof.
  revert w. induction m as [a0|c k IH]; intros w; simpl.
  - split; [intros [-> ->]; exists (kw_agents w); by destruct w|].
    intros (t' & [-> ->] & ->). by destruct w.
  - setoid_rewrite IH. split.
    + intros (r & w1 & (t1 & Hs & ->) & t' & Ha & ->). exists t'. eauto.
    + intros (t' & (r & t1 & Hs & Ha) & ->). exists r, (with_agents w t1). naive_solver.
Qed.

Lemma then_get_ok (u : result (option refusal) ()) tenant name version msg t t' rec :
  alone asem t (match u with
                | Err e => mret (Err (StoreFailed msg e))
                | Ok _ => Get tenant name version
                end) t' (Ok rec) →
  u = Ok tt ∧ t' = t.
Proof.
  destruct u as [[]|e]; [by intros [-> _]%Get_alone|]. by intros [_ ?].
Qed.

Lemma then_get_table (u : result (option refusal) ()) tenant name version msg t t' res :
  alone asem t (match u with
                | Err e => mret (Err (StoreFailed msg e))
                | Ok _ => Get tenant name version
                end) t' res →
  t' = t.
Proof. destruct u as [[]|e]; [by intros [-> _]%Get_alone|]. by intros [-> _]. Qed.

(** Quarantining alone: the row it found was released; whatever fails, nothing but
    that row changes, and an answered record means it did. *)
Lemma Quarantine_table t tenant name version reason t' res :
  alone asem t (Quarantine tenant name version reason) t' res →
  let k := (tenant, name, version) in
  (t' = t ∨ ∃ now, t' = alter (with_quarantine now true (Some reason)) k t) ∧
  ∀ rec, res = Ok rec → ∃ r now, t !! k = Some r ∧ ag_lifecycle r = LifecycleReleased ∧
    t' = alter (with_quarantine now true (Some reason)) k t.
Proof.
  cbv zeta. unfold Quarantine. rewrite alone_bind. intros (got & t1 & [-> Hgot]%Get_alone & Ha).
  destruct got as [current|e]; [|by destruct Ha as [-> ->]; split; [left|]].
  destruct (Hgot current eq_refl) as (r & Hr & Hl). rewrite Hl in Ha.
  case_bool_decide as Hrel; simpl in Ha; [|by destruct Ha as [-> ->]; split; [left|]].
  destruct Ha as (u & t2 & Hs & Ha). pose proof Ha as ->%then_get_table. split.
  - apply (asem_cases _ (AQuarantine _ _)) in Hs as [->|[now ->]]; eauto.
  - intros rec ->. apply then_get_ok in Ha as [-> _]. exists r.
    destruct Hs as [now [(a & Ha & _)|[(e & _ & [=] & _)|[[=] _]]]]. exists now. split_and!; [done|done|].
    unfold sql_quarantine, sql_update in Ha. repeat case_match; simplify_eq. done.
Qed.

Lemma Unquarantine_table t tenant name version t' rec :
  alone asem t (Unquarantine tenant name version) t' (Ok rec) →
  ∃ r now, t !! (tenant, name, version) = Some r ∧
    t' = alter (with_quarantine now false None) (tenant, name, version) t.
Proof.
  unfold Unquarantine. rewrite alone_bind. intros (got & t1 & [-> Hgot]%Get_alone & Ha).
  destruct got as [current|e]; [|by destruct Ha as [_ ?]].
  destruct (Hgot current eq_refl) as (r & Hr & _). destruct Ha as (u & t2 & Hs & Ha).
  apply then_get_ok in Ha as [-> ->]. destruct Hs as [now [(a & Ha & _)|[(e & _ & [=] & _)|[[=] _]]]].
  exists r, now. split; [done|]. unfold sql_unquarantine, sql_update in Ha. repeat case_match; by simplify_eq.
Qed.

Lemma applyQuarantine_effect h tenant name version reason w w' res :
  alone ksem w (applyQuarantine h tenant name version reason) w' res →
  let k := (tenant, name, version) in
  kw_breaker w' = kw_breaker w ∧ (∀ k', k' ≠ k → kw_agents w' !! k' = kw_agents w !! k') ∧
  match res with
  | Ok _ =>
      (∃ r now, kw_agents w !! k = Some r ∧ ag_lifecycle r = LifecycleReleased ∧
         kw_agents w' !! k = Some (with_quarantine now true (Some reason) r)) ∧
      kw_broker w' = if ch_Secrets h then (RevokeAllForOwner (kw_broker w) (ownerOf name version)).1
                     else kw_broker w
  | Err _ => kw_broker w' = kw_broker w
  end.
Proof.
  cbv zeta. unfold applyQuarantine. rewrite alone_bind.
  intros (r & w1 & (t' & Hq & ->)%of_agents_alone & Ha). apply Quarantine_table in Hq as [Ht Hok].
  assert (Hne : ∀ k', k' ≠ (tenant, name, version) → t' !! k' = kw_agents w !! k').
  { intros k' Hk. destruct Ht as [->|[now ->]]; [done|by rewrite lookup_alter_ne]. }
  assert (Hrow : ∀ rec, r = Ok rec → ∃ r now, kw_agents w !! (tenant, name, version) = Some r ∧
    ag_lifecycle r = LifecycleReleased ∧
    t' !! (tenant, name, version) = Some (with_quarantine now true (Some reason) r)).
  { intros rec Hrec. destruct (Hok rec Hrec) as (row & now & Hr & Hl & ->). exists row, now.
    by rewrite lookup_alter_eq, Hr. }
  destruct r as [rec|e]; [|by destruct Ha as [-> ->]].
  specialize (Hrow rec eq_refl). destruct (ch_Secrets h); [|by destruct Ha as [-> ->]].
  destruct Ha as (n & w2 & Hs & -> & ->). simpl in Hs.
  destruct (RevokeAllForOwner (kw_broker w) (ownerOf name version)) as [b n'] eqn:Hb.
  by destruct Hs as [-> ->].
Qed.

Lemma owner_named name version : ownerOf name version ≠ "".
Proof. unfold ownerOf. by destruct name. Qed.

(** Pulling the kill switch by hand: an answered record means the version was
    released and its row is now quarantined for the reason given, and, where a
    broker is wired in, that no lease of the version is held any more while every
    other owner's is; an error revokes nothing. Either way the breaker and every
    other version's row are as they were. *)
Theorem quarantine_takes_hold h c name version reason w w' resp :
  let k := (Tenant c, name, version) in
  alone ksem w (quarantine_route h (Some c) name version (Some reason)) w' resp →
  kw_breaker w' = kw_breaker w ∧ (∀ k', k' ≠ k → kw_agents w' !! k' = kw_agents w !! k') ∧
  match resp with
  | KRecordFound _ =>
      (∃ r r', kw_agents w !! k = Some r ∧ ag_lifecycle r = LifecycleReleased ∧ same_version r r' ∧
         kw_agents w' !! k = Some r' ∧ ag_quarantined r' = true ∧
         ag_reason r' = Some (if sempty reason then "manual kill switch" else reason)) ∧
      (ch_Secrets h = true → ∀ ref l, leases (kw_broker w') !! ref = Some l ↔
         leases (kw_broker w) !! ref = Some l ∧ lease_owner l ≠ ownerOf name version)
  | KFailed _ => kw_broker w' = kw_broker w
  | _ => False
  end.
Proof.
  cbv zeta. unfold quarantine_route. rewrite alone_bind.
  intros (r & w1 & He%applyQuarantine_effect & -> & ->). destruct He as (Hb & Ho & Hr).
  split; [done|]. split; [done|]. destruct r as [rec|e]; [|done].
  destruct Hr as [(row & now & Hrow & Hl & Hrow') Hbr]. split.
  - exists row, (with_quarantine now true (Some (if sempty reason then "manual kill switch" else reason)) row).
    split_and!; done.
  - intros Hsec ref l. rewrite Hbr, Hsec. unfold RevokeAllForOwner.
    destruct (sempty (ownerOf name version)) eqn:Hs; [by apply sempty_true, owner_named in Hs|].
    simpl. rewrite map_lookup_filter_Some. done.
Qed.

(** Reports of outcomes, each served to its end, whatever it answers. *)
Inductive reports (h : CircuitBreakerHandlers) (name version : string)
  : kworld → list (Caller * recordOutcomeRequest) → kworld → Prop :=
| reports_none w : reports h name version w [] w
| reports_one w w1 w2 c b l resp :
    alone ksem w (recordOutcome h (Some c) name version (Some b)) w1 resp →
    reports h name version w1 l w2 → reports h name version w ((c, b) :: l) w2.

Definition observation (b : recordOutcomeRequest) : Observation :=
  {| Success := or_Success b; CostUSD := or_CostUSD b |}.

Lemma recordOutcome_alone h c name version b w w' resp :
  alone ksem w (recordOutcome h (Some c) name version (Some b)) w' resp →
  let '(b', v) := RecordOutcome (kw_breaker w) name version (observation b) in
  if Tripped v then
    ∃ r, alone ksem (with_breaker w b')
           (applyQuarantine h (Tenant c) name version (sentence (VerdictReason v))) w' r ∧
         resp = match r with Err e => TripFailed e | Ok rec => TrippedOut (VerdictReason v) rec end
  else w' = with_breaker w b' ∧ resp = NotTripped.
Proof.
  unfold recordOutcome. rewrite alone_bind. intros (v & w1 & (v' & w2 & Hs & -> & ->) & Ha).
  unfold ksem, observation in *. destruct (RecordOutcome (kw_breaker w) name version _) as [b' v].
  destruct Hs as [-> ->]. destruct (Tripped v); [|exact Ha].
  cbn [negb] in Ha. apply (proj1 (alone_bind _ _ _ _ _ _)) in Ha as (r & w2 & Ha & -> & ->). eauto.
Qed.

Lemma recordOutcome_breaker h c name version b w w' resp :
  alone ksem w (recordOutcome h (Some c) name version (Some b)) w' resp →
  kw_breaker w' = (RecordOutcome (kw_breaker w) name version (observation b)).1.
Proof.
  intros Ha%recordOutcome_alone. destruct (RecordOutcome (kw_breaker w) name version _) as [b' v].
  destruct (Tripped v); [|by destruct Ha as [-> _]].
  destruct Ha as (r & He%applyQuarantine_effect & _). by destruct He as [-> _].
Qed.

Lemma reports_breaker h name version w l w' :
  reports h name version w l w' →
  kw_breaker w' = foldl (λ b (cb : Caller * recordOutcomeRequest),
                           (RecordOutcome b name version (observation cb.2)).1) (kw_breaker w) l.
Proof.
  induction 1 as [w|w w1 w2 c b l resp Ha _ IH]; [done|]. simpl. rewrite IH.
  by rewrite (recordOutcome_breaker _ _ _ _ _ _ _ _ Ha).
Qed.

Lemma five_failures_trip (a : Caller) name version :
  (name, version) ∈ quarantine (foldl (λ b (cb : Caller * recordOutcomeRequest),
    (RecordOutcome b name version (observation cb.2)).1) (New DefaultThresholds)
    (replicate 5 (a, {| or_Success := false; or_CostUSD := None |}))).
Proof.
  set (failed := {| Success := false; CostUSD := None |}).
  assert (Hstep : ∀ b w, quarantine b = ∅ → thresholds b = DefaultThresholds →
    default [] (windows b !! (name, version)) = w → (length w < 10)%nat →
    let b' := (RecordOutcome b name version failed).1 in
    default [] (windows b' !! (name, version)) = (w ++ [failed])%list ∧ thresholds b' = DefaultThresholds ∧
    quarantine b' = if Tripped (evaluate DefaultThresholds (w ++ [failed])) then {[(name, version)]} else ∅).
  { intros b w Hq Ht Hw Hlen. unfold RecordOutcome. rewrite bool_decide_eq_false_2 by (rewrite Hq; set_solver).
    rewrite Ht, Hw. unfold slide. cbn [WindowSize DefaultThresholds].
    assert (Hs : (10 <? Z.of_nat (length (w ++ [failed])))%Z = false) by (apply Z.ltb_ge; rewrite length_app; cbn [length]; lia).
    rewrite Hs. simpl. rewrite lookup_insert_eq. split_and!; [done|done|]. rewrite Hq.
    by rewrite union_empty_r_L. }
  cbn [replicate foldl]. change (observation _) with failed.
  set (b0 := New DefaultThresholds).
  destruct (Hstep b0 []) as (Hw1 & Ht1 & Hq1); [done|done|done|simpl; lia|].
  set (b1 := (RecordOutcome b0 name version failed).1) in *.
  destruct (Hstep b1 _ Hq1 Ht1 Hw1) as (Hw2 & Ht2 & Hq2); [simpl; lia|].
  set (b2 := (RecordOutcome b1 name version failed).1) in *.
  destruct (Hstep b2 _ Hq2 Ht2 Hw2) as (Hw3 & Ht3 & Hq3); [simpl; lia|].
  set (b3 := (RecordOutcome b2 name version failed).1) in *.
  destruct (Hstep b3 _ Hq3 Ht3 Hw3) as (Hw4 & Ht4 & Hq4); [simpl; lia|].
  set (b4 := (RecordOutcome b3 name version failed).1) in *.
  destruct (Hstep b4 _ Hq4 Ht4 Hw4) as (_ & _ & Hq5); [simpl; lia|].
  assert (He : Tripped (evaluate DefaultThresholds (((((([] ++ [failed]) ++ [failed]) ++ [failed]) ++ [failed]) ++ [failed])%list)) = true)
    by (vm_compute; reflexivity).
  rewrite Hq5, He. by apply elem_of_singleton.
Qed.

(** The breaker knows versions by name and version only, the registry by tenant
    too: five failures reported by one tenant, which need not own such a version,
    trip the breaker for every tenant, and the next outcome another tenant
    reports, a success, quarantines that tenant's released version. The breaker
    starts with the default thresholds. *)
Theorem one_tenant_trips_another h a b name version w w1 w2 resp :
  kw_breaker w = New DefaultThresholds →
  reports h name version w (replicate 5 (a, {| or_Success := false; or_CostUSD := None |})) w1 →
  alone ksem w1 (recordOutcome h (Some b) name version
                   (Some {| or_Success := true; or_CostUSD := None |})) w2 resp →
  (∃ e, resp = TripFailed e) ∨
  ∃ rec r, resp = TrippedOut AlreadyQuarantined rec ∧
    kw_agents w2 !! (Tenant b, name, version) = Some r ∧ ag_quarantined r = true.
Proof.
  intros Hw Hr%reports_breaker Ha%recordOutcome_alone. rewrite Hw in Hr.
  unfold RecordOutcome in Ha. rewrite bool_decide_eq_true_2 in Ha by (rewrite Hr; apply five_failures_trip).
  destruct Ha as (r & He%applyQuarantine_effect & ->).
  destruct He as (_ & _ & He). destruct r as [rec|e]; [right|left; eauto].
  destruct He as [(row & now & _ & _ & Hrow) _]. eexists rec, _. split_and!; [done|exact Hrow|done].
Qed.

(** Clearing a version by hand: an answered record means its row is no longer
    quarantined and the breaker counts its outcomes anew; a refusal leaves the
    breaker as it was. *)
Theorem unquarantine_starts_afresh h c name version w w' resp :
  alone ksem w (unquarantine_route h (Some c) name version) w' resp →
  match resp with
  | KRecordFound _ =>
      (∃ r, kw_agents w' !! (Tenant c, name, version) = Some r ∧ ag_quarantined r = false) ∧
      IsQuarantined (kw_breaker w') name version = false ∧
      windows (kw_breaker w') !! (name, version) = None
  | KFailed _ => kw_breaker w' = kw_breaker w
  | _ => False
  end ∧ kw_broker w' = kw_broker w.
Proof.
  unfold unquarantine_route. rewrite alone_bind.
  intros (r & w1 & (t' & Hq & ->)%of_agents_alone & Ha).
  destruct r as [rec|e]; [|by destruct Ha as [-> ->]].
  destruct Ha as (u & w2 & -> & -> & ->). apply Unquarantine_table in Hq as (row & now & Hrow & ->).
  simpl. split; [|done]. split_and!.
  - eexists. split; [by rewrite lookup_alter_eq, Hrow|done].
  - unfold IsQuarantined. apply bool_decide_eq_false_2. simpl. set_solver.
  - apply lookup_delete_eq.
Qed.
End kill_switch.

Module KillWitnesses.
#[local] Existing Instance verbatim_postgres.
#[local] Existing Instance flat_json.
Import AgentRegistry.AgentWitnesses.

(** Every call served at time 0, none of them failing. *)
Definition kserve (w : kworld) (c : kcall) : kworld * kreply c :=
  match c with
  | KRecord name version obs =>
      let '(b, v) := RecordOutcome (kw_breaker w) name version obs in (with_breaker w b, v)
  | KReset name version => (with_breaker w (Reset_ (kw_breaker w) name version), tt)
  | KRevokeAll owner =>
      let '(b, n) := RevokeAllForOwner (kw_broker w) owner in (with_broker w b, n)
  | KAgent c => let '(t, r) := aserve 0 (kw_agents w) c in (with_agents w t, r)
  end.
Lemma kserve_sem w c : ksem w c (kserve w c).2 (kserve w c).1.
Proof.
  destruct c as [name version obs|name version|owner|c]; simpl.
  - by destruct (RecordOutcome _ _ _ _).
  - done.
  - by destruct (RevokeAllForOwner _ _).
  - pose proof (aserve_sem 0 (kw_agents w) c) as Hs. destruct (aserve 0 (kw_agents w) c) as [t r].
    simpl in *. eauto.
Qed.
Lemma served_alone {A} (m : prog kreply A) w :
  alone ksem w m (Program.run kserve w m).1 (Program.run kserve w m).2.
Proof. apply run_alone. apply kserve_sem. Qed.

Definition wired : CircuitBreakerHandlers := {| ch_Secrets := true |}.
Definition of_tenant (t : string) : Caller :=
  {| ID := t; Kind := KindService; MayActAs := []; MayApprove := false; Tenant := t; TokenSHA256 := ""; MayActForTenants := [] |}.
Definition me : Caller := of_tenant "t".
Definition stranger : Caller := of_tenant "u".
Definition bytes7 : list Z := replicate 16 7%Z.
Definition lent : Broker :=
  (IssueForOwner (NewBroker {["db" := "s3cret"]}) 0 (Some bytes7) "db" 0 (ownerOf "a" "1")).1.
Definition start : kworld :=
  {| kw_breaker := New DefaultThresholds; kw_broker := lent; kw_agents := after (take 3 ops) |}.

Lemma quarantine_takes_hold_witness :
  let '(w, resp) := Program.run kserve start (quarantine_route wired (Some me) "a" "1" (Some "")) in
  breaker_status resp = 200%Z ∧ size (leases (kw_broker start)) = 1%nat ∧
  leases (kw_broker w) !! ("lease_" +:+ hex_encode bytes7) = None.
Proof.
  set (m := quarantine_route wired (Some me) "a" "1" (Some "")).
  pose proof (quarantine_takes_hold wired me "a" "1" "" start _ _ (served_alone m start)) as (_ & _ & Hr).
  assert (Hs : breaker_status (Program.run kserve start m).2 = 200%Z) by (vm_compute; reflexivity).
  destruct (Program.run kserve start m) as [w resp]. simpl in Hr, Hs. split_and!; [done|vm_compute; reflexivity|].
  destruct resp as [| | | | |rec|[]]; try done; destruct Hr as [_ Hl].
  destruct (leases (kw_broker w) !! _) as [l|] eqn:Hlease; [|done].
  apply (Hl eq_refl) in Hlease as [Hin Hne]. revert Hne.
  assert (Hlent : leases (kw_broker start) !! ("lease_" +:+ hex_encode bytes7) =
    Some {| secretName := "db"; expiresAt := DefaultLeaseTTL; lease_owner := ownerOf "a" "1" |})
    by (vm_compute; reflexivity).
  pose proof (eq_trans (eq_sym Hin) Hlent) as [= ->]. intros Hne. by destruct (Hne eq_refl).
Defined.

Definition toy_sentence (r : Breaker.Reason) : string := "tripped".
Definition failure : recordOutcomeRequest := {| or_Success := false; or_CostUSD := None |}.
Definition success : recordOutcomeRequest := {| or_Success := true; or_CostUSD := None |}.
Definition report (w : kworld) (cb : Caller * recordOutcomeRequest) : kworld :=
  (Program.run kserve w (recordOutcome toy_sentence wired (Some cb.1) "a" "1" (Some cb.2))).1.
Lemma reported w l : reports toy_sentence wired "a" "1" w l (foldl report w l).
Proof.
  revert w. induction l as [|[c b] l IH]; intros w; [constructor|]. simpl.
  eapply reports_one; [apply served_alone|apply IH].
Qed.

(** A stranger's five failures, for a version its own tenant does not have. *)
Lemma one_tenant_trips_another_witness :
  let w1 := foldl report start (replicate 5 (stranger, failure)) in
  kw_agents w1 = kw_agents start ∧
  ∃ rec r, (Program.run kserve w1 (recordOutcome toy_sentence wired (Some me) "a" "1" (Some success))).2 =
      TrippedOut AlreadyQuarantined rec ∧
    kw_agents (Program.run kserve w1 (recordOutcome toy_sentence wired (Some me) "a" "1" (Some success))).1
      !! ("t", "a", "1") = Some r ∧ ag_quarantined r = true.
Proof.
  set (l := replicate 5 (stranger, failure)). set (w1 := foldl report start l).
  split; [vm_compute; reflexivity|].
  destruct (one_tenant_trips_another toy_sentence wired stranger me "a" "1" start w1 _ _ eq_refl
    (reported start l) (served_alone _ w1)) as [[e He]|Hr]; [|exact Hr].
  exfalso. revert He. vm_compute. discriminate.
Defined.

Lemma unquarantine_starts_afresh_witness :
  let w1 := foldl report start (replicate 5 (me, failure)) in
  IsQuarantined (kw_breaker w1) "a" "1" = true ∧
  IsQuarantined (kw_breaker (Program.run kserve w1 (unquarantine_route wired (Some me) "a" "1")).1) "a" "1" = false.
Proof.
  set (w1 := foldl report start (replicate 5 (me, failure))). split; [vm_compute; reflexivity|].
  pose proof (unquarantine_starts_afresh wired me "a" "1" w1 _ _ (served_alone _ w1)) as [Hr _].
  assert (Hs : breaker_status (Program.run kserve w1 (unquarantine_route wired (Some me) "a" "1")).2 = 200%Z)
    by (vm_compute; reflexivity).
  destruct (Program.run kserve w1 _) as [w resp]. clearbody w1; cbn [fst snd] in *.
  destruct resp as [| | | | |rec|[]]; try done. by destruct Hr as (_ & Hq & _).
Defined.
End KillWitnesses.
