(* ===== verification/A2A.v ===== *)
(** * Package a2a: task states, requests and relayed responses

    go/internal/a2a/taskstate.go and egress.go: which states end a remote task, the
    envelope of a JSON-RPC request, and what is handed up of a remote's response.
    The names of the states are the protocol library's, a class here. A body is
    what its bytes denote. *)

From S2P Require Import Prelude GoValue Json.

Local Open Scope string_scope.
Set Default Proof Using "Type*".

(** The states of the A2A library, which are different strings. *)
Class TaskStates := {
  TaskStateSubmitted : string;
  TaskStateWorking : string;
  TaskStateInputRequired : string;
  TaskStateAuthRequired : string;
  TaskStateCompleted : string;
  TaskStateFailed : string;
  TaskStateCanceled : string;
  TaskStateRejected : string;
  TaskStateUnknown : string;
}.
Class TaskStatesLaws `{TaskStates} : Prop := task_states_distinct : NoDup [
  TaskStateSubmitted; TaskStateWorking; TaskStateInputRequired; TaskStateAuthRequired;
  TaskStateCompleted; TaskStateFailed; TaskStateCanceled; TaskStateRejected; TaskStateUnknown].

Section states.
Context `{TaskStates}.

Definition terminalStates : gset string :=
  {[TaskStateCompleted; TaskStateFailed; TaskStateCanceled; TaskStateRejected]}.
Definition pausedForHuman : gset string := {[TaskStateInputRequired; TaskStateAuthRequired]}.
Definition knownStates : gset string :=
  {[TaskStateSubmitted; TaskStateWorking; TaskStateInputRequired; TaskStateAuthRequired;
    TaskStateCompleted; TaskStateFailed; TaskStateCanceled; TaskStateRejected; TaskStateUnknown]}.

Record StateClassification := {
  State : string;
  Terminal : bool;
  PausedForHuman : bool;
  Recognised : bool;
}.
Definition no_classification : StateClassification :=
  {| State := ""; Terminal := false; PausedForHuman := false; Recognised := false |}.

Definition ClassifyState (state : string) : StateClassification :=
  {| State := state;
     Terminal := bool_decide (state ∈ terminalStates);
     PausedForHuman := bool_decide (state ∈ pausedForHuman);
     Recognised := bool_decide (state ∈ knownStates) |}.

Definition EffectiveState (c : StateClassification) : string :=
  if Terminal c || Recognised c then State c else TaskStateWorking.

(** What is handed up is always a state of the protocol: the remote's own when it is
    known, working otherwise, and never one that ends the task unless the remote
    named it. *)
Lemma EffectiveState_known s :
  let c := ClassifyState s in
  EffectiveState c ∈ knownStates ∧ (s ∈ knownStates → EffectiveState c = s) ∧
  (s ∉ knownStates → EffectiveState c = TaskStateWorking).
Proof.
  assert (Hsub : terminalStates ⊆ knownStates) by (unfold terminalStates, knownStates; set_solver).
  simpl. unfold EffectiveState, ClassifyState. simpl.
  destruct (bool_decide (s ∈ knownStates)) eqn:Hk; [apply bool_decide_eq_true in Hk|apply bool_decide_eq_false in Hk].
  - rewrite orb_true_r. by split_and!.
  - rewrite bool_decide_eq_false_2 by set_solver. simpl. split_and!; [|done|done].
    unfold knownStates. set_solver.
Qed.

Lemma terminal_or_paused `{!TaskStatesLaws} s :
  ¬ (Terminal (ClassifyState s) = true ∧ PausedForHuman (ClassifyState s) = true) ∧
  Terminal (ClassifyState TaskStateWorking) = false.
Proof.
  pose proof task_states_distinct as Hnd. rewrite !NoDup_cons in Hnd. simpl.
  unfold terminalStates, pausedForHuman. rewrite !bool_decide_eq_true, bool_decide_eq_false.
  set_solver.
Qed.

(** ** Requests *)

Record RPCRequest := { JSONRPC : string; RPC_ID : option json; Method : string; Params : option json }.
Definition no_request : RPCRequest := {| JSONRPC := ""; RPC_ID := None; Method := ""; Params := None |}.

Definition StartsWork (r : RPCRequest) : bool :=
  bool_decide (Method r = "message/send") || bool_decide (Method r = "message/stream").

Inductive RPCError := NotJSONRPC | NoMethod.

Definition rpc_fields : list string := ["jsonrpc"; "id"; "method"; "params"].

(** One member of the object: a wrong type is remembered and decoding goes on. *)
Definition rpc_member (acc : RPCRequest * bool) (kv : string * json) : RPCRequest * bool :=
  let '(r, bad) := acc in
  match field_of rpc_fields kv.1 with
  | None => acc
  | Some f =>
      if String.eqb f "jsonrpc" then
        let '(s, e) := decode_string (JSONRPC r) kv.2 in
        ({| JSONRPC := s; RPC_ID := RPC_ID r; Method := Method r; Params := Params r |}, bad || e)
      else if String.eqb f "id" then
        ({| JSONRPC := JSONRPC r; RPC_ID := Some kv.2; Method := Method r; Params := Params r |}, bad)
      else if String.eqb f "method" then
        let '(s, e) := decode_string (Method r) kv.2 in
        ({| JSONRPC := JSONRPC r; RPC_ID := RPC_ID r; Method := s; Params := Params r |}, bad || e)
      else ({| JSONRPC := JSONRPC r; RPC_ID := RPC_ID r; Method := Method r; Params := Some kv.2 |}, bad)
  end.

Definition ParseRPCRequest (body : RawMessage) : result RPCError RPCRequest :=
  let parsed :=
    match body with
    | RawDoc (JObject fields) =>
        let '(r, bad) := foldl rpc_member (no_request, false) fields in if (bad : bool) then None else Some r
    | RawDoc JNull => Some no_request
    | _ => None
    end in
  match parsed with
  | None => Err NotJSONRPC
  | Some r => if sempty (Method r) then Err NoMethod else Ok r
  end.

(** ** Responses *)

Context `{GoJson}.

Record RemoteResult := {
  TaskID : string;
  Classification : StateClassification;
  Rewritten : RawMessage;
  StateRewritten : bool;
}.

(** [status["state"] = s] where status is the map in result in the envelope. *)
Definition with_state (envelope result status : gmap string any) (s : string) : gmap string any :=
  <["result" := AMap (<["status" := AMap (<["state" := AString s]> status)]> result)]> envelope.

Definition RelayResponse (body : RawMessage) : RemoteResult :=
  let as_is id c := {| TaskID := id; Classification := c; Rewritten := body; StateRewritten := false |} in
  match match body with RawDoc d => unmarshal_map d | _ => None end with
  | None => as_is "" no_classification
  | Some envelope =>
      match as_map_opt (mget (items envelope) "result") with
      | None => as_is "" no_classification
      | Some result =>
          let taskID := as_string (mget result "id") in
          match as_map_opt (mget result "status") with
          | None =>
              let message := bool_decide (as_string (mget result "kind") = "message") in
              as_is taskID {| State := ""; Terminal := message; PausedForHuman := false; Recognised := message |}
          | Some status =>
              let class := ClassifyState (as_string (mget status "state")) in
              let effective := EffectiveState class in
              if bool_decide (effective = State class) then as_is taskID class
              else match marshal_map (Some (with_state (items envelope) result status effective)) with
                   | None => as_is taskID class
                   | Some j => {| TaskID := taskID; Classification := class; Rewritten := RawDoc j;
                                  StateRewritten := true |}
                   end
          end
      end
  end.

(** The state of the task a body carries, as a client reads it: none when there is no
    task status in it. *)
Definition task_state (body : RawMessage) : option string :=
  match match body with RawDoc d => unmarshal_map d | _ => None end with
  | None => None
  | Some envelope =>
      result ← as_map_opt (mget (items envelope) "result");
      status ← as_map_opt (mget result "status");
      Some (as_string (mget status "state"))
  end.

(** What encoding/json documents of a map it decoded itself: with a state replaced by
    another, it can be encoded, and the encoding denotes that map. *)
Definition re_encodable (body : RawMessage) : Prop :=
  ∀ d envelope result status s,
    body = RawDoc d → unmarshal_map d = Some envelope →
    as_map_opt (mget (items envelope) "result") = Some result →
    as_map_opt (mget result "status") = Some status → s ∈ knownStates →
    ∃ j, marshal_map (Some (with_state (items envelope) result status s)) = Some j ∧
      unmarshal_map j = Some (Some (with_state (items envelope) result status s)).

(** Whatever a remote reports, the body handed up carries a task status exactly
    when the remote's did, and its state is then one of the protocol: the remote's
    own, in the remote's own body, if it is one; working otherwise. The
    classification keeps what the remote said, and only one of the four final
    states, or a message in place of a task, is terminal. *)
Theorem relay_hides_unknown_states body :
  re_encodable body →
  let out := RelayResponse body in
  (task_state body = None → task_state (Rewritten out) = None ∧
     (Terminal (Classification out) = true → Recognised (Classification out) = true)) ∧
  (∀ s, task_state body = Some s →
     task_state (Rewritten out) = Some (if bool_decide (s ∈ knownStates) then s else TaskStateWorking) ∧
     State (Classification out) = s ∧ Terminal (Classification out) = bool_decide (s ∈ terminalStates)) ∧
  (StateRewritten out = false → Rewritten out = body) ∧
  (StateRewritten out = true ↔ ∃ s, task_state body = Some s ∧ s ∉ knownStates).
Proof.
  intros Hre. cbv zeta. unfold RelayResponse.
  destruct (match body with RawDoc d => unmarshal_map d | _ => None end) as [envelope|] eqn:Hu.
  2: { simpl. unfold task_state. rewrite Hu. naive_solver. }
  destruct (as_map_opt (mget (items envelope) "result")) as [result|] eqn:Hr; simpl.
  2: { unfold task_state. rewrite Hu, Hr. naive_solver. }
  destruct (as_map_opt (mget result "status")) as [status|] eqn:Hst; simpl.
  2: { unfold task_state. rewrite Hu, Hr. simpl. rewrite Hst. naive_solver. }
  set (s := as_string (mget status "state")).
  destruct (EffectiveState_known s) as (Hk & Hid & Hw). cbv zeta in *.
  assert (Hbody : task_state body = Some s) by (unfold task_state; rewrite Hu, Hr; simpl; by rewrite Hst).
  destruct (decide (s ∈ knownStates)) as [Hin|Hout].
  - rewrite (bool_decide_eq_true_2 (EffectiveState _ = _)) by (by apply Hid). simpl.
    rewrite Hbody. split_and!; [done| |done|naive_solver].
    intros s' [= <-]. by rewrite bool_decide_eq_true_2.
  - rewrite (bool_decide_eq_false_2 (EffectiveState _ = _))
      by (rewrite (Hw Hout); intros Heq; simpl in Heq; rewrite <-Heq in Hout;
          apply Hout; unfold knownStates; set_solver).
    destruct body as [| |d]; [done|done|].
    destruct (Hre d envelope result status (EffectiveState (ClassifyState s)) eq_refl Hu Hr Hst Hk) as (j & Hj & Hback).
    rewrite Hj. simpl. rewrite Hbody. split_and!; [done| |done|naive_solver].
    intros s' [= <-]. unfold task_state. rewrite Hback. unfold with_state, items, mget. simpl.
    rewrite lookup_insert_eq. simpl. rewrite lookup_insert_eq. simpl. rewrite lookup_insert_eq. simpl.
    by rewrite bool_decide_eq_false_2, (Hw Hout).
Qed.
End states.

Module A2AWitnesses.
(** The names of the protocol's specification, and a codec of nested maps of
    strings. *)
Definition named_states : TaskStates := {|
  TaskStateSubmitted := "submitted"; TaskStateWorking := "working";
  TaskStateInputRequired := "input-required"; TaskStateAuthRequired := "auth-required";
  TaskStateCompleted := "completed"; TaskStateFailed := "failed"; TaskStateCanceled := "canceled";
  TaskStateRejected := "rejected"; TaskStateUnknown := "unknown" |}.
#[local] Existing Instance named_states.
Lemma named_distinct : TaskStatesLaws.
Proof. unfold TaskStatesLaws. apply (bool_decide_eq_true_1 _). vm_compute. reflexivity. Qed.

Fixpoint json_of (depth : nat) (a : any) : json :=
  match depth with
  | O => JNull
  | S depth =>
      match a with
      | AString s => JString s
      | AMap m => JObject ((λ kv, (kv.1, json_of depth kv.2)) <$> map_to_list m)
      | _ => JNull
      end
  end.
Definition nested_json : GoJson := {|
  marshal_map m := Some (match m with None => JNull | Some m => json_of 5 (AMap m) end);
  unmarshal_map := @unmarshal_map tree_json |}.
#[local] Existing Instance nested_json.

Definition reply (state : string) : json :=
  JObject [("jsonrpc", JString "2.0"); ("id", JString "7");
           ("result", JObject [("id", JString "task-1"); ("status", JObject [("state", JString state)])])].

Definition status0 : gmap string any := {["state" := AString "paused-by-vendor"]}.
Definition result0 : gmap string any := {["id" := AString "task-1"; "status" := AMap status0]}.
Definition envelope0 : gmap string any :=
  {["jsonrpc" := AString "2.0"; "id" := AString "7"; "result" := AMap result0]}.

Lemma reply_read : unmarshal_map (reply "paused-by-vendor") = Some (Some envelope0).
Proof. vm_cast_no_check (@eq_refl (option gomap) (Some (Some envelope0))). Qed.

Definition reread (s : string) : option gomap :=
  match marshal_map (Some (with_state envelope0 result0 status0 s)) with
  | Some j => unmarshal_map j
  | None => None
  end.
Ltac by_machine s :=
  vm_cast_no_check (@eq_refl (option gomap) (Some (Some (with_state envelope0 result0 status0 s)))).

Lemma reread_known s : s ∈ knownStates → reread s = Some (Some (with_state envelope0 result0 status0 s)).
Proof.
  unfold knownStates. rewrite !elem_of_union, !elem_of_singleton.
  intros [[[[[[[[->| ->]| ->]| ->]| ->]| ->]| ->]| ->]| ->].
  - by_machine "submitted".
  - by_machine "working".
  - by_machine "input-required".
  - by_machine "auth-required".
  - by_machine "completed".
  - by_machine "failed".
  - by_machine "canceled".
  - by_machine "rejected".
  - by_machine "unknown".
Qed.

Lemma reply_re_encodable : re_encodable (RawDoc (reply "paused-by-vendor")).
Proof.
  intros d envelope result status s [= <-] Hu Hr Hst Hs%reread_known. rewrite reply_read in Hu.
  injection Hu as <-. injection Hr as <-. injection Hst as <-.
  eexists. split; [reflexivity|]. exact Hs.
Qed.

Lemma relay_hides_unknown_states_witness :
  task_state (Rewritten (RelayResponse (RawDoc (reply "paused-by-vendor")))) = Some "working" ∧
  State (Classification (RelayResponse (RawDoc (reply "paused-by-vendor")))) = "paused-by-vendor".
Proof.
  destruct (relay_hides_unknown_states (RawDoc (reply "paused-by-vendor")) reply_re_encodable) as (_ & Hs & _).
  destruct (Hs "paused-by-vendor") as (Ht & Hc & _); [vm_compute; reflexivity|].
  split; [|exact Hc]. rewrite Ht. vm_compute. reflexivity.
Defined.
End A2AWitnesses.
