(* ===== verification/Delegations.v ===== *)
(** * Package store: delegations and remote agents

    go/internal/store/a2a_delegations.go: the ledger of delegations, whose open rows
    are the slots a run may use at once, and remote_agents.go: the destinations a
    tenant declares. Opening a delegation is a transaction under an advisory lock,
    modelled statement by statement between those of other connections. Times are
    nanoseconds. *)

From S2P Require Import Prelude GoValue Json Program.

Local Open Scope string_scope.
Set Default Proof Using "Type*".

(** [NULLIF(s, '')] and [COALESCE(s, '')]. *)
Definition nullif (s : string) : option string := if sempty s then None else Some s.
Definition coalesce (s : option string) : string := default "" s.

(** ** Delegations *)

Record Delegation := {
  dl_ID : Z;
  dl_RunID : string;
  dl_StepID : string;
  dl_AgentManifestRef : string;
  dl_RemoteAgentID : string;
  dl_RPCMethod : string;
  dl_RemoteTaskID : string;
  dl_TaskState : string;
  dl_Terminal : option bool;
  dl_HopDepth : option Z;
  dl_DeniedReason : string;
  dl_CreatedAt : Z;
  dl_CompletedAt : option Z;
}.

(** A row of a2a_delegations. *)
Record drow := {
  d_tenant : string;
  d_run : option string;
  d_step : option string;
  d_agent : string;
  d_remote : string;
  d_method : string;
  d_task : option string;
  d_state : option string;
  d_terminal : option bool;
  d_hop : option Z;
  d_denied : option string;
  d_created : Z;
  d_completed : option Z;
}.
Abbreviation dtable := (gmap Z drow).

Record OpenOptions := { op_Delegation : Delegation; MaxInFlight : Z; StaleAfter : Z }.

Inductive OpenError :=
| BeginFailed
| LockFailed (run : string)
| CountFailed (run : string)
| FanOut (run : string) (inFlight max : Z)
| InsertFailed (remote : string)
| CommitFailed.

Definition FanOutExceeded {A} (r : result OpenError A) : option (Z * Z) :=
  match r with Err (FanOut _ inFlight max) => Some (inFlight, max) | _ => None end.

(** [int(d.Seconds())]: the whole seconds and the fraction are added as floats. *)
Definition whole_seconds (d : Z) : Z :=
  default 0%Z (f_trunc_Z (fadd (f_of_Z (d / 1000000000)) (fdiv (f_of_Z (d mod 1000000000)) (f_of_Z 1000000000)))).
Definition nanoseconds (secs : Z) : Z := secs * 1000000000.

Section delegations.
Context `{Postgres}.
(** Postgres's hashtext. *)
Context (hashtext : string → Z).

(** *** Statements *)

Definition hop_ok (h : option Z) : bool :=
  match h with Some n => ((- 2 ^ 31 <=? n) && (n <? 2 ^ 31))%Z | None => true end.

Definition insertable (tenant : string) (rec : Delegation) : bool :=
  text_ok tenant && text_ok (dl_RunID rec) && text_ok (dl_StepID rec) && text_ok (dl_AgentManifestRef rec) &&
  text_ok (dl_RemoteAgentID rec) && text_ok (dl_RPCMethod rec) && hop_ok (dl_HopDepth rec).

Definition fresh_row (now : Z) (tenant : string) (rec : Delegation) : drow :=
  {| d_tenant := tenant; d_run := nullif (dl_RunID rec); d_step := nullif (dl_StepID rec);
     d_agent := dl_AgentManifestRef rec; d_remote := dl_RemoteAgentID rec; d_method := dl_RPCMethod rec;
     d_task := None; d_state := None; d_terminal := None; d_hop := dl_HopDepth rec; d_denied := None;
     d_created := now; d_completed := None |}.
Definition denied_row (now : Z) (tenant : string) (rec : Delegation) (reason : string) : drow :=
  {| d_tenant := tenant; d_run := nullif (dl_RunID rec); d_step := nullif (dl_StepID rec);
     d_agent := dl_AgentManifestRef rec; d_remote := dl_RemoteAgentID rec; d_method := dl_RPCMethod rec;
     d_task := None; d_state := None; d_terminal := None; d_hop := dl_HopDepth rec; d_denied := Some reason;
     d_created := now; d_completed := Some now |}.

(** The rows the count of a run's slots counts. *)
Definition in_flight (tenant run : string) (after : Z) (r : drow) : Prop :=
  d_tenant r = tenant ∧ d_run r = Some run ∧ d_completed r = None ∧ (after < d_created r)%Z.
#[export] Instance in_flight_dec tenant run after r : Decision (in_flight tenant run after r).
Proof. unfold in_flight. apply _. Defined.
Definition sql_count (t : dtable) (tenant run : string) (after : Z) : Z :=
  Z.of_nat (size (filter (λ kv : Z * drow, in_flight tenant run after kv.2) t)).

Definition with_report (task : option string) (state : string) (terminal : option bool) (completed : option Z)
    (r : drow) : drow :=
  {| d_tenant := d_tenant r; d_run := d_run r; d_step := d_step r; d_agent := d_agent r; d_remote := d_remote r;
     d_method := d_method r; d_task := task; d_state := nullif state; d_terminal := terminal; d_hop := d_hop r;
     d_denied := d_denied r; d_created := d_created r; d_completed := completed |}.

(** [COALESCE(NULLIF($2, ''), remote_task_id)]. *)
Definition kept_task (task : string) (r : drow) : option string :=
  match nullif task with Some t => Some t | None => d_task r end.

Definition sql_observe (t : dtable) (id : Z) (task state : string) (terminal : option bool) : dtable :=
  alter (λ r, with_report (kept_task task r) state terminal (d_completed r) r) id t.
Definition sql_close (now : Z) (t : dtable) (id : Z) (task state : string) (terminal : option bool) : dtable :=
  alter (λ r, with_report (kept_task task r) state terminal (Some now) r) id t.

Definition of_task (run task : string) (r : drow) : Prop :=
  d_task r = Some task ∧ d_completed r = None ∧ d_run r = nullif run.
#[export] Instance of_task_dec run task r : Decision (of_task run task r).
Proof. unfold of_task. apply _. Defined.
Definition sql_close_task (now : Z) (t : dtable) (run task state : string) (terminal : option bool) : dtable * Z :=
  ((λ r, if bool_decide (of_task run task r) then with_report (d_task r) state terminal (Some now) r else r) <$> t,
   Z.of_nat (size (filter (λ kv : Z * drow, of_task run task kv.2) t))).

Definition read_row (id : Z) (r : drow) : Delegation :=
  {| dl_ID := id; dl_RunID := coalesce (d_run r); dl_StepID := coalesce (d_step r);
     dl_AgentManifestRef := d_agent r; dl_RemoteAgentID := d_remote r; dl_RPCMethod := d_method r;
     dl_RemoteTaskID := coalesce (d_task r); dl_TaskState := coalesce (d_state r); dl_Terminal := d_terminal r;
     dl_HopDepth := d_hop r; dl_DeniedReason := coalesce (d_denied r); dl_CreatedAt := d_created r;
     dl_CompletedAt := d_completed r |}.

(** *** Calls and operations *)

Inductive dcall :=
| DBegin
| DLock (key : Z)
| DCount (tenant run : string) (secs : Z)
| DInsert (tenant : string) (rec : Delegation)
| DCommit
| DRollback
| DObserve (id : Z) (task state : string) (terminal : option bool)
| DClose (id : Z) (task state : string) (terminal : option bool)
| DCloseTask (run task state : string) (terminal : option bool)
| DDeny (tenant : string) (rec : Delegation) (reason : string)
| DForRun (tenant run : string).
Definition dreply (c : dcall) : Type :=
  match c with
  | DCount _ _ _ | DCloseTask _ _ _ _ => result () Z
  | DInsert _ _ => result () (Z * Z)
  | DForRun _ _ => result () (list Delegation)
  | DRollback => ()
  | _ => result () ()
  end.
Abbreviation DM := (prog dreply).

Definition lock_key (run : string) : Z := hashtext ("a2a-fanout:" +:+ run).

Definition limited (opts : OpenOptions) : bool :=
  (0 <? MaxInFlight opts)%Z && negb (sempty (dl_RunID (op_Delegation opts))).
Definition stale_after (opts : OpenOptions) : Z :=
  if (StaleAfter opts <=? 0)%Z then 3600 * 1000000000 else StaleAfter opts.

(** Every return rolls back; after a commit that has no effect. *)
Definition leave {A} (r : result OpenError A) : DM (result OpenError A) :=
  _ ← ask DRollback; mret r.

Definition opened (rec : Delegation) (id created : Z) : Delegation :=
  {| dl_ID := id; dl_RunID := dl_RunID rec; dl_StepID := dl_StepID rec;
     dl_AgentManifestRef := dl_AgentManifestRef rec; dl_RemoteAgentID := dl_RemoteAgentID rec;
     dl_RPCMethod := dl_RPCMethod rec; dl_RemoteTaskID := ""; dl_TaskState := ""; dl_Terminal := None;
     dl_HopDepth := dl_HopDepth rec; dl_DeniedReason := ""; dl_CreatedAt := created; dl_CompletedAt := None |}.

Definition open_commit (rec : Delegation) (id created : Z) : DM (result OpenError Delegation) :=
  c ← ask DCommit;
  match c : result () () with
  | Err _ => leave (Err CommitFailed)
  | Ok _ => leave (Ok (opened rec id created))
  end.
Definition open_insert (tenant : string) (rec : Delegation) : DM (result OpenError Delegation) :=
  i ← ask (DInsert tenant rec);
  match i : result () (Z * Z) with
  | Err _ => leave (Err (InsertFailed (dl_RemoteAgentID rec)))
  | Ok (id, created) => open_commit rec id created
  end.
Definition open_count (tenant : string) (opts : OpenOptions) : DM (result OpenError Delegation) :=
  let rec := op_Delegation opts in
  n ← ask (DCount tenant (dl_RunID rec) (whole_seconds (stale_after opts)));
  match n : result () Z with
  | Err _ => leave (Err (CountFailed (dl_RunID rec)))
  | Ok inFlight =>
      if (MaxInFlight opts <=? inFlight)%Z
      then leave (Err (FanOut (dl_RunID rec) inFlight (MaxInFlight opts)))
      else open_insert tenant rec
  end.
Definition open_lock (tenant : string) (opts : OpenOptions) : DM (result OpenError Delegation) :=
  l ← ask (DLock (lock_key (dl_RunID (op_Delegation opts))));
  match l : result () () with
  | Err _ => leave (Err (LockFailed (dl_RunID (op_Delegation opts))))
  | Ok _ => open_count tenant opts
  end.

Definition Open (tenant : string) (opts : OpenOptions) : DM (result OpenError Delegation) :=
  b ← ask DBegin;
  match b : result () () with
  | Err _ => mret (Err BeginFailed)
  | Ok _ => if limited opts then open_lock tenant opts else open_insert tenant (op_Delegation opts)
  end.

Definition Observe (id : Z) (remoteTaskID taskState : string) (terminal : option bool) : DM (result () ()) :=
  ask (DObserve id remoteTaskID taskState terminal).
Definition Close (id : Z) (remoteTaskID taskState : string) (terminal : option bool) : DM (result () ()) :=
  ask (DClose id remoteTaskID taskState terminal).
Definition CloseByTaskID (runID remoteTaskID taskState : string) (terminal : option bool) : DM (result () Z) :=
  if sempty remoteTaskID then mret (Ok 0%Z) else ask (DCloseTask runID remoteTaskID taskState terminal).
Definition RecordDenial (tenant : string) (rec : Delegation) (reason : string) : DM (result () ()) :=
  ask (DDeny tenant rec reason).
Definition ForRun (tenant runID : string) : DM (result () (list Delegation)) := ask (DForRun tenant runID).

(** *** Connections *)

(** A transaction: when it began (its now()), the advisory locks it holds and the rows
    it inserted. A connection, one per process, has at most one. *)
Record tx := { tx_now : Z; tx_locks : gset Z; tx_rows : dtable }.
Record ddb := { rows : dtable; txs : gmap nat tx }.
Definition empty_db : ddb := {| rows := ∅; txs := ∅ |}.

Definition with_rows (w : ddb) (t : dtable) : ddb := {| rows := t; txs := txs w |}.
Definition with_tx (w : ddb) (i : nat) (x : tx) : ddb := {| rows := rows w; txs := <[i := x]> (txs w) |}.
Definition without_tx (w : ddb) (i : nat) : ddb := {| rows := rows w; txs := delete i (txs w) |}.

Definition unused (w : ddb) (id : Z) : Prop :=
  rows w !! id = None ∧ ∀ i x, txs w !! i = Some x → tx_rows x !! id = None.

(** A statement outside a transaction: done and answered, done and the answer lost,
    or not done. *)
Definition auto {A} (w : ddb) (t : dtable) (a : A) (r : result () A) (w' : ddb) : Prop :=
  (w' = with_rows w t ∧ (r = Ok a ∨ r = Err tt)) ∨ (w' = w ∧ r = Err tt).
(** A statement of the transaction of a connection, if it still has one. *)
Definition within_tx {A} (w : ddb) (i : nat) (r : result () A) (w' : ddb) (does : tx → Prop) : Prop :=
  (∃ x, txs w !! i = Some x ∧ does x) ∨ (r = Err tt ∧ w' = w).

Definition dsem (i : nat) (w : ddb) (c : dcall) : dreply c → ddb → Prop :=
  match c with
  | DBegin => λ r w',
      (r = Ok tt ∧ ∃ now, w' = with_tx w i {| tx_now := now; tx_locks := ∅; tx_rows := ∅ |}) ∨
      (r = Err tt ∧ w' = w)
  | DLock key => λ r w', within_tx w i r w' (λ x,
      (∀ j y, txs w !! j = Some y → key ∈ tx_locks y → j = i) ∧ r = Ok tt ∧
      w' = with_tx w i {| tx_now := tx_now x; tx_locks := {[key]} ∪ tx_locks x; tx_rows := tx_rows x |})
  | DCount tenant run secs => λ r w', within_tx w i r w' (λ x,
      r = Ok (sql_count (tx_rows x ∪ rows w) tenant run (tx_now x - nanoseconds secs)) ∧ w' = w)
  | DInsert tenant rec => λ r w', within_tx w i r w' (λ x,
      insertable tenant rec = true ∧ ∃ id, unused w id ∧ r = Ok (id, tx_now x) ∧
      w' = with_tx w i {| tx_now := tx_now x; tx_locks := tx_locks x;
                          tx_rows := <[id := fresh_row (tx_now x) tenant rec]> (tx_rows x) |})
  | DCommit => λ r w',
      within_tx w i r w' (λ x, w' = without_tx (with_rows w (tx_rows x ∪ rows w)) i) ∨
      (r = Err tt ∧ w' = without_tx w i)
  | DRollback => λ _ w', w' = without_tx w i
  | DObserve id task state terminal => λ r w', auto w (sql_observe (rows w) id task state terminal) tt r w'
  | DClose id task state terminal => λ r w', ∃ now, auto w (sql_close now (rows w) id task state terminal) tt r w'
  | DCloseTask run task state terminal => λ r w', ∃ now,
      let '(t, n) := sql_close_task now (rows w) run task state terminal in auto w t n r w'
  | DDeny tenant rec reason => λ r w',
      (insertable tenant rec = true ∧ text_ok reason = true ∧ ∃ now id, unused w id ∧
         auto w (<[id := denied_row now tenant rec reason]> (rows w)) tt r w') ∨ (r = Err tt ∧ w' = w)
  | DForRun tenant run => λ r w', w' = w ∧ (r = Err tt ∨ ∃ l, r = Ok l ∧
      l ≡ₚ (λ kv : Z * drow, read_row kv.1 kv.2) <$>
             map_to_list (filter (λ kv : Z * drow, d_tenant kv.2 = tenant ∧ d_run kv.2 = Some run) (rows w)) ∧
      StronglySorted (λ a b, dl_ID a ≤ dl_ID b)%Z l)
  end.

(** *** Every interleaving of gateways configured alike *)

Context (max stale : Z).

Inductive dop :=
| OpOpen (tenant : string) (rec : Delegation)
| OpObserve (id : Z) (task state : string) (terminal : option bool)
| OpClose (id : Z) (task state : string) (terminal : option bool)
| OpCloseTask (run task state : string) (terminal : option bool)
| OpDeny (tenant : string) (rec : Delegation) (reason : string)
| OpForRun (tenant run : string).

Definition configured (rec : Delegation) : OpenOptions :=
  {| op_Delegation := rec; MaxInFlight := max; StaleAfter := stale |}.
Definition fin {A} (m : DM A) : DM () := _ ← m; mret tt.
Definition dprogram (op : dop) : DM () :=
  match op with
  | OpOpen tenant rec => fin (Open tenant (configured rec))
  | OpObserve id task state terminal => fin (Observe id task state terminal)
  | OpClose id task state terminal => fin (Close id task state terminal)
  | OpCloseTask run task state terminal => fin (CloseByTaskID run task state terminal)
  | OpDeny tenant rec reason => fin (RecordDenial tenant rec reason)
  | OpForRun tenant run => fin (ForRun tenant run)
  end.

(** Processes call in any order; one may start on an idle connection, or die leaving
    its transaction open; the server may end a transaction. *)
Inductive dstep : ddb * gmap nat (DM ()) → ddb * gmap nat (DM ()) → Prop :=
| dstep_call w ps i c k r w' :
    ps !! i = Some (Vis c k) → dsem i w c r w' → dstep (w, ps) (w', <[i := k r]> ps)
| dstep_start w ps i op :
    ps !! i = None → txs w !! i = None → dstep (w, ps) (w, <[i := dprogram op]> ps)
| dstep_die w ps i : dstep (w, ps) (w, delete i ps)
| dstep_abort w ps i : dstep (w, ps) (without_tx w i, ps).

#[local] Set Default Proof Using "All".

(** *** Counting slots *)

Definition slots (P : drow → Prop) `{∀ r, Decision (P r)} (t : dtable) : nat :=
  size (filter (λ kv : Z * drow, P kv.2) t).

Lemma slots_sub P Q `{∀ r, Decision (P r)} `{∀ r, Decision (Q r)} (t t' : dtable) :
  (∀ id r', t' !! id = Some r' → Q r' → ∃ r, t !! id = Some r ∧ P r) → (slots Q t' ≤ slots P t)%nat.
Proof.
  intros Ht. unfold slots. rewrite <-!size_dom. apply subseteq_size. intros id.
  rewrite !elem_of_dom. intros [r' [Hr' HP]%map_lookup_filter_Some].
  destruct (Ht id r' Hr' HP) as (r & Hr & HPr). exists r. by apply map_lookup_filter_Some.
Qed.
Lemma slots_mono P `{∀ r, Decision (P r)} (t t' : dtable) :
  (∀ id r', t' !! id = Some r' → P r' → ∃ r, t !! id = Some r ∧ P r) → (slots P t' ≤ slots P t)%nat.
Proof. apply slots_sub. Qed.

Lemma slots_insert P `{∀ r, Decision (P r)} (t : dtable) id r : (slots P (<[id := r]> t) ≤ S (slots P t))%nat.
Proof.
  unfold slots. rewrite <-!size_dom.
  transitivity (size ({[id]} ∪ dom (filter (λ kv : Z * drow, P kv.2) t))).
  - apply subseteq_size. intros j. rewrite elem_of_dom. intros [r' [Hr' HP]%map_lookup_filter_Some].
    apply lookup_insert_Some in Hr' as [[-> ->]|[_ Hr']]; [set_solver|].
    apply elem_of_union_r, elem_of_dom. exists r'. by apply map_lookup_filter_Some.
  - rewrite size_union_alt, size_singleton. apply le_n_S. apply subseteq_size. set_solver.
Qed.

(** No open row appears: those there are were open before, with what the count reads
    unchanged. *)
Definition calm (t t' : dtable) : Prop :=
  ∀ id r', t' !! id = Some r' → d_completed r' = None →
    ∃ r, t !! id = Some r ∧ d_completed r = None ∧ d_tenant r' = d_tenant r ∧ d_run r' = d_run r ∧
      d_created r' = d_created r.

Lemma calm_refl t : calm t t.
Proof. intros id r ? ?. eauto 10. Qed.

Lemma calm_alter t f id :
  (∀ r, d_tenant (f r) = d_tenant r ∧ d_run (f r) = d_run r ∧ d_created (f r) = d_created r ∧
     (d_completed (f r) = None → d_completed r = None)) → calm t (alter f id t).
Proof.
  intros Hf j r'. rewrite lookup_alter. case_decide; [|eauto 10].
  intros (r & Hr & ->)%fmap_Some Hn. destruct (Hf r) as (? & ? & ? & ?). exists r. subst. naive_solver.
Qed.

Lemma calm_fmap (t : dtable) f :
  (∀ r, d_tenant (f r) = d_tenant r ∧ d_run (f r) = d_run r ∧ d_created (f r) = d_created r ∧
     (d_completed (f r) = None → d_completed r = None)) → calm t (f <$> t).
Proof.
  intros Hf j r'. rewrite lookup_fmap. intros (r & Hr & ->)%fmap_Some Hn.
  destruct (Hf r) as (? & ? & ? & ?). exists r. naive_solver.
Qed.

Lemma calm_closed (t : dtable) id r : d_completed r ≠ None → calm t (<[id := r]> t).
Proof.
  intros Hr j r'. intros [[<- <-]|[_ Hj]]%lookup_insert_Some Hn; [done|eauto 10].
Qed.

(** Outside a transaction no statement opens a row. *)
Lemma auto_calm {A} w t (a : A) r w' :
  calm (rows w) t → auto w t a r w' → calm (rows w) (rows w') ∧ txs w' = txs w.
Proof. intros Hc [[-> _]|[-> _]]; simpl; auto using calm_refl. Qed.

(** *** The position of each process *)

Definition window : Z := nanoseconds (whole_seconds (if (stale <=? 0)%Z then 3600 * 1000000000 else stale)).

(** The row of a limited opening, about to be committed, has a free slot that its lock
    keeps free. *)
Definition has_slot (w : ddb) (x : tx) (tenant run : string) : Prop :=
  sempty run = false → lock_key run ∈ tx_locks x ∧
    (Z.of_nat (slots (in_flight tenant run (tx_now x - window)) (rows w)) < max)%Z.

Definition on_tx (w : ddb) (i : nat) (P : tx → Prop) : Prop := ∀ x, txs w !! i = Some x → P x.

(** No call of a transaction but the rollback. *)
Definition plain_call (c : dcall) : Prop :=
  match c with DBegin | DLock _ | DCount _ _ _ | DInsert _ _ | DCommit => False | _ => True end.

Inductive position (i : nat) (w : ddb) : DM () → Prop :=
| at_plain m : within plain_call m → position i w m
| at_open tenant rec : txs w !! i = None → position i w (fin (Open tenant (configured rec)))
| at_lock tenant rec :
    on_tx w i (λ x, tx_rows x = ∅) → position i w (fin (open_lock tenant (configured rec)))
| at_count tenant rec :
    on_tx w i (λ x, tx_rows x = ∅ ∧ lock_key (dl_RunID rec) ∈ tx_locks x) →
    position i w (fin (open_count tenant (configured rec)))
| at_insert tenant rec :
    on_tx w i (λ x, tx_rows x = ∅ ∧ has_slot w x tenant (dl_RunID rec)) →
    position i w (fin (open_insert tenant rec))
| at_commit tenant rec id created :
    on_tx w i (λ x, tx_rows x = {[id := fresh_row (tx_now x) tenant rec]} ∧ has_slot w x tenant (dl_RunID rec)) →
    position i w (fin (open_commit rec id created)).

Definition exclusive (w : ddb) : Prop :=
  ∀ i j x y key, txs w !! i = Some x → txs w !! j = Some y → key ∈ tx_locks x → key ∈ tx_locks y → i = j.

(** The slots of a run that were taken in any stretch of time as long as a row counts. *)
Definition bounded (w : ddb) : Prop :=
  ∀ tenant run τ, (Z.of_nat (slots (λ r, in_flight tenant run (τ - window) r ∧ (d_created r ≤ τ)%Z) (rows w)) ≤ max)%Z.

Definition dinv (s : ddb * gmap nat (DM ())) : Prop :=
  (∀ i m, s.2 !! i = Some m → position i s.1 m) ∧ exclusive s.1 ∧ bounded s.1.

Lemma leave_plain {A} (r : result OpenError A) : within plain_call (fin (leave r)).
Proof. apply within_vis; [done|]. intros u. apply within_ret. Qed.

Lemma calm_in_flight t t' tenant run after :
  calm t t' → (slots (in_flight tenant run after) t' ≤ slots (in_flight tenant run after) t)%nat.
Proof.
  intros Hc. apply slots_mono. intros id r' Hr' (H1 & H2 & H3 & H4).
  destruct (Hc id r' Hr' H3) as (r & Hr & Hn & Ht & Hrun & Hcr). exists r. split; [done|].
  unfold in_flight. by rewrite <-Ht, <-Hrun, <-Hcr.
Qed.

Lemma calm_bounded w w' : calm (rows w) (rows w') → bounded w → bounded w'.
Proof.
  intros Hc Hb tenant run τ. etrans; [|apply (Hb tenant run τ)]. apply Nat2Z.inj_le, slots_mono.
  intros id r' Hr' [(H1 & H2 & H3 & H4) H5].
  destruct (Hc id r' Hr' H3) as (r & Hr & Hn & Ht & Hrun & Hcr). exists r. split; [done|].
  unfold in_flight. by rewrite <-Ht, <-Hrun, <-Hcr.
Qed.

(** A position holds on while the rows it counts do not grow and its transaction is
    untouched, or ended. *)
Lemma position_stable i w w' m :
  position i w m → (txs w' !! i = txs w !! i ∨ txs w' !! i = None) →
  (∀ tenant run x, txs w !! i = Some x → lock_key run ∈ tx_locks x →
     (slots (in_flight tenant run (tx_now x - window)) (rows w') ≤
      slots (in_flight tenant run (tx_now x - window)) (rows w))%nat) →
  position i w' m.
Proof.
  intros Hp Htx Hrows.
  assert (Hon : ∀ P P' : tx → Prop, (∀ x, txs w !! i = Some x → P x → P' x) → on_tx w i P → on_tx w' i P').
  { intros P P' HP Hw x Hx. destruct Htx as [Htx|Htx]; rewrite Htx in Hx; [|done]. eauto. }
  assert (Hslot : ∀ x tenant run, txs w !! i = Some x → has_slot w x tenant run → has_slot w' x tenant run).
  { intros x tenant run Hx Hs Hrun. destruct (Hs Hrun) as [Hk Hn]. split; [done|].
    specialize (Hrows tenant run x Hx Hk). lia. }
  destruct Hp as [m Hm|tenant rec Hn|tenant rec Ho|tenant rec Ho|tenant rec Ho|tenant rec id created Ho].
  - by apply at_plain.
  - apply at_open. destruct Htx as [->|]; done.
  - apply at_lock. by eapply Hon; [|exact Ho].
  - apply at_count. by eapply Hon; [|exact Ho].
  - apply at_insert. eapply Hon; [|exact Ho]. naive_solver.
  - apply (at_commit _ _ tenant). eapply Hon; [|exact Ho]. naive_solver.
Qed.

(** Plain calls leave every transaction but the caller's as it is, and open no row. *)
Lemma plain_sem i w c r w' :
  plain_call c → dsem i w c r w' →
  calm (rows w) (rows w') ∧ (txs w' = txs w ∨ txs w' = delete i (txs w)).
Proof.
  destruct c; simpl; try done; intros _.
  - intros ->. split; [apply calm_refl|by right].
  - intros [? ->]%auto_calm; [by split; [|left]|]. apply calm_alter. naive_solver.
  - intros [now [? ->]%auto_calm]; [by split; [|left]|]. apply calm_alter. naive_solver.
  - intros [now [? ->]%auto_calm]; [by split; [|left]|]. apply calm_fmap. intros r0.
    case_bool_decide; naive_solver.
  - intros [(_ & _ & now & id & _ & [? ->]%auto_calm)|[_ ->]].
    + by split; [|left].
    + by apply calm_closed.
    + split; [apply calm_refl|by left].
  - intros [-> _]. split; [apply calm_refl|by left].
Qed.

(** What one call of a process must keep. *)
Definition kept (i : nat) (w w' : ddb) : Prop :=
  exclusive w' ∧ bounded w' ∧ ∀ j m, j ≠ i → position j w m → position j w' m.

Lemma kept_calm i w w' :
  exclusive w → bounded w → calm (rows w) (rows w') → (∀ j, j ≠ i → txs w' !! j = txs w !! j) →
  (∀ x, txs w' !! i = Some x → ∃ y, txs w !! i = Some y ∧ tx_locks x ⊆ tx_locks y) →
  kept i w w'.
Proof.
  intros He Hb Hc Ho Hi. split_and!.
  - assert (Hy : ∀ j x, txs w' !! j = Some x → ∃ y, txs w !! j = Some y ∧ tx_locks x ⊆ tx_locks y).
    { intros j x Hx. destruct (decide (j = i)) as [->|Hj]; [auto|]. rewrite Ho in Hx by done. eauto. }
    intros j k x y key Hx Hyk Hkx Hky. apply Hy in Hx as (x' & Hx & ?). apply Hy in Hyk as (y' & Hyk & ?).
    by apply (He j k x' y' key); [done|done|set_solver|set_solver].
  - by apply calm_bounded with w.
  - intros j m Hj Hp. apply (position_stable j w); [done|left; auto|]. intros. by apply calm_in_flight.
Qed.

Lemma kept_refl i w : exclusive w → bounded w → kept i w w.
Proof. intros. apply kept_calm; eauto using calm_refl. Qed.

Lemma on_tx_with w i x P : P x → on_tx (with_tx w i x) i P.
Proof. intros HP y. simpl. rewrite lookup_insert_eq. by intros [= <-]. Qed.

Lemma limited_empty rec : (0 < max)%Z → limited (configured rec) = negb (sempty (dl_RunID rec)).
Proof. intros Hm. unfold limited. simpl. by rewrite (proj2 (Z.ltb_lt _ _) Hm). Qed.

Lemma leave_at i w {A} (r : result OpenError A) : position i w (fin (leave r)).
Proof. apply at_plain, leave_plain. Qed.

(** The row a commit adds is in a slot its lock kept free. *)
Lemma kept_commit i w x tenant rec id :
  (0 < max)%Z → exclusive w → bounded w → txs w !! i = Some x →
  tx_rows x = {[id := fresh_row (tx_now x) tenant rec]} → has_slot w x tenant (dl_RunID rec) →
  kept i w (without_tx (with_rows w (tx_rows x ∪ rows w)) i).
Proof.
  intros Hm He Hb Hx Hrows Hs. set (row := fresh_row (tx_now x) tenant rec) in *.
  assert (Heq : tx_rows x ∪ rows w = <[id := row]> (rows w)) by (rewrite Hrows; by rewrite insert_union_singleton_l).
  rewrite Heq. split_and!.
  - intros j k y z key. simpl. rewrite !lookup_delete_Some. intros [_ ?] [_ ?]. by apply He.
  - intros t run τ. simpl.
    set (P := λ r, in_flight t run (τ - window) r ∧ (d_created r ≤ τ)%Z).
    destruct (decide (P row)) as [HP|HP].
    + destruct HP as [(Ht & Hr & _ & Ha) Hle]. simpl in Ht, Hr, Ha, Hle. subst t.
      unfold nullif in Hr. destruct (sempty (dl_RunID rec)) eqn:Hrun; [done|]. injection Hr as <-.
      destruct (Hs Hrun) as [_ Hfree].
      pose proof (slots_insert P (rows w) id row) as Hi.
      assert (Hsub : (slots P (rows w) ≤ slots (in_flight tenant (dl_RunID rec) (tx_now x - window)) (rows w))%nat).
      { apply slots_sub. intros j r Hj [(H1 & H2 & H3 & H4) H5]. exists r. split; [done|].
        unfold in_flight. split_and!; [done..|]. lia. }
      lia.
    + etrans; [|apply (Hb t run τ)]. apply Nat2Z.inj_le, slots_mono.
      intros j r [[<- <-]|[_ Hj]]%lookup_insert_Some Hr; [done|eauto].
  - intros j m Hj Hp. apply (position_stable j w); [done|left; simpl; by rewrite lookup_delete_ne|].
    intros t run y Hy Hk. simpl. apply slots_mono.
    intros k r [[<- <-]|[_ Hin]]%lookup_insert_Some Hr; [|eauto]. exfalso.
    destruct Hr as (_ & Hr & _). simpl in Hr. unfold nullif in Hr.
    destruct (sempty (dl_RunID rec)) eqn:Hrun; [done|]. injection Hr as <-.
    destruct (Hs Hrun) as [Hki _]. by apply Hj, (He j i y x (lock_key (dl_RunID rec))).
Qed.

Lemma position_step i w m :
  (0 < max)%Z → position i w m → exclusive w → bounded w →
  match m with
  | Ret _ => True
  | Vis c k => ∀ r w', dsem i w c r w' → position i w' (k r) ∧ kept i w w'
  end.
Proof.
  intros Hm Hp He Hb.
  destruct Hp as [m Hpl|tenant rec Hn|tenant rec Ho|tenant rec Ho|tenant rec Ho|tenant rec id created Ho].
  - destruct m as [|c k]; [done|]. intros r w' Hs.
    assert (Hc : plain_call c) by (apply Hpl; by left).
    destruct (plain_sem _ _ _ _ _ Hc Hs) as [Hcalm Ht]. split.
    + apply at_plain. intros c' Hc'. apply Hpl. right. by exists r.
    + apply kept_calm; [done..| |].
      * intros j Hj. destruct Ht as [->| ->]; [done|by rewrite lookup_delete_ne].
      * destruct Ht as [->| ->]; [eauto|]. intros x. by rewrite lookup_delete_eq.
  - intros r w' [[-> [now ->]]|[-> ->]].
    + split.
      * change (position i (with_tx w i {| tx_now := now; tx_locks := ∅; tx_rows := ∅ |})
          (fin (if limited (configured rec) then open_lock tenant (configured rec) else open_insert tenant rec))).
        destruct (limited (configured rec)) eqn:Hl; [apply at_lock|apply at_insert]; apply on_tx_with; [done|].
        split; [done|]. intros Hrun. rewrite limited_empty, Hrun in Hl by done. done.
      * split_and!.
        -- intros j k x y key. simpl. rewrite !lookup_insert_Some.
           intros [[_ <-]|[? Hx]] [[_ <-]|[? Hy]]; simpl; first [by apply He|set_solver].
        -- done.
        -- intros j m Hj Hp. apply (position_stable j w); [done|left; simpl; by rewrite lookup_insert_ne|done].
    + split; [apply at_plain, within_ret|by apply kept_refl].
  - intros r w' [(x & Hx & Hfree & -> & ->)|[-> ->]]; [|split; [apply leave_at|by apply kept_refl]]. split.
    + apply at_count, on_tx_with. simpl. split; [by apply Ho|set_solver].
    + split_and!.
      * intros j k y z key. simpl. rewrite !lookup_insert_Some.
        intros [[<- <-]|[Hj Hy]] [[<- <-]|[Hk Hz]]; simpl; [done| | |by apply He].
        -- intros [Heq%elem_of_singleton|Hin]%elem_of_union Hkz; [subst key; symmetry; by eapply Hfree|by eapply He].
        -- intros Hky [Heq%elem_of_singleton|Hin]%elem_of_union; [subst key; by eapply Hfree|by eapply He].
      * done.
      * intros j m Hj Hp. apply (position_stable j w); [done|left; simpl; by rewrite lookup_insert_ne|done].
  - intros r w' [(x & Hx & -> & ->)|[-> ->]]; [|split; [apply leave_at|by apply kept_refl]].
    split; [|by apply kept_refl]. destruct (Ho x Hx) as [Hrows Hkey]. rewrite Hrows, (left_id_L ∅ (∪)).
    cbn [configured MaxInFlight op_Delegation].
    change (position i w (fin (if (max <=? sql_count (rows w) tenant (dl_RunID rec) (tx_now x - window))%Z
      then leave (Err (FanOut (dl_RunID rec) (sql_count (rows w) tenant (dl_RunID rec) (tx_now x - window)) max))
      else open_insert tenant rec))).
    destruct (max <=? _)%Z eqn:Hfull; [apply leave_at|]. apply at_insert.
    intros y Hy. rewrite Hx in Hy. injection Hy as <-. split; [done|]. intros _. split; [done|].
    unfold sql_count in Hfull. unfold slots. lia.
  - intros r w' [(x & Hx & _ & id & _ & -> & ->)|[-> ->]]; [|split; [apply leave_at|by apply kept_refl]].
    destruct (Ho x Hx) as [Hrows Hs]. split.
    + apply (at_commit _ _ tenant), on_tx_with. simpl. rewrite Hrows. split; [by rewrite insert_empty|].
      exact Hs.
    + apply kept_calm; [done|done|apply calm_refl|intros j Hj; simpl; by rewrite lookup_insert_ne|].
      intros y. simpl. rewrite lookup_insert_eq. intros [= <-]. eauto.
  - intros r w' [[(x & Hx & ->)|[-> ->]]|[-> ->]].
    + destruct (Ho x Hx) as [Hrows Hs]. split; [destruct r; apply leave_at|]. by eapply kept_commit.
    + split; [apply leave_at|by apply kept_refl].
    + split; [apply leave_at|]. apply kept_calm; [done|done|apply calm_refl|intros j Hj; simpl; by rewrite lookup_delete_ne|].
      intros y. simpl. by rewrite lookup_delete_eq.
Qed.

Lemma dinv_step s s' : (0 < max)%Z → dstep s s' → dinv s → dinv s'.
Proof.
  intros Hm Hs (Hp & He & Hb). destruct Hs as [w ps i c k r w' Hi Hc|w ps i op Hi Ht|w ps i|w ps i]; simpl in *.
  - destruct (position_step i w _ Hm (Hp i _ Hi) He Hb r w' Hc) as [Hpos (He' & Hb' & Hf)].
    split_and!; [|done|done]. simpl. intros j m [[<- <-]|[Hj Hm']]%lookup_insert_Some; [done|].
    apply Hf; [done|]. by apply Hp.
  - split_and!; [|done|done]. simpl. intros j m [[<- <-]|[Hj Hm']]%lookup_insert_Some; [|by apply Hp].
    destruct op; simpl; [by apply at_open|..]; apply at_plain.
    1-2,4-5: apply within_vis; [done|intros ?; apply within_ret].
    unfold CloseByTaskID. destruct (sempty task); [apply within_ret|].
    apply within_vis; [done|intros ?; apply within_ret].
  - split_and!; [|done|done]. simpl. intros j m [_ Hm']%lookup_delete_Some. by apply Hp.
  - assert (Ht : ∀ j, txs (without_tx w i) !! j = txs w !! j ∨ txs (without_tx w i) !! j = None).
    { intros j. simpl. destruct (decide (i = j)) as [->|Hj]; [right; apply lookup_delete_eq|].
      left. by apply lookup_delete_ne. }
    split_and!; [|intros j k x y key|done]; simpl.
    + intros j m Hm'. by apply (position_stable j w); [apply Hp|apply Ht|].
    + rewrite !lookup_delete_Some. intros [_ ?] [_ ?]. by apply He.
Qed.

(** C7. The fan-out limit holds across every replica: however openings, closings and
    denials interleave, fail, or die between two statements, the delegations of a
    run that were opened within any stretch of time as long as a slot counts, and
    are still open, are never more than the limit. *)
Theorem fan_out_bounded w ps tenant run τ :
  (0 < max)%Z → rtc dstep (empty_db, ∅) (w, ps) →
  (Z.of_nat (slots (λ r, in_flight tenant run (τ - window) r ∧ (d_created r ≤ τ)%Z) (rows w)) ≤ max)%Z.
Proof.
  intros Hm Hs. assert (Hinv : dinv (w, ps)).
  { refine (rtc_ind_r (λ s, dinv s) (empty_db, ∅) _ _ _ Hs).
    - split_and!; [done|done|]. intros t r0 τ0. unfold slots. simpl. rewrite map_filter_empty, map_size_empty. lia.
    - intros s s' _ Hstep. by apply dinv_step. }
  apply Hinv.
Qed.

(** *** One opening, alone *)

Lemma leave_alone {A} i w (r : result OpenError A) w' res :
  alone (dsem i) w (leave r) w' res → w' = without_tx w i ∧ res = r.
Proof. intros (u & w1 & -> & -> & ->). done. Qed.

(** From the insertion on: the row is there, or the commit failed and it may be, or
    nothing changed. *)
Lemma open_commit_alone i w x rec id created w' res :
  txs w !! i = Some x → alone (dsem i) w (open_commit rec id created) w' res →
  (rows w' = tx_rows x ∪ rows w ∧ (res = Ok (opened rec id created) ∨ res = Err CommitFailed)) ∨
  (rows w' = rows w ∧ res = Err CommitFailed).
Proof.
  intros Hx (c & w1 & Hc & Ha).
  assert (Hres : w' = without_tx w1 i ∧
    res = match c : result () () with Ok _ => Ok (opened rec id created) | Err _ => Err CommitFailed end)
    by (destruct c; by apply leave_alone in Ha).
  destruct Hres as [-> ->]. destruct Hc as [[(y & Hy & ->)|[-> ->]]|[-> ->]]; [|by right..].
  rewrite Hx in Hy. injection Hy as <-. left. split; [done|]. destruct c; auto.
Qed.

Lemma open_insert_alone i w x tenant rec w' res :
  txs w !! i = Some x → tx_rows x = ∅ → alone (dsem i) w (open_insert tenant rec) w' res →
  (∃ id, unused w id ∧ rows w' = <[id := fresh_row (tx_now x) tenant rec]> (rows w) ∧
     (res = Ok (opened rec id (tx_now x)) ∨ res = Err CommitFailed)) ∨
  (rows w' = rows w ∧ (res = Err CommitFailed ∨ res = Err (InsertFailed (dl_RemoteAgentID rec)))).
Proof.
  intros Hx Hrows (r & w1 & [(y & Hy & _ & id & Hid & -> & ->)|[-> ->]] & Ha).
  2: { apply leave_alone in Ha as [-> ->]. right. auto. }
  rewrite Hx in Hy. injection Hy as <-. rewrite Hrows, insert_empty in Ha.
  eapply open_commit_alone in Ha; [|apply lookup_insert_eq]. simpl in Ha.
  rewrite <-insert_union_singleton_l in Ha. destruct Ha as [[? ?]|[? ?]]; [left; eauto|right; auto].
Qed.

(** Opening a delegation with nobody else about: it is admitted exactly in a free
    slot, as a new open row that is the answer's; it is refused with the number of
    slots taken when that has reached the limit, and then, as after every failure
    before the commit, the ledger is as it was. *)
Theorem Open_alone i w tenant rec w' res :
  txs w = ∅ → alone (dsem i) w (Open tenant (configured rec)) w' res →
  ∃ now, let n := sql_count (rows w) tenant (dl_RunID rec) (now - window) in
  match res with
  | Ok d => (limited (configured rec) = true → (n < max)%Z) ∧
      ∃ id, unused w id ∧ rows w' = <[id := fresh_row now tenant rec]> (rows w) ∧ d = opened rec id now
  | Err (FanOut run inFlight limit) =>
      rows w' = rows w ∧ limited (configured rec) = true ∧ run = dl_RunID rec ∧ limit = max ∧
      inFlight = n ∧ (max ≤ n)%Z
  | Err CommitFailed => rows w' = rows w ∨ ∃ id, rows w' = <[id := fresh_row now tenant rec]> (rows w)
  | Err _ => rows w' = rows w
  end.
Proof.
  intros Htx (b & w1 & [[-> [now ->]]|[-> ->]] & Ha); exists now || exists 0%Z; cbv zeta.
  2: { by destruct Ha as [-> ->]. }
  set (x := {| tx_now := now; tx_locks := ∅; tx_rows := ∅ |}) in *.
  assert (Hinsert : ∀ w0 y, rows w0 = rows w → txs w0 !! i = Some y → tx_rows y = ∅ → tx_now y = now →
    (limited (configured rec) = true → (sql_count (rows w) tenant (dl_RunID rec) (now - window) < max)%Z) →
    alone (dsem i) w0 (open_insert tenant rec) w' res →
    match res with
    | Ok d => (limited (configured rec) = true → (sql_count (rows w) tenant (dl_RunID rec) (now - window) < max)%Z) ∧
        ∃ id, unused w id ∧ rows w' = <[id := fresh_row now tenant rec]> (rows w) ∧ d = opened rec id now
    | Err (FanOut run inFlight limit) => False
    | Err CommitFailed => rows w' = rows w ∨ ∃ id, rows w' = <[id := fresh_row now tenant rec]> (rows w)
    | Err _ => rows w' = rows w
    end).
  { intros w0 y Hr Hy Hyr Hyn Hfree Hi. eapply open_insert_alone in Hi; [|done..]. rewrite Hyn, Hr in Hi.
    destruct Hi as [(id & Hid & Hw & [-> | ->])|[Hw [-> | ->]]]; simpl; eauto.
    split; [done|]. exists id. split_and!; [|done|done].
    split; [rewrite <-Hr; apply Hid|]. intros j z. by rewrite Htx, lookup_empty. }
  change (alone (dsem i) (with_tx w i x)
    (if limited (configured rec) then open_lock tenant (configured rec) else open_insert tenant rec) w' res) in Ha.
  destruct (limited (configured rec)) eqn:Hl.
  - destruct Ha as (l & w1 & [(y & Hy & _ & -> & ->)|[-> ->]] & Ha).
    2: { apply leave_alone in Ha as [-> ->]. done. }
    simpl in Hy. rewrite lookup_insert_eq in Hy. injection Hy as <-.
    destruct Ha as (n & w2 & [(y & Hy & -> & ->)|[-> ->]] & Ha).
    2: { apply leave_alone in Ha as [-> ->]. done. }
    simpl in Hy. rewrite lookup_insert_eq in Hy. injection Hy as <-.
    change (alone (dsem i) (with_tx (with_tx w i x) i {| tx_now := now; tx_locks := {[lock_key (dl_RunID rec)]} ∪ ∅; tx_rows := ∅ |})
      (if (max <=? sql_count (∅ ∪ rows w) tenant (dl_RunID rec) (now - window))%Z
       then leave (Err (FanOut (dl_RunID rec) (sql_count (∅ ∪ rows w) tenant (dl_RunID rec) (now - window)) max))
       else open_insert tenant rec) w' res) in Ha.
    rewrite (left_id_L ∅ (∪)) in Ha.
    destruct (max <=? _)%Z eqn:Hfull.
    + apply leave_alone in Ha as [-> ->]. simpl. split_and!; [done..|]. lia.
    + assert (Hlt : (sql_count (rows w) tenant (dl_RunID rec) (now - window) < max)%Z) by lia.
      eapply Hinsert in Ha; [|done|apply lookup_insert_eq|done..]. by destruct res as [d|[]].
  - eapply Hinsert in Ha; [|done|apply lookup_insert_eq|done..]. by destruct res as [d|[]].
Qed.
End delegations.

(** ** Remote agents *)

Definition RiskLow : string := "LOW".
Definition RiskMedium : string := "MEDIUM".
Definition RiskHigh : string := "HIGH".
Definition RiskCritical : string := "CRITICAL".

Record RemoteAgentRecord := {
  AgentID : string;
  URL : string;
  Risk : string;
  Description : string;
  CredentialSecretName : string;
  ra_CreatedAt : Z;
  ra_UpdatedAt : Z;
}.
(** A row of remote_agents, under its tenant and agent id. *)
Record rrow := {
  rr_url : string;
  rr_risk : string;
  rr_description : option string;
  rr_credential : option string;
  rr_created : Z;
  rr_updated : Z;
}.
Abbreviation rtable := (gmap (string * string) rrow).

Inductive DeclareError :=
| NeedsAgentID
| NeedsURL (id : string)
| BadRisk (id risk : string)
| DeclareFailed (id : string).
Inductive GetError := ErrRemoteAgentNotDeclared (id : string) | ReadFailed (id : string).

Section remote_agents.
Context `{Postgres}.
Implicit Types (t : rtable).

Definition valid_risk (risk : string) : bool :=
  bool_decide (risk ∈ [RiskLow; RiskMedium; RiskHigh; RiskCritical]).

Definition sql_declare (now : Z) t (tenant : string) (rec : RemoteAgentRecord) : rtable * rrow :=
  let row := {| rr_url := URL rec; rr_risk := Risk rec; rr_description := nullif (Description rec);
                rr_credential := nullif (CredentialSecretName rec);
                rr_created := match t !! (tenant, AgentID rec) with Some r => rr_created r | None => now end;
                rr_updated := now |} in
  (<[(tenant, AgentID rec) := row]> t, row).
Definition scan_remote (id : string) (r : rrow) : RemoteAgentRecord :=
  {| AgentID := id; URL := rr_url r; Risk := rr_risk r; Description := coalesce (rr_description r);
     CredentialSecretName := coalesce (rr_credential r); ra_CreatedAt := rr_created r; ra_UpdatedAt := rr_updated r |}.
Definition text_row (tenant : string) (rec : RemoteAgentRecord) : bool :=
  text_ok tenant && text_ok (AgentID rec) && text_ok (URL rec) && text_ok (Description rec) &&
  text_ok (CredentialSecretName rec).

Inductive xcall :=
| XDeclare (tenant : string) (rec : RemoteAgentRecord)
| XGet (tenant id : string)
| XList (tenant : string).
Definition xreply (c : xcall) : Type :=
  match c with
  | XDeclare _ _ => result () RemoteAgentRecord
  | XGet _ _ => result () (option RemoteAgentRecord)
  | XList _ => result () (list RemoteAgentRecord)
  end.

Definition xsem (t : rtable) (c : xcall) : xreply c → rtable → Prop :=
  match c with
  | XDeclare tenant rec => λ r t',
      (text_row tenant rec = true ∧ ∃ now, let '(t1, row) := sql_declare now t tenant rec in
         t' = t1 ∧ (r = Ok (scan_remote (AgentID rec) row) ∨ r = Err tt)) ∨ (t' = t ∧ r = Err tt)
  | XGet tenant id => λ r t', t' = t ∧ (r = Ok (scan_remote id <$> t !! (tenant, id)) ∨ r = Err tt)
  | XList tenant => λ r t', t' = t ∧ (r = Err tt ∨ ∃ l, r = Ok l ∧
      l ≡ₚ (λ kv : string * string * rrow, scan_remote kv.1.2 kv.2) <$>
             map_to_list (filter (λ kv : string * string * rrow, kv.1.1 = tenant) t) ∧
      StronglySorted (λ a b, ra_CreatedAt a ≤ ra_CreatedAt b)%Z l)
  end.

Definition DeclareRemote (tenant : string) (rec : RemoteAgentRecord) : prog xreply (result DeclareError RemoteAgentRecord) :=
  if sempty (AgentID rec) then mret (Err NeedsAgentID)
  else if sempty (URL rec) then mret (Err (NeedsURL (AgentID rec)))
  else if negb (valid_risk (Risk rec)) then mret (Err (BadRisk (AgentID rec) (Risk rec)))
  else
    r ← ask (XDeclare tenant rec);
    mret (match r : result () RemoteAgentRecord with Err _ => Err (DeclareFailed (AgentID rec)) | Ok out => Ok out end).
Definition GetRemote (tenant id : string) : prog xreply (result GetError RemoteAgentRecord) :=
  r ← ask (XGet tenant id);
  mret (match r : result () (option RemoteAgentRecord) with
        | Err _ => Err (ReadFailed id)
        | Ok None => Err (ErrRemoteAgentNotDeclared id)
        | Ok (Some rec) => Ok rec
        end).
Definition ListRemote (tenant : string) : prog xreply (result () (list RemoteAgentRecord)) := ask (XList tenant).

Lemma coalesce_nullif s : coalesce (nullif s) = s.
Proof. unfold coalesce, nullif. by destruct s. Qed.

(** A destination is read back by its tenant as it was last declared, with the
    time of its first declaration, and only after a declaration with an id, an
    address and one of the four risks; what other tenants declared, and every other
    destination, is untouched. *)
Theorem declared_is_read_back tenant rec t t' out t'' got :
  alone xsem t (DeclareRemote tenant rec) t' (Ok out) → alone xsem t' (GetRemote tenant (AgentID rec)) t'' got →
  (got = Ok out ∨ got = Err (ReadFailed (AgentID rec))) ∧
  AgentID out = AgentID rec ∧ URL out = URL rec ∧ Risk out = Risk rec ∧ Description out = Description rec ∧
  CredentialSecretName out = CredentialSecretName rec ∧
  (∀ r, t !! (tenant, AgentID rec) = Some r → ra_CreatedAt out = rr_created r) ∧
  AgentID rec ≠ "" ∧ URL rec ≠ "" ∧ Risk rec ∈ [RiskLow; RiskMedium; RiskHigh; RiskCritical] ∧
  ∀ k, k ≠ (tenant, AgentID rec) → t'' !! k = t !! k.
Proof.
  unfold DeclareRemote. destruct (sempty (AgentID rec)) eqn:Hid; [by intros [_ ?]|].
  destruct (sempty (URL rec)) eqn:Hurl; [by intros [_ ?]|].
  destruct (valid_risk (Risk rec)) eqn:Hrisk; simpl; [|by intros [_ ?]].
  intros (r & t1 & [(_ & now & -> & Hr)|[-> ->]] & -> & Hout); [|done].
  destruct Hr as [-> | ->]; [|done]. injection Hout as ->.
  intros (g & t2 & [-> Hg] & -> & ->). rewrite lookup_insert_eq in Hg.
  split; [destruct Hg as [-> | ->]; auto|]. simpl. rewrite !coalesce_nullif. split_and!; try done.
  - by intros r ->.
  - by apply sempty_false.
  - by apply sempty_false.
  - by apply bool_decide_eq_true in Hrisk.
  - intros k Hk. by rewrite lookup_insert_ne.
Qed.
End remote_agents.

(** ** Witnesses *)

Module DelegationWitnesses.
#[local] Existing Instance verbatim_postgres.

Definition toy_hash (s : string) : Z := Z.of_nat (String.length s).
Definition rec : Delegation :=
  {| dl_ID := 0; dl_RunID := "r"; dl_StepID := ""; dl_AgentManifestRef := "a@1"; dl_RemoteAgentID := "partner";
     dl_RPCMethod := "message/send"; dl_RemoteTaskID := ""; dl_TaskState := ""; dl_Terminal := None;
     dl_HopDepth := None; dl_DeniedReason := ""; dl_CreatedAt := 0; dl_CompletedAt := None |}.

(** Every call served at time 0, none failing; an id past every one in use. *)
Definition next_id (w : ddb) : Z :=
  (1 + foldr Z.max 0%Z ((map_to_list (rows w)).*1 ++ (map_to_list (txs w) ≫= λ ix, (map_to_list (tx_rows ix.2)).*1)))%Z.
Definition serve_tx {A} (w : ddb) (i : nat) (f : tx → ddb * A) : ddb * result () A :=
  match txs w !! i with Some x => let '(w', a) := f x in (w', Ok a) | None => (w, Err tt) end.
Definition lock_free (w : ddb) (i : nat) (key : Z) : bool :=
  bool_decide (Forall (λ jy : nat * tx, key ∈ tx_locks jy.2 → jy.1 = i) (map_to_list (txs w))).
Definition dserve (i : nat) (w : ddb) (c : dcall) : ddb * dreply c :=
  match c with
  | DBegin => (with_tx w i {| tx_now := 0; tx_locks := ∅; tx_rows := ∅ |}, Ok tt)
  | DLock key =>
      match txs w !! i with
      | Some x => if lock_free w i key
                  then (with_tx w i {| tx_now := tx_now x; tx_locks := {[key]} ∪ tx_locks x; tx_rows := tx_rows x |}, Ok tt)
                  else (w, Err tt)
      | None => (w, Err tt)
      end
  | DCount tenant run secs => serve_tx w i (λ x,
      (w, sql_count (tx_rows x ∪ rows w) tenant run (tx_now x - nanoseconds secs)))
  | DInsert tenant r =>
      match txs w !! i with
      | Some x => if insertable tenant r
                  then (with_tx w i {| tx_now := tx_now x; tx_locks := tx_locks x;
                          tx_rows := <[next_id w := fresh_row (tx_now x) tenant r]> (tx_rows x) |},
                        Ok (next_id w, tx_now x))
                  else (w, Err tt)
      | None => (w, Err tt)
      end
  | DCommit =>
      match txs w !! i with
      | Some x => (without_tx (with_rows w (tx_rows x ∪ rows w)) i, Ok tt)
      | None => (w, Err tt)
      end
  | DRollback => (without_tx w i, tt)
  | DObserve id task state terminal => (with_rows w (sql_observe (rows w) id task state terminal), Ok tt)
  | DClose id task state terminal => (with_rows w (sql_close 0 (rows w) id task state terminal), Ok tt)
  | DCloseTask run task state terminal =>
      let '(t, n) := sql_close_task 0 (rows w) run task state terminal in (with_rows w t, Ok n)
  | DDeny _ _ _ => (w, Err tt)
  | DForRun _ _ => (w, Err tt)
  end.

Lemma foldr_Zmax_ge l x : x ∈ l → (x ≤ foldr Z.max 0%Z l)%Z.
Proof. induction 1; simpl; lia. Qed.

Lemma next_unused w : unused w (next_id w).
Proof.
  assert (Hle : ∀ id, id ∈ ((map_to_list (rows w)).*1 ++ (map_to_list (txs w) ≫= λ ix, (map_to_list (tx_rows ix.2)).*1))%list →
    (id < next_id w)%Z) by (intros id Hid%foldr_Zmax_ge; unfold next_id; lia).
  assert (Hkey : ∀ (t : gmap Z drow) id r, t !! id = Some r → id ∈ (map_to_list t).*1).
  { intros t id r Hr. apply list_elem_of_fmap. exists (id, r). split; [done|by apply elem_of_map_to_list]. }
  split.
  - destruct (rows w !! next_id w) as [r|] eqn:Hr; [|done]. apply Hkey in Hr.
    enough (next_id w < next_id w)%Z by lia. apply Hle, elem_of_app. by left.
  - intros i x Hx. destruct (tx_rows x !! next_id w) as [r|] eqn:Hr; [|done]. apply Hkey in Hr.
    enough (next_id w < next_id w)%Z by lia. apply Hle, elem_of_app. right. apply list_elem_of_bind.
    exists (i, x). split; [done|by apply elem_of_map_to_list].
Qed.

Lemma dserve_sem i w c : dsem i w c (dserve i w c).2 (dserve i w c).1.
Proof.
  destruct c; simpl; unfold within_tx, serve_tx.
  - left. split; [done|by exists 0%Z].
  - destruct (txs w !! i) as [x|] eqn:Hx; [|by right]. destruct (lock_free w i key) eqn:Hf; [|by right].
    left. exists x. split_and!; [done| |done|done]. intros j y Hy Hk.
    apply bool_decide_eq_true in Hf. rewrite Forall_forall in Hf.
    apply (Hf (j, y)); [by apply elem_of_map_to_list|done].
  - destruct (txs w !! i) as [x|] eqn:Hx; [left; eauto|by right].
  - destruct (txs w !! i) as [x|] eqn:Hx; [|by right]. destruct (insertable tenant rec0) eqn:Hi; [|by right].
    left. exists x. split_and!; [done..|]. exists (next_id w). split_and!; [apply next_unused|done..].
  - left. destruct (txs w !! i) as [x|] eqn:Hx; [left; eauto|by right].
  - done.
  - left. auto.
  - exists 0%Z. left. auto.
  - exists 0%Z. destruct (sql_close_task 0 (rows w) run task state terminal) as [t n]. left. auto.
  - by right.
  - split; [done|by left].
Qed.

(** A schedule: process [i] starts the opening if it is not there, else makes its call. *)
Definition dpick (s : ddb * gmap nat (prog dreply ())) (i : nat) : ddb * gmap nat (prog dreply ()) :=
  match s.2 !! i with
  | Some (Vis c k) => let '(w, r) := dserve i s.1 c in (w, <[i := k r]> s.2)
  | Some (Ret _) => s
  | None => match txs s.1 !! i with
            | None => (s.1, <[i := dprogram toy_hash 2 0 (OpOpen "t" rec)]> s.2)
            | Some _ => s
            end
  end.
Lemma dpick_steps l s : rtc (dstep toy_hash 2 0) s (foldl dpick s l).
Proof.
  revert s. induction l as [|i l IH]; intros [w ps]; [constructor|]. simpl. etrans; [|apply IH].
  unfold dpick. simpl. destruct (ps !! i) as [[a|c k]|] eqn:Hi; [constructor| |].
  - pose proof (dserve_sem i w c) as Hs. destruct (dserve i w c) as [w' r]. apply rtc_once.
    by eapply dstep_call.
  - destruct (txs w !! i) eqn:Ht; [constructor|]. apply rtc_once. by apply (dstep_start toy_hash 2 0 w ps i (OpOpen "t" rec)).
Qed.

(** Three gateways open for one run with two slots: two of them interleaved, and the
    third finds the run full. *)
Definition final : ddb * gmap nat (prog dreply ()) :=
  foldl dpick (empty_db, ∅) [0; 1; 0; 1; 0; 0; 0; 0; 0; 1; 1; 1; 1; 1; 2; 2; 2; 2; 2]%nat.

Lemma fan_out_bounded_witness :
  size (rows final.1) = 2%nat ∧
  (Z.of_nat (slots (λ r, in_flight "t" "r" (0 - window 0) r ∧ (d_created r ≤ 0)%Z) (rows final.1)) ≤ 2)%Z.
Proof.
  split; [vm_compute; reflexivity|].
  apply (fan_out_bounded toy_hash 2 0 final.1 final.2); [lia|].
  rewrite <-surjective_pairing. apply dpick_steps.
Defined.

Definition opened_once : ddb := (Program.run (dserve 0) empty_db (Open toy_hash "t" (configured 1 0 rec))).1.
Lemma Open_alone_witness :
  ∃ e, (Program.run (dserve 0) opened_once (Open toy_hash "t" (configured 1 0 rec))).2 = Err e ∧
    FanOutExceeded (Err e : result OpenError Delegation) = Some (1, 1)%Z.
Proof.
  pose proof (Open_alone toy_hash 1 0 0 opened_once "t" rec _ _ eq_refl
    (run_alone _ _ (Open toy_hash "t" (configured 1 0 rec)) opened_once (dserve_sem 0))) as [now Ho].
  assert (Hf : FanOutExceeded (Program.run (dserve 0) opened_once (Open toy_hash "t" (configured 1 0 rec))).2
    = Some (1, 1)%Z) by (vm_compute; reflexivity).
  destruct (Program.run _ _ _) as [w [d|e]]; simpl in *; [done|]. by exists e.
Defined.

Definition partner : RemoteAgentRecord :=
  {| AgentID := "partner"; URL := "http://partner.invalid/a2a"; Risk := RiskHigh; Description := "";
     CredentialSecretName := "partner.token"; ra_CreatedAt := 0; ra_UpdatedAt := 0 |}.
Definition xserve (t : gmap (string * string) rrow) (c : xcall) : gmap (string * string) rrow * xreply c :=
  match c with
  | XDeclare tenant r => let '(t', row) := sql_declare 5 t tenant r in (t', Ok (scan_remote (AgentID r) row))
  | XGet tenant id => (t, Ok (scan_remote id <$> t !! (tenant, id)))
  | XList _ => (t, Err tt)
  end.
Lemma xserve_sem t c : xsem t c (xserve t c).2 (xserve t c).1.
Proof. destruct c; simpl; eauto 10. Qed.
Lemma declared_is_read_back_witness :
  ∃ out, (Program.run xserve ∅ (DeclareRemote "t" partner)).2 = Ok out ∧ URL out = "http://partner.invalid/a2a" ∧
    ra_CreatedAt out = 5%Z.
Proof.
  destruct (Program.run xserve ∅ (DeclareRemote "t" partner)) as [t [out|e]] eqn:Hd; [|discriminate Hd].
  exists out. split; [done|]. pose proof (run_alone _ _ (DeclareRemote "t" partner) ∅ xserve_sem) as Ha.
  rewrite Hd in Ha.
  destruct (declared_is_read_back "t" partner ∅ t out _ _ Ha
    (run_alone _ _ (GetRemote "t" (AgentID partner)) t xserve_sem)) as (_ & _ & Hu & _).
  split; [exact Hu|]. by injection Hd as _ <-.
Defined.
End DelegationWitnesses.
