(* ===== verification/Egress.v ===== *)
(** * The egress proxy of delegations

    go/internal/api/a2a_egress_handlers.go: a governed agent's JSON-RPC request to a
    remote agent is admitted, forwarded with the destination's own credential, and
    its answer accounted and relayed. A request is the path's remote agent, the
    headers the proxy reads, the authenticated caller and the body. The proxy is a
    program over the delegation ledger, the registry of remote agents, the secret
    broker and the network, whose replies are arbitrary. What net/http's client
    does with an answer that redirects is part of it: each message it sends is a call,
    and where a Location leads, which addresses are of one site, the Referer and the
    headers that go with a body are the class [Redirects]. Spans and log lines are left
    out. *)

From stdpp Require Import pretty.
From S2P Require Import Prelude GoValue Json Numbers Program Policy Auth ToolGateway Secrets A2A Delegations.
Import Policy.Engine Policy.PolicySet.

Local Open Scope string_scope.
Set Default Proof Using "Type*".

Definition HeaderAgentManifestRef : string := "X-Aeon-Agent-Manifest-Ref".
Definition HeaderRunID : string := "X-Aeon-Run-Id".
Definition HeaderStepID : string := "X-Aeon-Step-Id".
Definition HeaderHopDepth : string := "X-Aeon-Hop-Depth".
Definition HeaderDelegatingAgent : string := "X-Aeon-Delegating-Agent".
Definition HeaderRemoteAgentID : string := "X-Aeon-Remote-Agent-Id".
Definition HeaderTaskState : string := "X-Aeon-Remote-Task-State".
Definition HeaderTaskTerminal : string := "X-Aeon-Remote-Task-Terminal".
Definition HeaderPausedForHuman : string := "X-Aeon-Remote-Paused-For-Human".

Definition delegationCredentialTTL : Z := 2 * 60 * second.

(** [hopDepth]: no header, or one that is no integer, is no depth. *)
Definition hopDepth (raw : string) : option Z := if sempty raw then None else ParseInt raw.

(** What is sent, and what is answered: a response, its Location header (none is empty)
    and its body, none when reading it fails. *)
Record outbound := { ob_method : string; ob_url : string; ob_headers : gmap string string; ob_body : option RawMessage }.
Record httpResponse := { hr_status : Z; hr_location : string; hr_body : option RawMessage }.
Record upstreamResponse := { up_status : Z; up_body : RawMessage }.

(** What net/http's client takes from net/url and decides about hosts: where a Location
    leads from an address, if it can be read; whether a host may be shown the credential
    sent to another (it is the same, or below it); the Referer sent after one address to
    another; and the headers that go with a body. *)
Class Redirects := {
  redirect_to : string → string → option string;
  same_site : string → string → bool;
  referer : string → string → string;
  body_headers : gset string;
}.

Section egress.
Context `{Cedar, Postgres, GoJson, TaskStates, Redirects}.
(** Postgres's hashtext, and the addresses net/http makes a request of. *)
Context (hashtext : string → Z) (url_ok : string → bool).

(** The handles of the ledger and the registry are those of one tenant. *)
Record A2AEgressHandlers := {
  eh_Policy : option Set_;
  eh_Tenant : string;
  eh_MaxInFlightPerRun : Z;
  eh_InFlightStaleAfter : Z;
}.

Record egress_request := {
  eq_remote : string;
  eq_agent : string;
  eq_run : string;
  eq_step : string;
  eq_hop : string;
  eq_caller : option Caller;
  eq_body : option RawMessage;    (** none when reading it fails *)
}.

Inductive ForwardError := BadURL (url : string) | CredentialFailed (e : BrokerError) | TransportFailed.

Inductive EgressResponse :=
| EgressBadBody
| EgressBadRPC (e : RPCError)
| EgressDenied (status : Z) (reason : string) (remote disposition : string)
| EgressRegistryFailed
| EgressUnauthenticated
| EgressNoPolicy (tenant : string)
| EgressOpenFailed (e : OpenError)
| EgressForwardFailed (e : ForwardError)
| EgressRelayed (status : Z) (headers : gmap string string) (body : RawMessage).

Inductive ecall :=
| EStore (c : dcall)
| ERegistry (c : xcall)
| EIssue (name : string) (ttl : Z) (owner : string)
| EResolve (ref : string)
| ERevoke (ref : string)
| EDo (rq : outbound).
Definition ereply (c : ecall) : Type :=
  match c with
  | EStore c => dreply c
  | ERegistry c => xreply c
  | EIssue _ _ _ | EResolve _ => result BrokerError string
  | ERevoke _ => ()
  | EDo _ => result () httpResponse
  end.
Abbreviation EM := (prog ereply).

Fixpoint of_store {A} (m : prog dreply A) : EM A :=
  match m with Ret a => Ret a | Vis c k => Vis (EStore c) (λ r, of_store (k r)) end.
Fixpoint of_remotes {A} (m : prog xreply A) : EM A :=
  match m with Ret a => Ret a | Vis c k => Vis (ERegistry c) (λ r, of_remotes (k r)) end.

(** ** Denials *)

Definition denyWithDisposition (h : A2AEgressHandlers) (rec : Delegation) (status : Z) (reason disposition : string)
  : EM EgressResponse :=
  _ ← of_store (RecordDenial (eh_Tenant h) rec reason);
  mret (EgressDenied status reason (dl_RemoteAgentID rec) disposition).
Definition deny (h : A2AEgressHandlers) (rec : Delegation) (status : Z) (reason : string) : EM EgressResponse :=
  denyWithDisposition h rec status reason Disposition.DenyStep.

Definition no_agent_reason : string :=
  "no " +:+ HeaderAgentManifestRef +:+ " on the request: a delegation with no agent identity cannot be authorized, and proxying it unattributed would be a way around the policy every other path obeys".
Definition undeclared_reason (id : string) : string :=
  "remote agent " +:+ id +:+ " is not declared in the registry: a delegation destination must be declared, with an explicit risk, before anything can delegate to it".
Definition fan_out_reason (run : string) (inFlight max : Z) : string :=
  "run " +:+ run +:+ " already has " +:+ pretty inFlight +:+ " delegation(s) in flight, limit is " +:+ pretty max.

(** ** Forwarding *)

Definition outbound_headers (rec : Delegation) (remote : RemoteAgentRecord) : gmap string string :=
  let next := match dl_HopDepth rec with Some d => wrap64 (d + 1) | None => 1%Z end in
  let hs := <[HeaderRemoteAgentID := AgentID remote]>
              (<[HeaderDelegatingAgent := dl_AgentManifestRef rec]>
                 {["Content-Type" := "application/json"; "Accept" := "application/json"]}) in
  let hs := if sempty (dl_RunID rec) then hs else <[HeaderRunID := dl_RunID rec]> hs in
  <[HeaderHopDepth := pretty next]> hs.

(** net/http's [redirectBehavior], for a request whose body can be sent again: the method
    to go on with, and whether the body goes along. *)
Definition redirectBehavior (method : string) (status : Z) : option (string * bool) :=
  if bool_decide (status = 301 ∨ status = 302 ∨ status = 303)%Z
  then Some (if bool_decide (method = "GET" ∨ method = "HEAD") then method else "GET", false)
  else if bool_decide (status = 307 ∨ status = 308)%Z then Some (method, true) else None.

(** The request a redirect makes of the first one: its headers, without the credential
    once it was stripped and without those of a body that does not go along. *)
Definition next_request (first : outbound) (method from url : string) (strip keep : bool) : outbound :=
  let hs := if strip then delete "Authorization" (ob_headers first) else ob_headers first in
  let hs := if keep then hs else filter (λ kv, kv.1 ∉ body_headers) hs in
  let ref := referer from url in
  {| ob_method := method; ob_url := url; ob_headers := if sempty ref then hs else <["Referer" := ref]> hs;
     ob_body := if keep then ob_body first else None |}.

(** [http.Client.Do] with the default policy: redirects are followed while [hops] are
    left, and it is an error when none is. *)
Fixpoint client_do (hops : nat) (first req : outbound) (strip keep : bool) : EM (result ForwardError httpResponse) :=
  r ← ask (EDo req);
  match r : result () httpResponse with
  | Err _ => mret (Err TransportFailed)
  | Ok resp =>
      match redirectBehavior (ob_method req) (hr_status resp) with
      | None => mret (Ok resp)
      | Some (method, keeps) =>
          if sempty (hr_location resp) then mret (Ok resp) else
          match redirect_to (ob_url req) (hr_location resp), hops with
          | None, _ => mret (Err TransportFailed)
          | _, O => mret (Err TransportFailed)
          | Some url, S hops =>
              let strip := strip || negb (same_site (ob_url first) url) in
              let keep := keep && keeps in
              client_do hops first (next_request first method (ob_url req) url strip keep) strip keep
          end
      end
  end.

(** The request built, done and its answer read to the end. Of ten requests the last is
    not redirected. *)
Definition send (remote : RemoteAgentRecord) (headers : gmap string string) (body : RawMessage)
  : EM (result ForwardError upstreamResponse) :=
  let req := {| ob_method := "POST"; ob_url := URL remote; ob_headers := headers; ob_body := Some body |} in
  r ← client_do 9 req req false true;
  mret (match r with
        | Err e => Err e
        | Ok resp => match hr_body resp with
                     | None => Err TransportFailed
                     | Some out => Ok {| up_status := hr_status resp; up_body := out |}
                     end
        end).

(** The deferred revocation is the last thing done once a lease was issued. *)
Definition forward (remote : RemoteAgentRecord) (rec : Delegation) (body : RawMessage)
  : EM (result ForwardError upstreamResponse) :=
  if negb (url_ok (URL remote)) then mret (Err (BadURL (URL remote)))
  else
    let headers := outbound_headers rec remote in
    if sempty (CredentialSecretName remote) then send remote headers body
    else
      issued ← ask (EIssue (CredentialSecretName remote) delegationCredentialTTL (dl_AgentManifestRef rec));
      match issued : result BrokerError string with
      | Err e => mret (Err (CredentialFailed e))
      | Ok ref =>
          value ← ask (EResolve ref);
          out ← match value : result BrokerError string with
                | Err e => mret (Err (CredentialFailed e))
                | Ok v => send remote (<["Authorization" := "Bearer " +:+ v]> headers) body
                end;
          _ ← ask (ERevoke ref);
          mret out
      end.

(** ** Accounting and relaying *)

Definition account (run : string) (open : option Delegation) (relayed : RemoteResult) : EM () :=
  let class := Classification relayed in
  let terminal := Terminal class in
  match open with
  | Some d =>
      if terminal
      then _ ← of_store (Close (dl_ID d) (TaskID relayed) (State class) (Some terminal)); mret tt
      else _ ← of_store (Observe (dl_ID d) (TaskID relayed) (State class) (Some terminal)); mret tt
  | None =>
      if terminal && negb (sempty (TaskID relayed))
      then _ ← of_store (CloseByTaskID run (TaskID relayed) (State class) (Some terminal)); mret tt
      else mret tt
  end.

Definition format_bool (b : bool) : string := if b then "true" else "false".
Definition relay_headers (relayed : RemoteResult) : gmap string string :=
  let class := Classification relayed in
  let hs := {[HeaderTaskState := State class; HeaderTaskTerminal := format_bool (Terminal class);
              "Content-Type" := "application/json"]} : gmap string string in
  let hs := if PausedForHuman class then <[HeaderPausedForHuman := "true"]> hs else hs in
  if StateRewritten relayed then <["X-Aeon-Remote-Task-State-Rewritten" := "true"]> hs else hs.

Definition finish (remote : RemoteAgentRecord) (rec : Delegation) (body : RawMessage) (open : option Delegation)
  : EM EgressResponse :=
  upstream ← forward remote rec body;
  match upstream with
  | Err e =>
      _ ← match open with
          | Some d => _ ← of_store (Close (dl_ID d) "" "" None); mret tt
          | None => mret tt
          end;
      mret (EgressForwardFailed e)
  | Ok up =>
      let relayed := RelayResponse (up_body up) in
      _ ← account (dl_RunID rec) open relayed;
      mret (EgressRelayed (up_status up) (relay_headers relayed) (Rewritten relayed))
  end.

(** ** The proxy *)

Definition delegation_of (rq : egress_request) (rpc : RPCRequest) : Delegation :=
  {| dl_ID := 0; dl_RunID := eq_run rq; dl_StepID := eq_step rq; dl_AgentManifestRef := eq_agent rq;
     dl_RemoteAgentID := eq_remote rq; dl_RPCMethod := Method rpc; dl_RemoteTaskID := ""; dl_TaskState := "";
     dl_Terminal := None; dl_HopDepth := hopDepth (eq_hop rq); dl_DeniedReason := ""; dl_CreatedAt := 0;
     dl_CompletedAt := None |}.

Definition open_options (h : A2AEgressHandlers) (rec : Delegation) : OpenOptions :=
  {| op_Delegation := rec; MaxInFlight := eh_MaxInFlightPerRun h; StaleAfter := eh_InFlightStaleAfter h |}.

(** From the decision on. *)
Definition admit_delegation (h : A2AEgressHandlers) (rpc : RPCRequest) (rec : Delegation) (body : RawMessage)
    (remote : RemoteAgentRecord) : EM EgressResponse :=
  if StartsWork rpc then
    opened ← of_store (Open hashtext (eh_Tenant h) (open_options h rec));
    match FanOutExceeded opened, opened with
    | Some (inFlight, max), _ => deny h rec 429 (fan_out_reason (dl_RunID rec) inFlight max)
    | None, Err e => mret (EgressOpenFailed e)
    | None, Ok d => finish remote rec body (Some d)
    end
  else finish remote rec body None.

Definition decide_delegation (h : A2AEgressHandlers) (rq : egress_request) (rpc : RPCRequest) (rec : Delegation)
    (body : RawMessage) (remote : RemoteAgentRecord) : EM EgressResponse :=
  match eq_caller rq with
  | None => mret EgressUnauthenticated
  | Some c =>
      match EngineFor (eh_Policy h) (Tenant c) with
      | None => mret (EgressNoPolicy (Tenant c))
      | Some engine =>
          let decision := IsAllowedToDelegate engine (dl_AgentManifestRef rec) (eq_remote rq) in
          if negb (Allowed decision)
          then denyWithDisposition h rec 403 ("delegation " +:+ denialReason decision) (DecisionDisposition decision)
          else admit_delegation h rpc rec body remote
      end
  end.

Definition proxy (h : A2AEgressHandlers) (rq : egress_request) : EM EgressResponse :=
  match eq_body rq with
  | None => mret EgressBadBody
  | Some body =>
      match ParseRPCRequest body with
      | Err e => mret (EgressBadRPC e)
      | Ok rpc =>
          let rec := delegation_of rq rpc in
          if sempty (dl_AgentManifestRef rec) then deny h rec 403 no_agent_reason
          else
            remote ← of_remotes (GetRemote (eh_Tenant h) (eq_remote rq));
            match remote with
            | Err (ErrRemoteAgentNotDeclared _) =>
                denyWithDisposition h rec 403 (undeclared_reason (eq_remote rq)) Disposition.DenyStep
            | Err (ReadFailed _) => mret EgressRegistryFailed
            | Ok remote => decide_delegation h rq rpc rec body remote
            end
      end
  end.

Definition egress_status (r : EgressResponse) : Z :=
  match r with
  | EgressBadBody | EgressBadRPC _ => 400
  | EgressDenied status _ _ _ => status
  | EgressRegistryFailed | EgressOpenFailed _ => 500
  | EgressUnauthenticated => 401
  | EgressNoPolicy _ => 403
  | EgressForwardFailed _ => 502
  | EgressRelayed status _ _ => status
  end.

(** The registry's routes. *)
Definition listRemoteAgents (h : A2AEgressHandlers) : prog xreply (result () (list RemoteAgentRecord)) :=
  ListRemote (eh_Tenant h).
(** No body is one that does not decode. *)
Definition declareRemoteAgent (h : A2AEgressHandlers) (body : option RemoteAgentRecord)
  : prog xreply (option (result DeclareError RemoteAgentRecord)) :=
  match body with
  | None => mret None
  | Some rec => out ← DeclareRemote (eh_Tenant h) rec; mret (Some out)
  end.

(** ** What a history holds *)

Abbreviation event := {c : ecall & ereply c}.

(** The requests sent with their answers, the denials recorded, the reports on slots. *)
Definition sent_event (x : event) : option (outbound * result () httpResponse) :=
  match x with existT (EDo ob) r => Some (ob, r) | _ => None end.
Definition denial_event (x : event) : option (string * Delegation * string) :=
  match x with existT (EStore (DDeny tenant rec reason)) _ => Some (tenant, rec, reason) | _ => None end.
Inductive report :=
| Closed (id : Z) (task state : string) (terminal : option bool)
| Observed (id : Z) (task state : string) (terminal : option bool)
| ClosedTask (run task state : string) (terminal : option bool).
Definition report_event (x : event) : option report :=
  match x with
  | existT (EStore (DClose id task state terminal)) _ => Some (Closed id task state terminal)
  | existT (EStore (DObserve id task state terminal)) _ => Some (Observed id task state terminal)
  | existT (EStore (DCloseTask run task state terminal)) _ => Some (ClosedTask run task state terminal)
  | _ => None
  end.
(** A row inserted for a slot, and its commit acknowledged. *)
Definition slot_event (x : event) : option (option Z) :=
  match x with
  | existT (EStore (DInsert _ _)) (Ok (id, _)) => Some (Some id)
  | existT (EStore DCommit) (Ok _) => Some None
  | _ => None
  end.
Definition sent (t : list event) := omap sent_event t.
Definition slots (t : list event) := omap slot_event t.
Definition denials (t : list event) := omap denial_event t.
Definition reports (t : list event) := omap report_event t.

Definition silent (t : list event) : Prop := sent t = [] ∧ denials t = [] ∧ reports t = [].

(** A call that is none of these. *)
Definition silent_call (c : ecall) : Prop :=
  match c with
  | EDo _ | EStore (DDeny _ _ _) | EStore (DClose _ _ _ _) | EStore (DObserve _ _ _ _)
  | EStore (DCloseTask _ _ _ _) => False
  | _ => True
  end.

Lemma within_silent {A} (m : EM A) t a : within silent_call m → histories m t a → silent t.
Proof.
  intros Hw Ht.
  assert (Hall : Forall (λ x : event, silent_call (projT1 x)) t).
  { apply Forall_forall. intros x Hx. apply Hw. by eapply histories_emits. }
  clear Hw Ht. induction Hall as [|[c r] t Hc _ (IH1 & IH2 & IH3)]; [done|].
  unfold silent, sent, denials, reports in *. simpl in *.
  destruct c as [[]| | | | |]; try done; by rewrite ?IH1, ?IH2, ?IH3.
Qed.

Lemma silent_app t1 t2 : silent t1 →
  sent (t1 ++ t2) = sent t2 ∧ denials (t1 ++ t2) = denials t2 ∧ reports (t1 ++ t2) = reports t2.
Proof.
  intros (Hs & Hd & Hr). unfold sent, denials, reports in *. by rewrite !omap_app, Hs, Hd, Hr.
Qed.

(** *** The parts *)

Definition in_store (x : {c : dcall & dreply c}) : event := existT (EStore (projT1 x)) (projT2 x).

Lemma of_store_histories {A} (m : prog dreply A) t a :
  histories (of_store m) t a → ∃ t0, t = in_store <$> t0 ∧ histories m t0 a.
Proof.
  revert t. induction m as [a0|c k IH]; intros t; simpl.
  - intros [-> ->]. by exists [].
  - intros (r & t' & -> & Ht). apply IH in Ht as (t0 & -> & Ht). exists (existT c r :: t0).
    split; [done|]. eauto.
Qed.

(** The calls of an opening. *)
Definition opening_call (c : dcall) : Prop :=
  match c with DBegin | DLock _ | DCount _ _ _ | DInsert _ _ | DCommit | DRollback => True | _ => False end.
Lemma leave_opening {A} (r : result OpenError A) : within opening_call (leave r).
Proof. apply within_vis; [done|]. intros u. apply within_ret. Qed.
Lemma insert_opening tenant rec : within opening_call (open_insert tenant rec).
Proof.
  apply within_vis; [done|]. intros [[id created]|e]; [|apply leave_opening].
  apply within_vis; [done|]. intros [u|e]; apply leave_opening.
Qed.
Lemma Open_opening tenant opts : within opening_call (Open hashtext tenant opts).
Proof.
  apply within_vis; [done|]. intros [u|e]; [|apply within_ret].
  destruct (limited opts); [|apply insert_opening].
  apply within_vis; [done|]. intros [u'|e]; [|apply leave_opening].
  apply within_vis; [done|]. intros [n|e]; [|apply leave_opening].
  destruct (_ <=? _)%Z; [apply leave_opening|apply insert_opening].
Qed.

Lemma of_store_within {A} (P : dcall → Prop) (m : prog dreply A) :
  within P m → within (λ c, ∃ d, c = EStore d ∧ P d) (of_store m).
Proof.
  induction m as [a|c k IH]; intros Hm; [apply within_ret|].
  apply within_vis; [exists c; split; [done|]; apply Hm; by left|].
  intros r. apply IH. intros c' Hc'. apply Hm. right. by exists r.
Qed.

Lemma Open_silent {A} tenant opts (t : list event) (res : A) m :
  m = Open hashtext tenant opts → ∀ res, histories (of_store m) t res → silent t.
Proof.
  intros -> res' Ht. eapply within_silent; [|exact Ht].
  intros c (d & -> & Hd)%(of_store_within opening_call); [by destruct d|apply Open_opening].
Qed.

(** An admitted opening inserted its row and had its commit acknowledged. *)
Lemma leave_history {A} (r : result OpenError A) t res :
  histories (leave r) t res → res = r.
Proof. by intros (u & t' & -> & -> & ->). Qed.
Lemma insert_history tenant rec t d :
  histories (open_insert tenant rec) t (Ok d) →
  existT DCommit (Ok tt) ∈ t ∧ ∃ created, existT (DInsert tenant rec) (Ok (dl_ID d, created)) ∈ t.
Proof.
  intros (i & t1 & -> & Ht). destruct i as [[id created]|e]; [|by apply leave_history in Ht].
  destruct Ht as (c & t2 & -> & Ht). destruct c as [[]|e]; [|by apply leave_history in Ht].
  apply leave_history in Ht. injection Ht as ->. split; [right; left|]. exists created. left.
Qed.
Lemma Open_history tenant opts t d :
  histories (Open hashtext tenant opts) t (Ok d) →
  existT DCommit (Ok tt) ∈ t ∧
  ∃ created, existT (DInsert tenant (op_Delegation opts)) (Ok (dl_ID d, created)) ∈ t.
Proof.
  intros (b & t1 & -> & Ht). destruct b as [u|e]; [|by destruct Ht].
  destruct (limited opts).
  - destruct Ht as (l & t2 & -> & Ht). destruct l as [u'|e]; [|by apply leave_history in Ht].
    destruct Ht as (n & t3 & -> & Ht). destruct n as [n|e]; [|by apply leave_history in Ht].
    simpl in Ht. destruct (MaxInFlight opts <=? n)%Z; [by apply leave_history in Ht|].
    apply insert_history in Ht as [Hc [created Hi]].
    split; [do 3 right; exact Hc|]. exists created. do 3 right. exact Hi.
  - apply insert_history in Ht as [Hc [created Hi]]. split; [by right|]. exists created. by right.
Qed.

(** What an opening leaves in its row and its commit: both are acknowledged exactly when
    it is admitted. *)
Lemma leave_slots {A} (r : result OpenError A) t res : histories (leave r) t res → slots (in_store <$> t) = [] ∧ res = r.
Proof. by intros (u & t' & -> & -> & ->). Qed.
Definition slots_of (opened : result OpenError Delegation) (l : list (option Z)) : Prop :=
  match opened with Ok d => l = [Some (dl_ID d); None] | Err _ => l = [] ∨ ∃ id, l = [Some id] end.
Lemma insert_slots tenant rec t res : histories (open_insert tenant rec) t res → slots_of res (slots (in_store <$> t)).
Proof.
  intros (i & t1 & -> & Ht). destruct i as [[id created]|e]; [|apply leave_slots in Ht as [Ht ->]; by left].
  destruct Ht as (c & t2 & -> & Ht). destruct c as [[]|e]; apply leave_slots in Ht as [Ht ->].
  - change (slots (in_store <$> existT (DInsert tenant rec) (Ok (id, created)) :: existT DCommit (Ok ()) :: t2))
      with (Some id :: None :: slots (in_store <$> t2)). by rewrite Ht.
  - right. exists id. change (Some id :: slots (in_store <$> t2) = [Some id]). by rewrite Ht.
Qed.
Lemma Open_slots tenant opts t res : histories (Open hashtext tenant opts) t res → slots_of res (slots (in_store <$> t)).
Proof.
  intros (b & t1 & -> & Ht). destruct b as [u|e]; [|destruct Ht as [-> ->]; by left].
  destruct (limited opts); [|by apply insert_slots in Ht].
  destruct Ht as (l & t2 & -> & Ht). destruct l as [u'|e]; [|apply leave_slots in Ht as [Ht ->]; by left].
  destruct Ht as (n & t3 & -> & Ht). destruct n as [n|e]; [|apply leave_slots in Ht as [Ht ->]; by left].
  simpl in Ht. destruct (MaxInFlight opts <=? n)%Z; [apply leave_slots in Ht as [Ht ->]; by left|].
  by apply insert_slots in Ht.
Qed.

(** Nothing else inserts a row or commits. *)
Definition slotless (c : ecall) : Prop := match c with EStore (DInsert _ _) | EStore DCommit => False | _ => True end.
Lemma within_slotless {A} (m : EM A) t a : within slotless m → histories m t a → slots t = [].
Proof.
  intros Hw Ht.
  assert (Hall : Forall (λ x : event, slotless (projT1 x)) t).
  { apply Forall_forall. intros x Hx. apply Hw. by eapply histories_emits. }
  clear Hw Ht. induction Hall as [|[c r] t Hc _ IH]; [done|].
  unfold slots in *. destruct c as [[]| | | | |]; try done; simpl; by rewrite IH.
Qed.
Ltac slotless_step :=
  first [ apply within_ret | apply within_vis; [done|intros ?] | apply within_bind; [|intros ?] | case_match ].

Lemma client_do_slotless hops first req strip keep : within slotless (client_do hops first req strip keep).
Proof.
  revert req strip keep. induction hops as [|hops IH]; intros req strip keep; cbn [client_do];
    repeat first [apply IH|slotless_step].
Qed.
Lemma forward_slotless remote rec body : within slotless (forward remote rec body).
Proof.
  assert (Hsend : ∀ headers, within slotless (send remote headers body)).
  { intros headers. apply within_bind; [apply client_do_slotless|intros a; apply within_ret]. }
  unfold forward. destruct (negb _); [apply within_ret|]. destruct (sempty _); [apply Hsend|].
  apply within_vis; [done|]. intros [ref|e]; [|apply within_ret].
  apply within_vis; [done|]. intros v. apply within_bind; [destruct v; [apply Hsend|apply within_ret]|].
  intros out. apply within_vis; [done|]. intros u. apply within_ret.
Qed.
Lemma finish_slotless remote rec body open : within slotless (finish remote rec body open).
Proof.
  unfold finish, account, Close, Observe, CloseByTaskID, ask. cbn [of_store].
  repeat first [apply forward_slotless|slotless_step]; cbn [of_store]; repeat slotless_step.
Qed.
Lemma deny_slotless h rec status reason disposition : within slotless (denyWithDisposition h rec status reason disposition).
Proof. unfold denyWithDisposition, RecordDenial, ask. cbn [of_store]. repeat slotless_step. Qed.

(** *** Redirects *)

(** What one redirect makes of a request: it goes where the answer's Location leads from
    the address that answered; with the same method and body for a 307 or 308, and
    without a body, as a GET, for the others; under no header that is not of the first
    request, the Referer apart; and with the credential only if the request before had it
    and the new address is of the first one's site. *)
Definition redirected_by (first prev : outbound) (resp : httpResponse) (next : outbound) : Prop :=
  hr_location resp ≠ "" ∧ redirect_to (ob_url prev) (hr_location resp) = Some (ob_url next) ∧
  ((hr_status resp = 307 ∨ hr_status resp = 308)%Z ∧ ob_method next = ob_method prev ∧ ob_body next = ob_body prev ∨
   (hr_status resp = 301 ∨ hr_status resp = 302 ∨ hr_status resp = 303)%Z ∧ ob_method next = "GET" ∧ ob_body next = None) ∧
  (∀ k v, k ≠ "Referer" → ob_headers next !! k = Some v → ob_headers first !! k = Some v) ∧
  (∀ v, ob_headers next !! "Authorization" = Some v →
     ob_headers prev !! "Authorization" = Some v ∧ same_site (ob_url first) (ob_url next) = true).
Fixpoint redirected (first prev : outbound) (r : result () httpResponse) (rest : list (outbound * result () httpResponse)) : Prop :=
  match rest with
  | [] => True
  | (next, r') :: rest => (∃ resp, r = Ok resp ∧ redirected_by first prev resp next) ∧ redirected first next r' rest
  end.

Lemma redirectBehavior_spec method status m keeps :
  redirectBehavior method status = Some (m, keeps) →
  (keeps = true ∧ m = method ∧ (status = 307 ∨ status = 308)%Z) ∨
  (keeps = false ∧ (method ≠ "HEAD" → m = "GET") ∧ (status = 301 ∨ status = 302 ∨ status = 303)%Z).
Proof.
  unfold redirectBehavior. case_bool_decide; [|case_bool_decide; [|done]].
  - intros [= <- <-]. right. split_and!; [done| |done]. intros Hh. case_bool_decide as Hg; [|done]. by destruct Hg.
  - intros [= <- <-]. left. by split_and!.
Qed.

(** Whether the credential of the first request is still in one. *)
Definition credential_of (first : outbound) (strip keep : bool) : option string :=
  if strip then None
  else if keep || bool_decide (¬ "Authorization" ∈ body_headers) then ob_headers first !! "Authorization" else None.
Lemma next_authorization first m from url strip keep :
  ob_headers (next_request first m from url strip keep) !! "Authorization" = credential_of first strip keep.
Proof.
  unfold next_request, credential_of. simpl.
  assert (Hh : (if keep then if strip then delete "Authorization" (ob_headers first) else ob_headers first
                else filter (λ kv, kv.1 ∉ body_headers) (if strip then delete "Authorization" (ob_headers first) else ob_headers first))
               !! "Authorization" = credential_of first strip keep).
  { unfold credential_of. destruct keep; simpl; [destruct strip; [by rewrite lookup_delete_eq|done]|].
    rewrite map_lookup_filter. destruct strip; [by rewrite lookup_delete_eq|].
    destruct (ob_headers first !! "Authorization"); simpl; [|by case_bool_decide].
    case_bool_decide; [by rewrite option_guard_True|rewrite option_guard_False; [done|by auto]]. }
  unfold credential_of in Hh. destruct (sempty _); [done|]. by rewrite lookup_insert_ne.
Qed.
Lemma next_headers first m from url strip keep k v :
  k ≠ "Referer" → ob_headers (next_request first m from url strip keep) !! k = Some v → ob_headers first !! k = Some v.
Proof.
  intros Hk. unfold next_request. simpl.
  assert (Hh : (if keep then if strip then delete "Authorization" (ob_headers first) else ob_headers first
                else filter (λ kv, kv.1 ∉ body_headers) (if strip then delete "Authorization" (ob_headers first) else ob_headers first))
               !! k = Some v → ob_headers first !! k = Some v).
  { destruct keep; [|intros [Hf _]%map_lookup_filter_Some; revert Hf]; (destruct strip; [intros [_ ?]%lookup_delete_Some|]; done). }
  destruct (sempty _); [done|]. by rewrite lookup_insert_ne.
Qed.
Lemma credential_kept first strip keep strip' keep' v :
  (strip = true → strip' = true) → (keep' = true → keep = true) →
  credential_of first strip' keep' = Some v → credential_of first strip keep = Some v.
Proof.
  unfold credential_of. intros Hs Hk. destruct strip'; [done|]. destruct strip; [by specialize (Hs eq_refl)|].
  destruct keep'; [rewrite Hk by done|]; simpl; [done|]. case_bool_decide; [|done]. by rewrite orb_true_r.
Qed.

(** One request only. *)
Ltac only_one r :=
  split_and!; [done|done|]; exists r, []; split_and!; try done; try (simpl; lia); intros ? [= <-]; first [done|by eexists].

(** The requests of one call of the client, in order, and what it answers. *)
Lemma client_do_history hops (first req : outbound) (strip keep : bool) (t : list event) out :
  ob_method req ≠ "HEAD" → ob_body req = (if keep then ob_body first else None) →
  ob_headers req !! "Authorization" = credential_of first strip keep →
  histories (client_do hops first req strip keep) t out →
  denials t = [] ∧ reports t = [] ∧
  ∃ r rest, sent t = (req, r) :: rest ∧ redirected first req r rest ∧ (length rest ≤ hops)%nat ∧
    (∀ hr, out = Ok hr → ∃ ob, last (sent t) = Some (ob, Ok hr)) ∧ (∀ e, out = Err e → e = TransportFailed).
Proof.
  revert req strip keep t. induction hops as [|hops IH]; intros req strip keep t Hm Hb Ha; cbn [client_do];
    intros (r & t' & -> & Ht); cbn [prog_bind] in Ht.
  all: destruct r as [resp|u]; [|destruct Ht as [-> ->]; only_one (Err u : result () httpResponse)].
  all: destruct (redirectBehavior (ob_method req) (hr_status resp)) as [[m keeps]|] eqn:Hrb;
    [|destruct Ht as [-> ->]; only_one (Ok resp : result () httpResponse)].
  all: destruct (sempty (hr_location resp)) eqn:Hloc; [destruct Ht as [-> ->]; only_one (Ok resp : result () httpResponse)|].
  all: destruct (redirect_to (ob_url req) (hr_location resp)) as [url|] eqn:Hto;
    [|destruct Ht as [-> ->]; only_one (Ok resp : result () httpResponse)].
  { destruct Ht as [-> ->]. only_one (Ok resp : result () httpResponse). }
  cbv zeta in Ht. apply redirectBehavior_spec in Hrb. apply sempty_false in Hloc.
  set (strip' := strip || negb (same_site (ob_url first) url)) in *. set (keep' := keep && keeps) in *.
  set (next := next_request first m (ob_url req) url strip' keep') in *.
  destruct (IH next strip' keep' t') as (Hd & Hr & r & rest & Hs & Hred & Hlen & Hlast & Herr); [| |  |exact Ht|].
  - unfold next, next_request. simpl. destruct Hrb as [(_ & -> & _)|(_ & -> & _)]; done.
  - done.
  - apply next_authorization.
  - split_and!; [done|done|]. exists (Ok resp), ((next, r) :: rest).
    change (sent (existT (EDo req) (Ok resp) :: t')) with ((req, Ok resp : result () httpResponse) :: sent t'). rewrite Hs.
    split_and!; [done| |simpl; lia| |done].
    + split; [|done]. exists resp. split; [done|]. split_and!; [done|done| | |].
      * destruct Hrb as [(-> & -> & Hst)|(-> & Hg & Hst)]; [left|right]; (split_and!; [done|try done; by apply Hg|]).
        -- unfold next, next_request, keep'. simpl. rewrite andb_true_r, Hb. done.
        -- unfold next, next_request, keep'. simpl. by rewrite andb_false_r.
      * apply next_headers.
      * intros v Hv. unfold next in Hv. rewrite next_authorization in Hv. split.
        -- rewrite Ha. eapply credential_kept; [| |exact Hv]; unfold strip', keep'; [by intros ->|by destruct keep].
        -- unfold credential_of, strip' in Hv. destruct strip; [done|]. simpl in *. by destruct (same_site _ _).
    + intros hr Hout. destruct (Hlast hr Hout) as [ob Hob]. exists ob. rewrite Hs in Hob. by rewrite last_cons_cons.
Qed.

(** Forwarding: nothing is sent, or one call of the client with the proxy's own headers,
    and with the destination's credential, whose lease is revoked. *)
Definition with_credential (v : option string) (hs : gmap string string) : gmap string string :=
  match v with Some v => <["Authorization" := "Bearer " +:+ v]> hs | None => hs end.
Definition borrowed (remote : RemoteAgentRecord) (agent : string) (t : list event) (v : option string) : Prop :=
  match v with
  | None => CredentialSecretName remote = ""
  | Some v => ∃ ref,
      existT (EIssue (CredentialSecretName remote) delegationCredentialTTL agent) (Ok ref) ∈ t ∧
      existT (EResolve ref) (Ok v) ∈ t ∧ existT (ERevoke ref) tt ∈ t
  end.
Definition first_request (remote : RemoteAgentRecord) (rec : Delegation) (body : RawMessage) (v : option string) : outbound :=
  {| ob_method := "POST"; ob_url := URL remote; ob_headers := with_credential v (outbound_headers rec remote);
     ob_body := Some body |}.

(** What the last answer was, when one was read. *)
Definition answered_with (t : list event) (up : upstreamResponse) : Prop :=
  ∃ ob hr, last (sent t) = Some (ob, Ok hr) ∧ hr_status hr = up_status up ∧ hr_body hr = Some (up_body up).

Lemma send_history remote headers body t out :
  histories (send remote headers body) t out →
  let req := {| ob_method := "POST"; ob_url := URL remote; ob_headers := headers; ob_body := Some body |} in
  denials t = [] ∧ reports t = [] ∧
  ∃ r rest, sent t = (req, r) :: rest ∧ redirected req req r rest ∧ (length rest ≤ 9)%nat ∧
    (∀ up, out = Ok up → answered_with t up).
Proof.
  unfold send. cbv zeta. set (req := {| ob_method := "POST" |}).
  intros (res & t1 & t2 & -> & Hc & -> & ->)%histories_bind. rewrite app_nil_r.
  destruct (client_do_history 9 req req false true t1 res) as (Hd & Hr & r & rest & Hs & Hred & Hlen & Hlast & _); [done..|].
  split_and!; [done|done|]. exists r, rest. split_and!; [done..|]. intros up Hup.
  destruct res as [hr|e]; [|done]. destruct (Hlast hr eq_refl) as [ob Hob]. exists ob, hr.
  destruct (hr_body hr) as [b|] eqn:Hb; [|done]. by injection Hup as <-.
Qed.

Lemma forward_history remote rec body t out :
  histories (forward remote rec body) t out →
  denials t = [] ∧ reports t = [] ∧
  ((sent t = [] ∧ ∃ e, out = Err e) ∨
   ∃ v r rest, sent t = (first_request remote rec body v, r) :: rest ∧
     redirected (first_request remote rec body v) (first_request remote rec body v) r rest ∧ (length rest ≤ 9)%nat ∧
     borrowed remote (dl_AgentManifestRef rec) t v ∧ ∀ up, out = Ok up → answered_with t up).
Proof.
  unfold forward. destruct (url_ok (URL remote)); simpl.
  2: { intros [-> ->]. split_and!; [done|done|left; eauto]. }
  destruct (sempty (CredentialSecretName remote)) eqn:Hc.
  { intros (Hd & Hr & r & rest & Hs & Hred & Hlen & Hup)%send_history. apply sempty_true in Hc.
    split_and!; [done|done|right]. by exists None, r, rest. }
  intros (issued & t1 & -> & Ht). destruct issued as [ref|e].
  2: { destruct Ht as [-> ->]. split_and!; [done|done|left; eauto]. }
  destruct Ht as (value & t2 & -> & Ht). destruct value as [v|e].
  - apply histories_bind in Ht as (res & t3 & t4 & -> & Hf & (u & t5 & -> & -> & ->)). destruct u.
    apply send_history in Hf as (Hd & Hr & r & rest & Hs & Hred & Hlen & Hup).
    assert (Hsent : sent (existT (EIssue (CredentialSecretName remote) delegationCredentialTTL (dl_AgentManifestRef rec)) (Ok ref)
                       :: existT (EResolve ref) (Ok v) :: t3 ++ [existT (ERevoke ref) ()]) = sent t3).
    { unfold sent. simpl. rewrite omap_app. simpl. by rewrite app_nil_r. }
    split_and!.
    + unfold denials in *. simpl. by rewrite omap_app, Hd.
    + unfold reports in *. simpl. by rewrite omap_app, Hr.
    + right. exists (Some v), r, rest. rewrite Hsent. split_and!; [done..| |].
      * exists ref. split_and!; [left|right; left|]. do 2 right. apply elem_of_app. right. left.
      * intros up Hres. destruct (Hup up Hres) as (ob & hr & Hl & ? & ?). exists ob, hr. by rewrite Hsent.
  - destruct Ht as (u & t4 & -> & -> & ->). split_and!; [done|done|left; eauto].
Qed.

(** The second message, when the first is answered with a redirect that keeps the body. *)
Definition goes_on (body : RawMessage) (t : list event) : Prop :=
  ∀ ob hr rest url, sent t = (ob, Ok hr) :: rest → hr_status hr = 307%Z ∨ hr_status hr = 308%Z → hr_location hr ≠ "" →
    redirect_to (ob_url ob) (hr_location hr) = Some url →
    ∃ next r' rest', rest = (next, r') :: rest' ∧ ob_url next = url ∧ ob_method next = "POST" ∧ ob_body next = Some body.
Lemma send_first remote headers body t out : histories (send remote headers body) t out → goes_on body t.
Proof.
  unfold send. set (req := {| ob_method := "POST" |}). intros (res & t1 & t2 & -> & Hc & -> & _)%histories_bind. rewrite app_nil_r.
  destruct Hc as (r & t' & -> & Ht). intros ob hr rest url Hsent Hst Hloc Hto.
  change (sent (existT (EDo req) r :: t')) with ((req, r) :: sent t') in Hsent. injection Hsent as <- -> <-.
  cbn [prog_bind] in Ht. unfold redirectBehavior in Ht.
  rewrite bool_decide_eq_false_2, bool_decide_eq_true_2 in Ht by (try done; lia).
  apply sempty_false in Hloc. rewrite Hloc, Hto in Ht. cbv zeta in Ht.
  apply client_do_history in Ht as (_ & _ & r & rest & Hs & _); [|done|by simpl; destruct (_ && _)|apply next_authorization].
  rewrite Hs. by eexists _, r, rest.
Qed.
Lemma goes_on_sent body t t' : sent t = sent t' → goes_on body t → goes_on body t'.
Proof. unfold goes_on. by intros ->. Qed.
Lemma forward_first remote rec body t out :
  histories (forward remote rec body) t out → sent t = [] ∨ goes_on body t.
Proof.
  unfold forward. destruct (url_ok (URL remote)); simpl; [|intros [-> _]; by left].
  destruct (sempty _); [intros Ht%send_first; by right|].
  intros (issued & t1 & -> & Ht). destruct issued as [ref|e]; [|destruct Ht as [-> _]; by left].
  destruct Ht as (value & t2 & -> & Ht). destruct value as [v|e]; [|destruct Ht as (u & t4 & -> & -> & _); by left].
  apply histories_bind in Ht as (res & t3 & t4 & -> & Hf%send_first & (u & t5 & -> & -> & _)). right.
  eapply goes_on_sent; [|exact Hf]. unfold sent. simpl. rewrite omap_app. simpl. by rewrite app_nil_r.
Qed.

(** The report an exchange leaves on its slot, or on the task it asked about. *)
Definition slot_report (run : string) (open : option Delegation) (r : result ForwardError upstreamResponse)
  : list report :=
  match open, r with
  | Some d, Err _ => [Closed (dl_ID d) "" "" None]
  | Some d, Ok up =>
      let rel := RelayResponse (up_body up) in
      let class := Classification rel in
      if Terminal class then [Closed (dl_ID d) (TaskID rel) (State class) (Some true)]
      else [Observed (dl_ID d) (TaskID rel) (State class) (Some false)]
  | None, Err _ => []
  | None, Ok up =>
      let rel := RelayResponse (up_body up) in
      let class := Classification rel in
      if Terminal class && negb (sempty (TaskID rel))
      then [ClosedTask run (TaskID rel) (State class) (Some true)] else []
  end.

Definition answer_of (r : result ForwardError upstreamResponse) : EgressResponse :=
  match r with
  | Err e => EgressForwardFailed e
  | Ok up => let rel := RelayResponse (up_body up) in
             EgressRelayed (up_status up) (relay_headers rel) (Rewritten rel)
  end.

Lemma account_history run open rel t u :
  histories (account run open rel) t u →
  sent t = [] ∧ denials t = [] ∧
  reports t = match open with
              | Some d => if Terminal (Classification rel)
                          then [Closed (dl_ID d) (TaskID rel) (State (Classification rel)) (Some true)]
                          else [Observed (dl_ID d) (TaskID rel) (State (Classification rel)) (Some false)]
              | None => if Terminal (Classification rel) && negb (sempty (TaskID rel))
                        then [ClosedTask run (TaskID rel) (State (Classification rel)) (Some true)] else []
              end.
Proof.
  unfold account. destruct open as [d|], (Terminal (Classification rel)); cbn [andb].
  - by intros (r & t' & -> & -> & ->).
  - by intros (r & t' & -> & -> & ->).
  - unfold CloseByTaskID. destruct (sempty (TaskID rel)); cbn [negb]; [by intros [-> ->]|].
    by intros (r & t' & -> & -> & ->).
  - by intros [-> ->].
Qed.

Lemma finish_history remote rec body open t resp :
  histories (finish remote rec body open) t resp →
  ∃ t1 t2 out, t = (t1 ++ t2)%list ∧ histories (forward remote rec body) t1 out ∧
    resp = answer_of out ∧ sent t2 = [] ∧ denials t2 = [] ∧ reports t2 = slot_report (dl_RunID rec) open out.
Proof.
  unfold finish. intros (out & t1 & t2 & -> & Hf & Ht)%histories_bind. exists t1, t2, out.
  destruct out as [up|e]; apply histories_bind in Ht as (u & t3 & t4 & -> & Ha & -> & ->); rewrite app_nil_r.
  - apply account_history in Ha as (? & ? & ?). by split_and!; [done|done|by destruct open|..].
  - destruct open as [d|]; [by destruct Ha as (r & t' & -> & -> & ->)|by destruct Ha as [-> _]].
Qed.

(** What stands before anything is forwarded. *)
Definition governed (h : A2AEgressHandlers) (rq : egress_request) (body : RawMessage) (rpc : RPCRequest)
    (remote : RemoteAgentRecord) (t : list event) : Prop :=
  eq_body rq = Some body ∧ ParseRPCRequest body = Ok rpc ∧ eq_agent rq ≠ "" ∧
  existT (ERegistry (XGet (eh_Tenant h) (eq_remote rq))) (Ok (Some remote)) ∈ t ∧
  ∃ c engine, eq_caller rq = Some c ∧ EngineFor (eh_Policy h) (Tenant c) = Some engine ∧
    Allowed (IsAllowedToDelegate engine (eq_agent rq) (eq_remote rq)) = true.

(** The slot an exchange works in: one that was inserted and committed, for a method
    that starts work; none for another. *)
Definition slot_opened (h : A2AEgressHandlers) (rq : egress_request) (rpc : RPCRequest) (t : list event)
    (open : option Delegation) : Prop :=
  match open with
  | None => StartsWork rpc = false
  | Some d => StartsWork rpc = true ∧ existT (EStore DCommit) (Ok tt) ∈ t ∧
      ∃ created, existT (EStore (DInsert (eh_Tenant h) (delegation_of rq rpc))) (Ok (dl_ID d, created)) ∈ t
  end.

Definition slot_events (open : option Delegation) : list (option Z) :=
  match open with Some d => [Some (dl_ID d); None] | None => [] end.
Lemma slots_app t1 t2 : slots (t1 ++ t2)%list = (slots t1 ++ slots t2)%list.
Proof. apply omap_app. Qed.

Lemma deny_history h rec status reason disposition t resp :
  histories (denyWithDisposition h rec status reason disposition) t resp →
  sent t = [] ∧ reports t = [] ∧ denials t = [(eh_Tenant h, rec, reason)] ∧
  resp = EgressDenied status reason (dl_RemoteAgentID rec) disposition.
Proof. by intros (r & t' & -> & -> & ->). Qed.

(** Either the request ends before it is forwarded, without a committed slot, and is
    recorded exactly when it is denied, or it is governed and what follows is its
    exchange. *)
Definition ended (h : A2AEgressHandlers) (rq : egress_request) (t : list event) (resp : EgressResponse) : Prop :=
  sent t = [] ∧ reports t = [] ∧ (¬ None ∈ slots t) ∧
  match resp with
  | EgressDenied _ reason remote _ => remote = eq_remote rq ∧ ∃ body rpc, eq_body rq = Some body ∧
      ParseRPCRequest body = Ok rpc ∧ denials t = [(eh_Tenant h, delegation_of rq rpc, reason)]
  | EgressForwardFailed _ | EgressRelayed _ _ _ => False
  | _ => denials t = []
  end.

Lemma in_store_elem (x : {c : dcall & dreply c}) (t : list {c : dcall & dreply c}) : x ∈ t → in_store x ∈ in_store <$> t.
Proof. intros Hx. apply list_elem_of_fmap. eauto. Qed.

Lemma proxy_history h rq t resp :
  histories (proxy h rq) t resp →
  ended h rq t resp ∨
  ∃ body rpc remote open t1 t2, t = (t1 ++ t2)%list ∧ silent t1 ∧ governed h rq body rpc remote t1 ∧
    slot_opened h rq rpc t1 open ∧ slots t1 = slot_events open ∧ histories (finish remote (delegation_of rq rpc) body open) t2 resp.
Proof.
  assert (Hnone : ∀ l : list (option Z), l = [] → ¬ None ∈ l) by (intros l ->; apply not_elem_of_nil).
  unfold proxy. destruct (eq_body rq) as [body|] eqn:Hbody; [|intros [-> ->]; left; split_and!; auto].
  destruct (ParseRPCRequest body) as [rpc|e] eqn:Hrpc; [|intros [-> ->]; left; split_and!; auto].
  set (rec := delegation_of rq rpc).
  assert (Hdeny : ∀ status reason disposition t0 t' , silent t0 → (¬ None ∈ slots t0) →
    histories (denyWithDisposition h rec status reason disposition) t' resp → ended h rq (t0 ++ t') resp).
  { intros status reason disposition t0 t' Hsil Hsl Hden.
    assert (Hsl' : slots (t0 ++ t')%list = slots t0).
    { by rewrite slots_app, (within_slotless _ _ _ (deny_slotless _ _ _ _ _) Hden), app_nil_r. }
    apply deny_history in Hden as (Hs & Hr & Hd & ->).
    unfold ended. rewrite Hsl'. destruct (silent_app t0 t' Hsil) as (-> & Hd' & ->). split_and!; [done..|].
    exists body, rpc. by rewrite Hd'. }
  destruct (sempty (dl_AgentManifestRef rec)) eqn:Hagent; [intros Ht; left; eapply (Hdeny _ _ _ []); [done|by apply Hnone|exact Ht]|].
  intros (remote & t1 & t2 & -> & Hg & Ht)%histories_bind.
  destruct Hg as (g & t1' & -> & -> & ->). set (ev := existT _ g).
  assert (Hsil : silent [ev]) by done.
  assert (Hsl : ¬ None ∈ slots [ev]) by (by apply Hnone).
  destruct g as [[remote|]|e]; [|left; by eapply Hdeny|left; destruct Ht as [-> ->]; split_and!; auto].
  cbn [decide_delegation] in Ht. unfold decide_delegation in Ht.
  destruct (eq_caller rq) as [c|] eqn:Hcaller; [|left; destruct Ht as [-> ->]; split_and!; auto].
  destruct (EngineFor (eh_Policy h) (Tenant c)) as [engine|] eqn:Hengine; [|left; destruct Ht as [-> ->]; split_and!; auto].
  destruct (Allowed (IsAllowedToDelegate engine (dl_AgentManifestRef rec) (eq_remote rq))) eqn:Hallow;
    cbn [negb] in Ht; [|left; by eapply Hdeny].
  assert (Hgov : ∀ t, ev ∈ t → governed h rq body rpc remote t).
  { intros t Hev. split_and!; [done|done|by apply sempty_false|done|]. by exists c, engine. }
  unfold admit_delegation in Ht. destruct (StartsWork rpc) eqn:Hwork.
  2: { right. exists body, rpc, remote, None, [ev], t2. split_and!; try done. apply Hgov. left. }
  apply histories_bind in Ht as (opened & t3 & t4 & -> & Ho & Ht).
  assert (Hsil3 : silent ([ev] ++ t3)).
  { destruct (silent_app [ev] t3 Hsil) as (H1' & H2' & H3').
    destruct (Open_silent (eh_Tenant h) (open_options h rec) t3 opened _ eq_refl _ Ho) as (Ha & Hb & Hc).
    exact (conj (eq_trans H1' Ha) (conj (eq_trans H2' Hb) (eq_trans H3' Hc))). }
  change (ev :: t3 ++ t4)%list with (([ev] ++ t3) ++ t4)%list.
  apply of_store_histories in Ho as (t0 & -> & Ho). pose proof (Open_slots _ _ _ _ Ho) as Hslots.
  assert (Hev : slots ([ev] ++ (in_store <$> t0))%list = slots (in_store <$> t0)) by done.
  destruct opened as [d|e]; cbn [FanOutExceeded] in Ht.
  - right. exists body, rpc, remote, (Some d), ([ev] ++ (in_store <$> t0))%list, t4.
    split_and!; try done; [apply Hgov; left|..].
    apply Open_history in Ho as [Hc [created Hi]]. split_and!; [done| |exists created]; right.
    + by apply (in_store_elem _ _ Hc).
    + by apply (in_store_elem _ _ Hi).
  - left. destruct (silent_app _ t4 Hsil3) as (Hs & Hd & Hr).
    assert (Hn : ¬ None ∈ slots ([ev] ++ (in_store <$> t0))%list).
    { rewrite Hev. destruct Hslots as [->|[id ->]]; [apply not_elem_of_nil|]. intros [?|Hin]%elem_of_cons; [done|by apply not_elem_of_nil in Hin]. }
    assert (Hend : ended h rq (([ev] ++ (in_store <$> t0)) ++ t4) resp); [|exact Hend].
    destruct e; try (destruct Ht as [-> ->]; rewrite app_nil_r in *; exact (conj Hs (conj Hr (conj Hn Hd)))). by eapply Hdeny.
Qed.

Lemma history_of_exchange h rq t resp :
  histories (proxy h rq) t resp →
  ended h rq t resp ∨
  ∃ body rpc remote open t1 t2 t3 out, t = (t1 ++ t2 ++ t3)%list ∧ governed h rq body rpc remote t1 ∧
    slot_opened h rq rpc t1 open ∧ slots t = slot_events open ∧
    histories (forward remote (delegation_of rq rpc) body) t2 out ∧ resp = answer_of out ∧ sent t = sent t2 ∧ denials t = [] ∧ reports t = slot_report (eq_run rq) open out.
Proof.
  intros [?|(body & rpc & remote & open & t1 & t2 & -> & Hsil & Hg & Hs & Hsl & Hf)]%proxy_history; [by left|right].
  pose proof (within_slotless _ _ _ (finish_slotless _ _ _ _) Hf) as Hslf. apply finish_history in Hf as (t3 & t4 & out & -> & Hf & -> & Hs4 & Hd4 & Hr4).
  destruct (forward_history _ _ _ _ _ Hf) as (Hd3 & Hr3 & _).
  exists body, rpc, remote, open, t1, t3, t4, out. split_and!; [done|done|done| |done|done|..].
  - by rewrite slots_app, Hslf, app_nil_r.
  - rewrite (proj1 (silent_app t1 _ Hsil)). unfold sent in *. by rewrite omap_app, Hs4, app_nil_r.
  - rewrite (proj1 (proj2 (silent_app t1 _ Hsil))). unfold denials in *. by rewrite omap_app, Hd3, Hd4.
  - rewrite (proj2 (proj2 (silent_app t1 _ Hsil))). unfold reports in *. by rewrite omap_app, Hr3, Hr4.
Qed.

(** ** The theorems *)

(** C13. Whatever the ledger, the registry, the broker and the network reply, a request
    sends nothing unless it is governed: from an authenticated caller whose tenant's
    policy allows the named agent to delegate to the named remote, which the registry
    declares, after its slot was committed if it starts work. Then the first message goes
    to the declared address, with the caller's body, the proxy's own headers and no
    credential but the one the broker lends for that remote, whose lease is revoked before
    the answer goes up. Every later one, nine at most, is where the answer before it
    redirects: 307 and 308 with the same body, the others as a GET without one; and it has
    the credential only while every address since the first is of the first one's site. *)
Theorem forwarded_as_governed h rq t resp :
  histories (proxy h rq) t resp →
  sent t = [] ∨
  ∃ body rpc remote v first r rest, governed h rq body rpc remote t ∧
    (StartsWork rpc = true → existT (EStore DCommit) (Ok tt) ∈ t) ∧
    sent t = (first, r) :: rest ∧ redirected first first r rest ∧ (length rest ≤ 9)%nat ∧
    first = {| ob_method := "POST"; ob_url := URL remote;
               ob_headers := with_credential v (outbound_headers (delegation_of rq rpc) remote); ob_body := Some body |} ∧
    borrowed remote (eq_agent rq) t v.
Proof.
  intros [[Hs _]|(body & rpc & remote & open & t1 & t2 & t3 & out & -> & Hg & Ho & _ & Hf & -> & Hs & _)]%history_of_exchange;
    [by left|].
  apply forward_history in Hf as (_ & _ & [[Hno _]|(v & r & rest & Hone & Hred & Hlen & Hb & _)]); [left; by rewrite Hs|right].
  exists body, rpc, remote, v, (first_request remote (delegation_of rq rpc) body v), r, rest. rewrite Hs, Hone. split_and!; try done.
  - destruct Hg as (? & ? & ? & Hin & Hrest). split_and!; [done..| |done]. apply elem_of_app. by left.
  - intros Hw. apply elem_of_app. left. destruct open as [d|]; [by destruct Ho as (_ & ? & _)|]. simpl in Ho. congruence.
  - destruct v as [v|]; [|exact Hb]. destruct Hb as (ref & Hi & Hr & Hv). exists ref.
    split_and!; apply elem_of_app; right; apply elem_of_app; by left.
Qed.

(** A delegation is recorded as denied exactly when the caller is told it is, for
    the reason and the remote it is told, once, and nothing is then sent. *)
Theorem denials_are_recorded h rq t resp :
  histories (proxy h rq) t resp →
  match resp with
  | EgressDenied _ reason remote _ =>
      sent t = [] ∧ reports t = [] ∧ remote = eq_remote rq ∧ ∃ body rpc, eq_body rq = Some body ∧
        ParseRPCRequest body = Ok rpc ∧ denials t = [(eh_Tenant h, delegation_of rq rpc, reason)]
  | _ => denials t = []
  end.
Proof.
  intros [(Hs & Hr & _ & He)|(body & rpc & remote & open & t1 & t2 & t3 & out & -> & _ & _ & _ & _ & -> & _ & Hd & _)]%history_of_exchange.
  - by destruct resp.
  - by destruct out.
Qed.

(** A slot the request opened: its row was inserted and the commit acknowledged. *)
Definition opened (t : list event) (id : Z) : Prop :=
  existT (EStore DCommit) (Ok tt) ∈ t ∧ ∃ tenant rec created, existT (EStore (DInsert tenant rec)) (Ok (id, created)) ∈ t.
(** The caller is given the last answer that was read, and that answer says this of the
    remote's task. *)
Definition relayed (t : list event) (resp : EgressResponse) (rel : RemoteResult) : Prop :=
  ∃ ob hr body, last (sent t) = Some (ob, Ok hr) ∧ hr_body hr = Some body ∧ rel = RelayResponse body ∧
    resp = EgressRelayed (hr_status hr) (relay_headers rel) (Rewritten rel).

Lemma opened_slots t id : opened t id → None ∈ slots t ∧ Some id ∈ slots t.
Proof.
  intros [Hc (tenant & rec & created & Hi)]. unfold slots. rewrite !list_elem_of_omap.
  split; [exists (existT (EStore DCommit) (Ok tt)); by split|eexists; split; [exact Hi|done]].
Qed.

Lemma relayed_one t resp rel rel' : relayed t resp rel → relayed t resp rel' → rel = rel'.
Proof. intros (ob & hr & b & Hl & Hb & -> & _) (ob' & hr' & b' & Hl' & Hb' & -> & _). congruence. Qed.
Lemma answered_relayed t up : answered_with t up → relayed t (answer_of (Ok up)) (RelayResponse (up_body up)).
Proof. intros (ob & hr & Hl & Hst & Hb). exists ob, hr, (up_body up). split_and!; [done..|]. unfold answer_of. by rewrite Hst. Qed.

(** C31. Every slot a request opens is reported on, once and by its own id: closed
    without a state when the caller is told that forwarding failed, whether or not
    anything was sent, and otherwise, the caller having the answer, closed with the final
    state that answer reports of the task, or left open with the one that is not final.
    A request that opens no slot reports nothing, unless it starts no work and learns
    that a task is over: then it closes that task's slot in its run, and only then. *)
Theorem slots_are_accounted h rq t resp :
  histories (proxy h rq) t resp →
  (∀ id, opened t id →
     ((∃ e, resp = EgressForwardFailed e) ∧ reports t = [Closed id "" "" None]) ∨
     ∃ rel, relayed t resp rel ∧
       reports t = [if Terminal (Classification rel)
                    then Closed id (TaskID rel) (State (Classification rel)) (Some true)
                    else Observed id (TaskID rel) (State (Classification rel)) (Some false)]) ∧
  ((∀ id, ¬ opened t id) →
     (reports t = [] ∧
      ∀ rel, relayed t resp rel → ¬ (Terminal (Classification rel) = true ∧ TaskID rel ≠ "")) ∨
     ∃ body rpc rel, eq_body rq = Some body ∧ ParseRPCRequest body = Ok rpc ∧ StartsWork rpc = false ∧ relayed t resp rel ∧
       Terminal (Classification rel) = true ∧ TaskID rel ≠ "" ∧
       reports t = [ClosedTask (eq_run rq) (TaskID rel) (State (Classification rel)) (Some true)]).
Proof.
  intros [(Hs & Hr & Hn & He)|(body & rpc & remote & open & t1 & t2 & t3 & out & -> & Hg & Ho & Hsl & Hf & -> & Hs & _ & Hr)]%history_of_exchange.
  { split; [by intros id [? _]%opened_slots|]. intros _. left. split; [done|].
    intros rel (ob & hr & body & Hl & _). by rewrite Hs in Hl. }
  assert (Hrel : ∀ up, out = Ok up → relayed (t1 ++ t2 ++ t3) (answer_of out) (RelayResponse (up_body up))).
  { intros up ->. apply forward_history in Hf as (_ & _ & [[_ [e ?]]|(v & r & rest & _ & _ & _ & _ & Hup)]); [done|].
    destruct (Hup up eq_refl) as (ob & hr & Hl & ? & ?). apply answered_relayed. exists ob, hr. by rewrite Hs. }
  assert (Hopen : ∀ d, open = Some d → opened (t1 ++ t2 ++ t3) (dl_ID d)).
  { intros d ->. destruct Ho as (_ & Hc & created & Hi). split; [apply elem_of_app; by left|].
    exists (eh_Tenant h), (delegation_of rq rpc), created. apply elem_of_app. by left. }
  split.
  - intros id [Hnone Hid]%opened_slots. rewrite Hsl in Hnone, Hid.
    destruct open as [d|]; [|by apply not_elem_of_nil in Hid]. simpl in Hid.
    assert (id = dl_ID d) as ->.
    { apply elem_of_cons in Hid as [[= ->]|Hid]; [done|]. apply elem_of_cons in Hid as [?|Hid]; [done|by apply not_elem_of_nil in Hid]. }
    destruct out as [up|e]; [right; exists (RelayResponse (up_body up))|left; split; [by exists e|done]].
    split; [by apply Hrel|]. rewrite Hr. simpl. by destruct (Terminal _).
  - intros Hno. destruct open as [d|]; [by destruct (Hno (dl_ID d) (Hopen d eq_refl))|]. simpl in Ho.
    destruct out as [up|e]; [|left; split; [done|]; by intros rel (ob & hr & b & _ & _ & _ & ?)].
    specialize (Hrel up eq_refl). rewrite Hr. simpl.
    destruct (Terminal (Classification (RelayResponse (up_body up)))) eqn:Hterm, (sempty (TaskID (RelayResponse (up_body up)))) eqn:Htask; simpl.
    2: { right. apply sempty_false in Htask. destruct Hg as (? & ? & _). by exists body, rpc, (RelayResponse (up_body up)). }
    all: left; split; [done|]; intros rel Hrel' [Ht' Htask'].
    all: assert (rel = RelayResponse (up_body up)) as -> by (by apply (relayed_one (t1 ++ t2 ++ t3) (answer_of (Ok up)))).
    all: first [by apply sempty_true in Htask|congruence].
Qed.

(** An answer that carries no task, as a JSON-RPC error does: it ends nothing. *)
Definition carries_no_result (body : RawMessage) : Prop :=
  ∃ d envelope, body = RawDoc d ∧ unmarshal_map d = Some envelope ∧
    as_map_opt (mget (items envelope) "result") = None.

(** A remote that refuses the work with a JSON-RPC error keeps the slot of the run
    for as long as a slot counts: the proxy has been told that nothing was started,
    relays it, and leaves the row open. *)
Theorem refused_work_keeps_its_slot h rq t resp body rpc ob hr answer :
  histories (proxy h rq) t resp → eq_body rq = Some body → ParseRPCRequest body = Ok rpc →
  StartsWork rpc = true → last (sent t) = Some (ob, Ok hr) → hr_body hr = Some answer → carries_no_result answer →
  (∀ e, resp ≠ EgressForwardFailed e) →
  ∃ id created,
    existT (EStore (DInsert (eh_Tenant h) (delegation_of rq rpc))) (Ok (id, created)) ∈ t ∧
    existT (EStore DCommit) (Ok tt) ∈ t ∧ reports t = [Observed id "" "" (Some false)] ∧
    (∃ headers, resp = EgressRelayed (hr_status hr) headers answer).
Proof.
  intros Ht Hbody Hrpc Hw Hlast Hb (d & envelope & Hup & Hun & Hres) Hfail.
  apply history_of_exchange in Ht as [[Hs _]|(body' & rpc' & remote & open & t1 & t2 & t3 & out & -> & Hg & Ho & _ & Hf & -> & Hs & _ & Hr)];
    [by rewrite Hs in Hlast|].
  destruct Hg as (Hb' & Hr' & _). rewrite Hbody in Hb'. injection Hb' as <-. rewrite Hrpc in Hr'. injection Hr' as <-.
  destruct open as [dl|]; [|simpl in Ho; congruence]. destruct Ho as (_ & Hc & created & Hi).
  destruct out as [up|e]; [|by destruct (Hfail e)].
  apply forward_history in Hf as (_ & _ & [[_ [e ?]]|(v & r & rest & _ & _ & _ & _ & Hans)]); [done|].
  destruct (Hans up eq_refl) as (ob' & hr' & Hl & Hst & Hbody').
  rewrite Hs, Hl in Hlast. injection Hlast as _ ->. rewrite Hb in Hbody'. injection Hbody' as ->.
  assert (Hrel : RelayResponse (up_body up) =
    {| TaskID := ""; Classification := no_classification; Rewritten := up_body up; StateRewritten := false |}).
  { unfold RelayResponse. rewrite Hup, Hun, Hres. done. }
  exists (dl_ID dl), created. rewrite Hr. unfold slot_report, answer_of. rewrite Hrel.
  split_and!; [apply elem_of_app; by left|apply elem_of_app; by left|done|rewrite Hst; eauto].
Qed.

(** The proxy follows redirects, so a remote that is declared decides where its messages
    go: answering the first one 307 or 308 with a Location has the whole body sent to
    that address, whatever it is and though no policy was asked about it. *)
Theorem redirects_reach_undeclared_addresses h rq t resp ob hr rest url :
  histories (proxy h rq) t resp → sent t = (ob, Ok hr) :: rest →
  hr_status hr = 307%Z ∨ hr_status hr = 308%Z → hr_location hr ≠ "" → redirect_to (ob_url ob) (hr_location hr) = Some url →
  ∃ next r' rest', rest = (next, r') :: rest' ∧ ob_url next = url ∧ ob_method next = "POST" ∧ ob_body next = eq_body rq.
Proof.
  intros [[Hno _]|(body & rpc & remote & open & t1 & t2 & t3 & out & -> & Hg & _ & _ & Hf & _ & Hs & _)]%history_of_exchange Hsent Hst Hloc Hto;
    [by rewrite Hno in Hsent|]. rewrite Hs in Hsent. destruct Hg as (Hb & _).
  destruct (forward_first _ _ _ _ _ Hf) as [Hno|Hfirst]; [congruence|].
  destruct (Hfirst ob hr rest url Hsent Hst Hloc Hto) as (next & r' & rest' & -> & ? & ? & Hbody).
  exists next, r', rest'. by rewrite Hb.
Qed.
End egress.

(** ** Witnesses *)

Module EgressWitnesses.
Import Policy.ToyCedar A2AWitnesses.
#[local] Existing Instance verbatim_postgres.
#[local] Existing Instance named_states.
#[local] Existing Instance nested_json.

Definition partner : RemoteAgentRecord :=
  {| AgentID := "partner"; URL := "http://partner.invalid/a2a"; Risk := RiskHigh; Description := "";
     CredentialSecretName := "partner.token"; ra_CreatedAt := 0; ra_UpdatedAt := 0 |}.
Definition partner_engine : Engine :=
  match LoadEngine (bundle [item "p" "permit" "permit partner" ""]) with
  | Ok e => e
  | Err _ => {| policySet := new_policy_set; dispositions := ∅ |}
  end.
Definition gateway : A2AEgressHandlers :=
  {| eh_Policy := Some (SingleTenantSet "t" partner_engine); eh_Tenant := "t"; eh_MaxInFlightPerRun := 2;
     eh_InFlightStaleAfter := 0 |}.
Definition me : Caller :=
  {| ID := "me"; Kind := KindService; TokenSHA256 := ""; MayActAs := []; MayApprove := false; Tenant := "t";
     MayActForTenants := [] |}.
Definition rpc_body (method : string) : RawMessage :=
  RawDoc (JObject [("jsonrpc", JString "2.0"); ("id", JString "7"); ("method", JString method)]).
Definition ask_remote (remote : string) : egress_request :=
  {| eq_remote := remote; eq_agent := "a@1"; eq_run := "r"; eq_step := "s"; eq_hop := "2"; eq_caller := Some me;
     eq_body := Some (rpc_body "message/send") |}.

Definition refusal_body : RawMessage :=
  RawDoc (JObject [("jsonrpc", JString "2.0"); ("id", JString "7"); ("error", JString "not now")]).

(** A Location is an address, and a credential stays where it was sent. *)
#[local] Instance plain_redirects : Redirects := {|
  redirect_to _ location := Some location;
  same_site := String.eqb;
  referer from _ := from;
  body_headers := {["Content-Type"]} |}.

(** Everything succeeds, and the remote answers with [answer], elsewhere if it has
    moved. *)
Definition eserve (moved : string) (answer : RawMessage) (u : ()) (c : ecall) : () * ereply c :=
  (tt, match c return ereply c with
       | EStore c => (match c return dreply c with
                      | DCount _ _ _ | DCloseTask _ _ _ _ => Ok 0%Z
                      | DInsert _ _ => Ok (1, 0)%Z
                      | DForRun _ _ => Ok []
                      | DRollback => tt
                      | DBegin | DLock _ | DCommit | DObserve _ _ _ _ | DClose _ _ _ _ | DDeny _ _ _ => Ok tt
                      end)
       | ERegistry c => (match c return xreply c with
                         | XDeclare _ r => Ok r
                         | XGet _ id => Ok (Some partner)
                         | XList _ => Ok []
                         end)
       | EIssue _ _ _ => Ok "lease_1"
       | EResolve _ => Ok "tok"
       | ERevoke _ => tt
       | EDo rq => if sempty moved || String.eqb (ob_url rq) moved
                   then Ok {| hr_status := 200; hr_location := ""; hr_body := Some answer |}
                   else Ok {| hr_status := 307; hr_location := moved; hr_body := Some RawEmpty |}
       end).

Definition toy_hash (s : string) : Z := 0.
Definition every_url (s : string) : bool := true.
Definition trace_from (moved : string) (answer : RawMessage) (remote : string) :=
  run_log (eserve moved answer) tt (proxy toy_hash every_url gateway (ask_remote remote)).
Definition trace := trace_from "".
Lemma traced_from moved answer remote :
  histories (proxy toy_hash every_url gateway (ask_remote remote))
    (trace_from moved answer remote).1.2 (trace_from moved answer remote).2.
Proof. apply run_log_histories. Qed.
Definition traced := traced_from "".

(** The remote has moved: the delegation follows it there, without the credential. *)
Definition elsewhere : string := "http://elsewhere.invalid/".
Definition moved := trace_from elsewhere refusal_body "partner".
Lemma forwarded_as_governed_witness :
  ∃ first r next r', sent moved.1.2 = [(first, r); (next, r')] ∧ ob_url first = "http://partner.invalid/a2a" ∧
    ob_headers first !! "Authorization" = Some "Bearer tok" ∧ ob_headers first !! HeaderHopDepth = Some "3" ∧
    ob_url next = elsewhere ∧ ob_body next = ob_body first ∧ ob_headers next !! "Authorization" = None ∧
    redirected first first r [(next, r')].
Proof.
  assert (Hm : match sent moved.1.2 with
    | [(ob, _); (next, _)] => (ob_url ob, ob_headers ob !! "Authorization", ob_headers ob !! HeaderHopDepth,
                               ob_url next, ob_headers next !! "Authorization", match ob_body next with Some _ => true | None => false end)
    | _ => ("", None, None, "", None, false) end =
    ("http://partner.invalid/a2a", Some "Bearer tok", Some "3", elsewhere, None, true)) by (vm_compute; reflexivity).
  destruct (forwarded_as_governed toy_hash every_url gateway (ask_remote "partner") _ _ (traced_from elsewhere refusal_body "partner"))
    as [Hno|(body & rpc & remote & v & first & r & rest & _ & _ & Hs & Hred & _ & _ & _)];
    [unfold moved in Hm; rewrite Hno in Hm; discriminate Hm|].
  unfold moved in Hm |- *. rewrite Hs in Hm |- *. destruct rest as [|[next r'] [|]]; [discriminate Hm| |discriminate Hm].
  injection Hm as H1 H2 H3 H4 H5 H6. exists first, r, next, r'. split_and!; try done.
  destruct Hred as [(resp & _ & _ & _ & [(_ & _ & Hb)|(_ & _ & Hb)] & _) _]; [exact Hb|by rewrite Hb in H6].
Defined.

Lemma denials_are_recorded_witness :
  ∃ reason, denials (trace refusal_body "stranger").1.2 = [("t", delegation_of (ask_remote "stranger")
      {| JSONRPC := "2.0"; RPC_ID := Some (JString "7"); Method := "message/send"; Params := None |}, reason)] ∧
    sent (trace refusal_body "stranger").1.2 = [].
Proof.
  pose proof (denials_are_recorded toy_hash every_url gateway (ask_remote "stranger") _ _
    (traced refusal_body "stranger")) as Hd.
  assert (Hs : egress_status (trace refusal_body "stranger").2 = 403%Z) by (vm_compute; reflexivity).
  assert (Hn : length (denials (trace refusal_body "stranger").1.2) = 1%nat) by (vm_compute; reflexivity).
  unfold trace in *. destruct (trace_from "" refusal_body "stranger").2; try (rewrite Hd in Hn; discriminate Hn).
  destruct Hd as (Hsent & _ & _ & body & rpc & [= <-] & Hrpc & Hden).
  exists reason. split; [|exact Hsent]. rewrite Hden. vm_compute in Hrpc. by injection Hrpc as <-.
Defined.

(** The remote finishes the task, and the slot is closed with its state. *)
Definition completed := trace (RawDoc (reply "completed")) "partner".
Lemma completed_opened : opened completed.1.2 1.
Proof. split; [|eexists _, _, _]; vm_compute; repeat (left || right). Qed.
Lemma slots_are_accounted_witness :
  opened completed.1.2 1 ∧ reports completed.1.2 = [Closed 1 "task-1" "completed" (Some true)] ∧
  ∃ rel, relayed completed.1.2 completed.2 rel ∧
    reports completed.1.2 = [if Terminal (Classification rel)
                             then Closed 1 (TaskID rel) (State (Classification rel)) (Some true)
                             else Observed 1 (TaskID rel) (State (Classification rel)) (Some false)].
Proof.
  assert (Hc : reports completed.1.2 = [Closed 1 "task-1" "completed" (Some true)]) by (vm_compute; reflexivity).
  split; [exact completed_opened|]. split; [exact Hc|].
  destruct (slots_are_accounted toy_hash every_url gateway (ask_remote "partner") _ _
    (traced (RawDoc (reply "completed")) "partner")) as [Hs _].
  destruct (Hs 1%Z completed_opened) as [[_ Hr]|Hr]; [|exact Hr].
  exfalso. unfold completed, trace in Hc. rewrite Hr in Hc. discriminate Hc.
Defined.

Lemma refused_work_keeps_its_slot_witness :
  ∃ id, reports (trace refusal_body "partner").1.2 = [Observed id "" "" (Some false)].
Proof.
  assert (Hs : ∃ ob, last (sent (trace refusal_body "partner").1.2) =
    Some (ob, Ok {| hr_status := 200; hr_location := ""; hr_body := Some refusal_body |}))
    by (eexists; vm_compute; reflexivity).
  assert (Hresp : egress_status (trace refusal_body "partner").2 = 200%Z) by (vm_compute; reflexivity).
  destruct Hs as [ob Hs].
  destruct (refused_work_keeps_its_slot toy_hash every_url gateway (ask_remote "partner") _ _ _ _ ob _ _
    (traced refusal_body "partner") eq_refl eq_refl eq_refl Hs eq_refl) as (id & created & _ & _ & Hr & _).
  - eexists _, _. split; [reflexivity|]. split; reflexivity.
  - intros e He. unfold trace in Hresp. rewrite He in Hresp. discriminate Hresp.
  - exists id. exact Hr.
Defined.

Lemma redirects_reach_undeclared_addresses_witness :
  ∃ ob hr rest next r' rest', sent moved.1.2 = (ob, Ok hr) :: rest ∧ rest = (next, r') :: rest' ∧ ob_url next = elsewhere ∧
    ob_body next = eq_body (ask_remote "partner").
Proof.
  assert (Hs : ∃ ob rest, sent moved.1.2 = (ob, Ok {| hr_status := 307; hr_location := elsewhere; hr_body := Some RawEmpty |}) :: rest)
    by (eexists _, _; vm_compute; reflexivity). destruct Hs as (ob & rest & Hs).
  destruct (redirects_reach_undeclared_addresses toy_hash every_url gateway (ask_remote "partner") _ _ ob _ rest elsewhere
    (traced_from elsewhere refusal_body "partner") Hs (or_introl eq_refl)) as (next & r' & rest' & Hrest & Hu & _ & Hb); [done|done|].
  exists ob. eexists. exists rest, next, r', rest'. split; [exact Hs|]. split; [exact Hrest|]. split; [exact Hu|exact Hb].
Defined.
End EgressWitnesses.
