(* ===== verification/Executor.v ===== *)
(** * Package a2a: runs served as tasks

    go/internal/a2a/executor.go and agentcard.go: a task of the A2A protocol is a run
    of a fixed graph, started through the run controller and polled until it is over;
    and the card an agent is advertised with. The protocol's library, which owns the
    task and delivers the events, and Temporal are calls with arbitrary replies; the
    ticker and the context are one call, a tick or the end of the context. *)

From S2P Require Import Prelude GoValue Program AgentRegistry RunController A2A.

Local Open Scope string_scope.
Set Default Proof Using "Type*".

(** ** The card *)

Record AgentSkill := { sk_ID : string; sk_Name : string; sk_Tags : list string }.
(** The protocol's constants and the sentences made of the other fields are left out. *)
Record AgentCard := { card_Name : string; card_Version : string; card_URL : string; Skills : list AgentSkill }.

Definition skill (t : any) : option AgentSkill :=
  let name := as_string t in
  if sempty name then None else Some {| sk_ID := name; sk_Name := name; sk_Tags := ["aeon-tool"] |}.
Definition allowed_tools (manifest : gomap) : list any :=
  match as_map_opt (mget (items manifest) "spec") with
  | Some spec =>
      match as_map_opt (mget spec "tools") with
      | Some tools => as_list (mget tools "allow")
      | None => []
      end
  | None => []
  end.
Definition BuildAgentCard (rec : AgentRecord) (url : string) : AgentCard :=
  {| card_Name := AgentRegistry.Name rec; card_Version := AgentRegistry.Version rec; card_URL := url;
     Skills := omap skill (allowed_tools (AgentRegistry.Manifest rec)) |}.

(** ** The executor *)

Section executor.
Context `{Converter, TaskStates}.

Record AeonAgentExecutor := {
  ex_Tenant : string;
  ex_Controller : Controller;
  Graph : gomap;
  ex_AgentManifestRef : string;
}.

(** Why a task ended, where the source formats a sentence. *)
Inductive detail :=
| NoDetail
| StartingTheRun (e : RunError)
| CheckingStatus (e : RunError)
| UnderlyingRunFailed
| UnderlyingRunCanceled.
Record task_event := { ev_State : string; ev_Detail : detail; Final : bool }.

Inductive xcall :=
| XRun (c : tcall)
| XWrite (e : task_event)    (** to the task's queue; the reply is an error, or none *)
| XTick.                     (** the next tick, or the end of the context *)
Definition xreply (c : xcall) : Type :=
  match c with
  | XRun c => treply c
  | XWrite _ => option string
  | XTick => bool
  end.
Abbreviation XM := (prog xreply).

Fixpoint of_run {A} (m : prog treply A) : XM A :=
  match m with Ret a => Ret a | Vis c k => Vis (XRun c) (λ r, of_run (k r)) end.

Inductive outcome :=
| WorkingNotWritten (msg : string)
| ContextDone
| Wrote (e : task_event) (err : option string)   (** the last event, and what writing it returned *)
| Polling                                        (** the fuel is spent *)
| CancelRefused (e : RunError).

Definition workflowIDFor (runID : string) : string := "graph-run-" +:+ runID.

Definition writeTerminal (state : string) (d : detail) : XM outcome :=
  let event := {| ev_State := state; ev_Detail := d; Final := true |} in
  err ← ask (XWrite event);
  mret (Wrote event err).

(** The event a run's status ends the task with. *)
Definition ending (status : string) : option (string * detail) :=
  if String.eqb status "SUCCEEDED" then Some (TaskStateCompleted, NoDetail)
  else if String.eqb status "FAILED" then Some (TaskStateFailed, UnderlyingRunFailed)
  else if String.eqb status "CANCELLED" then Some (TaskStateCanceled, UnderlyingRunCanceled)
  else None.

Fixpoint poll (fuel : nat) (e : AeonAgentExecutor) (workflowID : string) : XM outcome :=
  match fuel with
  | O => mret Polling
  | S fuel =>
      tick ← ask XTick;
      if negb (tick : bool) then mret ContextDone
      else
        status ← of_run (Status_ (ex_Controller e) workflowID (ex_Tenant e));
        match status with
        | Err err => writeTerminal TaskStateFailed (CheckingStatus err)
        | Ok s =>
            match ending (st_Status s) with
            | Some (state, d) => writeTerminal state d
            | None => poll fuel e workflowID
            end
        end
  end.

Definition working : task_event := {| ev_State := TaskStateWorking; ev_Detail := NoDetail; Final := false |}.

Definition Execute (fuel : nat) (e : AeonAgentExecutor) (taskID : string) : XM outcome :=
  w ← ask (XWrite working);
  match w : option string with
  | Some msg => mret (WorkingNotWritten msg)
  | None =>
      started ← of_run (Start (ex_Controller e) taskID (Graph e) None (ex_AgentManifestRef e) (ex_Tenant e));
      match started with
      | Err err => writeTerminal TaskStateFailed (StartingTheRun err)
      | Ok _ => poll fuel e (workflowIDFor taskID)
      end
  end.

Definition CancelTask (taskID : string) : XM outcome :=
  r ← of_run (RunController.Cancel (workflowIDFor taskID));
  match r with
  | Err e => mret (CancelRefused e)
  | Ok _ => writeTerminal TaskStateCanceled NoDetail
  end.

(** ** What a task is told *)

Abbreviation event := {c : xcall & xreply c}.
Definition said_event (x : event) : option task_event :=
  match x with existT (XWrite e) _ => Some e | _ => None end.
Definition said (t : list event) : list task_event := omap said_event t.

Definition in_run (x : {c : tcall & treply c}) : event := existT (XRun (projT1 x)) (projT2 x).

Lemma of_run_histories {A} (m : prog treply A) t a :
  histories (of_run m) t a → ∃ t0, t = in_run <$> t0 ∧ histories m t0 a.
Proof.
  revert t. induction m as [a0|c k IH]; intros t; simpl.
  - intros [-> ->]. by exists [].
  - intros (r & t' & -> & Ht). apply IH in Ht as (t0 & -> & Ht). exists (existT c r :: t0).
    split; [done|]. eauto.
Qed.

Lemma said_run t0 t : said ((in_run <$> t0) ++ t) = said t.
Proof. unfold said. induction t0 as [|x t0 IH]; [done|]. exact IH. Qed.

(** A stretch of polls, with the statuses they read. *)
Inductive polled (e : AeonAgentExecutor) (workflowID : string) : list Status → list event → Prop :=
| polled_none : polled e workflowID [] []
| polled_one s ss t0 t :
    histories (Status_ (ex_Controller e) workflowID (ex_Tenant e)) t0 (Ok s) → polled e workflowID ss t →
    polled e workflowID (s :: ss) (existT XTick true :: (in_run <$> t0) ++ t).

Definition unfinished (s : Status) : Prop := ending (st_Status s) = None.

(** How polling ends after some statuses of a run that was not over. *)
Definition poll_end (e : AeonAgentExecutor) (workflowID : string) (t : list event) (res : outcome) : Prop :=
  match res with
  | Polling => t = []
  | ContextDone => t = [existT XTick false]
  | Wrote ev err => ∃ t0, t = (existT XTick true :: (in_run <$> t0) ++ [existT (XWrite ev) err])%list ∧ Final ev = true ∧
      ((∃ x, histories (Status_ (ex_Controller e) workflowID (ex_Tenant e)) t0 (Err x) ∧
         ev_State ev = TaskStateFailed ∧ ev_Detail ev = CheckingStatus x) ∨
       (∃ s, histories (Status_ (ex_Controller e) workflowID (ex_Tenant e)) t0 (Ok s) ∧
         ending (st_Status s) = Some (ev_State ev, ev_Detail ev)))
  | _ => False
  end.

(** Polling that ends at its first tick. *)
Lemma poll_first fuel e wf t res :
  poll_end e wf t res → res ≠ Polling →
  ∃ ss t1 t2, t = (t1 ++ t2)%list ∧ polled e wf ss t1 ∧ Forall unfinished ss ∧ poll_end e wf t2 res ∧
    (length ss ≤ S fuel)%nat ∧ (res = Polling ↔ length ss = S fuel).
Proof.
  intros Ht Hres. exists [], [], t. split; [done|]. split; [constructor|]. split; [constructor|].
  split; [done|]. split; [simpl; lia|]. by split.
Qed.

Lemma poll_history fuel e wf t res :
  histories (poll fuel e wf) t res →
  ∃ ss t1 t2, t = (t1 ++ t2)%list ∧ polled e wf ss t1 ∧ Forall unfinished ss ∧ poll_end e wf t2 res ∧
    (length ss ≤ fuel)%nat ∧ (res = Polling ↔ length ss = fuel).
Proof.
  revert t. induction fuel as [|fuel IH]; intros t.
  { intros [-> ->]. exists [], [], []. split; [done|]. split; [constructor|]. split; [constructor|].
    split; [done|]. by split. }
  cbn [poll]. intros (tick & tt & t' & -> & (tick' & tt' & -> & -> & ->) & Ht)%histories_bind.
  destruct tick'; cbn [negb app] in Ht |- *; [|destruct Ht as [-> ->]; by apply poll_first].
  apply histories_bind in Ht as (status & t1 & t2 & -> & (t0 & -> & Hs)%of_run_histories & Ht).
  destruct status as [s|x].
  - destruct (ending (st_Status s)) as [[state d]|] eqn:He.
    + destruct Ht as (err & t3 & -> & -> & ->). apply poll_first; [|done].
      exists t0. split; [done|]. split; [done|]. right. eauto.
    + apply IH in Ht as (ss & t3 & t4 & -> & Hp & Hf & Hend & Hle & Hiff).
      exists (s :: ss), (existT XTick true :: (in_run <$> t0) ++ t3)%list, t4.
      split; [simpl; by rewrite app_assoc|]. split; [by constructor|]. split; [by constructor|].
      split; [done|]. split; [simpl; lia|]. simpl. rewrite Hiff. lia.
  - destruct Ht as (err & t3 & -> & -> & ->). apply poll_first; [|done].
    exists t0. split; [done|]. split; [done|]. left. eauto.
Qed.

Lemma polled_says_nothing e wf ss t t' : polled e wf ss t → said (t ++ t') = said t'.
Proof.
  induction 1 as [|s ss t0 t Hs Hp IH]; [done|]. rewrite <-IH.
  change (said (((in_run <$> t0) ++ t) ++ t') = said (t ++ t')). by rewrite <-app_assoc, said_run.
Qed.

Definition run_of (e : AeonAgentExecutor) (taskID : string) : prog treply (result RunError RunInfo) :=
  Start (ex_Controller e) taskID (Graph e) None (ex_AgentManifestRef e) (ex_Tenant e).

(** A task is told it is working before its run is started, and then nothing until
    the last word, which a poll of its own run or a failure gives; and polling goes on
    only as long as every poll found the run unfinished. *)
Lemma execute_history fuel e taskID t res :
  histories (Execute fuel e taskID) t res →
  said t = working :: match res with Wrote ev _ => [ev] | _ => [] end ∧
  ((∃ msg, res = WorkingNotWritten msg) ∨
   ∃ t0 started t1, t = (existT (XWrite working) None :: (in_run <$> t0) ++ t1)%list ∧
     histories (run_of e taskID) t0 started ∧
     match started with
     | Err x => ∃ err, res = Wrote {| ev_State := TaskStateFailed; ev_Detail := StartingTheRun x; Final := true |} err
     | Ok _ => ∃ ss t2 t3, t1 = (t2 ++ t3)%list ∧ polled e (workflowIDFor taskID) ss t2 ∧ Forall unfinished ss ∧
         poll_end e (workflowIDFor taskID) t3 res ∧ (res = Polling ↔ length ss = fuel)
     end).
Proof.
  unfold Execute. intros (w & tw & t' & -> & (w' & tw' & -> & -> & ->) & Ht)%histories_bind.
  destruct w' as [msg|]; [by destruct Ht as [-> ->]; split; [|left; eauto]|].
  apply histories_bind in Ht as (started & t1 & t2 & -> & (t0 & -> & Hs)%of_run_histories & Ht).
  cbn [app]. destruct started as [info|x].
  - apply poll_history in Ht as (ss & t3 & t4 & -> & Hp & Hf & Hend & _ & Hiff). split.
    + change (working :: said ((in_run <$> t0) ++ t3 ++ t4) = working :: match res with Wrote ev _ => [ev] | _ => [] end).
      f_equal. rewrite said_run, (polled_says_nothing _ _ _ _ _ Hp).
      destruct res; simpl in Hend; try done; try by subst t4.
      destruct Hend as (tl & -> & _).
      change (said ((in_run <$> tl) ++ [existT (XWrite e0) err]) = [e0]). by rewrite said_run.
    + right. exists t0, (Ok info), (t3 ++ t4)%list. split; [done|]. split; [done|]. exists ss, t3, t4. done.
  - destruct Ht as (err & t3 & -> & -> & ->). split.
    + change (working :: said ((in_run <$> t0) ++
        [existT (XWrite {| ev_State := TaskStateFailed; ev_Detail := StartingTheRun x; Final := true |}) err]) =
        [working; {| ev_State := TaskStateFailed; ev_Detail := StartingTheRun x; Final := true |}]).
      by rewrite said_run.
    + right. eexists t0, (Err x), _. split; [done|]. split; [done|]. eauto.
Qed.

(** A task is told that it is working, and after that at most one event, a final
    one. That last word reports a run as completed, failed or cancelled only when a
    poll of the task's own run, under the executor's tenant, read it so; any other
    failure says what could not be done. Fuel runs out only after that many polls. *)
Theorem task_follows_its_run fuel e taskID t res :
  histories (Execute fuel e taskID) t res →
  match res with
  | WorkingNotWritten _ | ContextDone => said t = [working]
  | Polling => said t = [working] ∧
      ∃ ss, length ss = fuel ∧ Forall unfinished ss
  | Wrote ev _ => said t = [working; ev] ∧ Final ev = true ∧
      match ev_Detail ev with
      | StartingTheRun x => ev_State ev = TaskStateFailed ∧ ∃ t0, histories (run_of e taskID) t0 (Err x)
      | CheckingStatus x => ev_State ev = TaskStateFailed ∧
          ∃ t0, histories (Status_ (ex_Controller e) (workflowIDFor taskID) (ex_Tenant e)) t0 (Err x)
      | d => ∃ t0 s, histories (Status_ (ex_Controller e) (workflowIDFor taskID) (ex_Tenant e)) t0 (Ok s) ∧
          ending (st_Status s) = Some (ev_State ev, d)
      end
  | CancelRefused _ => False
  end.
Proof.
  intros [Hsaid [[msg ->]|(t0 & started & t1 & _ & Hs & Hend)]]%execute_history; [exact Hsaid|].
  destruct started as [info|x]; [|destruct Hend as [err' ->]; split; [exact Hsaid|]; split; [done|]; split; [done|]; by exists t0].
  destruct Hend as (ss & t2 & t3 & _ & _ & Hf & Hend & Hiff).
  destruct res as [?| |[state d fin] err| |?]; simpl in *; try done; [|by split; [|exists ss; split; [apply Hiff|]]].
  destruct Hend as (tl & _ & -> & [(x & Hx & -> & ->)|(s & Hx & He)]); (split; [exact Hsaid|split; [done|]]).
  { split; [done|]. by exists tl. }
  assert (Hd : d = NoDetail ∨ d = UnderlyingRunFailed ∨ d = UnderlyingRunCanceled).
  { unfold ending in He. repeat case_match; naive_solver. }
  destruct Hd as [->|[->| ->]]; by exists tl, s.
Qed.

(** Cancelling asks Temporal first, and tells the task only once that was accepted. *)
Lemma cancel_history taskID t res :
  histories (CancelTask taskID) t res →
  (∃ e, res = CancelRefused e ∧ said t = []) ∨
  ∃ err, res = Wrote {| ev_State := TaskStateCanceled; ev_Detail := NoDetail; Final := true |} err ∧
    t = [existT (XRun (TCancel (workflowIDFor taskID))) (Ok tt);
         existT (XWrite {| ev_State := TaskStateCanceled; ev_Detail := NoDetail; Final := true |}) err].
Proof.
  intros (r & t' & -> & Ht). destruct r as [[]|msg].
  - destruct Ht as (err & t3 & -> & -> & ->). right. eauto.
  - destruct Ht as [-> ->]. left. eauto.
Qed.
End executor.

(** The card lists the agent's allowed tools, by name and in their order. *)
Lemma card_lists_allowed_tools rec url :
  sk_Name <$> Skills (BuildAgentCard rec url) =
  filter (λ n, n ≠ "") (as_string <$> allowed_tools (AgentRegistry.Manifest rec)).
Proof.
  change (list_fmap _ _ sk_Name (list_omap _ _ skill (allowed_tools (AgentRegistry.Manifest rec))) =
    filter (λ n, n ≠ "") (list_fmap _ _ as_string (allowed_tools (AgentRegistry.Manifest rec)))).
  induction (allowed_tools _) as [|a l IH]; [done|]. cbn [list_fmap list_omap]. unfold skill at 1.
  destruct (sempty (as_string a)) eqn:Ha; cbn [list_fmap].
  - apply sempty_true in Ha. rewrite filter_cons_False; [done|]. intros Hn. by apply Hn.
  - apply sempty_false in Ha. rewrite filter_cons_True by done. cbn [sk_Name]. by rewrite IH.
Qed.

(** ** Witnesses *)

Module ExecutorWitnesses.
Import RunController.RunWitnesses A2A.A2AWitnesses.
#[local] Existing Instance named_states.

Definition exec : AeonAgentExecutor :=
  {| ex_Tenant := "t"; ex_Controller := ctl; Graph := None; ex_AgentManifestRef := "a@1" |}.

(** A run that is found running once, and over at the second poll. *)
Definition xserve (n : nat) (c : xcall) : nat * xreply c :=
  match c return nat * xreply c with
  | XRun (TDescribe _) =>
      (S n, Ok {| desc_status := if (n =? 0)%nat then STATUS_RUNNING else STATUS_COMPLETED;
                  desc_memo := Some {[TenantMemoKey := AString "t"]} |})
  | XRun (TQuery _ _) => (n, Ok ANil)
  | XRun c => (n, (serve_run tt c).2)
  | XWrite _ => (n, None)
  | XTick => (n, true)
  end.
Definition task_log (fuel : nat) := run_log xserve 0%nat (Execute fuel exec "task-1").
Lemma task_history fuel : histories (Execute fuel exec "task-1") (task_log fuel).1.2 (task_log fuel).2.
Proof. apply run_log_histories. Qed.

Definition completed : task_event := {| ev_State := "completed"; ev_Detail := NoDetail; Final := true |}.

Lemma task_follows_its_run_witness :
  said (task_log 5).1.2 = [working; completed] ∧
  (∃ t0 s, histories (Status_ ctl "graph-run-task-1" "t") t0 (Ok s) ∧ ending (st_Status s) = Some ("completed", NoDetail)) ∧
  (task_log 1).2 = Polling.
Proof.
  assert (Hr : (task_log 5).2 = Wrote completed None) by (vm_compute; reflexivity).
  pose proof (task_follows_its_run 5 exec "task-1" _ _ (task_history 5)) as Hs.
  rewrite Hr in Hs. destruct Hs as (Hs & _ & Hlast).
  split; [exact Hs|]. split; [exact Hlast|vm_compute; reflexivity].
Defined.
End ExecutorWitnesses.
