(* ===== verification/Hmac.v ===== *)
(** * HMAC-SHA256 and what a digest determines

    crypto/hmac over the SHA-256 of Sha256.v, as RFC 2104 defines it, and the lemmas
    that turn equal digests into equal messages or a collision of SHA-256. *)

From S2P Require Import Prelude GoValue Sha256.

Local Open Scope Z_scope.
Set Default Proof Using "Type*".

(** ** HMAC *)

Definition block_size : nat := 64.
Definition hmac_key (key : list Z) : list Z :=
  let key := if (block_size <? length key)%nat then sha256 key else key in
  key ++ replicate (block_size - length key) 0.
Definition hmac_pad (byte : Z) (key : list Z) : list Z := (λ k, Z.lxor k byte) <$> hmac_key key.
Definition hmac_sha256 (key msg : list Z) : list Z :=
  sha256 (hmac_pad 92 key ++ sha256 (hmac_pad 54 key ++ msg)).

(** RFC 4231, test case 2. *)
Example hmac_jefe :
  hex_encode (hmac_sha256 (bytes_of_string "Jefe") (bytes_of_string "what do ya want for nothing?")) =
  "5bdcc146bf60754e6a042426089575c75a003f089d2739839dec58b964ec3843"%string.
Proof. vm_compute. reflexivity. Qed.

(** ** Digests *)

Definition is_byte (b : Z) : Prop := 0 <= b < 256.

Lemma be_bytes_bytes n z : Forall is_byte (be_bytes n z).
Proof.
  revert z. induction n as [|n IH]; intros z; simpl; [constructor|].
  apply Forall_app. split; [apply IH|]. constructor; [|constructor].
  change 255 with (Z.ones 8). rewrite Z.land_ones by done. by apply Z.mod_pos_bound.
Qed.

Lemma be_bytes_length n z : length (be_bytes n z) = n.
Proof. revert z. induction n as [|n IH]; intros z; simpl; [done|]. rewrite length_app, IH. simpl. lia. Qed.

Lemma sha256_bytes msg : Forall is_byte (sha256 msg).
Proof.
  unfold sha256. generalize (blocks (length (words (pad msg))) initial_hash (words (pad msg))).
  intros l. induction l as [|z l IH]; [constructor|]. cbn [map concat].
  apply Forall_app. split; [apply be_bytes_bytes|done].
Qed.

Lemma rounds_length kw st : length st = 8%nat → length (rounds kw st) = 8%nat.
Proof.
  revert st. induction kw as [|[k w] kw IH]; intros st Hst; simpl; [done|].
  do 8 (destruct st as [|? st]; [done|]). destruct st; [|done]. by apply IH.
Qed.

Lemma blocks_length fuel st ws : length st = 8%nat → length (blocks fuel st ws) = 8%nat.
Proof.
  revert st ws. induction fuel as [|fuel IH]; intros st ws Hst; simpl; [done|].
  destruct ws as [|w ws]; [done|]. apply IH. unfold compress.
  rewrite length_zip_with, rounds_length; [|done]. rewrite Hst. done.
Qed.

Lemma sha256_length msg : length (sha256 msg) = 32%nat.
Proof.
  unfold sha256. pose proof (blocks_length (length (words (pad msg))) initial_hash (words (pad msg)) eq_refl) as Hl.
  revert Hl. generalize (blocks (length (words (pad msg))) initial_hash (words (pad msg))). intros l Hl.
  do 8 (destruct l as [|? l]; [done|]). destruct l; [|done]. simpl. repeat rewrite length_app. simpl. done.
Qed.

(** Two hexadecimal digits name one byte. *)
Lemma hex_byte_inj a b s t : is_byte a → is_byte b → hex_byte a s = hex_byte b t → a = b ∧ s = t.
Proof.
  intros Ha Hb [= Hhi Hlo <-]. split; [|done].
  assert (Hdigit : ∀ x y, 0 <= x < 16 → 0 <= y < 16 → hex_digit x = hex_digit y → x = y).
  { intros x y Hx Hy Hxy. apply (f_equal Ascii.nat_of_ascii) in Hxy. unfold hex_digit in Hxy.
    destruct (x <? 10) eqn:Hx10, (y <? 10) eqn:Hy10; bools;
      do 2 (rewrite Ascii.nat_ascii_embedding in Hxy by lia); lia. }
  assert (Hsplit : ∀ z, z = 16 * Z.shiftr z 4 + Z.land z 15).
  { intros z. rewrite Z.shiftr_div_pow2 by done. change 15 with (Z.ones 4).
    rewrite Z.land_ones by done. change (2 ^ 4) with 16. pose proof (Z.div_mod z 16 ltac:(done)). lia. }
  assert (Hhigh : ∀ z, is_byte z → 0 <= Z.shiftr z 4 < 16).
  { intros z Hz. rewrite Z.shiftr_div_pow2 by done. change (2 ^ 4) with 16. unfold is_byte in Hz.
    split; [apply Z.div_pos; lia|apply Z.div_lt_upper_bound; lia]. }
  assert (Hlow : ∀ z, 0 <= Z.land z 15 < 16).
  { intros z. change 15 with (Z.ones 4). rewrite Z.land_ones by done. by apply Z.mod_pos_bound. }
  apply Hdigit in Hhi; [|by apply Hhigh..]. apply Hdigit in Hlo; [|by apply Hlow..].
  rewrite (Hsplit a), (Hsplit b). congruence.
Qed.

Lemma hex_encode_inj l k : Forall is_byte l → Forall is_byte k → hex_encode l = hex_encode k → l = k.
Proof.
  intros Hl. revert k. induction Hl as [|a l Ha _ IH]; intros [|b k] Hk; simpl; try done.
  apply Forall_cons in Hk as [Hb Hk]. intros [-> Ht]%hex_byte_inj; [|done..]. f_equal. by apply IH.
Qed.

Lemma hex_encode_length l : String.length (hex_encode l) = (2 * length l)%nat.
Proof. induction l as [|a l IH]; simpl; [done|]. rewrite IH. lia. Qed.

Lemma sha256_hex_length s : String.length (sha256_hex s) = 64%nat.
Proof. unfold sha256_hex. by rewrite hex_encode_length, sha256_length. Qed.

Lemma bytes_of_string_inj s t : bytes_of_string s = bytes_of_string t → s = t.
Proof.
  revert t. induction s as [|a s IH]; intros [|b t]; simpl; try done. intros [= Hab Ht].
  f_equal; [|by apply IH]. apply Nat2Z.inj in Hab.
  rewrite <-(Ascii.ascii_nat_embedding a), <-(Ascii.ascii_nat_embedding b). by f_equal.
Qed.

Lemma bytes_of_string_app s t : bytes_of_string (s +:+ t) = bytes_of_string s ++ bytes_of_string t.
Proof. induction s as [|a s IH]; simpl; [done|]. by f_equal. Qed.

(** Two messages with one digest. *)
Definition sha_collision (a b : list Z) : Prop := a ≠ b ∧ sha256 a = sha256 b.
Definition collision_exists : Prop := ∃ a b, sha_collision a b.

Lemma sha256_eq a b : sha256 a = sha256 b → a = b ∨ collision_exists.
Proof. intros Hab. destruct (decide (a = b)); [by left|right]. by exists a, b. Qed.

Lemma sha256_hex_eq s t : sha256_hex s = sha256_hex t → s = t ∨ collision_exists.
Proof.
  intros [Hst%bytes_of_string_inj|]%hex_encode_inj%sha256_eq; auto using sha256_bytes.
Qed.

Lemma hmac_eq key m m' :
  hex_encode (hmac_sha256 key m) = hex_encode (hmac_sha256 key m') → m = m' ∨ collision_exists.
Proof.
  intros He%hex_encode_inj; [|apply sha256_bytes..].
  apply sha256_eq in He as [Ho|]; [|by right]. apply app_inv_head in Ho.
  apply sha256_eq in Ho as [Hi|]; [|by right]. apply app_inv_head in Hi. by left.
Qed.
