(* ===== verification/MemoryStore.v ===== *)
(** * Package store: the governed memory

    go/internal/store/memory_store.go, memory_pipeline.go, memory_forgetting.go and
    memory_security.go: the table memory_records with its constraints, the statements
    sent to it, and the operations of the store as sequences of those statements,
    between which other processes run. Hashes and provenance are computed with
    SHA-256 itself. Times are nanoseconds; a stored time is cut to the microsecond. *)

From S2P Require Import Prelude GoValue Sha256 Hmac Json Program.

Local Open Scope string_scope.
Set Default Proof Using "Type*".

Definition MemoryTypes : list string := ["EPISODIC"; "SEMANTIC"; "PROCEDURAL"; "CONSTRAINT"].
Definition MemoryScopes : list string := ["session"; "user"; "project"; "tenant"; "org"].
Definition MemoryStatusCandidate : string := "CANDIDATE".
Definition MemoryStatusQuarantined : string := "QUARANTINED".
Definition MemoryStatusValidated : string := "VALIDATED".
Definition MemoryStatusActive : string := "ACTIVE".
Definition MemoryStatusSuperseded : string := "SUPERSEDED".
Definition MemoryStatusRevoked : string := "REVOKED".
Definition MemoryStatuses : list string :=
  [MemoryStatusCandidate; MemoryStatusQuarantined; MemoryStatusValidated; MemoryStatusActive;
   MemoryStatusSuperseded; MemoryStatusRevoked].
Definition TrustLevels : list string := ["UNTRUSTED"; "CANDIDATE"; "VALIDATED"; "TRUSTED"].

Definition oneOf (s : string) (l : list string) : bool := bool_decide (s ∈ l).

Record MemoryRecord := {
  mr_MemoryID : string;
  mr_Type : string;
  mr_Scope : string;
  mr_TenantID : string;
  mr_Content : string;
  mr_SourceRunIDs : list string;
  mr_EvidenceRefs : list string;
  mr_TrustLevel : string;
  mr_Confidence : float64;
  mr_UtilityScore : float64;
  mr_Status : string;
  mr_ExpiresAt : option Z;
  mr_Version : Z;
  mr_Hash : string;
  mr_ProvenanceHMAC : string;
  mr_CreatedAt : Z;
  mr_UpdatedAt : Z;
  mr_LastUsedAt : option Z;
  mr_SupersededBy : string;
}.

Definition with_status (status : string) (r : MemoryRecord) : MemoryRecord :=
  {| mr_MemoryID := mr_MemoryID r; mr_Type := mr_Type r; mr_Scope := mr_Scope r; mr_TenantID := mr_TenantID r;
     mr_Content := mr_Content r; mr_SourceRunIDs := mr_SourceRunIDs r; mr_EvidenceRefs := mr_EvidenceRefs r;
     mr_TrustLevel := mr_TrustLevel r; mr_Confidence := mr_Confidence r; mr_UtilityScore := mr_UtilityScore r;
     mr_Status := status; mr_ExpiresAt := mr_ExpiresAt r; mr_Version := mr_Version r; mr_Hash := mr_Hash r;
     mr_ProvenanceHMAC := mr_ProvenanceHMAC r; mr_CreatedAt := mr_CreatedAt r; mr_UpdatedAt := mr_UpdatedAt r;
     mr_LastUsedAt := mr_LastUsedAt r; mr_SupersededBy := mr_SupersededBy r |}.

(** ** Integrity *)

Definition contentHash (content : string) : string := sha256_hex content.

(** The key, the id, the hash and the references are written to the MAC one after
    another. *)
Definition provenance_message (memoryID hash : string) (sourceRunIDs evidenceRefs : list string) : string :=
  memoryID +:+ hash +:+ foldr String.append "" sourceRunIDs +:+ foldr String.append "" evidenceRefs.
Definition provenanceHMAC (key memoryID hash : string) (sourceRunIDs evidenceRefs : list string) : string :=
  hex_encode (hmac_sha256 (bytes_of_string key)
    (bytes_of_string (provenance_message memoryID hash sourceRunIDs evidenceRefs))).

Definition VerifyProvenance (key : string) (r : MemoryRecord) : bool :=
  if negb (String.eqb (mr_Hash r) (contentHash (mr_Content r))) then false
  else String.eqb (mr_ProvenanceHMAC r)
         (provenanceHMAC key (mr_MemoryID r) (mr_Hash r) (mr_SourceRunIDs r) (mr_EvidenceRefs r)).

(** ** Validation *)

Inductive invalid_record :=
| ContentRequired
| InvalidType (s : string)
| InvalidScope (s : string)
| StatusRequired
| InvalidStatus (s : string)
| InvalidTrustLevel (s : string)
| ConfidenceOutOfRange (f : float64)
| UtilityNegative (f : float64).

Definition validateMemoryRecord (r : MemoryRecord) : result invalid_record () :=
  if sempty (mr_Content r) then Err ContentRequired
  else if negb (oneOf (mr_Type r) MemoryTypes) then Err (InvalidType (mr_Type r))
  else if negb (oneOf (mr_Scope r) MemoryScopes) then Err (InvalidScope (mr_Scope r))
  else if sempty (mr_Status r) then Err StatusRequired
  else if negb (oneOf (mr_Status r) MemoryStatuses) then Err (InvalidStatus (mr_Status r))
  else if negb (sempty (mr_TrustLevel r)) && negb (oneOf (mr_TrustLevel r) TrustLevels)
  then Err (InvalidTrustLevel (mr_TrustLevel r))
  else if fltb (mr_Confidence r) f_zero || fgtb (mr_Confidence r) (f_of_Z 1)
  then Err (ConfidenceOutOfRange (mr_Confidence r))
  else if fltb (mr_UtilityScore r) f_zero then Err (UtilityNegative (mr_UtilityScore r))
  else Ok tt.

(** ** Decay *)

(** [time.Time.Sub] saturates; [Duration.Hours] adds whole hours and the rest. *)
Definition time_Sub (a b : Z) : Z := Z.max int64_min (Z.min int64_max (a - b)).
Definition hour_ns : Z := 3600000000000.
Definition Hours (d : Z) : float64 :=
  fadd (f_of_Z (Z.quot d hour_ns)) (fdiv (f_of_Z (Z.rem d hour_ns)) (f_of_Z hour_ns)).

Section decay.
(** [math.Pow]. *)
Context (math_pow : float64 → float64 → float64).

Definition DecayedUtility (utilityScore : float64) (since asOf : Z) (halfLifeDays : float64) : float64 :=
  if fleb halfLifeDays f_zero then utilityScore
  else
    let days := fdiv (Hours (time_Sub asOf since)) (f_of_Z 24) in
    if fleb days f_zero then utilityScore
    else fmul utilityScore (math_pow (f_const 1 2) (fdiv days halfLifeDays)).
End decay.

(** ** References as JSON *)

(** [json.Marshal] of a slice of strings, and reading one back. *)
Definition marshal_strings (l : list string) : json := JArray ((λ s, JString (to_valid_utf8 s)) <$> l).
Definition read_string (j : json) : option string :=
  match j with JString s => Some s | JNull => Some "" | _ => None end.
Definition unmarshal_strings (j : json) : option (list string) :=
  match j with
  | JNull => Some []
  | JArray l => mapM read_string l
  | _ => None
  end.

(** Postgres's input of the type uuid: the accepted spellings of an id all read back
    as its canonical one. *)
Class Uuids := {
  uuid_in : string → option string;
  uuid_canonical s c : uuid_in s = Some c → uuid_in c = Some c;
}.

(** What the manual says of a JSON array stored as jsonb: its elements, in order. *)
Class JsonbArrays `{Postgres} : Prop :=
  jsonb_array l b : to_jsonb (JArray l) = Some b →
    ∃ l', jsonb_out b = JArray l' ∧ Forall2 (λ v0 v, ∃ b0, to_jsonb v0 = Some b0 ∧ jsonb_out b0 = v) l l'.

Lemma strings_read_back `{PostgresLaws, !JsonbArrays} l b :
  to_jsonb (marshal_strings l) = Some b → unmarshal_strings (jsonb_out b) = Some (to_valid_utf8 <$> l).
Proof.
  intros (l' & -> & Hl)%jsonb_array. simpl. apply mapM_Some.
  revert l' Hl. induction l as [|s l IH]; intros l' Hl; simpl in *.
  - apply Forall2_nil_inv_l in Hl as ->. constructor.
  - apply Forall2_cons_inv_l in Hl as (v & l'' & (b0 & Hb & <-) & Hl & ->).
    constructor; [|by apply IH]. by rewrite (jsonb_string _ b0 Hb).
Qed.

(** ** The table *)

Section memory.
Context `{Postgres, Uuids}.
(** [math.Pow], and the key of the store. *)
Context (math_pow : float64 → float64 → float64) (hmacKey : string).

Record mrow := {
  m_type : string;
  m_scope : string;
  m_tenant : string;
  m_content : string;
  m_sources : jsonb;
  m_evidence : jsonb;
  m_trust : option string;
  m_confidence : float64;
  m_utility : float64;
  m_status : string;
  m_expires : option Z;
  m_version : Z;
  m_hash : string;
  m_hmac : string;
  m_created : Z;
  m_updated : Z;
  m_last_used : option Z;
  m_superseded : option string;
}.
Abbreviation mtable := (gmap string mrow).
Implicit Types (t : mtable) (k id : string) (row : mrow).

Definition nullableString (s : string) : option string := if sempty s then None else Some s.
Definition pg_time (ns : Z) : Z := (ns / 1000 * 1000)%Z.

(** The CHECK constraints of the table. *)
Definition checks (r : MemoryRecord) : bool :=
  oneOf (mr_Type r) MemoryTypes && oneOf (mr_Scope r) MemoryScopes && oneOf (mr_Status r) MemoryStatuses &&
  (sempty (mr_TrustLevel r) || oneOf (mr_TrustLevel r) TrustLevels) &&
  fgeb (mr_Confidence r) f_zero && fleb (mr_Confidence r) (f_of_Z 1).
Definition texts_ok (r : MemoryRecord) : bool :=
  forallb text_ok [mr_Type r; mr_Scope r; mr_TenantID r; mr_Content r; mr_TrustLevel r; mr_Status r; mr_Hash r;
                   mr_ProvenanceHMAC r].

Definition new_row (now : Z) (r : MemoryRecord) (sources evidence : jsonb) : mrow :=
  {| m_type := mr_Type r; m_scope := mr_Scope r; m_tenant := mr_TenantID r; m_content := mr_Content r;
     m_sources := sources; m_evidence := evidence; m_trust := nullableString (mr_TrustLevel r);
     m_confidence := mr_Confidence r; m_utility := mr_UtilityScore r; m_status := mr_Status r;
     m_expires := pg_time <$> mr_ExpiresAt r; m_version := mr_Version r; m_hash := mr_Hash r;
     m_hmac := mr_ProvenanceHMAC r; m_created := now; m_updated := now; m_last_used := None;
     m_superseded := None |}.

Definition sql_insert (now : Z) t (r : MemoryRecord) (sources evidence : json) : result refusal (mtable * ()) :=
  match uuid_in (mr_MemoryID r), to_jsonb sources, to_jsonb evidence with
  | Some k, Some s, Some e =>
      if texts_ok r && in_int32 (mr_Version r) && checks r then
        match t !! k with
        | Some _ => Err UniqueViolation
        | None => Ok (<[k := new_row now r s e]> t, tt)
        end
      else Err Refused
  | _, _, _ => Err Refused
  end.

Definition sql_select t id : result refusal (mtable * option (string * mrow)) :=
  match uuid_in id with
  | Some k => Ok (t, pair k <$> t !! k)
  | None => Err Refused
  end.

(** An UPDATE of the row with an id; one that matches no row is not an error. *)
Definition sql_update t id (f : mrow → mrow) : result refusal (mtable * ()) :=
  match uuid_in id with Some k => Ok (alter f k t, tt) | None => Err Refused end.

Definition row_with_status (now : Z) (status : string) (r : mrow) : mrow :=
  {| m_type := m_type r; m_scope := m_scope r; m_tenant := m_tenant r; m_content := m_content r;
     m_sources := m_sources r; m_evidence := m_evidence r; m_trust := m_trust r; m_confidence := m_confidence r;
     m_utility := m_utility r; m_status := status; m_expires := m_expires r; m_version := m_version r;
     m_hash := m_hash r; m_hmac := m_hmac r; m_created := m_created r; m_updated := now;
     m_last_used := m_last_used r; m_superseded := m_superseded r |}.
Definition row_with_usage (now : Z) (score : float64) (r : mrow) : mrow :=
  {| m_type := m_type r; m_scope := m_scope r; m_tenant := m_tenant r; m_content := m_content r;
     m_sources := m_sources r; m_evidence := m_evidence r; m_trust := m_trust r; m_confidence := m_confidence r;
     m_utility := score; m_status := m_status r; m_expires := m_expires r; m_version := m_version r;
     m_hash := m_hash r; m_hmac := m_hmac r; m_created := m_created r; m_updated := now;
     m_last_used := Some now; m_superseded := m_superseded r |}.
Definition row_superseded (by_ : string) (r : mrow) : mrow :=
  {| m_type := m_type r; m_scope := m_scope r; m_tenant := m_tenant r; m_content := m_content r;
     m_sources := m_sources r; m_evidence := m_evidence r; m_trust := m_trust r; m_confidence := m_confidence r;
     m_utility := m_utility r; m_status := m_status r; m_expires := m_expires r; m_version := m_version r;
     m_hash := m_hash r; m_hmac := m_hmac r; m_created := m_created r; m_updated := m_updated r;
     m_last_used := m_last_used r; m_superseded := Some by_ |}.

Definition sql_status (now : Z) t (target id : string) : result refusal (mtable * ()) :=
  if oneOf target MemoryStatuses then sql_update t id (row_with_status now target) else Err Refused.
Definition sql_usage (now : Z) t (score : float64) (id : string) : result refusal (mtable * ()) :=
  sql_update t id (row_with_usage now score).
(** superseded_by references the table itself. *)
Definition sql_superseded t (by_ id : string) : result refusal (mtable * ()) :=
  match uuid_in by_, uuid_in id with
  | Some j, Some k =>
      match t !! k, t !! j with
      | Some r, Some _ => Ok (<[k := row_superseded j r]> t, tt)
      | Some _, None => Err Refused
      | None, _ => Ok (t, tt)
      end
  | _, _ => Err Refused
  end.
(** [... WHERE memory_id = $2 AND status != $1], with $1 REVOKED. *)
Definition sql_revoke (now : Z) t (id : string) : result refusal (mtable * ()) :=
  sql_update t id (λ r, if String.eqb (m_status r) MemoryStatusRevoked then r
                        else row_with_status now MemoryStatusRevoked r).

(** The rows the governed read path shows at a clock reading. *)
Definition visible (now : Z) (scopes : list string) (tenant : string) (row : mrow) : bool :=
  String.eqb (m_status row) MemoryStatusActive && String.eqb (m_tenant row) tenant &&
  bool_decide (m_scope row ∈ scopes) &&
  match m_expires row with None => true | Some e => (now <? e)%Z end.
Definition listing (now : Z) t (scopes : list string) (tenant : string) (l : list (string * mrow)) : Prop :=
  l ≡ₚ map_to_list (filter (λ kv : string * mrow, visible now scopes tenant kv.2 = true) t) ∧
  StronglySorted (λ a b, (m_created b.2 ≤ m_created a.2)%Z) l.

(** ** Calls *)

Inductive mcall :=
| MNewID
| MInsert (r : MemoryRecord) (sources evidence : json)
| MSelect (id : string)
| MListActive (scopes : list string) (tenant : string)
| MSetStatus (target id : string)
| MUsage (score : float64) (id : string)
| MSuperseded (by_ id : string)
| MRevoke (id : string).
Definition mreply (c : mcall) : Type :=
  match c with
  | MNewID => string
  | MSelect _ => result dberr (option (string * mrow))
  | MListActive _ _ => result dberr (list (string * mrow))
  | _ => result dberr ()
  end.
Abbreviation MM := (prog mreply).

(** [uuid.NewString] makes a fresh canonical id. *)
Definition msem t (c : mcall) : mreply c → mtable → Prop :=
  match c with
  | MNewID => λ id t', t' = t ∧ uuid_in id = Some id
  | MInsert r s e => λ re t', ∃ now, stmt t (sql_insert now t r s e) re t'
  | MSelect id => stmt t (sql_select t id)
  | MListActive scopes tenant => λ re t', t' = t ∧
      ((∃ e, re = Err e) ∨ ∃ now l, listing now t scopes tenant l ∧ re = Ok l)
  | MSetStatus target id => λ re t', ∃ now, stmt t (sql_status now t target id) re t'
  | MUsage score id => λ re t', ∃ now, stmt t (sql_usage now t score id) re t'
  | MSuperseded by_ id => stmt t (sql_superseded t by_ id)
  | MRevoke id => λ re t', ∃ now, stmt t (sql_revoke now t id) re t'
  end.

(** ** The operations *)

Inductive MemoryError :=
| ErrInvalidMemoryRecord (why : invalid_record)
| ErrDirectActiveWriteRejected (status : string)
| MemoryExists (id : string)
| MemoryNotFound
| ErrInvalidMemoryTransition (id current target : string)
| UsageNotActive (id current : string)
| ErrValidationGateBlocked (id reason : string)
| ErrPromotionGateBlocked (id reason : string)
| BadReferences
| MemoryFailed (op : string) (e : dberr).

Definition scanMemoryRow (kv : string * mrow) : result MemoryError MemoryRecord :=
  let '(k, row) := kv in
  match unmarshal_strings (jsonb_out (m_sources row)), unmarshal_strings (jsonb_out (m_evidence row)) with
  | Some sources, Some evidence =>
      Ok {| mr_MemoryID := k; mr_Type := m_type row; mr_Scope := m_scope row; mr_TenantID := m_tenant row;
            mr_Content := m_content row; mr_SourceRunIDs := sources; mr_EvidenceRefs := evidence;
            mr_TrustLevel := default "" (m_trust row); mr_Confidence := m_confidence row;
            mr_UtilityScore := m_utility row; mr_Status := m_status row; mr_ExpiresAt := m_expires row;
            mr_Version := m_version row; mr_Hash := m_hash row; mr_ProvenanceHMAC := m_hmac row;
            mr_CreatedAt := m_created row; mr_UpdatedAt := m_updated row; mr_LastUsedAt := m_last_used row;
            mr_SupersededBy := default "" (m_superseded row) |}
  | _, _ => Err BadReferences
  end.

Definition Get (memoryID : string) : MM (result MemoryError MemoryRecord) :=
  r ← ask (MSelect memoryID);
  mret (match r with
        | Err e => Err (MemoryFailed "scan memory record" e)
        | Ok None => Err MemoryNotFound
        | Ok (Some kv) => scanMemoryRow kv
        end).

(** The record a creation writes, under the id it is given. *)
Definition sealed (id : string) (r : MemoryRecord) : MemoryRecord :=
  let hash := contentHash (mr_Content r) in
  {| mr_MemoryID := id; mr_Type := mr_Type r; mr_Scope := mr_Scope r; mr_TenantID := mr_TenantID r;
     mr_Content := mr_Content r; mr_SourceRunIDs := mr_SourceRunIDs r; mr_EvidenceRefs := mr_EvidenceRefs r;
     mr_TrustLevel := mr_TrustLevel r; mr_Confidence := mr_Confidence r; mr_UtilityScore := mr_UtilityScore r;
     mr_Status := mr_Status r; mr_ExpiresAt := mr_ExpiresAt r;
     mr_Version := if (mr_Version r =? 0)%Z then 1%Z else mr_Version r; mr_Hash := hash;
     mr_ProvenanceHMAC := provenanceHMAC hmacKey id hash (mr_SourceRunIDs r) (mr_EvidenceRefs r);
     mr_CreatedAt := mr_CreatedAt r; mr_UpdatedAt := mr_UpdatedAt r; mr_LastUsedAt := mr_LastUsedAt r;
     mr_SupersededBy := mr_SupersededBy r |}.

Definition create_as (id : string) (r : MemoryRecord) : MM (result MemoryError MemoryRecord) :=
  match validateMemoryRecord r with
  | Err why => mret (Err (ErrInvalidMemoryRecord why))
  | Ok _ =>
      if negb (String.eqb (mr_Status r) MemoryStatusCandidate) && negb (String.eqb (mr_Status r) MemoryStatusQuarantined)
      then mret (Err (ErrDirectActiveWriteRejected (mr_Status r)))
      else
        u ← ask (MInsert (sealed id r) (marshal_strings (mr_SourceRunIDs r)) (marshal_strings (mr_EvidenceRefs r)));
        match u : result dberr () with
        | Err (Some UniqueViolation) => mret (Err (MemoryExists id))
        | Err e => mret (Err (MemoryFailed "create memory record" e))
        | Ok _ => Get id
        end
  end.
Definition Create (r : MemoryRecord) : MM (result MemoryError MemoryRecord) :=
  if sempty (mr_MemoryID r) then id ← ask MNewID; create_as id r
  else create_as (mr_MemoryID r) r.

(** The rows are scanned in order; the first that cannot be read ends the listing. *)
Definition ListActive (scopes : list string) (tenant : string) : MM (result MemoryError (list MemoryRecord)) :=
  if bool_decide (scopes = []) then mret (Ok [])
  else
    r ← ask (MListActive scopes tenant);
    mret (match r : result dberr (list (string * mrow)) with
          | Err e => Err (MemoryFailed "list active memory records" e)
          | Ok l => fold_res (λ out kv, rec ← scanMemoryRow kv; Ok (out ++ [rec])%list) [] l
          end).

(** *** The pipeline *)

Definition memoryValidTransitions : gmap string (list string) :=
  list_to_map [(MemoryStatusCandidate, [MemoryStatusQuarantined; MemoryStatusRevoked]);
               (MemoryStatusQuarantined, [MemoryStatusValidated; MemoryStatusRevoked]);
               (MemoryStatusValidated, [MemoryStatusActive; MemoryStatusRevoked])].
Definition memoryPostActiveTransitions : gmap string (list string) :=
  list_to_map [(MemoryStatusActive, [MemoryStatusSuperseded; MemoryStatusRevoked])].
Definition may_move (transitions : gmap string (list string)) (status target : string) : bool :=
  bool_decide (target ∈ default [] (transitions !! status)).

Definition transitionStatus (memoryID target : string) (transitions : gmap string (list string))
  : MM (result MemoryError MemoryRecord) :=
  got ← Get memoryID;
  match got with
  | Err e => mret (Err e)
  | Ok current =>
      if negb (may_move transitions (mr_Status current) target)
      then mret (Err (ErrInvalidMemoryTransition memoryID (mr_Status current) target))
      else
        u ← ask (MSetStatus target memoryID);
        match u : result dberr () with
        | Err e => mret (Err (MemoryFailed "transition memory status" e))
        | Ok _ => Get memoryID
        end
  end.

Record GateDecision := { gd_Allowed : bool; gd_Reason : string }.

Definition WriteCandidate (r : MemoryRecord) : MM (result MemoryError MemoryRecord) :=
  Create (with_status MemoryStatusCandidate r).
Definition Quarantine (memoryID : string) : MM (result MemoryError MemoryRecord) :=
  transitionStatus memoryID MemoryStatusQuarantined memoryValidTransitions.
Definition Validate (memoryID : string) (d : GateDecision) : MM (result MemoryError MemoryRecord) :=
  if negb (gd_Allowed d)
  then mret (Err (ErrValidationGateBlocked memoryID
         (if sempty (gd_Reason d) then "no passing validation decision was provided" else gd_Reason d)))
  else transitionStatus memoryID MemoryStatusValidated memoryValidTransitions.
Definition Promote (memoryID : string) (d : GateDecision) : MM (result MemoryError MemoryRecord) :=
  if negb (gd_Allowed d)
  then mret (Err (ErrPromotionGateBlocked memoryID
         (if sempty (gd_Reason d) then "no passing promotion decision was provided" else gd_Reason d)))
  else transitionStatus memoryID MemoryStatusActive memoryValidTransitions.
Definition Reject (memoryID : string) : MM (result MemoryError MemoryRecord) :=
  transitionStatus memoryID MemoryStatusRevoked memoryValidTransitions.

(** *** Forgetting *)

Definition usageSuccessDelta : float64 := f_of_Z 1.
Definition usageFailureDelta : float64 := f_const (-1) 2.

Definition used (score : float64) (success : bool) : float64 :=
  let newScore := fadd score (if success then usageSuccessDelta else usageFailureDelta) in
  if fltb newScore f_zero then f_zero else newScore.

Definition RecordUsage (memoryID : string) (success : bool) : MM (result MemoryError MemoryRecord) :=
  got ← Get memoryID;
  match got with
  | Err e => mret (Err e)
  | Ok current =>
      if negb (String.eqb (mr_Status current) MemoryStatusActive)
      then mret (Err (UsageNotActive memoryID (mr_Status current)))
      else
        u ← ask (MUsage (used (mr_UtilityScore current) success) memoryID);
        match u : result dberr () with
        | Err e => mret (Err (MemoryFailed "record memory usage" e))
        | Ok _ => Get memoryID
        end
  end.

Definition Supersede (memoryID supersededByID : string) : MM (result MemoryError MemoryRecord) :=
  moved ← transitionStatus memoryID MemoryStatusSuperseded memoryPostActiveTransitions;
  match moved with
  | Err e => mret (Err e)
  | Ok _ =>
      u ← ask (MSuperseded supersededByID memoryID);
      match u : result dberr () with
      | Err e => mret (Err (MemoryFailed "set superseded_by" e))
      | Ok _ => Get memoryID
      end
  end.
Definition Revoke (memoryID : string) : MM (result MemoryError MemoryRecord) :=
  transitionStatus memoryID MemoryStatusRevoked memoryPostActiveTransitions.

(** Whether a record's utility has decayed below the threshold. *)
Definition forgotten (halfLifeDays threshold : float64) (asOf : Z) (r : MemoryRecord) : bool :=
  let since := default (mr_CreatedAt r) (mr_LastUsedAt r) in
  negb (fgeb (DecayedUtility math_pow (mr_UtilityScore r) since asOf halfLifeDays) threshold).

Fixpoint prune (halfLifeDays threshold : float64) (asOf : Z) (pruned : list string) (active : list MemoryRecord)
  : MM (result MemoryError (list string)) :=
  match active with
  | [] => mret (Ok pruned)
  | r :: active =>
      if negb (forgotten halfLifeDays threshold asOf r) then prune halfLifeDays threshold asOf pruned active
      else
        moved ← transitionStatus (mr_MemoryID r) MemoryStatusRevoked memoryPostActiveTransitions;
        match moved with
        | Err e => mret (Err e)
        | Ok _ => prune halfLifeDays threshold asOf (pruned ++ [mr_MemoryID r])%list active
        end
  end.
Definition Prune (scopes : list string) (tenant : string) (halfLifeDays threshold : float64) (asOf : Z)
  : MM (result MemoryError (list string)) :=
  listed ← ListActive scopes tenant;
  match listed with
  | Err e => mret (Err e)
  | Ok active => prune halfLifeDays threshold asOf [] active
  end.

(** *** Repair *)

Definition emergencyRevoke (memoryID : string) : MM (result MemoryError MemoryRecord) :=
  u ← ask (MRevoke memoryID);
  match u : result dberr () with
  | Err e => mret (Err (MemoryFailed "emergency revoke" e))
  | Ok _ => Get memoryID
  end.

Definition RepairIfTampered (memoryID : string) : MM (result MemoryError (bool * MemoryRecord)) :=
  got ← Get memoryID;
  match got with
  | Err e => mret (Err e)
  | Ok current =>
      if VerifyProvenance hmacKey current then mret (Ok (false, current))
      else
        repaired ← emergencyRevoke memoryID;
        mret (match repaired with Err e => Err e | Ok r => Ok (true, r) end)
  end.

(** ** Every operation *)

Inductive mop :=
| OpCreate (r : MemoryRecord)
| OpWriteCandidate (r : MemoryRecord)
| OpGet (id : string)
| OpList (scopes : list string) (tenant : string)
| OpQuarantine (id : string)
| OpValidate (id : string) (d : GateDecision)
| OpPromote (id : string) (d : GateDecision)
| OpReject (id : string)
| OpUsage (id : string) (success : bool)
| OpSupersede (id by_ : string)
| OpRevoke (id : string)
| OpPrune (scopes : list string) (tenant : string) (halfLifeDays threshold : float64) (asOf : Z)
| OpRepair (id : string).

Inductive mres :=
| RRecord (r : result MemoryError MemoryRecord)
| RRecords (r : result MemoryError (list MemoryRecord))
| RPruned (r : result MemoryError (list string))
| RRepaired (r : result MemoryError (bool * MemoryRecord)).

Definition record_of (m : MM (result MemoryError MemoryRecord)) : MM mres := r ← m; mret (RRecord r).
Definition program (op : mop) : MM mres :=
  match op with
  | OpCreate r => record_of (Create r)
  | OpWriteCandidate r => record_of (WriteCandidate r)
  | OpGet id => record_of (Get id)
  | OpList scopes tenant => r ← ListActive scopes tenant; mret (RRecords r)
  | OpQuarantine id => record_of (Quarantine id)
  | OpValidate id d => record_of (Validate id d)
  | OpPromote id d => record_of (Promote id d)
  | OpReject id => record_of (Reject id)
  | OpUsage id success => record_of (RecordUsage id success)
  | OpSupersede id by_ => record_of (Supersede id by_)
  | OpRevoke id => record_of (Revoke id)
  | OpPrune scopes tenant hl th asOf => r ← Prune scopes tenant hl th asOf; mret (RPruned r)
  | OpRepair id => r ← RepairIfTampered id; mret (RRepaired r)
  end.

(** ** What holds whatever interleaves *)

(** The table, and a ghost log of the status updates sent: the operation that sent
    one, the record and the status. *)
Abbreviation wrote := (mop * string * string)%type.
Abbreviation mworld := (mtable * list wrote)%type.
Implicit Types (op : mop) (w : mworld) (l : list wrote).

Definition writes op (c : mcall) : list wrote :=
  match c with
  | MSetStatus target id => match uuid_in id with Some k => [(op, k, target)] | None => [] end
  | _ => []
  end.
Definition wsem op w (c : mcall) (r : mreply c) w' : Prop :=
  msem w.1 c r w'.1 ∧ w'.2 = (w.2 ++ writes op c)%list.
Abbreviation msteps := (pool_step wsem program).

(** The log shows a validation that was allowed, and a promotion that was allowed
    after one. *)
Definition gate_validated l k : Prop :=
  ∃ id d, (OpValidate id d, k, MemoryStatusValidated) ∈ l ∧ gd_Allowed d = true.
Definition gate_promoted l k : Prop :=
  ∃ l1 l2 id d, l = (l1 ++ (OpPromote id d, k, MemoryStatusActive) :: l2)%list ∧ gd_Allowed d = true ∧
    gate_validated l1 k.
(** What a status needs of the log. *)
Definition supports l k (s : string) : Prop :=
  (s = MemoryStatusValidated → gate_validated l k) ∧
  (s = MemoryStatusActive ∨ s = MemoryStatusSuperseded → gate_promoted l k).

(** What was sealed at creation and never rewritten; and a score that is not negative. *)
Definition sealed_row k row : Prop :=
  m_hash row = contentHash (m_content row) ∧
  (∃ id sources evidence, uuid_in id = Some k ∧
     m_hmac row = provenanceHMAC hmacKey id (m_hash row) sources evidence ∧
     to_jsonb (marshal_strings sources) = Some (m_sources row) ∧
     to_jsonb (marshal_strings evidence) = Some (m_evidence row)) ∧
  fltb (m_utility row) f_zero = false.

Definition good w : Prop := ∀ k row, w.1 !! k = Some row → supports w.2 k (m_status row) ∧ sealed_row k row.
Definition later w w' : Prop := w.2 `prefix_of` w'.2.
#[local] Instance later_preorder : PreOrder later.
Proof. split; [intros w; unfold later; done|intros w1 w2 w3; unfold later; apply transitivity]. Qed.

Lemma gate_validated_mono l l' k : gate_validated l k → gate_validated (l ++ l')%list k.
Proof. intros (id & d & Hin & Hd). exists id, d. split; [set_solver|done]. Qed.
Lemma gate_promoted_mono l l' k : gate_promoted l k → gate_promoted (l ++ l')%list k.
Proof.
  intros (l1 & l2 & id & d & -> & Hd & Hv). exists l1, (l2 ++ l')%list, id, d.
  split; [by rewrite <-app_assoc|done].
Qed.
Lemma supports_mono l l' k s : l `prefix_of` l' → supports l k s → supports l' k s.
Proof.
  intros [m ->] [Hv Hp]. split; intros Hs; [by apply gate_validated_mono, Hv|by apply gate_promoted_mono, Hp].
Qed.
Lemma supports_early l k s :
  s ≠ MemoryStatusValidated → s ≠ MemoryStatusActive → s ≠ MemoryStatusSuperseded → supports l k s.
Proof. intros ???. split; [done|]. by intros [?|?]. Qed.

(** What a call must satisfy to keep the invariant. *)
Definition call_ok op w (c : mcall) : Prop :=
  match c with
  | MInsert r s e =>
      (mr_Status r = MemoryStatusCandidate ∨ mr_Status r = MemoryStatusQuarantined) ∧
      mr_Hash r = contentHash (mr_Content r) ∧
      mr_ProvenanceHMAC r = provenanceHMAC hmacKey (mr_MemoryID r) (mr_Hash r) (mr_SourceRunIDs r) (mr_EvidenceRefs r) ∧
      s = marshal_strings (mr_SourceRunIDs r) ∧ e = marshal_strings (mr_EvidenceRefs r) ∧
      fltb (mr_UtilityScore r) f_zero = false
  | MSetStatus target id => ∀ k, uuid_in id = Some k → supports (w.2 ++ [(op, k, target)])%list k target
  | MUsage score _ => fltb score f_zero = false
  | _ => True
  end.

(** An update of one row that keeps what was sealed. *)
Lemma good_update w w' id (f : mrow → mrow) :
  good w → later w w' → (w'.1 = w.1 ∨ ∃ k, uuid_in id = Some k ∧ w'.1 = alter f k w.1) →
  (∀ k row, uuid_in id = Some k → w.1 !! k = Some row → supports w.2 k (m_status row) → sealed_row k row →
     supports w'.2 k (m_status (f row)) ∧ sealed_row k (f row)) →
  good w'.
Proof.
  intros Hg Hl Ht Hf k row Hk.
  assert (Hold : w.1 !! k = Some row → supports w'.2 k (m_status row) ∧ sealed_row k row).
  { intros Hr. destruct (Hg _ _ Hr) as [Hs Hse]. split; [by eapply supports_mono|done]. }
  destruct Ht as [Ht|(j & Hj & Ht)]; rewrite Ht in Hk; [auto|].
  destruct (decide (j = k)) as [->|Hne].
  - rewrite lookup_alter_eq in Hk. destruct (w.1 !! k) as [r|] eqn:Hr; [|done]. injection Hk as <-.
    destruct (Hg _ _ Hr). eauto.
  - rewrite lookup_alter_ne in Hk by done. auto.
Qed.

Lemma update_cases (t t' : mtable) id f (r : result dberr ()) :
  stmt t (sql_update t id f) r t' → t' = t ∨ ∃ k, uuid_in id = Some k ∧ t' = alter f k t.
Proof.
  intros [->|[a Ha]]%stmt_cases; [by left|right]. unfold sql_update in Ha.
  destruct (uuid_in id) as [k|]; [|done]. injection Ha as <- _. eauto.
Qed.

Lemma call_keeps op w c r w' : wsem op w c r w' → good w → call_ok op w c → good w' ∧ later w w'.
Proof.
  intros [Hs Hw'] Hg Hok. assert (Hl : later w w') by (exists (writes op c); done). split; [|done].
  assert (Hsame : w'.1 = w.1 → good w').
  { intros He k row Hk. rewrite He in Hk. destruct (Hg _ _ Hk). split; [by eapply supports_mono|done]. }
  destruct c as [|rec s e|id|scopes tenant|target id|score id|by_ id|id]; cbn [msem] in Hs.
  - by apply Hsame; destruct Hs.
  - destruct Hs as [now Hs]. apply stmt_cases in Hs as [?|[a Ha]]; [auto|].
    destruct Hok as (Hst & Hh & Hp & -> & -> & Hu). unfold sql_insert in Ha.
    destruct (uuid_in (mr_MemoryID rec)) as [j|] eqn:Hj; [|done].
    destruct (to_jsonb (marshal_strings (mr_SourceRunIDs rec))) as [sj|] eqn:Hsj; [|done].
    destruct (to_jsonb (marshal_strings (mr_EvidenceRefs rec))) as [ej|] eqn:Hej; [|done].
    destruct (_ && checks rec); [|done]. destruct (w.1 !! j) eqn:Hnone; [done|]. injection Ha as Ht _.
    intros k row Hk. rewrite <-Ht in Hk. apply lookup_insert_Some in Hk as [[<- <-]|[_ Hk]].
    + split; [destruct Hst as [Hst|Hst]; simpl; rewrite Hst; by apply supports_early|].
      split; [done|]. split; [|done]. exists (mr_MemoryID rec), (mr_SourceRunIDs rec), (mr_EvidenceRefs rec). done.
    + destruct (Hg _ _ Hk). split; [by eapply supports_mono|done].
  - apply Hsame. apply stmt_cases in Hs as [?|[a Ha]]; [done|]. unfold sql_select in Ha. by repeat case_match; simplify_eq.
  - by apply Hsame; destruct Hs.
  - destruct Hs as [now Hs]. unfold sql_status in Hs. destruct (oneOf target MemoryStatuses).
    + apply update_cases in Hs. eapply (good_update _ _ id _ Hg Hl Hs). intros k row Hid _ _ Hse.
      split; [|exact Hse]. cbn [m_status row_with_status]. rewrite Hw'. cbn [writes]. rewrite Hid. by apply Hok.
    + apply Hsame. by apply stmt_cases in Hs as [?|[a ?]].
  - destruct Hs as [now Hs]. apply update_cases in Hs. eapply (good_update _ _ id _ Hg Hl Hs).
    intros k row Hid _ Hsu (Hh & Hp & _). split; [by eapply supports_mono|]. by split; [|split].
  - apply stmt_cases in Hs as [?|[a Ha]]; [auto|]. unfold sql_superseded in Ha.
    destruct (uuid_in by_) as [j|]; [|done]. destruct (uuid_in id) as [k|]; [|done].
    destruct (w.1 !! k) as [r0|] eqn:Hk; [|injection Ha as Ht _; by apply Hsame].
    destruct (w.1 !! j); [|done]. injection Ha as Ht _. intros k' row Hk'. rewrite <-Ht in Hk'.
    apply lookup_insert_Some in Hk' as [[<- <-]|[_ Hk']].
    + destruct (Hg _ _ Hk) as [Hsu Hse]. split; [by eapply supports_mono|exact Hse].
    + destruct (Hg _ _ Hk'). split; [by eapply supports_mono|done].
  - destruct Hs as [now Hs]. apply update_cases in Hs. eapply (good_update _ _ id _ Hg Hl Hs).
    intros k row Hid _ Hsu Hse. destruct (String.eqb_spec (m_status row) MemoryStatusRevoked) as [Hr|_].
    + split; [by eapply supports_mono|done].
    + split; [by apply supports_early|exact Hse].
Qed.

(** *** Every program keeps it *)

Abbreviation msafe op := (safe wsem good later op).

Lemma safe_ask {B} op (Q : B → mworld → Prop) c (k : mreply c → MM B) w :
  (∀ w1, later w w1 → call_ok op w1 c) →
  (∀ w1 r w2, good w1 → good w2 → later w w2 → wsem op w1 c r w2 → msafe op Q (k r) w2) →
  msafe op Q (Vis c k) w.
Proof.
  intros Hok Hk w1 r w2 Hl Hg Hs.
  destruct (call_keeps op w1 c r w2 Hs Hg (Hok _ Hl)) as [Hg2 Hl2].
  split; [done|]. split; [done|]. apply (Hk w1); [done|done|by etrans|done].
Qed.

(** What a read says of the record it returns, then and later. *)
Definition read_ok (id : string) (res : result MemoryError MemoryRecord) w : Prop :=
  ∀ rec, res = Ok rec → uuid_in id = Some (mr_MemoryID rec) ∧
    supports w.2 (mr_MemoryID rec) (mr_Status rec) ∧ fltb (mr_UtilityScore rec) f_zero = false.

Lemma scan_row k row rec :
  scanMemoryRow (k, row) = Ok rec →
  mr_MemoryID rec = k ∧ mr_Status rec = m_status row ∧ mr_UtilityScore rec = m_utility row.
Proof. unfold scanMemoryRow. repeat case_match; intros ?; by simplify_eq. Qed.

Lemma Get_safe op id w : msafe op (read_ok id) (Get id) w.
Proof.
  apply safe_ask; [done|]. intros w1 r w2 _ Hg _ [Hs _]. simpl in Hs. intros rec Hrec.
  destruct r as [[[k row]|]|e]; try done. apply stmt_ok in Hs. unfold sql_select in Hs.
  destruct (uuid_in id) as [j|] eqn:Hid; [|done]. injection Hs as Ht Hrow.
  destruct (w1.1 !! j) as [row'|] eqn:Hj; [|done]. injection Hrow as -> ->.
  rewrite Ht in Hj. destruct (Hg _ _ Hj) as [Hsu (_ & _ & Hu)].
  destruct (scan_row _ _ _ Hrec) as (-> & -> & ->). done.
Qed.

Lemma Get_safe_any {B} op id w (f : result MemoryError MemoryRecord → B) :
  msafe op (λ _ _, True) (r ← Get id; mret (f r)) w.
Proof. eapply safe_bind; [apply _|apply Get_safe|done]. Qed.

Lemma Get_safe_done op id w : msafe op (λ _ _, True) (Get id) w.
Proof. by apply safe_ask. Qed.

Lemma transition_safe op id target transitions w :
  (∀ l k s, uuid_in id = Some k → may_move transitions s target = true → supports l k s →
     supports (l ++ [(op, k, target)])%list k target) →
  msafe op (λ _ _, True) (transitionStatus id target transitions) w.
Proof.
  intros Hsu. eapply safe_bind; [apply _|apply Get_safe|]. intros got w1 _ Hgot.
  destruct got as [rec|e]; [|done]. destruct (Hgot rec eq_refl) as (Hid & Hst & _).
  destruct (may_move _ _ _) eqn:Hmove; [|done]. cbn [negb].
  apply safe_ask.
  - intros w2 Hl k Hk. rewrite Hid in Hk. injection Hk as <-.
    eapply Hsu; [done|exact Hmove|by eapply supports_mono].
  - intros w2 u w3 _ _ _ _. destruct u; [apply Get_safe_done|done].
Qed.

Lemma may_move_listed (ts : list (string * list string)) s target :
  may_move (list_to_map ts) s target = true → ∃ targets, (s, targets) ∈ ts ∧ target ∈ targets.
Proof.
  unfold may_move. intros Hin%bool_decide_eq_true_1.
  destruct ((list_to_map ts : gmap string (list string)) !! s) as [targets|] eqn:Hl; simpl in Hin.
  - exists targets. split; [by apply elem_of_list_to_map_2|done].
  - by apply not_elem_of_nil in Hin.
Qed.

Lemma may_move_valid s target : may_move memoryValidTransitions s target = true →
  (s = MemoryStatusCandidate ∧ target = MemoryStatusQuarantined) ∨
  (s = MemoryStatusQuarantined ∧ target = MemoryStatusValidated) ∨
  (s = MemoryStatusValidated ∧ target = MemoryStatusActive) ∨ target = MemoryStatusRevoked.
Proof.
  intros (l & Hs & Ht)%may_move_listed. rewrite !elem_of_cons in Hs.
  destruct Hs as [[= -> ->]|[[= -> ->]|[[= -> ->]|Hs%not_elem_of_nil]]]; [..|done];
    rewrite !elem_of_cons, elem_of_nil in Ht; naive_solver.
Qed.

Lemma may_move_active s target : may_move memoryPostActiveTransitions s target = true →
  s = MemoryStatusActive ∧ (target = MemoryStatusSuperseded ∨ target = MemoryStatusRevoked).
Proof.
  intros (l & Hs & Ht)%may_move_listed. rewrite !elem_of_cons in Hs.
  destruct Hs as [[= -> ->]|Hs%not_elem_of_nil]; [|done]. rewrite !elem_of_cons, elem_of_nil in Ht. naive_solver.
Qed.

Lemma supersede_supports op l k s :
  may_move memoryPostActiveTransitions s MemoryStatusSuperseded = true → supports l k s →
  supports (l ++ [(op, k, MemoryStatusSuperseded)])%list k MemoryStatusSuperseded.
Proof.
  intros [-> _]%may_move_active [_ Hp]. split; [done|]. intros _. apply gate_promoted_mono, Hp. by left.
Qed.

Lemma revoke_safe op id w : msafe op (λ _ _, True) (transitionStatus id MemoryStatusRevoked memoryPostActiveTransitions) w.
Proof. apply transition_safe. intros. by apply supports_early. Qed.

Lemma used_not_negative score success : fltb (used score success) f_zero = false.
Proof.
  unfold used. destruct success;
    (match goal with |- fltb (if ?b then _ else _) _ = _ => destruct b eqn:Hb end; [apply fltb_irrefl|done]).
Qed.

Lemma create_as_safe op id r w : msafe op (λ _ _, True) (create_as id r) w.
Proof.
  unfold create_as. destruct (validateMemoryRecord r) as [[]|why] eqn:Hv; [|done].
  destruct (String.eqb_spec (mr_Status r) MemoryStatusCandidate) as [Hc|Hc];
    destruct (String.eqb_spec (mr_Status r) MemoryStatusQuarantined) as [Hq|Hq]; try done; cbn [andb negb].
  all: apply safe_ask; [|intros w1 u w2 _ _ _ _; destruct u as [[]|[[]|]]; try done; apply Get_safe_done].
  all: intros w1 _; cbn [call_ok]; split; [by auto|]; split; [done|]; split; [done|]; split; [done|]; split; [done|].
  all: unfold validateMemoryRecord in Hv; cbn [mr_UtilityScore sealed];
    destruct (fltb (mr_UtilityScore r) f_zero); [by repeat case_match|done].
Qed.

Lemma Create_safe op r w : msafe op (λ _ _, True) (Create r) w.
Proof.
  unfold Create. destruct (sempty (mr_MemoryID r)); [|apply create_as_safe].
  apply safe_ask; [done|]. intros w1 id w2 _ _ _ _. apply create_as_safe.
Qed.

Lemma prune_safe op hl th asOf pruned active w : msafe op (λ _ _, True) (prune hl th asOf pruned active) w.
Proof.
  revert pruned w. induction active as [|r active IH]; intros pruned w; cbn [prune]; [done|].
  destruct (negb _); [apply IH|]. eapply safe_bind; [apply _|apply revoke_safe|].
  intros [?|?] w' _ _; [apply IH|done].
Qed.

Lemma ListActive_safe op scopes tenant w : msafe op (λ _ _, True) (ListActive scopes tenant) w.
Proof. unfold ListActive. case_bool_decide; [done|]. by apply safe_ask. Qed.

Lemma program_safe op w : msafe op (λ _ _, True) (program op) w.
Proof.
  assert (Hrec : ∀ m, msafe op (λ _ _, True) m w → msafe op (λ _ _, True) (record_of m) w).
  { intros m Hm. eapply safe_bind; [apply _|exact Hm|done]. }
  destruct op; cbn [program].
  - apply Hrec, Create_safe.
  - apply Hrec, Create_safe.
  - apply Get_safe_any.
  - eapply safe_bind; [apply _|apply ListActive_safe|done].
  - apply Hrec, transition_safe. intros. by apply supports_early.
  - apply Hrec. unfold Validate. destruct (gd_Allowed d) eqn:Hd; [|done]. apply transition_safe.
    intros l k s _ _ _. split; [intros _|by intros [?|?]]. exists id, d. split; [set_solver|done].
  - apply Hrec. unfold Promote. destruct (gd_Allowed d) eqn:Hd; [|done]. apply transition_safe.
    intros l k s _ Hm [Hv _]. split; [done|]. intros _. exists l, [], id, d. split; [done|]. split; [done|].
    apply Hv. apply may_move_valid in Hm. naive_solver.
  - apply Hrec, transition_safe. intros. by apply supports_early.
  - apply Hrec. unfold RecordUsage. eapply safe_bind; [apply _|apply Get_safe|].
    intros [rec|e] w' _ _; [|done]. destruct (negb _); [done|].
    apply safe_ask; [intros; apply used_not_negative|]. intros w1 u w2 _ _ _ _.
    destruct u; [apply Get_safe_done|done].
  - apply Hrec. unfold Supersede. eapply safe_bind; [apply _|apply transition_safe; intros; by eapply supersede_supports|].
    intros [rec|e] w' _ _; [|done]. apply safe_ask; [done|]. intros w1 u w2 _ _ _ _.
    destruct u; [apply Get_safe_done|done].
  - apply Hrec, revoke_safe.
  - apply safe_bind with (Q := λ _ _, True); [apply _| |done]. unfold Prune. eapply safe_bind; [apply _|apply ListActive_safe|].
    intros [active|e] w' _ _; [apply prune_safe|done].
  - apply safe_bind with (Q := λ _ _, True); [apply _| |done]. unfold RepairIfTampered. eapply safe_bind; [apply _|apply Get_safe|].
    intros [rec|e] w' _ _; [|done]. destruct (VerifyProvenance hmacKey rec); [done|].
    apply safe_bind with (Q := λ _ _, True); [apply _| |done]. apply safe_ask; [done|]. intros w1 u w2 _ _ _ _.
    destruct u; [apply Get_safe_done|done].
Qed.

Lemma reachable_good s ps : rtc msteps ((∅, []), ∅) (s, ps) → good s.
Proof.
  intros Hs. destruct (pool_safe wsem program good later ((∅, []), ∅) (s, ps)) as [Hg _]; [..|done].
  - apply program_safe.
  - done.
  - by intros k row.
  - by intros i t m.
Qed.

(** C12. However operations interleave, die or lose their connection, a record that is
    ACTIVE, or was before it was superseded, got there through both gates: a
    promotion whose decision allowed it was sent, and before it a validation whose
    decision allowed it. Nothing else makes a memory active. *)
Theorem active_memory_was_vetted w ps k row :
  rtc msteps ((∅, []), ∅) (w, ps) → w.1 !! k = Some row →
  (m_status row = MemoryStatusActive ∨ m_status row = MemoryStatusSuperseded → gate_promoted w.2 k) ∧
  (m_status row = MemoryStatusValidated → gate_validated w.2 k).
Proof. intros Hg%reachable_good Hr. destruct (Hg _ _ Hr) as [[Hv Hp] _]. by split. Qed.

(** ** Provenance *)

Lemma foldr_app_bytes (l : list string) s : foldr String.append s l = foldr String.append "" l +:+ s.
Proof. induction l as [|a l IH]; [done|]. cbn [foldr]. by rewrite IH, str_app_assoc. Qed.

Lemma provenance_message_refs id hash src ev :
  provenance_message id hash src ev = id +:+ hash +:+ foldr String.append "" (src ++ ev).
Proof. unfold provenance_message. by rewrite foldr_app, (foldr_app_bytes src (foldr String.append "" ev)). Qed.

Lemma provenance_same_id key id hash hash' src ev src' ev' :
  String.length hash = String.length hash' →
  provenanceHMAC key id hash src ev = provenanceHMAC key id hash' src' ev' →
  (hash = hash' ∧ foldr String.append "" (src ++ ev) = foldr String.append "" (src' ++ ev')) ∨ collision_exists.
Proof.
  intros Hlen He. apply hmac_eq in He as [He%bytes_of_string_inj|]; [left|by right].
  rewrite !provenance_message_refs in He. apply str_app_inj_l in He.
  assert (Hsplit : ∀ a a' b b', String.length a = String.length a' → a +:+ b = a' +:+ b' → a = a' ∧ b = b').
  { intros a. induction a as [|c a IH]; intros [|c' a'] b b'; simpl; try done.
    intros [= Hl] [= <- Hab]. destruct (IH _ _ _ Hl Hab) as [-> ->]. done. }
  by apply Hsplit in He as [-> He].
Qed.

Lemma VerifyProvenance_true key (r : MemoryRecord) :
  VerifyProvenance key r = true ↔ mr_Hash r = contentHash (mr_Content r) ∧
    mr_ProvenanceHMAC r = provenanceHMAC key (mr_MemoryID r) (mr_Hash r) (mr_SourceRunIDs r) (mr_EvidenceRefs r).
Proof.
  unfold VerifyProvenance. destruct (String.eqb_spec (mr_Hash r) (contentHash (mr_Content r)));
    simpl; rewrite ?String.eqb_eq; naive_solver.
Qed.

(** What the provenance of a record covers. Against a record that verifies, any
    other with its id and its MAC verifies only if it has the same content and the
    same references run together, sources before evidence, or SHA-256 collides; and
    if it has, it verifies whatever its tenant, scope, type, trust level, status or
    confidence, and wherever one reference ends and the next begins. *)
Theorem provenance_covers_exactly key (r r' : MemoryRecord) :
  VerifyProvenance key r = true →
  mr_MemoryID r' = mr_MemoryID r → mr_ProvenanceHMAC r' = mr_ProvenanceHMAC r →
  (VerifyProvenance key r' = true →
     (mr_Content r' = mr_Content r ∧
      foldr String.append "" (mr_SourceRunIDs r' ++ mr_EvidenceRefs r') =
      foldr String.append "" (mr_SourceRunIDs r ++ mr_EvidenceRefs r)) ∨ collision_exists) ∧
  (mr_Content r' = mr_Content r → mr_Hash r' = mr_Hash r →
   foldr String.append "" (mr_SourceRunIDs r' ++ mr_EvidenceRefs r') =
   foldr String.append "" (mr_SourceRunIDs r ++ mr_EvidenceRefs r) → VerifyProvenance key r' = true).
Proof.
  intros [Hh Hp]%VerifyProvenance_true Hid Hmac. split.
  - intros [Hh' Hp']%VerifyProvenance_true. rewrite Hid, Hmac, Hp in Hp'. apply provenance_same_id in Hp' as [[Hhash Hrefs]|]; [|by right|].
    + rewrite Hh, Hh' in Hhash. apply sha256_hex_eq in Hhash as [Hc|]; [by left|by right].
    + rewrite Hh, Hh'. unfold contentHash. by rewrite !sha256_hex_length.
  - intros Hc Hhash Hrefs. apply VerifyProvenance_true. rewrite Hhash, Hc. split; [done|]. rewrite Hmac, Hp, Hid.
    unfold provenanceHMAC. by rewrite !provenance_message_refs, Hrefs.
Qed.

(** However operations interleave, a record read back is what its creation sealed:
    the hash is its content's, its utility is not negative, and it verifies if it was
    created under its canonical id with well-formed references. *)
Theorem stored_memory_verifies `{!PostgresLaws, !JsonbArrays} w ps k row rec :
  rtc msteps ((∅, []), ∅) (w, ps) → w.1 !! k = Some row → scanMemoryRow (k, row) = Ok rec →
  mr_Hash rec = contentHash (mr_Content rec) ∧ fltb (mr_UtilityScore rec) f_zero = false ∧
  ∃ id sources evidence, uuid_in id = Some k ∧
    mr_SourceRunIDs rec = to_valid_utf8 <$> sources ∧ mr_EvidenceRefs rec = to_valid_utf8 <$> evidence ∧
    mr_ProvenanceHMAC rec = provenanceHMAC hmacKey id (mr_Hash rec) sources evidence ∧
    (id = k → Forall (λ s, utf8_valid s = true) (sources ++ evidence) → VerifyProvenance hmacKey rec = true).
Proof.
  intros Hg%reachable_good Hr Hscan. destruct (Hg _ _ Hr) as [_ (Hh & (id & src & ev & Hid & Hp & Hs & He) & Hu)].
  pose proof (strings_read_back _ _ Hs) as Hs'. pose proof (strings_read_back _ _ He) as He'.
  unfold scanMemoryRow in Hscan. rewrite Hs', He' in Hscan. injection Hscan as <-.
  split; [done|]. split; [done|]. exists id, src, ev. split_and!; [done..|]. intros -> Hval.
  assert (Hsame : ∀ l0 : list string, Forall (λ s, utf8_valid s = true) l0 → to_valid_utf8 <$> l0 = l0).
  { intros l0. induction 1 as [|s l0 Hs0 _ IH]; [done|]. rewrite fmap_cons, IH. by rewrite (utf8_valid_id _ Hs0). }
  apply Forall_app in Hval as [Hval1 Hval2]. apply VerifyProvenance_true.
  cbn [mr_Hash mr_Content mr_ProvenanceHMAC mr_MemoryID mr_SourceRunIDs mr_EvidenceRefs].
  by rewrite !Hsame.
Qed.

(** ** One operation alone *)

Lemma record_Get_alone t id t' res :
  alone msem t (Get id) t' res →
  t' = t ∧ ∀ rec, res = Ok rec →
    ∃ k row, uuid_in id = Some k ∧ t !! k = Some row ∧ scanMemoryRow (k, row) = Ok rec.
Proof.
  intros (r & t1 & Hs & -> & ->). simpl in Hs.
  assert (Ht : t1 = t).
  { apply stmt_cases in Hs as [?|[a Ha]]; [done|]. unfold sql_select in Ha. by repeat case_match; simplify_eq. }
  split; [done|]. subst. intros rec Hrec. destruct r as [[[k row]|]|e]; try done.
  apply stmt_ok in Hs. unfold sql_select in Hs. destruct (uuid_in id) as [j|] eqn:Hj; [|done].
  injection Hs as Hs. destruct (t !! j) as [row'|] eqn:Hrow; [|done]. injection Hs as <- <-. eauto.
Qed.

Lemma transition_alone t id target transitions t' rec :
  alone msem t (transitionStatus id target transitions) t' (Ok rec) →
  ∃ k row now, uuid_in id = Some k ∧ t !! k = Some row ∧ may_move transitions (m_status row) target = true ∧
    t' = alter (row_with_status now target) k t.
Proof.
  unfold transitionStatus. rewrite alone_bind. intros (got & t1 & [-> Hgot]%record_Get_alone & Ha).
  destruct got as [current|e]; [|by destruct Ha]. destruct (Hgot current eq_refl) as (k & row & Hk & Hrow & Hscan).
  apply scan_row in Hscan as (_ & Hst & _). rewrite Hst in Ha.
  destruct (may_move _ _ _) eqn:Hm; [|by destruct Ha]. cbn [negb] in Ha.
  destruct Ha as (u & t2 & [now Hs] & Ha). destruct u as [[]|e]; [|by destruct Ha].
  apply record_Get_alone in Ha as [-> _]. apply stmt_ok in Hs. unfold sql_status, sql_update in Hs. rewrite Hk in Hs.
  destruct (oneOf target MemoryStatuses); [|done]. injection Hs as <-. by exists k, row, now.
Qed.

(** *** Forgetting *)

(** The rows with some ids are revoked, and nothing else is changed. *)
Definition revoked_rows (ids : list string) t t' : Prop :=
  ∀ k, match t !! k with
       | Some row => if bool_decide (k ∈ ids) then ∃ now, t' !! k = Some (row_with_status now MemoryStatusRevoked row)
                     else t' !! k = Some row
       | None => t' !! k = None
       end.

Lemma prune_alone hl th asOf pruned active t t' ids :
  Forall (λ r, uuid_in (mr_MemoryID r) = Some (mr_MemoryID r)) active →
  alone msem t (prune hl th asOf pruned active) t' (Ok ids) →
  let gone := mr_MemoryID <$> List.filter (forgotten hl th asOf) active in
  ids = (pruned ++ gone)%list ∧ revoked_rows gone t t'.
Proof.
  intros Hcan. revert t pruned. induction Hcan as [|r active Hr _ IH]; intros t pruned; cbn [prune].
  - intros [-> [= ->]]. cbn. rewrite app_nil_r. split; [done|]. intros k. cbn. by destruct (t !! k).
  - cbn [List.filter]. destruct (forgotten hl th asOf r) eqn:Hf; cbn [negb]; [|apply IH].
    rewrite alone_bind. intros (moved & t1 & Hm & Ha). destruct moved as [rec|e]; [|by destruct Ha].
    apply transition_alone in Hm as (k & row & now & Hk & Hrow & _ & ->). rewrite Hr in Hk. injection Hk as <-.
    destruct (IH _ _ Ha) as [-> Hrev]. rewrite <-app_assoc. split; [done|].
    intros k. specialize (Hrev k). cbn [fmap list_fmap]. destruct (decide (mr_MemoryID r = k)) as [<-|Hne].
    + rewrite lookup_alter_eq, Hrow in Hrev. cbn in Hrev. rewrite Hrow.
      rewrite bool_decide_eq_true_2 by left. revert Hrev. case_bool_decide; intros Hrev; [|by exists now].
      destruct Hrev as [now' ->]. by exists now'.
    + rewrite lookup_alter_ne in Hrev by done. destruct (t !! k) as [row'|]; [|done].
      rewrite (bool_decide_ext _ (k ∈ mr_MemoryID <$> List.filter (forgotten hl th asOf) active)); [done|].
      rewrite elem_of_cons. naive_solver.
Qed.

Lemma scans_in_order (l : list (string * mrow)) out recs :
  fold_res (λ out kv, rec ← scanMemoryRow kv; Ok (out ++ [rec])%list) out l = Ok recs →
  ∃ new, recs = (out ++ new)%list ∧ Forall2 (λ kv rec, scanMemoryRow kv = Ok rec) l new.
Proof.
  revert out. induction l as [|kv l IH]; intros out; simpl.
  - intros [= ->]. exists []. by rewrite app_nil_r.
  - destruct (scanMemoryRow kv) as [rec|e] eqn:Hs; simpl; [|done].
    intros (new & -> & Hf)%IH. exists (rec :: new). rewrite <-app_assoc. split; [done|]. by constructor.
Qed.

(** Pruning alone: the ids it answers are those, in the order of the listing, of
    the active records of the tenant and scopes whose utility, decayed since their
    last use, is below the threshold; exactly these rows are revoked, and no other
    row is touched. *)
Theorem prune_forgets_exactly scopes tenant hl th asOf t t' ids :
  (∀ k row, t !! k = Some row → uuid_in k = Some k) → scopes ≠ [] →
  alone msem t (Prune scopes tenant hl th asOf) t' (Ok ids) →
  ∃ now rows recs, listing now t scopes tenant rows ∧ Forall2 (λ kv rec, scanMemoryRow kv = Ok rec) rows recs ∧
    ids = mr_MemoryID <$> List.filter (forgotten hl th asOf) recs ∧ revoked_rows ids t t'.
Proof.
  intros Hcan Hne. unfold Prune, ListActive. rewrite bool_decide_eq_false_2 by done.
  rewrite alone_bind. intros (listed & t1 & (r & t2 & [-> Hr] & -> & ->) & Ha).
  destruct Hr as [[e ->]|(now & l & Hl & ->)]; [by destruct Ha|].
  destruct (fold_res _ [] l) as [recs|e] eqn:Hrecs; [|by destruct Ha].
  apply scans_in_order in Hrecs as (new & -> & Hf). cbn [app] in Ha.
  apply prune_alone in Ha as [-> Hrev]; [by exists now, l, new|].
  apply Forall_forall. intros rec Hin. destruct (Forall2_elem_r _ _ _ _ Hf Hin) as ([k row] & Hkv & Hscan).
  apply scan_row in Hscan as (-> & _ & _). destruct Hl as [Hperm _]. rewrite Hperm in Hkv.
  apply elem_of_map_to_list, map_lookup_filter_Some in Hkv as [Hk _]. by eapply Hcan.
Qed.

(** ** Two operations at once *)

(** The calls served at a clock reading without a fault, with the next fresh id; the
    listing is left unanswered. *)
Definition mserve (now : Z) (fresh : string) t (c : mcall) : mtable * mreply c :=
  match c with
  | MNewID => (t, fresh)
  | MInsert r s e => served_stmt t (sql_insert now t r s e)
  | MSelect id => served_stmt t (sql_select t id)
  | MListActive _ _ => (t, Err None)
  | MSetStatus target id => served_stmt t (sql_status now t target id)
  | MUsage score id => served_stmt t (sql_usage now t score id)
  | MSuperseded by_ id => served_stmt t (sql_superseded t by_ id)
  | MRevoke id => served_stmt t (sql_revoke now t id)
  end.

Lemma mserve_sem now fresh t (c : mcall) :
  uuid_in fresh = Some fresh → msem t c (mserve now fresh t c).2 (mserve now fresh t c).1.
Proof. intros Hf. destruct c; simpl; try exists now; try apply served_stmt_stmt; eauto. Qed.

Definition readable row : Prop :=
  is_Some (unmarshal_strings (jsonb_out (m_sources row))) ∧ is_Some (unmarshal_strings (jsonb_out (m_evidence row))).

Lemma readable_scan k row : readable row → ∃ rec, scanMemoryRow (k, row) = Ok rec.
Proof. intros [[s Hs] [e He]]. unfold scanMemoryRow. rewrite Hs, He. eauto. Qed.

(** A transition that is allowed writes the row and answers it. *)
Lemma transition_served now fresh t k target transitions row :
  uuid_in k = Some k → t !! k = Some row → readable row → oneOf target MemoryStatuses = true →
  may_move transitions (m_status row) target = true →
  ∃ rec, run (mserve now fresh) t (transitionStatus k target transitions) =
    (alter (row_with_status now target) k t, Ok rec).
Proof.
  intros Hk Hrow Hread Ht Hm. destruct (readable_scan k row Hread) as [rec Hrec].
  destruct (readable_scan k (row_with_status now target row) Hread) as [rec' Hrec']. exists rec'.
  unfold transitionStatus, Get. rewrite run_bind. cbn [ask mbind prog_bind run mserve].
  unfold sql_select, served_stmt. rewrite Hk, Hrow. cbn [fmap option_fmap option_map run mret prog_ret].
  rewrite Hrec. destruct (scan_row _ _ _ Hrec) as (_ & -> & _). rewrite Hm. cbn [negb run mserve mbind prog_bind].
  unfold sql_status, sql_update, served_stmt. rewrite Ht, Hk. cbn [run mserve].
  unfold sql_select, served_stmt. rewrite Hk, lookup_alter_eq, Hrow.
  cbn [fmap option_fmap option_map run mret prog_ret]. by rewrite Hrec'.
Qed.

(** A promotion that read VALIDATED stands at its update. *)
Lemma promotion_after_read k row d :
  readable row → m_status row = MemoryStatusValidated → gd_Allowed d = true →
  ∃ f g, program (OpPromote k d) = Vis (MSelect k) f ∧ f (Ok (Some (k, row))) = Vis (MSetStatus MemoryStatusActive k) g.
Proof.
  intros Hread Hst Hd. destruct (readable_scan k row Hread) as [rec Hrec].
  cbn [program]. unfold Promote. rewrite Hd. eexists _, _. split; [reflexivity|].
  unfold mret, prog_ret. cbn [mbind prog_bind]. rewrite Hrec.
  destruct (scan_row _ _ _ Hrec) as (_ & -> & _). rewrite Hst. reflexivity.
Qed.

(** Nothing holds a record between the read and the update of a transition: while
    a promotion has read it VALIDATED, a reviewer rejects the record and is answered
    that it is REVOKED; the promotion then writes ACTIVE over it, and the rejected
    memory is served to the agents again. *)
Theorem rejected_memory_returns t k row d :
  uuid_in k = Some k → t !! k = Some row → readable row → m_status row = MemoryStatusValidated →
  gd_Allowed d = true →
  ∃ t1 ps1 t2 ps2 row1 row2 rec,
    rtc (pool_step (λ _, msem) program) (t, ∅) (t1, ps1) ∧
    ps1 !! 1%nat = Some (OpReject k, Ret (RRecord (Ok rec))) ∧
    t1 !! k = Some row1 ∧ m_status row1 = MemoryStatusRevoked ∧
    rtc (pool_step (λ _, msem) program) (t1, ps1) (t2, ps2) ∧
    t2 !! k = Some row2 ∧ m_status row2 = MemoryStatusActive.
Proof.
  intros Hk Hrow Hread Hst Hd.
  destruct (promotion_after_read k row d Hread Hst Hd) as (f & g & Hf & Hg).
  set (up := OpPromote k d) in *. set (t1 := alter (row_with_status 0 MemoryStatusRevoked) k t).
  assert (Hrow1 : t1 !! k = Some (row_with_status 0 MemoryStatusRevoked row))
    by (unfold t1; by rewrite lookup_alter_eq, Hrow).
  assert (Hrej : ∃ rec, alone msem t (program (OpReject k)) t1 (RRecord (Ok rec))).
  { destruct (transition_served 0 k t k MemoryStatusRevoked memoryValidTransitions row) as [rec Hrun];
      [done..|by rewrite Hst|]. exists rec. cbn [program]. unfold record_of. rewrite alone_bind.
    exists (Ok rec), t1. split; [|done].
    pose proof (run_alone msem (mserve 0 k) (Reject k) t (λ t0 c, mserve_sem 0 k t0 c Hk)) as Ha.
    unfold Reject in Ha. by rewrite Hrun in Ha. }
  destruct Hrej as [rec Hrej].
  exists t1, (<[1%nat := (OpReject k, Ret (RRecord (Ok rec)))]> (<[0%nat := (up, f (Ok (Some (k, row))))]> ∅)),
    (alter (row_with_status 1 MemoryStatusActive) k t1),
    (<[0%nat := (up, g (Ok tt))]> (<[1%nat := (OpReject k, Ret (RRecord (Ok rec)))]>
       (<[0%nat := (up, f (Ok (Some (k, row))))]> ∅))),
    (row_with_status 0 MemoryStatusRevoked row),
    (row_with_status 1 MemoryStatusActive (row_with_status 0 MemoryStatusRevoked row)), rec.
  split_and!; [|apply lookup_insert_eq|done|done| |by rewrite lookup_alter_eq, Hrow1|done].
  - eapply rtc_l; [by apply (pool_spawn _ _ t ∅ 0 up)|]. rewrite Hf.
    eapply rtc_l; [eapply pool_call; [apply lookup_insert_eq|]|].
    { left. exists (Some (k, row)). unfold sql_select. rewrite Hk, Hrow. split; [reflexivity|by left]. }
    rewrite insert_insert_eq. eapply rtc_l; [by apply (pool_spawn _ _ t _ 1 (OpReject k)); rewrite lookup_insert_ne|].
    by apply alone_steps.
  - apply rtc_once. eapply pool_call; [rewrite lookup_insert_ne by done; rewrite lookup_insert_eq, Hg; reflexivity|].
    exists 1%Z. left. exists tt. unfold sql_status, sql_update. rewrite Hk. split; [done|by left].
Qed.

(** *** Operations served one after another *)

Definition wserve (now : Z) (fresh : string) op w (c : mcall) : mworld * mreply c :=
  let '(t, r) := mserve now fresh w.1 c in ((t, (w.2 ++ writes op c)%list), r).
Definition world_after (now : Z) (fresh : string) (ops : list mop) : mworld :=
  foldl (λ w op, (run (wserve now fresh op) w (program op)).1) (∅, []) ops.

Lemma world_after_steps now fresh ops :
  uuid_in fresh = Some fresh →
  ∃ ps, (∀ i, (length ops ≤ i)%nat → ps !! i = None) ∧ rtc msteps ((∅, []), ∅) (world_after now fresh ops, ps).
Proof.
  intros Hf. induction ops as [|op ops (ps & Hfree & Hs)] using rev_ind; [exists ∅; done|].
  unfold world_after. rewrite foldl_app. cbn [foldl]. fold (world_after now fresh ops).
  set (w := world_after now fresh ops) in *.
  assert (Ha : alone (wsem op) w (program op) (run (wserve now fresh op) w (program op)).1
    (run (wserve now fresh op) w (program op)).2).
  { apply run_alone. intros w0 c. unfold wserve, wsem. pose proof (mserve_sem now fresh w0.1 c Hf) as Hm.
    destruct (mserve now fresh w0.1 c). done. }
  exists (<[length ops := (op, Ret (run (wserve now fresh op) w (program op)).2)]> ps). split.
  - intros i Hi. rewrite length_app in Hi. simpl in Hi. rewrite lookup_insert_ne by lia. apply Hfree. lia.
  - etrans; [exact Hs|]. eapply rtc_l; [apply (pool_spawn _ _ w ps (length ops) op), Hfree; lia|].
    by apply alone_steps.
Qed.
End memory.

(** ** Witnesses *)

Module MemoryWitnesses.
#[local] Existing Instance verbatim_postgres.

Lemma lower_byte_idem c : lower_byte (lower_byte c) = lower_byte c.
Proof. by destruct c as [[] [] [] [] [] [] [] []]. Qed.
Lemma lower_idem s : str_map lower_byte (str_map lower_byte s) = str_map lower_byte s.
Proof. induction s as [|c s IH]; [done|]. simpl. by rewrite lower_byte_idem, IH. Qed.

(** Ids whose letters are folded. *)
#[local] Program Instance lower_uuids : Uuids :=
  {| uuid_in s := if sempty s then None else Some (str_map lower_byte s) |}.
Next Obligation.
  intros s c. simpl. destruct s as [|a s]; simpl; [done|]. intros [= <-]. simpl. by rewrite lower_byte_idem, lower_idem.
Qed.
#[local] Instance verbatim_arrays : JsonbArrays.
Proof.
  intros l b [= <-]. exists l. split; [done|]. induction l as [|j l IH]; constructor; [|done]. by exists j.
Qed.
#[local] Existing Instance verbatim_laws.

Definition pow0 (x y : float64) : float64 := f_zero.
Definition pass : GateDecision := {| gd_Allowed := true; gd_Reason := "" |}.
Definition memo : MemoryRecord :=
  {| mr_MemoryID := "m1"; mr_Type := "SEMANTIC"; mr_Scope := "project"; mr_TenantID := "t"; mr_Content := "a fact";
     mr_SourceRunIDs := ["run-1"]; mr_EvidenceRefs := ["e"]; mr_TrustLevel := ""; mr_Confidence := f_zero;
     mr_UtilityScore := f_of_Z 1; mr_Status := "CANDIDATE"; mr_ExpiresAt := None; mr_Version := 0; mr_Hash := "";
     mr_ProvenanceHMAC := ""; mr_CreatedAt := 0; mr_UpdatedAt := 0; mr_LastUsedAt := None; mr_SupersededBy := "" |}.
Definition history : list mop :=
  [OpWriteCandidate memo; OpQuarantine "m1"; OpValidate "m1" pass; OpPromote "m1" pass].
Definition final : gmap string mrow * list (mop * string * string) := world_after pow0 "key" 0 "f" history.

Lemma fresh_f : uuid_in "f" = Some "f".
Proof. reflexivity. Qed.

Definition no_row : mrow :=
  {| m_type := ""; m_scope := ""; m_tenant := ""; m_content := ""; m_sources := JNull : jsonb;
     m_evidence := JNull : jsonb; m_trust := None; m_confidence := f_zero; m_utility := f_zero; m_status := "";
     m_expires := None; m_version := 0; m_hash := ""; m_hmac := ""; m_created := 0; m_updated := 0;
     m_last_used := None; m_superseded := None |}.
Definition final_row : mrow := default no_row (final.1 !! "m1").
Lemma final_found : final.1 !! "m1" = Some final_row.
Proof. vm_compute. reflexivity. Qed.

Lemma active_memory_was_vetted_witness : gate_promoted final.2 "m1".
Proof.
  destruct (world_after_steps pow0 "key" 0 "f" history fresh_f) as (ps & _ & Hs).
  apply (active_memory_was_vetted pow0 "key" final ps "m1" final_row Hs final_found). left. vm_compute. reflexivity.
Defined.

Definition final_record : MemoryRecord :=
  match scanMemoryRow ("m1", final_row) with Ok r => r | Err _ => memo end.
Lemma final_scan : scanMemoryRow ("m1", final_row) = Ok final_record.
Proof. vm_compute. reflexivity. Qed.

Lemma stored_memory_verifies_witness : mr_Hash final_record = contentHash (mr_Content final_record).
Proof.
  destruct (world_after_steps pow0 "key" 0 "f" history fresh_f) as (ps & _ & Hs).
  destruct (stored_memory_verifies pow0 "key" final ps "m1" final_row final_record Hs final_found final_scan) as [Hh _].
  exact Hh.
Defined.

(** The final record with a letter of one reference moved into the next, and another tenant. *)
Definition reshuffled : MemoryRecord :=
  {| mr_MemoryID := "m1"; mr_Type := "CONSTRAINT"; mr_Scope := "org"; mr_TenantID := "u"; mr_Content := "a fact";
     mr_SourceRunIDs := ["run-"; "1"]; mr_EvidenceRefs := ["e"]; mr_TrustLevel := "TRUSTED"; mr_Confidence := f_of_Z 1;
     mr_UtilityScore := f_of_Z 9; mr_Status := "ACTIVE"; mr_ExpiresAt := None; mr_Version := 1;
     mr_Hash := mr_Hash final_record; mr_ProvenanceHMAC := mr_ProvenanceHMAC final_record; mr_CreatedAt := 0;
     mr_UpdatedAt := 0; mr_LastUsedAt := None; mr_SupersededBy := "" |}.
Lemma provenance_covers_exactly_witness : VerifyProvenance "key" reshuffled = true.
Proof.
  assert (Hv : VerifyProvenance "key" final_record = true) by (vm_compute; reflexivity).
  apply (provenance_covers_exactly "key" final_record reshuffled Hv); vm_compute; reflexivity.
Defined.

Definition lone : gmap string mrow := {["m1" := final_row]}.
Lemma prune_forgets_exactly_witness :
  ∃ t', revoked_rows ["m1"] lone t' ∧ alone msem lone (Prune pow0 ["project"] "t" (f_of_Z 1) (f_of_Z 1) (10 ^ 15)) t' (Ok ["m1"]).
Proof.
  set (tail := prune pow0 (f_of_Z 1) (f_of_Z 1) (10 ^ 15) [] [final_record]).
  assert (Ha : alone msem lone (Prune pow0 ["project"] "t" (f_of_Z 1) (f_of_Z 1) (10 ^ 15))
    (run (mserve 0 "f") lone tail).1 (Ok ["m1"])).
  { unfold Prune. apply alone_bind. exists (Ok [final_record]), lone. split.
    - exists (Ok [("m1", final_row)]), lone. split.
      + split; [done|]. right. exists 0%Z, [("m1", final_row)]. split; [|done]. split; [vm_compute; reflexivity|].
        repeat constructor.
      + split; [done|]. vm_compute. reflexivity.
    - assert (Hr : (run (mserve 0 "f") lone tail).2 = Ok ["m1"]) by (vm_compute; reflexivity).
      rewrite <-Hr. apply (run_alone msem (mserve 0 "f")). intros t c. by apply mserve_sem. }
  assert (Hcan : ∀ k row, lone !! k = Some row → uuid_in k = Some k).
  { unfold lone. by intros k row [<- _]%lookup_singleton_Some. }
  eexists. split; [|exact Ha].
  destruct (prune_forgets_exactly pow0 ["project"] "t" (f_of_Z 1) (f_of_Z 1) (10 ^ 15) lone _ ["m1"]
    Hcan ltac:(done) Ha) as (_ & _ & _ & _ & _ & _ & Hrev). exact Hrev.
Defined.

Definition validated : mrow := row_with_status 0 MemoryStatusValidated final_row.
Lemma rejected_memory_returns_witness :
  ∃ t2 ps2 row2, rtc (pool_step (λ _, msem) (program pow0 "key")) ({["m1" := validated]}, ∅) (t2, ps2) ∧
    t2 !! "m1" = Some row2 ∧ m_status row2 = MemoryStatusActive.
Proof.
  destruct (rejected_memory_returns pow0 "key" {["m1" := validated]} "m1" validated pass)
    as (t1 & ps1 & t2 & ps2 & row1 & row2 & rec & Hs1 & _ & _ & _ & Hs2 & Hr & Ha);
    [reflexivity|reflexivity|split; eexists; vm_compute; reflexivity|reflexivity|reflexivity|].
  exists t2, ps2, row2. split; [by etrans|]. by split.
Defined.

(** A record created under an id that is spelled with a capital letter is sealed
    under that spelling, which the database does not keep: asked to check it, the
    store finds it tampered with and revokes it. *)
Theorem capital_id_is_repaired_away :
  let t := (run (mserve 0 "f") ∅ (WriteCandidate "key" {|
    mr_MemoryID := "M1"; mr_Type := "SEMANTIC"; mr_Scope := "project"; mr_TenantID := "t"; mr_Content := "a fact";
    mr_SourceRunIDs := []; mr_EvidenceRefs := []; mr_TrustLevel := ""; mr_Confidence := f_zero;
    mr_UtilityScore := f_zero; mr_Status := ""; mr_ExpiresAt := None; mr_Version := 0; mr_Hash := "";
    mr_ProvenanceHMAC := ""; mr_CreatedAt := 0; mr_UpdatedAt := 0; mr_LastUsedAt := None; mr_SupersededBy := "" |})).1 in
  ∃ rec, (run (mserve 0 "f") t (RepairIfTampered "key" "m1")).2 = Ok (true, rec) ∧ mr_Status rec = MemoryStatusRevoked.
Proof. eexists. vm_compute. split; reflexivity. Qed.
End MemoryWitnesses.
