(* ===== verification/MemoryApi.v ===== *)
(** * The memory routes

    go/internal/api/memory_handlers.go: writing a candidate, reading, listing, and the
    six actions on one record, each behind the caller's tenant. A request is what the
    middleware leaves: the caller, the tenant header, the query and the decoded body.
    A handler is a program over the store's statements. *)

From S2P Require Import Prelude GoValue Json Program Auth ToolGateway MemoryStore.

Local Open Scope string_scope.
Set Default Proof Using "Type*".

(** [strings.Split(s, ",")]. *)
Fixpoint split_comma (s : string) : list string :=
  match s with
  | EmptyString => [""]
  | String c s =>
      if byte_is 44 c then "" :: split_comma s
      else match split_comma s with [] => [String c ""] | w :: ws => String c w :: ws end
  end.

Section api.
Context `{Postgres, Uuids}.
(** The key of the store. *)
Context (hmacKey : string).

Inductive MemoryResponse :=
| MemUnauthenticated
| MemTenantRefused (e : TenantRefusal)
| MemBadBody
| MemNamesTenant (callerTenant : string)
| MemNoScope
| MemFailed (status : Z) (e : MemoryError)
| MemCreated (r : MemoryRecord)
| MemFound (r : MemoryRecord)
| MemListed (l : list MemoryRecord)
| MemRepaired (tampered : bool) (r : MemoryRecord).
Abbreviation HM := (prog mreply MemoryResponse).

Definition writeMemoryStoreError (e : MemoryError) : MemoryResponse :=
  MemFailed
    match e with
    | MemoryNotFound => 404
    | MemoryExists _ => 409
    | ErrInvalidMemoryTransition _ _ _ | UsageNotActive _ _ | ErrValidationGateBlocked _ _
    | ErrPromotionGateBlocked _ _ | ErrDirectActiveWriteRejected _ | ErrInvalidMemoryRecord _ => 422
    | BadReferences | MemoryFailed _ _ => 500
    end e.

Definition callerTenant (c : option Caller) : option string := Tenant <$> c.
Definition rejectRequestTenant (supplied actual : string) : bool :=
  negb (sempty supplied) && negb (String.eqb supplied actual).

Definition ownedByCaller (id tenant : string) : prog mreply (result MemoryError MemoryRecord) :=
  got ← Get id;
  mret (match got with
        | Err e => Err e
        | Ok rec => if String.eqb (mr_TenantID rec) tenant then Ok rec else Err MemoryNotFound
        end).

Definition with_tenant (tenant : string) (r : MemoryRecord) : MemoryRecord :=
  {| mr_MemoryID := mr_MemoryID r; mr_Type := mr_Type r; mr_Scope := mr_Scope r; mr_TenantID := tenant;
     mr_Content := mr_Content r; mr_SourceRunIDs := mr_SourceRunIDs r; mr_EvidenceRefs := mr_EvidenceRefs r;
     mr_TrustLevel := mr_TrustLevel r; mr_Confidence := mr_Confidence r; mr_UtilityScore := mr_UtilityScore r;
     mr_Status := mr_Status r; mr_ExpiresAt := mr_ExpiresAt r; mr_Version := mr_Version r; mr_Hash := mr_Hash r;
     mr_ProvenanceHMAC := mr_ProvenanceHMAC r; mr_CreatedAt := mr_CreatedAt r; mr_UpdatedAt := mr_UpdatedAt r;
     mr_LastUsedAt := mr_LastUsedAt r; mr_SupersededBy := mr_SupersededBy r |}.

Definition writeCandidate (rq : request MemoryRecord) : HM :=
  match effectiveTenant (caller rq) (tenant_header rq) with
  | Err e => mret (MemTenantRefused e)
  | Ok tenant =>
      match body rq with
      | None => mret MemBadBody
      | Some rec =>
          if rejectRequestTenant (mr_TenantID rec) tenant then mret (MemNamesTenant tenant)
          else
            r ← WriteCandidate hmacKey (with_tenant tenant rec);
            mret (match r with Err e => writeMemoryStoreError e | Ok created => MemCreated created end)
      end
  end.

Definition listActive (c : option Caller) (scope tenant_id : string) : HM :=
  match callerTenant c with
  | None => mret MemUnauthenticated
  | Some tenant =>
      let scopes := List.filter (λ s, negb (sempty s)) (split_comma scope) in
      if bool_decide (scopes = []) then mret MemNoScope
      else if rejectRequestTenant tenant_id tenant then mret (MemNamesTenant tenant)
      else
        r ← ListActive scopes tenant;
        mret (match r with Err e => writeMemoryStoreError e | Ok recs => MemListed recs end)
  end.

Definition getMemory (c : option Caller) (id tenant_id : string) : HM :=
  match callerTenant c with
  | None => mret MemUnauthenticated
  | Some tenant =>
      if rejectRequestTenant tenant_id tenant then mret (MemNamesTenant tenant)
      else
        r ← ownedByCaller id tenant;
        mret (match r with Err e => writeMemoryStoreError e | Ok rec => MemFound rec end)
  end.

Definition answer_record (m : prog mreply (result MemoryError MemoryRecord)) : HM :=
  r ← m;
  mret (match r with Err e => writeMemoryStoreError e | Ok rec => MemFound rec end).

(** What the six actions share: the caller's tenant, and the record's. *)
Definition owned (c : option Caller) (id : string) (go : HM) : HM :=
  match callerTenant c with
  | None => mret MemUnauthenticated
  | Some tenant =>
      r ← ownedByCaller id tenant;
      match r with
      | Err e => mret (writeMemoryStoreError e)
      | Ok _ => go
      end
  end.

(** [body_tenant] is what could be decoded of the body, which may be nothing. *)
Definition revoke (c : option Caller) (id body_tenant : string) : HM :=
  match callerTenant c with
  | None => mret MemUnauthenticated
  | Some tenant =>
      if rejectRequestTenant body_tenant tenant then mret (MemNamesTenant tenant)
      else owned c id (answer_record (Revoke id))
  end.
Definition repair (c : option Caller) (id : string) : HM :=
  owned c id
    (r ← RepairIfTampered hmacKey id;
     mret (match r with Err e => writeMemoryStoreError e | Ok (tampered, rec) => MemRepaired tampered rec end)).
Definition quarantine (c : option Caller) (id : string) : HM := owned c id (answer_record (Quarantine id)).
Definition validate (c : option Caller) (id : string) (decision : option GateDecision) : HM :=
  owned c id match decision with None => mret MemBadBody | Some d => answer_record (Validate id d) end.
Definition promote (c : option Caller) (id : string) (decision : option GateDecision) : HM :=
  owned c id match decision with None => mret MemBadBody | Some d => answer_record (Promote id d) end.
Definition reject (c : option Caller) (id : string) : HM := owned c id (answer_record (Reject id)).

(** [MemoryRecordActions], with what each reads of the body, and the read of a record. *)
Inductive record_route :=
| RGet (tenant_id : string)
| RQuarantine
| RValidate (decision : option GateDecision)
| RPromote (decision : option GateDecision)
| RReject
| RRevoke (body_tenant : string)
| RRepair.
Definition by_route (c : option Caller) (id : string) (r : record_route) : HM :=
  match r with
  | RGet tenant_id => getMemory c id tenant_id
  | RQuarantine => quarantine c id
  | RValidate d => validate c id d
  | RPromote d => promote c id d
  | RReject => reject c id
  | RRevoke body_tenant => revoke c id body_tenant
  | RRepair => repair c id
  end.

(** ** Isolation *)

Abbreviation event := {c : mcall & mreply c}.

(** What a question about a record tells of the tenant's ownership. *)
Definition owner_reply (tenant : string) (r : result dberr (option (string * mrow))) (res : result MemoryError MemoryRecord) : Prop :=
  match r with
  | Ok (Some (k, row)) =>
      match scanMemoryRow (k, row) with
      | Err e => res = Err e
      | Ok rec => res = if String.eqb (m_tenant row) tenant then Ok rec else Err MemoryNotFound
      end
  | Ok None => res = Err MemoryNotFound
  | Err e => res = Err (MemoryFailed "scan memory record" e)
  end.

Lemma scan_tenant k row rec : scanMemoryRow (k, row) = Ok rec → mr_TenantID rec = m_tenant row.
Proof. unfold scanMemoryRow. repeat case_match; intros ?; by simplify_eq. Qed.

Lemma owner_history id tenant t res :
  histories (ownedByCaller id tenant) t res →
  ∃ r : mreply (MSelect id), t = [existT (MSelect id) r] ∧ owner_reply tenant r res.
Proof.
  intros (r & t' & -> & -> & ->). exists r. split; [done|].
  destruct r as [[[k row]|]|e]; unfold owner_reply; try done.
  destruct (scanMemoryRow (k, row)) as [rec|e] eqn:Hs; [|done]. by rewrite (scan_tenant _ _ _ Hs).
Qed.

Lemma owned_history c id go t resp :
  histories (owned (Some c) id go) t resp →
  ∃ (r : mreply (MSelect id)) res t', t = existT (MSelect id) r :: t' ∧ owner_reply (Tenant c) r res ∧
    match res with Err e => t' = [] ∧ resp = writeMemoryStoreError e | Ok _ => histories go t' resp end.
Proof.
  unfold owned. cbn [callerTenant fmap option_fmap option_map].
  intros (res & t1 & t2 & -> & (r & -> & Hr)%owner_history & Ht)%histories_bind.
  exists r, res, t2. split; [done|]. split; [done|]. destruct res as [rec|e]; [exact Ht|exact Ht].
Qed.

(** C25. A record is reached by its own tenant only: a request on a record id asks for
    the record first; if there is none, or it is another tenant's, nothing else is
    asked of the database and the answer is the same 404; otherwise every call is
    made on a record of the caller's tenant. *)
Theorem memory_stays_in_its_tenant c id route t resp :
  histories (by_route (Some c) id route) t resp →
  (t = [] ∧ resp = MemNamesTenant (Tenant c)) ∨
  ∃ (r : mreply (MSelect id)) t', t = existT (MSelect id) r :: t' ∧
    match r with
    | Ok None => t' = [] ∧ resp = MemFailed 404 MemoryNotFound
    | Err e => t' = [] ∧ resp = MemFailed 500 (MemoryFailed "scan memory record" e)
    | Ok (Some (k, row)) => (∃ rec, scanMemoryRow (k, row) = Ok rec) → m_tenant row ≠ Tenant c →
        t' = [] ∧ resp = MemFailed 404 MemoryNotFound
    end.
Proof.
  assert (Hown : ∀ go, histories (owned (Some c) id go) t resp →
    ∃ (r : mreply (MSelect id)) t', t = existT (MSelect id) r :: t' ∧
    match r with
    | Ok None => t' = [] ∧ resp = MemFailed 404 MemoryNotFound
    | Err e => t' = [] ∧ resp = MemFailed 500 (MemoryFailed "scan memory record" e)
    | Ok (Some (k, row)) => (∃ rec, scanMemoryRow (k, row) = Ok rec) → m_tenant row ≠ Tenant c →
        t' = [] ∧ resp = MemFailed 404 MemoryNotFound
    end).
  { intros go (r & res & t' & -> & Hr & Hres)%owned_history. exists r, t'. split; [done|].
    destruct r as [[[k row]|]|e]; unfold owner_reply in Hr; subst; try done. intros [rec Hrec] Hne.
    rewrite Hrec in Hr. destruct (String.eqb_spec (m_tenant row) (Tenant c)); [done|]. by subst. }
  destruct route; cbn [by_route]; try (intros Ht; right; by eapply Hown).
  - unfold getMemory. cbn [callerTenant fmap option_fmap option_map].
    destruct (rejectRequestTenant _ _); [by intros [-> ->]; left|]. intros Ht. right. apply (Hown (mret resp)).
    unfold owned. cbn [callerTenant fmap option_fmap option_map].
    apply histories_bind in Ht as (res & t1 & t2 & -> & Hres & -> & ->). apply histories_bind.
    exists res, t1, []. split; [done|]. split; [done|]. destruct res; by split.
  - unfold revoke. cbn [callerTenant fmap option_fmap option_map].
    destruct (rejectRequestTenant _ _); [by intros [-> ->]; left|]. intros Ht. right. by eapply Hown.
Qed.

Lemma Create_emits r c : emits (Create hmacKey r) c →
  match c with
  | MNewID | MSelect _ => True
  | MInsert r' s e => ∃ id, r' = sealed hmacKey id r ∧ (mr_MemoryID r = "" ∨ id = mr_MemoryID r) ∧
      s = marshal_strings (mr_SourceRunIDs r) ∧ e = marshal_strings (mr_EvidenceRefs r)
  | _ => False
  end.
Proof.
  assert (Has : ∀ id, (mr_MemoryID r = "" ∨ id = mr_MemoryID r) → emits (create_as hmacKey id r) c →
    match c with
    | MNewID | MSelect _ => True
    | MInsert r' s e => ∃ id, r' = sealed hmacKey id r ∧ (mr_MemoryID r = "" ∨ id = mr_MemoryID r) ∧
        s = marshal_strings (mr_SourceRunIDs r) ∧ e = marshal_strings (mr_EvidenceRefs r)
    | _ => False
    end).
  { intros id Hid. unfold create_as. destruct (validateMemoryRecord r); [|done]. destruct (_ && _); [done|].
    intros [->|[u Hu]]; [by exists id|]. destruct u as [[]|[[]|]]; try done. destruct Hu as [->|[? ?]]; done. }
  unfold Create. destruct (sempty (mr_MemoryID r)) eqn:He; [|by apply Has; right].
  apply sempty_true in He. intros [->|[id Hid]]; [done|]. eapply Has; [by left|exact Hid].
Qed.

(** Whatever a request to write a candidate says, the only row it can insert is a
    CANDIDATE of the tenant the request acts for, sealed by the store, with the
    content, trust level and scores of the body; it changes no row that exists. *)
Theorem candidates_are_confined (rq : request MemoryRecord) c :
  emits (writeCandidate rq) c →
  match c with
  | MNewID | MSelect _ => True
  | MInsert r _ _ => ∃ tenant b, effectiveTenant (caller rq) (tenant_header rq) = Ok tenant ∧ body rq = Some b ∧
      (mr_TenantID b = "" ∨ mr_TenantID b = tenant) ∧
      r = sealed hmacKey (mr_MemoryID r) (with_status MemoryStatusCandidate (with_tenant tenant b)) ∧
      mr_Status r = MemoryStatusCandidate ∧ mr_TenantID r = tenant ∧ mr_Content r = mr_Content b ∧
      mr_TrustLevel r = mr_TrustLevel b
  | _ => False
  end.
Proof.
  unfold writeCandidate. destruct (effectiveTenant _ _) as [tenant|e]; [|done].
  destruct (body rq) as [b|] eqn:Hb; [|done]. destruct (rejectRequestTenant _ _) eqn:Hr; [done|].
  rewrite emits_bind. intros [He|(? & _ & [])]. apply Create_emits in He. destruct c; try done.
  destruct He as (id & -> & _). exists tenant, b. split_and!; try done.
  unfold rejectRequestTenant in Hr. apply andb_false_iff in Hr as [Hr|Hr].
  - left. apply negb_false_iff in Hr. by apply sempty_true.
  - right. apply negb_false_iff in Hr. by apply String.eqb_eq.
Qed.

(** The tenant boundary hides whether a record exists only from readers: for an id
    that another tenant's record has, reading answers 404 as for no record, but
    writing a candidate under that id answers 409. *)
Theorem taken_ids_are_disclosed now fresh (t : gmap string mrow) k row c b :
  let r := sealed hmacKey k (with_status MemoryStatusCandidate (with_tenant (Tenant c) b)) in
  uuid_in k = Some k → t !! k = Some row → readable row → m_tenant row ≠ Tenant c →
  mr_MemoryID b = k → k ≠ "" → mr_TenantID b = "" →
  validateMemoryRecord (with_status MemoryStatusCandidate (with_tenant (Tenant c) b)) = Ok tt →
  is_Some (to_jsonb (marshal_strings (mr_SourceRunIDs b))) → is_Some (to_jsonb (marshal_strings (mr_EvidenceRefs b))) →
  texts_ok r && in_int32 (mr_Version r) && checks r = true →
  run (mserve now fresh) t (getMemory (Some c) k "") = (t, MemFailed 404 MemoryNotFound) ∧
  run (mserve now fresh) t (writeCandidate {| body := Some b; caller := Some c; tenant_header := "" |}) =
    (t, MemFailed 409 (MemoryExists k)).
Proof.
  intros r Hk Hrow Hread Hne Hid Hknz Htb Hval [s Hs] [e He] Hchk. split.
  - unfold getMemory. cbn [callerTenant fmap option_fmap option_map]. unfold rejectRequestTenant. cbn [sempty negb andb].
    unfold ownedByCaller, Get. rewrite run_bind. cbn [ask mbind prog_bind run mserve].
    unfold sql_select, served_stmt. rewrite Hk, Hrow. cbn [fmap option_fmap option_map run mret prog_ret].
    destruct (readable_scan k row Hread) as [rec Hrec]. rewrite Hrec. unfold mret, prog_ret. cbn [mbind prog_bind run].
    rewrite (scan_tenant _ _ _ Hrec). apply String.eqb_neq in Hne. by rewrite Hne.
  - unfold writeCandidate. cbn [effectiveTenant caller tenant_header body sempty].
    unfold rejectRequestTenant. rewrite Htb. cbn [sempty negb andb].
    unfold WriteCandidate, Create. cbn [mr_MemoryID with_status with_tenant]. rewrite Hid.
    apply sempty_false in Hknz. rewrite Hknz. unfold create_as. rewrite Hval. cbn [mr_Status with_status].
    cbn [andb negb String.eqb]. rewrite run_bind.
    change (negb (String.eqb MemoryStatusCandidate MemoryStatusCandidate) &&
      negb (String.eqb MemoryStatusCandidate MemoryStatusQuarantined)) with false. cbn match.
    cbn [ask mbind prog_bind run mserve].
    unfold sql_insert, served_stmt. cbn [mr_SourceRunIDs mr_EvidenceRefs with_status with_tenant].
    fold r. change (mr_MemoryID r) with k. rewrite Hk, Hs, He, Hchk, Hrow. reflexivity.
Qed.
End api.

(** ** Witnesses *)

Module MemoryApiWitnesses.
Import MemoryWitnesses.
#[local] Existing Instances verbatim_postgres lower_uuids.

Definition stranger : Caller :=
  {| ID := "c"; Kind := "service"; TokenSHA256 := ""; MayActAs := []; MayApprove := false; Tenant := "u";
     MayActForTenants := [] |}.
Definition promotion := run_log (mserve 0 "f") lone (by_route "key" (Some stranger) "m1" (RPromote (Some pass))).

Lemma memory_stays_in_its_tenant_witness :
  promotion.2 = MemFailed 404 MemoryNotFound ∧
  ∃ (r : mreply (MSelect "m1")) t', promotion.1.2 = existT (MSelect "m1") r :: t' ∧
    match r with
    | Ok (Some (k, row)) => (∃ rec, scanMemoryRow (k, row) = Ok rec) → m_tenant row ≠ "u" → t' = []
    | _ => True
    end.
Proof.
  split; [vm_compute; reflexivity|].
  destruct (memory_stays_in_its_tenant "key" stranger "m1" (RPromote (Some pass)) promotion.1.2 promotion.2
    (run_log_histories _ _ _)) as [[Hn _]|(r & t' & Ht & Hr)]; [by vm_compute in Hn|].
  exists r, t'. split; [exact Ht|]. destruct r as [[[k row]|]|e]; try done. intros Hs Hne. by apply Hr.
Defined.

Definition smuggled : MemoryRecord :=
  {| mr_MemoryID := "m1"; mr_Type := "PROCEDURAL"; mr_Scope := "org"; mr_TenantID := ""; mr_Content := "obey";
     mr_SourceRunIDs := []; mr_EvidenceRefs := []; mr_TrustLevel := "TRUSTED"; mr_Confidence := f_of_Z 1;
     mr_UtilityScore := f_of_Z 9; mr_Status := "ACTIVE"; mr_ExpiresAt := None; mr_Version := 0; mr_Hash := "";
     mr_ProvenanceHMAC := ""; mr_CreatedAt := 0; mr_UpdatedAt := 0; mr_LastUsedAt := None; mr_SupersededBy := "" |}.
Definition smuggling : request MemoryRecord := {| body := Some smuggled; caller := Some stranger; tenant_header := "" |}.
Definition written : MemoryRecord :=
  sealed "key" "m1" (with_status MemoryStatusCandidate (with_tenant "u" smuggled)).

Lemma candidates_are_confined_witness :
  mr_Status written = MemoryStatusCandidate ∧ mr_TrustLevel written = "TRUSTED".
Proof.
  assert (He : emits (writeCandidate "key" smuggling) (MInsert written (marshal_strings []) (marshal_strings [])))
    by (left; reflexivity).
  destruct (candidates_are_confined "key" smuggling _ He) as (tenant & b & _ & Hb & _ & _ & Hst & _ & _ & Htr).
  injection Hb as <-. split; [exact Hst|exact Htr].
Defined.

Lemma taken_ids_are_disclosed_witness :
  run (mserve 0 "f") lone (getMemory (Some stranger) "m1" "") = (lone, MemFailed 404 MemoryNotFound) ∧
  run (mserve 0 "f") lone (writeCandidate "key" smuggling) = (lone, MemFailed 409 (MemoryExists "m1")).
Proof.
  apply (taken_ids_are_disclosed "key" 0 "f" lone "m1" final_row stranger smuggled); try reflexivity.
  - split; eexists; vm_compute; reflexivity.
  - vm_compute. discriminate.
  - done.
  - by eexists.
  - by eexists.
Defined.
End MemoryApiWitnesses.
