(* ===== verification/Decode.v ===== *)
(** * encoding/json into structs

    How json.Unmarshal fills the structs the program reads vendors' answers with: a
    decoder takes the value so far and a document, and yields the new value, or
    nothing when a type does not fit (decoding then goes on, but its result is an
    error). A member selects the field of its exact name, else the folded one; a
    member given twice is decoded into what the first left; null leaves a plain
    field alone and clears a pointer or a slice. *)

From S2P Require Import Prelude GoValue Json Numbers.

Local Open Scope string_scope.
Set Default Proof Using "Type*".

Definition decoder (A : Type) : Type := A → json → option A.

Definition dec_string : decoder string := λ cur j,
  match j with JString s => Some s | JNull => Some cur | _ => None end.
(** An [int]: a literal that is no integer of 64 bits does not fit. *)
Definition dec_int : decoder Z := λ cur j,
  match j with JNumber lit => ParseInt lit | JNull => Some cur | _ => None end.
(** A pointer, decoded into a fresh zero value unless it already points to one. *)
Definition dec_ptr {A} (zero : A) (d : decoder A) : decoder (option A) := λ cur j,
  match j with JNull => Some None | _ => Some <$> d (default zero cur) j end.

(** The elements of an array, the first of them into those the slice already has. *)
Fixpoint dec_elems {A} (zero : A) (d : decoder A) (cur : list A) (l : list json) : option (list A) :=
  match l with
  | [] => Some []
  | j :: l => x ← d (default zero (head cur)) j; xs ← dec_elems zero d (tail cur) l; Some (x :: xs)
  end.
Definition dec_slice {A} (zero : A) (d : decoder A) : decoder (list A) := λ cur j,
  match j with JArray l => dec_elems zero d cur l | JNull => Some [] | _ => None end.

(** A struct: its field names, and what a member does to each. *)
Fixpoint dec_members {A} (names : list string) (field : string → decoder A) (cur : A) (members : list (string * json))
  : option A :=
  match members with
  | [] => Some cur
  | (k, v) :: members =>
      match field_of names k with
      | Some n => cur ← field n cur v; dec_members names field cur members
      | None => dec_members names field cur members
      end
  end.
Definition dec_struct {A} (names : list string) (field : string → decoder A) : decoder A := λ cur j,
  match j with JObject members => dec_members names field cur members | JNull => Some cur | _ => None end.

(** A field of a struct, given how to read and write it. *)
Definition dec_at {A B} (get : A → B) (set : A → B → A) (d : decoder B) : decoder A := λ cur j,
  b ← d (get cur) j; Some (set cur b).

(** A struct of integer counters, each a pointer. *)
Definition dec_count : decoder (option Z) := dec_ptr 0%Z dec_int.

(** ** What a decoder does not see *)

(** Members under other names do not count. *)
Lemma dec_members_unknown {A} names (field : string → decoder A) cur before k v after :
  field_of names k = None →
  dec_members names field cur (before ++ (k, v) :: after) = dec_members names field cur (before ++ after).
Proof.
  intros Hk. revert cur. induction before as [|[k' v'] before IH]; intros cur; simpl.
  - by rewrite Hk.
  - destruct (field_of names k') as [n|]; [|apply IH]. destruct (field n cur v'); [apply IH|done].
Qed.

Lemma dec_members_app {A} names (field : string → decoder A) cur l k :
  dec_members names field cur (l ++ k) =
  (cur' ← dec_members names field cur l; dec_members names field cur' k).
Proof.
  revert cur. induction l as [|[n v] l IH]; intros cur; [done|]. simpl.
  destruct (field_of names n) as [f|]; [|apply IH]. destruct (field f cur v); [apply IH|done].
Qed.

(** An array yields as many elements as it holds. *)
Lemma dec_elems_length {A} (zero : A) d cur l xs : dec_elems zero d cur l = Some xs → length xs = length l.
Proof.
  revert cur xs. induction l as [|j l IH]; intros cur xs; simpl; [by intros [= <-]|].
  destruct (d _ j) as [x|]; [|done]. simpl. destruct (dec_elems zero d (tail cur) l) as [ys|] eqn:Hys; [|done].
  intros [= <-]. simpl. f_equal. by eapply IH.
Qed.
