(* ===== verification/Vendors.v ===== *)
(** * Package providers: what the vendors' adapters send and read

    go/internal/providers/upstream_error.go, openai/openai.go, anthropic/anthropic.go,
    gemini/gemini.go and the plain half of openai_compatible/openai_compatible.go: the
    request each builds of a rendered context, the struct it decodes the answer into,
    and the normalized response or the error it makes of that. An adapter makes one
    call, whose reply is arbitrary: a transport error, a body that could not be read,
    or a status and the text of the body. *)

From stdpp Require Import pretty.
From S2P Require Import Prelude GoValue Json Numbers Program Providers Decode.

Local Open Scope string_scope.
Set Default Proof Using "Type*".

(** [strings.TrimRight(s, "/")]. *)
Definition trim_slashes (s : string) : string :=
  str_rev ((fix go (s : string) : string :=
    match s with String c r => if byte_is 47 c then go r else s | EmptyString => EmptyString end) (str_rev s)).

(** Everything after the last slash of a text without trailing ones. *)
Definition lastSegment (uri : string) : string :=
  let trimmed := trim_slashes uri in
  match last_index (Ascii.ascii_of_nat 47) trimmed with
  | Some i => drop_str (S i) trimmed
  | None => trimmed
  end.

(** ** Errors of a vendor *)

Record upstreamEnvelope := {
  ue_Type : string;
  ue_Title : string;
  ue_RequestID : string;
  ue_TraceID : string;
  ue_ErrorType : string;
  ue_ErrorCode : option json;     (** any value but null *)
  ue_ErrorParam : string;
}.
Definition no_envelope : upstreamEnvelope :=
  {| ue_Type := ""; ue_Title := ""; ue_RequestID := ""; ue_TraceID := ""; ue_ErrorType := "";
     ue_ErrorCode := None; ue_ErrorParam := "" |}.

Definition dec_any : decoder (option json) := λ _ j, Some (match j with JNull => None | _ => Some j end).

Definition dec_error_object : decoder upstreamEnvelope :=
  dec_struct ["type"; "code"; "param"] (λ n,
    match n with
    | "type" => dec_at ue_ErrorType (λ e s,
        {| ue_Type := ue_Type e; ue_Title := ue_Title e; ue_RequestID := ue_RequestID e; ue_TraceID := ue_TraceID e;
           ue_ErrorType := s; ue_ErrorCode := ue_ErrorCode e; ue_ErrorParam := ue_ErrorParam e |}) dec_string
    | "code" => dec_at ue_ErrorCode (λ e c,
        {| ue_Type := ue_Type e; ue_Title := ue_Title e; ue_RequestID := ue_RequestID e; ue_TraceID := ue_TraceID e;
           ue_ErrorType := ue_ErrorType e; ue_ErrorCode := c; ue_ErrorParam := ue_ErrorParam e |}) dec_any
    | _ => dec_at ue_ErrorParam (λ e s,
        {| ue_Type := ue_Type e; ue_Title := ue_Title e; ue_RequestID := ue_RequestID e; ue_TraceID := ue_TraceID e;
           ue_ErrorType := ue_ErrorType e; ue_ErrorCode := ue_ErrorCode e; ue_ErrorParam := s |}) dec_string
    end).
Definition dec_envelope : decoder upstreamEnvelope :=
  dec_struct ["type"; "title"; "request_id"; "trace_id"; "error"] (λ n,
    match n with
    | "type" => dec_at ue_Type (λ e s,
        {| ue_Type := s; ue_Title := ue_Title e; ue_RequestID := ue_RequestID e; ue_TraceID := ue_TraceID e;
           ue_ErrorType := ue_ErrorType e; ue_ErrorCode := ue_ErrorCode e; ue_ErrorParam := ue_ErrorParam e |}) dec_string
    | "title" => dec_at ue_Title (λ e s,
        {| ue_Type := ue_Type e; ue_Title := s; ue_RequestID := ue_RequestID e; ue_TraceID := ue_TraceID e;
           ue_ErrorType := ue_ErrorType e; ue_ErrorCode := ue_ErrorCode e; ue_ErrorParam := ue_ErrorParam e |}) dec_string
    | "request_id" => dec_at ue_RequestID (λ e s,
        {| ue_Type := ue_Type e; ue_Title := ue_Title e; ue_RequestID := s; ue_TraceID := ue_TraceID e;
           ue_ErrorType := ue_ErrorType e; ue_ErrorCode := ue_ErrorCode e; ue_ErrorParam := ue_ErrorParam e |}) dec_string
    | "trace_id" => dec_at ue_TraceID (λ e s,
        {| ue_Type := ue_Type e; ue_Title := ue_Title e; ue_RequestID := ue_RequestID e; ue_TraceID := s;
           ue_ErrorType := ue_ErrorType e; ue_ErrorCode := ue_ErrorCode e; ue_ErrorParam := ue_ErrorParam e |}) dec_string
    | _ => dec_error_object
    end).

(** The standard library's text formats: the document a text denotes, or the offset
    of its syntax error; the offset and the text of other decoding failures; the Go
    value of a document and [%v] of it; json.Marshal of a map; and why net/http
    refuses a URL. *)
Class Wire := {
  json_parse : string → result Z json;
  type_offset : string → Z;
  decode_failure : string → string;
  any_of : json → any;
  print_any : json → string;
  marshal_request : gomap → result string json;
  bad_url : string → option string;
}.

Section errors.
Context {Wire0 : Wire}.

Definition decode {A} (d : decoder A) (zero : A) (text : string) : option A :=
  match json_parse text with Ok j => d zero j | Err _ => None end.

Definition labelled (label value : string) : list string :=
  if sempty value then [] else [label +:+ "=" +:+ value].

Definition describeUpstreamBody (body : string) : string :=
  let size := pretty (Z.of_nat (slen body)) +:+ " bytes" in
  match decode dec_envelope no_envelope body with
  | None => str_join ", " [size; "body is not JSON"]
  | Some env =>
      let parts := (labelled "type" (lastSegment (ue_Type env)) ++ labelled "title" (ue_Title env) ++
        labelled "error.type" (ue_ErrorType env) ++
        match ue_ErrorCode env with Some c => ["error.code=" +:+ print_any c] | None => [] end ++
        labelled "error.param" (ue_ErrorParam env) ++ labelled "request_id" (ue_RequestID env) ++
        labelled "trace_id" (ue_TraceID env))%list in
      str_join ", " (size :: match parts with [] => ["no machine-readable fields in the body"] | _ => parts end)
  end.

(** A body that was refused for what it says is described by its class, never its text. *)
Definition UpstreamError (provider : string) (status : Z) (body : string) : string :=
  provider +:+ ": status " +:+ pretty status +:+ " (" +:+ describeUpstreamBody body +:+ ")".

(** ** One exchange over HTTP *)

Record http_request := {
  rq_URL : string;
  rq_Headers : list (string * string);
  rq_Body : json;
}.
Inductive call : Type := Do (r : http_request) | ReadAll.
(** The status of the answer, or what kept it from coming; then its body. *)
Definition reply (c : call) : Type :=
  match c with Do _ => result string Z | ReadAll => result string string end.

Definition plain_error (text : string) : perr := {| err_text := text; ThrottleOf := None |}.

Definition send (who url : string) (headers : list (string * string)) (body : result string json)
  : prog reply (result perr Z) :=
  match body with
  | Err e => mret (Err (plain_error (who +:+ ": encoding request: " +:+ e)))
  | Ok body =>
      match bad_url url with
      | Some e => mret (Err (plain_error (who +:+ ": building request: " +:+ e)))
      | None =>
          r ← ask (R := reply) (Do {| rq_URL := url; rq_Headers := headers; rq_Body := body |});
          mret (match r with
                | Ok status => Ok status
                | Err e => Err (plain_error (who +:+ ": request failed: " +:+ e))
                end)
      end
  end.

(** The whole exchange: [refused] describes any status but 200, [accepted] reads
    the body of a 200. *)
Definition exchange (who url : string) (headers : list (string * string)) (body : result string json)
    (refused : Z → string → string) (accepted : string → result string (gmap string any))
  : prog reply (result perr (gmap string any)) :=
  sent ← send who url headers body;
  match sent with
  | Err e => mret (Err e)
  | Ok status =>
      r ← ask (R := reply) ReadAll;
      mret (match r with
            | Err e => Err (plain_error (who +:+ ": reading response: " +:+ e))
            | Ok body =>
                if negb (status =? 200)%Z then Err (plain_error (refused status body)) else
                match accepted body with
                | Ok m => Ok m
                | Err e => Err (plain_error (who +:+ ": " +:+ e))
                end
            end)
  end.

(** The [error] object three of the vendors send, decoded with its type errors
    ignored: a member of another type is skipped. *)
Definition lenient_string (cur : string) (j : json) : string := match j with JString s => s | _ => cur end.
Definition lenient_error (kind : string) (cur : string * string) (j : json) : string * string :=
  match j with
  | JObject members =>
      foldl (λ c m, match field_of [kind; "message"] m.1 with
                    | Some n => if String.eqb n "message" then (c.1, lenient_string c.2 m.2)
                                else (lenient_string c.1 m.2, c.2)
                    | None => c
                    end) cur members
  | _ => cur
  end.
Definition api_error (kind body : string) : string * string :=
  match json_parse body with
  | Ok (JObject members) =>
      foldl (λ c m, match field_of ["error"] m.1 with Some _ => lenient_error kind c m.2 | None => c end)
        ("", "") members
  | _ => ("", "")
  end.
Definition refused_with_message (who kind : string) (status : Z) (body : string) : string :=
  let '(k, message) := api_error kind body in
  if negb (sempty message) then who +:+ ": status " +:+ pretty status +:+ ": " +:+ k +:+ ": " +:+ message
  else UpstreamError who status body.

(** Decoding the body of a 200; the text of a failure is encoding/json's own. *)
Definition decoded {A} (d : decoder A) (zero : A) (body : string) : result string A :=
  match decode d zero body with
  | Some a => Ok a
  | None => Err ("decoding response: " +:+ decode_failure body)
  end.

(** What is said of arguments that do not decode. *)
Definition describeJSONFailure (raw : string) (f : ArgumentsFailure) : string :=
  "providers: tool call arguments are not a JSON object (" +:+ pretty (Z.of_nat (slen raw)) +:+
  match f with
  | MalformedAt offset => " bytes, malformed JSON at byte " +:+ pretty offset
  | NotAnObject type => " bytes, well-formed JSON but a " +:+ type +:+ " and not an object, at byte " +:+
                        pretty (type_offset raw)
  end +:+ ") — refusing to substitute an empty object, which would run the tool with no arguments and report success".
Definition call_from_wire (id name raw : string) : ToolCall :=
  ToolCallFromWire json_parse any_of describeJSONFailure id name raw.
End errors.

(** A message as a JSON object of strings; json.Marshal repairs what is not UTF-8. *)
Definition jstring (s : string) : json := JString (to_valid_utf8 s).
Definition content_type : string * string := ("Content-Type", "application/json").

(** A chat message of a rendered context: its role and its text, empty unless they
    are strings; anything but an object is skipped. *)
Definition chat_messages (renderedContext : gmap string any) : list (string * string) :=
  omap (λ raw, m ← as_map_opt raw; Some (as_string (mget m "role"), as_string (mget m "content")))
    (as_list (mget renderedContext "messages")).
(** The loop over them: the last system text, and the others in order. *)
Definition split_system {A} (keep : string * string → A) (messages : list (string * string))
  : option string * list A :=
  foldl (λ st m, if String.eqb m.1 "system" then (Some m.2, st.2) else (st.1, (st.2 ++ [keep m])%list))
    (None, []) messages.

(** ** openai *)

Module openai.
Record openAIChoice := { oc_Index : Z; oc_FinishReason : string; oc_Role : string; oc_Content : string }.
Definition no_choice : openAIChoice := {| oc_Index := 0; oc_FinishReason := ""; oc_Role := ""; oc_Content := "" |}.
Record openAIResponse := {
  or_ID : string;
  or_Model : string;
  or_Choices : list openAIChoice;
  or_PromptTokens : option Z;
  or_CompletionTokens : option Z;
}.
Definition no_response : openAIResponse :=
  {| or_ID := ""; or_Model := ""; or_Choices := []; or_PromptTokens := None; or_CompletionTokens := None |}.

Definition dec_message : decoder openAIChoice :=
  dec_struct ["role"; "content"] (λ m,
    match m with
    | "role" => dec_at oc_Role (λ c s,
        {| oc_Index := oc_Index c; oc_FinishReason := oc_FinishReason c; oc_Role := s; oc_Content := oc_Content c |}) dec_string
    | _ => dec_at oc_Content (λ c s,
        {| oc_Index := oc_Index c; oc_FinishReason := oc_FinishReason c; oc_Role := oc_Role c; oc_Content := s |}) dec_string
    end).
Definition dec_choice : decoder openAIChoice :=
  dec_struct ["index"; "finish_reason"; "message"] (λ n,
    match n with
    | "index" => dec_at oc_Index (λ c z,
        {| oc_Index := z; oc_FinishReason := oc_FinishReason c; oc_Role := oc_Role c; oc_Content := oc_Content c |}) dec_int
    | "finish_reason" => dec_at oc_FinishReason (λ c s,
        {| oc_Index := oc_Index c; oc_FinishReason := s; oc_Role := oc_Role c; oc_Content := oc_Content c |}) dec_string
    | _ => dec_message
    end).
Definition dec_usage : decoder openAIResponse :=
  dec_struct ["prompt_tokens"; "completion_tokens"] (λ m,
    match m with
    | "prompt_tokens" => dec_at or_PromptTokens (λ r z,
        {| or_ID := or_ID r; or_Model := or_Model r; or_Choices := or_Choices r; or_PromptTokens := z;
           or_CompletionTokens := or_CompletionTokens r |}) dec_count
    | _ => dec_at or_CompletionTokens (λ r z,
        {| or_ID := or_ID r; or_Model := or_Model r; or_Choices := or_Choices r;
           or_PromptTokens := or_PromptTokens r; or_CompletionTokens := z |}) dec_count
    end).
Definition dec_response : decoder openAIResponse :=
  dec_struct ["id"; "model"; "choices"; "usage"] (λ n,
    match n with
    | "id" => dec_at or_ID (λ r s,
        {| or_ID := s; or_Model := or_Model r; or_Choices := or_Choices r; or_PromptTokens := or_PromptTokens r;
           or_CompletionTokens := or_CompletionTokens r |}) dec_string
    | "model" => dec_at or_Model (λ r s,
        {| or_ID := or_ID r; or_Model := s; or_Choices := or_Choices r; or_PromptTokens := or_PromptTokens r;
           or_CompletionTokens := or_CompletionTokens r |}) dec_string
    | "choices" => dec_at or_Choices (λ r l,
        {| or_ID := or_ID r; or_Model := or_Model r; or_Choices := l; or_PromptTokens := or_PromptTokens r;
           or_CompletionTokens := or_CompletionTokens r |}) (dec_slice no_choice dec_choice)
    | _ => dec_usage
    end).

Record Adapter := { APIKey : string; BaseURL : string }.
Definition baseURL (a : Adapter) : string := if sempty (BaseURL a) then "https://api.openai.com" else BaseURL a.

Section openai.
Context {Wire0 : Wire}.
Definition accepted (body : string) : result string (gmap string any) :=
  parsed ← decoded dec_response no_response body;
  match or_Choices parsed with
  | [] => Err "response had no choices"
  | choice :: _ => Ok (NormalizedChatResponse (or_Model parsed) (oc_Content choice) (oc_FinishReason choice)
                         (or_PromptTokens parsed) (or_CompletionTokens parsed))
  end.
Definition Decide (a : Adapter) (renderedContext : gomap) : prog reply (result perr (gmap string any)) :=
  exchange "openai" (trim_slashes (baseURL a) +:+ "/v1/chat/completions")
    [content_type; ("Authorization", "Bearer " +:+ APIKey a)] (marshal_request renderedContext)
    (refused_with_message "openai" "type") accepted.
End openai.
End openai.

(** ** anthropic *)

Module anthropic.
Record anthropicResponse := {
  ar_ID : string;
  ar_Model : string;
  ar_Content : list (string * string);      (** the type and the text of each block *)
  ar_StopReason : string;
  InputTokens : option Z;
  OutputTokens : option Z;
  CacheReadInputTokens : option Z;
  CacheCreationInputTokens : option Z;
}.
Definition no_response : anthropicResponse :=
  {| ar_ID := ""; ar_Model := ""; ar_Content := []; ar_StopReason := ""; InputTokens := None;
     OutputTokens := None; CacheReadInputTokens := None; CacheCreationInputTokens := None |}.

Definition dec_block : decoder (string * string) :=
  dec_struct ["type"; "text"] (λ n,
    match n with
    | "type" => dec_at fst (λ b s, (s, b.2)) dec_string
    | _ => dec_at snd (λ b s, (b.1, s)) dec_string
    end).
Definition with_tokens (r : anthropicResponse) (i o cr cc : option Z) : anthropicResponse :=
  {| ar_ID := ar_ID r; ar_Model := ar_Model r; ar_Content := ar_Content r; ar_StopReason := ar_StopReason r;
     InputTokens := i; OutputTokens := o; CacheReadInputTokens := cr; CacheCreationInputTokens := cc |}.
Definition with_head (r : anthropicResponse) (id model stop : string) (content : list (string * string))
  : anthropicResponse :=
  {| ar_ID := id; ar_Model := model; ar_Content := content; ar_StopReason := stop;
     InputTokens := InputTokens r; OutputTokens := OutputTokens r;
     CacheReadInputTokens := CacheReadInputTokens r; CacheCreationInputTokens := CacheCreationInputTokens r |}.
Definition dec_usage : decoder anthropicResponse :=
  dec_struct ["input_tokens"; "output_tokens"; "cache_read_input_tokens"; "cache_creation_input_tokens"] (λ n,
    match n with
    | "input_tokens" => dec_at InputTokens (λ r z,
        with_tokens r z (OutputTokens r) (CacheReadInputTokens r) (CacheCreationInputTokens r)) dec_count
    | "output_tokens" => dec_at OutputTokens (λ r z,
        with_tokens r (InputTokens r) z (CacheReadInputTokens r) (CacheCreationInputTokens r)) dec_count
    | "cache_read_input_tokens" => dec_at CacheReadInputTokens (λ r z,
        with_tokens r (InputTokens r) (OutputTokens r) z (CacheCreationInputTokens r)) dec_count
    | _ => dec_at CacheCreationInputTokens (λ r z,
        with_tokens r (InputTokens r) (OutputTokens r) (CacheReadInputTokens r) z) dec_count
    end).
Definition dec_response : decoder anthropicResponse :=
  dec_struct ["id"; "model"; "content"; "stop_reason"; "usage"] (λ n,
    match n with
    | "id" => dec_at ar_ID (λ r s, with_head r s (ar_Model r) (ar_StopReason r) (ar_Content r)) dec_string
    | "model" => dec_at ar_Model (λ r s, with_head r (ar_ID r) s (ar_StopReason r) (ar_Content r)) dec_string
    | "content" => dec_at ar_Content (λ r l, with_head r (ar_ID r) (ar_Model r) (ar_StopReason r) l)
                     (dec_slice ("", "") dec_block)
    | "stop_reason" => dec_at ar_StopReason (λ r s, with_head r (ar_ID r) (ar_Model r) s (ar_Content r)) dec_string
    | _ => dec_usage
    end).

Definition anthropicUsage (parsed : anthropicResponse) : Usage :=
  {| PromptTokens :=
       match InputTokens parsed, CacheReadInputTokens parsed with
       | Some i, Some c => Some (wrap64 (i + c))
       | i, _ => i
       end;
     CompletionTokens := OutputTokens parsed;
     CacheReadTokens := CacheReadInputTokens parsed;
     CacheWriteTokens := CacheCreationInputTokens parsed;
     ReasoningTokens := None; Estimated := None |}.

Record Adapter := { APIKey : string; BaseURL : string; Version : string }.
Definition baseURL (a : Adapter) : string := if sempty (BaseURL a) then "https://api.anthropic.com" else BaseURL a.
Definition version (a : Adapter) : string := if sempty (Version a) then "2023-06-01" else Version a.

Definition defaultMaxTokens : Z := 1024.
Record anthropicRequest := {
  rq_Model : string;
  rq_MaxTokens : Z;
  rq_Messages : list (string * string);
  rq_System : string;
}.
(** The request a context becomes. Only a Go int is read as [max_tokens]. *)
Definition request_of (renderedContext : gmap string any) : anthropicRequest :=
  let '(system, messages) := split_system (λ m, m) (chat_messages renderedContext) in
  {| rq_Model := as_string (mget renderedContext "model");
     rq_MaxTokens := match mget renderedContext "max_tokens" with
                     | AInt v => if (0 <? v)%Z then v else defaultMaxTokens
                     | _ => defaultMaxTokens
                     end;
     rq_Messages := messages; rq_System := default "" system |}.
Definition marshal (r : anthropicRequest) : json :=
  JObject ([("model", jstring (rq_Model r)); ("max_tokens", JNumber (pretty (rq_MaxTokens r)));
            ("messages", JArray ((λ m, JObject [("role", jstring m.1); ("content", jstring m.2)]) <$> rq_Messages r))] ++
           (if sempty (rq_System r) then [] else [("system", jstring (rq_System r))]))%list.

Section anthropic.
Context {Wire0 : Wire}.
Definition accepted (body : string) : result string (gmap string any) :=
  parsed ← decoded dec_response no_response body;
  let text := foldl (λ text block, if String.eqb block.1 "text" then text +:+ block.2 else text) "" (ar_Content parsed) in
  Ok (NormalizedChatResponseWithUsage (ar_Model parsed) text (ar_StopReason parsed) (anthropicUsage parsed)).
Definition Decide (a : Adapter) (renderedContext : gomap) : prog reply (result perr (gmap string any)) :=
  exchange "anthropic" (trim_slashes (baseURL a) +:+ "/v1/messages")
    [content_type; ("x-api-key", APIKey a); ("anthropic-version", version a)]
    (Ok (marshal (request_of (items renderedContext)))) (refused_with_message "anthropic" "type") accepted.
End anthropic.
End anthropic.

(** ** gemini *)

(** [url.PathEscape]: what a path segment may hold as it is, and [%XX] for the rest. *)
Definition path_plain (c : Ascii.ascii) : bool :=
  is_lower c || is_upper c || is_digit c ||
  existsb (λ n, byte_is n c) [45; 95; 46; 126; 36; 38; 43; 58; 61; 64].
Definition upper_hex (n : nat) : Ascii.ascii := Ascii.ascii_of_nat (if Nat.ltb n 10 then 48 + n else 55 + n)%nat.
Fixpoint PathEscape (s : string) : string :=
  match s with
  | EmptyString => EmptyString
  | String c s =>
      if path_plain c then String c (PathEscape s)
      else String (Ascii.ascii_of_nat 37)
             (String (upper_hex (Nat.div (Ascii.nat_of_ascii c) 16))
                (String (upper_hex (Nat.modulo (Ascii.nat_of_ascii c) 16)) (PathEscape s)))
  end.

Module gemini.
Record geminiContent := { gc_Role : string; gc_Parts : list string }.
Definition no_content : geminiContent := {| gc_Role := ""; gc_Parts := [] |}.
Record geminiResponse := {
  gr_Candidates : list (geminiContent * string);      (** its content and its finish reason *)
  PromptTokenCount : option Z;
  CandidatesTokenCount : option Z;
}.
Definition no_response : geminiResponse :=
  {| gr_Candidates := []; PromptTokenCount := None; CandidatesTokenCount := None |}.

Definition dec_content : decoder geminiContent :=
  dec_struct ["role"; "parts"] (λ n,
    match n with
    | "role" => dec_at gc_Role (λ c s, {| gc_Role := s; gc_Parts := gc_Parts c |}) dec_string
    | _ => dec_at gc_Parts (λ c l, {| gc_Role := gc_Role c; gc_Parts := l |})
             (dec_slice "" (dec_struct ["text"] (λ _, dec_string)))
    end).
Definition dec_candidate : decoder (geminiContent * string) :=
  dec_struct ["content"; "finishReason"] (λ n,
    match n with
    | "content" => dec_at fst (λ c x, (x, c.2)) dec_content
    | _ => dec_at snd (λ c s, (c.1, s)) dec_string
    end).
Definition dec_metadata : decoder geminiResponse :=
  dec_struct ["promptTokenCount"; "candidatesTokenCount"] (λ m,
    match m with
    | "promptTokenCount" => dec_at PromptTokenCount (λ r z,
        {| gr_Candidates := gr_Candidates r; PromptTokenCount := z;
           CandidatesTokenCount := CandidatesTokenCount r |}) dec_count
    | _ => dec_at CandidatesTokenCount (λ r z,
        {| gr_Candidates := gr_Candidates r; PromptTokenCount := PromptTokenCount r;
           CandidatesTokenCount := z |}) dec_count
    end).
Definition dec_response : decoder geminiResponse :=
  dec_struct ["candidates"; "usageMetadata"] (λ n,
    match n with
    | "candidates" => dec_at gr_Candidates (λ r l,
        {| gr_Candidates := l; PromptTokenCount := PromptTokenCount r;
           CandidatesTokenCount := CandidatesTokenCount r |}) (dec_slice (no_content, "") dec_candidate)
    | _ => dec_metadata
    end).

Definition roleToGemini (role : string) : string := if String.eqb role "assistant" then "model" else role.

Record geminiRequest := { rq_Contents : list geminiContent; rq_SystemInstruction : option geminiContent }.
Definition request_of (renderedContext : gmap string any) : geminiRequest :=
  let '(system, contents) :=
    split_system (λ m, {| gc_Role := roleToGemini m.1; gc_Parts := [m.2] |}) (chat_messages renderedContext) in
  {| rq_Contents := contents; rq_SystemInstruction := (λ text, {| gc_Role := ""; gc_Parts := [text] |}) <$> system |}.
Definition marshal_content (c : geminiContent) : json :=
  JObject ((if sempty (gc_Role c) then [] else [("role", jstring (gc_Role c))]) ++
           [("parts", JArray ((λ text, JObject [("text", jstring text)]) <$> gc_Parts c))])%list.
Definition marshal (r : geminiRequest) : json :=
  JObject (("contents", JArray (marshal_content <$> rq_Contents r)) ::
           match rq_SystemInstruction r with Some c => [("systemInstruction", marshal_content c)] | None => [] end).

Record Adapter := { APIKey : string; BaseURL : string }.
Definition baseURL (a : Adapter) : string :=
  if sempty (BaseURL a) then "https://generativelanguage.googleapis.com" else BaseURL a.
Definition endpoint (a : Adapter) (model : string) : string :=
  trim_slashes (baseURL a) +:+ "/v1beta/models/" +:+ PathEscape model +:+ ":generateContent".

Section gemini.
Context {Wire0 : Wire}.
Definition accepted (model body : string) : result string (gmap string any) :=
  parsed ← decoded dec_response no_response body;
  match gr_Candidates parsed with
  | [] => Err "response had no candidates"
  | (content, finishReason) :: _ =>
      let text := foldl (λ text part, text +:+ part) "" (gc_Parts content) in
      Ok (NormalizedChatResponse model text finishReason (PromptTokenCount parsed) (CandidatesTokenCount parsed))
  end.
Definition Decide (a : Adapter) (renderedContext : gomap) : prog reply (result perr (gmap string any)) :=
  let model := as_string (mget (items renderedContext) "model") in
  exchange "gemini" (endpoint a model) [content_type; ("x-goog-api-key", APIKey a)]
    (Ok (marshal (request_of (items renderedContext)))) (refused_with_message "gemini" "status") (accepted model).
End gemini.
End gemini.

(** ** What an exchange can end in *)

Section exchanges.
Context {Wire0 : Wire}.

(** An answer is normalized only from a body that arrived whole under status 200,
    after one request; everything else is an error, and no second request follows. *)
Lemma exchange_history who url headers body refused accepted t (res : result perr (gmap string any)) :
  histories (exchange who url headers body refused accepted) t res →
  (∃ e, t = [] ∧ res = Err e ∧ ((∃ e', body = Err e') ∨ is_Some (bad_url url))) ∨
  ∃ doc, body = Ok doc ∧
    let rq := {| rq_URL := url; rq_Headers := headers; rq_Body := doc |} in
    (∃ e, t = [existT (Do rq) (Err e)] ∧ res = Err (plain_error (who +:+ ": request failed: " +:+ e))) ∨
    (∃ status got, t = [existT (Do rq) (Ok status); existT ReadAll got] ∧
       (is_ok res = true →
        status = 200%Z ∧ ∃ text m, got = Ok text ∧ accepted text = Ok m ∧ res = Ok m) ∧
       (∀ text, got = Ok text → status ≠ 200%Z → res = Err (plain_error (refused status text)))).
Proof.
  unfold exchange. intros (sent & t1 & t2 & -> & H1 & H2)%histories_bind. unfold send in H1.
  destruct body as [doc|e]; [|destruct H1 as [-> ->], H2 as [-> ->]; naive_solver].
  destruct (bad_url url) as [e|] eqn:Hbad.
  { destruct H1 as [-> ->], H2 as [-> ->]. left. eexists. split_and!; eauto. }
  right. exists doc. split; [done|]. destruct H1 as (r & t' & -> & -> & ->).
  destruct r as [status|e]; [|destruct H2 as [-> ->]; naive_solver]. right.
  destruct H2 as (got & t' & -> & -> & ->). exists status, got. split; [done|].
  destruct got as [text|e]; [|naive_solver].
  destruct (Z.eqb_spec status 200) as [->|Hs]; simpl; [|naive_solver].
  destruct (accepted text) eqn:Ha; naive_solver.
Qed.

(** *** Errors *)

(** What is said of a refused body depends on its length and the class of the error. *)
Lemma describe_envelope body body' :
  slen body = slen body' → decode dec_envelope no_envelope body = decode dec_envelope no_envelope body' →
  describeUpstreamBody body = describeUpstreamBody body'.
Proof. unfold describeUpstreamBody. by intros -> ->. Qed.
End exchanges.

(** ** Requests *)

Lemma split_system_fold {A} (keep : string * string → A) messages system kept :
  foldl (λ st m, if String.eqb m.1 "system" then (Some m.2, st.2) else (st.1, (st.2 ++ [keep m])%list))
    (system, kept) messages =
  (match last (filter (λ m, m.1 = "system") messages) with Some m => Some m.2 | None => system end,
   (kept ++ (keep <$> filter (λ m, m.1 ≠ "system") messages))%list).
Proof.
  revert system kept. induction messages as [|m messages IH]; intros system kept; simpl.
  { by rewrite app_nil_r. }
  rewrite !filter_cons. destruct (String.eqb_spec m.1 "system") as [Hm|Hm]; rewrite IH.
  - rewrite (decide_True _ _ Hm), (decide_False (P := m.1 ≠ "system")) by tauto. rewrite last_cons.
    by destruct (last _).
  - rewrite (decide_False (P := m.1 = "system")) by done. rewrite decide_True by done. simpl.
    by rewrite <-app_assoc.
Qed.

(** The system text is the last one given; the other messages keep their order. *)
Lemma split_system_spec {A} (keep : string * string → A) messages :
  split_system keep messages =
  (snd <$> last (filter (λ m, m.1 = "system") messages), keep <$> filter (λ m, m.1 ≠ "system") messages).
Proof. unfold split_system. rewrite split_system_fold. simpl. by destruct (last _). Qed.

(** A path segment is never left: what is escaped holds no separator. *)
Definition separator (c : Ascii.ascii) : bool := existsb (λ n, byte_is n c) [47; 63; 35; 59; 44; 32].

Lemma PathEscape_segment s : str_all (λ c, negb (separator c)) (PathEscape s) = true.
Proof.
  induction s as [|c s IH]; [done|]. simpl. destruct (path_plain c) eqn:Hc; simpl; rewrite ?IH.
  - destruct c as [[] [] [] [] [] [] [] []]; done.
  - clear Hc. destruct c as [[] [] [] [] [] [] [] []]; vm_compute; done.
Qed.

(** The text a path segment stands for. *)
Definition unhex (c : Ascii.ascii) : nat :=
  let n := Ascii.nat_of_ascii c in if is_digit c then (n - 48)%nat else (n - 55)%nat.
Fixpoint unescape (s : string) : string :=
  match s with
  | String c r =>
      match r with
      | String a (String b r') =>
          if byte_is 37 c then String (Ascii.ascii_of_nat (16 * unhex a + unhex b)) (unescape r')
          else String c (unescape r)
      | _ => String c (unescape r)
      end
  | EmptyString => EmptyString
  end.

Lemma unescape_escape s : unescape (PathEscape s) = s.
Proof.
  induction s as [|c s IH]; [done|]. simpl. destruct (path_plain c) eqn:Hc.
  - assert (byte_is 37 c = false) as Hp by (destruct c as [[] [] [] [] [] [] [] []]; done).
    revert IH. generalize (PathEscape s). intros r IH. destruct r as [|a [|b r]]; cbn [unescape]; rewrite ?Hp; by f_equal.
  - cbn [unescape]. rewrite IH. f_equal. clear. by destruct c as [[] [] [] [] [] [] [] []].
Qed.

(** The model a caller names reaches Gemini inside one segment of the path, and
    whole: whatever its bytes, the escaped name holds no slash, query, fragment,
    parameter or space, and two names never share an endpoint. *)
Theorem gemini_model_keeps_its_segment a model model' :
  (∃ segment, gemini.endpoint a model =
     trim_slashes (gemini.baseURL a) +:+ "/v1beta/models/" +:+ segment +:+ ":generateContent" ∧
     str_all (λ c, negb (separator c)) segment = true) ∧
  (gemini.endpoint a model = gemini.endpoint a model' → model = model').
Proof.
  split; [exists (PathEscape model); split; [done|apply PathEscape_segment]|].
  unfold gemini.endpoint. intros He%str_app_inj_l%str_app_inj_l%str_app_inj_r.
  by rewrite <-(unescape_escape model), He, unescape_escape.
Qed.

(** A conversation is translated for Anthropic without being rearranged: the
    messages sent are exactly those of the context that are no system messages, in
    their order and with their texts; the system prompt is the last system message;
    and the answer is always given a budget, the caller's when it is a positive Go
    int and 1024 otherwise (so a budget that arrived as JSON, hence as a float64, is
    not the caller's). *)
Theorem anthropic_keeps_the_conversation ctx :
  let r := anthropic.request_of ctx in
  anthropic.rq_Messages r = filter (λ m, m.1 ≠ "system") (chat_messages ctx) ∧
  anthropic.rq_System r =
    default "" (snd <$> last (filter (λ m, m.1 = "system") (chat_messages ctx))) ∧
  (0 < anthropic.rq_MaxTokens r)%Z ∧
  (∀ v, (0 < v)%Z → anthropic.rq_MaxTokens (anthropic.request_of (<["max_tokens" := AInt v]> ctx)) = v) ∧
  (∀ f, anthropic.rq_MaxTokens (anthropic.request_of (<["max_tokens" := AFloat f]> ctx)) = 1024%Z).
Proof.
  unfold anthropic.request_of. rewrite split_system_spec, list_fmap_id. simpl. split_and!; try done.
  - destruct (mget ctx "max_tokens"); try done. by destruct (Z.ltb_spec 0 z).
  - intros v Hv. destruct (split_system _ _). simpl. unfold mget. rewrite lookup_insert_eq. simpl.
    by destruct (Z.ltb_spec 0 v); [|lia].
  - intros f. destruct (split_system _ _). simpl. unfold mget. by rewrite lookup_insert_eq.
Qed.

(** The counters Anthropic reports become the shared convention: the prompt's
    tokens include those read from the cache, exactly when both were reported and the
    sum fits; a missing base is never replaced by a part of itself, and a counter that
    was not reported stays unmeasured. *)
Theorem anthropic_prompt_includes_cache r :
  let u := anthropic.anthropicUsage r in
  (∀ i c, anthropic.InputTokens r = Some i → anthropic.CacheReadInputTokens r = Some c →
     (0 ≤ i)%Z → (0 ≤ c)%Z → (i + c ≤ int64_max)%Z →
     PromptTokens u = Some (i + c)%Z ∧ CacheReadTokens u = Some c) ∧
  (anthropic.InputTokens r = None ↔ PromptTokens u = None) ∧
  (anthropic.CacheReadInputTokens r = None → PromptTokens u = anthropic.InputTokens r) ∧
  CompletionTokens u = anthropic.OutputTokens r ∧ CacheReadTokens u = anthropic.CacheReadInputTokens r ∧
  CacheWriteTokens u = anthropic.CacheCreationInputTokens r ∧ Estimated u = None.
Proof.
  simpl. split_and!; try done.
  - intros i c -> -> Hi Hc Hsum. split; [|done]. rewrite wrap64_id; [done|].
    unfold in_int64, int64_min, int64_max in *. apply andb_true_intro. split; apply Z.leb_le; lia.
  - by destruct (anthropic.InputTokens r), (anthropic.CacheReadInputTokens r).
  - intros ->. by destruct (anthropic.InputTokens r).
Qed.

(** The members the description of a refused body is taken from. *)
Definition envelope_names : list string := ["type"; "title"; "request_id"; "trace_id"; "error"].
Definition error_names : list string := ["type"; "code"; "param"].

Lemma dec_envelope_ignores before k v v' after :
  field_of envelope_names k = None →
  dec_envelope no_envelope (JObject (before ++ (k, v) :: after)) =
  dec_envelope no_envelope (JObject (before ++ (k, v') :: after)).
Proof. intros Hk. simpl. by rewrite !dec_members_unknown. Qed.

Lemma dec_error_ignores before k v v' after before' after' :
  field_of error_names k = None →
  dec_envelope no_envelope (JObject (before' ++ ("error", JObject (before ++ (k, v) :: after)) :: after')) =
  dec_envelope no_envelope (JObject (before' ++ ("error", JObject (before ++ (k, v') :: after)) :: after')).
Proof.
  intros Hk. simpl. rewrite !dec_members_app.
  destruct (dec_members _ _ no_envelope before') as [e|]; [|done]. simpl.
  unfold dec_error_object, dec_struct. by rewrite !dec_members_unknown.
Qed.

Section privacy.
Context {Wire0 : Wire}.

(** Two bodies that differ only in free text: a member of no name the description
    reads, at the top (as [detail]) or in the error object (as [message]). *)
Inductive same_class : json → json → Prop :=
| same_detail before k v v' after :
    field_of envelope_names k = None →
    same_class (JObject (before ++ (k, v) :: after)) (JObject (before ++ (k, v') :: after))
| same_message before' before k v v' after after' :
    field_of error_names k = None →
    same_class (JObject (before' ++ ("error", JObject (before ++ (k, v) :: after)) :: after'))
               (JObject (before' ++ ("error", JObject (before ++ (k, v') :: after)) :: after')).

Lemma UpstreamError_same who status body body' j j' :
  slen body = slen body' → json_parse body = Ok j → json_parse body' = Ok j' → same_class j j' →
  UpstreamError who status body = UpstreamError who status body'.
Proof.
  intros Hl Hj Hj' Hs. unfold UpstreamError. do 4 f_equal. f_equal. apply describe_envelope; [done|].
  unfold decode. rewrite Hj, Hj'. destruct Hs; [by apply dec_envelope_ignores|by apply dec_error_ignores].
Qed.
End privacy.

Section answers.
Context {Wire0 : Wire}.

(** One request, answered 200 with a whole body that was accepted. *)
Definition answered (url : string) (headers : list (string * string)) (accepted : string → result string (gmap string any))
    (t : list {c : call & reply c}) (m : gmap string any) : Prop :=
  ∃ doc text, bad_url url = None ∧ accepted text = Ok m ∧
    t = [existT (Do {| rq_URL := url; rq_Headers := headers; rq_Body := doc |}) (Ok 200%Z);
         existT ReadAll (Ok text)].

Lemma exchange_answered who url headers body refused accepted t m :
  histories (exchange who url headers body refused accepted) t (Ok m) → answered url headers accepted t m.
Proof.
  intros Hh. destruct (bad_url url) as [e|] eqn:Hbad.
  { unfold exchange in Hh. apply histories_bind in Hh as (sent & t1 & t2 & -> & H1 & H2).
    unfold send in H1. rewrite Hbad in H1. destruct body; destruct H1 as [-> ->]; by destruct H2. }
  apply exchange_history in Hh as [(e & _ & ? & _)|(doc & -> & [(e & _ & ?)|(status & got & -> & Hok & _)])]; try done.
  destruct (Hok eq_refl) as (-> & text & m' & -> & Ha & [= ->]). by exists doc, text.
Qed.

(** A server that answers everything with one status and one body. *)
Definition server (status : Z) (body : string) (w : ()) (c : call) : () * reply c :=
  (w, match c return reply c with Do _ => Ok status | ReadAll => Ok body end).

Lemma run_exchange who url headers body refused accepted status text :
  (run (server status text) () (exchange who url headers body refused accepted)).2 =
  match body with
  | Err e => Err (plain_error (who +:+ ": encoding request: " +:+ e))
  | Ok _ =>
      match bad_url url with
      | Some e => Err (plain_error (who +:+ ": building request: " +:+ e))
      | None =>
          if negb (status =? 200)%Z then Err (plain_error (refused status text))
          else match accepted text with Ok m => Ok m | Err e => Err (plain_error (who +:+ ": " +:+ e)) end
      end
  end.
Proof.
  unfold exchange. rewrite run_bind. unfold send. destruct body as [doc|]; [|done].
  by destruct (bad_url url).
Qed.
End answers.
