(* ===== verification/CompatAdapter.v ===== *)
(** * Package openaicompatible: one whole answer

    go/internal/providers/openai_compatible/openai_compatible.go: the structs a
    server's answer is decoded into, which accounting wins, the finish reasons, and
    the call. The streamed answers of CompatStream share the counters. *)

From stdpp Require Import pretty.
From S2P Require Import Prelude GoValue Json Program Providers Decode Vendors.

Local Open Scope string_scope.
Set Default Proof Using "Type*".

(** ** The wire *)

Record openAICompatibleUsage := {
  us_PromptTokens : option Z;
  us_CompletionTokens : option Z;
  us_ReasoningTokens : option Z;
  us_CachedTokens : option Z;
}.
Definition zero_usage : openAICompatibleUsage :=
  {| us_PromptTokens := None; us_CompletionTokens := None; us_ReasoningTokens := None; us_CachedTokens := None |}.
Definition dec_usage : decoder openAICompatibleUsage :=
  dec_struct ["prompt_tokens"; "completion_tokens"; "completion_tokens_details"; "prompt_tokens_details"] (λ n,
    match n with
    | "prompt_tokens" => dec_at us_PromptTokens (λ u z,
        {| us_PromptTokens := z; us_CompletionTokens := us_CompletionTokens u;
           us_ReasoningTokens := us_ReasoningTokens u; us_CachedTokens := us_CachedTokens u |}) dec_count
    | "completion_tokens" => dec_at us_CompletionTokens (λ u z,
        {| us_PromptTokens := us_PromptTokens u; us_CompletionTokens := z;
           us_ReasoningTokens := us_ReasoningTokens u; us_CachedTokens := us_CachedTokens u |}) dec_count
    | "completion_tokens_details" => dec_struct ["reasoning_tokens"] (λ _, dec_at us_ReasoningTokens (λ u z,
        {| us_PromptTokens := us_PromptTokens u; us_CompletionTokens := us_CompletionTokens u;
           us_ReasoningTokens := z; us_CachedTokens := us_CachedTokens u |}) dec_count)
    | _ => dec_struct ["cached_tokens"] (λ _, dec_at us_CachedTokens (λ u z,
        {| us_PromptTokens := us_PromptTokens u; us_CompletionTokens := us_CompletionTokens u;
           us_ReasoningTokens := us_ReasoningTokens u; us_CachedTokens := z |}) dec_count)
    end).

(** llama.cpp's own accounting. *)
Record timings := { CacheN : option Z; PromptN : option Z; PredictedN : option Z }.
Definition zero_timings : timings := {| CacheN := None; PromptN := None; PredictedN := None |}.
Definition dec_timings : decoder timings :=
  dec_struct ["cache_n"; "prompt_n"; "predicted_n"] (λ n,
    match n with
    | "cache_n" => dec_at CacheN (λ t z, {| CacheN := z; PromptN := PromptN t; PredictedN := PredictedN t |}) dec_count
    | "prompt_n" => dec_at PromptN (λ t z, {| CacheN := CacheN t; PromptN := z; PredictedN := PredictedN t |}) dec_count
    | _ => dec_at PredictedN (λ t z, {| CacheN := CacheN t; PromptN := PromptN t; PredictedN := z |}) dec_count
    end).

(** A tool call of a message: its id, its type, its function's name and arguments. *)
Record wire_call := { wc_ID : string; wc_Type : string; wc_Name : string; wc_Arguments : string }.
Definition zero_call : wire_call := {| wc_ID := ""; wc_Type := ""; wc_Name := ""; wc_Arguments := "" |}.
Definition dec_call : decoder wire_call :=
  dec_struct ["id"; "type"; "function"] (λ n,
    match n with
    | "id" => dec_at wc_ID (λ c s,
        {| wc_ID := s; wc_Type := wc_Type c; wc_Name := wc_Name c; wc_Arguments := wc_Arguments c |}) dec_string
    | "type" => dec_at wc_Type (λ c s,
        {| wc_ID := wc_ID c; wc_Type := s; wc_Name := wc_Name c; wc_Arguments := wc_Arguments c |}) dec_string
    | _ => dec_struct ["name"; "arguments"] (λ m,
        match m with
        | "name" => dec_at wc_Name (λ c s,
            {| wc_ID := wc_ID c; wc_Type := wc_Type c; wc_Name := s; wc_Arguments := wc_Arguments c |}) dec_string
        | _ => dec_at wc_Arguments (λ c s,
            {| wc_ID := wc_ID c; wc_Type := wc_Type c; wc_Name := wc_Name c; wc_Arguments := s |}) dec_string
        end)
    end).

Record openAICompatibleChoice := {
  oc_Index : Z;
  oc_FinishReason : string;
  oc_Role : string;
  oc_Content : string;
  oc_ReasoningContent : string;
  oc_ToolCalls : list wire_call;
}.
Definition zero_choice : openAICompatibleChoice :=
  {| oc_Index := 0; oc_FinishReason := ""; oc_Role := ""; oc_Content := ""; oc_ReasoningContent := "";
     oc_ToolCalls := [] |}.
Definition with_message (c : openAICompatibleChoice) (role content reasoning : string) (calls : list wire_call) :=
  {| oc_Index := oc_Index c; oc_FinishReason := oc_FinishReason c; oc_Role := role; oc_Content := content;
     oc_ReasoningContent := reasoning; oc_ToolCalls := calls |}.
Definition dec_message : decoder openAICompatibleChoice :=
  dec_struct ["role"; "content"; "reasoning_content"; "tool_calls"] (λ n,
    match n with
    | "role" => dec_at oc_Role (λ c s,
        with_message c s (oc_Content c) (oc_ReasoningContent c) (oc_ToolCalls c)) dec_string
    | "content" => dec_at oc_Content (λ c s,
        with_message c (oc_Role c) s (oc_ReasoningContent c) (oc_ToolCalls c)) dec_string
    | "reasoning_content" => dec_at oc_ReasoningContent (λ c s,
        with_message c (oc_Role c) (oc_Content c) s (oc_ToolCalls c)) dec_string
    | _ => dec_at oc_ToolCalls (λ c l,
        with_message c (oc_Role c) (oc_Content c) (oc_ReasoningContent c) l) (dec_slice zero_call dec_call)
    end).
Definition dec_choice : decoder openAICompatibleChoice :=
  dec_struct ["index"; "finish_reason"; "message"] (λ n,
    match n with
    | "index" => dec_at oc_Index (λ c z,
        {| oc_Index := z; oc_FinishReason := oc_FinishReason c; oc_Role := oc_Role c; oc_Content := oc_Content c;
           oc_ReasoningContent := oc_ReasoningContent c; oc_ToolCalls := oc_ToolCalls c |}) dec_int
    | "finish_reason" => dec_at oc_FinishReason (λ c s,
        {| oc_Index := oc_Index c; oc_FinishReason := s; oc_Role := oc_Role c; oc_Content := oc_Content c;
           oc_ReasoningContent := oc_ReasoningContent c; oc_ToolCalls := oc_ToolCalls c |}) dec_string
    | _ => dec_message
    end).

Record openAICompatibleResponse := {
  or_ID : string;
  or_Model : string;
  or_Choices : list openAICompatibleChoice;
  or_Usage : option openAICompatibleUsage;
  or_Timings : option timings;
}.
Definition zero_response : openAICompatibleResponse :=
  {| or_ID := ""; or_Model := ""; or_Choices := []; or_Usage := None; or_Timings := None |}.
Definition dec_response : decoder openAICompatibleResponse :=
  dec_struct ["id"; "model"; "choices"; "usage"; "timings"] (λ n,
    match n with
    | "id" => dec_at or_ID (λ r s,
        {| or_ID := s; or_Model := or_Model r; or_Choices := or_Choices r; or_Usage := or_Usage r;
           or_Timings := or_Timings r |}) dec_string
    | "model" => dec_at or_Model (λ r s,
        {| or_ID := or_ID r; or_Model := s; or_Choices := or_Choices r; or_Usage := or_Usage r;
           or_Timings := or_Timings r |}) dec_string
    | "choices" => dec_at or_Choices (λ r l,
        {| or_ID := or_ID r; or_Model := or_Model r; or_Choices := l; or_Usage := or_Usage r;
           or_Timings := or_Timings r |}) (dec_slice zero_choice dec_choice)
    | "usage" => dec_at or_Usage (λ r u,
        {| or_ID := or_ID r; or_Model := or_Model r; or_Choices := or_Choices r; or_Usage := u;
           or_Timings := or_Timings r |}) (dec_ptr zero_usage dec_usage)
    | _ => dec_at or_Timings (λ r t,
        {| or_ID := or_ID r; or_Model := or_Model r; or_Choices := or_Choices r; or_Usage := or_Usage r;
           or_Timings := t |}) (dec_ptr zero_timings dec_timings)
    end).

(** ** Which accounting wins *)

Definition reported (u : openAICompatibleUsage) : Usage :=
  ReportedUsage {| PromptTokens := us_PromptTokens u; CompletionTokens := us_CompletionTokens u;
                   CacheReadTokens := us_CachedTokens u; CacheWriteTokens := None;
                   ReasoningTokens := us_ReasoningTokens u; Estimated := None |}.
(** The prompt is what was read plus what was cached, each zero when absent. *)
Definition derived (t : timings) : Usage :=
  DerivedUsage {| PromptTokens :=
                    match PromptN t, CacheN t with
                    | None, None => None
                    | p, c => Some (wrap64 (default 0%Z p + default 0%Z c))
                    end;
                  CompletionTokens := PredictedN t; CacheReadTokens := CacheN t; CacheWriteTokens := None;
                  ReasoningTokens := None; Estimated := None |}.

Definition usage (r : openAICompatibleResponse) : Usage :=
  match or_Usage r, or_Timings r with
  | Some u, _ => reported u
  | None, None => ReportedUsage no_usage
  | None, Some t => derived t
  end.

(** The counters come from one source, and [estimated] says which: a usage object
    wins whatever the timings say, and nothing at all is measured as nothing. *)
Lemma usage_source r :
  Estimated (usage r) = Some (bool_decide (or_Usage r = None ∧ or_Timings r ≠ None)) ∧
  (or_Usage r = None → or_Timings r = None → with_estimated (usage r) true = DerivedUsage no_usage).
Proof. unfold usage. destruct (or_Usage r), (or_Timings r); simpl; naive_solver. Qed.

(** ** The call *)

Definition known_reasons : list string := ["stop"; "length"; "tool_calls"; "content_filter"].
Definition NormalizeFinishReason (reason : string) : string :=
  if bool_decide (reason ∈ known_reasons) then reason else "stop".

Lemma NormalizeFinishReason_known reason : NormalizeFinishReason reason ∈ known_reasons.
Proof. unfold NormalizeFinishReason. case_bool_decide; [done|]. unfold known_reasons. set_solver. Qed.

Record Adapter := { APIKey : string; BaseURL : string }.
Definition completions_url (a : Adapter) : string := trim_slashes (BaseURL a) +:+ "/v1/chat/completions".
(** A key is sent only when one is configured. *)
Definition authorization (a : Adapter) : list (string * string) :=
  if sempty (APIKey a) then [] else [("Authorization", "Bearer " +:+ APIKey a)].
Definition no_base_url : string := "openai_compatible: BaseURL is required (no default for a self-hosted server)".

Section adapter.
Context {Wire0 : Wire}.

Definition call_of (tc : wire_call) : ToolCall := call_from_wire (wc_ID tc) (wc_Name tc) (wc_Arguments tc).

Definition accepted (marshal_text : gmap string any → option string) (body : string) : result string (gmap string any) :=
  parsed ← decoded dec_response zero_response body;
  match or_Choices parsed with
  | [] => Err "response had no choices"
  | choice :: _ =>
      Ok (NormalizedChatResponseFrom marshal_text
            {| cr_ProviderRequestID := ""; cr_IdempotentReplayOf := ""; cr_ServedByInstance := "";
               cr_Model := or_Model parsed; cr_Content := oc_Content choice;
               cr_FinishReason := NormalizeFinishReason (oc_FinishReason choice);
               cr_ReasoningContent := oc_ReasoningContent choice; cr_ReasoningSignature := "";
               cr_ToolCalls := call_of <$> oc_ToolCalls choice; cr_Usage := usage parsed |})
  end.

Definition Decide (marshal_text : gmap string any → option string) (a : Adapter) (renderedContext : gomap)
  : prog reply (result perr (gmap string any)) :=
  if sempty (BaseURL a) then mret (Err (plain_error no_base_url)) else
  exchange "openai_compatible" (completions_url a) (content_type :: authorization a)
    (marshal_request renderedContext) (UpstreamError "openai_compatible") (accepted marshal_text).
End adapter.

(** ** What comes of an exchange *)

Section exchanges.
Context {Wire0 : Wire}.
Context (marshal_text : gmap string any → option string).

(** Whatever a vendor does, each adapter returns a normalized answer only from one
    request to its own endpoint that was answered 200 with a whole body its decoder
    accepted; it sends no second request, and a self-hosted server that was not
    configured is sent none. *)
Theorem answers_come_from_200 :
  (∀ a ctx t m, histories (openai.Decide a ctx) t (Ok m) →
     answered (trim_slashes (openai.baseURL a) +:+ "/v1/chat/completions")
       [content_type; ("Authorization", "Bearer " +:+ openai.APIKey a)] openai.accepted t m) ∧
  (∀ a ctx t m, histories (anthropic.Decide a ctx) t (Ok m) →
     answered (trim_slashes (anthropic.baseURL a) +:+ "/v1/messages")
       [content_type; ("x-api-key", anthropic.APIKey a); ("anthropic-version", anthropic.version a)]
       anthropic.accepted t m) ∧
  (∀ a ctx t m, histories (gemini.Decide a ctx) t (Ok m) →
     let model := as_string (mget (items ctx) "model") in
     answered (gemini.endpoint a model) [content_type; ("x-goog-api-key", gemini.APIKey a)] (gemini.accepted model) t m) ∧
  (∀ a ctx t m, histories (Decide marshal_text a ctx) t (Ok m) → BaseURL a ≠ "" ∧
     answered (completions_url a) (content_type :: authorization a) (accepted marshal_text) t m).
Proof.
  split_and!; intros a ctx t m Hh; try by eapply exchange_answered.
  unfold Decide in Hh. destruct (sempty (BaseURL a)) eqn:Hb; [by destruct Hh|].
  split; [by apply sempty_false|]. by eapply exchange_answered.
Qed.

(** A self-hosted server's refusal is never quoted: the error the adapter makes of
    a status other than 200 is the same for any two bodies of one length that differ
    in their free text, a [detail], a [message] or any other member the description
    does not name. *)
Theorem refused_body_is_not_quoted a ctx status body body' j j' :
  status ≠ 200%Z → slen body = slen body' →
  json_parse body = Ok j → json_parse body' = Ok j' → same_class j j' →
  (run (server status body) () (Decide marshal_text a ctx)).2 =
  (run (server status body') () (Decide marshal_text a ctx)).2.
Proof.
  intros Hs Hl Hj Hj' Hc. unfold Decide. destruct (sempty (BaseURL a)); [done|].
  rewrite !run_exchange. destruct (marshal_request ctx); [|done]. destruct (bad_url _); [done|].
  rewrite (proj2 (Z.eqb_neq _ _) Hs). simpl. do 2 f_equal. by eapply UpstreamError_same.
Qed.

(** The adapters of the hosted vendors do quote it. *)
Lemma openai_quotes_the_refusal a ctx doc status body kind message :
  marshal_request ctx = Ok doc → bad_url (trim_slashes (openai.baseURL a) +:+ "/v1/chat/completions") = None →
  status ≠ 200%Z →
  json_parse body = Ok (JObject [("error", JObject [("type", JString kind); ("message", JString message)])]) →
  message ≠ "" →
  (run (server status body) () (openai.Decide a ctx)).2 =
  Err (plain_error ("openai: status " +:+ pretty status +:+ ": " +:+ kind +:+ ": " +:+ message)).
Proof.
  intros Hm Hu Hs Hj Hne. unfold openai.Decide. rewrite run_exchange, Hm, Hu, (proj2 (Z.eqb_neq _ _) Hs). simpl.
  unfold refused_with_message, api_error. rewrite Hj. simpl. apply sempty_false in Hne. by rewrite Hne.
Qed.

(** *** Tool calls *)

Lemma call_of_fields tc : tc_ID (call_of tc) = wc_ID tc ∧ tc_Name (call_of tc) = wc_Name tc.
Proof. unfold call_of, call_from_wire, ToolCallFromWire. by destruct (DecodeToolArguments _ _ _ _). Qed.

Lemma ToolCallFromWire_shaped tc i :
  is_Some (marshal_text ∅) →
  ∃ args, shaped_arguments marshal_text (call_of tc) = Some args ∧
    (wc_Arguments tc ≠ "" → args = wc_Arguments tc) ∧
    (wc_Arguments tc = "" → marshal_text ∅ = Some args) ∧
    shape_from marshal_text i [call_of tc] = [shaped_call i (call_of tc) args].
Proof.
  intros [empty He]. unfold shape_from, shaped_arguments, call_of, call_from_wire, ToolCallFromWire, DecodeToolArguments.
  destruct (sempty (wc_Arguments tc)) eqn:Hr.
  { apply sempty_true in Hr. rewrite Hr. simpl. rewrite He. exists empty. by split_and!. }
  exists (wc_Arguments tc). apply sempty_false in Hr as Hr'.
  destruct (json_parse _) as [[]|]; simpl; rewrite Hr; done.
Qed.

Lemma shape_from_app i (calls calls' : list ToolCall) :
  shape_from marshal_text i (calls ++ calls')%list =
  (shape_from marshal_text i calls ++ shape_from marshal_text (i + length calls)%nat calls')%list.
Proof.
  revert i. induction calls as [|tc calls IH]; intros i; simpl; [by rewrite Nat.add_0_r|].
  rewrite (IH (S i)). replace (S i + length calls)%nat with (i + S (length calls))%nat by lia.
  by destruct (shaped_arguments _ tc).
Qed.

(** No tool call of an answer is lost on the way, malformed or not: the k-th call
    on the wire is the k-th of the normalized message, under its index, id and name,
    with its argument text exactly as it came (and an empty one as the empty
    object), marked when that text does not decode. *)
Theorem no_tool_call_is_lost (calls : list wire_call) k tc :
  is_Some (marshal_text ∅) → calls !! k = Some tc →
  length (openAIShapedToolCalls marshal_text (call_of <$> calls)) = length calls ∧
  ∃ args shaped,
    openAIShapedToolCalls marshal_text (call_of <$> calls) !! k = Some (AMap shaped) ∧
    shaped !! "index" = Some (AInt (Z.of_nat k)) ∧ shaped !! "id" = Some (AString (wc_ID tc)) ∧
    shaped !! "function" = Some (AMap (obj [("name", AString (wc_Name tc)); ("arguments", AString args)])) ∧
    (if sempty (wc_Arguments tc) then marshal_text ∅ = Some args else args = wc_Arguments tc) ∧
    (shaped !! "aeon_arguments_error" = None ↔
     wc_Arguments tc = "" ∨ json_parse (wc_Arguments tc) = Ok JNull ∨
     ∃ fields, json_parse (wc_Arguments tc) = Ok (JObject fields)).
Proof.
  intros He Hk. assert (Hlen : ∀ i l, length (shape_from marshal_text i (call_of <$> l)) = length l).
  { intros i l. revert i. induction l as [|c l IH]; intros i; [done|].
    destruct (ToolCallFromWire_shaped c i He) as (args & Ha & _). simpl. rewrite Ha. simpl. by rewrite IH. }
  split; [apply Hlen|]. apply list_elem_of_split_length in Hk as (before & after & -> & ->).
  destruct (ToolCallFromWire_shaped tc (length before) He) as (args & Ha & Hne & Hem & Hs).
  exists args. eexists. split.
  { unfold openAIShapedToolCalls. rewrite fmap_app, shape_from_app, length_fmap, lookup_app_r by (by rewrite Hlen).
    rewrite Hlen, Nat.sub_diag. simpl. rewrite Ha. simpl. unfold shaped_call. reflexivity. }
  assert (∀ (b : bool) (e : any) (m : gmap string any) key, key ≠ "aeon_arguments_error" →
    (if b then m else <["aeon_arguments_error" := e]> m) !! key = m !! key) as Hother.
  { intros b e m key Hkey. destruct b; [done|]. by rewrite lookup_insert_ne. }
  destruct (call_of_fields tc) as [Hid Hname].
  split_and!; [by rewrite Hother, ?Hid, ?Hname by done..| |].
  - destruct (sempty _) eqn:Hr; [apply sempty_true in Hr|apply sempty_false in Hr]; auto.
  - unfold call_of, call_from_wire, ToolCallFromWire, DecodeToolArguments.
    destruct (sempty (wc_Arguments tc)) eqn:Hr; [apply sempty_true in Hr|apply sempty_false in Hr]; simpl.
    { by split; [left|]. }
    destruct (json_parse _) as [[]|] eqn:Hp; simpl; rewrite ?lookup_insert_eq; try (by split; eauto);
      by split; [|intros [?|[?|[? ?]]]].
Qed.
End exchanges.
