(* ===== verification/CompatStream.v ===== *)
(** * Package openaicompatible: a streamed answer

    go/internal/providers/openai_compatible/streaming.go: the server-sent events a
    server streams, the phases the adapter infers from them, and the events of the
    normalized lifecycle it yields. The body is read line by line; the adapter's
    calls are the request, each scan, the two error checks and each yield, with
    arbitrary replies, and the number of scans is the fuel. *)

From stdpp Require Import pretty.
From S2P Require Import Prelude GoValue Json Program Providers Decode Vendors CompatAdapter.

Local Open Scope string_scope.
Set Default Proof Using "Type*".

Definition sseDataPrefix : string := "data: ".
Definition sseDone : string := "[DONE]".

(** ** The wire *)

(** A fragment of a tool call, correlated by its index. *)
Record fragment := { fr_Index : Z; fr_ID : string; fr_Name : string; fr_Arguments : string }.
Definition zero_fragment : fragment := {| fr_Index := 0; fr_ID := ""; fr_Name := ""; fr_Arguments := "" |}.
Definition dec_fragment : decoder fragment :=
  dec_struct ["index"; "id"; "function"] (λ n,
    match n with
    | "index" => dec_at fr_Index (λ f z,
        {| fr_Index := z; fr_ID := fr_ID f; fr_Name := fr_Name f; fr_Arguments := fr_Arguments f |}) dec_int
    | "id" => dec_at fr_ID (λ f s,
        {| fr_Index := fr_Index f; fr_ID := s; fr_Name := fr_Name f; fr_Arguments := fr_Arguments f |}) dec_string
    | _ => dec_struct ["name"; "arguments"] (λ m,
        match m with
        | "name" => dec_at fr_Name (λ f s,
            {| fr_Index := fr_Index f; fr_ID := fr_ID f; fr_Name := s; fr_Arguments := fr_Arguments f |}) dec_string
        | _ => dec_at fr_Arguments (λ f s,
            {| fr_Index := fr_Index f; fr_ID := fr_ID f; fr_Name := fr_Name f; fr_Arguments := s |}) dec_string
        end)
    end).

Record streamChoice := {
  sc_Index : Z;
  sc_FinishReason : string;
  sc_Content : string;
  sc_ReasoningContent : string;
  sc_ToolCalls : list fragment;
}.
Definition zero_choice : streamChoice :=
  {| sc_Index := 0; sc_FinishReason := ""; sc_Content := ""; sc_ReasoningContent := ""; sc_ToolCalls := [] |}.
Definition with_delta (c : streamChoice) (content reasoning : string) (calls : list fragment) : streamChoice :=
  {| sc_Index := sc_Index c; sc_FinishReason := sc_FinishReason c; sc_Content := content;
     sc_ReasoningContent := reasoning; sc_ToolCalls := calls |}.
Definition dec_delta : decoder streamChoice :=
  dec_struct ["content"; "reasoning_content"; "tool_calls"] (λ n,
    match n with
    | "content" => dec_at sc_Content (λ c s, with_delta c s (sc_ReasoningContent c) (sc_ToolCalls c)) dec_string
    | "reasoning_content" => dec_at sc_ReasoningContent (λ c s,
        with_delta c (sc_Content c) s (sc_ToolCalls c)) dec_string
    | _ => dec_at sc_ToolCalls (λ c l, with_delta c (sc_Content c) (sc_ReasoningContent c) l)
             (dec_slice zero_fragment dec_fragment)
    end).
Definition dec_choice : decoder streamChoice :=
  dec_struct ["index"; "finish_reason"; "delta"] (λ n,
    match n with
    | "index" => dec_at sc_Index (λ c z,
        {| sc_Index := z; sc_FinishReason := sc_FinishReason c; sc_Content := sc_Content c;
           sc_ReasoningContent := sc_ReasoningContent c; sc_ToolCalls := sc_ToolCalls c |}) dec_int
    | "finish_reason" => dec_at sc_FinishReason (λ c s,
        {| sc_Index := sc_Index c; sc_FinishReason := s; sc_Content := sc_Content c;
           sc_ReasoningContent := sc_ReasoningContent c; sc_ToolCalls := sc_ToolCalls c |}) dec_string
    | _ => dec_delta
    end).

(** The usage object and the timings are those of a whole answer. *)
Record streamChunk := {
  st_Model : string;
  st_Choices : list streamChoice;
  st_Usage : option openAICompatibleUsage;
  st_Timings : option timings;
}.
Definition zero_chunk : streamChunk :=
  {| st_Model := ""; st_Choices := []; st_Usage := None; st_Timings := None |}.
Definition dec_chunk : decoder streamChunk :=
  dec_struct ["model"; "choices"; "usage"; "timings"] (λ n,
    match n with
    | "model" => dec_at st_Model (λ c s,
        {| st_Model := s; st_Choices := st_Choices c; st_Usage := st_Usage c; st_Timings := st_Timings c |}) dec_string
    | "choices" => dec_at st_Choices (λ c l,
        {| st_Model := st_Model c; st_Choices := l; st_Usage := st_Usage c; st_Timings := st_Timings c |})
          (dec_slice zero_choice dec_choice)
    | "usage" => dec_at st_Usage (λ c u,
        {| st_Model := st_Model c; st_Choices := st_Choices c; st_Usage := u; st_Timings := st_Timings c |})
          (dec_ptr zero_usage dec_usage)
    | _ => dec_at st_Timings (λ c t,
        {| st_Model := st_Model c; st_Choices := st_Choices c; st_Usage := st_Usage c; st_Timings := t |})
          (dec_ptr zero_timings dec_timings)
    end).

Definition streamUsage (parsed : streamChunk) : option Usage :=
  match st_Usage parsed, st_Timings parsed with
  | Some u, _ => Some (reported u)
  | None, None => None
  | None, Some t => Some (derived t)
  end.

(** The caller's map is copied; the caller's own [stream_options] stay. *)
Definition streamingRequestBody (renderedContext : gmap string any) : gmap string any :=
  let body := <["stream" := ABool true]> renderedContext in
  match body !! "stream_options" with
  | Some _ => body
  | None => <["stream_options" := AMap (obj [("include_usage", ABool true)])]> body
  end.

(** ** Phases *)

Record streamPhases := {
  openText : bool;
  openReasoning : bool;
  openToolCall : Z;                  (** -1 when none *)
  toolArgs : gmap Z string;          (** what each builder holds; no entry is a nil builder *)
  toolNames : gmap Z string;
  toolIDs : gmap Z string;
  order : list Z;
}.
Definition newStreamPhases : streamPhases :=
  {| openText := false; openReasoning := false; openToolCall := -1; toolArgs := ∅; toolNames := ∅;
     toolIDs := ∅; order := [] |}.

Definition set_open (ph : streamPhases) (text reasoning : bool) (call : Z) : streamPhases :=
  {| openText := text; openReasoning := reasoning; openToolCall := call; toolArgs := toolArgs ph;
     toolNames := toolNames ph; toolIDs := toolIDs ph; order := order ph |}.
Definition set_tools (ph : streamPhases) (args names ids : gmap Z string) (ord : list Z) : streamPhases :=
  {| openText := openText ph; openReasoning := openReasoning ph; openToolCall := openToolCall ph;
     toolArgs := args; toolNames := names; toolIDs := ids; order := ord |}.

(** What an operation yields, in order, and its result, none when it panics. Every
    yield is followed by a return of its error, so a refusal cuts the list. *)
Definition emitting (A : Type) : Type := list Chunk * option A.
#[export] Instance emitting_ret : MRet emitting := λ A a, ([], Some a).
#[export] Instance emitting_bind : MBind emitting := λ A B f m,
  match m with
  | (l, Some a) => ((l ++ (f a).1)%list, (f a).2)
  | (l, None) => (l, None)
  end.
Definition say (c : Chunk) : emitting () := ([c], Some ()).
Definition panic {A} : emitting A := ([], None).

(** An event with its model, its index, its deltas and its call. *)
Definition event (name model : string) (index : Z) (text reasoning args : string) (call : option ToolCall) : Chunk :=
  {| Delta := text; ReasoningDelta := reasoning; FinishReason := ""; ch_Model := model; ch_Usage := None;
     Event := name; ToolCallIndex := index; ToolCallDelta := args; ch_ToolCall := call |}.
Definition marker (name model : string) : Chunk := event name model 0 "" "" "" None.

Definition closeText (ph : streamPhases) : emitting streamPhases :=
  if negb (openText ph) then mret ph else
  say (marker "text_end" "");; mret (set_open ph false (openReasoning ph) (openToolCall ph)).
Definition closeReasoning (ph : streamPhases) : emitting streamPhases :=
  if negb (openReasoning ph) then mret ph else
  say (marker "reasoning_end" "");; mret (set_open ph (openText ph) false (openToolCall ph)).

Section stream.
Context {Wire0 : Wire}.

Definition closeToolCall (ph : streamPhases) : emitting streamPhases :=
  if (openToolCall ph <? 0)%Z then mret ph else
  let idx := openToolCall ph in
  let call := call_from_wire (default "" (toolIDs ph !! idx)) (default "" (toolNames ph !! idx))
                (default "" (toolArgs ph !! idx)) in
  say (event "tool_call_end" "" idx "" "" "" (Some call));; mret (set_open ph (openText ph) (openReasoning ph) (-1)).
Definition closeAll (ph : streamPhases) : emitting streamPhases :=
  ph ← closeReasoning ph; ph ← closeText ph; closeToolCall ph.

(** One fragment: opening its call closes the reasoning and the call that was open. *)
Definition open_call (model : string) (idx : Z) (ph : streamPhases) : emitting streamPhases :=
  if (openToolCall ph =? idx)%Z then mret ph else
  ph ← closeToolCall ph;
  let ph := set_open ph (openText ph) (openReasoning ph) idx in
  let ph := match toolArgs ph !! idx with
            | Some _ => ph
            | None => set_tools ph (<[idx := ""]> (toolArgs ph)) (toolNames ph) (toolIDs ph) (order ph ++ [idx])
            end in
  say (event "tool_call_start" model idx "" "" "" None);; mret ph.
Definition record_call (tc : fragment) (ph : streamPhases) : streamPhases :=
  let idx := fr_Index tc in
  set_tools ph (toolArgs ph)
    (if sempty (fr_Name tc) then toolNames ph else <[idx := fr_Name tc]> (toolNames ph))
    (if sempty (fr_ID tc) then toolIDs ph else <[idx := fr_ID tc]> (toolIDs ph)) (order ph).
Definition on_arguments (model : string) (tc : fragment) (ph : streamPhases) : emitting streamPhases :=
  let idx := fr_Index tc in
  if sempty (fr_Arguments tc) then mret ph else
  match toolArgs ph !! idx with
  | None => panic                 (** writing to a nil builder *)
  | Some raw =>
      say (event "tool_call_delta" model idx "" "" (fr_Arguments tc) None);;
      mret (set_tools ph (<[idx := raw +:+ fr_Arguments tc]> (toolArgs ph)) (toolNames ph) (toolIDs ph) (order ph))
  end.
Definition on_fragment (model : string) (ph : streamPhases) (tc : fragment) : emitting streamPhases :=
  ph ← closeReasoning ph;
  ph ← open_call model (fr_Index tc) ph;
  on_arguments model tc (record_call tc ph).

Fixpoint on_fragments (model : string) (ph : streamPhases) (l : list fragment) : emitting streamPhases :=
  match l with
  | [] => mret ph
  | tc :: l => ph ← on_fragment model ph tc; on_fragments model ph l
  end.

Definition on_reasoning (model text : string) (ph : streamPhases) : emitting streamPhases :=
  if sempty text then mret ph else
  (if openReasoning ph then mret () else say (marker "reasoning_start" model));;
  say (event "reasoning_delta" model 0 "" text "" None);;
  mret (set_open ph (openText ph) true (openToolCall ph)).
Definition on_text (model text : string) (ph : streamPhases) : emitting streamPhases :=
  if sempty text then mret ph else
  ph ← closeReasoning ph;
  (if openText ph then mret () else say (marker "text_start" model));;
  say (event "text_delta" model 0 text "" "" None);;
  mret (set_open ph true (openReasoning ph) (openToolCall ph)).

(** ** Reading *)

Record readState := {
  phases : streamPhases;
  finishReason : string;
  sawFinishReason : bool;
  finalUsage : option Usage;
}.
Definition start_state : readState :=
  {| phases := newStreamPhases; finishReason := ""; sawFinishReason := false; finalUsage := None |}.

(** The first choice of a chunk, then its usage. *)
Definition on_choice (model : string) (choice : streamChoice) (st : readState) : emitting readState :=
  ph ← on_reasoning model (sc_ReasoningContent choice) (phases st);
  ph ← on_text model (sc_Content choice) ph;
  ph ← on_fragments model ph (sc_ToolCalls choice);
  mret (if sempty (sc_FinishReason choice)
        then {| phases := ph; finishReason := finishReason st; sawFinishReason := sawFinishReason st;
                finalUsage := finalUsage st |}
        else {| phases := ph; finishReason := NormalizeFinishReason (sc_FinishReason choice);
                sawFinishReason := true; finalUsage := finalUsage st |}).
Definition note_usage (parsed : streamChunk) (st : readState) : readState :=
  {| phases := phases st; finishReason := finishReason st; sawFinishReason := sawFinishReason st;
     finalUsage := match streamUsage parsed with Some u => Some u | None => finalUsage st end |}.
Definition on_chunk (st : readState) (parsed : streamChunk) : emitting readState :=
  match st_Choices parsed with
  | [] => mret (note_usage parsed st)
  | choice :: _ => st ← on_choice (st_Model parsed) choice st; mret (note_usage parsed st)
  end.

(** What a line says. *)
Inductive sse := Ignored | Finished | Payload (text : string).
Definition sse_of (line : string) : sse :=
  let line := trim_space line in
  if sempty line || negb (has_prefix line sseDataPrefix) then Ignored else
  let payload := trim_prefix line sseDataPrefix in
  if bool_decide (payload = sseDone) then Finished else Payload payload.

(** The end of the answer: the phases still open, then finish. *)
Definition finish_chunk (st : readState) : Chunk :=
  {| Delta := ""; ReasoningDelta := "";
     FinishReason := if sawFinishReason st then finishReason st else NormalizeFinishReason "";
     ch_Model := ""; ch_Usage := Some (default (ReportedUsage no_usage) (finalUsage st));
     Event := "finish"; ToolCallIndex := 0; ToolCallDelta := ""; ch_ToolCall := None |}.
Definition on_end (st : readState) : emitting () := closeAll (phases st);; say (finish_chunk st).

(** ** The program *)

Inductive scall : Type := SDo (r : http_request) | SScan | SCtx | SErr | SYield (c : Chunk).
(** The status; the next line, if any; whether the context was cancelled; what ended
    the scanning; and the refusal of a chunk. *)
Definition sreply (c : scall) : Type :=
  match c with
  | SDo _ => result string Z
  | SScan => option string
  | SCtx | SErr | SYield _ => option string
  end.
Inductive ending := Returned (err : option string) | Panicked.

(** Yielding until a chunk is refused. *)
Fixpoint yield_all (l : list Chunk) : prog sreply (option string) :=
  match l with
  | [] => mret None
  | c :: l =>
      err ← ask (R := sreply) (SYield c);
      match err with Some e => mret (Some e) | None => yield_all l end
  end.
Definition play {A} (m : emitting A) : prog sreply (result ending A) :=
  err ← yield_all m.1;
  mret (match err, m.2 with
        | Some e, _ => Err (Returned (Some e))
        | None, Some a => Ok a
        | None, None => Err Panicked
        end).

(** The loop over at most [n] scans; [None] when they are used up. *)
Fixpoint read_loop (n : nat) (st : readState) : prog sreply (option (result ending readState)) :=
  match n with
  | O => mret None
  | S n =>
      line ← ask (R := sreply) SScan;
      match line with
      | None => mret (Some (Ok st))
      | Some line =>
          cancelled ← ask (R := sreply) SCtx;
          match cancelled with
          | Some e => mret (Some (Err (Returned (Some e))))
          | None =>
              match sse_of line with
              | Ignored => read_loop n st
              | Finished => mret (Some (Ok st))
              | Payload payload =>
                  match decode dec_chunk zero_chunk payload with
                  | None => mret (Some (Err (Returned (Some
                      ("openai_compatible: decoding stream chunk: " +:+ decode_failure payload)))))
                  | Some parsed =>
                      r ← play (on_chunk st parsed);
                      match r with Ok st => read_loop n st | Err e => mret (Some (Err e)) end
                  end
              end
          end
      end
  end.

(** What follows the answer's status. *)
Definition read_body (n : nat) : prog sreply (option ending) :=
  r ← play (say (marker "stream_start" ""));
  match r with
  | Err e => mret (Some e)
  | Ok _ =>
      r ← read_loop n start_state;
      match r with
      | None => mret None
      | Some (Err e) => mret (Some e)
      | Some (Ok st) =>
          failed ← ask (R := sreply) SErr;
          match failed with
          | Some e => mret (Some (Returned (Some ("openai_compatible: reading stream: " +:+ e))))
          | None =>
              r ← play (on_end st);
              mret (Some (match r with Ok _ => Returned None | Err e => e end))
          end
      end
  end.

Definition fails (text : string) : option ending := Some (Returned (Some ("openai_compatible: " +:+ text))).
Definition DecideStream (n : nat) (a : Adapter) (renderedContext : gomap) : prog sreply (option ending) :=
  if sempty (BaseURL a) then mret (Some (Returned (Some no_base_url))) else
  match marshal_request (Some (streamingRequestBody (items renderedContext))) with
  | Err e => mret (fails ("encoding request: " +:+ e))
  | Ok doc =>
      match bad_url (completions_url a) with
      | Some e => mret (fails ("building request: " +:+ e))
      | None =>
          r ← ask (R := sreply) (SDo {| rq_URL := completions_url a;
                rq_Headers := content_type :: ("Accept", "text/event-stream") :: authorization a; rq_Body := doc |});
          match r with
          | Err e => mret (fails ("request failed: " +:+ e))
          | Ok status =>
              if negb (status =? 200)%Z then mret (fails ("status " +:+ pretty status)) else read_body n
          end
      end
  end.

(** ** What a run yields *)

Definition yields (t : list {c : scall & sreply c}) : list Chunk :=
  omap (λ x, match projT1 x with SYield c => Some c | _ => None end) t.
Definition scanned (t : list {c : scall & sreply c}) : list string :=
  omap (λ x : {c : scall & sreply c}, match x with
                | existT SScan r => r
                | _ => None
                end) t.

(** The chunks that lines carry, up to the sentinel or the first that does not decode. *)
Fixpoint received (lines : list string) : list streamChunk :=
  match lines with
  | [] => []
  | line :: lines =>
      match sse_of line with
      | Ignored => received lines
      | Finished => []
      | Payload payload =>
          match decode dec_chunk zero_chunk payload with
          | Some parsed => parsed :: received lines
          | None => []
          end
      end
  end.

Fixpoint on_chunks (st : readState) (l : list streamChunk) : emitting readState :=
  match l with
  | [] => mret st
  | parsed :: l => st ← on_chunk st parsed; on_chunks st l
  end.
(** All that a list of chunks makes the adapter yield. *)
Definition script (l : list streamChunk) : emitting () :=
  say (marker "stream_start" "");; st ← on_chunks start_state l; on_end st.

Lemma emitting_bind_fst {A B} (m : emitting A) (f : A → emitting B) :
  (m ≫= f).1 = (m.1 ++ match m.2 with Some a => (f a).1 | None => [] end)%list.
Proof. destruct m as [l [a|]]; [done|]. simpl. by rewrite app_nil_r. Qed.
Lemma emitting_bind_snd {A B} (m : emitting A) (f : A → emitting B) :
  (m ≫= f).2 = (a ← m.2; (f a).2).
Proof. by destruct m as [l [a|]]. Qed.

Lemma yield_all_history l t r :
  histories (yield_all l) t r →
  scanned t = [] ∧ yields t `prefix_of` l ∧ (r = None → yields t = l).
Proof.
  revert t. induction l as [|c l IH]; intros t.
  - intros [-> ->]. split_and!; [done|apply prefix_nil|done].
  - intros (e & t' & -> & Ht). destruct e as [e|].
    + destruct Ht as [-> ->]. split_and!; [done|apply prefix_cons, prefix_nil|done].
    + destruct (IH _ Ht) as (Hs & Hp & Hr). unfold yields, scanned in *. simpl.
      split_and!; [done|by apply prefix_cons|]. intros ->. f_equal. by apply Hr.
Qed.

Lemma play_history {A} (m : emitting A) t r :
  histories (play m) t r →
  scanned t = [] ∧ yields t `prefix_of` m.1 ∧
  match r with
  | Ok a => yields t = m.1 ∧ m.2 = Some a
  | Err Panicked => m.2 = None
  | Err (Returned e) => e ≠ None
  end.
Proof.
  intros (e & t1 & t2 & -> & Ht & -> & ->)%histories_bind. rewrite app_nil_r.
  destruct (yield_all_history _ _ _ Ht) as (Hs & Hp & Hr). split; [done|]. split; [done|].
  destruct e as [e|], m.2; auto.
Qed.

Lemma yields_app t t' : yields (t ++ t') = (yields t ++ yields t')%list.
Proof. apply omap_app. Qed.
Lemma scanned_app t t' : scanned (t ++ t') = (scanned t ++ scanned t')%list.
Proof. apply omap_app. Qed.

Lemma received_cons line lines :
  received (line :: lines) =
  match sse_of line with
  | Ignored => received lines
  | Finished => []
  | Payload payload =>
      match decode dec_chunk zero_chunk payload with
      | Some parsed => parsed :: received lines
      | None => []
      end
  end.
Proof. done. Qed.

Lemma on_chunks_cons st parsed l :
  on_chunks st (parsed :: l) = (st ← on_chunk st parsed; on_chunks st l).
Proof. done. Qed.

Lemma read_loop_history n st t r :
  histories (read_loop n st) t r →
  let m := on_chunks st (received (scanned t)) in
  yields t `prefix_of` m.1 ∧
  match r with
  | Some (Ok st') => yields t = m.1 ∧ m.2 = Some st'
  | Some (Err Panicked) => m.2 = None
  | Some (Err (Returned e)) => e ≠ None
  | None => True
  end.
Proof.
  revert st t. induction n as [|n IH]; intros st t; simpl; [intros [-> ->]; split; [apply prefix_nil|done]|].
  intros (line & t1 & -> & Ht). destruct line as [line|]; [|by destruct Ht as [-> ->]].
  destruct Ht as (cancelled & t2 & -> & Ht).
  change (yields _) with (yields t2). change (scanned _) with (line :: scanned t2). rewrite received_cons.
  destruct cancelled as [e|]; [destruct Ht as [-> ->]; split; [apply prefix_nil|done]|].
  destruct (sse_of line) as [| |payload]; [by apply IH|by destruct Ht as [-> ->]|].
  destruct (decode dec_chunk zero_chunk payload) as [parsed|]; [|by destruct Ht as [-> ->]].
  apply histories_bind in Ht as (r1 & u1 & u2 & -> & Hp & Hu).
  destruct (play_history _ _ _ Hp) as (Hs1 & Hy1 & Hr1).
  rewrite on_chunks_cons, yields_app, scanned_app, Hs1, emitting_bind_fst, emitting_bind_snd. simpl.
  destruct r1 as [st1|[e|]].
  - destruct Hr1 as [-> ->]. simpl. destruct (IH _ _ Hu) as [Hpre Hres].
    split; [by apply prefix_app|]. destruct r as [[st'|[e|]]|]; try done. destruct Hres as [-> ->]. done.
  - destruct Hu as [-> ->]. rewrite app_nil_r. split; [|done]. by apply prefix_app_r.
  - destruct Hu as [-> ->]. rewrite app_nil_r, Hr1. split; [|done]. by apply prefix_app_r.
Qed.

Lemma read_body_history n t r :
  histories (read_body n) t r →
  let m := script (received (scanned t)) in
  yields t `prefix_of` m.1 ∧
  match r with
  | Some (Returned None) => yields t = m.1 ∧ m.2 = Some ()
  | Some Panicked => m.2 = None
  | _ => True
  end.
Proof.
  unfold read_body. intros (r0 & t1 & t2 & -> & Hp & Hh)%histories_bind.
  destruct (play_history _ _ _ Hp) as (Hs1 & Hy1 & Hr1). unfold script. cbn zeta.
  rewrite yields_app, scanned_app, Hs1, emitting_bind_fst, emitting_bind_snd. cbn [app say fst snd mbind option_bind].
  destruct r0 as [[]|e].
  2:{ destruct Hh as [-> ->]. rewrite app_nil_r. split; [exact (prefix_app_r _ _ _ Hy1)|]. by destruct e as [[e|]|]. }
  destruct Hr1 as [-> _]. cbn [say fst].
  apply histories_bind in Hh as (r2 & u1 & u2 & -> & Hl & Hh). rewrite yields_app, scanned_app.
  pose proof (read_loop_history _ _ _ _ Hl) as Hloop.
  assert (Hs2 : scanned u2 = []).
  { destruct r2 as [[st|e]|]; [|by destruct Hh as [-> ->]..].
    destruct Hh as (failed & u3 & -> & Hh). destruct failed; [by destruct Hh as [-> ->]|].
    cbn [prog_bind] in Hh. apply histories_bind in Hh as (r3 & v1 & v2 & -> & Hp3 & [-> _]).
    change (scanned _) with (scanned (v1 ++ [])). rewrite app_nil_r. by apply play_history in Hp3 as (? & _). }
  rewrite Hs2, app_nil_r. cbn zeta in Hloop. rewrite emitting_bind_fst, emitting_bind_snd.
  destruct (on_chunks start_state (received (scanned u1))) as [l o]. cbn [fst snd] in *.
  destruct Hloop as [Hpre Hres]. destruct r2 as [[st|e]|].
  - destruct Hres as [-> ->]. cbn [mbind option_bind]. destruct Hh as (failed & u3 & -> & Hh).
    change (yields (existT SErr failed :: u3)) with (yields u3).
    destruct failed as [e|]; [destruct Hh as [-> ->]; split; [|done]; apply prefix_cons, prefix_app, prefix_nil|].
    cbn [prog_bind] in Hh. apply histories_bind in Hh as (r3 & v1 & v2 & -> & Hp3 & [-> ->]). rewrite app_nil_r.
    destruct (play_history _ _ _ Hp3) as (_ & Hy3 & Hr3). split; [by apply prefix_cons, prefix_app|].
    destruct r3 as [[]|[e|]]; [by destruct Hr3 as [-> ->]|by destruct e|done].
  - destruct Hh as [-> ->]. rewrite app_nil_r. split; [apply prefix_cons; by apply prefix_app_r|].
    destruct e as [[e|]|]; [done|by destruct Hres|by rewrite Hres].
  - destruct Hh as [-> ->]. rewrite app_nil_r. split; [apply prefix_cons; by apply prefix_app_r|done].
Qed.

(** Whatever is refused, cancelled or broken, a run yields a first part of the script
    of the chunks it received; the whole of it when it returns no error. *)
Lemma DecideStream_history n a ctx t r :
  histories (DecideStream n a ctx) t r →
  let m := script (received (scanned t)) in
  yields t `prefix_of` m.1 ∧
  match r with
  | Some (Returned None) => yields t = m.1 ∧ m.2 = Some ()
  | Some Panicked => m.2 = None
  | _ => True
  end.
Proof.
  unfold DecideStream, fails. intros Hh. cbn zeta.
  destruct (sempty (BaseURL a)); [destruct Hh as [-> ->]; split; [apply prefix_nil|done]|].
  destruct (marshal_request _) as [doc|e]; [|destruct Hh as [-> ->]; split; [apply prefix_nil|done]].
  destruct (bad_url (completions_url a)) as [e|]; [destruct Hh as [-> ->]; split; [apply prefix_nil|done]|].
  destruct Hh as (status & t0 & -> & Hh). destruct status as [status|e];
    [|destruct Hh as [-> ->]; split; [apply prefix_nil|done]].
  cbn [prog_bind mret prog_ret] in Hh.
  destruct (negb (status =? 200)%Z); [destruct Hh as [-> ->]; split; [apply prefix_nil|done]|].
  by apply read_body_history in Hh.
Qed.

(** ** The lifecycle the contract asks for *)

(** Where a consumer is: what has begun and not ended, and what each call's fragments
    amount to. *)
Record life := {
  lf_started : bool;
  lf_finished : bool;
  lf_text : bool;
  lf_reasoning : bool;
  lf_call : option Z;
  lf_args : gmap Z string;
}.
Definition unborn : life :=
  {| lf_started := false; lf_finished := false; lf_text := false; lf_reasoning := false; lf_call := None; lf_args := ∅ |}.
Definition living (text reasoning : bool) (call : option Z) (args : gmap Z string) : life :=
  {| lf_started := true; lf_finished := false; lf_text := text; lf_reasoning := reasoning; lf_call := call;
     lf_args := args |}.

(** A phase's delta carries something and lies between its start and its end; one call
    is open at a time, and its end carries what its fragments amount to; everything is
    closed before finish, which says why and how much. *)
Definition accept (s : life) (c : Chunk) : option life :=
  let i := ToolCallIndex c in
  if String.eqb (Event c) "stream_start" then
    (if lf_started s then None else Some (living false false None ∅))
  else if negb (lf_started s) || lf_finished s then None else
  match Event c with
  | "text_start" => if lf_text s then None else Some (living true (lf_reasoning s) (lf_call s) (lf_args s))
  | "text_delta" => if lf_text s && negb (sempty (Delta c)) then Some s else None
  | "text_end" => if lf_text s then Some (living false (lf_reasoning s) (lf_call s) (lf_args s)) else None
  | "reasoning_start" => if lf_reasoning s then None else Some (living (lf_text s) true (lf_call s) (lf_args s))
  | "reasoning_delta" => if lf_reasoning s && negb (sempty (ReasoningDelta c)) then Some s else None
  | "reasoning_end" => if lf_reasoning s then Some (living (lf_text s) false (lf_call s) (lf_args s)) else None
  | "tool_call_start" =>
      if bool_decide (lf_call s = None) && negb (lf_reasoning s)
      then Some (living (lf_text s) false (Some i) (<[i := default "" (lf_args s !! i)]> (lf_args s))) else None
  | "tool_call_delta" =>
      if bool_decide (lf_call s = Some i) && negb (sempty (ToolCallDelta c))
      then Some (living (lf_text s) (lf_reasoning s) (Some i)
             (<[i := default "" (lf_args s !! i) +:+ ToolCallDelta c]> (lf_args s))) else None
  | "tool_call_end" =>
      if bool_decide (lf_call s = Some i) &&
         bool_decide (RawArguments <$> ch_ToolCall c = Some (default "" (lf_args s !! i)))
      then Some (living (lf_text s) (lf_reasoning s) None (lf_args s)) else None
  | "finish" =>
      if negb (lf_text s || lf_reasoning s) && bool_decide (lf_call s = None) &&
         bool_decide (FinishReason c ∈ known_reasons ∧ ch_Usage c ≠ None)
      then Some {| lf_started := true; lf_finished := true; lf_text := false; lf_reasoning := false;
                   lf_call := None; lf_args := lf_args s |} else None
  | _ => None
  end.
Fixpoint accept_all (s : life) (l : list Chunk) : option life :=
  match l with
  | [] => Some s
  | c :: l => s ← accept s c; accept_all s l
  end.

Lemma accept_all_app s l k : accept_all s (l ++ k) = (s ← accept_all s l; accept_all s k).
Proof. revert s. induction l as [|c l IH]; intros s; [done|]. simpl. destruct (accept s c); [apply IH|done]. Qed.

(** Where a consumer is when the adapter is in some phases. *)
Definition life_of (ph : streamPhases) : life :=
  living (openText ph) (openReasoning ph) (if (openToolCall ph <? 0)%Z then None else Some (openToolCall ph))
    (toolArgs ph).
(** The open call has its builder. *)
Definition phases_ok (ph : streamPhases) : Prop :=
  (0 ≤ openToolCall ph)%Z → is_Some (toolArgs ph !! openToolCall ph).

(** An operation that yields what a consumer accepts, does not panic, and leaves the
    consumer where a property holds. *)
Definition lively {A} (s : life) (m : emitting A) (Q : A → life → Prop) : Prop :=
  ∃ a s', m.2 = Some a ∧ accept_all s m.1 = Some s' ∧ Q a s'.

Lemma lively_ret {A} s (a : A) (Q : A → life → Prop) : Q a s → lively s (mret a) Q.
Proof. intros HQ. by exists a, s. Qed.
Lemma lively_say {A} s c s' (m : emitting A) (Q : A → life → Prop) :
  accept s c = Some s' → lively s' m Q → lively s (say c;; m) Q.
Proof.
  intros Ha (a & s'' & Hm & Hs & HQ). exists a, s''. change ((say c;; m).2) with m.2.
  change ((say c;; m).1) with (c :: m.1). cbn [accept_all]. by rewrite Ha.
Qed.
Lemma lively_bind {A B} s (m : emitting A) (f : A → emitting B) Q Q' :
  lively s m Q → (∀ a s', Q a s' → lively s' (f a) Q') → lively s (m ≫= f) Q'.
Proof.
  intros (a & s' & Hm & Hs & HQ) Hf. destruct (Hf a s' HQ) as (b & s'' & Hb & Hs' & HQ').
  exists b, s''. rewrite emitting_bind_fst, emitting_bind_snd, Hm. simpl.
  by rewrite accept_all_app, Hs.
Qed.
Lemma lively_mono {A} s (m : emitting A) (Q Q' : A → life → Prop) :
  lively s m Q → (∀ a s', Q a s' → Q' a s') → lively s m Q'.
Proof. intros (a & s' & ? & ? & ?) HQ. exists a, s'. auto. Qed.

(** The operations take phases to phases. *)
Definition to_phases (P : streamPhases → Prop) (ph : streamPhases) (s : life) : Prop :=
  s = life_of ph ∧ phases_ok ph ∧ P ph.

Lemma closeText_lively ph : phases_ok ph →
  lively (life_of ph) (closeText ph)
    (to_phases (λ ph', ph' = set_open ph false (openReasoning ph) (openToolCall ph))).
Proof.
  intros Hok. destruct ph as [t r c args names ids ord]. unfold closeText. cbn [openText].
  destruct t; cbn [negb]; [eapply lively_say; [done|]|]; by apply lively_ret.
Qed.
Lemma closeReasoning_lively ph : phases_ok ph →
  lively (life_of ph) (closeReasoning ph)
    (to_phases (λ ph', ph' = set_open ph (openText ph) false (openToolCall ph))).
Proof.
  intros Hok. destruct ph as [t r c args names ids ord]. unfold closeReasoning. cbn [openReasoning].
  destruct r; cbn [negb]; [eapply lively_say; [done|]|]; by apply lively_ret.
Qed.

Lemma call_from_wire_raw id name raw : RawArguments (call_from_wire id name raw) = raw.
Proof. unfold call_from_wire, ToolCallFromWire. by destruct (DecodeToolArguments _ _ _ _). Qed.

Lemma closeToolCall_lively ph : phases_ok ph →
  lively (life_of ph) (closeToolCall ph)
    (to_phases (λ ph', (openToolCall ph' < 0)%Z ∧ openText ph' = openText ph ∧ openReasoning ph' = openReasoning ph ∧
                       toolArgs ph' = toolArgs ph)).
Proof.
  intros Hok. unfold closeToolCall. destruct (Z.ltb_spec (openToolCall ph) 0) as [Hc|Hc].
  { by apply lively_ret. }
  eapply lively_say.
  - unfold accept. cbn. rewrite (proj2 (Z.ltb_ge _ _) Hc), bool_decide_eq_true_2 by done. cbn [andb].
    rewrite bool_decide_eq_true_2; [done|]. by rewrite call_from_wire_raw.
  - apply lively_ret. split_and!; try done. by intros ?.
Qed.

Lemma open_call_lively model idx ph : phases_ok ph → (0 ≤ idx)%Z → openReasoning ph = false →
  lively (life_of ph) (open_call model idx ph)
    (to_phases (λ ph', openToolCall ph' = idx ∧ openReasoning ph' = false)).
Proof.
  intros Hok Hidx Hr. unfold open_call. destruct (Z.eqb_spec (openToolCall ph) idx) as [<-|Hne].
  { by apply lively_ret. }
  eapply lively_bind; [by apply closeToolCall_lively|].
  intros ph1 s1 (-> & Hok1 & Hc & Ht & Hr1 & Ha). rewrite Hr in Hr1.
  set (ph2 := set_open ph1 _ _ idx).
  eapply (lively_say _ _ (living (openText ph1) false (Some idx)
                            (<[idx := default "" (toolArgs ph1 !! idx)]> (toolArgs ph1)))).
  - unfold accept. cbn. rewrite (proj2 (Z.ltb_lt _ _) Hc), Hr1. done.
  - apply lively_ret. split_and!.
    + unfold life_of. destruct (toolArgs ph2 !! idx) as [raw|] eqn:Hraw; simpl in *;
        rewrite (proj2 (Z.ltb_ge _ _) Hidx), Hr1, Hraw; simpl; [by rewrite insert_id|done].
    + intros _. destruct (toolArgs ph2 !! idx) as [raw|] eqn:Hraw; simpl in *; [by rewrite Hraw|by rewrite lookup_insert_eq].
    + by destruct (toolArgs ph2 !! idx).
    + by destruct (toolArgs ph2 !! idx); simpl.
Qed.

Lemma record_call_life tc ph : life_of (record_call tc ph) = life_of ph.
Proof. done. Qed.

Lemma on_arguments_lively model tc ph :
  phases_ok ph → (0 ≤ fr_Index tc)%Z → openToolCall ph = fr_Index tc →
  lively (life_of ph) (on_arguments model tc ph) (to_phases (λ _, True)).
Proof.
  intros Hok Hi Ho. unfold on_arguments. destruct (sempty (fr_Arguments tc)) eqn:Hs; [by apply lively_ret|].
  destruct Hok as [raw Hraw]; [lia|]. rewrite Ho in Hraw. rewrite Hraw. eapply lively_say.
  - unfold accept. cbn. rewrite Ho, (proj2 (Z.ltb_ge _ _) Hi), bool_decide_eq_true_2, Hs by done. done.
  - rewrite Hraw. apply lively_ret. split_and!; [| |done].
    + unfold life_of. simpl. by rewrite Ho, (proj2 (Z.ltb_ge _ _) Hi).
    + intros _. simpl. rewrite Ho, lookup_insert_eq. eauto.
Qed.

Lemma on_fragment_lively model ph tc : phases_ok ph → (0 ≤ fr_Index tc)%Z →
  lively (life_of ph) (on_fragment model ph tc) (to_phases (λ _, True)).
Proof.
  intros Hok Hi. unfold on_fragment. eapply lively_bind; [by apply closeReasoning_lively|].
  intros ph1 s1 (-> & Hok1 & Hp1).
  eapply lively_bind; [by apply open_call_lively; [| |by rewrite Hp1]|].
  intros ph2 s2 (-> & Hok2 & Ho & _). rewrite <-(record_call_life tc ph2). by apply on_arguments_lively.
Qed.

Lemma on_fragments_lively model l ph : phases_ok ph → Forall (λ tc, (0 ≤ fr_Index tc)%Z) l →
  lively (life_of ph) (on_fragments model ph l) (to_phases (λ _, True)).
Proof.
  intros Hok Hl. revert ph Hok. induction Hl as [|tc l Hi _ IH]; intros ph Hok; [by apply lively_ret|].
  cbn [on_fragments]. eapply lively_bind; [by apply on_fragment_lively|].
  intros ph1 s1 (-> & Hok1 & _). by apply IH.
Qed.

Lemma on_reasoning_lively model text ph : phases_ok ph →
  lively (life_of ph) (on_reasoning model text ph) (to_phases (λ _, True)).
Proof.
  intros Hok. unfold on_reasoning. destruct (sempty text) eqn:Hs; [by apply lively_ret|].
  destruct ph as [t r c args names ids ord]. cbn [openReasoning].
  apply (lively_bind _ _ _ (λ _ s, s = life_of {| openText := t; openReasoning := true; openToolCall := c;
    toolArgs := args; toolNames := names; toolIDs := ids; order := ord |})).
  - destruct r; [by apply lively_ret|]. by eexists (), _.
  - intros _ s ->. eapply lively_say; [|by apply lively_ret]. unfold accept. cbn. by rewrite Hs.
Qed.

Lemma on_text_lively model text ph : phases_ok ph →
  lively (life_of ph) (on_text model text ph) (to_phases (λ _, True)).
Proof.
  intros Hok. unfold on_text. destruct (sempty text) eqn:Hs; [by apply lively_ret|].
  eapply lively_bind; [by apply closeReasoning_lively|]. intros ph1 s1 (-> & Hok1 & _).
  destruct ph1 as [t r c args names ids ord]. cbn [openText].
  apply (lively_bind _ _ _ (λ _ s, s = life_of {| openText := true; openReasoning := r; openToolCall := c;
    toolArgs := args; toolNames := names; toolIDs := ids; order := ord |})).
  - destruct t; [by apply lively_ret|]. by eexists (), _.
  - intros _ s ->. eapply lively_say; [|by apply lively_ret]. unfold accept. cbn. by rewrite Hs.
Qed.

(** The state of the loop: its phases are sound, and the reason is a known one. *)
Definition state_ok (st : readState) : Prop :=
  phases_ok (phases st) ∧ (sawFinishReason st = true → finishReason st ∈ known_reasons).
Definition to_state (st : readState) (s : life) : Prop := s = life_of (phases st) ∧ state_ok st.
Definition indexes_ok (parsed : streamChunk) : Prop :=
  Forall (λ tc, (0 ≤ fr_Index tc)%Z) (from_option sc_ToolCalls [] (head (st_Choices parsed))).

Lemma on_chunk_lively st parsed : state_ok st → indexes_ok parsed →
  lively (life_of (phases st)) (on_chunk st parsed) to_state.
Proof.
  intros [Hok Hr] Hi. unfold on_chunk, indexes_ok in *. destruct (st_Choices parsed) as [|choice ?]; [by apply lively_ret|].
  apply (lively_bind _ _ _ to_state); [|by intros st1 s1 [-> ?]; apply lively_ret]. unfold on_choice.
  eapply lively_bind; [by apply on_reasoning_lively|]. intros ph1 s1 (-> & Hok1 & _).
  eapply lively_bind; [by apply on_text_lively|]. intros ph2 s2 (-> & Hok2 & _).
  eapply lively_bind; [by apply on_fragments_lively|]. intros ph3 s3 (-> & Hok3 & _).
  apply lively_ret. destruct (sempty _); split; try done; split; try done. intros _. apply NormalizeFinishReason_known.
Qed.

Lemma on_chunks_lively l st : state_ok st → Forall indexes_ok l →
  lively (life_of (phases st)) (on_chunks st l) to_state.
Proof.
  intros Hok Hl. revert st Hok. induction Hl as [|parsed l Hi _ IH]; intros st Hok; [by apply lively_ret|].
  rewrite on_chunks_cons. eapply lively_bind; [by apply on_chunk_lively|]. intros st1 s1 [-> Hok1]. by apply IH.
Qed.

Lemma closeAll_lively ph : phases_ok ph →
  lively (life_of ph) (closeAll ph) (λ _ s, ∃ args, s = living false false None args).
Proof.
  intros Hok. unfold closeAll. eapply lively_bind; [by apply closeReasoning_lively|]. intros ph1 s1 (-> & Hok1 & H1).
  eapply lively_bind; [by apply closeText_lively|]. intros ph2 s2 (-> & Hok2 & H2).
  eapply lively_mono; [by apply closeToolCall_lively|]. intros ph3 s3 (-> & _ & Hc & Ht & Hr & _).
  exists (toolArgs ph3). subst ph2 ph1. unfold life_of. rewrite Ht, Hr, (proj2 (Z.ltb_lt _ _) Hc). done.
Qed.

Lemma script_lively l : Forall indexes_ok l → lively unborn (script l) (λ _ s, lf_finished s = true).
Proof.
  intros Hl. unfold script. eapply lively_say; [done|].
  apply (lively_bind _ _ _ to_state). { apply (on_chunks_lively l start_state); [|done]. split; [by intros ?|done]. }
  intros st s [-> [Hok Hr]]. unfold on_end. eapply lively_bind; [by apply closeAll_lively|].
  intros _ s [args ->]. eexists (), _. split; [done|]. unfold accept_all, accept. cbn.
  rewrite (bool_decide_eq_true_2 (_ ∧ _)); [done|]. split; [|done].
  destruct (sawFinishReason st); [auto|]. apply NormalizeFinishReason_known.
Qed.

(** C15. Whatever lines a server streams and wherever the exchange is cut, cancelled or
    refused, the events the adapter has yielded follow the normalized lifecycle:
    stream_start first; each phase's deltas between its start and its end; one tool
    call open at a time, the reasoning closed when it opens, its end carrying exactly
    the arguments its fragments spelled; finish last, with everything closed. When no
    error is returned the lifecycle is complete; and there is no panic. This is for
    servers whose tool call indexes are not negative. *)
Theorem stream_follows_the_lifecycle n a ctx t r :
  histories (DecideStream n a ctx) t r → Forall indexes_ok (received (scanned t)) →
  ∃ s, accept_all unborn (yields t) = Some s ∧ r ≠ Some Panicked ∧
    (r = Some (Returned None) → lf_finished s = true).
Proof.
  intros Hh Hl. destruct (DecideStream_history _ _ _ _ _ Hh) as [[rest Hpre] Hres].
  destruct (script_lively _ Hl) as ([] & s & Hs2 & Hs & Hfin). cbn zeta in *. rewrite Hpre, accept_all_app in Hs.
  destruct (accept_all unborn (yields t)) as [s1|] eqn:H1; [|done]. exists s1. split; [done|]. split.
  - intros ->. congruence.
  - intros ->. destruct Hres as [Hy _]. rewrite Hy in Hpre.
    assert (rest = []) as -> by (apply (f_equal length) in Hpre; rewrite length_app in Hpre; destruct rest; [done|simpl in *; lia]).
    by injection Hs as ->.
Qed.

(** ** What is carried *)

Inductive content := CText (s : string) | CReasoning (s : string) | CArguments (i : Z) (s : string).

Definition content_of (c : Chunk) : option content :=
  if negb (sempty (Delta c)) then Some (CText (Delta c))
  else if negb (sempty (ReasoningDelta c)) then Some (CReasoning (ReasoningDelta c))
  else if negb (sempty (ToolCallDelta c)) then Some (CArguments (ToolCallIndex c) (ToolCallDelta c))
  else None.
Definition contents (l : list Chunk) : list content := omap content_of l.

Definition unless_empty (s : string) (c : content) : list content := if sempty s then [] else [c].
Definition fragment_says (tc : fragment) : list content :=
  unless_empty (fr_Arguments tc) (CArguments (fr_Index tc) (fr_Arguments tc)).
(** What a received chunk carries: the reasoning, the text and the argument fragments
    of its first choice. *)
Definition says (parsed : streamChunk) : list content :=
  match st_Choices parsed with
  | [] => []
  | choice :: _ =>
      unless_empty (sc_ReasoningContent choice) (CReasoning (sc_ReasoningContent choice)) ++
      unless_empty (sc_Content choice) (CText (sc_Content choice)) ++
      concat (fragment_says <$> sc_ToolCalls choice)
  end.

(** An operation that carries exactly some content; only a first part if it panics. *)
Definition carries {A} (m : emitting A) (x : list content) : Prop :=
  match m.2 with Some _ => contents m.1 = x | None => contents m.1 `prefix_of` x end.

Lemma contents_app l k : contents (l ++ k) = (contents l ++ contents k)%list.
Proof. apply omap_app. Qed.
Lemma carries_ret {A} (a : A) : carries (mret a) [].
Proof. done. Qed.
Lemma carries_bind {A B} (m : emitting A) (f : A → emitting B) x y :
  carries m x → (∀ a, carries (f a) y) → carries (m ≫= f) (x ++ y).
Proof.
  unfold carries. intros Hm Hf. rewrite emitting_bind_fst, emitting_bind_snd.
  destruct m as [l [a|]]; simpl in *; rewrite contents_app.
  - rewrite Hm. specialize (Hf a). destruct (f a) as [k [b|]]; simpl in *; [by rewrite Hf|by apply prefix_app].
  - rewrite app_nil_r. by apply prefix_app_r.
Qed.
(** An operation that only opens or closes. *)
Lemma carries_quiet {A B} (m : emitting A) (f : A → emitting B) y :
  carries m [] → (∀ a, carries (f a) y) → carries (m ≫= f) y.
Proof. intros Hm Hf. by apply (carries_bind m f [] y). Qed.

Lemma closeText_carries ph : carries (closeText ph) [].
Proof. unfold closeText. by destruct (openText ph). Qed.
Lemma closeReasoning_carries ph : carries (closeReasoning ph) [].
Proof. unfold closeReasoning. by destruct (openReasoning ph). Qed.
Lemma closeToolCall_carries ph : carries (closeToolCall ph) [].
Proof. unfold closeToolCall. by destruct (_ <? 0)%Z. Qed.
Lemma open_call_carries model idx ph : carries (open_call model idx ph) [].
Proof.
  unfold open_call. destruct (_ =? _)%Z; [done|]. apply carries_quiet; [apply closeToolCall_carries|]. done.
Qed.

Lemma on_arguments_carries model tc ph : carries (on_arguments model tc ph) (fragment_says tc).
Proof.
  unfold on_arguments, fragment_says, unless_empty. destruct (sempty (fr_Arguments tc)) eqn:Hs; [done|].
  destruct (_ !! _); [|apply prefix_nil]. unfold carries, contents, content_of. simpl. by rewrite Hs.
Qed.

Lemma on_fragments_carries model l ph : carries (on_fragments model ph l) (concat (fragment_says <$> l)).
Proof.
  revert ph. induction l as [|tc l IH]; intros ph; [done|]. cbn [on_fragments fmap list_fmap concat].
  apply carries_bind; [|done]. unfold on_fragment.
  apply carries_quiet; [apply closeReasoning_carries|]. intros ph1.
  apply carries_quiet; [apply open_call_carries|]. intros ph2. apply on_arguments_carries.
Qed.

Lemma on_reasoning_carries model text ph : carries (on_reasoning model text ph) (unless_empty text (CReasoning text)).
Proof.
  unfold on_reasoning, unless_empty. destruct (sempty text) eqn:Hs; [done|].
  apply carries_quiet; [by destruct (openReasoning ph)|]. intros _.
  unfold carries, contents, content_of. simpl. by rewrite Hs.
Qed.
Lemma on_text_carries model text ph : carries (on_text model text ph) (unless_empty text (CText text)).
Proof.
  unfold on_text, unless_empty. destruct (sempty text) eqn:Hs; [done|].
  apply carries_quiet; [apply closeReasoning_carries|]. intros ph1.
  apply carries_quiet; [by destruct (openText ph1)|]. intros _.
  unfold carries, contents, content_of. simpl. by rewrite Hs.
Qed.

Lemma on_chunk_carries st parsed : carries (on_chunk st parsed) (says parsed).
Proof.
  unfold on_chunk, says. destruct (st_Choices parsed) as [|choice ?]; [done|].
  rewrite <-(app_nil_r (_ ++ _)). apply carries_bind; [|done]. unfold on_choice.
  apply carries_bind; [apply on_reasoning_carries|]. intros ph1.
  apply carries_bind; [apply on_text_carries|]. intros ph2.
  rewrite <-(app_nil_r (concat _)). apply carries_bind; [apply on_fragments_carries|done].
Qed.

Lemma script_carries l : carries (script l) (concat (says <$> l)).
Proof.
  unfold script. apply carries_quiet; [done|]. intros _.
  rewrite <-(app_nil_r (concat _)). apply carries_bind.
  - generalize start_state. induction l as [|parsed l IH]; intros st; [done|].
    cbn [on_chunks fmap list_fmap concat]. apply carries_bind; [apply on_chunk_carries|done].
  - intros st. apply carries_quiet; [|done]. unfold closeAll.
    apply carries_quiet; [apply closeReasoning_carries|]. intros ph1.
    apply carries_quiet; [apply closeText_carries|]. intros ph2. apply closeToolCall_carries.
Qed.

(** The reason a chunk states, if it states one. *)
Definition stated_reason (parsed : streamChunk) : option string :=
  choice ← head (st_Choices parsed);
  if sempty (sc_FinishReason choice) then None else Some (sc_FinishReason choice).
(** What finish says after some chunks: the last stated reason and the last usage. *)
Definition final_chunk (l : list streamChunk) : Chunk :=
  {| Delta := ""; ReasoningDelta := "";
     FinishReason := NormalizeFinishReason (default "" (last (omap stated_reason l)));
     ch_Model := ""; ch_Usage := Some (default (ReportedUsage no_usage) (last (omap streamUsage l)));
     Event := "finish"; ToolCallIndex := 0; ToolCallDelta := ""; ch_ToolCall := None |}.

(** What the loop's state knows of the chunks so far. *)
Definition knows (st : readState) (l : list streamChunk) : Prop :=
  finalUsage st = last (omap streamUsage l) ∧
  sawFinishReason st = bool_decide (is_Some (last (omap stated_reason l))) ∧
  (∀ raw, last (omap stated_reason l) = Some raw → finishReason st = NormalizeFinishReason raw).

Lemma last_omap_snoc {A B} (f : A → option B) l x :
  last (omap f (l ++ [x])%list) = match f x with Some b => Some b | None => last (omap f l) end.
Proof. rewrite omap_app. simpl. destruct (f x); [by rewrite last_snoc|by rewrite app_nil_r]. Qed.

Lemma on_chunk_knows st parsed l st' : knows st l → (on_chunk st parsed).2 = Some st' → knows st' (l ++ [parsed])%list.
Proof.
  unfold knows, on_chunk. intros (Hu & Hs & Hr) Hst. rewrite !last_omap_snoc.
  unfold stated_reason in *. destruct (st_Choices parsed) as [|choice rest]; simpl in *.
  { injection Hst as <-. unfold note_usage. simpl. rewrite Hu. by destruct (streamUsage parsed). }
  rewrite emitting_bind_snd in Hst. unfold on_choice in Hst. rewrite !emitting_bind_snd in Hst.
  destruct (on_reasoning _ _ _).2 as [ph1|]; [|done]. cbn [mbind option_bind] in Hst.
  rewrite emitting_bind_snd in Hst. destruct (on_text _ _ _).2 as [ph2|]; [|done]. cbn [mbind option_bind] in Hst.
  rewrite emitting_bind_snd in Hst. destruct (on_fragments _ _ _).2 as [ph3|]; [|done]. cbn [mbind option_bind] in Hst.
  injection Hst as <-. unfold note_usage. destruct (sempty (sc_FinishReason choice)); simpl; rewrite Hu;
    (split; [by destruct (streamUsage parsed)|]); [done|]. split; [done|]. by intros raw [= <-].
Qed.

Lemma on_chunks_knows l st l0 st' : knows st l0 → (on_chunks st l).2 = Some st' → knows st' (l0 ++ l)%list.
Proof.
  revert st l0. induction l as [|parsed l IH]; intros st l0 Hk.
  { intros [= <-]. by rewrite app_nil_r. }
  rewrite on_chunks_cons, emitting_bind_snd. destruct (on_chunk st parsed).2 as [st1|] eqn:H1; [|done].
  cbn [mbind option_bind]. intros H2. change (parsed :: l) with ([parsed] ++ l)%list. rewrite app_assoc.
  eapply IH; [|done]. by eapply on_chunk_knows.
Qed.

Lemma knows_finish st l : knows st l → finish_chunk st = final_chunk l.
Proof.
  intros (Hu & Hs & Hr). unfold finish_chunk, final_chunk. rewrite Hu, Hs.
  destruct (last (omap stated_reason l)) as [raw|]; [|done]. by rewrite (Hr raw).
Qed.

Lemma script_last l : (script l).2 = Some () → last (script l).1 = Some (final_chunk l).
Proof.
  unfold script. rewrite emitting_bind_snd, emitting_bind_fst. cbn [say fst snd mbind option_bind].
  rewrite emitting_bind_snd, emitting_bind_fst.
  destruct (on_chunks start_state l) as [k [st|]] eqn:Hc; cbn [fst snd mbind option_bind]; [|done].
  unfold on_end. rewrite emitting_bind_fst, emitting_bind_snd.
  destruct (closeAll (phases st)) as [k' [ph|]]; cbn [fst snd mbind option_bind say]; [|done]. intros _.
  rewrite !app_assoc, last_snoc. f_equal. apply knows_finish.
  apply (on_chunks_knows l start_state []); [|by rewrite Hc]. split_and!; done.
Qed.

(** Nothing a server streams is lost, invented or reordered: whenever the exchange
    ends, the text, the reasoning and the argument fragments yielded are a first part
    of those of the first choices of the chunks received, in order; and when no error
    is returned they are all of them, and the last event is a finish with the last
    reason the server stated (a plain stop when it stated none or an unknown one) and
    its last usage (unmeasured when it gave none). *)
Theorem stream_carries_everything n a ctx t r :
  histories (DecideStream n a ctx) t r →
  let got := received (scanned t) in
  contents (yields t) `prefix_of` concat (says <$> got) ∧
  (r = Some (Returned None) →
   contents (yields t) = concat (says <$> got) ∧ last (yields t) = Some (final_chunk got)).
Proof.
  intros [[rest Hpre] Hres]%DecideStream_history. cbn zeta in *.
  pose proof (script_carries (received (scanned t))) as Hc. unfold carries in Hc.
  assert (contents (yields t) `prefix_of` contents (script (received (scanned t))).1) as Hp.
  { rewrite Hpre, contents_app. by apply prefix_app_r. }
  split.
  - etrans; [exact Hp|]. destruct (script _).2; [by rewrite Hc|done].
  - intros ->. destruct Hres as [-> Hs]. rewrite Hs in Hc. split; [done|]. by apply script_last.
Qed.

(** ** A whole answer, streamed *)

(** The calls of a message as fragments, numbered from an index. *)
Fixpoint fragments_from (i : Z) (calls : list wire_call) : list fragment :=
  match calls with
  | [] => []
  | tc :: calls =>
      {| fr_Index := i; fr_ID := wc_ID tc; fr_Name := wc_Name tc; fr_Arguments := wc_Arguments tc |}
      :: fragments_from (i + 1) calls
  end.
(** The chunk that says in one piece what a whole answer says. *)
Definition as_chunk (r : openAICompatibleResponse) (choice : openAICompatibleChoice) : streamChunk :=
  {| st_Model := or_Model r;
     st_Choices := [{| sc_Index := oc_Index choice; sc_FinishReason := oc_FinishReason choice;
                       sc_Content := oc_Content choice; sc_ReasoningContent := oc_ReasoningContent choice;
                       sc_ToolCalls := fragments_from 0 (oc_ToolCalls choice) |}];
     st_Usage := or_Usage r; st_Timings := or_Timings r |}.

Definition calls_of (l : list Chunk) : list ToolCall := omap ch_ToolCall l.
Lemma calls_of_app l k : calls_of (l ++ k) = (calls_of l ++ calls_of k)%list.
Proof. apply omap_app. Qed.

(** The call that is open, as its end would carry it. *)
Definition pending (ph : streamPhases) : list ToolCall :=
  if (openToolCall ph <? 0)%Z then [] else
  let idx := openToolCall ph in
  [call_from_wire (default "" (toolIDs ph !! idx)) (default "" (toolNames ph !! idx)) (default "" (toolArgs ph !! idx))].
(** No call has the index or a later one. *)
Definition unused (i : Z) (ph : streamPhases) : Prop :=
  (openToolCall ph < i)%Z ∧
  ∀ j, (i ≤ j)%Z → toolArgs ph !! j = None ∧ toolNames ph !! j = None ∧ toolIDs ph !! j = None.

Lemma closeReasoning_eq ph :
  (closeReasoning ph).2 = Some (set_open ph (openText ph) false (openToolCall ph)) ∧ calls_of (closeReasoning ph).1 = [].
Proof. unfold closeReasoning. destruct ph as [t [] c args names ids ord]; done. Qed.
Lemma closeToolCall_eq ph :
  calls_of (closeToolCall ph).1 = pending ph ∧
  ∃ c, (closeToolCall ph).2 = Some (set_open ph (openText ph) (openReasoning ph) c) ∧ (c < 0)%Z.
Proof.
  unfold closeToolCall, pending. destruct (Z.ltb_spec (openToolCall ph) 0); (split; [done|]).
  - exists (openToolCall ph). split; [|done]. by destruct ph.
  - by exists (-1)%Z.
Qed.

(** One new call, whole: what was open ends, and the new one is open. *)
Lemma on_fragment_whole model i ph tc :
  unused i ph → (0 ≤ i)%Z →
  let fr := {| fr_Index := i; fr_ID := wc_ID tc; fr_Name := wc_Name tc; fr_Arguments := wc_Arguments tc |} in
  ∃ ph', (on_fragment model ph fr).2 = Some ph' ∧ calls_of (on_fragment model ph fr).1 = pending ph ∧
    pending ph' = [call_of tc] ∧ unused (i + 1) ph'.
Proof.
  intros [Hlt Hun] Hi fr. destruct (closeReasoning_eq ph) as [Hr2 Hr1]. unfold on_fragment.
  rewrite emitting_bind_fst, emitting_bind_snd, Hr2, calls_of_app, Hr1. cbn [mbind option_bind app].
  set (ph1 := set_open ph _ false _). rewrite emitting_bind_fst, emitting_bind_snd.
  unfold open_call. rewrite (proj2 (Z.eqb_neq _ _)) by (simpl; lia).
  destruct (closeToolCall_eq ph1) as (Hc1 & c & Hc2 & Hneg). change (pending ph1) with (pending ph) in Hc1.
  rewrite emitting_bind_fst, emitting_bind_snd, Hc2. cbn [mbind option_bind].
  destruct (Hun i) as (Ha & Hn & Hd); [lia|]. simpl. rewrite Ha. simpl.
  unfold on_arguments, record_call. simpl. rewrite lookup_insert_eq.
  assert (∀ j, (i + 1 ≤ j)%Z → j ≠ i) as Hji by lia.
  assert (∀ (s : string) (m : gmap Z string), m !! i = None →
    default "" ((if sempty s then m else <[i := s]> m) !! i) = s) as Hdef.
  { intros s m Hm. destruct s; simpl; [by rewrite Hm|by rewrite lookup_insert_eq]. }
  assert (∀ (s : string) (m : gmap Z string) j, (i + 1 ≤ j)%Z → m !! j = None →
    (if sempty s then m else <[i := s]> m) !! j = None) as Hnone.
  { intros s m j Hj Hm. destruct (sempty s); [done|]. rewrite lookup_insert_ne; [done|]. by apply not_eq_sym, Hji. }
  assert ((i <? 0)%Z = false) as Hpos by (by apply Z.ltb_ge).
  destruct (sempty (wc_Arguments tc)) eqn:Hs.
  - apply sempty_true in Hs. eexists. split; [done|]. split; [by rewrite !calls_of_app, Hc1, !app_nil_r|]. split.
    + unfold pending. simpl. by rewrite Hpos, !Hdef, lookup_insert_eq by done; unfold call_of; rewrite Hs.
    + split; [simpl; lia|]. intros j Hj. destruct (Hun j) as (? & ? & ?); [lia|]. simpl.
      split_and!; [rewrite lookup_insert_ne; [done|by apply not_eq_sym, Hji]|by apply Hnone..].
  - eexists. split; [done|]. split; [by rewrite !calls_of_app, Hc1, !app_nil_r|]. split.
    + unfold pending. simpl. by rewrite Hpos, !Hdef, lookup_insert_eq by done.
    + split; [simpl; lia|]. intros j Hj. destruct (Hun j) as (? & ? & ?); [lia|]. simpl.
      split_and!; [rewrite !lookup_insert_ne; [done|by apply not_eq_sym, Hji..]|by apply Hnone..].
Qed.

Lemma on_fragments_whole model calls i ph :
  unused i ph → (0 ≤ i)%Z →
  ∃ ph', (on_fragments model ph (fragments_from i calls)).2 = Some ph' ∧
    (calls_of (on_fragments model ph (fragments_from i calls)).1 ++ pending ph' = pending ph ++ (call_of <$> calls))%list.
Proof.
  revert i ph. induction calls as [|tc calls IH]; intros i ph Hu Hi.
  { exists ph. split; [done|]. by rewrite app_nil_r. }
  destruct (on_fragment_whole model i ph tc Hu Hi) as (ph1 & H2 & H1 & Hp1 & Hu1).
  destruct (IH (i + 1)%Z ph1 Hu1 ltac:(lia)) as (ph2 & H2' & H1').
  cbn [fragments_from on_fragments]. rewrite emitting_bind_fst, emitting_bind_snd, H2. cbn [mbind option_bind].
  exists ph2. split; [done|]. rewrite calls_of_app, H1, <-app_assoc, H1', Hp1. done.
Qed.

Definition text_in (l : list content) : string :=
  foldr (λ c s, match c with CText x => x +:+ s | _ => s end) "" l.
Definition reasoning_in (l : list content) : string :=
  foldr (λ c s, match c with CReasoning x => x +:+ s | _ => s end) "" l.

Lemma text_reasoning_arguments l :
  text_in (concat (fragment_says <$> l)) = "" ∧ reasoning_in (concat (fragment_says <$> l)) = "".
Proof.
  induction l as [|tc l [IHt IHr]]; [done|]. cbn [fmap list_fmap concat]. unfold fragment_says at 1 3, unless_empty.
  by destruct (sempty _).
Qed.
Lemma says_whole r choice :
  text_in (says (as_chunk r choice)) = oc_Content choice ∧ reasoning_in (says (as_chunk r choice)) = oc_ReasoningContent choice.
Proof.
  unfold says, as_chunk. simpl. set (fs := fragments_from 0 _). destruct (text_reasoning_arguments fs) as [Ht Hr].
  unfold unless_empty. destruct (oc_ReasoningContent choice), (oc_Content choice); simpl;
    rewrite ?Ht, ?Hr, ?str_app_nil; done.
Qed.

(** The phases of text and reasoning leave the calls alone. *)
Definition same_calls (ph ph' : streamPhases) : Prop :=
  openToolCall ph' = openToolCall ph ∧ toolArgs ph' = toolArgs ph ∧ toolNames ph' = toolNames ph ∧ toolIDs ph' = toolIDs ph.
Lemma on_reasoning_calls model text ph :
  ∃ ph', (on_reasoning model text ph).2 = Some ph' ∧ calls_of (on_reasoning model text ph).1 = [] ∧ same_calls ph ph'.
Proof. unfold on_reasoning. destruct (sempty text); [by exists ph|]. destruct ph as [t [] c args names ids ord]; by eexists. Qed.
Lemma on_text_calls model text ph :
  ∃ ph', (on_text model text ph).2 = Some ph' ∧ calls_of (on_text model text ph).1 = [] ∧ same_calls ph ph'.
Proof.
  unfold on_text, closeReasoning. destruct (sempty text); [by exists ph|].
  destruct ph as [[] [] c args names ids ord]; by eexists.
Qed.

Lemma closeAll_calls ph : ∃ ph', (closeAll ph).2 = Some ph' ∧ calls_of (closeAll ph).1 = pending ph.
Proof.
  unfold closeAll. destruct (closeReasoning_eq ph) as [Hr2 Hr1].
  rewrite emitting_bind_fst, emitting_bind_snd, Hr2, calls_of_app, Hr1. cbn [mbind option_bind].
  set (ph1 := set_open ph _ _ _). rewrite emitting_bind_fst, emitting_bind_snd.
  assert (∃ b, (closeText ph1).2 = Some (set_open ph1 b (openReasoning ph1) (openToolCall ph1)) ∧
               calls_of (closeText ph1).1 = []) as (b & Ht2 & Ht1).
  { unfold closeText. destruct ph as [[] r c args names ids ord]; by eexists. }
  rewrite Ht2, calls_of_app, Ht1. cbn [mbind option_bind app].
  destruct (closeToolCall_eq (set_open ph1 b (openReasoning ph1) (openToolCall ph1))) as (Hc1 & c & Hc2 & _).
  rewrite Hc1, Hc2. by eexists.
Qed.

Lemma script_whole r choice :
  (script [as_chunk r choice]).2 = Some () ∧
  calls_of (script [as_chunk r choice]).1 = call_of <$> oc_ToolCalls choice.
Proof.
  unfold script. cbn [on_chunks]. unfold on_chunk, on_choice, as_chunk. cbn [st_Choices st_Model sc_ReasoningContent sc_Content sc_ToolCalls].
  destruct (on_reasoning_calls (or_Model r) (oc_ReasoningContent choice) newStreamPhases) as (ph1 & H12 & H11 & Hs1).
  destruct (on_text_calls (or_Model r) (oc_Content choice) ph1) as (ph2 & H22 & H21 & Hs2).
  destruct Hs1 as (Ho1 & Ha1 & Hn1 & Hi1), Hs2 as (Ho2 & Ha2 & Hn2 & Hi2).
  assert (unused 0 ph2) as Hun.
  { split; [by rewrite Ho2, Ho1|]. intros j _. by rewrite Ha2, Ha1, Hn2, Hn1, Hi2, Hi1. }
  destruct (on_fragments_whole (or_Model r) (oc_ToolCalls choice) 0 ph2 Hun ltac:(lia)) as (ph3 & H32 & H31).
  assert (pending ph2 = []) as Hp2 by (unfold pending; by rewrite Ho2, Ho1).
  rewrite Hp2 in H31. destruct (closeAll_calls ph3) as (ph4 & H42 & H41).
  set (fs := fragments_from 0 _) in *. unfold on_end.
  repeat first [rewrite emitting_bind_fst | rewrite emitting_bind_snd | rewrite calls_of_app | rewrite H12 | rewrite H22
    | rewrite H32 | progress cbn [mbind option_bind say fst snd start_state phases mret emitting_ret] ].
  destruct (sempty _); cbn [note_usage phases]; rewrite H42; cbn [mbind option_bind say fst snd];
    rewrite H11, H21, H41, !app_nil_r; (split; [done|]); exact H31.
Qed.

(** C26. Streaming changes the pace and not the answer: when a server sends in one chunk
    what it would have sent whole, the events spell the same text and the same
    reasoning, end the same tool calls in the same order, and finish for the same
    reason with the same counters, as the plain call normalizes them. *)
Theorem streaming_agrees_with_whole r choice :
  let s := script [as_chunk r choice] in
  s.2 = Some () ∧
  text_in (contents s.1) = oc_Content choice ∧ reasoning_in (contents s.1) = oc_ReasoningContent choice ∧
  calls_of s.1 = call_of <$> oc_ToolCalls choice ∧
  ∃ c, last s.1 = Some c ∧ FinishReason c = NormalizeFinishReason (oc_FinishReason choice) ∧ ch_Usage c = Some (usage r).
Proof.
  destruct (script_whole r choice) as [Hok Hcalls]. cbn zeta. split; [done|].
  pose proof (script_carries [as_chunk r choice]) as Hc. unfold carries in Hc. rewrite Hok in Hc.
  cbn [fmap list_fmap concat] in Hc. rewrite app_nil_r in Hc. destruct (says_whole r choice) as [Ht Hr].
  rewrite Hc. split_and!; [done..|]. eexists. split; [by apply script_last|]. split.
  - unfold final_chunk, stated_reason. simpl. destruct (oc_FinishReason choice); done.
  - unfold final_chunk, usage, streamUsage. simpl. by destruct (or_Usage r), (or_Timings r).
Qed.

(** ** Ending *)

(** A run that did not end has used all its fuel on lines the server sent. *)
Lemma read_loop_fuel n st t : histories (read_loop n st) t None → length (scanned t) = n.
Proof.
  revert st t. induction n as [|n IH]; intros st t; [by intros [-> _]|]. cbn [read_loop].
  intros (line & t1 & -> & Ht). cbn [prog_bind mret prog_ret] in Ht. destruct line as [line|]; [|by destruct Ht].
  destruct Ht as (cancelled & t2 & -> & Ht). cbn [prog_bind mret prog_ret] in Ht.
  change (scanned _) with (line :: scanned t2). cbn [length].
  destruct cancelled as [e|]; [by destruct Ht|].
  destruct (sse_of line) as [| |payload]; [by rewrite (IH _ _ Ht)|by destruct Ht|].
  destruct (decode dec_chunk zero_chunk payload) as [parsed|]; [|by destruct Ht].
  apply histories_bind in Ht as (r1 & u1 & u2 & -> & Hp & Hu).
  destruct (play_history _ _ _ Hp) as (Hs1 & _). rewrite scanned_app, Hs1. cbn [app].
  destruct r1 as [st1|e]; [by rewrite (IH _ _ Hu)|by destruct Hu].
Qed.

(** A server whose body is some lines, a caller that refuses nothing. *)
Definition serve (lines : list string) (c : scall) : list string * sreply c :=
  match c return list string * sreply c with
  | SDo _ => (lines, Ok 200%Z)
  | SScan => match lines with [] => ([], None) | line :: lines => (lines, Some line) end
  | SCtx | SErr | SYield _ => (lines, None)
  end.

Lemma run_play {A} lines (m : emitting A) a : m.2 = Some a → run serve lines (play m) = (lines, Ok a).
Proof.
  intros Hm. unfold play. rewrite run_bind.
  assert (∀ l, run serve lines (yield_all l) = (lines, None)) as -> by (intros l; induction l as [|c l IH]; [done|apply IH]).
  cbn [run mret prog_ret]. by rewrite Hm.
Qed.

(** Every payload before the sentinel decodes. *)
Fixpoint well_formed (lines : list string) : Prop :=
  match lines with
  | [] => True
  | line :: lines =>
      match sse_of line with
      | Ignored => well_formed lines
      | Finished => True
      | Payload payload => is_Some (decode dec_chunk zero_chunk payload) ∧ well_formed lines
      end
  end.

Lemma run_read_loop lines n st st' :
  length lines < n → well_formed lines → (on_chunks st (received lines)).2 = Some st' →
  ∃ rest, run serve lines (read_loop n st) = (rest, Some (Ok st')).
Proof.
  revert n st. induction lines as [|line lines IH]; intros n st Hn Hw Hst; (destruct n as [|n]; [simpl in Hn; lia|]).
  { exists []. by injection Hst as ->. }
  cbn [length] in Hn. cbn [read_loop]. cbn [mbind prog_bind ask run serve well_formed] in *. rewrite received_cons in Hst.
  destruct (sse_of line) as [| |payload]; [apply IH; [lia|done..]|by exists lines; injection Hst as ->|].
  destruct Hw as [[parsed Hd] Hw]. rewrite Hd in *. rewrite on_chunks_cons, emitting_bind_snd in Hst.
  destruct (on_chunk st parsed).2 as [st1|] eqn:H1; [|done].
  change (prog_bind ?X ?Y ?f ?m) with (mbind (M := prog sreply) (A := X) (B := Y) f m).
  rewrite run_bind, (run_play _ _ _ H1). apply IH; [lia|done..].
Qed.

(** A stream that ends is read to its end: a server that answers 200 and streams
    finitely many lines, none of which is a payload that does not decode, makes the
    adapter return without an error, once every event was taken, whatever else the
    lines hold and however few there are (none is an empty answer and no error). *)
Theorem well_formed_stream_completes n a ctx lines :
  BaseURL a ≠ "" → is_ok (marshal_request (Some (streamingRequestBody (items ctx)))) = true →
  bad_url (completions_url a) = None → length lines < n → well_formed lines →
  Forall indexes_ok (received lines) →
  (run serve lines (DecideStream n a ctx)).2 = Some (Returned None).
Proof.
  intros Hb Hm Hu Hn Hw Hi. unfold DecideStream. apply sempty_false in Hb. rewrite Hb.
  destruct (marshal_request _) as [doc|]; [|done]. rewrite Hu. cbn [mbind prog_bind ask run serve].
  rewrite Z.eqb_refl. cbn [negb]. change (prog_bind ?X ?Y ?f ?m) with (mbind (M := prog sreply) (A := X) (B := Y) f m).
  unfold read_body. cbn [mret prog_ret]. rewrite run_bind, (run_play _ _ ()) by done.
  change (prog_bind ?X ?Y ?f ?m) with (mbind (M := prog sreply) (A := X) (B := Y) f m). rewrite run_bind.
  destruct (script_lively _ Hi) as ([] & _ & Hs & _). unfold script in Hs.
  rewrite emitting_bind_snd in Hs. cbn [say snd mbind option_bind] in Hs. rewrite emitting_bind_snd in Hs.
  destruct (on_chunks start_state (received lines)).2 as [st|] eqn:Hst; [|done]. cbn [mbind option_bind] in Hs.
  destruct (run_read_loop lines n start_state st Hn Hw Hst) as [rest ->].
  cbn [mbind prog_bind ask run serve mret prog_ret].
  change (prog_bind ?X ?Y ?f ?m) with (mbind (M := prog sreply) (A := X) (B := Y) f m).
  by rewrite run_bind, (run_play _ _ _ Hs).
Qed.
End stream.

(** The request: the caller's own fields, [stream] set, and usage asked for unless the
    caller said otherwise. *)
Lemma streamingRequestBody_spec ctx :
  streamingRequestBody ctx !! "stream" = Some (ABool true) ∧
  streamingRequestBody ctx !! "stream_options" =
    Some (default (AMap (obj [("include_usage", ABool true)])) (ctx !! "stream_options")) ∧
  ∀ k, k ≠ "stream" → k ≠ "stream_options" → streamingRequestBody ctx !! k = ctx !! k.
Proof.
  unfold streamingRequestBody. rewrite lookup_insert_ne by done.
  destruct (ctx !! "stream_options") as [v|] eqn:Hv; split_and!.
  - by rewrite lookup_insert_eq.
  - by rewrite lookup_insert_ne.
  - intros k Hk _. by rewrite lookup_insert_ne.
  - rewrite lookup_insert_ne by done. by rewrite lookup_insert_eq.
  - by rewrite lookup_insert_eq.
  - intros k Hk Hk'. by rewrite !lookup_insert_ne.
Qed.

(** ** Concrete runs *)

Module CompatStreamWitnesses.
(** A table of texts and the documents they denote. *)
Definition fragment_doc (i : string) (id name args : string) : json :=
  JObject [("index", JNumber i); ("id", JString id);
           ("function", JObject [("name", JString name); ("arguments", JString args)])].
Definition delta_doc (delta : list (string * json)) (more : list (string * json)) : json :=
  JObject [("model", JString "m"); ("choices", JArray [JObject ([("index", JNumber "0"); ("delta", JObject delta)] ++ more)])].
Definition texts : list (string * json) :=
  [("think", delta_doc [("reasoning_content", JString "hm")] []);
   ("answer", delta_doc [("content", JString "yes")] []);
   ("call", delta_doc [("tool_calls", JArray [fragment_doc "0" "id0" "f" "ab"])] []);
   ("more", delta_doc [("tool_calls", JArray [fragment_doc "0" "" "" "cd"])] [("finish_reason", JString "tool_calls")]);
   ("usage", JObject [("usage", JObject [("prompt_tokens", JNumber "7"); ("completion_tokens", JNull)])]);
   ("refused1", JObject [("type", JString "urn/bad"); ("detail", JString "Ann")]);
   ("refused2", JObject [("type", JString "urn/bad"); ("detail", JString "Bob")]);
   ("abcd", JObject [])].
#[local] Instance table : Wire :=
  {| json_parse s := match list_find (λ x, x.1 = s) texts with Some (_, (_, j)) => Ok j | None => Err 1%Z end;
     type_offset _ := 0%Z; decode_failure _ := "invalid"; any_of _ := AOther "any"; print_any _ := "?";
     marshal_request _ := Ok (JObject []); bad_url _ := None |}.

Definition local_server : Adapter := {| APIKey := ""; BaseURL := "http://localhost:8000/" |}.
Definition lines : list string :=
  [": a comment"; "data: think"; ""; "data: answer"; "data: call"; "data: more"; "data: usage"; "data: [DONE]"; "data: late"].
Definition exchanged := run_log serve lines (DecideStream 20 local_server None).

Lemma exchanged_history : histories (DecideStream 20 local_server None) exchanged.1.2 exchanged.2.
Proof. unfold exchanged. exact (run_log_histories serve (DecideStream 20 local_server None) lines). Qed.

Example lines_received :
  received lines = received (scanned exchanged.1.2) ∧ exchanged.2 = Some (Returned None) ∧
  map Event (yields exchanged.1.2) =
    ["stream_start"; "reasoning_start"; "reasoning_delta"; "reasoning_end"; "text_start"; "text_delta";
     "tool_call_start"; "tool_call_delta"; "tool_call_delta"; "text_end"; "tool_call_end"; "finish"].
Proof. vm_compute. done. Qed.

Lemma lines_indexes : Forall indexes_ok (received (scanned exchanged.1.2)).
Proof. vm_compute. repeat constructor; done. Qed.

Lemma stream_follows_the_lifecycle_witness :
  ∃ s, accept_all unborn (yields exchanged.1.2) = Some s ∧ exchanged.2 ≠ Some Panicked ∧
    (exchanged.2 = Some (Returned None) → lf_finished s = true).
Proof.
  apply (stream_follows_the_lifecycle 20 local_server None exchanged.1.2 exchanged.2).
  - apply exchanged_history.
  - apply lines_indexes.
Defined.

Lemma stream_carries_everything_witness :
  contents (yields exchanged.1.2) =
    [CReasoning "hm"; CText "yes"; CArguments 0 "ab"; CArguments 0 "cd"] ∧
  FinishReason <$> last (yields exchanged.1.2) = Some "tool_calls".
Proof.
  destruct (stream_carries_everything 20 local_server None exchanged.1.2 exchanged.2) as [_ Hall].
  { apply exchanged_history. }
  destruct (Hall ltac:(vm_compute; reflexivity)) as [-> ->]. split; vm_compute; reflexivity.
Defined.

Lemma well_formed_stream_completes_witness :
  (run serve lines (DecideStream 20 local_server None)).2 = Some (Returned None).
Proof.
  apply (well_formed_stream_completes 20 local_server None lines).
  - discriminate.
  - vm_compute. reflexivity.
  - reflexivity.
  - simpl. lia.
  - vm_compute. eauto 20.
  - vm_compute. repeat constructor; discriminate.
Defined.

Lemma refused_body_is_not_quoted_witness :
  (run (server 422 "refused1") () (Decide (λ _, Some "") local_server None)).2 =
  (run (server 422 "refused2") () (Decide (λ _, Some "") local_server None)).2.
Proof.
  apply (refused_body_is_not_quoted (λ _, Some "") local_server None 422 "refused1" "refused2"
           (JObject [("type", JString "urn/bad"); ("detail", JString "Ann")])
           (JObject [("type", JString "urn/bad"); ("detail", JString "Bob")])); try reflexivity.
  - discriminate.
  - apply (same_detail [("type", JString "urn/bad")] "detail" (JString "Ann") (JString "Bob") []). reflexivity.
Defined.

Definition one_call : wire_call := {| wc_ID := "id0"; wc_Type := "function"; wc_Name := "f"; wc_Arguments := "{bad" |}.
Lemma no_tool_call_is_lost_witness :
  length (openAIShapedToolCalls (λ _, Some "{}") (call_of <$> [one_call])) = 1 ∧
  ∃ shaped, openAIShapedToolCalls (λ _, Some "{}") (call_of <$> [one_call]) !! 0 = Some (AMap shaped) ∧
    shaped !! "aeon_arguments_error" ≠ None.
Proof.
  destruct (no_tool_call_is_lost (λ _, Some "{}") [one_call] 0 one_call) as (Hlen & args & shaped & Hs & _ & _ & _ & _ & He);
    [eexists; reflexivity|reflexivity|].
  split; [exact Hlen|]. exists shaped. split; [exact Hs|].
  intros [?|[?|[fields ?]]]%He; discriminate.
Defined.

(** An index below zero breaks the adapter: arguments for -1, which reads as the call
    already open, panic on a builder that was never made; a call under -2 is opened
    and never ended, and the finish that follows is not accepted. *)
Definition fragment_at (i : Z) : streamChunk :=
  {| st_Model := "m"; st_Choices := [{| sc_Index := 0; sc_FinishReason := ""; sc_Content := ""; sc_ReasoningContent := "";
       sc_ToolCalls := [{| fr_Index := i; fr_ID := ""; fr_Name := "f"; fr_Arguments := "x" |}] |}];
     st_Usage := None; st_Timings := None |}.
Example negative_indexes :
  (script [fragment_at (-1)]).2 = None ∧
  (script [fragment_at (-2)]).2 = Some () ∧ accept_all unborn (script [fragment_at (-2)]).1 = None.
Proof. vm_compute. done. Qed.

(** Two calls whose fragments interleave: the first ends when the second opens, with
    half of its arguments, and ends again with all of them. *)
Definition interleaved : list streamChunk :=
  (λ f : Z * string, {| st_Model := "m"; st_Choices := [{| sc_Index := 0; sc_FinishReason := ""; sc_Content := "";
       sc_ReasoningContent := ""; sc_ToolCalls := [{| fr_Index := f.1; fr_ID := ""; fr_Name := ""; fr_Arguments := f.2 |}] |}];
     st_Usage := None; st_Timings := None |}) <$> [(0%Z, "ab"); (1%Z, "abcd"); (0%Z, "cd")].
Example interleaved_calls_end_twice :
  omap (λ c, (λ tc, (ToolCallIndex c, RawArguments tc, sempty (ArgumentsError tc))) <$> ch_ToolCall c) (script interleaved).1 =
  [(0%Z, "ab", false); (1%Z, "abcd", true); (0%Z, "abcd", true)].
Proof. vm_compute. done. Qed.
End CompatStreamWitnesses.
