(* ===== verification/ToolRegistry.v ===== *)
(** * Package store: the tool registry

    go/internal/store/tool_registry.go and the table tools of migrations 0001 and
    0002: what makes a descriptor acceptable, the statements, and the operations of
    the registry of one tenant. *)

From S2P Require Import Prelude GoValue Json Program.

Local Open Scope string_scope.
Set Default Proof Using "Type*".

Definition SideEffectNone : string := "NONE".
Definition SideEffectReadOnly : string := "READ_ONLY".
Definition SideEffectWriteReversible : string := "WRITE_REVERSIBLE".
Definition SideEffectWriteIrreversible : string := "WRITE_IRREVERSIBLE".
Definition side_effects : list string :=
  [SideEffectNone; SideEffectReadOnly; SideEffectWriteReversible; SideEffectWriteIrreversible].
Definition risks : list string := ["LOW"; "MEDIUM"; "HIGH"; "CRITICAL"].

Definition oneOf (v : string) (options : list string) : bool := existsb (String.eqb v) options.

Lemma oneOf_true v options : oneOf v options = true ↔ v ∈ options.
Proof.
  unfold oneOf. rewrite existsb_exists. setoid_rewrite String.eqb_eq. setoid_rewrite <-list_elem_of_In. naive_solver.
Qed.

Record ToolRecord := {
  ToolID : string;
  tr_Version : string;
  tr_Name : string;
  SideEffect : string;
  Risk : string;
  Descriptor : gomap;
  tr_CreatedAt : Z;
  tr_UpdatedAt : Z;
}.

Inductive ToolError :=
| IdentityRequired
| InvalidSideEffect (s : string)
| InvalidRisk (s : string)
| NoIdempotencyKey (name sideEffect : string)
| MarshalDescriptor
| ToolAlreadyExists (toolID version : string)
| ToolNotFound
| UnmarshalDescriptor
| ToolStoreFailed (op : string) (e : dberr).

Definition mutating (sideEffect : string) : bool :=
  negb (String.eqb sideEffect SideEffectNone) && negb (String.eqb sideEffect SideEffectReadOnly).

Definition validateToolDescriptor (d : gomap)
  : result ToolError (string * string * string * string * string) :=
  let d := items d in
  let toolID := as_string (mget d "tool_id") in
  let version := as_string (mget d "version") in
  let name := as_string (mget d "name") in
  let sideEffect := as_string (mget d "side_effect") in
  let risk := as_string (mget d "risk") in
  if sempty toolID || sempty version || sempty name then Err IdentityRequired else
  if negb (oneOf sideEffect side_effects) then Err (InvalidSideEffect sideEffect) else
  if negb (oneOf risk risks) then Err (InvalidRisk risk) else
  if mutating sideEffect && bool_decide (as_list (mget d "idempotency_key_fields") = [])
  then Err (NoIdempotencyKey name sideEffect)
  else Ok (toolID, version, name, sideEffect, risk).

(** ** The table *)

(** The primary key: tenant, tool id and version. *)
Abbreviation tkey := (string * string * string)%type.

Section tools.
Context `{Postgres, GoJson}.

Record tool_row := {
  to_name : string;
  to_side_effect : string;
  to_risk : string;
  to_descriptor : jsonb;
  to_created_at : Z;
  to_updated_at : Z;
}.
Abbreviation ttable := (gmap tkey tool_row).

Definition key_ok (k : tkey) : bool := text_ok k.1.1 && text_ok k.1.2 && text_ok k.2.

(** The constraints tools_side_effect_valid and tools_risk_valid. *)
Definition classified (sideEffect risk : string) : bool := oneOf sideEffect side_effects && oneOf risk risks.

Definition sql_insert (now : Z) (t : ttable) (k : tkey) (name sideEffect risk : string) (d : json)
  : result refusal (ttable * ()) :=
  match to_jsonb d with
  | Some d =>
      if key_ok k && text_ok name && classified sideEffect risk then
        match t !! k with
        | Some _ => Err UniqueViolation
        | None => Ok (<[k := {| to_name := name; to_side_effect := sideEffect; to_risk := risk; to_descriptor := d;
                                to_created_at := now; to_updated_at := now |}]> t, tt)
        end
      else Err Refused
  | None => Err Refused
  end.
Definition sql_select (t : ttable) (k : tkey) : result refusal (ttable * option tool_row) :=
  if key_ok k then Ok (t, t !! k) else Err Refused.
(** ORDER BY created_at DESC leaves rows of one time in any order. *)
Definition sql_list (tenant : string) (t : ttable) (rows : list (tkey * tool_row)) : Prop :=
  rows ≡ₚ filter (λ kr, kr.1.1.1 = tenant) (map_to_list t) ∧
  StronglySorted (λ a b, (to_created_at b.2 ≤ to_created_at a.2)%Z) rows.

Inductive tcall :=
| TInsert (k : tkey) (name sideEffect risk : string) (d : json)
| TSelect (k : tkey)
| TList (tenant : string).
Definition treply (c : tcall) : Type :=
  match c with
  | TInsert _ _ _ _ _ => result dberr ()
  | TSelect _ => result dberr (option tool_row)
  | TList _ => result dberr (list (tkey * tool_row))
  end.
Abbreviation TM := (prog treply).

Definition tsem (t : ttable) (c : tcall) : treply c → ttable → Prop :=
  match c with
  | TInsert k name sideEffect risk d => λ r t', ∃ now, stmt t (sql_insert now t k name sideEffect risk d) r t'
  | TSelect k => stmt t (sql_select t k)
  | TList tenant => λ r t', t' = t ∧ (r = Err None ∨ r = Err (Some Refused) ∨ ∃ rows, r = Ok rows ∧ sql_list tenant t rows)
  end.
Definition tenant_of (c : tcall) : string :=
  match c with TInsert k _ _ _ _ | TSelect k => k.1.1 | TList tenant => tenant end.

(** ** The operations *)

Definition scanToolRow (toolID version : string) (row : option tool_row) : result ToolError ToolRecord :=
  match row with
  | None => Err ToolNotFound
  | Some r =>
      match unmarshal_map (jsonb_out (to_descriptor r)) with
      | None => Err UnmarshalDescriptor
      | Some d => Ok {| ToolID := toolID; tr_Version := version; tr_Name := to_name r;
                        SideEffect := to_side_effect r; Risk := to_risk r; Descriptor := d;
                        tr_CreatedAt := to_created_at r; tr_UpdatedAt := to_updated_at r |}
      end
  end.

Definition Get (tenant toolID version : string) : TM (result ToolError ToolRecord) :=
  row ← ask (R := treply) (TSelect (tenant, toolID, version));
  mret (match row with
        | Err e => Err (ToolStoreFailed "scan tool" e)
        | Ok row => scanToolRow toolID version row
        end).

Definition Create (tenant : string) (descriptor : gomap) : TM (result ToolError ToolRecord) :=
  match validateToolDescriptor descriptor with
  | Err e => mret (Err e)
  | Ok (toolID, version, name, sideEffect, risk) =>
      match marshal_map descriptor with
      | None => mret (Err MarshalDescriptor)
      | Some d =>
          r ← ask (R := treply) (TInsert (tenant, toolID, version) name sideEffect risk d);
          match r with
          | Err (Some UniqueViolation) => mret (Err (ToolAlreadyExists toolID version))
          | Err e => mret (Err (ToolStoreFailed "create tool" e))
          | Ok _ => Get tenant toolID version
          end
      end
  end.

Definition scan_all (rows : list (tkey * tool_row)) : result ToolError (list ToolRecord) :=
  fold_res (λ out kr, rec ← scanToolRow kr.1.1.2 kr.1.2 (Some kr.2); Ok (out ++ [rec])%list) [] rows.
Definition List (tenant : string) : TM (result ToolError (list ToolRecord)) :=
  rows ← ask (R := treply) (TList tenant);
  mret (match rows with
        | Err e => Err (ToolStoreFailed "list tools" e)
        | Ok rows => scan_all rows
        end).

(** ** What the registry holds *)

Lemma validate_classified d toolID version name sideEffect risk :
  validateToolDescriptor d = Ok (toolID, version, name, sideEffect, risk) →
  classified sideEffect risk = true ∧ toolID ≠ "" ∧ version ≠ "" ∧ name ≠ "" ∧
  (mutating sideEffect = true → as_list (mget (items d) "idempotency_key_fields") ≠ []) ∧
  sideEffect = as_string (mget (items d) "side_effect") ∧ risk = as_string (mget (items d) "risk").
Proof.
  unfold validateToolDescriptor. cbn zeta. set (m := items d).
  destruct (_ || sempty (as_string (mget m "name"))) eqn:Hi; [done|]. apply orb_false_iff in Hi as [[Hi Hve]%orb_false_iff Hn].
  destruct (oneOf (as_string (mget m "side_effect")) side_effects) eqn:Hs; [|done].
  destruct (oneOf (as_string (mget m "risk")) risks) eqn:Hr; [|done]. cbn [negb].
  destruct (_ && _) eqn:Hm; [done|]. intros [= <- <- <- <- <-]. unfold classified. rewrite Hs, Hr.
  apply sempty_false in Hi, Hve, Hn. split_and!; try done.
  intros Hw. rewrite Hw in Hm. by apply bool_decide_eq_false in Hm.
Qed.

(** A row as Create writes it: classified as its descriptor says, and deduplicable if
    it may write. *)
Definition row_sound (r : tool_row) : Prop :=
  classified (to_side_effect r) (to_risk r) = true ∧
  ∃ d j, marshal_map d = Some j ∧ to_jsonb j = Some (to_descriptor r) ∧
    to_side_effect r = as_string (mget (items d) "side_effect") ∧
    (mutating (to_side_effect r) = true → as_list (mget (items d) "idempotency_key_fields") ≠ []).
Definition table_sound (t : ttable) : Prop := map_Forall (λ _ r, row_sound r) t.

(** What a statement may insert. *)
Definition sound_call (c : tcall) : Prop :=
  match c with
  | TInsert k name sideEffect risk d =>
      classified sideEffect risk = true ∧
      ∃ m, marshal_map m = Some d ∧ sideEffect = as_string (mget (items m) "side_effect") ∧
        (mutating sideEffect = true → as_list (mget (items m) "idempotency_key_fields") ≠ [])
  | _ => True
  end.
Lemma tsem_sound t c r t' : sound_call c → tsem t c r t' → table_sound t → table_sound t'.
Proof.
  intros Hc Hs Ht. destruct c as [k name se risk d|k|tenant]; simpl in *.
  - destruct Hs as [now [->|[a Hi]]%stmt_cases]; [done|]. unfold sql_insert in Hi.
    destruct (to_jsonb d) as [b|] eqn:Hb; [|done]. destruct (_ && _); [|done].
    destruct (t !! k); [done|]. injection Hi as <-. apply map_Forall_insert_2; [|done].
    destruct Hc as (Hcl & m & Hm & Hse & Hid). split; [done|]. exists m, d. done.
  - apply stmt_cases in Hs as [->|[a Hi]]; [done|]. unfold sql_select in Hi. destruct (key_ok k); [|done]. by injection Hi as <-.
  - by destruct Hs as [-> _].
Qed.

(** The calls of the operations are of their tenant, and insert only what was validated. *)
Lemma Get_within tenant toolID version : within (λ c, tenant_of c = tenant ∧ sound_call c) (Get tenant toolID version).
Proof. unfold Get. apply within_vis; [done|]. intros r. apply within_ret. Qed.
Lemma Create_within tenant d : within (λ c, tenant_of c = tenant ∧ sound_call c) (Create tenant d).
Proof.
  unfold Create. destruct (validateToolDescriptor d) as [[[[[toolID version] name] se] risk]|e] eqn:Hv; [|apply within_ret].
  destruct (marshal_map d) as [j|] eqn:Hj; [|apply within_ret].
  apply validate_classified in Hv as (Hc & _ & _ & _ & Hm & Hse & _).
  apply within_vis; [split; [done|]; split; [done|]; by exists d|].
  intros [|[[]|]]; [apply Get_within|apply within_ret..].
Qed.
Lemma List_within tenant : within (λ c, tenant_of c = tenant ∧ sound_call c) (List tenant).
Proof. unfold List. apply within_vis; [done|]. intros r. apply within_ret. Qed.

(** *** Any interleaving *)

Inductive top := OCreate (d : gomap) | OGet (toolID version : string) | OList.
Definition oprog (tenant : string) (o : top) : TM () :=
  match o with
  | OCreate d => Create tenant d ≫= λ _, mret tt
  | OGet toolID version => Get tenant toolID version ≫= λ _, mret tt
  | OList => List tenant ≫= λ _, mret tt
  end.
Abbreviation tsteps := (rtc (pool_step (λ _ : string * top, tsem) (λ x, oprog x.1 x.2))).

Lemma oprog_within x : within (λ c, tenant_of c = x.1 ∧ sound_call c) (oprog x.1 x.2).
Proof.
  destruct x as [tenant [d|toolID version|]]; cbn [oprog fst snd]; apply within_bind; intros;
    auto using Create_within, Get_within, List_within, within_ret.
Qed.

(** Whatever descriptors are offered, by whichever tenants, however the statements
    interleave and whichever of them fail: every tool the registry holds has one of the
    four side effects and one of the four risks, those its stored descriptor states,
    and a tool that may write names the arguments that identify a call. *)
Theorem registered_tools_are_classified w ps k row :
  tsteps (∅, ∅) (w, ps) → w !! k = Some row → row_sound row.
Proof.
  intros Hs Hr. assert (table_sound w) as Ht.
  { apply (pool_within _ _ (λ x c, tenant_of c = x.1 ∧ sound_call c) table_sound _ _ oprog_within) in Hs; [done| |done|].
    - intros x t c r t' [_ Hc]. by apply tsem_sound.
    - intros i x m Hi. simpl in Hi. by rewrite lookup_empty in Hi. }
  by apply (Ht k).
Qed.
End tools.

Module ToolRegistryWitnesses.
#[local] Existing Instances verbatim_postgres flat_json.

(** A registration runs to its end: the row it leaves is sound. *)
Definition search : gomap :=
  Some (obj [("tool_id", AString "search"); ("version", AString "1"); ("name", AString "search");
             ("side_effect", AString "READ_ONLY"); ("risk", AString "LOW")]).
Definition handle (t : gmap tkey tool_row) (c : tcall) : gmap tkey tool_row * treply c :=
  match c return gmap tkey tool_row * treply c with
  | TInsert k name se risk d => served_stmt t (sql_insert 0 t k name se risk d)
  | TSelect k => served_stmt t (sql_select t k)
  | TList tenant => (t, Err None)
  end.
Lemma handle_sem (x : string * top) t c : tsem t c (handle t c).2 (handle t c).1.
Proof.
  destruct c as [k name se risk d|k|tenant]; unfold handle, tsem.
  - exists 0%Z. apply served_stmt_stmt.
  - apply served_stmt_stmt.
  - simpl. auto.
Qed.
Definition after : gmap tkey tool_row := (run handle ∅ (oprog "acme" (OCreate search))).1.

Lemma registered_tools_are_classified_witness :
  ∃ row, after !! ("acme", "search", "1") = Some row ∧ row_sound row.
Proof.
  eexists. split; [vm_compute; reflexivity|].
  eapply (registered_tools_are_classified after (<[0 := (("acme", OCreate search), Ret tt)]> ∅) ("acme", "search", "1")).
  - eapply rtc_l; [apply (pool_spawn _ _ _ _ 0 ("acme", OCreate search)); reflexivity|].
    apply (alone_steps _ _ 0 ("acme", OCreate search) _ ∅ ∅ after tt).
    exact (run_alone tsem handle (oprog "acme" (OCreate search)) ∅ (handle_sem ("acme", OCreate search))).
  - vm_compute. reflexivity.
Defined.
End ToolRegistryWitnesses.
