(* ===== verification/ToolSources.v ===== *)
(** * Package toolsource: the operator's bundle

    go/internal/toolsource/toolsource.go: the declaration of external tool sources,
    when it is accepted, and the names it serves tools under. net/url and the parsing
    of an IP address are parameters. *)

From S2P Require Import Prelude GoValue.

Local Open Scope string_scope.
Set Default Proof Using "Type*".

Record Auth := {
  TokenURL : string;
  ClientIDEnv : string;
  ClientSecretEnv : string;
  Scopes : list string;
}.
Record ApprovedTool := {
  at_Name : string;
  at_SideEffect : string;
  at_Risk : string;
  IdempotencyKeyFields : list string;
  DescriptorSHA256 : string;
}.
Record Source := {
  so_ID : string;
  Endpoint : string;
  Prefix : string;
  Refresh : Z;                       (** nanoseconds *)
  so_Auth : option Auth;
  AllowPlainHTTP : bool;
  Tools : list ApprovedTool;
}.
Record Bundle := { Kind : string; Sources : list Source }.

Definition DefaultRefresh : Z := 60000000000.

(** ** What a bundle may say *)

Definition sourceIDPattern : string → bool := ident63.
(** [^[a-z][a-z0-9-]{0,62}\.$] *)
Definition prefixPattern (s : string) : bool :=
  match str_rev s with String c r => byte_is 46 c && ident63 (str_rev r) | EmptyString => false end.
Definition sha256Hex (s : string) : bool := str_all is_hex_lower s && (slen s =? 64)%nat.
(** [^[A-Z][A-Z0-9_]*$] *)
Definition env_tail (c : Ascii.ascii) : bool := is_upper c || is_digit c || byte_is 95 c.
Definition env_name (s : string) : bool :=
  match s with String c r => is_upper c && str_all env_tail r | EmptyString => false end.

Record url := { Scheme : string; Host : string; Hostname : string }.
Class Urls := {
  url_parse : string → option url;
  ip_loopback : string → bool;       (** an IP address, and a loopback one *)
}.

Inductive bundle_error :=
| WrongKind (kind : string)
| NoSources
| BadSourceID (i : nat) (id : string)
| DuplicateSource (id : string)
| BadPrefix (id prefix : string)
| DuplicatePrefix (id prefix prev : string)
| NotAURL (id endpoint : string)
| PlainHTTP (id endpoint : string)
| BadScheme (id scheme : string)
| AuthIncomplete (id : string)
| TokenURLRefused (id : string) (e : bundle_error)
| NotAVariable (id field : string)
| NoTools (id : string)
| ToolNameRequired (id : string) (j : nat)
| DuplicateTool (id name : string)
| Unclassified (id name : string)
| NeedsIdempotencyKey (id name : string)
| BadDigest (id name digest : string).

Section bundles.
Context {Urls0 : Urls}.

Definition isLoopback (host : string) : bool :=
  String.eqb host "localhost" || has_suffix host ".localhost" || ip_loopback host.

Definition validateEndpoint (id endpoint : string) (allowPlainHTTP : bool) : result bundle_error () :=
  match url_parse endpoint with
  | None => Err (NotAURL id endpoint)
  | Some u =>
      if sempty (Host u) then Err (NotAURL id endpoint) else
      if String.eqb (Scheme u) "https" then Ok tt else
      if String.eqb (Scheme u) "http" then
        if isLoopback (Hostname u) then Ok tt else
        if allowPlainHTTP then Ok tt else Err (PlainHTTP id endpoint)
      else Err (BadScheme id (Scheme u))
  end.

Definition validateAuth (id : string) (a : Auth) (allowPlainHTTP : bool) : result bundle_error () :=
  if sempty (TokenURL a) || sempty (ClientIDEnv a) || sempty (ClientSecretEnv a) then Err (AuthIncomplete id) else
  match validateEndpoint id (TokenURL a) allowPlainHTTP with
  | Err e => Err (TokenURLRefused id e)
  | Ok _ =>
      if negb (env_name (ClientIDEnv a)) then Err (NotAVariable id "client_id_env") else
      if negb (env_name (ClientSecretEnv a)) then Err (NotAVariable id "client_secret_env") else Ok tt
  end.

(** One approved tool, with the names seen in its source. *)
Definition check_tool (id : string) (j : nat) (seen : gset string) (t : ApprovedTool)
  : result bundle_error (gset string) :=
  if sempty (at_Name t) then Err (ToolNameRequired id j) else
  if bool_decide (at_Name t ∈ seen) then Err (DuplicateTool id (at_Name t)) else
  if sempty (at_SideEffect t) || sempty (at_Risk t) then Err (Unclassified id (at_Name t)) else
  if negb (String.eqb (at_SideEffect t) "READ_ONLY") && bool_decide (IdempotencyKeyFields t = [])
  then Err (NeedsIdempotencyKey id (at_Name t)) else
  if negb (sempty (DescriptorSHA256 t)) && negb (sha256Hex (DescriptorSHA256 t))
  then Err (BadDigest id (at_Name t) (DescriptorSHA256 t))
  else Ok ({[at_Name t]} ∪ seen).

(** One source, with the ids seen and the source of each prefix. *)
Definition check_source (i : nat) (st : gset string * gmap string string) (s : Source)
  : result bundle_error (gset string * gmap string string) :=
  let id := so_ID s in
  if negb (sourceIDPattern id) then Err (BadSourceID i id) else
  if bool_decide (id ∈ st.1) then Err (DuplicateSource id) else
  if negb (prefixPattern (Prefix s)) then Err (BadPrefix id (Prefix s)) else
  match st.2 !! Prefix s with
  | Some prev => Err (DuplicatePrefix id (Prefix s) prev)
  | None =>
      _ ← validateEndpoint id (Endpoint s) (AllowPlainHTTP s);
      _ ← match so_Auth s with Some a => validateAuth id a (AllowPlainHTTP s) | None => Ok tt end;
      if bool_decide (Tools s = []) then Err (NoTools id) else
      _ ← ifold_res (check_tool id) 0 ∅ (Tools s);
      Ok ({[id]} ∪ st.1, <[Prefix s := id]> st.2)
  end.

Definition Validate (b : Bundle) : result bundle_error () :=
  if negb (String.eqb (Kind b) "ToolSourceBundle") then Err (WrongKind (Kind b)) else
  if bool_decide (Sources b = []) then Err NoSources else
  _ ← ifold_res check_source 0 (∅, ∅) (Sources b); Ok tt.

(** ** Names and times *)

Definition RefreshInterval (s : Source) : Z := if (0 <? Refresh s)%Z then Refresh s else DefaultRefresh.
Definition Approval (s : Source) (sourceToolName : string) : option ApprovedTool :=
  snd <$> list_find (λ t, at_Name t = sourceToolName) (Tools s).
Definition QualifiedName (s : Source) (sourceToolName : string) : string := Prefix s +:+ sourceToolName.
Definition Approved (t : ApprovedTool) : bool := negb (sempty (DescriptorSHA256 t)).

(** A plaintext address that is not the machine itself, if the text is one. *)
Definition plain_remote (text : string) : option url :=
  u ← url_parse text;
  if String.eqb (Scheme u) "http" && negb (isLoopback (Hostname u)) then Some u else None.
(** The sources that talk in the clear: to the source itself, or to its token endpoint. *)
Inductive plain_warning := EndpointInTheClear (id host : string) | TokenInTheClear (id host : string).
Definition source_warnings (s : Source) : list plain_warning :=
  if negb (AllowPlainHTTP s) then [] else
  ((match plain_remote (Endpoint s) with Some u => [EndpointInTheClear (so_ID s) (Host u)] | None => [] end) ++
   match so_Auth s with
   | Some a => match plain_remote (TokenURL a) with Some u => [TokenInTheClear (so_ID s) (Host u)] | None => [] end
   | None => []
   end)%list.
Definition PlainHTTPWarnings (b : Bundle) : list plain_warning := concat (source_warnings <$> Sources b).

(** ** What acceptance means *)

(** An address that is encrypted, local, or explicitly excepted. *)
Definition endpoint_ok (endpoint : string) (allowPlainHTTP : bool) : Prop :=
  ∃ u, url_parse endpoint = Some u ∧ Host u ≠ "" ∧
    (Scheme u = "https" ∨ Scheme u = "http" ∧ (isLoopback (Hostname u) = true ∨ allowPlainHTTP = true)).
Definition auth_ok (a : Auth) (allowPlainHTTP : bool) : Prop :=
  endpoint_ok (TokenURL a) allowPlainHTTP ∧ TokenURL a ≠ "" ∧
  env_name (ClientIDEnv a) = true ∧ env_name (ClientSecretEnv a) = true.
Definition tool_ok (t : ApprovedTool) : Prop :=
  at_Name t ≠ "" ∧ at_SideEffect t ≠ "" ∧ at_Risk t ≠ "" ∧
  (at_SideEffect t ≠ "READ_ONLY" → IdempotencyKeyFields t ≠ []) ∧
  (Approved t = true → sha256Hex (DescriptorSHA256 t) = true).
Definition source_ok (s : Source) : Prop :=
  sourceIDPattern (so_ID s) = true ∧ prefixPattern (Prefix s) = true ∧
  endpoint_ok (Endpoint s) (AllowPlainHTTP s) ∧
  (∀ a, so_Auth s = Some a → auth_ok a (AllowPlainHTTP s)) ∧
  Tools s ≠ [] ∧ NoDup (at_Name <$> Tools s) ∧ Forall tool_ok (Tools s).
Definition bundle_ok (b : Bundle) : Prop :=
  Kind b = "ToolSourceBundle" ∧ Sources b ≠ [] ∧
  NoDup (so_ID <$> Sources b) ∧ NoDup (Prefix <$> Sources b) ∧ Forall source_ok (Sources b).

Lemma validateEndpoint_ok id endpoint allow : is_ok (validateEndpoint id endpoint allow) = true ↔ endpoint_ok endpoint allow.
Proof.
  unfold validateEndpoint, endpoint_ok. destruct (url_parse endpoint) as [u|]; [|naive_solver].
  destruct (sempty (Host u)) eqn:Hh; [apply sempty_true in Hh; naive_solver|apply sempty_false in Hh].
  destruct (String.eqb_spec (Scheme u) "https") as [Hs|Hs]; [naive_solver|].
  destruct (String.eqb_spec (Scheme u) "http") as [Hs'|Hs']; [|naive_solver].
  destruct (isLoopback (Hostname u)) eqn:Hl; [naive_solver|]. destruct allow; naive_solver.
Qed.

Lemma env_name_nonempty s : env_name s = true → sempty s = false.
Proof. by destruct s. Qed.

Lemma validateAuth_ok id a allow : is_ok (validateAuth id a allow) = true ↔ auth_ok a allow.
Proof.
  unfold validateAuth, auth_ok. rewrite <-(validateEndpoint_ok id), <-sempty_false.
  destruct (env_name (ClientIDEnv a)) eqn:Hi; [apply env_name_nonempty in Hi as ->|].
  2:{ destruct (_ || _); [naive_solver|]. destruct (validateEndpoint _ _ _); naive_solver. }
  destruct (env_name (ClientSecretEnv a)) eqn:Hs; [apply env_name_nonempty in Hs as ->|].
  2:{ destruct (_ || _); [naive_solver|]. destruct (validateEndpoint _ _ _); naive_solver. }
  destruct (sempty (TokenURL a)); simpl; [naive_solver|]. destruct (validateEndpoint _ _ _); naive_solver.
Qed.

Lemma check_tool_ok id j seen t seen' :
  check_tool id j seen t = Ok seen' ↔ tool_ok t ∧ (at_Name t ∉ seen) ∧ (seen' = {[at_Name t]} ∪ seen).
Proof.
  unfold check_tool, tool_ok, Approved. rewrite <-!sempty_false.
  destruct (sempty (at_Name t)); [naive_solver|]. case_bool_decide; [naive_solver|].
  destruct (sempty (at_SideEffect t)), (sempty (at_Risk t)); simpl; try naive_solver.
  destruct (String.eqb_spec (at_SideEffect t) "READ_ONLY"); simpl; try case_bool_decide; try naive_solver.
  all: destruct (sempty (DescriptorSHA256 t)), (sha256Hex (DescriptorSHA256 t)); simpl; naive_solver.
Qed.

Lemma is_ok_true {E A} (r : result E A) : is_ok r = true ↔ ∃ a, r = Ok a.
Proof. destruct r; naive_solver. Qed.

Lemma check_tools_ok id i seen l :
  is_ok (ifold_res (check_tool id) i seen l) = true ↔
  Forall tool_ok l ∧ NoDup (at_Name <$> l) ∧ (∀ t, t ∈ l → at_Name t ∉ seen).
Proof.
  revert i seen. induction l as [|t l IH]; intros i seen; simpl.
  { split; [intros _; split_and!; [constructor|constructor|by intros ? ?%not_elem_of_nil]|done]. }
  rewrite Forall_cons, NoDup_cons. destruct (check_tool id i seen t) as [seen'|e] eqn:Ht.
  - apply check_tool_ok in Ht as (Hok & Hn & ->). rewrite IH. split.
    + intros (Hall & Hnd & Hs). split_and!; try done; [|set_solver]. intros (t' & Heq & Ht')%list_elem_of_fmap. set_solver.
    + intros ([_ Hall] & [Hni Hnd] & Hs). split_and!; try done. intros t' Ht' [Heq%elem_of_singleton|?]%elem_of_union; [|set_solver].
      apply Hni, list_elem_of_fmap. by exists t'.
  - split; [done|]. intros ([Hok _] & _ & Hn). exfalso.
    assert (check_tool id i seen t = Ok ({[at_Name t]} ∪ seen)) as Hc; [|congruence].
    apply check_tool_ok. split_and!; [done|apply Hn; by left|done].
Qed.

Lemma check_tools_ok_empty id l :
  is_ok (ifold_res (check_tool id) 0 ∅ l) = true ↔ NoDup (at_Name <$> l) ∧ Forall tool_ok l.
Proof. rewrite check_tools_ok. split; [naive_solver|]. intros [? ?]. by split_and!. Qed.

Lemma check_source_ok i st s st' :
  check_source i st s = Ok st' ↔
  source_ok s ∧ (so_ID s ∉ st.1) ∧ st.2 !! Prefix s = None ∧ st' = ({[so_ID s]} ∪ st.1, <[Prefix s := so_ID s]> st.2).
Proof.
  unfold check_source, source_ok. rewrite <-(validateEndpoint_ok (so_ID s)), <-(check_tools_ok_empty (so_ID s)).
  destruct (sourceIDPattern (so_ID s)); simpl; [|naive_solver]. case_bool_decide; [naive_solver|].
  destruct (prefixPattern (Prefix s)); simpl; [|naive_solver]. destruct (st.2 !! Prefix s); [naive_solver|].
  destruct (validateEndpoint _ _ _) as [[]|]; simpl; [|naive_solver].
  destruct (so_Auth s) as [a|]; simpl.
  - pose proof (validateAuth_ok (so_ID s) a (AllowPlainHTTP s)) as Ha.
    destruct (validateAuth _ _ _) as [[]|]; simpl; [|naive_solver]. case_bool_decide; [naive_solver|].
    destruct (ifold_res _ _ _ _); simpl; naive_solver.
  - case_bool_decide; [naive_solver|]. destruct (ifold_res _ _ _ _); simpl; naive_solver.
Qed.

Lemma check_sources_ok i st l :
  is_ok (ifold_res check_source i st l) = true ↔
  Forall source_ok l ∧ NoDup (so_ID <$> l) ∧ NoDup (Prefix <$> l) ∧
  (∀ s, s ∈ l → (so_ID s ∉ st.1) ∧ st.2 !! Prefix s = None).
Proof.
  revert i st. induction l as [|s l IH]; intros i st; simpl.
  { split; [intros _; split_and!; [constructor|constructor|constructor|by intros ? ?%not_elem_of_nil]|done]. }
  rewrite Forall_cons, !NoDup_cons. destruct (check_source i st s) as [st'|e] eqn:Hs.
  - apply check_source_ok in Hs as (Hok & Hid & Hp & ->). rewrite IH. simpl. split.
    + intros (Hall & Hni & Hnp & Hl). split_and!; try done.
      * intros (s' & Heq & Hs')%list_elem_of_fmap. destruct (Hl s' Hs') as [? _]. set_solver.
      * intros (s' & Heq & Hs')%list_elem_of_fmap. destruct (Hl s' Hs') as [_ Hn]. by rewrite Heq, lookup_insert_eq in Hn.
      * intros s' [->|Hs']%elem_of_cons; [done|]. destruct (Hl s' Hs') as [? Hn]. split; [set_solver|].
        destruct (decide (Prefix s = Prefix s')) as [Heq|Hne]; [by rewrite <-Heq|by rewrite lookup_insert_ne in Hn].
    + intros ([_ Hall] & [Hni Hni'] & [Hnp Hnp'] & Hl). split_and!; try done.
      intros s' Hs'. destruct (Hl s') as [Hid' Hp']; [by right|]. split.
      * intros [Heq|?]%elem_of_union; [|done]. apply Hni, list_elem_of_fmap. exists s'. set_solver.
      * rewrite lookup_insert_ne; [done|]. intros Heq. apply Hnp, list_elem_of_fmap. by exists s'.
  - split; [done|]. intros ([Hok _] & _ & _ & Hl). exfalso. destruct (Hl s) as [Hid Hp]; [by left|].
    rewrite (proj2 (check_source_ok i st s _) (conj Hok (conj Hid (conj Hp eq_refl)))) in Hs. done.
Qed.

Lemma accepted_bundle b : is_ok (Validate b) = true → bundle_ok b.
Proof.
  unfold Validate, bundle_ok. destruct (String.eqb_spec (Kind b) "ToolSourceBundle"); simpl; [|done].
  case_bool_decide; [done|]. pose proof (check_sources_ok 0 (∅, ∅) (Sources b)) as Hc.
  destruct (ifold_res _ _ _ _); simpl in *; [|done]. naive_solver.
Qed.

(** A bundle is accepted exactly when it says what a federation needs: sources with
    distinct ids and distinct one-dot prefixes, addresses (the token endpoint's too)
    that are encrypted, local or explicitly excepted, credentials that are names of
    variables, and for each source some tools, each classified, deduplicable unless it
    is read-only, and pinned by a digest or left unapproved. *)
Theorem Validate_spec b : is_ok (Validate b) = true ↔ bundle_ok b.
Proof.
  split; [apply accepted_bundle|]. intros (Hk & Hne & Hs). unfold Validate. rewrite Hk, bool_decide_false by done.
  simpl. pose proof (check_sources_ok 0 (∅, ∅) (Sources b)) as Hc. destruct (ifold_res _ _ _ _); naive_solver.
Qed.

(** ** Names *)

(** A prefix is letters, digits and dashes, then its only dot. *)
Lemma prefix_shape s : prefixPattern s = true → ∃ p, s = p +:+ "." ∧ str_all (λ c, negb (byte_is 46 c)) p = true.
Proof.
  unfold prefixPattern. destruct (str_rev s) as [|c r] eqn:Hr; [done|]. intros [Hc Hi]%andb_true_iff.
  exists (str_rev r). split.
  - rewrite <-(str_rev_involutive s), Hr. unfold str_rev at 1. simpl.
    assert (c = Ascii.ascii_of_nat 46) as -> by (destruct c as [[] [] [] [] [] [] [] []]; done).
    unfold str_rev. clear. change (String (Ascii.ascii_of_nat 46) "") with ("" +:+ ".") at 1.
    generalize EmptyString at 1 3. revert r. fix IH 1. intros [|c r] acc; [done|]. simpl. apply (IH r (String c acc)).
  - revert Hi. generalize (str_rev r). clear. intros p. unfold ident63. destruct p as [|c p]; [done|].
    intros [[Hl Hp]%andb_true_iff _]%andb_true_iff. simpl. apply andb_true_iff. split.
    + destruct c as [[] [] [] [] [] [] [] []]; done.
    + clear -Hp. induction p as [|c p IH]; [done|]. simpl in *. apply andb_true_iff in Hp as [Hc Hp].
      rewrite (IH Hp), andb_true_r. destruct c as [[] [] [] [] [] [] [] []]; done.
Qed.

Lemma before_dot p q x y :
  str_all (λ c, negb (byte_is 46 c)) p = true → str_all (λ c, negb (byte_is 46 c)) q = true →
  p +:+ String (Ascii.ascii_of_nat 46) x = q +:+ String (Ascii.ascii_of_nat 46) y → p = q ∧ x = y.
Proof.
  revert q. induction p as [|c p IH]; intros [|d q] Hp Hq He; simpl in *.
  - by injection He as ->.
  - injection He as <- _. done.
  - injection He as -> _. done.
  - apply andb_true_iff in Hp as [_ Hp], Hq as [_ Hq]. injection He as -> He.
    destruct (IH q Hp Hq He) as [-> ->]. done.
Qed.

Lemma QualifiedName_inj s s' n n' :
  prefixPattern (Prefix s) = true → prefixPattern (Prefix s') = true →
  QualifiedName s n = QualifiedName s' n' → Prefix s = Prefix s' ∧ n = n'.
Proof.
  intros (p & Hp & Hpd)%prefix_shape (q & Hq & Hqd)%prefix_shape. unfold QualifiedName. rewrite Hp, Hq.
  rewrite <-!str_app_assoc. intros [-> ->]%before_dot; done.
Qed.
End bundles.
