(* ===== verification/Federation.v ===== *)
(** * Package toolsource: the federation

    go/internal/toolsource/federation.go and the client's view of a source in
    go/internal/mcp/adapter.go: how a source is listed again, which of its tools are
    published, what is registered to call them, and a call. The locked accesses to the
    federation's maps, the executor's registrations and the messages to a source are
    the calls of a program; a source may answer anything. *)

From S2P Require Import Prelude GoValue Json Program Sha256 ToolExec ToolRegistry ToolSources.

Local Open Scope string_scope.
Set Default Proof Using "Type*".

Record DiscoveredTool := { dt_Name : string; dt_Description : string; dt_InputSchema : gomap }.
Record ToolCallOutcome := {
  tc_IsError : bool; tc_Text : string; tc_Content : list any; tc_Structured : any }.
(** A session: the version it settled on. *)
Record session := { NegotiatedProtocolVersion : string }.

Record SourceReport := {
  rp_SourceID : string;
  Served : list string;
  NotApproved : list string;
  Drifted : gmap string string;
  Pending : gmap string string;
  Missing : list string;
  rp_Err : option string;
}.
Definition new_report (s : Source) : SourceReport :=
  {| rp_SourceID := so_ID s; Served := []; NotApproved := []; Drifted := ∅; Pending := ∅; Missing := []; rp_Err := None |}.

Inductive fcall : Type :=
| FLookup (id : string) | FConnect (endpoint : string) | FKeep (id : string) (s : session) | FDrop (id : string)
| FListTools (s : session) | FCallTool (s : session) (name : string) (args : gomap)
| FNow | FFind (toolName : string) | FRegister (toolName sourceID sourceToolName : string)
| FPublish (id : string) (rows : list ToolRecord) | FRows.
Definition freply (c : fcall) : Type :=
  match c with
  | FLookup _ => option session
  | FConnect _ => result string session
  | FListTools _ => result string (list DiscoveredTool)
  | FCallTool _ _ _ => result string ToolCallOutcome
  | FNow => Z
  | FFind _ => option (string * string)
  | FRows => gmap string (list ToolRecord)
  | FKeep _ _ | FDrop _ | FRegister _ _ _ | FPublish _ _ => ()
  end.
Abbreviation FM := (prog freply).

(** The federation's maps, and what the executor runs for a federated name: the id of
    a source and the tool's name there. *)
Record fworld := {
  sessions : gmap string session;
  rows : gmap string (list ToolRecord);
  federated : gmap string (string * string);
}.
Definition fempty : fworld := {| sessions := ∅; rows := ∅; federated := ∅ |}.

Definition fsem (w : fworld) (c : fcall) : freply c → fworld → Prop :=
  match c with
  | FLookup id => λ r w', r = sessions w !! id ∧ w' = w
  | FKeep id s => λ _ w', w' = {| sessions := <[id := s]> (sessions w); rows := rows w; federated := federated w |}
  | FDrop id => λ _ w', w' = {| sessions := delete id (sessions w); rows := rows w; federated := federated w |}
  | FFind q => λ r w', r = federated w !! q ∧ w' = w
  | FRegister q id name => λ _ w',
      w' = {| sessions := sessions w; rows := rows w; federated := <[q := (id, name)]> (federated w) |}
  | FPublish id l => λ _ w', w' = {| sessions := sessions w; rows := <[id := l]> (rows w); federated := federated w |}
  | FRows => λ r w', r = rows w ∧ w' = w
  | FConnect _ | FListTools _ | FCallTool _ _ _ | FNow => λ _ w', w' = w
  end.

Section federation.
Context `{GoJson} {Sort0 : GoRuntime}.
(** [jcs.Transform], from a document to canonical bytes. *)
Context (Transform : json → option string).

Definition descriptor_of (d : DiscoveredTool) : gomap :=
  Some (obj [("name", AString (dt_Name d)); ("description", AString (dt_Description d));
             ("input_schema", match dt_InputSchema d with Some m => AMap m | None => ANil end)]).
Definition DescriptorFingerprint (d : DiscoveredTool) : result string string :=
  match marshal_map (descriptor_of d) with
  | None => Err "toolsource: encoding descriptor"
  | Some raw =>
      match Transform raw with
      | None => Err "toolsource: canonicalizing descriptor"
      | Some canonical => Ok (sha256_hex canonical)
      end
  end.

(** ** Sessions *)

Definition session_of (s : Source) : FM (result string session) :=
  existing ← ask (R := freply) (FLookup (so_ID s));
  match existing with
  | Some e => mret (Ok e)
  | None =>
      c ← ask (R := freply) (FConnect (Endpoint s));
      match c with
      | Err e => mret (Err e)
      | Ok c => _ ← ask (R := freply) (FKeep (so_ID s) c); mret (Ok c)
      end
  end.
Definition sessionByID (sources : list Source) (id : string) : FM (result string session) :=
  match list_find (λ s, so_ID s = id) sources with
  | Some (_, s) => session_of s
  | None => mret (Err "no such tool source")
  end.

(** ** Listing a source again *)

(** The row of an approved tool; its key fields are a []string there. *)
Definition row_of (s : Source) (c : session) (approval : ApprovedTool) (d : DiscoveredTool) (digest : string)
    (created updated : Z) : ToolRecord :=
  let qualified := QualifiedName s (dt_Name d) in
  {| ToolID := qualified; tr_Version := "1.0.0"; tr_Name := qualified;
     SideEffect := at_SideEffect approval; Risk := at_Risk approval;
     Descriptor := Some (obj [("description", AString (dt_Description d));
       ("input_schema", match dt_InputSchema d with Some m => AMap m | None => ANil end);
       ("mcp_origin", AMap (obj [("server", AString (Endpoint s)); ("spec_version", AString (NegotiatedProtocolVersion c))]));
       ("idempotency_key_fields", AList (AString <$> IdempotencyKeyFields approval));
       ("descriptor_sha256", AString digest)]);
     tr_CreatedAt := created; tr_UpdatedAt := updated |}.

(** Which of the states a discovered tool is in. *)
Inductive verdict := Unlisted | Changed (observed : string) | Unreviewed (digest : string)
  | Accepted (approval : ApprovedTool) (digest : string).
Definition verdict_of (s : Source) (d : DiscoveredTool) : verdict :=
  match Approval s (dt_Name d) with
  | None => Unlisted
  | Some approval =>
      match DescriptorFingerprint d with
      | Err e => Changed ("descriptor could not be canonicalized: " +:+ e)
      | Ok digest =>
          if negb (Approved approval) then Unreviewed digest
          else if negb (String.eqb digest (DescriptorSHA256 approval)) then Changed digest
          else Accepted approval digest
      end
  end.

Definition report_with (r : SourceReport) (served unapproved : list string) (drifted pending : gmap string string) :=
  {| rp_SourceID := rp_SourceID r; Served := served; NotApproved := unapproved; Drifted := drifted;
     Pending := pending; Missing := Missing r; rp_Err := rp_Err r |}.
Fixpoint review (s : Source) (c : session) (discovered : list DiscoveredTool) (rep : SourceReport) (out : list ToolRecord)
  : FM (SourceReport * list ToolRecord) :=
  match discovered with
  | [] => mret (rep, out)
  | d :: discovered =>
      match verdict_of s d with
      | Unlisted =>
          review s c discovered (report_with rep (Served rep) (NotApproved rep ++ [dt_Name d]) (Drifted rep) (Pending rep)) out
      | Changed observed =>
          review s c discovered (report_with rep (Served rep) (NotApproved rep) (<[dt_Name d := observed]> (Drifted rep)) (Pending rep)) out
      | Unreviewed digest =>
          review s c discovered (report_with rep (Served rep) (NotApproved rep) (Drifted rep) (<[dt_Name d := digest]> (Pending rep))) out
      | Accepted approval digest =>
          created ← ask (R := freply) FNow;
          updated ← ask (R := freply) FNow;
          let row := row_of s c approval d digest created updated in
          _ ← ask (R := freply) (FRegister (tr_Name row) (so_ID s) (at_Name approval));
          review s c discovered (report_with rep (Served rep ++ [tr_Name row]) (NotApproved rep) (Drifted rep) (Pending rep))
            (out ++ [row])
      end
  end%list.

Definition failed_report (s : Source) (e : string) : SourceReport :=
  {| rp_SourceID := so_ID s; Served := []; NotApproved := []; Drifted := ∅; Pending := ∅; Missing := []; rp_Err := Some e |}.
Definition missing (s : Source) (discovered : list DiscoveredTool) : list string :=
  filter (λ n, n ∉ dt_Name <$> discovered) (at_Name <$> Tools s).

Definition refreshSource (s : Source) : FM SourceReport :=
  c ← session_of s;
  match c with
  | Err e => mret (failed_report s e)
  | Ok c =>
      listed ← ask (R := freply) (FListTools c);
      match listed with
      | Err e => _ ← ask (R := freply) (FDrop (so_ID s)); mret (failed_report s e)
      | Ok discovered =>
          '(rep, out) ← review s c discovered (new_report s) [];
          _ ← ask (R := freply) (FPublish (so_ID s) (sort_slice (λ a b, str_ltb (tr_Name a) (tr_Name b)) out));
          mret {| rp_SourceID := rp_SourceID rep; Served := Served rep; NotApproved := NotApproved rep;
                  Drifted := Drifted rep; Pending := Pending rep; Missing := missing s discovered; rp_Err := None |}
      end
  end.
Fixpoint refresh_all (sources : list Source) : FM (list SourceReport) :=
  match sources with
  | [] => mret []
  | s :: sources => r ← refreshSource s; rs ← refresh_all sources; mret (r :: rs)
  end.

(** ** Calling *)

(** What the executor runs for a federated name. *)
Definition call_federated (sources : list Source) (id name : string) (args : gomap) : FM (result string (gmap string any)) :=
  c ← sessionByID sources id;
  match c with
  | Err e => mret (Err ("toolsource: " +:+ id +:+ ": " +:+ e))
  | Ok c =>
      r ← ask (R := freply) (FCallTool c name args);
      match r with
      | Err e => _ ← ask (R := freply) (FDrop id); mret (Err ("toolsource: " +:+ id +:+ "/" +:+ name +:+ ": " +:+ e))
      | Ok outcome =>
          mret (if tc_IsError outcome
                then Err ("toolsource: " +:+ id +:+ "/" +:+ name +:+ " reported an error: " +:+ tc_Text outcome)
                else Ok (ForwardedResult (tc_Content outcome) (tc_Structured outcome)))
      end
  end.
Definition execute_federated (sources : list Source) (toolName : string) (args : gomap) : FM (result string (gmap string any)) :=
  found ← ask (R := freply) (FFind toolName);
  match found with
  | None => mret (Err (unknown_tool toolName))
  | Some (id, name) => call_federated sources id name args
  end.

(** The rows of every source, by name. *)
Definition listing (m : gmap string (list ToolRecord)) : list ToolRecord :=
  sort_slice (λ a b, str_ltb (tr_Name a) (tr_Name b)) (concat (snd <$> map_to_list m)).
Definition List_ : FM (list ToolRecord) := m ← ask (R := freply) FRows; mret (listing m).

(** ** What is served *)

(** A row that is an approved tool of a source as it was approved: the operator's
    classification, over a descriptor whose fingerprint is the one that was pinned. *)
Definition pinned (s : Source) (r : ToolRecord) : Prop :=
  ∃ approval d, approval ∈ Tools s ∧ at_Name approval = dt_Name d ∧ Approved approval = true ∧
    DescriptorFingerprint d = Ok (DescriptorSHA256 approval) ∧
    tr_Name r = QualifiedName s (dt_Name d) ∧ ToolID r = tr_Name r ∧
    SideEffect r = at_SideEffect approval ∧ Risk r = at_Risk approval ∧
    mget (items (Descriptor r)) "description" = AString (dt_Description d) ∧
    mget (items (Descriptor r)) "input_schema" = match dt_InputSchema d with Some m => AMap m | None => ANil end.

Lemma Approval_Some s name approval :
  Approval s name = Some approval → approval ∈ Tools s ∧ at_Name approval = name.
Proof.
  unfold Approval. intros ([i t] & (Hi & Hn & _)%list_find_Some & ->)%fmap_Some. simpl.
  split; [by eapply list_elem_of_lookup_2|done].
Qed.
Lemma Approval_None s name : Approval s name = None ↔ name ∉ at_Name <$> Tools s.
Proof.
  unfold Approval. rewrite fmap_None, list_find_None, Forall_forall. split.
  - intros Hn (t & -> & Ht)%list_elem_of_fmap. by apply (Hn t).
  - intros Hn t Ht Heq. apply Hn, list_elem_of_fmap. by exists t.
Qed.

Lemma verdict_accepted s d approval digest :
  verdict_of s d = Accepted approval digest ↔
  Approval s (dt_Name d) = Some approval ∧ DescriptorFingerprint d = Ok digest ∧ Approved approval = true ∧
  digest = DescriptorSHA256 approval.
Proof.
  unfold verdict_of. destruct (Approval s (dt_Name d)) as [a|]; [|by split; [|intros (? & ?)]].
  destruct (DescriptorFingerprint d) as [g|]; [|by split; [|intros (? & ? & ?)]].
  destruct (Approved a) eqn:Ha; simpl; [|by split; [|intros ([= <-] & _ & ? & _); congruence]].
  destruct (String.eqb_spec g (DescriptorSHA256 a)) as [He|He]; simpl.
  - split; [by intros [= <- <-]|by intros ([= <-] & [= <-] & _)].
  - split; [done|]. by intros ([= <-] & [= <-] & _ & ?).
Qed.

Lemma accepted_pinned s c d approval digest t t' :
  verdict_of s d = Accepted approval digest → pinned s (row_of s c approval d digest t t').
Proof.
  intros (Ha & Hf & Hok & ->)%verdict_accepted. apply Approval_Some in Ha as [Hin Hn].
  exists approval, d. split_and!; try done.
Qed.

(** What a refresh of a source, and a call, may ask for. *)
Definition fcall_ok (sources : list Source) (c : fcall) : Prop :=
  match c with
  | FRegister q id name => ∃ s r, s ∈ sources ∧ so_ID s = id ∧ pinned s r ∧ tr_Name r = q ∧ q = QualifiedName s name
  | FPublish id l => ∃ s, s ∈ sources ∧ so_ID s = id ∧ Forall (pinned s) l
  | _ => True
  end.

Lemma session_of_within sources s : within (fcall_ok sources) (session_of s).
Proof.
  unfold session_of. apply within_vis; [done|]. intros [e|]; [apply within_ret|].
  apply within_vis; [done|]. intros [c|e]; [|apply within_ret]. apply within_vis; [done|]. intros _. apply within_ret.
Qed.

Lemma review_within sources s c ds rep out :
  s ∈ sources → within (fcall_ok sources) (review s c ds rep out).
Proof.
  intros Hs. revert rep out. induction ds as [|d ds IH]; intros rep out; [apply within_ret|]. cbn [review].
  destruct (verdict_of s d) as [| | |approval digest] eqn:Hv; [apply IH..|].
  apply within_vis; [done|]. intros created. apply within_vis; [done|]. intros updated.
  apply within_vis; [|intros _; apply IH]. exists s. eexists.
  split_and!; [done..|by apply (accepted_pinned s c d approval digest created updated)|done|].
  apply verdict_accepted in Hv as (Ha & _). apply Approval_Some in Ha as [_ Hn]. simpl. by rewrite Hn.
Qed.

Lemma review_returns_pinned s c ds rep out res :
  Forall (pinned s) out → returns (review s c ds rep out) res → Forall (pinned s) res.2.
Proof.
  revert rep out. induction ds as [|d ds IH]; intros rep out Hout; cbn [review]; [by intros ->|].
  destruct (verdict_of s d) as [| | |approval digest] eqn:Hv; [by apply IH..|].
  intros (created & updated & [] & Hr). apply IH in Hr; [done|].
  apply Forall_app. split; [done|]. apply Forall_singleton. by apply accepted_pinned.
Qed.

Lemma refreshSource_within sources s : s ∈ sources → within (fcall_ok sources) (refreshSource s).
Proof.
  intros Hs c Hc. unfold refreshSource in Hc.
  apply emits_bind in Hc as [Hc|(r & _ & Hc)]; [by apply (session_of_within sources s)|].
  destruct r as [sess|e]; [|done]. destruct Hc as [->|[[ds|e] Hc]]; [done| |].
  2:{ destruct Hc as [->|[[] []]]; done. }
  cbn [prog_bind] in Hc. apply emits_bind in Hc as [Hc|([rep out] & Hr & Hc)]; [by apply (review_within sources s sess ds (new_report s) [])|].
  apply review_returns_pinned in Hr; [|constructor]. destruct Hc as [->|[[] []]].
  exists s. split_and!; try done. by rewrite sort_slice_perm.
Qed.

Lemma refresh_all_within sources l : (∀ s, s ∈ l → s ∈ sources) → within (fcall_ok sources) (refresh_all l).
Proof.
  intros Hl. induction l as [|s l IH]; [apply within_ret|]. cbn [refresh_all].
  apply within_bind; [apply refreshSource_within, Hl; by left|]. intros r.
  apply within_bind; [apply IH; intros s' Hs'; apply Hl; by right|]. intros rs. apply within_ret.
Qed.

Lemma execute_federated_within sources q args : within (fcall_ok sources) (execute_federated sources q args).
Proof.
  unfold execute_federated. apply within_vis; [done|]. intros [[id name]|]; [|apply within_ret].
  unfold call_federated. apply within_bind.
  { unfold sessionByID. destruct (list_find _ _) as [[i s]|]; [apply session_of_within|apply within_ret]. }
  intros [c|e]; [|apply within_ret]. apply within_vis; [done|]. intros [o|e]; [apply within_ret|].
  apply within_vis; [done|]. intros _. apply within_ret.
Qed.

(** *** Refreshes, calls and listings at once *)

(** A refresh of the source of an index, a call of a name, a listing. *)
Inductive fop := ORefresh (i : nat) | OCall (q : string) (args : gomap) | OListing.
Definition foprog (sources : list Source) (o : fop) : FM () :=
  match o with
  | ORefresh i => match sources !! i with Some s => refreshSource s ≫= λ _, mret tt | None => mret tt end
  | OCall q args => execute_federated sources q args ≫= λ _, mret tt
  | OListing => List_ ≫= λ _, mret tt
  end.
Abbreviation fsteps sources := (rtc (pool_step (λ _ : fop, fsem) (foprog sources))).

Lemma foprog_within sources o : within (fcall_ok sources) (foprog sources o).
Proof.
  destruct o as [i|q args|]; cbn [foprog].
  - destruct (sources !! i) as [s|] eqn:Hi; [|apply within_ret]. apply list_elem_of_lookup_2 in Hi.
    apply within_bind; [by apply refreshSource_within|]. intros r. apply within_ret.
  - apply within_bind; [apply execute_federated_within|]. intros r. apply within_ret.
  - apply within_bind; [apply within_vis; [done|]; intros r; apply within_ret|]. intros r. apply within_ret.
Qed.

(** Every published row is pinned, and every federated name is a pinned tool's. *)
Definition fed_ok (sources : list Source) (w : fworld) : Prop :=
  (∀ id l r, rows w !! id = Some l → r ∈ l → ∃ s, s ∈ sources ∧ so_ID s = id ∧ pinned s r) ∧
  (∀ q id name, federated w !! q = Some (id, name) →
     ∃ s r, s ∈ sources ∧ so_ID s = id ∧ pinned s r ∧ tr_Name r = q ∧ q = QualifiedName s name).

Lemma fsem_ok sources w c r w' : fcall_ok sources c → fsem w c r w' → fed_ok sources w → fed_ok sources w'.
Proof.
  intros Hc Hs [Hr Hf]. destruct c; simpl in *;
    try match type of Hs with _ ∧ _ => destruct Hs as [_ Hs] end; subst; try (split; [exact Hr|exact Hf]).
  - split; [exact Hr|]. simpl. intros q id name [[<- [= <- <-]]|[_ Hq]]%lookup_insert_Some; [done|by eapply Hf].
  - split; [|exact Hf]. simpl. intros id' l r' [[<- <-]|[_ Hq]]%lookup_insert_Some Hin; [|by eapply Hr].
    destruct Hc as (s & Hin' & Hid & Hall). exists s. rewrite Forall_forall in Hall. auto.
Qed.

Lemma reachable_fed_ok sources w ps : fsteps sources (fempty, ∅) (w, ps) → fed_ok sources w.
Proof.
  intros Hs. apply (pool_within _ _ (λ _, fcall_ok sources) (fed_ok sources) _ _ (foprog_within sources)) in Hs; [done| | |].
  - intros o w0 c r w1. apply fsem_ok.
  - split; intros; simpl in *; simplify_map_eq.
  - intros i o m Hi. simpl in Hi. by rewrite lookup_empty in Hi.
Qed.

(** C18. What is listed is what a person approved: however refreshes of all sources,
    calls and listings interleave and whatever the sources answer, every row served is
    a tool of its source's bundle under the operator's classification, with a
    description and a schema whose fingerprint is the pinned one; and when the bundle
    is one Validate accepts, a name is served by one source only. *)
Theorem served_tools_are_approved {Urls0 : Urls} b w ps id l r :
  bundle_ok b → fsteps (Sources b) (fempty, ∅) (w, ps) → rows w !! id = Some l → r ∈ l →
  (∃ s, s ∈ Sources b ∧ so_ID s = id ∧ pinned s r) ∧
  (∀ id' l' r', rows w !! id' = Some l' → r' ∈ l' → tr_Name r' = tr_Name r →
     id' = id ∧ SideEffect r' = SideEffect r ∧ Risk r' = Risk r).
Proof.
  intros (_ & _ & Hids & Hps & Hall) Hw Hl Hr. apply reachable_fed_ok in Hw as [Hrows _].
  destruct (Hrows id l r Hl Hr) as (s & Hs & Hid & Hp). split; [by exists s|].
  intros id' l' r' Hl' Hr' Hname. destruct (Hrows id' l' r' Hl' Hr') as (s' & Hs' & Hid' & Hp').
  destruct Hp as (a & d & Ha & Had & _ & _ & Hn & _ & -> & -> & _), Hp' as (a' & d' & Ha' & Had' & _ & _ & Hn' & _ & -> & -> & _).
  rewrite Forall_forall in Hall. destruct (Hall s Hs) as (_ & Hpre & _ & _ & _ & Hnd & _), (Hall s' Hs') as (_ & Hpre' & _).
  rewrite Hn, Hn' in Hname. destruct (QualifiedName_inj s' s _ _ Hpre' Hpre Hname) as [Heq Hd].
  assert (s' = s) as -> by (eapply (NoDup_fmap_eq Prefix); eauto). split; [congruence|].
  assert (a' = a) as -> by (eapply (NoDup_fmap_eq at_Name); eauto; congruence). done.
Qed.

(** ** What a refresh reports *)

Definition served_name (s : Source) (d : DiscoveredTool) : option string :=
  match verdict_of s d with Accepted _ _ => Some (QualifiedName s (dt_Name d)) | _ => None end.
(** A discovered tool is where its verdict says. *)
Definition reported (s : Source) (rep : SourceReport) (d : DiscoveredTool) : Prop :=
  match verdict_of s d with
  | Unlisted => dt_Name d ∈ NotApproved rep
  | Changed _ => is_Some (Drifted rep !! dt_Name d)
  | Unreviewed _ => is_Some (Pending rep !! dt_Name d)
  | Accepted _ _ => QualifiedName s (dt_Name d) ∈ Served rep
  end.
(** What a report says only grows as the list is read. *)
Definition report_le (r r' : SourceReport) : Prop :=
  (∀ x, x ∈ Served r → x ∈ Served r') ∧ (∀ x, x ∈ NotApproved r → x ∈ NotApproved r') ∧
  (∀ n, is_Some (Drifted r !! n) → is_Some (Drifted r' !! n)) ∧
  (∀ n, is_Some (Pending r !! n) → is_Some (Pending r' !! n)).
#[local] Instance report_le_po : PreOrder report_le.
Proof. split; [by intros r; split_and!|]. intros r1 r2 r3 (?&?&?&?) (?&?&?&?). split_and!; auto. Qed.
Lemma reported_le s r r' d : report_le r r' → reported s r d → reported s r' d.
Proof. intros (?&?&?&?). unfold reported. destruct (verdict_of s d); auto. Qed.

(** The calls of a history, and two of its entries. *)
Definition asked (t : list {c : fcall & freply c}) : list fcall := projT1 <$> t.
Definition listed (c : session) (ds : list DiscoveredTool) : {c : fcall & freply c} := existT (FListTools c) (Ok ds).
Definition published (id : string) (l : list ToolRecord) : {c : fcall & freply c} := existT (FPublish id l) tt.
Definition publishes_nothing (t : list {c : fcall & freply c}) : Prop := ∀ id l, FPublish id l ∉ asked t.
Lemma publishes_nothing_app t t' : publishes_nothing (t ++ t') ↔ publishes_nothing t ∧ publishes_nothing t'.
Proof.
  unfold publishes_nothing, asked. split.
  - intros Ht. split; intros id l Hin; apply (Ht id l); rewrite fmap_app; set_solver.
  - intros [Ht Ht'] id l. rewrite fmap_app. intros [Hin|Hin]%elem_of_app; [by eapply Ht|by eapply Ht'].
Qed.
Lemma publishes_nothing_cons x t :
  (∀ id l, projT1 x ≠ FPublish id l) → publishes_nothing t → publishes_nothing (x :: t).
Proof. intros Hx Ht id l [Heq|Hin]%elem_of_cons; [by eapply Hx|by eapply Ht]. Qed.
Lemma publishes_nothing_nil : publishes_nothing [].
Proof. intros id l. apply not_elem_of_nil. Qed.
#[local] Hint Resolve publishes_nothing_cons publishes_nothing_nil : core.

(** One tool, in whichever state: it is reported, and served exactly when accepted. *)
Lemma review_spec s c ds rep out t res :
  histories (review s c ds rep out) t res →
  Served res.1 = (Served rep ++ omap (served_name s) ds)%list ∧ report_le rep res.1 ∧
  Forall (reported s res.1) ds ∧
  (tr_Name <$> res.2 = (tr_Name <$> out) ++ omap (served_name s) ds)%list ∧
  publishes_nothing t.
Proof.
  revert rep out t. induction ds as [|d ds IH]; intros rep out t; cbn [review].
  { intros [-> ->]. simpl. rewrite !app_nil_r. by split_and!. }
  unfold reported, served_name in *. cbn [omap list_omap]. setoid_rewrite Forall_cons.
  destruct (verdict_of s d) as [|g|g|approval digest] eqn:Hv; intros Hh.
  - apply IH in Hh as (HS & Hle & Hall & Hn & Ht). split_and!; try done; [etrans; [|exact Hle]|].
    + split_and!; simpl; set_solver.
    + destruct Hle as (_ & Hle & _). apply Hle. simpl. set_solver.
  - apply IH in Hh as (HS & Hle & Hall & Hn & Ht). split_and!; try done; [etrans; [|exact Hle]|].
    + split_and!; simpl; try done. intros n Hn'. destruct (decide (n = dt_Name d)) as [->|]; [by rewrite lookup_insert_eq|by rewrite lookup_insert_ne].
    + destruct Hle as (_ & _ & Hle & _). apply Hle. simpl. by rewrite lookup_insert_eq.
  - apply IH in Hh as (HS & Hle & Hall & Hn & Ht). split_and!; try done; [etrans; [|exact Hle]|].
    + split_and!; simpl; try done. intros n Hn'. destruct (decide (n = dt_Name d)) as [->|]; [by rewrite lookup_insert_eq|by rewrite lookup_insert_ne].
    + destruct Hle as (_ & _ & _ & Hle). apply Hle. simpl. by rewrite lookup_insert_eq.
  - destruct Hh as (created & t1 & -> & updated & t2 & -> & [] & t3 & -> & Hh).
    apply IH in Hh as (HS & Hle & Hall & Hn & Ht). cbn [Served report_with] in *. split_and!.
    + rewrite HS. by rewrite <-app_assoc.
    + etrans; [|exact Hle]. split_and!; simpl; set_solver.
    + destruct Hle as (Hle & _). apply Hle. simpl. set_solver.
    + done.
    + rewrite Hn, fmap_app, <-app_assoc. done.
    + by do 3 (apply publishes_nothing_cons; [done|]).
Qed.

Lemma session_of_publishes s t r : histories (session_of s) t r → publishes_nothing t.
Proof.
  unfold session_of. intros (e & t1 & -> & Hh). destruct e as [e|].
  { destruct Hh as [-> _]. by apply publishes_nothing_cons. }
  destruct Hh as (c & t2 & -> & Hh). destruct c as [c|e].
  - destruct Hh as ([] & t3 & -> & [-> _]). by do 3 (apply publishes_nothing_cons; [done|]).
  - destruct Hh as [-> _]. by do 2 (apply publishes_nothing_cons; [done|]).
Qed.

(** A refresh accounts for every tool, and a source that fails keeps what it had:
    when it reports an error nothing was published; otherwise one list was published,
    of exactly the served names, and every tool the source offered is reported as what
    it is (served, nobody's, changed since approval, or not reviewed yet), in the order
    it was offered where it is served, and every approved tool not offered is missing. *)
Theorem refresh_accounts_for_every_tool s t rep :
  histories (refreshSource s) t rep →
  (rp_Err rep ≠ None → publishes_nothing t) ∧
  (rp_Err rep = None → ∃ c (ds : list DiscoveredTool) l before,
     t = (before ++ [published (so_ID s) l])%list ∧ publishes_nothing before ∧ listed c ds ∈ before ∧
     Served rep = omap (served_name s) ds ∧ tr_Name <$> l ≡ₚ Served rep ∧
     Forall (reported s rep) ds ∧
     (∀ n : string, n ∈ Missing rep ↔ n ∈ at_Name <$> Tools s ∧ n ∉ dt_Name <$> ds)).
Proof.
  unfold refreshSource. intros (r & t1 & t2 & -> & H1 & Hh)%histories_bind.
  apply session_of_publishes in H1.
  destruct r as [c|e].
  2:{ destruct Hh as [-> ->]. split; [|done]. by rewrite app_nil_r. }
  destruct Hh as (got & t3 & -> & Hh). destruct got as [ds|e].
  2:{ destruct Hh as ([] & t4 & -> & [-> ->]). split; [|done]. intros _. apply publishes_nothing_app.
      split; [done|]. by do 2 (apply publishes_nothing_cons; [done|]). }
  cbn [prog_bind] in Hh. apply histories_bind in Hh as ([rep0 out] & u1 & u2 & -> & Hr & Hh).
  destruct Hh as ([] & t4 & -> & [-> ->]). split; [done|]. intros _.
  apply review_spec in Hr as (HS & _ & Hall & Hn & Ht). cbn [fst snd Served new_report app fmap list_fmap] in *.
  exists c, ds. eexists. exists (t1 ++ listed c ds :: u1)%list. split_and!.
  - by rewrite <-app_assoc.
  - apply publishes_nothing_app. split; [done|]. by apply publishes_nothing_cons.
  - apply elem_of_app. right. left.
  - done.
  - rewrite sort_slice_perm, Hn, HS. done.
  - done.
  - intros n. simpl. unfold missing. rewrite list_elem_of_filter. naive_solver.
Qed.

(** *** What is never withdrawn *)

Lemma fsem_keeps w c r w' q : fsem w c r w' → is_Some (federated w !! q) → is_Some (federated w' !! q).
Proof.
  intros Hs Hq. destruct c; simpl in *; try match type of Hs with _ ∧ _ => destruct Hs as [_ Hs] end; subst; try done.
  simpl. destruct (decide (q = toolName)) as [->|]; [by rewrite lookup_insert_eq|by rewrite lookup_insert_ne].
Qed.

(** A tool that was served once stays callable: no refresh, whatever it finds, takes
    its name from the executor. So a tool whose descriptor changed, whose approval was
    emptied or which its source withdrew is no longer listed, and is still run for
    whoever names it. *)
Theorem withdrawn_tool_stays_callable sources w ps w' ps' q :
  fsteps sources (w, ps) (w', ps') → is_Some (federated w !! q) →
  is_Some (federated w' !! q) ∧
  ∀ args w'' r, alone fsem w' (execute_federated sources q args) w'' r → r ≠ Err (unknown_tool q).
Proof.
  intros Hs Hq. assert (is_Some (federated w' !! q)) as [[id name] Hw].
  { apply (pool_preserves _ (foprog sources) (λ w, is_Some (federated w !! q)) (w, ps) (w', ps')) in Hs; [done| |done].
    intros o w0 c r w1 Hc. by apply (fsem_keeps w0 c r w1). }
  split; [by eexists|]. intros args w'' r (found & w1 & [-> ->] & Ha). rewrite Hw in Ha. cbn [prog_bind] in Ha.
  unfold call_federated in Ha. apply alone_bind in Ha as (c & w2 & _ & Ha).
  destruct c as [c|e]; [|by destruct Ha as [_ ->]]. destruct Ha as (o & w3 & _ & Ha).
  destruct o as [o|e]; [|by destruct Ha as (? & ? & _ & [_ ->])].
  destruct Ha as [_ ->]. by destruct (tc_IsError o).
Qed.
End federation.

(** ** Concrete runs *)

Module FederationWitnesses.
#[local] Existing Instances flat_json amd64_runtime.
#[local] Instance any_url : Urls :=
  {| url_parse s := Some {| Scheme := "https"; Host := s; Hostname := s |}; ip_loopback _ := false |}.
Definition texts (j : json) : option string :=
  match j with
  | JObject l => Some (foldr (λ kv s, kv.1 +:+ match kv.2 with JString x => x | _ => "" end +:+ s) "" l)
  | _ => None
  end.

Definition tool (description : string) : DiscoveredTool :=
  {| dt_Name := "find"; dt_Description := description; dt_InputSchema := None |}.
Definition digest_of (d : DiscoveredTool) : string :=
  match DescriptorFingerprint texts d with Ok g => g | Err _ => "" end.
Definition approved : ApprovedTool :=
  {| at_Name := "find"; at_SideEffect := "READ_ONLY"; at_Risk := "LOW"; IdempotencyKeyFields := [];
     DescriptorSHA256 := digest_of (tool "finds") |}.
Definition source : Source :=
  {| so_ID := "ext"; Endpoint := "ext.example"; Prefix := "ext."; Refresh := 0; so_Auth := None;
     AllowPlainHTTP := false; Tools := [approved] |}.
Definition bundle : Bundle := {| Kind := "ToolSourceBundle"; Sources := [source] |}.

(** A source that offers some tools and answers every call. *)
Definition answer (ds : list DiscoveredTool) (w : fworld) (c : fcall) : fworld * freply c :=
  match c return fworld * freply c with
  | FLookup id => (w, sessions w !! id)
  | FConnect _ => (w, Ok {| NegotiatedProtocolVersion := "2026-07-28" |})
  | FKeep id s => ({| sessions := <[id := s]> (sessions w); rows := rows w; federated := federated w |}, tt)
  | FDrop id => ({| sessions := delete id (sessions w); rows := rows w; federated := federated w |}, tt)
  | FListTools _ => (w, Ok ds)
  | FCallTool _ _ _ => (w, Ok {| tc_IsError := false; tc_Text := "found"; tc_Content := []; tc_Structured := ANil |})
  | FNow => (w, 0%Z)
  | FFind q => (w, federated w !! q)
  | FRegister q id name => ({| sessions := sessions w; rows := rows w; federated := <[q := (id, name)]> (federated w) |}, tt)
  | FPublish id l => ({| sessions := sessions w; rows := <[id := l]> (rows w); federated := federated w |}, tt)
  | FRows => (w, rows w)
  end.
Lemma answer_sem ds (o : fop) w c : fsem w c (answer ds w c).2 (answer ds w c).1.
Proof. by destruct c. Qed.

Definition refreshed (ds : list DiscoveredTool) (w : fworld) : fworld := (run (answer ds) w (foprog texts [source] (ORefresh 0))).1.
Lemma refreshed_steps ds w i ps :
  ps !! i = None → rtc (pool_step (λ _ : fop, fsem) (foprog texts [source])) (w, ps) (refreshed ds w, <[i := (ORefresh 0, Ret tt)]> ps).
Proof.
  intros Hi. eapply rtc_l; [by apply (pool_spawn _ _ _ _ i (ORefresh 0))|].
  assert (tt = (run (answer ds) w (foprog texts [source] (ORefresh 0))).2) as -> by (by destruct (run _ _ _).2).
  apply (alone_steps (λ _ : fop, fsem) (foprog texts [source]) i (ORefresh 0)).
  exact (run_alone fsem (answer ds) (foprog texts [source] (ORefresh 0)) w (answer_sem ds (ORefresh 0))).
Qed.

Definition first : fworld := refreshed [tool "finds"] fempty.
Definition second : fworld := refreshed [tool "deletes"] first.

Lemma bundle_accepted : bundle_ok bundle.
Proof. apply accepted_bundle. vm_compute. reflexivity. Qed.

Lemma served_tools_are_approved_witness :
  ∃ l r, rows first !! "ext" = Some l ∧ r ∈ l ∧ ∃ s, s ∈ Sources bundle ∧ so_ID s = "ext" ∧ pinned texts s r.
Proof.
  assert (Hl : ∃ l r, rows first !! "ext" = Some l ∧ l = [r]) by (do 2 eexists; split; vm_compute; reflexivity).
  destruct Hl as (l & r & Hl & ->). exists [r], r. split; [exact Hl|]. split; [left|].
  apply (served_tools_are_approved texts bundle first _ "ext" [r] r bundle_accepted
    (refreshed_steps [tool "finds"] fempty 0 ∅ (lookup_empty 0)) Hl). left.
Defined.

Lemma refresh_accounts_for_every_tool_witness :
  let rep := (run_log (answer [tool "deletes"]) first (refreshSource texts source)).2 in
  Served rep = [] ∧ is_Some (Drifted rep !! "find").
Proof.
  destruct (refresh_accounts_for_every_tool texts source _ _ (run_log_histories (answer [tool "deletes"]) (refreshSource texts source) first))
    as [_ Hok].
  destruct (Hok ltac:(vm_compute; reflexivity)) as (c & ds & l & before & _ & _ & _ & _ & _ & _ & _).
  split; [vm_compute; reflexivity|]. vm_compute. eauto.
Defined.

(** The source changes the tool after it was approved: it is listed no more, and a call
    of it is still answered by the source. *)
Lemma withdrawn_tool_stays_callable_witness :
  rows first !! "ext" ≠ Some [] ∧ rows second !! "ext" = Some [] ∧ is_Some (federated second !! "ext.find") ∧
  (run (answer [tool "deletes"]) second (execute_federated [source] "ext.find" None)).2 =
    Ok (ForwardedResult [] ANil).
Proof.
  split; [vm_compute; discriminate|]. split; [vm_compute; reflexivity|]. split; [|vm_compute; reflexivity].
  eapply (withdrawn_tool_stays_callable texts [source] first _ second _ "ext.find"
    (refreshed_steps [tool "deletes"] first 1 (<[0 := (ORefresh 0, Ret tt)]> ∅) ltac:(by rewrite lookup_insert_ne))).
  vm_compute. eauto.
Defined.
End FederationWitnesses.
