(* ===== verification/Catalog.v ===== *)
(** * Package mcp: the live catalogue and its calls

    go/internal/mcp/catalog.go: which version of a tool is current, how the server's
    list follows what is registered, and the reading of several listers as one. The MCP
    server is the list it was told, with the number of change notifications it sent. *)

From S2P Require Import Prelude GoValue Json Checkpoint CheckpointStore Program Sha256 Auth Policy ToolCalls ToolExec ToolRegistry.

Local Open Scope string_scope.
Set Default Proof Using "Type*".

Module Catalog.

(** ** The catalogue *)

(** What a client is shown. *)
Record sdk_tool := { sd_Name : string; sd_Description : string; sd_InputSchema : gmap string any }.
Record mcp_server := { offered : gmap string sdk_tool; notifications : nat }.
Definition AddTool (s : mcp_server) (t : sdk_tool) : mcp_server :=
  {| offered := <[sd_Name t := t]> (offered s); notifications := S (notifications s) |}.
Definition RemoveTools (s : mcp_server) (name : string) : mcp_server :=
  {| offered := delete name (offered s); notifications := S (notifications s) |}.

Record Catalog_ := { server : mcp_server; registered : gmap string string }.
Definition NewCatalog (s : mcp_server) : Catalog_ := {| server := s; registered := ∅ |}.

Record CatalogChange := { Added : list string; Updated : list string; Removed : list string }.
Definition no_change : CatalogChange := {| Added := []; Updated := []; Removed := [] |}.
Definition Empty_ (c : CatalogChange) : bool :=
  (length (Added c) =? 0)%nat && (length (Updated c) =? 0)%nat && (length (Removed c) =? 0)%nat.

(** The newest record of each name; of several at one time, the first. *)
Definition newer (m : gmap string ToolRecord) (rec : option ToolRecord) : gmap string ToolRecord :=
  match rec with
  | None => m
  | Some rec =>
      if sempty (tr_Name rec) then m else
      match m !! tr_Name rec with
      | Some prev => if (tr_CreatedAt prev <? tr_CreatedAt rec)%Z then <[tr_Name rec := rec]> m else m
      | None => <[tr_Name rec := rec]> m
      end
  end.
Definition newest (tools : list (option ToolRecord)) : gmap string ToolRecord := foldl newer ∅ tools.
(** The values of the map, in whichever order it is iterated. *)
Definition CurrentVersions (tools : list (option ToolRecord)) (current : list ToolRecord) : Prop :=
  current ≡ₚ snd <$> map_to_list (newest tools).

Section catalog.
Context `{GoJson}.
(** The text of a document, and that of a time. *)
Context (json_text : json → string) (time_text : Z → string).

Definition fingerprint (rec : ToolRecord) : string :=
  match marshal_map (Descriptor rec) with
  | None => "unhashable-" +:+ tr_Version rec +:+ "-" +:+ time_text (tr_UpdatedAt rec)
  | Some raw => sha256_hex (tr_Version rec +:+ String Ascii.zero (json_text raw))
  end.

Definition any_object : gmap string any := obj [("type", AString "object")].
Definition sdk_of (rec : ToolRecord) : sdk_tool :=
  {| sd_Name := tr_Name rec; sd_Description := as_string (mget (items (Descriptor rec)) "description");
     sd_InputSchema := default any_object (as_map_opt (mget (items (Descriptor rec)) "input_schema")) |}.

Definition apply_one (st : Catalog_ * CatalogChange) (rec : ToolRecord) : Catalog_ * CatalogChange :=
  let '(c, change) := st in
  let fp := fingerprint rec in
  let known := registered c !! tr_Name rec in
  if bool_decide (known = Some fp) then st else
  ({| server := AddTool (server c) (sdk_of rec); registered := <[tr_Name rec := fp]> (registered c) |},
   match known with
   | Some _ => {| Added := Added change; Updated := Updated change ++ [tr_Name rec]; Removed := Removed change |}
   | None => {| Added := Added change ++ [tr_Name rec]; Updated := Updated change; Removed := Removed change |}
   end)%list.
Definition remove_one (seen : gset string) (st : Catalog_ * CatalogChange) (name : string) : Catalog_ * CatalogChange :=
  let '(c, change) := st in
  if bool_decide (name ∈ seen) then st else
  ({| server := RemoveTools (server c) name; registered := delete name (registered c) |},
   {| Added := Added change; Updated := Updated change; Removed := Removed change ++ [name] |})%list.

(** Bringing the list in line, over the maps in some order. *)
Definition apply_over (c : Catalog_) (current : list ToolRecord) : Catalog_ * CatalogChange :=
  let '(c, change) := foldl apply_one (c, no_change) current in
  foldl (remove_one (list_to_set (tr_Name <$> current))) (c, change) ((map_to_list (registered c)).*1).
Definition Apply (c : Catalog_) (tools : list (option ToolRecord)) (c' : Catalog_) (change : CatalogChange) : Prop :=
  ∃ current, CurrentVersions tools current ∧ apply_over c current = (c', change).

(** Several listers read as one: any failure fails the read. *)
Fixpoint mergedLister {E} (reads : list (result E (list (option ToolRecord)))) : result E (list (option ToolRecord)) :=
  match reads with
  | [] => Ok []
  | Err e :: _ => Err e
  | Ok rows :: reads => rest ← mergedLister reads; Ok (rows ++ rest)%list
  end.
(** One tick of the poll: a failed read changes nothing. *)
Definition poll {E} (c : Catalog_) (reads : list (result E (list (option ToolRecord)))) (c' : Catalog_) : Prop :=
  match mergedLister reads with
  | Err _ => c' = c
  | Ok tools => ∃ change, Apply c tools c' change
  end.

(** ** What is current *)

(** The newest row of a name, by when it was created; of several created at once, the
    first that is listed. *)
Definition is_newest (tools : list (option ToolRecord)) (name : string) (rec : ToolRecord) : Prop :=
  ∃ pre post, tools = (pre ++ Some rec :: post)%list ∧ tr_Name rec = name ∧
    (∀ r, Some r ∈ pre → tr_Name r = name → (tr_CreatedAt r < tr_CreatedAt rec)%Z) ∧
    (∀ r, Some r ∈ post → tr_Name r = name → (tr_CreatedAt r ≤ tr_CreatedAt rec)%Z).

Lemma is_newest_last tools name rec : 
  tr_Name rec = name → (∀ r, Some r ∈ tools → tr_Name r = name → (tr_CreatedAt r < tr_CreatedAt rec)%Z) →
  is_newest (tools ++ [Some rec])%list name rec.
Proof. intros Hn Hmax. exists tools, []. split_and!; [done..|]. intros r Hr. by apply not_elem_of_nil in Hr. Qed.
Lemma is_newest_snoc tools name rec x :
  is_newest tools name rec → (∀ r, x = Some r → tr_Name r = name → (tr_CreatedAt r ≤ tr_CreatedAt rec)%Z) →
  is_newest (tools ++ [x])%list name rec.
Proof.
  intros (pre & post & -> & Hn & Hb & Ha) Hx. exists pre, (post ++ [x])%list. rewrite <- app_assoc. split_and!; [done..|].
  intros r. rewrite elem_of_app, list_elem_of_singleton. intros [Hr|Hr]; [by apply Ha|by apply Hx].
Qed.
Lemma is_newest_max tools name rec r :
  is_newest tools name rec → Some r ∈ tools → tr_Name r = name → (tr_CreatedAt r ≤ tr_CreatedAt rec)%Z.
Proof.
  intros (pre & post & -> & Hn & Hb & Ha). rewrite elem_of_app, elem_of_cons. intros [Hr|[[= ->]|Hr]] Hrn; [|lia|by apply Ha].
  specialize (Hb r Hr Hrn). lia.
Qed.

Lemma newest_spec tools name :
  match newest tools !! name with
  | Some rec => name ≠ "" ∧ is_newest tools name rec
  | None => ∀ rec, Some rec ∈ tools → tr_Name rec = name → name = ""
  end.
Proof.
  unfold newest. induction tools as [|x tools IH] using rev_ind.
  { cbn [foldl]. rewrite lookup_empty. intros rec Hin. by apply not_elem_of_nil in Hin. }
  rewrite foldl_app. cbn [foldl]. set (m := foldl newer ∅ tools) in *.
  assert (∀ P : Prop, (∀ r, Some r ∈ tools → tr_Name r = name → P) → (∀ r, x = Some r → tr_Name r = name → P) →
            ∀ r, Some r ∈ (tools ++ [x])%list → tr_Name r = name → P) as Hin.
  { intros P H1 H2 r. rewrite elem_of_app, list_elem_of_singleton. intros [?|?]; [by eapply H1|by eapply H2]. }
  assert ((∃ r, x = Some r ∧ tr_Name r = name ∧ name ≠ "") ∨ ¬ ∃ r, x = Some r ∧ tr_Name r = name ∧ name ≠ "")
    as [(rec & -> & Hn & Hne)|Hno].
  { destruct x as [r|]; [|right; naive_solver]. destruct (decide (tr_Name r = name)), (decide (name = "")); naive_solver. }
  - unfold newer. rewrite (proj2 (sempty_false (tr_Name rec))) by congruence. rewrite Hn.
    destruct (m !! name) as [prev|] eqn:Hp.
    + destruct IH as [_ Hprev]. destruct (Z.ltb_spec (tr_CreatedAt prev) (tr_CreatedAt rec)) as [Hlt|Hge].
      * rewrite lookup_insert_eq. split; [done|]. apply is_newest_last; [done|]. intros r Hr Hrn.
        pose proof (is_newest_max _ _ _ _ Hprev Hr Hrn). lia.
      * rewrite Hp. split; [done|]. apply is_newest_snoc; [done|]. by intros r [= ->] _.
    + rewrite lookup_insert_eq. split; [done|]. apply is_newest_last; [done|]. intros r Hr Hrn. by destruct (Hne (IH r Hr Hrn)).
  - assert (newer m x !! name = m !! name) as ->.
    { unfold newer. destruct x as [rec|]; [|done]. destruct (sempty (tr_Name rec)) eqn:He; [done|]. apply sempty_false in He.
      assert (tr_Name rec ≠ name) by (intros <-; apply Hno; eauto).
      destruct (m !! tr_Name rec); [destruct (_ <? _)%Z|]; [|done|]; by rewrite lookup_insert_ne. }
    destruct (m !! name) as [rec|].
    + destruct IH as [Hne Hrec]. split; [done|]. apply is_newest_snoc; [done|]. intros r -> Hr. destruct Hno. eauto.
    + apply Hin; [done|]. intros r -> Hr. destruct (decide (name = "")); [done|]. destruct Hno. eauto.
Qed.
Lemma newest_name tools name rec : newest tools !! name = Some rec → tr_Name rec = name.
Proof. intros Hn. pose proof (newest_spec tools name) as Hs. rewrite Hn in Hs. by destruct Hs as [_ (? & ? & _ & ? & _)]. Qed.
Lemma newest_elem tools name rec : newest tools !! name = Some rec → Some rec ∈ tools.
Proof.
  intros Hn. pose proof (newest_spec tools name) as Hs. rewrite Hn in Hs. destruct Hs as [_ (pre & post & -> & _)].
  rewrite elem_of_app, elem_of_cons. auto.
Qed.

(** The current list has each name once. *)
Lemma current_NoDup tools current : CurrentVersions tools current → NoDup (tr_Name <$> current).
Proof.
  intros Hc. unfold CurrentVersions in Hc.
  assert (tr_Name <$> current ≡ₚ (map_to_list (newest tools)).*1) as ->; [|apply NoDup_fst_map_to_list].
  rewrite Hc, <-list_fmap_compose.
  assert (tr_Name ∘ snd <$> map_to_list (newest tools) = (map_to_list (newest tools)).*1) as ->; [|done]. apply list_fmap_ext. intros i [n rec] Hi.
  apply list_elem_of_lookup_2, elem_of_map_to_list in Hi. simpl. by eapply newest_name.
Qed.
Lemma current_elem tools current rec : CurrentVersions tools current → rec ∈ current ↔ newest tools !! tr_Name rec = Some rec.
Proof.
  intros Hc. unfold CurrentVersions in Hc. rewrite Hc, list_elem_of_fmap. split.
  - intros ([n r] & -> & Hi%elem_of_map_to_list). simpl. by rewrite (newest_name _ _ _ Hi).
  - intros Hn. exists (tr_Name rec, rec). split; [done|]. by apply elem_of_map_to_list.
Qed.

(** ** What the server shows *)

(** The descriptors a registry can hold were decoded from JSON, and encoding/json
    writes different ones differently, with no zero byte (control characters are
    escaped). *)
Context (decoded : gomap → Prop).
Class TextLaws : Prop := {
  decoded_marshals d : decoded d → is_Some (marshal_map d);
  decoded_text d1 d2 j1 j2 :
    decoded d1 → decoded d2 → marshal_map d1 = Some j1 → marshal_map d2 = Some j2 → json_text j1 = json_text j2 → d1 = d2;
  decoded_no_zero d j : decoded d → marshal_map d = Some j → str_all (λ c, negb (Ascii.eqb c Ascii.zero)) (json_text j) = true;
}.

(** Each registered name is offered as some record of that name with that fingerprint,
    and nothing else is offered. *)
Definition shown (c : Catalog_) : Prop :=
  ∀ name, match registered c !! name, offered (server c) !! name with
          | Some fp, Some t => ∃ rec, t = sdk_of rec ∧ fingerprint rec = fp ∧ tr_Name rec = name ∧ decoded (Descriptor rec)
          | None, None => True
          | _, _ => False
          end.

(** What a fingerprint is taken of. *)
Definition preimage (rec : ToolRecord) (j : json) : string := tr_Version rec +:+ String Ascii.zero (json_text j).
(** Two records whose fingerprints are one only because SHA-256 collides on what they
    are taken of. *)
Definition collides (a b : ToolRecord) : Prop :=
  ∃ ja jb, marshal_map (Descriptor a) = Some ja ∧ marshal_map (Descriptor b) = Some jb ∧
    preimage a ja ≠ preimage b jb ∧ sha256_hex (preimage a ja) = sha256_hex (preimage b jb).

Lemma zero_split v1 v2 t1 t2 :
  str_all (λ c, negb (Ascii.eqb c Ascii.zero)) t1 = true → str_all (λ c, negb (Ascii.eqb c Ascii.zero)) t2 = true →
  v1 +:+ String Ascii.zero t1 = v2 +:+ String Ascii.zero t2 → t1 = t2.
Proof.
  assert (Hno : ∀ v t t', str_all (λ c, negb (Ascii.eqb c Ascii.zero)) t = true → t ≠ v +:+ String Ascii.zero t').
  { intros v. induction v as [|a v IH]; intros t t' Ht ->;
      [change ("" +:+ String Ascii.zero t') with (String Ascii.zero t') in Ht; discriminate|].
    change (String a v +:+ String Ascii.zero t') with (String a (v +:+ String Ascii.zero t')) in Ht. cbn [str_all] in Ht.
    apply andb_prop in Ht as [_ Ht]. by apply (IH _ t' Ht). }
  intros H1 H2. revert v2. induction v1 as [|a v1 IH]; intros [|b v2]; intros Heq.
  - by injection Heq.
  - change (String b v2 +:+ String Ascii.zero t2) with (String b (v2 +:+ String Ascii.zero t2)) in Heq.
    injection Heq as _ Heq. by apply Hno in Heq.
  - change (String a v1 +:+ String Ascii.zero t1) with (String a (v1 +:+ String Ascii.zero t1)) in Heq.
    injection Heq as _ Heq. by apply eq_sym, Hno in Heq.
  - change (String a (v1 +:+ String Ascii.zero t1) = String b (v2 +:+ String Ascii.zero t2)) in Heq.
    injection Heq as _ Heq. by apply (IH v2).
Qed.

(** One fingerprint, one tool. *)
Lemma fingerprint_offers `{!TextLaws} a b :
  decoded (Descriptor a) → decoded (Descriptor b) → tr_Name a = tr_Name b → fingerprint a = fingerprint b →
  sdk_of a = sdk_of b ∨ collides a b.
Proof.
  intros Ha Hb Hn Hf. destruct (decoded_marshals _ Ha) as [ja Hja], (decoded_marshals _ Hb) as [jb Hjb].
  unfold fingerprint in Hf. rewrite Hja, Hjb in Hf. fold (preimage a ja) (preimage b jb) in Hf.
  destruct (decide (preimage a ja = preimage b jb)) as [Heq|Hne]; [left|right; by exists ja, jb].
  apply zero_split in Heq; [|exact (decoded_no_zero _ _ Ha Hja)|exact (decoded_no_zero _ _ Hb Hjb)].
  unfold sdk_of. by rewrite Hn, (decoded_text _ _ _ _ Ha Hb Hja Hjb Heq).
Qed.

Lemma shown_add c rec :
  decoded (Descriptor rec) → shown c → shown {| server := AddTool (server c) (sdk_of rec); registered := <[tr_Name rec := fingerprint rec]> (registered c) |}.
Proof.
  intros Hd Hc name. simpl. destruct (decide (name = tr_Name rec)) as [->|Hne].
  - rewrite !lookup_insert_eq. by exists rec.
  - rewrite !lookup_insert_ne by done. apply Hc.
Qed.
Lemma shown_remove c name :
  shown c → shown {| server := RemoveTools (server c) name; registered := delete name (registered c) |}.
Proof.
  intros Hc n. simpl. destruct (decide (n = name)) as [->|Hne].
  - by rewrite !lookup_delete_eq.
  - rewrite !lookup_delete_ne by done. apply Hc.
Qed.

Definition changed (c : Catalog_) (rec : ToolRecord) : Prop := registered c !! tr_Name rec ≠ Some (fingerprint rec).

Definition change_app (a b : CatalogChange) : CatalogChange :=
  {| Added := Added a ++ Added b; Updated := Updated a ++ Updated b; Removed := Removed a ++ Removed b |}%list.
Definition change_size (a : CatalogChange) : nat := length (Added a) + length (Updated a) + length (Removed a).
Lemma change_app_size a b : change_size (change_app a b) = change_size a + change_size b.
Proof. unfold change_size, change_app. simpl. rewrite !length_app. lia. Qed.

(** The additions: what differs is registered and told, once each. *)
Lemma apply_all_spec current c change c' change' :
  NoDup (tr_Name <$> current) → (∀ rec, rec ∈ current → decoded (Descriptor rec)) → shown c →
  foldl apply_one (c, change) current = (c', change') →
  ∃ more, change' = change_app change more ∧ Removed more = [] ∧ shown c' ∧
    notifications (server c') = notifications (server c) + change_size more ∧
    (∀ name, name ∈ Added more ↔ registered c !! name = None ∧ name ∈ tr_Name <$> current) ∧
    (∀ name, name ∈ Updated more ↔
       ∃ rec fp, rec ∈ current ∧ tr_Name rec = name ∧ registered c !! name = Some fp ∧ fp ≠ fingerprint rec) ∧
    (∀ rec, rec ∈ current → registered c' !! tr_Name rec = Some (fingerprint rec)) ∧
    (∀ name, name ∉ tr_Name <$> current → registered c' !! name = registered c !! name).
Proof.
  revert c change. induction current as [|rec current IH]; intros c change Hnd Hdec Hc Hf.
  { injection Hf as <- <-. exists no_change. destruct change. unfold change_app, change_size. simpl. rewrite !app_nil_r.
    split_and!; try done; try (intros; set_solver); lia. }
  rewrite fmap_cons in Hnd. apply NoDup_cons in Hnd as [Hni Hnd]. cbn [foldl] in Hf. unfold apply_one at 2 in Hf.
  assert (∀ r, r ∈ current → tr_Name r ≠ tr_Name rec) as Hne.
  { intros r Hr Heq. apply Hni. rewrite <-Heq. apply list_elem_of_fmap. by exists r. }
  case_bool_decide as Hk.
  - destruct (IH c change Hnd (λ r Hr, Hdec r (list_elem_of_further r rec current Hr)) Hc Hf) as (more & -> & HR & Hc' & Hno & HA & HU & Hreg & Hoth).
    exists more. split_and!; try done.
    + intros name. rewrite HA, fmap_cons, elem_of_cons. naive_solver congruence.
    + intros name. rewrite HU. setoid_rewrite elem_of_cons. split; [naive_solver|].
      intros (r & fp & [->|Hr] & <- & Hfp & Hd); [congruence|naive_solver].
    + intros r [->|Hr]%elem_of_cons; [|by apply Hreg]. by rewrite Hoth.
    + intros name [_ Hn]%not_elem_of_cons. by apply Hoth.
  - set (c1 := {| server := _; registered := _ |}) in Hf. assert (Hc1 : shown c1) by (by apply shown_add; [apply Hdec; left|]).
    assert (Hreg1 : registered c1 = <[tr_Name rec := fingerprint rec]> (registered c)) by done.
    assert (∀ r, r ∈ current → registered c1 !! tr_Name r = registered c !! tr_Name r) as Hsame.
    { intros r Hr. rewrite Hreg1, lookup_insert_ne; [done|]. apply not_eq_sym. by apply Hne. }
    destruct (IH c1 _ Hnd (λ r Hr, Hdec r (list_elem_of_further r rec current Hr)) Hc1 Hf) as (more & -> & HR & Hc' & Hno & HA & HU & Hreg & Hoth).
    set (this := match registered c !! tr_Name rec with
                 | Some _ => {| Added := []; Updated := [tr_Name rec]; Removed := [] |}
                 | None => {| Added := [tr_Name rec]; Updated := []; Removed := [] |} end).
    exists (change_app this more). split_and!.
    + unfold this, change_app. destruct change, (registered c !! tr_Name rec); simpl; by rewrite ?app_nil_r, <-?app_assoc.
    + unfold this, change_app. destruct (registered c !! tr_Name rec); simpl; by rewrite HR.
    + done.
    + rewrite Hno, change_app_size. unfold this, change_size at 2. simpl. destruct (registered c !! tr_Name rec); simpl; lia.
    + intros name. unfold change_app. simpl. rewrite elem_of_app, HA, elem_of_cons. unfold this.
      destruct (decide (name = tr_Name rec)) as [->|Hd].
      * rewrite Hreg1, lookup_insert_eq. destruct (registered c !! tr_Name rec); simpl; set_solver.
      * rewrite Hreg1, lookup_insert_ne by done. destruct (registered c !! tr_Name rec); simpl; set_solver.
    + intros name. unfold change_app. simpl. rewrite elem_of_app, HU. setoid_rewrite elem_of_cons. unfold this. split.
      * intros [Hin|(r & fp & Hr & <- & Hfp & Hd)].
        { destruct (registered c !! tr_Name rec) as [fp|] eqn:Hfp; simpl in Hin; [|by apply not_elem_of_nil in Hin].
          apply list_elem_of_singleton in Hin as ->. exists rec, fp. split_and!; auto. congruence. }
        rewrite Hsame in Hfp by done. exists r, fp. auto.
      * intros (r & fp & [->|Hr] & <- & Hfp & Hd).
        { left. rewrite Hfp. simpl. by apply list_elem_of_singleton. }
        right. exists r, fp. rewrite Hsame by done. auto.
    + intros r [->|Hr]%elem_of_cons; [|by apply Hreg]. rewrite Hoth by done. by rewrite Hreg1, lookup_insert_eq.
    + intros name [Hd Hn]%not_elem_of_cons. rewrite Hoth by done. by rewrite Hreg1, lookup_insert_ne.
Qed.

(** The removals: what is not current any more. *)
Lemma remove_all_spec seen names c change c' change' :
  shown c → NoDup names → foldl (remove_one seen) (c, change) names = (c', change') →
  ∃ gone, change' = change_app change {| Added := []; Updated := []; Removed := gone |} ∧ shown c' ∧
    notifications (server c') = notifications (server c) + length gone ∧
    gone = filter (λ n, n ∉ seen) names ∧
    (∀ name, registered c' !! name = if decide (name ∈ gone) then None else registered c !! name).
Proof.
  revert c change. induction names as [|n names IH]; intros c change Hc Hnd Hf.
  { injection Hf as <- <-. exists []. destruct change. unfold change_app. simpl. rewrite !app_nil_r.
    by split_and!. }
  apply NoDup_cons in Hnd as [Hni Hnd]. cbn [foldl] in Hf. unfold remove_one at 2 in Hf. rewrite filter_cons.
  case_bool_decide as Hs.
  - rewrite decide_False by (intros Hn; by apply Hn). by apply (IH c change).
  - rewrite decide_True by done. destruct (IH _ _ (shown_remove c n Hc) Hnd Hf) as (gone & -> & Hc' & Hno & -> & Hreg).
    eexists. split_and!; [|done| |reflexivity|].
    + unfold change_app. simpl. by rewrite !app_nil_r, <-app_assoc.
    + rewrite Hno. simpl. lia.
    + intros name. rewrite Hreg. simpl. destruct (decide (name = n)) as [->|Hd].
      * rewrite (decide_True (P := n ∈ _ :: _)) by left. rewrite lookup_delete_eq. by case_decide.
      * rewrite lookup_delete_ne by done. do 2 case_decide; set_solver.
Qed.

(** The same registry again: nothing differs. *)
Lemma Apply_again c tools c' change :
  (∀ name, registered c !! name = fingerprint <$> newest tools !! name) → Apply c tools c' change →
  change_size change = 0 ∧ registered c' = registered c.
Proof.
  intros Hreg (current & Hcur & Ha). unfold apply_over in Ha.
  assert (foldl apply_one (c, no_change) current = (c, no_change)) as Hf.
  { assert (∀ rec, rec ∈ current → registered c !! tr_Name rec = Some (fingerprint rec)) as Hall.
    { intros rec Hrec. apply (current_elem tools current) in Hrec; [|done]. by rewrite Hreg, Hrec. }
    clear Ha Hcur. induction current as [|rec current IH]; [done|]. cbn [foldl]. unfold apply_one at 2.
    rewrite bool_decide_eq_true_2 by (apply Hall; left). apply IH. intros r Hr. apply Hall. by right. }
  rewrite Hf in Ha.
  assert (∀ l, (∀ n, n ∈ l → n ∈ tr_Name <$> current) →
    foldl (remove_one (list_to_set (tr_Name <$> current))) (c, no_change) l = (c, no_change)) as Hr.
  { intros l. induction l as [|n l IH]; intros Hl; [done|]. cbn [foldl]. unfold remove_one at 2.
    rewrite bool_decide_eq_true_2 by (apply elem_of_list_to_set, Hl; left). apply IH. intros n' Hn'. apply Hl. by right. }
  rewrite Hr in Ha; [by injection Ha as <- <-|].
  intros n ([n' fp] & -> & Hi%elem_of_map_to_list)%list_elem_of_fmap. simpl. rewrite Hreg in Hi.
  apply fmap_Some in Hi as (rec & Hrec & _). apply list_elem_of_fmap. exists rec.
  pose proof (newest_name _ _ _ Hrec) as Hn. split; [done|]. apply (current_elem tools current); [done|]. by rewrite Hn.
Qed.

(** An update, in terms of the code's own map of the newest. *)
Lemma Apply_spec c tools c' change :
  (∀ rec, Some rec ∈ tools → decoded (Descriptor rec)) → shown c → Apply c tools c' change →
  shown c' ∧ (∀ name, registered c' !! name = fingerprint <$> newest tools !! name) ∧
  (∀ name, name ∈ Added change ↔ registered c !! name = None ∧ is_Some (newest tools !! name)) ∧
  (∀ name, name ∈ Updated change ↔
     ∃ rec fp, newest tools !! name = Some rec ∧ registered c !! name = Some fp ∧ fp ≠ fingerprint rec) ∧
  (∀ name, name ∈ Removed change ↔ is_Some (registered c !! name) ∧ newest tools !! name = None) ∧
  notifications (server c') = notifications (server c) + change_size change ∧
  (∀ c'' change', Apply c' tools c'' change' → change_size change' = 0 ∧ registered c'' = registered c').
Proof.
  intros Hdec Hc (current & Hcur & Ha). unfold apply_over in Ha.
  destruct (foldl apply_one (c, no_change) current) as [c1 ch1] eqn:Hf.
  assert (Hdecc : ∀ rec, rec ∈ current → decoded (Descriptor rec)).
  { intros rec Hrec. apply (current_elem tools current) in Hrec; [|done]. by eapply Hdec, newest_elem. }
  destruct (apply_all_spec _ _ _ _ _ (current_NoDup _ _ Hcur) Hdecc Hc Hf) as (more & -> & HR & Hc1 & Hno & HA & HU & Hreg & Hoth).
  destruct (remove_all_spec _ _ _ _ _ _ Hc1 (NoDup_fst_map_to_list _) Ha) as (gone & -> & Hc' & Hno' & Hg & Hreg').
  assert (Hin : ∀ name, name ∈ tr_Name <$> current ↔ is_Some (newest tools !! name)).
  { intros name. rewrite list_elem_of_fmap. split.
    - intros (rec & -> & Hrec). apply (current_elem tools current) in Hrec; [by eexists|done].
    - intros [rec Hrec]. exists rec. pose proof (newest_name _ _ _ Hrec) as Hn. split; [done|]. apply (current_elem tools current); [done|]. by rewrite Hn. }
  assert (Hgone : ∀ name, name ∈ gone ↔ is_Some (registered c !! name) ∧ newest tools !! name = None).
  { intros name. rewrite Hg, list_elem_of_filter, elem_of_list_to_set, Hin, list_elem_of_fmap, <-eq_None_not_Some.
    split.
    - intros [Hn ([n fp] & -> & Hi%elem_of_map_to_list)]. simpl in *. split; [|done].
      rewrite Hoth in Hi; [by eexists|]. rewrite Hin, <-eq_None_not_Some. done.
    - intros [[fp Hfp] Hn]. split; [done|]. exists (name, fp). split; [done|]. apply elem_of_map_to_list.
      rewrite Hoth; [done|]. by rewrite Hin, <-eq_None_not_Some. }
  assert (Hfinal : ∀ name, registered c' !! name = fingerprint <$> newest tools !! name).
  { intros name. rewrite Hreg'. destruct (newest tools !! name) as [rec|] eqn:Hn; simpl.
    - rewrite decide_False by (rewrite Hgone; intros [_ ?]; congruence).
      pose proof (newest_name _ _ _ Hn) as <-.
      apply Hreg, (current_elem tools current); [done|]. done.
    - case_decide as Hd; [done|]. destruct (registered c1 !! name) as [fp|] eqn:Hr; [|done].
      destruct Hd. apply Hgone. split; [|done].
      rewrite Hoth in Hr; [by eexists|]. by rewrite Hin, <-eq_None_not_Some. }
  unfold change_app, no_change in *. simpl in *. rewrite HR, !app_nil_r. split_and!; try done.
  - intros name. by rewrite HA, Hin.
  - intros name. rewrite HU. split.
    + intros (rec & fp & Hrec & <- & Hfp & Hd). exists rec, fp. split_and!; try done. by apply (current_elem tools current).
    + intros (rec & fp & Hrec & Hfp & Hd). exists rec, fp. pose proof (newest_name _ _ _ Hrec) as Hn. split_and!; try done. apply (current_elem tools current); [done|]. by rewrite Hn.
  - rewrite Hno', Hno. unfold change_size. simpl. rewrite HR. simpl. lia.
  - intros c'' change' Hap. by apply (Apply_again c' tools).
Qed.
(** C21. The list a client sees follows what is registered: after an update a name is
    offered exactly when a row has it, and what is offered under it is the tool of its
    newest row, by creation and then by order, with that row's description and schema
    (unless SHA-256 collides on what the two records' fingerprints are taken of). The
    change says exactly which names are new, differ and are gone, with one notification
    for each; and the same registry again changes and tells nothing. *)
Theorem catalog_follows_registry `{!TextLaws} c tools c' change :
  (∀ rec, Some rec ∈ tools → decoded (Descriptor rec)) → shown c → Apply c tools c' change →
  shown c' ∧
  (∀ name, match offered (server c') !! name with
           | Some t => ∃ rec, name ≠ "" ∧ is_newest tools name rec ∧
                         (t = sdk_of rec ∨ ∃ before, t = sdk_of before ∧ collides before rec)
           | None => name = "" ∨ ∀ rec, Some rec ∈ tools → tr_Name rec ≠ name
           end) ∧
  (∀ name, name ∈ Added change ↔ registered c !! name = None ∧ is_Some (registered c' !! name)) ∧
  (∀ name, name ∈ Updated change ↔
     is_Some (registered c !! name) ∧ is_Some (registered c' !! name) ∧ registered c !! name ≠ registered c' !! name) ∧
  (∀ name, name ∈ Removed change ↔ is_Some (registered c !! name) ∧ registered c' !! name = None) ∧
  notifications (server c') = notifications (server c) + change_size change ∧
  (∀ c'' change', Apply c' tools c'' change' → change_size change' = 0 ∧ registered c'' = registered c').
Proof.
  intros Hdec Hc Ha. destruct (Apply_spec c tools c' change Hdec Hc Ha) as (Hc' & Hreg & HA & HU & HR & Hno & Hagain).
  assert (Hsome : ∀ name, is_Some (registered c' !! name) ↔ is_Some (newest tools !! name)).
  { intros name. rewrite Hreg. by rewrite fmap_is_Some. }
  split_and!; [done| | | | |done|done].
  - intros name. specialize (Hc' name). rewrite Hreg in Hc'. pose proof (newest_spec tools name) as Hn.
    destruct (newest tools !! name) as [rec|] eqn:Hrec; simpl in Hc'; destruct (offered (server c') !! name) as [t|]; try done.
    + destruct Hc' as (before & -> & Hf & Hb & Hd). destruct Hn as [Hne Hn]. exists rec. split; [done|]. split; [done|].
      destruct (fingerprint_offers before rec) as [->|Hcol]; [done| |by rewrite (newest_name _ _ _ Hrec)|done|by left|right; by exists before].
      by eapply Hdec, newest_elem.
    + destruct (decide (name = "")) as [->|Hne]; [by left|right]. intros rec Hin Hname. by apply Hne, (Hn rec).
  - intros name. by rewrite HA, Hsome.
  - intros name. rewrite HU, Hsome, Hreg. destruct (newest tools !! name) as [rec|]; simpl; split.
    + intros (? & fp & [= <-] & -> & Hd). split; [by eexists|]. split; [by eexists|]. congruence.
    + intros ([fp Hfp] & _ & Hd). exists rec, fp. split_and!; [done..|]. congruence.
    + by intros (? & ? & [=] & _).
    + by intros (_ & [? [=]] & _).
  - intros name. rewrite HR, Hreg. by rewrite fmap_None.
Qed.
End catalog.
End Catalog.

Module CatalogWitnesses.
Import Catalog.
#[local] Existing Instance flat_json.

Definition version (v description : string) (at_ : Z) : ToolRecord :=
  {| ToolID := "find"; tr_Version := v; tr_Name := "find"; SideEffect := "READ_ONLY"; Risk := "LOW";
     Descriptor := Some (obj [("description", AString description)]); tr_CreatedAt := at_; tr_UpdatedAt := at_ |}.
Definition json_first (j : json) : string :=
  match j with JObject ((_, JString s) :: _) => s | _ => "" end.
Definition old_and_new : list (option ToolRecord) := [Some (version "2" "new" 2); Some (version "1" "old" 1)].
Definition empty_catalog : Catalog_ := NewCatalog {| offered := ∅; notifications := 0 |}.
Definition applied : Catalog_ * CatalogChange :=
  apply_over json_first (λ _, "") empty_catalog [version "2" "new" 2].

Definition find_decoded (d : gomap) : Prop :=
  d = Some (obj [("description", AString "new")]) ∨ d = Some (obj [("description", AString "old")]).
Lemma find_text s j : marshal_map (Some (obj [("description", AString s)])) = Some j → json_first j = s.
Proof. intros [= <-]. unfold obj. simpl. rewrite insert_empty, map_to_list_singleton. reflexivity. Qed.
#[local] Instance find_laws : TextLaws json_first find_decoded.
Proof.
  split.
  - intros d _. by eexists.
  - intros d1 d2 j1 j2 [->| ->] [->| ->] H1%find_text H2%find_text Heq; first [reflexivity|congruence].
  - intros d j [->| ->] Hj%find_text; rewrite Hj; reflexivity.
Qed.

(** Two versions of one tool: the client is shown the newer, and told once. *)
Lemma catalog_follows_registry_witness :
  Apply json_first (λ _, "") empty_catalog old_and_new applied.1 applied.2 ∧
  (∃ rec, is_newest old_and_new "find" rec ∧
     (offered (server applied.1) !! "find" = Some (sdk_of rec) ∨
      ∃ before, offered (server applied.1) !! "find" = Some (sdk_of before) ∧ collides json_first before rec)) ∧
  notifications (server applied.1) = 1.
Proof.
  assert (Ha : Apply json_first (λ _, "") empty_catalog old_and_new applied.1 applied.2).
  { exists [version "2" "new" 2]. split; [|exact (surjective_pairing applied)].
    unfold CurrentVersions. assert (map_to_list (newest old_and_new) = [("find", version "2" "new" 2)]) as -> by (vm_compute; reflexivity).
    done. }
  split; [exact Ha|].
  assert (Hs : shown json_first (λ _, "") find_decoded empty_catalog) by (intros name; simpl; by rewrite !lookup_empty).
  assert (Hd : ∀ rec, Some rec ∈ old_and_new → find_decoded (Descriptor rec)).
  { intros rec Hrec. apply elem_of_cons in Hrec as [[= ->]|Hrec]; [by left|].
    apply elem_of_cons in Hrec as [[= ->]|Hrec]; [by right|]. by apply not_elem_of_nil in Hrec. }
  destruct (catalog_follows_registry json_first (λ _, "") find_decoded empty_catalog old_and_new applied.1 applied.2 Hd Hs Ha)
    as (_ & Hoff & _). specialize (Hoff "find").
  assert (Ho : is_Some (offered (server applied.1) !! "find")) by (vm_compute; by eexists).
  split; [|vm_compute; reflexivity].
  destruct (offered (server applied.1) !! "find") as [t|]; [|by destruct Ho].
  destruct Hoff as (rec & _ & Hn & Hr). exists rec. split; [exact Hn|].
  destruct Hr as [->|(before & -> & Hc)]; [left; reflexivity|right; exists before; split; [reflexivity|exact Hc]].
Defined.
End CatalogWitnesses.
