(* ===== verification/Mcp.v ===== *)
(** * Package mcp: a tool call through the MCP server

    The handler of go/internal/mcp/server.go: the caller's own identity and policies,
    the refusals, the execution and what is made of its result. The SDK's decoding of
    content blocks is a parameter. *)

From S2P Require Import Prelude GoValue Json Checkpoint CheckpointStore Program Auth Policy ToolCalls ToolExec.

Local Open Scope string_scope.
Set Default Proof Using "Type*".

Import Engine PolicySet.

Definition McpClientPrincipalType : string := "McpClient".

(** What a client is answered: a protocol error, or a result that may be an error of
    the tool. *)
Inductive McpAnswer :=
| Protocol (message : string)
| Answered (isError : bool) (content : list any) (structured : any) (meta : gomap).

Definition text_content (s : string) : any := AMap (obj [("type", AString "text"); ("text", AString s)]).

Definition recordingMeta (out : Outcome) : gomap :=
  if Recorded out then Some (obj [("aeon.tool.invocation_recorded", ABool true)]) else
  match RecordErr out with
  | Some e => Some (obj [("aeon.tool.invocation_recorded", ABool false); ("aeon.tool.record_error", AString e)])
  | None => None
  end.
Definition refusal (text : string) (out : Outcome) : McpAnswer :=
  Answered true [text_content text] ANil (recordingMeta out).

Section server.
Context `{Cedar, Postgres, GoJson}.
(** The SDK's decoding of re-encoded content blocks; and a document's text. *)
Context (sdk_content : list any → result string (list any)) (json_text : json → string).

Definition contentBlocksFrom (content : list any) : result string (list any) :=
  match content with [] => Ok [] | _ => sdk_content content end.

(** The arguments of a request. *)
Definition arguments (raw : RawMessage) : option gomap :=
  match raw with RawEmpty => Some None | RawMalformed => None | RawDoc j => unmarshal_map j end.

Definition mcp_invocation (tenant toolName : string) (args : gomap) : Invocation :=
  {| inv_Tenant := tenant; inv_ToolName := toolName; inv_Args := args; inv_RunID := ""; inv_StepID := "";
     inv_AgentManifestRef := ""; inv_Door := DoorMCP |}.

(** What an execution without an error is answered as. *)
Definition answer_result (toolName : string) (out : Outcome) : McpAnswer :=
  match ForwardedFrom (items (Result out)) with
  | Some (content, structured) =>
      match contentBlocksFrom content with
      | Ok blocks => Answered false blocks structured (recordingMeta out)
      | Err e => Protocol ("mcp: forwarding the result of " +:+ toolName +:+ ": " +:+ e)
      end
  | None =>
      match marshal_map (Result out) with
      | None => Protocol ("mcp: marshal result for " +:+ toolName)
      | Some raw => Answered false [text_content (json_text raw)]
                      (match Result out with Some m => AMap m | None => ANil end) (recordingMeta out)
      end
  end.

Definition toolCallHandler (toolName : string) (policies : option Set_) (e : Executor)
    (caller : option Caller) (raw : RawMessage) : M McpAnswer :=
  match arguments raw with
  | None => mret (Protocol ("mcp: unmarshal arguments for " +:+ toolName))
  | Some args =>
  match caller with
  | None => mret (refusal ("no authenticated caller on an " +:+ toolName +:+
                    " call: this server must be mounted behind caller authentication") no_outcome)
  | Some c =>
  match EngineFor policies (Tenant c) with
  | None => mret (refusal ("no policy bundle is loaded for tenant " +:+ Tenant c +:+ ", so " +:+ toolName +:+
                    " cannot be authorized") no_outcome)
  | Some eng =>
      let decision := IsAllowedForPrincipal eng McpClientPrincipalType (ID c) toolName in
      let inv := mcp_invocation (Tenant c) toolName args in
      if negb (Allowed decision) then
        written ← RecordRefusal e inv (DecisionDisposition decision) (PolicyID decision);
        mret (refusal ("denied by policy (" +:+ DecisionDisposition decision +:+ "): " +:+ toolName +:+
               " is not permitted for " +:+ McpClientPrincipalType +:+ "::" +:+ ID c) written)
      else
        '(out, err) ← Execute e inv;
        mret (match err with
              | Some msg => refusal msg out
              | None => answer_result toolName out
              end)
  end end end.

(** ** What a call does *)

(** What the client is told about the record of its call: that it was written, or why
    it was not. *)
Definition record_status (written : option string) : gomap :=
  match written with
  | None => Some {["aeon.tool.invocation_recorded" := ABool true]}
  | Some e => Some (<["aeon.tool.invocation_recorded" := ABool false]> {["aeon.tool.record_error" := AString e]})
  end.

(** The row of a call through this door: in the caller's tenant, or the deployment's
    when the caller has none; with no run behind it. *)
Definition door_row (default_tenant toolName : string) (cl : Caller) (outcome : string) (error : option string)
    (ms : option Z) (disposition policyID : string) : invocation_row :=
  {| ti_tenant := if decide (Tenant cl = "") then default_tenant else Tenant cl; ti_tool_name := toolName;
     ti_door := "mcp"; ti_outcome := outcome; ti_error_message := error; ti_run_id := ""; ti_step_id := "";
     ti_agent_manifest_ref := ""; ti_duration_ms := ms; ti_disposition := disposition; ti_policy_id := policyID |}.

(** An answer that does not claim a result, and one that is told of a record. *)
Definition no_result (answer : McpAnswer) : Prop := ∀ content structured meta, answer ≠ Answered false content structured meta.
Definition told (status : gomap) (answer : McpAnswer) : Prop :=
  ∀ isError content structured meta, answer = Answered isError content structured meta → meta = status.

(** Everything a call through this door can be: the calls it makes, with what they
    answered, and what the client is told. *)
Inductive door_history (default_tenant toolName : string) (policies : option Set_) (known : gset string)
    (caller : option Caller) (raw : RawMessage) : list {c : call & reply c} → McpAnswer → Prop :=
| door_unanswerable answer :
    (arguments raw = None ∨ caller = None ∨ ∃ cl, caller = Some cl ∧ EngineFor policies (Tenant cl) = None) →
    no_result answer → told None answer →
    door_history default_tenant toolName policies known caller raw [] answer
| door_denied args cl eng decision written content :
    arguments raw = Some args → caller = Some cl → EngineFor policies (Tenant cl) = Some eng →
    decision = IsAllowedForPrincipal eng "McpClient" (ID cl) toolName → Allowed decision = false →
    door_history default_tenant toolName policies known caller raw
      [existT (P := reply) (CInvocation (door_row default_tenant toolName cl "denied" None None
                              (DecisionDisposition decision) (PolicyID decision))) written]
      (Answered true content ANil (record_status written))
| door_unknown args cl eng content :
    arguments raw = Some args → caller = Some cl → EngineFor policies (Tenant cl) = Some eng →
    Allowed (IsAllowedForPrincipal eng "McpClient" (ID cl) toolName) = true → (¬ toolName ∈ known) →
    door_history default_tenant toolName policies known caller raw [] (Answered true content ANil None)
| door_failed args cl eng (r : tool_reply) message written :
    arguments raw = Some args → caller = Some cl → EngineFor policies (Tenant cl) = Some eng →
    Allowed (IsAllowedForPrincipal eng "McpClient" (ID cl) toolName) = true → toolName ∈ known →
    tr_err r = Some message →
    door_history default_tenant toolName policies known caller raw
      [existT (P := reply) (CTool (Tenant cl) toolName args) r;
       existT (P := reply) (CInvocation (door_row default_tenant toolName cl "error"
                              (Some (if decide (message = "") then empty_error else message)) (Some (tr_ms r)) "" "")) written]
      (Answered true [text_content message] ANil (record_status written))
| door_executed args cl eng (r : tool_reply) written answer :
    arguments raw = Some args → caller = Some cl → EngineFor policies (Tenant cl) = Some eng →
    Allowed (IsAllowedForPrincipal eng "McpClient" (ID cl) toolName) = true → toolName ∈ known →
    tr_err r = None →
    answer = answer_result toolName {| Result := tr_result r; Recorded := bool_decide (written = None); RecordErr := written |} →
    told (record_status written) answer → (∀ content structured meta, answer ≠ Answered true content structured meta) →
    door_history default_tenant toolName policies known caller raw
      [existT (P := reply) (CTool (Tenant cl) toolName args) r;
       existT (P := reply) (CInvocation (door_row default_tenant toolName cl "ok" None (Some (tr_ms r)) "" "")) written]
      answer.

Lemma recordingMeta_status res written :
  recordingMeta {| Result := res; Recorded := bool_decide (written = None); RecordErr := written |} = record_status written.
Proof. by destruct written. Qed.

Lemma answer_result_told toolName out isError content structured meta :
  answer_result toolName out = Answered isError content structured meta → isError = false ∧ meta = recordingMeta out.
Proof.
  unfold answer_result. destruct (ForwardedFrom _) as [[c st]|]; [destruct (contentBlocksFrom c)|destruct (marshal_map _)];
    by intros [=].
Qed.

(** What filing a record through the recorder does. *)
Lemma record_history default_tenant e rec t out :
  recorder e = Some (ToolInvocationRecorder default_tenant) → histories (record e rec) t out →
  ∃ row written, t = [existT (P := reply) (CInvocation row) written] ∧
    ToolInvocationRecorder default_tenant rec = ask (CInvocation row) ∧
    out = {| Result := None; Recorded := bool_decide (written = None); RecordErr := written |}.
Proof.
  intros Hr. unfold record. rewrite Hr. unfold ToolInvocationRecorder, ToolInvocations_Record.
  intros (written & t' & -> & -> & ->)%histories_ask_bind. eexists _, written.
  split; [done|]. split; [done|]. by destruct written.
Qed.

(** C11. The MCP door is no way round, and nothing through it goes unrecorded: every
    call is one of five. Unreadable arguments, no caller, or no policy bundle for the
    caller's tenant: nothing is run or recorded and no result is answered. Denied by
    the tenant's own policies: exactly one row is filed, denied, with the decision's
    disposition and policy, and nothing is run. Permitted but unknown: nothing is run or
    filed and the client is told. Permitted and known: the tool is run once, in the
    caller's tenant, on the arguments sent, and then exactly one row is filed, failed
    with its error or done, with how long it took. Every row is the caller's tenant's,
    under this door, and the client is told whether it was written, whatever the tool or
    the journal answered. *)
Theorem mcp_calls_are_governed toolName policies e caller raw default_tenant t answer :
  recorder e = Some (ToolInvocationRecorder default_tenant) →
  histories (toolCallHandler toolName policies e caller raw) t answer →
  door_history default_tenant toolName policies (fns e) caller raw t answer.
Proof.
  intros Hrec. unfold toolCallHandler.
  destruct (arguments raw) as [args|] eqn:Ha; [|intros [-> ->]; constructor; [by left|done..]].
  destruct caller as [cl|]; [|intros [-> ->]; constructor; [by auto|done|by intros ???? [=]]].
  destruct (EngineFor policies (Tenant cl)) as [eng|] eqn:He;
    [|intros [-> ->]; constructor; [right; right; eauto|done|by intros ???? [=]]].
  destruct (Allowed _) eqn:Hal; cbn [negb].
  - intros ([out err] & t1 & t2 & -> & Hx & -> & ->)%histories_bind. rewrite app_nil_r.
    unfold Execute in Hx. simpl inv_ToolName in Hx. unfold Knows in Hx.
    case_bool_decide as Hk; cbn [negb] in Hx; [|destruct Hx as [-> [= -> ->]]; by econstructor].
    apply histories_bind in Hx as (? & ? & t2 & -> & (r & ? & -> & -> & ->) & Hx). rewrite Hrec in Hx.
    apply histories_bind in Hx as (o & t3 & t4 & -> & Hx & -> & [= -> ->]). rewrite app_nil_r.
    destruct (record_history _ _ _ _ _ Hrec Hx) as (row & written & -> & Hrow & ->).
    unfold ToolInvocationRecorder, ToolInvocations_Record, ask in Hrow. injection Hrow as <-. clear Hx. simpl.
    destruct (tr_err r) as [msg|] eqn:Hr; simpl.
    + unfold refusal. rewrite recordingMeta_status.
      pose proof (door_failed default_tenant toolName policies (fns e) (Some cl) raw args cl eng r msg written) as Hf.
      unfold door_row in Hf. rewrite <- !sempty_decide in Hf. by apply Hf.
    + pose proof (door_executed default_tenant toolName policies (fns e) (Some cl) raw args cl eng r written _ Ha eq_refl He Hal Hk Hr eq_refl) as Hf.
      unfold door_row in Hf. rewrite <- !sempty_decide in Hf. apply Hf.
      * intros ???? [_ ->]%answer_result_told. apply recordingMeta_status.
      * by intros ??? [? _]%answer_result_told.
  - intros (out & t1 & t2 & -> & Hx & -> & ->)%histories_bind. rewrite app_nil_r.
    destruct (record_history _ _ _ _ _ Hrec Hx) as (row & written & -> & Hrow & ->).
    unfold ToolInvocationRecorder, ToolInvocations_Record, ask in Hrow. injection Hrow as <-.
    unfold refusal. rewrite recordingMeta_status. simpl. rewrite sempty_decide. by eapply door_denied.
Qed.

(** What a federated source answered reaches the client as it was: the handler's
    answer to a result forwarded from a source is its content, as the SDK re-reads it,
    and its structured part, unwrapped; while a result of Aeon's own is one text block,
    its JSON, with the same value beside it. *)
Theorem forwarded_answers_unwrapped toolName content structured out m :
  (Result out = Some (ForwardedResult content structured) →
   answer_result toolName out =
     match contentBlocksFrom content with
     | Ok blocks => Answered false blocks structured (recordingMeta out)
     | Err e => Protocol ("mcp: forwarding the result of " +:+ toolName +:+ ": " +:+ e)
     end) ∧
  (Result out = Some m → m !! ForwardedContentKey = None →
   ∀ raw, marshal_map (Some m) = Some raw →
   answer_result toolName out = Answered false [text_content (json_text raw)] (AMap m) (recordingMeta out)).
Proof.
  unfold answer_result. split.
  - intros ->. simpl. destruct (ForwardedFrom (ForwardedResult content structured)) as [[c s]|] eqn:Hf.
    + unfold ForwardedFrom, ForwardedResult, mget in Hf. destruct (is_nil structured) eqn:Hn.
      * rewrite lookup_singleton_eq, lookup_singleton_ne in Hf by done. injection Hf as <- <-. by destruct structured.
      * rewrite lookup_insert_ne, lookup_singleton_eq, lookup_insert_eq in Hf by done. by injection Hf as <- <-.
    + unfold ForwardedFrom, ForwardedResult in Hf. destruct (is_nil structured).
      * by rewrite lookup_singleton_eq in Hf.
      * by rewrite lookup_insert_ne, lookup_singleton_eq in Hf.
  - intros -> Hk raw Hm. unfold ForwardedFrom. simpl. by rewrite Hk, Hm.
Qed.
End server.

Module McpWitnesses.
Import ToyCedar.
#[local] Existing Instances verbatim_postgres flat_json toy_cedar.

Definition agent : Caller :=
  {| ID := "agent"; Kind := KindExternal; TokenSHA256 := ""; MayActAs := []; MayApprove := false;
     Tenant := "team-a"; MayActForTenants := [] |}.
Definition recording : Executor := WithRecorder (Register NewExecutor "search.web") (ToolInvocationRecorder "default").
Definition policies : option Set_ := Some {| byTenant := {["team-a" := toy_engine]} |}.
Definition handler (toolName : string) : M McpAnswer :=
  toolCallHandler (λ _, Err "") (λ _, "") toolName policies recording (Some agent) RawEmpty.

(** A permitted tool is run and recorded, the journal refusing the row. *)
Definition refusing (c : call) : reply c :=
  match c with
  | CTool _ _ _ => {| tr_result := Some ∅; tr_err := None; tr_ms := 12 |}
  | CInvocation _ => Some "the journal is down"
  | CClaim _ _ _ _ _ => Err "down" | CRead _ _ _ => Err "down" | CReclaim _ _ => Err "down"
  | CComplete _ _ _ => Err "down" | CRelease _ _ => Err "down" | CAppend _ _ => Err BeginAppend
  end.
Lemma mcp_calls_are_governed_witness :
  ∃ t answer, histories (handler "search.web") t answer ∧
  door_history (λ _, Err "") (λ _, "") "default" "search.web" policies {["search.web"]} (Some agent) RawEmpty t answer.
Proof.
  eexists _, _. assert (Hh := run_log_histories (λ (_ : unit) c, (tt, refusing c)) (handler "search.web") tt).
  split; [exact Hh|].
  apply (mcp_calls_are_governed (λ _, Err "") (λ _, "") "search.web" policies recording (Some agent) RawEmpty "default");
    [reflexivity|exact Hh].
Defined.

Example refused_is_recorded :
  ∃ row, emits (handler "secrets.read") (CInvocation row) ∧ ti_outcome row = "denied" ∧ ti_tenant row = "team-a".
Proof. eexists. split; [vm_compute; left; reflexivity|]. split; reflexivity. Qed.
End McpWitnesses.
