(* ===== verification/Prometheus.v ===== *)
(** * Package prometheusinference: the client of the local inference platform

    go/internal/providers/prometheus_inference/: the request the client makes of a
    rendered context, what it keeps of an answer, how a rate limit becomes
    [Throttled], the vectors of a batch of texts, and the scope the model gateway asks
    for (cmd/aeon-modelgw). The SDK underneath is third-party: its replies are
    arbitrary, its request and response types are the fields the client uses. *)

From stdpp Require Import pretty.
From Stdlib Require Import SpecFloat.
From S2P Require Import Prelude GoValue Json Numbers Program Providers ModelGateway Decode Vendors CompatAdapter.

Local Open Scope string_scope.
Set Default Proof Using "Type*".

Definition Name : string := "prometheus_inference".
Definition rateLimitRequestsSuffix : string := "rate-limit-exceeded-requests".
Definition IdempotencyKeyField : string := "idempotency_key".

(** ** From a rendered context to a request *)

Record sdk_call := { sk_ID : string; sk_Type : string; sk_Name : string; sk_Arguments : string }.
Record Message := {
  ms_Role : string;
  ms_Content : any;               (** nil, a string or an array of parts *)
  ms_ToolCallID : string;
  ms_ReasoningContent : string;
  ms_ToolCalls : list sdk_call;
}.
Record ChatRequest := {
  cq_IdempotencyKey : string;
  cq_Model : string;
  cq_Messages : list Message;
  cq_MaxTokens : option Z;
  cq_Temperature : option float64;
  cq_TopP : option float64;
  cq_Seed : option Z;
  cq_Tools : list any;
  cq_ToolChoice : any;
  cq_Extra : gomap;
}.

Inductive message_error := NoRole | BadContent (content : any) | BadToolCall (rc : any).
Inductive request_error :=
| NoModel | NotAnObjectAt (i : nat) | BadMessageAt (i : nat) (e : message_error) | NoMessages.

Definition call_from (c : gmap string any) : sdk_call :=
  let fn := as_map_opt (mget c "function") in
  {| sk_ID := as_string (mget c "id");
     sk_Type := if sempty (as_string (mget c "type")) then "function" else as_string (mget c "type");
     sk_Name := match fn with Some fn => as_string (mget fn "name") | None => "" end;
     sk_Arguments := match fn with Some fn => as_string (mget fn "arguments") | None => "" end |}.
Fixpoint calls_from (l : list any) : result message_error (list sdk_call) :=
  match l with
  | [] => Ok []
  | rc :: l =>
      match rc with
      | AMap c => cs ← calls_from l; Ok (call_from c :: cs)
      | _ => Err (BadToolCall rc)
      end
  end.

Definition messageFrom (m : gmap string any) : result message_error Message :=
  let role := as_string (mget m "role") in
  if sempty role then Err NoRole else
  content ← match mget m "content" with
            | ANil => Ok ANil
            | AString s => Ok (AString s)
            | AList l => Ok (AList l)
            | content => Err (BadContent content)
            end;
  calls ← calls_from (as_list (mget m "tool_calls"));
  Ok {| ms_Role := role; ms_Content := content; ms_ToolCallID := as_string (mget m "tool_call_id");
        ms_ReasoningContent := as_string (mget m "reasoning_content"); ms_ToolCalls := calls |}.

Fixpoint messages_from (i : nat) (l : list any) : result request_error (list Message) :=
  match l with
  | [] => Ok []
  | rm :: l =>
      match rm with
      | AMap m =>
          match messageFrom m with
          | Err e => Err (BadMessageAt i e)
          | Ok msg => msgs ← messages_from (S i) l; Ok (msg :: msgs)
          end
      | _ => Err (NotAnObjectAt i)
      end
  end.

Definition as_float (a : any) : option float64 := match a with AFloat f => Some f | _ => None end.
(** The passthrough fields a body has, null ones apart. *)
Definition passthrough (body : gmap string any) : list (string * any) :=
  omap (λ k, if is_nil (mget body k) then None else Some (k, mget body k)) ["response_format"; "chat_template_kwargs"].

Section request.
Context `{GoRuntime}.

Definition asInt (v : any) : option Z :=
  match v with
  | AInt n => Some n
  | AInt64 n => Some n
  | AFloat f => Some (f_to_int f)
  | _ => None
  end.

Definition chatRequestFrom (body : gmap string any) (idempotencyKey : string) : result request_error ChatRequest :=
  let model := as_string (mget body "model") in
  if sempty model then Err NoModel else
  messages ← messages_from 0 (as_list (mget body "messages"));
  match messages with
  | [] => Err NoMessages
  | _ =>
      Ok {| cq_IdempotencyKey := idempotencyKey; cq_Model := model; cq_Messages := messages;
            cq_MaxTokens := asInt (mget body "max_tokens");
            cq_Temperature := as_float (mget body "temperature");
            cq_TopP := as_float (mget body "top_p");
            cq_Seed := asInt (mget body "seed");
            cq_Tools := as_list (mget body "tools");
            cq_ToolChoice := mget body "tool_choice";
            cq_Extra := match passthrough body with [] => None | l => Some (list_to_map l) end |}
  end.
End request.

(** ** The platform's errors *)

Record APIError := {
  TypeSuffix : string;
  api_RetryAfter : option float64;
  RateLimit : option string;      (** the scope of the window, when there is one *)
}.
(** An error of the SDK: its text, and the typed refusal in its chain. *)
Record sdk_error := { se_Text : string; se_API : option APIError }.

Definition Throttled_Error (print_f0 : float64 → string) (t : Throttled) : string :=
  let wait := match RetryAfterSeconds t with
              | Some s => "retry after " +:+ print_f0 s +:+ "s"
              | None => "no wait supplied"
              end in
  let scope := if sempty (th_Scope t) then "unspecified scope" else th_Scope t in
  "providers: " +:+ th_Provider t +:+ "/" +:+ th_Model t +:+ " is rate limited (" +:+ scope +:+ ", " +:+ wait +:+ ")".

Section client.
Context `{GoRuntime} {Wire0 : Wire}.
(** %.0f, the text of a request error, the text of a value json.Unmarshal refuses, and
    json.Marshal of a tool call's arguments. *)
Context (print_f0 : float64 → string) (request_text : request_error → string)
  (unmarshal_text : json → string) (marshal_text : gmap string any → option string).

Definition translateError (model : string) (err : sdk_error) : perr :=
  match se_API err with
  | Some api =>
      if String.eqb (TypeSuffix api) rateLimitRequestsSuffix then
        let throttled := {| th_Provider := Name; th_Model := model; th_Scope := default "" (RateLimit api);
                            RetryAfterSeconds := api_RetryAfter api |} in
        {| err_text := Throttled_Error print_f0 throttled; ThrottleOf := Some throttled |}
      else plain_error ("prometheus_inference: chat completion: " +:+ se_Text err)
  | None => plain_error ("prometheus_inference: chat completion: " +:+ se_Text err)
  end.

(** ** The client *)

Record Client := {
  GatewayURL : string;
  ClientID : string;
  ClientSecret : string;
  Scope : string;
  sdk : bool;                     (** whether the SDK's client has been built *)
}.
Definition with_sdk (c : Client) : Client :=
  {| GatewayURL := GatewayURL c; ClientID := ClientID c; ClientSecret := ClientSecret c; Scope := Scope c; sdk := true |}.

Record CallMeta := {
  RequestID : string;
  IdempotentReplayOf : string;
  InstanceID : string;
  WaitedForSeconds : float64;
}.
Definition no_meta : CallMeta :=
  {| RequestID := ""; IdempotentReplayOf := ""; InstanceID := ""; WaitedForSeconds := f_zero |}.

(** What the SDK says of a completion, an accounting row and a vector. *)
Record sdk_meta := {
  sm_RequestID : string;
  sm_InstanceID : string;
  sm_WaitedFor : Z;               (** nanoseconds *)
  sm_IdempotentReplay : bool;
  sm_IdempotentReplayOf : string;
}.
Record sdk_usage := { su_Prompt : option Z; su_Completion : option Z; su_CacheRead : option Z }.
Record sdk_row := {
  sr_RequestID : string;
  sr_Model : string;
  sr_RequestKind : string;
  sr_TerminationReason : string;
  sr_CostUSD : option float64;
  sr_InstanceID : string;
  sr_Usage : option sdk_usage;
  sr_Raw : gomap;
}.
Record EmbeddingItem := { ei_Index : Z; ei_Embedding : list float64 }.

Inductive pcall : Type :=
| PNew (url id secret scope : string)
| PChat (r : ChatRequest)
| PUsage (requestID : string)
| PEmbed (model : string) (texts : list string)
| PModels
| PMine
| PClose.
Definition preply (c : pcall) : Type :=
  match c with
  | PNew _ _ _ _ => option string
  | PChat _ => result sdk_error (sdk_meta * gomap)
  | PUsage _ => result sdk_error sdk_row
  | PEmbed _ _ => result sdk_error (string * string * list EmbeddingItem)
  | PModels | PMine => result sdk_error (option (list (string * string)))
  | PClose => option string
  end.
Abbreviation PM := (prog preply).

(** The SDK's client is built on first use, and then kept. *)
Definition client (c : Client) : PM (result perr Client) :=
  if sdk c then mret (Ok c) else
  r ← ask (R := preply) (PNew (GatewayURL c) (ClientID c) (ClientSecret c) (Scope c));
  mret (match r with
        | Some e => Err (plain_error ("prometheus_inference: building the Axonium client: " +:+ e))
        | None => Ok (with_sdk c)
        end).
Definition Close (c : Client) : PM (option string) :=
  if sdk c then ask (R := preply) PClose else mret None.

(** [time.Duration.Seconds]. *)
Definition Seconds (d : Z) : float64 :=
  fadd (f_of_Z (Z.quot d 1000000000)) (fdiv (f_of_Z (Z.rem d 1000000000)) (f_of_Z 1000000000)).
Definition meta_of (m : sdk_meta) : CallMeta :=
  {| RequestID := sm_RequestID m;
     IdempotentReplayOf := if sm_IdempotentReplay m then sm_IdempotentReplayOf m else "";
     InstanceID := sm_InstanceID m; WaitedForSeconds := Seconds (sm_WaitedFor m) |}.

Definition modelOf (requestBody : gmap string any) : string := as_string (mget requestBody "model").

Definition ChatCompletionWithMeta (c : Client) (requestBody : gmap string any)
  : PM (Client * CallMeta * result perr (gmap string any)) :=
  built ← client c;
  match built with
  | Err e => mret (c, no_meta, Err e)
  | Ok c =>
      match chatRequestFrom requestBody (as_string (mget requestBody IdempotencyKeyField)) with
      | Err e => mret (c, no_meta, Err (plain_error (request_text e)))
      | Ok req =>
          r ← ask (R := preply) (PChat req);
          mret (match r with
                | Err e => (c, no_meta, Err (translateError (modelOf requestBody) e))
                | Ok (m, raw) =>
                    (c, meta_of m,
                     match raw with
                     | None => Err (plain_error ("prometheus_inference: the SDK returned no raw body for request " +:+ sm_RequestID m))
                     | Some raw => Ok raw
                     end)
                end)
      end
  end.
Definition ChatCompletion (c : Client) (requestBody : gmap string any) : PM (Client * result perr (gmap string any)) :=
  r ← ChatCompletionWithMeta c requestBody; mret (r.1.1, r.2).

(** ** Accounting and the catalogue *)

Record UsageRecord := {
  ur_RequestID : string;
  ur_Model : string;
  ur_RequestKind : string;
  ur_PromptTokens : Z;
  ur_CompletionTokens : Z;
  ur_CachedTokens : Z;
  ur_TerminationReason : string;
  ur_CostUSD : option float64;
  ur_PromptPricePer1M : option float64;
  ur_CompletionPricePer1M : option float64;
  ur_InstanceID : string;
}.
Definition derefInt (v : option Z) : Z := default 0%Z v.
Definition ratesFromRaw (raw : gomap) : option float64 * option float64 :=
  match as_map_opt (mget (items raw) "rates") with
  | None => (None, None)
  | Some rates => (as_float (mget rates "prompt_price_per_1m"), as_float (mget rates "completion_price_per_1m"))
  end.
Definition record_of_row (row : sdk_row) : UsageRecord :=
  let u := default {| su_Prompt := None; su_Completion := None; su_CacheRead := None |} (sr_Usage row) in
  {| ur_RequestID := sr_RequestID row; ur_Model := sr_Model row; ur_RequestKind := sr_RequestKind row;
     ur_PromptTokens := derefInt (su_Prompt u); ur_CompletionTokens := derefInt (su_Completion u);
     ur_CachedTokens := derefInt (su_CacheRead u); ur_TerminationReason := sr_TerminationReason row;
     ur_CostUSD := sr_CostUSD row; ur_PromptPricePer1M := (ratesFromRaw (sr_Raw row)).1;
     ur_CompletionPricePer1M := (ratesFromRaw (sr_Raw row)).2; ur_InstanceID := sr_InstanceID row |}.

Definition Usage_ (c : Client) (requestID : string) : PM (Client * result perr UsageRecord) :=
  if sempty requestID then mret (c, Err (plain_error "prometheus_inference: usage: empty request id")) else
  built ← client c;
  match built with
  | Err e => mret (c, Err e)
  | Ok c =>
      r ← ask (R := preply) (PUsage requestID);
      mret (c, match r with
               | Err e => Err (plain_error ("prometheus_inference: usage for " +:+ requestID +:+ ": " +:+ se_Text e))
               | Ok row => Ok (record_of_row row)
               end)
  end.

Record Model_ := { mo_ID : string; mo_Modality : string }.
Definition modelsFrom (l : option (list (string * string))) : list Model_ :=
  match l with None => [] | Some l => (λ m, {| mo_ID := m.1; mo_Modality := m.2 |}) <$> l end.
Definition ListModels (c : Client) : PM (Client * result perr (list Model_)) :=
  built ← client c;
  match built with
  | Err e => mret (c, Err e)
  | Ok c =>
      r ← ask (R := preply) PModels;
      mret (c, match r with
               | Err e => Err (plain_error ("prometheus_inference: listing models: " +:+ se_Text e))
               | Ok l => Ok (modelsFrom l)
               end)
  end.
Definition ListMyModels (c : Client) : PM (Client * result perr (list Model_)) :=
  built ← client c;
  match built with
  | Err e => mret (c, Err e)
  | Ok c =>
      r ← ask (R := preply) PMine;
      mret (c, match r with
               | Err e => Err (plain_error ("prometheus_inference: listing my models: " +:+ se_Text e))
               | Ok l => Ok (modelsFrom l)
               end)
  end.

(** ** The adapter *)

Record completion_choice := {
  cc_FinishReason : string; cc_Content : string; cc_ReasoningContent : string; cc_ToolCalls : list wire_call }.
Definition zero_completion_choice : completion_choice :=
  {| cc_FinishReason := ""; cc_Content := ""; cc_ReasoningContent := ""; cc_ToolCalls := [] |}.
Record chatCompletionResponse := {
  ccr_Model : string;
  ccr_Choices : list completion_choice;
  ccr_PromptTokens : option Z;
  ccr_CompletionTokens : option Z;
  ccr_ReasoningTokens : option Z;
}.
Definition zero_completion : chatCompletionResponse :=
  {| ccr_Model := ""; ccr_Choices := []; ccr_PromptTokens := None; ccr_CompletionTokens := None;
     ccr_ReasoningTokens := None |}.

Definition dec_completion_message : decoder completion_choice :=
  dec_struct ["content"; "reasoning_content"; "tool_calls"] (λ n,
    match n with
    | "content" => dec_at cc_Content (λ c s,
        {| cc_FinishReason := cc_FinishReason c; cc_Content := s; cc_ReasoningContent := cc_ReasoningContent c;
           cc_ToolCalls := cc_ToolCalls c |}) dec_string
    | "reasoning_content" => dec_at cc_ReasoningContent (λ c s,
        {| cc_FinishReason := cc_FinishReason c; cc_Content := cc_Content c; cc_ReasoningContent := s;
           cc_ToolCalls := cc_ToolCalls c |}) dec_string
    | _ => dec_at cc_ToolCalls (λ c l,
        {| cc_FinishReason := cc_FinishReason c; cc_Content := cc_Content c;
           cc_ReasoningContent := cc_ReasoningContent c; cc_ToolCalls := l |}) (dec_slice zero_call dec_call)
    end).
Definition dec_completion_choice : decoder completion_choice :=
  dec_struct ["finish_reason"; "message"] (λ n,
    match n with
    | "finish_reason" => dec_at cc_FinishReason (λ c s,
        {| cc_FinishReason := s; cc_Content := cc_Content c; cc_ReasoningContent := cc_ReasoningContent c;
           cc_ToolCalls := cc_ToolCalls c |}) dec_string
    | _ => dec_completion_message
    end).
Definition with_counts (r : chatCompletionResponse) (prompt completion reasoning : option Z) : chatCompletionResponse :=
  {| ccr_Model := ccr_Model r; ccr_Choices := ccr_Choices r; ccr_PromptTokens := prompt;
     ccr_CompletionTokens := completion; ccr_ReasoningTokens := reasoning |}.
Definition dec_completion_usage : decoder chatCompletionResponse :=
  dec_struct ["prompt_tokens"; "completion_tokens"; "completion_tokens_details"] (λ n,
    match n with
    | "prompt_tokens" => dec_at ccr_PromptTokens (λ r z,
        with_counts r z (ccr_CompletionTokens r) (ccr_ReasoningTokens r)) dec_count
    | "completion_tokens" => dec_at ccr_CompletionTokens (λ r z,
        with_counts r (ccr_PromptTokens r) z (ccr_ReasoningTokens r)) dec_count
    | _ => dec_struct ["reasoning_tokens"] (λ _, dec_at ccr_ReasoningTokens (λ r z,
        with_counts r (ccr_PromptTokens r) (ccr_CompletionTokens r) z) dec_count)
    end).
Definition dec_completion : decoder chatCompletionResponse :=
  dec_struct ["model"; "choices"; "usage"] (λ n,
    match n with
    | "model" => dec_at ccr_Model (λ r s,
        {| ccr_Model := s; ccr_Choices := ccr_Choices r; ccr_PromptTokens := ccr_PromptTokens r;
           ccr_CompletionTokens := ccr_CompletionTokens r; ccr_ReasoningTokens := ccr_ReasoningTokens r |}) dec_string
    | "choices" => dec_at ccr_Choices (λ r l,
        {| ccr_Model := ccr_Model r; ccr_Choices := l; ccr_PromptTokens := ccr_PromptTokens r;
           ccr_CompletionTokens := ccr_CompletionTokens r; ccr_ReasoningTokens := ccr_ReasoningTokens r |})
        (dec_slice zero_completion_choice dec_completion_choice)
    | _ => dec_completion_usage
    end).

Record PAdapter := { pa_Model : string; pa_Client : Client }.
Definition New (authURL gatewayURL clientID clientSecret scope model : string) : PAdapter :=
  {| pa_Model := model;
     pa_Client := {| GatewayURL := gatewayURL; ClientID := clientID; ClientSecret := clientSecret; Scope := scope;
                     sdk := false |} |}.

(** The result an answer makes, of its raw body and its metadata. *)
Definition result_of (meta : CallMeta) (parsed : chatCompletionResponse) (choice : completion_choice) : ChatResult :=
  {| cr_ProviderRequestID := RequestID meta; cr_IdempotentReplayOf := IdempotentReplayOf meta;
     cr_ServedByInstance := InstanceID meta; cr_Model := ccr_Model parsed; cr_Content := cc_Content choice;
     cr_FinishReason := cc_FinishReason choice; cr_ReasoningContent := cc_ReasoningContent choice;
     cr_ReasoningSignature := ""; cr_ToolCalls := call_of <$> cc_ToolCalls choice;
     cr_Usage := {| PromptTokens := ccr_PromptTokens parsed; CompletionTokens := ccr_CompletionTokens parsed;
                    CacheReadTokens := None; CacheWriteTokens := None;
                    ReasoningTokens := ccr_ReasoningTokens parsed; Estimated := None |} |}.
Definition normalized (meta : CallMeta) (raw : gmap string any) : result perr (gmap string any) :=
  match marshal_request (Some raw) with
  | Err e => Err (plain_error ("prometheus_inference: re-encoding response: " +:+ e))
  | Ok encoded =>
      match dec_completion zero_completion encoded with
      | None => Err (plain_error ("prometheus_inference: decoding response: " +:+ unmarshal_text encoded))
      | Some parsed =>
          match ccr_Choices parsed with
          | [] => Err (plain_error "prometheus_inference: response had no choices")
          | choice :: _ => Ok (NormalizedChatResponseFrom marshal_text (result_of meta parsed choice))
          end
      end
  end.
Definition no_model : string :=
  "prometheus_inference: no model specified in renderedContext and no default Model configured".
(** The body sent: the context, with the adapter's model unless it names one. *)
Definition chat_body (model : string) (renderedContext : gomap) : option (gmap string any) :=
  let ctx := items renderedContext in
  match ctx !! "model" with
  | Some _ => Some ctx
  | None => if sempty model then None else Some (<["model" := AString model]> ctx)
  end.
Definition Decide_ (a : PAdapter) (renderedContext : gomap) : PM (PAdapter * result perr (gmap string any)) :=
  match chat_body (pa_Model a) renderedContext with
  | None => mret (a, Err (plain_error no_model))
  | Some body =>
      answer ← ChatCompletionWithMeta (pa_Client a) body;
      let a' := {| pa_Model := pa_Model a; pa_Client := answer.1.1 |} in
      mret (a', match answer.2 with
                | Err e => Err e
                | Ok raw => normalized answer.1.2 raw
                end)
  end.

(** ** Embeddings *)

(** [float32(f)]: round to nearest even in binary32. *)
Definition to_float32 (f : float64) : float64 :=
  match f with
  | S754_finite s m e => binary_normalize 24 128 (if s then Z.neg m else Z.pos m) e s
  | _ => f
  end.

Inductive embed_error :=
| EmbedClient (e : perr)
| EmbedRefused (e : sdk_error)
| WrongCount (asked got : nat)
| IndexOutside (i : Z)
| IndexTwice (i : Z)
| NoEmbedding (i : nat).

(** The batch as the client hands it on, each vector with the index the answer gives it. *)
Definition Embeddings (c : Client) (model : string) (texts : list string)
  : PM (Client * result embed_error (CallMeta * list EmbeddingItem)) :=
  built ← client c;
  match built with
  | Err e => mret (c, Err (EmbedClient e))
  | Ok c =>
      r ← ask (R := preply) (PEmbed model texts);
      mret (c, match r with
               | Err e => Err (EmbedRefused e)
               | Ok (id, inst, data) =>
                   Ok ({| RequestID := id; IdempotentReplayOf := ""; InstanceID := inst; WaitedForSeconds := f_zero |}, data)
               end)
  end.

(** A nil slot is one no item has filled yet. *)
Definition place (out : list (option (list float64))) (item : EmbeddingItem)
  : result embed_error (list (option (list float64))) :=
  if ((ei_Index item <? 0) || (Z.of_nat (length out) <=? ei_Index item))%Z then Err (IndexOutside (ei_Index item)) else
  match out !! Z.to_nat (ei_Index item) with
  | Some (Some _) => Err (IndexTwice (ei_Index item))
  | _ => Ok (<[Z.to_nat (ei_Index item) := Some (to_float32 <$> ei_Embedding item)]> out)
  end.
Fixpoint filled (i : nat) (out : list (option (list float64))) : result embed_error (list (list float64)) :=
  match out with
  | [] => Ok []
  | v :: out =>
      match default [] v with
      | [] => Err (NoEmbedding i)
      | v => vs ← filled (S i) out; Ok (v :: vs)
      end
  end.
Definition arrange (n : nat) (data : list EmbeddingItem) : result embed_error (list (list float64)) :=
  if negb (length data =? n)%nat then Err (WrongCount n (length data)) else
  out ← fold_res place (replicate n None) data; filled 0 out.

Record Embedder := { em_Client : Client; ModelID : string }.
Definition Embed (e : Embedder) (texts : list string) : PM (Embedder * result embed_error (list (list float64))) :=
  match texts with
  | [] => mret (e, Ok [])
  | _ =>
      r ← Embeddings (em_Client e) (ModelID e) texts;
      mret ({| em_Client := r.1; ModelID := ModelID e |},
            match r.2 with
            | Err err => Err err
            | Ok (_, data) => arrange (length texts) data
            end)
  end.
End client.

(** ** The scope the gateway asks for *)

Definition scope_model (st : list string * gset string) (candidate : CandidateDoc) : list string * gset string :=
  if negb (String.eqb (cd_Provider candidate) Name) || sempty (cd_Model candidate) || bool_decide (cd_Model candidate ∈ st.2)
  then st
  else ((st.1 ++ ["model:" +:+ cd_Model candidate])%list, {[cd_Model candidate]} ∪ st.2).
Definition scopes (bundle : ModelPolicyBundleDoc) : list string :=
  (foldl (λ st profile, foldl scope_model st (Candidates profile))
     (["inference:read"; "inference:stream"], ∅) (Profiles bundle)).1.
Definition prometheusScope (PROMETHEUS_SCOPE : string) (bundle : ModelPolicyBundleDoc) : string :=
  if negb (sempty PROMETHEUS_SCOPE) then PROMETHEUS_SCOPE else str_join " " (scopes bundle).

(** ** The answer goes back into the conversation *)

Section replay.
Context `{GoRuntime} {Wire0 : Wire}.
Context (unmarshal_text : json → string) (marshal_text : gmap string any → option string).

(** A tool call as the next request sends it back: its arguments as the model wrote
    them, those of an empty object when it wrote none. *)
Definition replayed (tc : wire_call) : option sdk_call :=
  args ← (if sempty (wc_Arguments tc) then marshal_text ∅ else Some (wc_Arguments tc));
  Some {| sk_ID := wc_ID tc; sk_Type := "function"; sk_Name := wc_Name tc; sk_Arguments := args |}.

Lemma call_of_keeps tc :
  tc_ID (call_of tc) = wc_ID tc ∧ tc_Name (call_of tc) = wc_Name tc ∧ RawArguments (call_of tc) = wc_Arguments tc.
Proof. unfold call_of, call_from_wire, ToolCallFromWire. by destruct (DecodeToolArguments _ _ _ _). Qed.

Lemma shaped_wire tc : shaped_arguments marshal_text (call_of tc) =
  if sempty (wc_Arguments tc) then marshal_text ∅ else Some (wc_Arguments tc).
Proof.
  unfold shaped_arguments. destruct (call_of_keeps tc) as (_ & _ & ->). destruct (sempty (wc_Arguments tc)) eqn:He; [|done].
  unfold call_of, call_from_wire, ToolCallFromWire, DecodeToolArguments. by rewrite He.
Qed.

Lemma shaped_is_object i tc args : ∃ c, shaped_call i tc args = AMap c ∧
  call_from c = {| sk_ID := tc_ID tc; sk_Type := "function"; sk_Name := tc_Name tc; sk_Arguments := args |}.
Proof.
  unfold shaped_call. eexists. split; [done|]. unfold call_from.
  destruct (sempty (ArgumentsError tc)); rewrite ?mget_insert; reflexivity.
Qed.

Lemma calls_replayed i l : calls_from (shape_from marshal_text i (call_of <$> l)) = Ok (omap replayed l).
Proof.
  revert i. induction l as [|tc l IH]; intros i; [done|]. cbn [fmap list_fmap shape_from omap list_omap].
  rewrite shaped_wire. unfold replayed at 1. destruct (if sempty (wc_Arguments tc) then _ else _) as [args|]; [|apply IH].
  destruct (shaped_is_object i (call_of tc) args) as (c & Hs & Hc). cbn [mbind option_bind]. rewrite Hs.
  cbn [calls_from]. rewrite IH, Hc. by destruct (call_of_keeps tc) as (-> & -> & _).
Qed.

Lemma message_shape r :
  let m := message_from marshal_text r in
  mget m "role" = AString "assistant" ∧ mget m "tool_call_id" = ANil ∧
  mget m "content" = if bool_decide (cr_ToolCalls r = []) || negb (sempty (cr_Content r)) then AString (cr_Content r) else ANil.
Proof.
  cbv zeta. unfold message_from, put_some.
  destruct (cr_ToolCalls r), (sempty (cr_ReasoningContent r)), (ContentParts _ _ _ _), (sempty (cr_Content r));
    rewrite ?mget_insert; done.
Qed.

Lemma answer_message r calls :
  cr_ToolCalls r = call_of <$> calls →
  messageFrom (message_from marshal_text r) =
  Ok {| ms_Role := "assistant";
        ms_Content := if bool_decide (calls = []) || negb (sempty (cr_Content r)) then AString (cr_Content r) else ANil;
        ms_ToolCallID := ""; ms_ReasoningContent := cr_ReasoningContent r; ms_ToolCalls := omap replayed calls |}.
Proof.
  intros Hc. destruct (message_shape r) as (H1 & H2 & H3). destruct (message_reads marshal_text r) as (_ & H4 & H5).
  unfold messageFrom. rewrite H1, H2, H3, H4, H5, Hc. unfold openAIShapedToolCalls. rewrite calls_replayed.
  destruct calls; simpl; [done|]. by destruct (sempty (cr_Content r)).
Qed.

Lemma messages_from_app i l k msgs :
  messages_from i l = Ok msgs →
  messages_from i (l ++ k) = (more ← messages_from (i + length l) k; Ok (msgs ++ more))%list.
Proof.
  revert i msgs. induction l as [|rm l IH]; intros i msgs; simpl.
  - intros [= <-]. rewrite Nat.add_0_r. by destruct (messages_from i k).
  - destruct rm; try done. destruct (messageFrom m) as [msg|e]; [|done].
    destruct (messages_from (S i) l) as [msgs'|e] eqn:Hl; [|done]. intros [= <-]. rewrite (IH _ _ Hl).
    replace (S i + length l)%nat with (i + S (length l))%nat by lia.
    by destruct (messages_from (i + S (length l)) k).
Qed.

(** The body of the next turn: the conversation so far and one message more. *)
Definition continued (body message : gmap string any) : gmap string any :=
  <["messages" := AList (as_list (mget body "messages") ++ [AMap message])%list]> body.

Lemma continued_request body key req message msg :
  chatRequestFrom body key = Ok req → messageFrom message = Ok msg →
  chatRequestFrom (continued body message) key =
  Ok {| cq_IdempotencyKey := cq_IdempotencyKey req; cq_Model := cq_Model req;
        cq_Messages := (cq_Messages req ++ [msg])%list; cq_MaxTokens := cq_MaxTokens req;
        cq_Temperature := cq_Temperature req; cq_TopP := cq_TopP req; cq_Seed := cq_Seed req;
        cq_Tools := cq_Tools req; cq_ToolChoice := cq_ToolChoice req; cq_Extra := cq_Extra req |}.
Proof.
  unfold chatRequestFrom, continued, passthrough. cbn [omap list_omap]. rewrite !mget_insert. simpl.
  destruct (sempty (as_string (mget body "model"))); [done|].
  destruct (messages_from 0 (as_list (mget body "messages"))) as [msgs|e] eqn:Hm; [|done]. simpl.
  destruct msgs as [|m0 msgs]; [done|]. intros [= <-] Hmsg. rewrite (messages_from_app _ _ _ _ Hm). simpl.
  rewrite Hmsg. done.
Qed.

(** What the platform answers can be sent back to it whole: the message of a
    normalized answer, appended to the conversation it answered, is read as the
    assistant's turn with the text, the reasoning and every tool call the platform sent,
    under its id, with its arguments as the model wrote them, well formed or not (those
    of an empty object where it wrote none); and the rest of the request stays as it was. *)
Theorem answers_are_replayed_whole meta raw m body key req :
  normalized unmarshal_text marshal_text meta raw = Ok m → chatRequestFrom body key = Ok req →
  ∃ encoded parsed choice rest message msg,
    marshal_request (Some raw) = Ok encoded ∧ dec_completion zero_completion encoded = Some parsed ∧
    ccr_Choices parsed = choice :: rest ∧
    mget m "choices" = AList [choice_of message (cc_FinishReason choice)] ∧
    ms_Role msg = "assistant" ∧ as_string (ms_Content msg) = cc_Content choice ∧
    ms_ReasoningContent msg = cc_ReasoningContent choice ∧
    ms_ToolCalls msg = omap replayed (cc_ToolCalls choice) ∧
    ∃ req', chatRequestFrom (continued body message) key = Ok req' ∧
      cq_Messages req' = (cq_Messages req ++ [msg])%list ∧ cq_Model req' = cq_Model req ∧
      cq_Tools req' = cq_Tools req ∧ cq_ToolChoice req' = cq_ToolChoice req ∧ cq_Extra req' = cq_Extra req ∧
      cq_MaxTokens req' = cq_MaxTokens req.
Proof.
  unfold normalized. destruct (marshal_request (Some raw)) as [encoded|e]; [|done].
  destruct (dec_completion zero_completion encoded) as [parsed|] eqn:Hd; [|done].
  destruct (ccr_Choices parsed) as [|choice rest] eqn:Hc; [done|]. intros [= <-] Hreq.
  set (r := result_of meta parsed choice).
  destruct (normalized_reads marshal_text r) as (Hch & _ & _).
  pose proof (answer_message r (cc_ToolCalls choice) eq_refl) as Hmsg.
  eexists encoded, parsed, choice, rest, (message_from marshal_text r).
  match type of Hmsg with _ = Ok ?msg => exists msg end.
  split_and!; [done|done|exact Hc|exact Hch|..]; try reflexivity.
  - cbn [ms_Content]. change (cr_Content r) with (cc_Content choice).
    destruct (bool_decide (cc_ToolCalls choice = []) || negb (sempty (cc_Content choice))) eqn:He; [done|].
    apply orb_false_iff in He as [_ He]. apply negb_false_iff, sempty_true in He. by rewrite He.
  - eexists. split; [by apply continued_request|]. done.
Qed.
End replay.

(** ** One question per decision *)

(** The completions asked for, with what came of each. *)
Definition completion (x : {c : pcall & preply c}) : option (ChatRequest * result sdk_error (sdk_meta * gomap)) :=
  match x with existT (PChat r) rep => Some (r, rep) | _ => None end.
Definition completions (t : list {c : pcall & preply c}) := omap completion t.

Section decisions.
Context `{GoRuntime} {Wire0 : Wire}.
Context (print_f0 : float64 → string) (request_text : request_error → string)
  (unmarshal_text : json → string) (marshal_text : gmap string any → option string).

Abbreviation Decide0 := (Decide_ print_f0 request_text unmarshal_text marshal_text).

Definition throttled_by (model : string) (e : sdk_error) : option Throttled :=
  api ← se_API e;
  if String.eqb (TypeSuffix api) rateLimitRequestsSuffix
  then Some {| th_Provider := Name; th_Model := model; th_Scope := default "" (RateLimit api);
               RetryAfterSeconds := api_RetryAfter api |}
  else None.
Lemma translated model e : ThrottleOf (translateError print_f0 model e) = throttled_by model e.
Proof. unfold translateError, throttled_by. destruct (se_API e) as [api|]; [|done]. simpl. by destruct (String.eqb _ _). Qed.

Lemma client_history c t built :
  histories (client c) t built → completions t = [] ∧
  match built with
  | Ok c' => c' = with_sdk c ∧ (sdk c = true → t = [])
  | Err e => ThrottleOf e = None ∧ sdk c = false
  end.
Proof.
  unfold client. destruct (sdk c) eqn:Hs.
  - intros [-> ->]. split; [done|]. split; [|done]. destruct c; simpl in *. by subst.
  - intros (r & t' & -> & [-> ->]). split; [done|]. by destruct r.
Qed.

(** What a decision comes to, given what the platform was asked. *)
Definition decided (body : option (gmap string any)) (res : result perr (gmap string any))
    (asked : list (ChatRequest * result sdk_error (sdk_meta * gomap))) : Prop :=
  match asked with
  | [] => ∃ p, res = Err p ∧ ThrottleOf p = None
  | [(r, rep)] =>
      (∃ b, body = Some b ∧ chatRequestFrom b (as_string (mget b IdempotencyKeyField)) = Ok r) ∧
      match rep with
      | Err e => ∃ p, res = Err p ∧ ThrottleOf p = throttled_by (cq_Model r) e
      | Ok (_, None) => ∃ p, res = Err p ∧ ThrottleOf p = None
      | Ok (m, Some raw) => res = normalized unmarshal_text marshal_text (meta_of m) raw
      end
  | _ => False
  end.

Lemma request_model body key r : chatRequestFrom body key = Ok r → cq_Model r = modelOf body.
Proof.
  unfold chatRequestFrom. destruct (sempty _); [done|]. destruct (messages_from _ _) as [[|? ?]|]; [done| |done].
  by intros [= <-].
Qed.

(** A decision asks the platform for one completion at most, for the rendered
    context's own request with its own idempotency key, under the adapter's model unless
    the context names one; its answer is the normalized one, under the platform's ids for
    that call; and it fails as rate limited exactly when the platform refused it with its
    request-rate type, for the model asked for, with the wait and the window the platform
    named and none of its own. *)
Theorem decision_asks_once a ctx t a' res :
  histories (Decide0 a ctx) t (a', res) → decided (chat_body (pa_Model a) ctx) res (completions t).
Proof.
  unfold Decide_. destruct (chat_body (pa_Model a) ctx) as [body|]; [|by intros [-> [= -> ->]]; eexists].
  intros (answer & t1 & t2 & -> & Ha & [-> [= -> ->]])%histories_bind. rewrite app_nil_r.
  unfold ChatCompletionWithMeta in Ha. apply histories_bind in Ha as (built & t3 & t4 & -> & Hb & Ha).
  apply client_history in Hb as [Hn Hb]. unfold completions in *. rewrite omap_app, Hn. simpl.
  destruct built as [c|e]; [|destruct Ha as [-> ->]; exists e; split; [done|apply Hb]].
  destruct (chatRequestFrom body _) as [req|e] eqn:Hreq; [|destruct Ha as [-> ->]; by eexists].
  destruct Ha as (r & t5 & -> & [-> ->]). simpl. split; [by eexists|].
  destruct r as [[m [raw|]]|e]; simpl; [done|by eexists|]. eexists. split; [done|].
  rewrite translated. by rewrite (request_model _ _ _ Hreq).
Qed.
End decisions.

(** ** Vectors and the texts they are of *)

Definition slot (item : EmbeddingItem) : nat := Z.to_nat (ei_Index item).
Definition narrowed (item : EmbeddingItem) : list float64 := to_float32 <$> ei_Embedding item.
Definition put_vector (out : list (option (list float64))) (item : EmbeddingItem) : list (option (list float64)) :=
  <[slot item := Some (narrowed item)]> out.
(** An item that may be placed: its index is that of a slot still nil. *)
Definition placeable (out : list (option (list float64))) (item : EmbeddingItem) : Prop :=
  (0 <= ei_Index item)%Z ∧ out !! slot item = Some None.

Lemma place_Ok out item out' : place out item = Ok out' ↔ placeable out item ∧ out' = put_vector out item.
Proof.
  unfold place, placeable, put_vector, slot, narrowed.
  destruct (Z.ltb_spec (ei_Index item) 0); simpl; [split; [done|lia]|].
  destruct (Z.leb_spec (Z.of_nat (length out)) (ei_Index item)); simpl.
  - split; [done|]. intros [[_ Hl%lookup_lt_Some] _]. lia.
  - destruct (lookup_lt_is_Some_2 out (Z.to_nat (ei_Index item)) ltac:(lia)) as [[v|] ->]; naive_solver.
Qed.

Lemma placeable_after out item item' :
  placeable out item →
  placeable (put_vector out item) item' ↔ slot item' ≠ slot item ∧ placeable out item'.
Proof.
  intros [Hi Hl]. apply lookup_lt_Some in Hl. unfold placeable, put_vector.
  destruct (decide (slot item' = slot item)) as [->|Hne].
  - rewrite list_lookup_insert_eq by done. naive_solver.
  - rewrite list_lookup_insert_ne by done. naive_solver.
Qed.

Lemma all_placeable_after out item data :
  placeable out item →
  Forall (placeable (put_vector out item)) data ↔ (slot item ∉ slot <$> data) ∧ Forall (placeable out) data.
Proof.
  intros Hp. induction data as [|x data IH]; simpl.
  - split; [intros _; split; [apply not_elem_of_nil|constructor]|intros _; constructor].
  - rewrite !Forall_cons, not_elem_of_cons, IH, (placeable_after _ _ _ Hp). intuition congruence.
Qed.

Lemma place_all out data out' :
  fold_res place out data = Ok out' ↔
  NoDup (slot <$> data) ∧ Forall (placeable out) data ∧ out' = foldl put_vector out data.
Proof.
  revert out. induction data as [|item data IH]; intros out; simpl.
  { split; [intros [= <-]; split_and!; [constructor|constructor|done]|]. by intros (_ & _ & ->). }
  rewrite NoDup_cons, Forall_cons. destruct (place out item) as [out1|e] eqn:Hp.
  - apply place_Ok in Hp as [Hp ->]. rewrite IH, (all_placeable_after _ _ _ Hp). intuition.
  - split; [done|]. intros (_ & [Hpl _] & _).
    assert (place out item = Ok (put_vector out item)) by (by apply place_Ok). congruence.
Qed.

Lemma placed_length out data : length (foldl put_vector out data) = length out.
Proof. revert out. induction data as [|x data IH]; intros out; simpl; [done|]. by rewrite IH; unfold put_vector; rewrite length_insert. Qed.

Lemma placed_other out data i : i ∉ slot <$> data → foldl put_vector out data !! i = out !! i.
Proof.
  revert out. induction data as [|x data IH]; intros out; simpl; [done|]. rewrite not_elem_of_cons. intros [Hne Hn].
  rewrite IH by done. unfold put_vector. by rewrite list_lookup_insert_ne.
Qed.

Lemma placed_own out data item :
  NoDup (slot <$> data) → Forall (placeable out) data → item ∈ data →
  foldl put_vector out data !! slot item = Some (Some (narrowed item)).
Proof.
  revert out. induction data as [|x data IH]; intros out; simpl; [set_solver|].
  rewrite NoDup_cons, Forall_cons. intros [Hx Hnd] [Hpx Hp] [->|Hin]%elem_of_cons.
  - rewrite placed_other by done. unfold put_vector. apply list_lookup_insert_eq. by eapply lookup_lt_Some, Hpx.
  - apply IH; [done| |done]. rewrite Forall_forall in Hp |- *. intros y Hy. apply placeable_after; [done|].
    split; [|by apply Hp]. intros Heq. apply Hx. rewrite <-Heq. by apply list_elem_of_fmap_2.
Qed.

Lemma filled_Ok i out vs : filled i out = Ok vs ↔ out = Some <$> vs ∧ Forall (.≠ []) vs.
Proof.
  revert i vs. induction out as [|v out IH]; intros i vs; simpl.
  { split; [intros [= <-]; split; [done|constructor]|]. intros [He _]. by destruct vs. }
  destruct v as [[|x v]|]; simpl.
  - split; [done|]. destruct vs as [|v' vs]; intros [He Hall]; [done|]. injection He as <- _. by apply Forall_cons in Hall as [? _].
  - destruct (filled (S i) out) as [vs'|e] eqn:Hf; simpl.
    + apply IH in Hf as [-> Hf]. split; [intros [= <-]; split; [done|by constructor]|].
      destruct vs as [|v' vs]; intros [He _]; [done|]. injection He as <- Heq. apply (inj (fmap Some)) in Heq. by subst.
    + split; [done|]. destruct vs as [|v' vs]; intros [He Hall]; [done|]. injection He as _ He.
      apply Forall_cons in Hall as [_ Hall]. rewrite (proj2 (IH (S i) vs) (conj He Hall)) in Hf. done.
  - split; [done|]. intros [He _]. by destruct vs.
Qed.

(** The vectors of a batch, one for each text in its place. *)
Definition covers (data : list EmbeddingItem) (n : nat) (vs : list (list float64)) : Prop :=
  ei_Index <$> data ≡ₚ seqZ 0 (Z.of_nat n) ∧ length vs = n ∧
  Forall (λ item, ei_Embedding item ≠ [] ∧ vs !! slot item = Some (narrowed item)) data.

Lemma to_nat_slots data : Forall (λ item, 0 <= ei_Index item)%Z data → NoDup (slot <$> data) ↔ NoDup (ei_Index <$> data).
Proof.
  intros Hpos. split.
  - intros Hnd. apply (NoDup_fmap_1 Z.to_nat). by rewrite <-list_fmap_compose.
  - induction Hpos as [|item data Hi Hpos IH]; simpl; [constructor|]. rewrite !NoDup_cons. intros [Hn Hnd]. split; [|auto].
    intros (x & Heq & Hx)%list_elem_of_fmap. apply Hn, list_elem_of_fmap. exists x. split; [|done].
    rewrite Forall_forall in Hpos. specialize (Hpos _ Hx). unfold slot in Heq. lia.
Qed.

Lemma covering_indexes data n :
  length data = n → NoDup (ei_Index <$> data) → Forall (λ item, 0 <= ei_Index item < Z.of_nat n)%Z data →
  ei_Index <$> data ≡ₚ seqZ 0 (Z.of_nat n).
Proof.
  intros Hl Hnd Hr. apply submseteq_length_Permutation.
  - apply NoDup_submseteq; [done|]. intros i (item & -> & Hi)%list_elem_of_fmap. apply elem_of_seqZ.
    rewrite Forall_forall in Hr. specialize (Hr _ Hi). lia.
  - rewrite length_fmap, length_seqZ. lia.
Qed.

Lemma placeable_fresh n item : placeable (replicate n None) item ↔ (0 <= ei_Index item < Z.of_nat n)%Z.
Proof. unfold placeable, slot. rewrite lookup_replicate. intuition lia. Qed.

Lemma arrange_Ok n data vs : arrange n data = Ok vs ↔ covers data n vs.
Proof.
  unfold arrange, covers. destruct (Nat.eqb_spec (length data) n) as [Hl|Hl]; cbn [negb].
  2:{ split; [done|]. intros (Hp & _). apply Permutation_length in Hp. rewrite length_fmap, length_seqZ in Hp. lia. }
  rewrite bind_Ok. setoid_rewrite place_all. setoid_rewrite filled_Ok. split.
  - intros (out & (Hnd & Hpl & ->) & Hout & Hne).
    assert (Forall (λ item, 0 <= ei_Index item < Z.of_nat n)%Z data) as Hr.
    { eapply Forall_impl; [exact Hpl|]. intros item. by rewrite placeable_fresh. }
    assert (length vs = n) as Hlen.
    { rewrite <-(length_fmap Some), <-Hout, placed_length. apply length_replicate. }
    split_and!; [|done|].
    + apply covering_indexes; [done| |done]. apply to_nat_slots; [|done].
      eapply Forall_impl; [exact Hr|]. simpl. lia.
    + apply Forall_forall. intros item Hi. pose proof (placed_own _ _ _ Hnd Hpl Hi) as Ho.
      rewrite Hout, list_lookup_fmap in Ho. destruct (vs !! slot item) as [v|] eqn:Hv; [|done]. simpl in Ho.
      injection Ho as ->. split; [|done]. intros He. rewrite Forall_forall in Hne.
      apply (Hne (narrowed item)); [by eapply list_elem_of_lookup_2|]. unfold narrowed. by rewrite He.
  - intros (Hp & Hlen & Hall).
    assert (Forall (λ item, 0 <= ei_Index item < Z.of_nat n)%Z data) as Hr.
    { apply Forall_forall. intros item Hi. assert (ei_Index item ∈ seqZ 0 (Z.of_nat n)) as He%elem_of_seqZ.
      { rewrite <-Hp. by apply list_elem_of_fmap_2. } lia. }
    assert (NoDup (slot <$> data)) as Hnd.
    { apply to_nat_slots; [eapply Forall_impl; [exact Hr|simpl; lia]|]. rewrite Hp. apply NoDup_seqZ. }
    assert (Forall (placeable (replicate n None)) data) as Hpl.
    { eapply Forall_impl; [exact Hr|]. intros item. by rewrite placeable_fresh. }
    eexists. split; [by split_and!|]. split.
    + apply list_eq. intros i. rewrite list_lookup_fmap. destruct (decide (i < n)%nat) as [Hi|Hi].
      * assert (Z.of_nat i ∈ ei_Index <$> data) as (item & Hx & Hin)%list_elem_of_fmap.
        { rewrite Hp. apply elem_of_seqZ. lia. }
        assert (slot item = i) as <- by (unfold slot; lia). rewrite (placed_own _ _ _ Hnd Hpl Hin).
        rewrite Forall_forall in Hall. by rewrite (proj2 (Hall _ Hin)).
      * rewrite lookup_ge_None_2 by (rewrite placed_length, length_replicate; lia).
        by rewrite lookup_ge_None_2 by lia.
    + apply Forall_lookup_2. intros i v Hv. pose proof (lookup_lt_Some _ _ _ Hv).
      assert (Z.of_nat i ∈ ei_Index <$> data) as (item & Hx & Hin)%list_elem_of_fmap.
      { rewrite Hp. apply elem_of_seqZ. lia. }
      rewrite Forall_forall in Hall. destruct (Hall _ Hin) as [Hne Hsl].
      assert (slot item = i) as Hs by (unfold slot; lia). rewrite Hs, Hv in Hsl. injection Hsl as ->.
      unfold narrowed. by destruct (ei_Embedding item).
Qed.

(** The batches asked for, with what came of each. *)
Definition batch (x : {c : pcall & preply c})
  : option (string * list string * result sdk_error (string * string * list EmbeddingItem)) :=
  match x with existT (PEmbed model texts) rep => Some (model, texts, rep) | _ => None end.

(** A vector is that of its own text: embedding a batch yields vectors exactly when
    the platform, asked once for these very texts, answered every index of the batch
    once and with a vector that is not empty, and then the vector at each position is
    the one answered under that position's index, narrowed to float32, whatever the
    order of the answer. *)
Theorem vectors_follow_their_texts e texts t e' res vs :
  texts ≠ [] → histories (Embed e texts) t (e', res) →
  res = Ok vs ↔
  ∃ id inst data, omap batch t = [(ModelID e, texts, Ok (id, inst, data))] ∧ covers data (length texts) vs.
Proof.
  intros Hne Hh. unfold Embed in Hh. destruct texts as [|text texts]; [done|]. set (asked := text :: texts) in *.
  apply histories_bind in Hh as (r & t1 & t2 & -> & Hr & [-> [= -> ->]]). rewrite app_nil_r.
  unfold Embeddings in Hr. apply histories_bind in Hr as (built & t3 & t4 & -> & Hb & Hr). rewrite omap_app.
  assert (omap batch t3 = []) as ->.
  { unfold client in Hb. destruct (sdk (em_Client e)); [by destruct Hb as [-> _]|].
    by destruct Hb as (x & t' & -> & [-> _]). }
  destruct built as [c|err].
  - destruct Hr as (rep & t' & -> & [-> ->]). simpl. destruct rep as [[[id inst] data]|err]; simpl.
    + rewrite arrange_Ok. split; [intros Hc; by exists id, inst, data|].
      intros (id' & inst' & data' & [= <- <- <-] & ?). done.
    + split; [done|]. by intros (? & ? & ? & [=] & _).
  - destruct Hr as [-> ->]. simpl. split; [done|]. by intros (? & ? & ? & [=] & _).
Qed.

(** ** The scope *)

Definition scope_state (models : list string) : list string * gset string :=
  ("inference:read" :: "inference:stream" :: (String.append "model:" <$> models), list_to_set models).
Definition in_scope (d : CandidateDoc) (m : string) : Prop := cd_Provider d = Name ∧ cd_Model d = m ∧ m ≠ "".

Lemma scope_models models cs :
  NoDup models → ∃ models', foldl scope_model (scope_state models) cs = scope_state models' ∧ NoDup models' ∧
    ∀ m, m ∈ models' ↔ m ∈ models ∨ ∃ d, d ∈ cs ∧ in_scope d m.
Proof.
  revert models. induction cs as [|d cs IH]; intros models Hnd; cbn [foldl].
  { exists models. split_and!; [done..|]. intros m. split; [by left|]. by intros [?|(d & ?%not_elem_of_nil & _)]. }
  assert (∃ models1, scope_model (scope_state models) d = scope_state models1 ∧ NoDup models1 ∧
            ∀ m, m ∈ models1 ↔ m ∈ models ∨ in_scope d m) as (models1 & -> & Hnd1 & Hin1).
  { unfold scope_model, in_scope. destruct (String.eqb_spec (cd_Provider d) Name) as [Hp|Hp]; simpl.
    2:{ exists models. split_and!; [done..|]. naive_solver. }
    destruct (sempty (cd_Model d)) eqn:He; simpl.
    { apply sempty_true in He. exists models. split_and!; [done..|]. naive_solver. }
    apply sempty_false in He. case_bool_decide as Hs; simpl.
    - exists models. split_and!; [done..|]. intros m. split; [by left|].
      intros [?|(_ & <- & _)]; [done|]. by apply elem_of_list_to_set in Hs.
    - rewrite elem_of_list_to_set in Hs. exists (models ++ [cd_Model d])%list. split_and!.
      + unfold scope_state. rewrite fmap_app, list_to_set_app_L. simpl. f_equal. set_solver.
      + apply NoDup_app. split_and!; [done| |apply NoDup_singleton].
        intros x Hx ->%list_elem_of_singleton. done.
      + intros m. rewrite elem_of_app, list_elem_of_singleton. naive_solver. }
  destruct (IH models1 Hnd1) as (models' & -> & Hnd' & Hin'). exists models'. split_and!; [done..|].
  intros m. rewrite Hin', Hin1. setoid_rewrite elem_of_cons. naive_solver.
Qed.

(** Unless the environment pins it, the scope asked for names each model of the
    platform that some candidate of the bundle names, once, after the two rights every
    call needs, and no other model. *)
Theorem scope_names_every_candidate bundle :
  ∃ models, prometheusScope "" bundle =
      str_join " " ("inference:read" :: "inference:stream" :: (String.append "model:" <$> models)) ∧
    NoDup models ∧
    ∀ m, m ∈ models ↔ m ≠ "" ∧ ∃ p d, p ∈ Profiles bundle ∧ d ∈ Candidates p ∧ cd_Provider d = Name ∧ cd_Model d = m.
Proof.
  unfold prometheusScope, scopes. simpl.
  assert (∀ ps models, NoDup models → ∃ models',
    foldl (λ st profile, foldl scope_model st (Candidates profile)) (scope_state models) ps = scope_state models' ∧
    NoDup models' ∧ ∀ m, m ∈ models' ↔ m ∈ models ∨ ∃ p d, p ∈ ps ∧ d ∈ Candidates p ∧ in_scope d m) as Hall.
  { induction ps as [|p ps IH]; intros models Hnd; cbn [foldl].
    { exists models. split_and!; [done..|]. intros m. split; [by left|].
      by intros [?|(p & d & ?%not_elem_of_nil & _)]. }
    destruct (scope_models models (Candidates p) Hnd) as (models1 & -> & Hnd1 & Hin1).
    destruct (IH models1 Hnd1) as (models' & -> & Hnd' & Hin'). exists models'. split_and!; [done..|].
    intros m. rewrite Hin', Hin1. setoid_rewrite elem_of_cons. naive_solver. }
  destruct (Hall (Profiles bundle) [] NoDup_nil_2) as (models & Heq & Hnd & Hin).
  exists models. change (["inference:read"; "inference:stream"], ∅) with (scope_state []).
  rewrite Heq. split_and!; [done..|]. intros m. rewrite Hin. unfold in_scope. split.
  - intros [?%not_elem_of_nil|(p & d & ? & ? & ? & ? & ?)]; [done|]. split; [done|]. by exists p, d.
  - intros (? & p & d & ? & ? & ? & ?). right. by exists p, d.
Qed.

(** ** Concrete runs *)

Module PrometheusWitnesses.
#[local] Existing Instance amd64_runtime.
Definition said : json :=
  JObject [("model", JString "m");
           ("choices", JArray [JObject [("finish_reason", JString "tool_calls");
             ("message", JObject [("reasoning_content", JString "hm");
               ("tool_calls", JArray [JObject [("id", JString "c1"); ("type", JString "function");
                 ("function", JObject [("name", JString "f"); ("arguments", JString "{cut")])]])])]]);
           ("usage", JObject [("prompt_tokens", JNumber "12"); ("completion_tokens", JNumber "20");
             ("completion_tokens_details", JObject [("reasoning_tokens", JNumber "3")])])].
#[local] Instance platform : Wire :=
  {| json_parse s := Err 1%Z; type_offset _ := 0%Z; decode_failure _ := "invalid"; any_of _ := AOther "any";
     print_any _ := "?"; marshal_request _ := Ok said; bad_url _ := None |}.

Definition adapter : PAdapter := New "http://auth" "http://gateway" "id" "secret" "inference:read" "m".
Definition context : gmap string any :=
  obj [("messages", AList [AMap (obj [("role", AString "user"); ("content", AString "go")])]);
       ("idempotency_key", AString "k"); ("temperature", AFloat (f_of_Z 1)); ("tools", AList [AString "t"])].
Definition plain (m : gmap string any) : option string := Some "{}".
Definition limited : sdk_error :=
  {| se_Text := "429"; se_API := Some {| TypeSuffix := "rate-limit-exceeded-requests"; api_RetryAfter := Some (f_of_Z 7);
                                         RateLimit := Some "chat_completions" |} |}.
Definition meta : sdk_meta :=
  {| sm_RequestID := "r1"; sm_InstanceID := "i1"; sm_WaitedFor := 1500000000; sm_IdempotentReplay := true;
     sm_IdempotentReplayOf := "r0" |}.
(** A platform that refuses the first completion for its rate and serves the second. *)
Definition pserve (n : nat) (c : pcall) : nat * preply c :=
  match c with
  | PNew _ _ _ _ => (n, None)
  | PChat _ => (S n, if (n =? 0)%nat then Err limited else Ok (meta, Some ∅))
  | PUsage _ => (n, Err limited)
  | PEmbed _ _ => (n, Ok ("r2", "i1", [{| ei_Index := 1; ei_Embedding := [f_of_Z 2] |};
                                       {| ei_Index := 0; ei_Embedding := [f_const 1 3] |}]))
  | PModels | PMine => (n, Ok (Some [("m", "text")]))
  | PClose => (n, None)
  end.

Abbreviation decide := (Decide_ (λ _, "7") (λ _, "bad request") (λ _, "bad body") plain).
Definition first := run_log pserve 0%nat (decide adapter (Some context)).
Definition second := run_log pserve 1%nat (decide adapter (Some context)).

Lemma first_history : histories (decide adapter (Some context)) first.1.2 (first.2.1, first.2.2).
Proof. rewrite <-surjective_pairing. exact (run_log_histories pserve (decide adapter (Some context)) 0%nat). Qed.

Lemma decision_asks_once_witness :
  (∃ p, first.2.2 = Err p ∧ RetryAfterSeconds <$> ThrottleOf p = Some (Some (f_of_Z 7))) ∧
  sdk (pa_Client first.2.1) = true ∧ is_ok second.2.2 = true.
Proof.
  pose proof (decision_asks_once (λ _, "7") (λ _, "bad request") (λ _, "bad body") plain adapter (Some context)
    first.1.2 first.2.1 first.2.2 first_history) as Hd.
  split; [|by vm_compute].
  assert (completions first.1.2 = [(default (Build_ChatRequest "" "" [] None None None None [] ANil None)
    (match chatRequestFrom (default ∅ (chat_body "m" (Some context))) "k" with Ok r => Some r | Err _ => None end),
    Err limited)]) as Hc by (vm_compute; reflexivity).
  rewrite Hc in Hd. destruct Hd as [_ (p & Hp & Hth)]. exists p. split; [exact Hp|]. rewrite Hth. by vm_compute.
Defined.

Definition body : gmap string any := <["model" := AString "m"]> context.

Lemma answers_are_replayed_whole_witness :
  ∃ message req msg, chatRequestFrom (continued body message) "k" = Ok req ∧ last (cq_Messages req) = Some msg ∧
    length (cq_Messages req) = 2%nat ∧ ms_ReasoningContent msg = "hm" ∧
    ms_ToolCalls msg = [{| sk_ID := "c1"; sk_Type := "function"; sk_Name := "f"; sk_Arguments := "{cut" |}].
Proof.
  assert (∃ m, normalized (λ _, "bad body") plain (meta_of meta) ∅ = Ok m) as [m Hm] by (eexists; reflexivity).
  assert (∃ req, chatRequestFrom body "k" = Ok req ∧ length (cq_Messages req) = 1%nat) as (req & Hreq & Hlen)
    by (eexists; split; [vm_compute; reflexivity|done]).
  destruct (answers_are_replayed_whole _ _ _ _ _ _ _ _ Hm Hreq) as
    (encoded & parsed & choice & rest & message & msg & He & Hd & Hc & _ & _ & _ & Hr & Hcalls & req' & Hreq' & Hms & _).
  injection He as <-. vm_compute in Hd. injection Hd as <-. injection Hc as <- <-.
  exists message, req', msg. split; [exact Hreq'|]. rewrite Hms, last_snoc, length_app, Hlen.
  split_and!; [done|done|exact Hr|]. by rewrite Hcalls; vm_compute.
Defined.

Definition embedder : Embedder := {| em_Client := pa_Client adapter; ModelID := "e" |}.
Definition embedded := run_log pserve 0%nat (Embed embedder ["one"; "two"]).
Lemma embedded_history : histories (Embed embedder ["one"; "two"]) embedded.1.2 (embedded.2.1, embedded.2.2).
Proof. rewrite <-surjective_pairing. exact (run_log_histories pserve (Embed embedder ["one"; "two"]) 0%nat). Qed.

(** The second item of the answer is the first text's, and 1/3 is narrowed. *)
Lemma vectors_follow_their_texts_witness :
  embedded.2.2 = Ok [[S754_finite false 11184811 (-25)]; [S754_finite false (2 ^ 23) (-22)]].
Proof.
  apply (vectors_follow_their_texts embedder ["one"; "two"] embedded.1.2 embedded.2.1 embedded.2.2
           [[S754_finite false 11184811 (-25)]; [S754_finite false (2 ^ 23) (-22)]]); [done|exact embedded_history|].
  eexists "r2", "i1", _. split; [vm_compute; reflexivity|]. split_and!.
  - vm_compute. apply Permutation_swap.
  - done.
  - apply Forall_cons. split; [by vm_compute|]. apply Forall_cons. split; [by vm_compute|constructor].
Defined.

(** What is not on the list is not sent, and a temperature that is no float is not either. *)
Example unlisted_fields :
  chatRequestFrom (<["stop" := AString "x"]> (<["temperature" := AInt 1]> body)) "k" =
  chatRequestFrom (delete "temperature" body) "k".
Proof. vm_compute. reflexivity. Qed.
End PrometheusWitnesses.
