(* ===== verification/Rag.v ===== *)
(** * Retrieval: chunks, their index and the search over them

    go/internal/rag/rag.go, go/internal/store/rag.go, go/internal/toolexec/rag_tool.go.
    A document is packed into chunks that know the bytes they came from; a corpus is
    rows of chunks with the vector of each, written in one transaction per document; a
    search asks for the rows nearest to the query's vector. pgvector is a parameter:
    what a literal denotes, the distance, and an index that may miss neighbours. *)

From stdpp Require Import pretty.
From S2P Require Import Prelude GoValue Json Program.

Local Open Scope string_scope.
Set Default Proof Using "Type*".

(** ** Chunks *)

Record Chunk := {
  SourcePath : string;
  ChunkIndex : nat;
  ByteStart : nat;
  ByteEnd : nat;
  Content : string;
}.
Definition Locator (c : Chunk) : string :=
  SourcePath c +:+ "#" +:+ pretty (ByteStart c) +:+ "-" +:+ pretty (ByteEnd c).

Definition maxChunkBytes : nat := 1200.

(** [strings.SplitAfter(content, "\n\n")]. *)
Definition newline : Ascii.ascii := Ascii.ascii_of_nat 10.
Definition onto_first (c : Ascii.ascii) (l : list string) : list string :=
  match l with [] => [String c ""] | x :: l => String c x :: l end.
Fixpoint split_after (s : string) : list string :=
  match s with
  | EmptyString => [""]
  | String c r =>
      match r with
      | String d r' =>
          if byte_is 10 c && byte_is 10 d then String c (String d "") :: split_after r'
          else onto_first c (split_after r)
      | EmptyString => onto_first c (split_after r)
      end
  end.

Record packing := { chunks : list Chunk; start : nat; buf : string; offset : nat }.
Definition flush (sourcePath : string) (end_ : nat) (p : packing) : packing :=
  let text := trim_space (buf p) in
  {| chunks := if sempty text then chunks p else
       (chunks p ++ [{| SourcePath := sourcePath; ChunkIndex := length (chunks p); ByteStart := start p;
                        ByteEnd := end_; Content := text |}])%list;
     start := start p; buf := ""; offset := offset p |}.
Definition with_start (n : nat) (p : packing) : packing :=
  {| chunks := chunks p; start := n; buf := buf p; offset := offset p |}.
Definition pack (sourcePath : string) (p : packing) (paragraph : string) : packing :=
  let p := if (0 <? slen (buf p))%nat && (maxChunkBytes <? slen (buf p) + slen paragraph)%nat
           then with_start (offset p) (flush sourcePath (offset p) p) else p in
  let p := if (slen (buf p) =? 0)%nat then with_start (offset p) p else p in
  {| chunks := chunks p; start := start p; buf := buf p +:+ paragraph; offset := offset p + slen paragraph |}.
Definition ChunkDocument (sourcePath content : string) : list Chunk :=
  let p := foldl (pack sourcePath) {| chunks := []; start := 0; buf := ""; offset := 0 |} (split_after content) in
  chunks (flush sourcePath (offset p) p).

(** *** What the chunks are of a document *)

Definition str_concat (l : list string) : string := foldr String.append "" l.
(** The bytes of a text from one offset to another. *)
Definition bytes_at (from to : nat) (s : string) : string := take_str (to - from) (drop_str from s).

(** The chunks of groups of paragraphs laid end to end from an offset: one for each
    that is more than blanks, numbered in order. *)
Fixpoint chunks_of (sourcePath : string) (i at_ : nat) (groups : list (list string)) : list Chunk :=
  match groups with
  | [] => []
  | g :: groups =>
      let end_ := (at_ + slen (str_concat g))%nat in
      let text := trim_space (str_concat g) in
      if sempty text then chunks_of sourcePath i end_ groups
      else {| SourcePath := sourcePath; ChunkIndex := i; ByteStart := at_; ByteEnd := end_; Content := text |}
           :: chunks_of sourcePath (S i) end_ groups
  end.

(** Groups are as large as the limit lets them be: a group is within it or a single
    paragraph, and the next paragraph would not have fitted. *)
Definition fits (g : list string) : Prop :=
  g ≠ [] ∧ ((slen (str_concat g) <= maxChunkBytes)%nat ∨ str_concat g ∈ g).
Definition tight (groups : list (list string)) : Prop :=
  ∀ i g p g', groups !! i = Some g → groups !! S i = Some (p :: g') →
    (maxChunkBytes < slen (str_concat g) + slen p)%nat.

Lemma str_concat_app l k : str_concat (l ++ k) = str_concat l +:+ str_concat k.
Proof. induction l as [|x l IH]; simpl; [done|]. by rewrite IH, str_app_assoc. Qed.

Lemma split_after_concat s : str_concat (split_after s) = s.
Proof.
  assert (∀ c l, str_concat (onto_first c l) = String c (str_concat l)) as Ho by (intros c [|x l]; done).
  assert (∀ n s, (slen s <= n)%nat → str_concat (split_after s) = s) as Hn; [|by eapply Hn].
  induction n as [|n IH]; intros [|c s'] Hl; simpl in *; try done; try lia.
  destruct s' as [|d s'']; [done|]. destruct (byte_is 10 c && byte_is 10 d).
  - simpl. rewrite IH; [done|]. simpl in Hl. unfold slen in *. lia.
  - rewrite Ho, IH; [done|]. lia.
Qed.

Lemma split_after_nonempty s : split_after s ≠ [].
Proof.
  destruct s as [|c [|d s]]; cbn [split_after]; [discriminate|discriminate|].
  destruct (byte_is 10 c && byte_is 10 d); [discriminate|]. by destruct (match s with EmptyString => _ | _ => _ end).
Qed.

Lemma tight_snoc gs g p :
  tight (gs ++ [g]) → (maxChunkBytes < slen (str_concat g) + slen p)%nat → tight ((gs ++ [g]) ++ [[p]]).
Proof.
  intros Ht Hp i g1 p1 g2 H1 H2. destruct (decide (S i < length (gs ++ [g]))%nat) as [Hi|Hi].
  - rewrite lookup_app_l in H1, H2 by lia. by eapply Ht.
  - rewrite length_app in Hi. simpl in Hi. apply lookup_lt_Some in H2 as Hl. rewrite !length_app in Hl. simpl in Hl.
    assert (i = length gs) as -> by lia. rewrite lookup_app_r in H2 by (rewrite length_app; simpl; lia).
    rewrite length_app in H2. simpl in H2. rewrite Nat.add_1_r, Nat.sub_diag in H2. injection H2 as <- <-.
    rewrite lookup_app_l in H1 by (rewrite length_app; simpl; lia). rewrite list_lookup_middle in H1 by done.
    by injection H1 as <-.
Qed.

Lemma tight_extend gs g p : g ≠ [] → tight (gs ++ [g]) → tight (gs ++ [g ++ [p]])%list.
Proof.
  intros Hg Ht i g1 p1 g2 H1 H2. apply lookup_lt_Some in H2 as Hl. rewrite length_app in Hl. simpl in Hl.
  rewrite lookup_app_l in H1 by lia. destruct (decide (S i < length gs)%nat) as [Hi|Hi].
  - rewrite lookup_app_l in H2 by lia. eapply (Ht i); rewrite lookup_app_l by lia; done.
  - assert (S i = length gs) as Hs by lia. rewrite Hs, list_lookup_middle in H2 by done. injection H2 as H2.
    destruct g as [|q g]; [done|]. injection H2 as <- _. eapply (Ht i g1 q g).
    + by rewrite lookup_app_l by lia.
    + by rewrite Hs, list_lookup_middle.
Qed.

Lemma chunks_of_snoc path i at_ gs g :
  chunks_of path i at_ (gs ++ [g]) =
  (chunks_of path i at_ gs ++
   if sempty (trim_space (str_concat g)) then [] else
   [{| SourcePath := path; ChunkIndex := i + length (chunks_of path i at_ gs);
       ByteStart := at_ + slen (str_concat (concat gs)); ByteEnd := at_ + slen (str_concat (concat gs)) + slen (str_concat g);
       Content := trim_space (str_concat g) |}])%list.
Proof.
  revert i at_. induction gs as [|h gs IH]; intros i at_; simpl.
  - destruct (sempty _); [done|]. by rewrite !Nat.add_0_r.
  - rewrite str_concat_app, slen_app, !Nat.add_assoc. destruct (sempty (trim_space (str_concat h))).
    + apply IH.
    + simpl. f_equal. rewrite IH. do 2 f_equal. by rewrite Nat.add_succ_r.
Qed.

(** The state of the loop: the groups flushed and the one in the buffer. *)
Definition packing_ok (path : string) (pre : list string) (p : packing) : Prop :=
  ∃ done_ cur, pre = (concat done_ ++ cur)%list ∧ chunks p = chunks_of path 0 0 done_ ∧
    start p = slen (str_concat (concat done_)) ∧ buf p = str_concat cur ∧ offset p = slen (str_concat pre) ∧
    (cur = [] → done_ = []) ∧ (cur ≠ [] → Forall fits (done_ ++ [cur]) ∧ tight (done_ ++ [cur])).

Lemma slen_0 s : (slen s <= 0)%nat → s = "".
Proof. destruct s; [done|]. unfold slen. simpl. lia. Qed.

(** A paragraph joins the buffer. *)
Lemma join_ok path done_ cur x p :
  chunks p = chunks_of path 0 0 done_ → start p = slen (str_concat (concat done_)) → buf p = str_concat cur →
  offset p = slen (str_concat (concat done_ ++ cur)) → (cur = [] → done_ = []) →
  (cur ≠ [] → Forall fits (done_ ++ [cur]) ∧ tight (done_ ++ [cur])) →
  fits (cur ++ [x]) →
  packing_ok path (concat done_ ++ cur ++ [x])
    {| chunks := chunks p; start := start p; buf := buf p +:+ x; offset := offset p + slen x |}.
Proof.
  intros Hc Hs Hb Ho Hn Hne Hfit. exists done_, (cur ++ [x])%list. split_and!; try done; simpl.
  - rewrite Hb, str_concat_app. simpl. by rewrite str_app_nil.
  - rewrite Ho, app_assoc, (str_concat_app (concat done_ ++ cur)), slen_app. simpl. by rewrite str_app_nil.
  - by destruct cur.
  - intros _. destruct (decide (cur = [])) as [->|Hne'].
    + rewrite (Hn eq_refl). split; [by apply Forall_singleton|]. intros [|i] ? ? ? ? [=].
    + destruct (Hne Hne') as [Hf Ht]. split; [|by apply tight_extend].
      apply Forall_app in Hf as [Hf _]. apply Forall_app. split; [done|]. by apply Forall_singleton.
Qed.

Lemma pack_ok path pre p x : packing_ok path pre p → packing_ok path (pre ++ [x]) (pack path p x).
Proof.
  intros (done_ & cur & -> & Hc & Hs & Hb & Ho & Hn & Hne). unfold pack. rewrite <-app_assoc.
  assert (offset p = start p + slen (buf p))%nat as Hoff by (by rewrite Ho, Hs, Hb, str_concat_app, slen_app).
  destruct (Nat.ltb_spec 0 (slen (buf p))) as [Hpos|Hpos]; cbn [andb].
  - assert (cur ≠ []) as Hne' by (intros ->; rewrite Hb in Hpos; simpl in Hpos; lia).
    destruct (Hne Hne') as [Hf Ht]. destruct (Nat.ltb_spec maxChunkBytes (slen (buf p) + slen x)) as [Hmax|Hmax].
    + exists (done_ ++ [cur])%list, [x]. rewrite concat_app. simpl. rewrite app_nil_r, <-app_assoc. split_and!; try done.
      * rewrite chunks_of_snoc, Hb, Hc, <-Hs. simpl. destruct (sempty _); [by rewrite app_nil_r|].
        do 3 f_equal. by rewrite Hoff, Hb.
      * simpl. by rewrite str_app_nil.
      * rewrite app_assoc, (str_concat_app (concat done_ ++ cur)), slen_app, <-Ho. simpl. by rewrite str_app_nil.
      * intros _. split.
        -- apply Forall_app. split; [done|]. apply Forall_singleton. split; [done|]. right. simpl.
           rewrite str_app_nil. apply list_elem_of_here.
        -- apply tight_snoc; [done|]. by rewrite <-Hb.
    + rewrite (proj2 (Nat.eqb_neq _ _)) by lia. apply join_ok; try done. split; [by destruct cur|]. left.
      rewrite str_concat_app, slen_app, <-Hb. simpl. rewrite str_app_nil. lia.
  - apply slen_0 in Hpos. assert ((slen (buf p) =? 0)%nat = true) as -> by (by rewrite Hpos).
    unfold with_start. cbn [chunks start buf offset].
    assert (start p = offset p) as <- by (rewrite Hoff, Hpos; unfold slen; simpl; lia).
    replace (start p + slen x)%nat with (offset p + slen x)%nat by (rewrite Hoff, Hpos; unfold slen; simpl; lia).
    apply join_ok; try done. split; [by destruct cur|]. right.
    rewrite str_concat_app, <-Hb, Hpos. simpl. rewrite str_app_nil. set_solver.
Qed.

Lemma pack_all path l p pre : packing_ok path pre p → packing_ok path (pre ++ l) (foldl (pack path) p l).
Proof.
  revert p pre. induction l as [|x l IH]; intros p pre Hp; simpl; [by rewrite app_nil_r|].
  rewrite (app_assoc pre [x] l : (pre ++ x :: l)%list = _). by apply IH, pack_ok.
Qed.

Lemma bytes_at_middle a b c : bytes_at (slen a) (slen a + slen b) (a +:+ b +:+ c) = b.
Proof.
  unfold bytes_at. rewrite drop_str_app. replace (slen a + slen b - slen a)%nat with (slen b) by lia.
  apply take_str_app.
Qed.

(** A chunk where it says, after an offset. *)
Definition located (path content : string) (i at_ k : nat) (c : Chunk) : Prop :=
  SourcePath c = path ∧ ChunkIndex c = (i + k)%nat ∧ (at_ <= ByteStart c < ByteEnd c)%nat ∧
  (ByteEnd c <= slen content)%nat ∧
  Content c ≠ "" ∧ Content c = trim_space (bytes_at (ByteStart c) (ByteEnd c) content).

Lemma chunks_located path i pre gs k c :
  chunks_of path i (slen pre) gs !! k = Some c → located path (pre +:+ str_concat (concat gs)) i (slen pre) k c.
Proof.
  revert i pre k. induction gs as [|g gs IH]; intros i pre k Hk; simpl in Hk; [done|].
  rewrite <-slen_app in Hk.
  assert (pre +:+ str_concat (concat (g :: gs)) = (pre +:+ str_concat g) +:+ str_concat (concat gs)) as Heq.
  { simpl. by rewrite str_concat_app, str_app_assoc. }
  rewrite Heq. destruct (sempty (trim_space (str_concat g))) eqn:He.
  - destruct (IH _ _ _ Hk) as (H1 & H2 & H3 & H4 & H5 & H6). rewrite slen_app in H3. split_and!; try done; lia.
  - apply sempty_false in He. destruct k as [|k].
    + injection Hk as <-. unfold located. cbn [SourcePath ChunkIndex ByteStart ByteEnd Content]. rewrite <-Heq. split_and!; try done; try lia.
      * assert (slen (str_concat g) ≠ 0)%nat; [|rewrite slen_app; lia]. intros H0. apply He.
        by rewrite (slen_0 (str_concat g)) by lia.
      * rewrite Heq, !slen_app. lia.
      * rewrite Heq, slen_app, <-str_app_assoc. by rewrite bytes_at_middle.
    + destruct (IH _ _ _ Hk) as (H1 & H2 & H3 & H4 & H5 & H6). rewrite slen_app in H3. split_and!; try done; lia.
Qed.

Lemma chunks_ordered path i at_ gs k c c' :
  chunks_of path i at_ gs !! k = Some c → chunks_of path i at_ gs !! S k = Some c' → (ByteEnd c <= ByteStart c')%nat.
Proof.
  revert i at_ k. induction gs as [|g gs IH]; intros i at_ k Hk Hk'; simpl in *; [done|].
  destruct (sempty (trim_space (str_concat g))); [by eapply IH|]. destruct k as [|k]; [|by eapply IH].
  injection Hk as <-. simpl in *.
  assert (∃ pre, slen pre = (at_ + slen (str_concat g))%nat) as [pre Hpre].
  { clear. generalize (at_ + slen (str_concat g))%nat. intros n. induction n as [|n [pre <-]]; [by exists ""|]. by exists (String newline pre). }
  rewrite <-Hpre in Hk'. apply chunks_located in Hk' as (_ & _ & ? & _). cbn. lia.
Qed.

Lemma document_groups path content :
  ∃ groups, concat groups = split_after content ∧ str_concat (concat groups) = content ∧
    Forall fits groups ∧ tight groups ∧ ChunkDocument path content = chunks_of path 0 0 groups.
Proof.
  destruct (pack_all path (split_after content) {| chunks := []; start := 0; buf := ""; offset := 0 |} [])
    as (done_ & cur & Hpre & Hc & Hst & Hb & Ho & Hn & Hne).
  { by exists [], []. }
  simpl in Hpre. unfold ChunkDocument. set (p := foldl _ _ _) in *.
  assert (cur ≠ []) as Hcur.
  { intros Hcur. rewrite (Hn Hcur), Hcur in Hpre. by apply (split_after_nonempty content). }
  destruct (Hne Hcur) as [Hf Ht]. exists (done_ ++ [cur])%list. rewrite concat_app. simpl. rewrite app_nil_r.
  split_and!; [done|by rewrite <-Hpre, split_after_concat|done|done|].
  rewrite chunks_of_snoc. simpl. rewrite Hb, Hc, <-Hst. destruct (sempty _); [by rewrite app_nil_r|].
  do 3 f_equal. rewrite Ho. simpl. by rewrite Hpre, str_concat_app, slen_app, Hst.
Qed.

Lemma document_chunk path content k c :
  ChunkDocument path content !! k = Some c → located path content 0 0 k c.
Proof.
  destruct (document_groups path content) as (groups & _ & Hs & _ & _ & ->). intros Hk.
  pose proof (chunks_located path 0 "" groups k c Hk) as Hl. simpl in Hl. by rewrite Hs in Hl.
Qed.

(** A chunk can be cited: the chunks of a document are numbered from 0, each is the
    bytes its locator names, blanks around them apart, and they follow one another
    without overlapping. Together they are the whole document, cut between paragraphs
    only, as few times as the limit lets them be: a chunk is within the limit or a single
    paragraph, and its successor's first paragraph would not have fitted; a part that is
    only blanks makes no chunk. *)
Theorem chunks_cite_their_bytes path content :
  (∃ groups, concat groups = split_after content ∧ str_concat (concat groups) = content ∧
     Forall fits groups ∧ tight groups ∧ ChunkDocument path content = chunks_of path 0 0 groups) ∧
  ∀ k c, ChunkDocument path content !! k = Some c →
    located path content 0 0 k c ∧
    ∀ c', ChunkDocument path content !! S k = Some c' → (ByteEnd c <= ByteStart c')%nat.
Proof.
  split; [apply document_groups|]. intros k c Hk. split; [by apply document_chunk|].
  destruct (document_groups path content) as (groups & _ & _ & _ & _ & Hc). rewrite Hc in Hk |- *.
  intros c' Hk'. by eapply chunks_ordered.
Qed.

(** ** The index *)

Record row := {
  r_start : Z;
  r_end : Z;
  r_content : string;
  r_model : string;
  r_literal : string;
}.
(** tenant_id, corpus, source_path, chunk_index *)
Abbreviation rkey := (string * string * string * Z)%type.
Abbreviation rtable := (gmap rkey row).
Definition tenant_of (k : rkey) : string := k.1.1.1.
Definition corpus_of (k : rkey) : string := k.1.1.2.
Definition chunk_key (tenant corpus : string) (c : Chunk) : rkey :=
  (tenant, corpus, SourcePath c, Z.of_nat (ChunkIndex c)).

(** The database: what is committed, and the open transaction's view. *)
Record rworld := { rows : rtable; tx : option rtable }.

(** pgvector: whether a literal is a vector of the column's size, and the distance of two. *)
Class PgVector := { vector_ok : string → bool; distance : string → string → float64 }.

Record Passage := { pa_Chunk : Chunk; pa_Locator : string; Score : float64 }.
(** A row as the search selects it. *)
Record hit := { h_key : rkey; h_row : row; h_score : float64 }.

Inductive rcall :=
| REmbed (texts : list string)
| RBegin
| RInsert (tenant corpus : string) (c : Chunk) (model literal : string)
| RCommit
| RModel (tenant corpus : string)
| RNearest (tenant corpus literal : string) (k : Z).
Definition rreply (c : rcall) : Type :=
  match c with
  | REmbed _ => result string (list (list float64))
  | RModel _ _ => result dberr (option string)
  | RNearest _ _ _ _ => result dberr (list hit)
  | _ => result dberr ()
  end.
Abbreviation RM := (prog rreply).

Inductive rag_error :=
| EmbeddingDocument (path e : string)
| EmbeddingQuery (e : string)
| QueryRequired
| VectorCount (n : nat)
| ChunkCount (chunks embeddings : nat)
| BeginIndex (e : dberr)
| IndexingChunk (i : nat) (path : string) (e : dberr)
| CommitIndex (e : dberr)
| ReadingCorpus (corpus : string) (e : dberr)
| CorpusEmpty (corpus : string)
| ModelMismatch (indexed searched : string)
| Searching (corpus : string) (e : dberr).

Section rag.
Context `{Postgres} `{PgVector}.
(** [strconv.FormatFloat(float64(f), 'g', -1, 32)], and the name of the embedder's model. *)
Context (float_text : float64 → string) (EmbedderModel : string).

Definition vectorLiteral (v : list float64) : string := "[" +:+ str_join "," (float_text <$> v) +:+ "]".

Fixpoint insert_chunks (tenant corpus : string) (l : list (Chunk * list float64)) : RM (option rag_error) :=
  match l with
  | [] => mret None
  | (c, v) :: l =>
      r ← ask (R := rreply) (RInsert tenant corpus c EmbedderModel (vectorLiteral v));
      match r with
      | Err e => mret (Some (IndexingChunk (ChunkIndex c) (SourcePath c) e))
      | Ok _ => insert_chunks tenant corpus l
      end
  end.
Definition Index (tenant corpus : string) (chunks : list Chunk) (embeddings : list (list float64)) : RM (option rag_error) :=
  if negb (length chunks =? length embeddings)%nat then mret (Some (ChunkCount (length chunks) (length embeddings))) else
  begun ← ask (R := rreply) RBegin;
  match begun with
  | Err e => mret (Some (BeginIndex e))
  | Ok _ =>
      failed ← insert_chunks tenant corpus (zip chunks embeddings);
      match failed with
      | Some e => mret (Some e)
      | None =>
          r ← ask (R := rreply) RCommit;
          mret (match r with Err e => Some (CommitIndex e) | Ok _ => None end)
      end
  end.

Definition IndexDocument (tenant corpus sourcePath content : string) : RM (result rag_error nat) :=
  let chunks := ChunkDocument sourcePath content in
  if (length chunks =? 0)%nat then mret (Ok 0%nat) else
  vectors ← ask (R := rreply) (REmbed (Content <$> chunks));
  match vectors : result string (list (list float64)) with
  | Err e => mret (Err (EmbeddingDocument sourcePath e))
  | Ok vectors =>
      failed ← Index tenant corpus chunks vectors;
      mret (match failed with Some e => Err e | None => Ok (length chunks) end)
  end.

Definition chunk_of (h : hit) : Chunk :=
  {| SourcePath := (h_key h).1.2; ChunkIndex := Z.to_nat (h_key h).2; ByteStart := Z.to_nat (r_start (h_row h));
     ByteEnd := Z.to_nat (r_end (h_row h)); Content := r_content (h_row h) |}.
Definition passage_of (h : hit) : Passage :=
  {| pa_Chunk := chunk_of h; pa_Locator := Locator (chunk_of h); Score := h_score h |}.

Definition SearchIndex (tenant corpus embeddingModel : string) (query : list float64) (topK : Z)
  : RM (result rag_error (list Passage)) :=
  let topK := if (topK <=? 0)%Z then 5%Z else topK in
  indexed ← ask (R := rreply) (RModel tenant corpus);
  match indexed : result dberr (option string) with
  | Err e => mret (Err (ReadingCorpus corpus e))
  | Ok None => mret (Err (CorpusEmpty corpus))
  | Ok (Some indexedModel) =>
      if negb (String.eqb indexedModel embeddingModel) then mret (Err (ModelMismatch indexedModel embeddingModel)) else
      hits ← ask (R := rreply) (RNearest tenant corpus (vectorLiteral query) topK);
      mret (match hits : result dberr (list hit) with
            | Err e => Err (Searching corpus e)
            | Ok l => Ok (passage_of <$> l)
            end)
  end.

Definition Search (tenant corpus query : string) (topK : Z) : RM (result rag_error (list Passage)) :=
  if sempty (trim_space query) then mret (Err QueryRequired) else
  vectors ← ask (R := rreply) (REmbed [query]);
  match vectors : result string (list (list float64)) with
  | Err e => mret (Err (EmbeddingQuery e))
  | Ok [v] => SearchIndex tenant corpus EmbedderModel v topK
  | Ok l => mret (Err (VectorCount (length l)))
  end.

(** ** The tool *)

Definition defaultTopK : Z := 5.
Inductive tool_error := MissingQuery | RagFailed (e : rag_error).
Definition passage_result (p : Passage) : any :=
  AMap (obj [("locator", AString (pa_Locator p)); ("source_path", AString (SourcePath (pa_Chunk p)));
             ("content", AString (Content (pa_Chunk p))); ("score", AFloat (Score p))]).
Definition top_k `{GoRuntime} (args : gmap string any) : Z :=
  match mget args "top_k" with
  | AFloat raw => if fgtb raw f_zero then f_to_int raw else defaultTopK
  | _ => defaultTopK
  end.
(** The tool is registered over one tenant's store; the tenant it is called for is not used. *)
Definition search_rag `{GoRuntime} (store_tenant corpus tenant : string) (args : gmap string any)
  : RM (result tool_error (gmap string any)) :=
  let query := as_string (mget args "query") in
  if sempty query then mret (Err MissingQuery) else
  passages ← Search store_tenant corpus query (top_k args);
  mret (match passages with
        | Err e => Err (RagFailed e)
        | Ok passages =>
            Ok (obj [("status", AString "executed"); ("tool", AString "search.rag"); ("corpus", AString corpus);
                     ("embedding_model", AString EmbedderModel); ("passages", AList (passage_result <$> passages))])
        end).

(** ** Its semantics *)

Definition checked (tenant corpus : string) (c : Chunk) (model literal : string) : bool :=
  forallb text_ok [tenant; corpus; SourcePath c; Content c; model] && vector_ok literal &&
  forallb in_int32 [Z.of_nat (ChunkIndex c); Z.of_nat (ByteStart c); Z.of_nat (ByteEnd c)].
Definition row_of (c : Chunk) (model literal : string) : row :=
  {| r_start := Z.of_nat (ByteStart c); r_end := Z.of_nat (ByteEnd c); r_content := Content c; r_model := model;
     r_literal := literal |}.

(** INSERT ... ON CONFLICT DO UPDATE of every column. *)
Definition sql_insert (w : rworld) (tenant corpus : string) (c : Chunk) (model literal : string) : result refusal (rworld * ()) :=
  match tx w with
  | Some t => if checked tenant corpus c model literal
              then Ok ({| rows := rows w; tx := Some (<[chunk_key tenant corpus c := row_of c model literal]> t) |}, tt)
              else Err Refused
  | None => Err Refused
  end.
Definition sql_begin (w : rworld) : result refusal (rworld * ()) := Ok ({| rows := rows w; tx := Some (rows w) |}, tt).
Definition sql_commit (w : rworld) : result refusal (rworld * ()) :=
  match tx w with Some t => Ok ({| rows := t; tx := None |}, tt) | None => Err Refused end.

Definition in_corpus (tenant corpus : string) (k : rkey) : Prop := tenant_of k = tenant ∧ corpus_of k = corpus.
(** Rows of the corpus, nearest first, no more than asked for: an approximate index
    may leave out some that are nearer. *)
Definition nearest (t : rtable) (tenant corpus literal : string) (k : Z) (l : list hit) : Prop :=
  (Z.of_nat (length l) <= k)%Z ∧ NoDup (h_key <$> l) ∧
  (∀ h, h ∈ l → t !! h_key h = Some (h_row h) ∧ in_corpus tenant corpus (h_key h) ∧
                h_score h = fsub (f_of_Z 1) (distance (r_literal (h_row h)) literal)) ∧
  StronglySorted (λ a b, fltb (distance (r_literal (h_row b)) literal) (distance (r_literal (h_row a)) literal) = false) l.

Definition rsem (w : rworld) (c : rcall) : rreply c → rworld → Prop :=
  match c with
  | REmbed _ => λ _ w', w' = w
  | RBegin => λ r w', stmt w (sql_begin w) r w'
  | RInsert tenant corpus c model literal => λ r w', stmt w (sql_insert w tenant corpus c model literal) r w'
  | RCommit => λ r w', stmt w (sql_commit w) r w'
  | RModel tenant corpus => λ r w', w' = w ∧
      match r with
      | Ok (Some m) => ∃ k x, rows w !! k = Some x ∧ in_corpus tenant corpus k ∧ r_model x = m
      | Ok None => ∀ k, in_corpus tenant corpus k → rows w !! k = None
      | Err _ => True
      end
  | RNearest tenant corpus literal k => λ r w', w' = w ∧
      match r with
      | Ok l => vector_ok literal = true ∧ nearest (rows w) tenant corpus literal k l
      | Err _ => True
      end
  end.

(** ** A document's rows *)

Definition indexed (tenant corpus : string) (l : list (Chunk * list float64)) (t : rtable) : rtable :=
  foldl (λ t cv, <[chunk_key tenant corpus cv.1 := row_of cv.1 EmbedderModel (vectorLiteral cv.2)]> t) t l.

Lemma insert_chunks_alone tenant corpus l w w' res :
  alone rsem w (insert_chunks tenant corpus l) w' res →
  rows w' = rows w ∧ (res = None → tx w' = indexed tenant corpus l <$> tx w ∧ (l ≠ [] → is_Some (tx w))).
Proof.
  revert w. induction l as [|[c v] l IH]; intros w; cbn [insert_chunks].
  - intros [-> ->]. split; [done|]. intros _. split; [|done]. by destruct (tx w).
  - intros (r & w1 & Hs & Ha).
    assert (rows w1 = rows w) as Hr.
    { apply stmt_cases in Hs as [->|([] & Hs)]; [done|]. unfold sql_insert in Hs. repeat case_match; by simplify_eq. }
    destruct r as [[]|e].
    + apply IH in Ha as [Ha1 Ha2]. split; [congruence|]. intros Hn. destruct (Ha2 Hn) as [Htx _].
      apply stmt_ok in Hs. unfold sql_insert in Hs. destruct (tx w) as [t|] eqn:Ht; [|done].
      destruct (checked _ _ _ _ _); [|done]. simplify_eq. simpl in Htx. split; [done|by eexists].
    + destruct Ha as [-> ->]. split; [done|]. by intros [=].
Qed.

Definition keys (tenant corpus : string) (l : list (Chunk * list float64)) : list rkey := chunk_key tenant corpus ∘ fst <$> l.

Lemma indexed_other tenant corpus l t k : k ∉ keys tenant corpus l → indexed tenant corpus l t !! k = t !! k.
Proof.
  revert t. induction l as [|cv l IH]; intros t; [done|]. unfold keys. simpl. rewrite not_elem_of_cons. intros [Hne Hn].
  rewrite IH by done. by rewrite lookup_insert_ne.
Qed.

Lemma indexed_own tenant corpus l t c v :
  NoDup (keys tenant corpus l) → (c, v) ∈ l →
  indexed tenant corpus l t !! chunk_key tenant corpus c = Some (row_of c EmbedderModel (vectorLiteral v)).
Proof.
  revert t. induction l as [|cv l IH]; intros t; [set_solver|]. unfold keys. simpl. rewrite NoDup_cons.
  intros [Hn Hnd] [<-|Hin]%elem_of_cons; [|by apply IH].
  rewrite indexed_other by done. apply lookup_insert_eq.
Qed.

Lemma document_keys tenant corpus path content vectors :
  let l := zip (ChunkDocument path content) vectors in
  NoDup (keys tenant corpus l) ∧
  ∀ k, k ∈ keys tenant corpus l → ∃ i, k = (tenant, corpus, path, Z.of_nat i) ∧ (i < length (ChunkDocument path content))%nat.
Proof.
  cbv zeta. set (cs := ChunkDocument path content).
  assert (∀ i c v, zip cs vectors !! i = Some (c, v) → chunk_key tenant corpus c = (tenant, corpus, path, Z.of_nat i) ∧ (i < length cs)%nat)
    as Hkey.
  { intros i c v Hi. apply lookup_zip_Some in Hi as [Hi _]. split; [|by eapply lookup_lt_Some].
    apply document_chunk in Hi as (Hp & Hx & _). unfold chunk_key. by rewrite Hp, Hx. }
  split.
  - apply NoDup_alt. intros i j k Hi Hj. unfold keys in Hi, Hj. rewrite list_lookup_fmap in Hi, Hj.
    destruct (zip cs vectors !! i) as [[c v]|] eqn:Hzi; [|done]. destruct (zip cs vectors !! j) as [[c' v']|] eqn:Hzj; [|done].
    rewrite <-Hi in Hj. apply (inj Some) in Hj. simpl in Hj. apply Hkey in Hzi as [Hzi _]. apply Hkey in Hzj as [Hzj _].
    rewrite Hzi, Hzj in Hj. injection Hj. lia.
  - intros k ([c v] & -> & (i & Hi)%list_elem_of_lookup)%list_elem_of_fmap. simpl. apply Hkey in Hi as [-> Hi]. by exists i.
Qed.

(** The table with a document's chunks and vectors in it, the rest as it was: what it
    says at every key. *)
Definition document_in (tenant corpus path content : string) (vectors : list (list float64)) (t t' : rtable) : Prop :=
  length vectors = length (ChunkDocument path content) ∧
  (∀ i c v, ChunkDocument path content !! i = Some c → vectors !! i = Some v →
     t' !! (tenant, corpus, path, Z.of_nat i) = Some (row_of c EmbedderModel (vectorLiteral v))) ∧
  (∀ k, (∀ i, (i < length (ChunkDocument path content))%nat → k ≠ (tenant, corpus, path, Z.of_nat i)) → t' !! k = t !! k).

Lemma indexed_document tenant corpus path content vectors t :
  length vectors = length (ChunkDocument path content) →
  document_in tenant corpus path content vectors t (indexed tenant corpus (zip (ChunkDocument path content) vectors) t).
Proof.
  intros Hl. destruct (document_keys tenant corpus path content vectors) as [Hnd Hk]. split_and!; [done| |].
  - intros i c v Hc Hv. pose proof (document_chunk _ _ _ _ Hc) as (Hp & Hi & _).
    assert (chunk_key tenant corpus c = (tenant, corpus, path, Z.of_nat i)) as <- by (unfold chunk_key; by rewrite Hp, Hi).
    apply indexed_own; [done|]. apply list_elem_of_lookup. exists i. apply lookup_zip_Some. done.
  - intros k Hne. apply indexed_other. intros Hin. apply Hk in Hin as (i & -> & Hi). by eapply Hne.
Qed.

Lemma IndexDocument_alone tenant corpus path content w w' res :
  alone rsem w (IndexDocument tenant corpus path content) w' res →
  match res with
  | Ok n => n = length (ChunkDocument path content) ∧
            ∃ vectors, document_in tenant corpus path content vectors (rows w) (rows w')
  | Err e => rows w' = rows w ∨
             (e = CommitIndex None ∧ ∃ vectors, document_in tenant corpus path content vectors (rows w) (rows w'))
  end.
Proof.
  unfold IndexDocument. destruct (length (ChunkDocument path content) =? 0)%nat eqn:Hz.
  { apply Nat.eqb_eq in Hz. intros [-> ->]. split; [done|]. exists []. unfold document_in. rewrite Hz. split_and!; [done| |done].
    by destruct (ChunkDocument path content). }
  intros (vectors & w1 & -> & Ha). destruct vectors as [vectors|e]; [|destruct Ha as [-> ->]; by left].
  cbn [prog_bind] in Ha. apply alone_bind in Ha as (failed & w2 & Hx & [-> ->]). unfold Index in Hx.
  destruct (Nat.eqb_spec (length (ChunkDocument path content)) (length vectors)) as [Hl|Hl]; cbn [negb] in Hx.
  2:{ destruct Hx as [-> ->]. by left. }
  destruct Hx as (begun & w3 & Hb & Hx). cbn [rsem] in Hb. unfold sql_begin in Hb.
  assert (rows w3 = rows w) as Hr3 by (apply stmt_cases in Hb as [->|([] & Hb)]; [done|by simplify_eq]).
  destruct begun as [[]|e]; [|destruct Hx as [-> ->]; by left].
  apply stmt_ok in Hb. simplify_eq. cbn [prog_bind] in Hx. apply alone_bind in Hx as (failed1 & w4 & Hi & Hx).
  apply insert_chunks_alone in Hi as [Hr Hi]. destruct failed1 as [e|]; [destruct Hx as [-> ->]; by left|].
  destruct (Hi eq_refl) as [Htx _]. destruct Hx as (r & w5 & Hc & [-> ->]). cbn [rsem] in Hc. unfold sql_commit in Hc. rewrite Htx in Hc. simpl in Hc.
  pose proof (indexed_document tenant corpus path content vectors (rows w) (eq_sym Hl)) as Hd.
  destruct Hc as [([] & [= <-] & [->| ->])|[(e & [=] & _)|[-> ->]]].
  - split; [done|]. by exists vectors.
  - right. split; [done|]. by exists vectors.
  - left. done.
Qed.

(** Indexing a document is all or nothing: reported as done, every chunk of it is in
    its corpus with its own vector and its locator, under the embedder's model, and no
    other row of any corpus or tenant has changed; reported as failed, nothing has
    changed, unless it is the answer to the commit that was lost. *)
Theorem indexing_is_all_or_nothing tenant corpus path content w w' res :
  alone rsem w (IndexDocument tenant corpus path content) w' res →
  match res with
  | Ok n => n = length (ChunkDocument path content) ∧
            ∃ vectors, document_in tenant corpus path content vectors (rows w) (rows w')
  | Err e => rows w' = rows w ∨
             (e = CommitIndex None ∧ ∃ vectors, document_in tenant corpus path content vectors (rows w) (rows w'))
  end.
Proof. apply IndexDocument_alone. Qed.

(** Indexing an unchanged document again, with the same vectors, changes nothing. *)
Lemma reindexing_converges tenant corpus path content vectors t t1 t2 :
  document_in tenant corpus path content vectors t t1 → document_in tenant corpus path content vectors t1 t2 → t2 = t1.
Proof.
  intros (Hl & Hin & _) (_ & Hin' & Hout). apply map_eq. intros k.
  set (n := length (ChunkDocument path content)) in *.
  destruct (decide (k = (tenant, corpus, path, k.2) ∧ 0 <= k.2 < Z.of_nat n)%Z) as [[Hk Hr]|Hn].
  - assert (k = (tenant, corpus, path, Z.of_nat (Z.to_nat k.2))) as Hk' by (rewrite Hk at 1; by rewrite Z2Nat.id by lia).
    rewrite Hk'. set (i := Z.to_nat k.2). assert (i < n)%nat as Hi by (unfold i; lia).
    destruct (lookup_lt_is_Some_2 _ _ Hi) as [c Hc]. rewrite <-Hl in Hi.
    destruct (lookup_lt_is_Some_2 _ _ Hi) as [v Hv]. by rewrite (Hin _ _ _ Hc Hv), (Hin' _ _ _ Hc Hv).
  - apply Hout. intros i Hi ->. apply Hn. simpl. split; [done|lia].
Qed.

(** ** What a search shows *)

Definition shows (t : rtable) (tenant corpus : string) (p : Passage) : Prop :=
  ∃ h, t !! h_key h = Some (h_row h) ∧ in_corpus tenant corpus (h_key h) ∧ p = passage_of h.
Definition limit (topK : Z) : Z := if (topK <=? 0)%Z then 5%Z else topK.

(** A search shows only passages of its tenant's corpus, each with the locator it was
    indexed under, no more than asked for, and changes nothing; an empty corpus is told
    from one without a match, and a corpus none of whose rows is under the searcher's
    model is refused. *)
Theorem passages_are_of_the_corpus tenant corpus query topK w w' res :
  alone rsem w (Search tenant corpus query topK) w' res →
  w' = w ∧
  match res with
  | Ok ps => (Z.of_nat (length ps) <= limit topK)%Z ∧
             (∃ k x, rows w !! k = Some x ∧ in_corpus tenant corpus k ∧ r_model x = EmbedderModel) ∧
             ∀ p, p ∈ ps → shows (rows w) tenant corpus p ∧ pa_Locator p = Locator (pa_Chunk p)
  | Err (CorpusEmpty _) => ∀ k, in_corpus tenant corpus k → rows w !! k = None
  | Err (ModelMismatch m _) => m ≠ EmbedderModel ∧
             ∃ k x, rows w !! k = Some x ∧ in_corpus tenant corpus k ∧ r_model x = m
  | Err _ => True
  end.
Proof.
  unfold Search. destruct (sempty (trim_space query)); [by intros [-> ->]|].
  intros (vectors & w1 & -> & Ha). destruct vectors as [[|v [|? ?]]|e]; try by destruct Ha as [-> ->].
  cbn [prog_bind] in Ha. unfold SearchIndex in Ha. destruct Ha as (m & w2 & [-> Hm] & Ha).
  cbn [prog_bind] in Ha.
  destruct m as [[m|]|e]; try by destruct Ha as [-> ->].
  destruct (String.eqb_spec m EmbedderModel) as [->|Hne]; cbn [negb] in Ha.
  2:{ destruct Ha as [-> ->]. done. }
  destruct Ha as (hits & w3 & [-> Hh] & [-> ->]). split; [done|]. cbn [prog_bind] in *. destruct hits as [l|e]; [|done].
  destruct Hh as (_ & Hk & _ & Hall & _). rewrite length_fmap. split_and!; [done|done|].
  intros p (h & -> & Hh)%list_elem_of_fmap. destruct (Hall _ Hh) as (? & ? & _). split; [by exists h|done].
Qed.

(** Any passage of the corpus may be shown when some row of it is the searcher's. *)
Lemma any_passage_shows tenant corpus query topK w k x k' x' v :
  trim_space query ≠ "" → vector_ok (vectorLiteral v) = true →
  rows w !! k = Some x → in_corpus tenant corpus k → r_model x = EmbedderModel →
  rows w !! k' = Some x' → in_corpus tenant corpus k' →
  ∃ p, alone rsem w (Search tenant corpus query topK) w (Ok [p]) ∧
    pa_Chunk p = chunk_of {| h_key := k'; h_row := x'; h_score := f_zero |}.
Proof.
  intros Hq Hv Hk Hin Hm Hk' Hin'. unfold Search. apply sempty_false in Hq. rewrite Hq.
  set (h := {| h_key := k'; h_row := x'; h_score := fsub (f_of_Z 1) (distance (r_literal x') (vectorLiteral v)) |}).
  exists (passage_of h). split; [|done]. exists (Ok [v]), w. split; [done|]. unfold SearchIndex.
  exists (Ok (Some EmbedderModel)), w. split; [cbn [rsem]; split; [done|]; exists k, x; done|]. cbn [prog_bind].
  rewrite String.eqb_refl. cbn [negb]. exists (Ok [h]), w. split; [|done]. cbn [rsem]. split; [done|]. split; [done|].
  split_and!; simpl.
  - destruct (Z.leb_spec topK 0); lia.
  - apply NoDup_singleton.
  - intros h' ->%list_elem_of_singleton. done.
  - repeat constructor.
Qed.

(** A passage outlives its text: when a document is indexed again with fewer chunks,
    the rows of its old last chunks stay as they were, and a search may show them, text
    and locator, as passages of the document that no longer has them. *)
Theorem stale_passages_survive tenant corpus path content w w' n i x query topK v :
  alone rsem w (IndexDocument tenant corpus path content) w' (Ok n) →
  rows w !! (tenant, corpus, path, Z.of_nat i) = Some x → (n <= i)%nat → r_model x = EmbedderModel →
  trim_space query ≠ "" → vector_ok (vectorLiteral v) = true →
  rows w' !! (tenant, corpus, path, Z.of_nat i) = Some x ∧
  (∀ c, c ∈ ChunkDocument path content → ChunkIndex c ≠ i) ∧
  ∃ p, alone rsem w' (Search tenant corpus query topK) w' (Ok [p]) ∧ SourcePath (pa_Chunk p) = path ∧
    ChunkIndex (pa_Chunk p) = i ∧ Content (pa_Chunk p) = r_content x.
Proof.
  intros Ha Hx Hi Hm Hq Hv. apply IndexDocument_alone in Ha as (-> & vectors & Hl & _ & Hout).
  assert (rows w' !! (tenant, corpus, path, Z.of_nat i) = Some x) as Hx'.
  { rewrite Hout; [done|]. intros j Hj [= Heq]. lia. }
  split_and!; [done| |].
  - intros c (j & Hj)%list_elem_of_lookup. pose proof (lookup_lt_Some _ _ _ Hj).
    apply document_chunk in Hj as (_ & -> & _). simpl. lia.
  - destruct (any_passage_shows tenant corpus query topK w' _ _ _ _ v Hq Hv Hx' (conj eq_refl eq_refl) Hm Hx' (conj eq_refl eq_refl))
      as (p & Hp & Hc). exists p. split; [done|]. rewrite Hc. simpl. split_and!; [done|lia|done].
Qed.
End rag.

(** ** Two models in one corpus *)

(** A corpus may hold two embedding spaces: nothing stops a document from being
    indexed under another model than the rest of its corpus, and a search by the second
    model is then let through and may show a passage indexed under the first. *)
Theorem mixed_models_are_searched `{Postgres} `{PgVector} float_text A B tenant corpus pathA docA pathB docB
    w0 w1 w2 nA nB query topK v :
  A ≠ B → pathA ≠ pathB →
  alone rsem w0 (IndexDocument float_text A tenant corpus pathA docA) w1 (Ok (S nA)) →
  alone rsem w1 (IndexDocument float_text B tenant corpus pathB docB) w2 (Ok (S nB)) →
  trim_space query ≠ "" → vector_ok (vectorLiteral float_text v) = true →
  ∃ p x, alone rsem w2 (Search float_text B tenant corpus query topK) w2 (Ok [p]) ∧
    SourcePath (pa_Chunk p) = pathA ∧ ChunkIndex (pa_Chunk p) = 0%nat ∧
    rows w2 !! (tenant, corpus, pathA, 0%Z) = Some x ∧ r_model x = A.
Proof.
  intros HAB Hpath HA HB Hq Hv.
  apply IndexDocument_alone in HA as (HnA & vsA & HlA & HinA & _).
  apply IndexDocument_alone in HB as (HnB & vsB & HlB & HinB & HoutB).
  assert (∃ c v, ChunkDocument pathA docA !! 0%nat = Some c ∧ vsA !! 0%nat = Some v) as (cA & vA & HcA & HvA).
  { destruct (ChunkDocument pathA docA) as [|c cs]; [done|]. destruct vsA as [|v0 vs]; [done|]. by exists c, v0. }
  assert (∃ c v, ChunkDocument pathB docB !! 0%nat = Some c ∧ vsB !! 0%nat = Some v) as (cB & vB & HcB & HvB).
  { destruct (ChunkDocument pathB docB) as [|c cs]; [done|]. destruct vsB as [|v0 vs]; [done|]. by exists c, v0. }
  pose proof (HinA _ _ _ HcA HvA) as HrA. pose proof (HinB _ _ _ HcB HvB) as HrB.
  rewrite <-HoutB in HrA by (intros j Hj [= Heq]; done).
  destruct (any_passage_shows float_text B tenant corpus query topK w2 _ _ _ _ v Hq Hv HrB (conj eq_refl eq_refl) eq_refl
              HrA (conj eq_refl eq_refl)) as (p & Hp & Hc).
  exists p, (row_of cA A (vectorLiteral float_text vA)). rewrite Hc. by split_and!.
Qed.

(** ** Concrete runs *)

Module RagWitnesses.
#[local] Existing Instance verbatim_postgres.
#[local] Instance flat : PgVector := {| vector_ok _ := true; distance _ _ := f_zero |}.

Definition break : string := String newline (String newline "").
Definition paragraphs : string := "one" +:+ break +:+ " two " +:+ break +:+ break +:+ "three".
Fixpoint repeat_str (n : nat) (s : string) : string := match n with O => "" | S n => s +:+ repeat_str n s end.
(** A paragraph over the limit between two small ones. *)
Definition long : string := "one" +:+ break +:+ repeat_str 1300 "x" +:+ break +:+ "two".

Example small_document : ChunkDocument "d" paragraphs =
  [{| SourcePath := "d"; ChunkIndex := 0; ByteStart := 0; ByteEnd := 19; Content := trim_space paragraphs |}].
Proof. vm_compute. reflexivity. Qed.
Example oversize_paragraph :
  (λ c, (ByteStart c, ByteEnd c)) <$> ChunkDocument "d" long = [(0, 5); (5, 1307); (1307, 1310)]%nat.
Proof. vm_compute. reflexivity. Qed.

(** A database without faults and an embedder of one vector; it serves no search. *)
Definition rserve (w : rworld) (c : rcall) : rworld * rreply c :=
  match c with
  | REmbed texts => (w, Ok ((λ _, [f_of_Z 1]) <$> texts))
  | RBegin => served_stmt w (sql_begin w)
  | RInsert tenant corpus c model literal => served_stmt w (sql_insert w tenant corpus c model literal)
  | RCommit => served_stmt w (sql_commit w)
  | RModel _ _ => (w, Err None)
  | RNearest _ _ _ _ => (w, Err None)
  end.
Lemma rag_serve_sem w c : rsem w c (rserve w c).2 (rserve w c).1.
Proof. destruct c; try apply served_stmt_stmt; by try split. Qed.

Definition one_text (f : float64) : string := "1".
Definition index_in (model path content : string) (w : rworld) : rworld * result rag_error nat :=
  run rserve w (IndexDocument one_text model "t" "c" path content).
Lemma index_in_alone model path content w :
  alone rsem w (IndexDocument one_text model "t" "c" path content) (index_in model path content w).1 (index_in model path content w).2.
Proof. apply run_alone, rag_serve_sem. Qed.

Definition empty_world : rworld := {| rows := ∅; tx := None |}.
Definition first_version : rworld := (index_in "m" "d" long empty_world).1.
Definition second_version : rworld := (index_in "m" "d" "one" first_version).1.

Lemma indexing_is_all_or_nothing_witness :
  ∃ vectors, document_in one_text "m" "t" "c" "d" long vectors ∅ (rows first_version).
Proof.
  pose proof (indexing_is_all_or_nothing one_text "m" "t" "c" "d" long empty_world _ _ (index_in_alone _ _ _ _)) as Hi.
  assert ((index_in "m" "d" long empty_world).2 = Ok 3%nat) as Hok by (vm_compute; reflexivity).
  rewrite Hok in Hi. exact (proj2 Hi).
Defined.

(** The document is cut down to its first paragraph; its third is still found. *)
Lemma stale_passages_survive_witness :
  ∃ p, alone rsem second_version (Search one_text "m" "t" "c" "two?" 5) second_version (Ok [p]) ∧
    Content (pa_Chunk p) = "two" ∧ ChunkDocument "d" "one" ≠ [] ∧ pa_Chunk p ∉ ChunkDocument "d" "one".
Proof.
  assert ((index_in "m" "d" "one" first_version).2 = Ok 1%nat) as Hok by (vm_compute; reflexivity).
  pose proof (index_in_alone "m" "d" "one" first_version) as Ha. rewrite Hok in Ha.
  assert (∃ x, rows first_version !! ("t", "c", "d", 2%Z) = Some x ∧ r_content x = "two" ∧ r_model x = "m") as (x & Hx & Hc & Hm)
    by (eexists; split; [vm_compute; reflexivity|done]).
  destruct (stale_passages_survive one_text "m" "t" "c" "d" "one" first_version second_version 1 2 x "two?" 5 [] Ha Hx
              ltac:(lia) Hm ltac:(discriminate) eq_refl) as (_ & Hn & p & Hp & _ & Hi & Hcp).
  exists p. split; [exact Hp|]. rewrite Hcp. split_and!; [exact Hc|vm_compute; discriminate|].
  intros Hin. by apply (Hn _ Hin).
Defined.

Definition two_models : rworld := (index_in "n" "e" "more" (index_in "m" "d" "one" empty_world).1).1.
Lemma mixed_models_are_searched_witness :
  ∃ p x, alone rsem two_models (Search one_text "n" "t" "c" "q" 5) two_models (Ok [p]) ∧
    SourcePath (pa_Chunk p) = "d" ∧ rows two_models !! ("t", "c", "d", 0%Z) = Some x ∧ r_model x = "m".
Proof.
  pose proof (index_in_alone "m" "d" "one" empty_world) as H1.
  assert ((index_in "m" "d" "one" empty_world).2 = Ok 1%nat) as E1 by (vm_compute; reflexivity). rewrite E1 in H1.
  pose proof (index_in_alone "n" "e" "more" (index_in "m" "d" "one" empty_world).1) as H2.
  assert ((index_in "n" "e" "more" (index_in "m" "d" "one" empty_world).1).2 = Ok 1%nat) as E2 by (vm_compute; reflexivity).
  rewrite E2 in H2.
  destruct (mixed_models_are_searched one_text "m" "n" "t" "c" "d" "one" "e" "more" _ _ _ 0 0 "q" 5 []
              ltac:(discriminate) ltac:(discriminate) H1 H2 ltac:(discriminate) eq_refl) as (p & x & Hp & Hs & _ & Hx & Hm).
  by exists p, x.
Defined.

Lemma passages_are_of_the_corpus_witness :
  ∃ p, alone rsem second_version (Search one_text "m" "t" "c" "q" 0) second_version (Ok [p]) ∧
    shows (rows second_version) "t" "c" p ∧ pa_Locator p = Locator (pa_Chunk p).
Proof.
  assert (∃ x, rows second_version !! ("t", "c", "d", 0%Z) = Some x ∧ r_model x = "m") as (x & Hx & Hm)
    by (eexists; split; [vm_compute; reflexivity|done]).
  destruct (any_passage_shows one_text "m" "t" "c" "q" 0 second_version _ x _ x [] ltac:(discriminate) eq_refl Hx
              (conj eq_refl eq_refl) Hm Hx (conj eq_refl eq_refl)) as (p & Hp & _).
  exists p. split; [exact Hp|].
  destruct (passages_are_of_the_corpus one_text "m" "t" "c" "q" 0 _ _ _ Hp) as (_ & _ & _ & Hall).
  apply Hall. by left.
Defined.
End RagWitnesses.
