(* ===== verification/Html.v ===== *)
(** * Package html: EscapeString

    What the pages the services render put every text through: the five characters
    markup is made of become entities, everything else is kept. *)

From S2P Require Import Prelude GoValue.

Local Open Scope string_scope.

(** Lines of a page, each with its newline. *)
Definition line (s : string) : string := s +:+ String (Ascii.ascii_of_nat 10) "".
Definition lines (l : list string) : string := str_join "" (line <$> l).
Definition bool_text (b : bool) : string := if b then "true" else "false".

Definition html_markup : list nat := [60; 62; 38; 34; 39].
Definition escape_char (c : Ascii.ascii) : string :=
  if byte_is 60 c then "&lt;"
  else if byte_is 62 c then "&gt;"
  else if byte_is 38 c then "&amp;"
  else if byte_is 34 c then "&#34;"
  else if byte_is 39 c then "&#39;"
  else String c "".
Fixpoint EscapeString (s : string) : string :=
  match s with EmptyString => "" | String c s => escape_char c +:+ EscapeString s end.

(** A text that opens no tag and closes no attribute. *)
Definition inert_char (c : Ascii.ascii) : bool := negb (byte_is 60 c || byte_is 62 c || byte_is 34 c || byte_is 39 c).
Definition inert : string → bool := str_all inert_char.

Lemma EscapeString_inert s : inert (EscapeString s) = true.
Proof.
  unfold inert. induction s as [|c s IH]; [done|]. cbn [EscapeString]. rewrite str_all_app, IH, andb_true_r.
  unfold escape_char. destruct (byte_is 60 c) eqn:H1, (byte_is 62 c) eqn:H2, (byte_is 38 c), (byte_is 34 c) eqn:H3,
    (byte_is 39 c) eqn:H4; try reflexivity. simpl. unfold inert_char. by rewrite H1, H2, H3, H4.
Qed.

Lemma escape_char_inj c d x y : escape_char c +:+ x = escape_char d +:+ y → c = d ∧ x = y.
Proof.
  assert (∀ n c, byte_is n c = true → c = Ascii.ascii_of_nat n) as Hb.
  { intros n c' H. apply byte_is_true in H as <-. by rewrite Ascii.ascii_nat_embedding. }
  unfold escape_char. intros H.
  repeat case_match; repeat match goal with H : byte_is _ _ = true |- _ => apply Hb in H; subst end;
    simpl in H; simplify_eq; try done; exfalso;
    match goal with H : byte_is _ _ = false |- _ => vm_compute in H; discriminate H end.
Qed.

(** Two texts that show alike are one text. *)
Lemma EscapeString_inj s s' : EscapeString s = EscapeString s' → s = s'.
Proof.
  assert (∀ c, escape_char c ≠ "") as Hne by (intros c; unfold escape_char; repeat (case_match; [done|]); done).
  revert s'. induction s as [|c s IH]; intros [|d s']; cbn [EscapeString]; [done| | |].
  - intros H. specialize (Hne d). by destruct (escape_char d).
  - intros H. specialize (Hne c). by destruct (escape_char c).
  - intros [-> H]%escape_char_inj. f_equal. by apply IH.
Qed.
