(* ===== verification/Tempo.v ===== *)
(** * The trace search

    go/internal/tempoclient/tempoclient.go with the escaping of net/url it builds its
    request with. The GET is a call; what it answers is arbitrary. The texts of the
    standard library's failures are those of [Vendors.Wire]. *)

From stdpp Require Import pretty.
From S2P Require Import Prelude GoValue Json Numbers Decode Program RunController RunApi Vendors.

Local Open Scope string_scope.
Set Default Proof Using "Type*".

(** ** url.QueryEscape *)

Definition unreserved (c : Ascii.ascii) : bool :=
  is_lower c || is_upper c || is_digit c || byte_is 45 c || byte_is 95 c || byte_is 46 c || byte_is 126 c.
Definition space_char : Ascii.ascii := Ascii.ascii_of_nat 32.
Definition hex_digit (n : nat) : Ascii.ascii := Ascii.ascii_of_nat (if n <? 10 then 48 + n else 55 + n)%nat.
Definition escape_byte (c : Ascii.ascii) : string :=
  if unreserved c then String c ""
  else if byte_is 32 c then "+"
  else let n := Ascii.nat_of_ascii c in
       String (Ascii.ascii_of_nat 37) (String (hex_digit (n / 16)) (String (hex_digit (n mod 16)) "")).
Fixpoint QueryEscape (s : string) : string :=
  match s with EmptyString => "" | String c s => escape_byte c +:+ QueryEscape s end.

(** What a server reads back. *)
Definition unhex (c : Ascii.ascii) : option nat :=
  let n := Ascii.nat_of_ascii c in
  if is_digit c then Some (n - 48) else if byte_in 97 102 c then Some (n - 87)
  else if byte_in 65 70 c then Some (n - 55) else None.
Fixpoint QueryUnescape (s : string) : option string :=
  match s with
  | EmptyString => Some ""
  | String c s =>
      if byte_is 37 c then
        match s with
        | String a (String b s) =>
            h ← unhex a; l ← unhex b; String (Ascii.ascii_of_nat (16 * h + l)) <$> QueryUnescape s
        | _ => None
        end
      else if byte_is 43 c then String space_char <$> QueryUnescape s
      else String c <$> QueryUnescape s
  end.

(** ** The search *)

Record Trace := { TraceID : string; RootServiceName : string; RootTraceName : string; DurationMs : Z }.
Definition no_trace : Trace := {| TraceID := ""; RootServiceName := ""; RootTraceName := ""; DurationMs := 0 |}.
Definition dec_trace : decoder Trace :=
  dec_struct ["traceID"; "rootServiceName"; "rootTraceName"; "durationMs"] (λ n,
    match n with
    | "traceID" => dec_at TraceID (λ t s,
        {| TraceID := s; RootServiceName := RootServiceName t; RootTraceName := RootTraceName t; DurationMs := DurationMs t |}) dec_string
    | "rootServiceName" => dec_at RootServiceName (λ t s,
        {| TraceID := TraceID t; RootServiceName := s; RootTraceName := RootTraceName t; DurationMs := DurationMs t |}) dec_string
    | "rootTraceName" => dec_at RootTraceName (λ t s,
        {| TraceID := TraceID t; RootServiceName := RootServiceName t; RootTraceName := s; DurationMs := DurationMs t |}) dec_string
    | _ => dec_at DurationMs (λ t z,
        {| TraceID := TraceID t; RootServiceName := RootServiceName t; RootTraceName := RootTraceName t; DurationMs := z |}) dec_int
    end).
(** searchResponse has the one field. *)
Definition dec_search : decoder (list Trace) := dec_struct ["traces"] (λ _, dec_slice no_trace dec_trace).

Inductive get_reply :=
| GetFailed (msg : string)
| BodyUnreadable (msg : string)
| Answered (status : Z) (body : string).
Inductive gcall := Get_ (url : string).
Definition greply (c : gcall) : Type := get_reply.

Section search.
Context {Wire0 : Wire} (quote_other : string → string).

Definition traceQL (agentName : string) : string := "{ span.gen_ai.agent.name = " +:+ quote quote_other agentName +:+ " }".
Definition search_url (baseURL agentName : string) : string :=
  baseURL +:+ "/api/search?" +:+ "limit=" +:+ QueryEscape "50" +:+ "&q=" +:+ QueryEscape (traceQL agentName).

Definition read_search (baseURL : string) (r : get_reply) : result string (list Trace) :=
  match r with
  | GetFailed e => Err ("tempoclient: querying Tempo at " +:+ baseURL +:+ ": " +:+ e)
  | BodyUnreadable e => Err ("tempoclient: reading response: " +:+ e)
  | Answered status body =>
      if negb (status =? 200)%Z
      then Err ("tempoclient: tempo at " +:+ baseURL +:+ " returned " +:+ pretty status +:+ ": " +:+ body)
      else match decode dec_search [] body with
           | None => Err ("tempoclient: decoding response: " +:+ decode_failure body)
           | Some traces => Ok traces
           end
  end.
Definition SearchByAgentName (baseURL agentName : string) : prog greply (result string (list Trace)) :=
  let reqURL := search_url baseURL agentName in
  match bad_url reqURL with
  | Some e => mret (Err ("tempoclient: building request: " +:+ e))
  | None => r ← ask (R := greply) (Get_ reqURL); mret (read_search baseURL r)
  end.
End search.

(** ** What the search asks *)

Lemma unhex_hex_digit n : n < 16 → unhex (hex_digit n) = Some n.
Proof. intros H. do 16 (destruct n as [|n]; [reflexivity|]). lia. Qed.

Lemma escape_byte_spec c :
  (escape_byte c = String c "" ∧ byte_is 37 c = false ∧ byte_is 43 c = false) ∨
  (escape_byte c = "+" ∧ c = space_char) ∨
  (∃ h l, h < 16 ∧ l < 16 ∧ c = Ascii.ascii_of_nat (16 * h + l) ∧
     escape_byte c = String (Ascii.ascii_of_nat 37) (String (hex_digit h) (String (hex_digit l) ""))).
Proof.
  unfold escape_byte. destruct (unreserved c) eqn:Hu.
  - left. split; [done|]. unfold unreserved, is_lower, is_upper, is_digit, byte_in, byte_is in *.
    rewrite !orb_true_iff, !andb_true_iff, !Nat.leb_le, !Nat.eqb_eq in Hu. rewrite !Nat.eqb_neq. lia.
  - destruct (byte_is 32 c) eqn:Hs.
    + right; left. split; [done|]. apply byte_is_true in Hs. unfold space_char. by rewrite <- Hs, Ascii.ascii_nat_embedding.
    + right; right. pose proof (Ascii.nat_ascii_bounded c) as Hb. exists (Ascii.nat_of_ascii c / 16), (Ascii.nat_of_ascii c mod 16).
      split; [apply Nat.Div0.div_lt_upper_bound; lia|]. split; [apply Nat.mod_upper_bound; lia|]. split; [|done].
      rewrite <- Nat.div_mod_eq. by rewrite Ascii.ascii_nat_embedding.
Qed.

Lemma QueryUnescape_escape s : QueryUnescape (QueryEscape s) = Some s.
Proof.
  induction s as [|c s IH]; [done|]. cbn [QueryEscape].
  destruct (escape_byte_spec c) as [(-> & Hp & Hq)|[[-> ->]|(h & l & Hh & Hl & Hc & ->)]].
  - change (String c "" +:+ QueryEscape s) with (String c (QueryEscape s)). cbn [QueryUnescape]. by rewrite Hp, Hq, IH.
  - change ("+" +:+ QueryEscape s) with (String (Ascii.ascii_of_nat 43) (QueryEscape s)).
    cbn [QueryUnescape]. change (byte_is 37 (Ascii.ascii_of_nat 43)) with false.
    change (byte_is 43 (Ascii.ascii_of_nat 43)) with true. cbn iota. by rewrite IH.
  - match goal with |- QueryUnescape ?u = _ => change u with (String (Ascii.ascii_of_nat 37) (String (hex_digit h) (String (hex_digit l) (QueryEscape s)))) end.
    cbn [QueryUnescape]. change (byte_is 37 (Ascii.ascii_of_nat 37)) with true. cbn iota.
    rewrite !unhex_hex_digit by done. cbn [mbind option_bind]. by rewrite IH, Hc.
Qed.

(** No parameter of the search can be opened or closed from inside another. *)
Definition query_char (c : Ascii.ascii) : bool := unreserved c || byte_is 43 c || byte_is 37 c.
Lemma hex_digit_unreserved n : n < 16 → unreserved (hex_digit n) = true.
Proof. intros H. do 16 (destruct n as [|n]; [reflexivity|]). lia. Qed.
Lemma QueryEscape_chars s : str_all query_char (QueryEscape s) = true.
Proof.
  induction s as [|c s IH]; [done|]. cbn [QueryEscape]. rewrite str_all_app, IH, andb_true_r.
  unfold escape_byte. destruct (unreserved c) eqn:Hu; [simpl; unfold query_char; by rewrite Hu|].
  destruct (byte_is 32 c); [done|]. pose proof (Ascii.nat_ascii_bounded c). cbn [str_all]. unfold query_char.
  rewrite !hex_digit_unreserved; [done|apply Nat.mod_upper_bound; lia|apply Nat.Div0.div_lt_upper_bound; lia].
Qed.

Section searching.
Context {Wire0 : Wire} (quote_other : string → string).

(** A search for a run sends at most one request: a GET of the configured address
    whose two parameters are the limit and the query naming that run, escaped so that
    a server reads back exactly that query and no name can add a parameter of its own;
    two runs of plain names never ask alike. Traces are returned only of a 200 answer
    that decodes. *)
Theorem search_names_its_run baseURL agent t r :
  histories (SearchByAgentName quote_other baseURL agent) t r →
  (projT1 <$> t = [] ∨
   projT1 <$> t = [Get_ (baseURL +:+ "/api/search?limit=50&q=" +:+ QueryEscape (traceQL quote_other agent))]) ∧
  QueryUnescape (QueryEscape (traceQL quote_other agent)) = Some (traceQL quote_other agent) ∧
  str_all query_char (QueryEscape (traceQL quote_other agent)) = true ∧
  (∀ other, str_all quotable agent = true → str_all quotable other = true →
     traceQL quote_other agent = traceQL quote_other other → agent = other) ∧
  (∀ traces, r = Ok traces → ∃ c body, t = [existT c (Answered 200 body)] ∧ decode dec_search [] body = Some traces).
Proof.
  intros Ht. split_and!; [| apply QueryUnescape_escape | apply QueryEscape_chars | |].
  - unfold SearchByAgentName in Ht. destruct (bad_url _) as [e|].
    + destruct Ht as [-> _]. by left.
    + destruct Ht as (v & t' & -> & -> & _). by right.
  - intros other Ha Ho. unfold traceQL, quote. rewrite Ha, Ho. intros Heq.
    apply str_app_inj_l in Heq. rewrite <- !str_app_assoc in Heq. apply str_app_inj_l in Heq. by apply str_app_inj_r in Heq.
  - intros traces ->. unfold SearchByAgentName in Ht. destruct (bad_url _) as [e|].
    + by destruct Ht as [_ ?].
    + destruct Ht as (v & t' & -> & -> & Hr).
      destruct v as [e|e|status body]; simpl in Hr; try discriminate.
      destruct (Z.eqb_spec status 200) as [->|]; simpl in Hr; [|discriminate].
      destruct (decode dec_search [] body) as [l|] eqn:Hd; [|discriminate]. injection Hr as <-. eauto.
Qed.
End searching.

(** ** A concrete search *)

Module TempoWitnesses.
Definition found : json :=
  JObject [("traces", JArray [JObject [("traceID", JString "abc"); ("rootServiceName", JString "aeon");
                                       ("DURATIONMS", JNumber "12"); ("spans", JNull)]])].
Definition tempo_wire : Wire :=
  {| json_parse s := if String.eqb s "found" then Ok found else Err 1%Z; type_offset _ := 0%Z;
     decode_failure _ := "invalid"; any_of _ := AOther "any"; print_any _ := "?";
     marshal_request _ := Ok (JObject []); bad_url _ := None |}.
#[local] Existing Instance tempo_wire.
Definition plain (s : string) : string := s.
Definition answers (c : gcall) : greply c := Answered 200 "found".
Definition row : Trace := {| TraceID := "abc"; RootServiceName := "aeon"; RootTraceName := ""; DurationMs := 12 |}.
Definition asked : list {c : gcall & greply c} :=
  [existT (Get_ (search_url plain "http://tempo:3200" "run 1&q=x")) (Answered 200 "found")].
Example asked_url :
  projT1 <$> asked = [Get_ ("http://tempo:3200/api/search?limit=50&q=%7B+span.gen_ai.agent.name+%3D+%22run+1%26q%3Dx%22+%7D")].
Proof. reflexivity. Qed.
Lemma asked_history : histories (SearchByAgentName plain "http://tempo:3200" "run 1&q=x") asked (Ok [row]).
Proof. unfold asked. eexists _, []. split; [reflexivity|]. split; reflexivity. Qed.

Lemma search_names_its_run_witness :
  (projT1 <$> asked = [] ∨
   projT1 <$> asked = [Get_ ("http://tempo:3200" +:+ "/api/search?limit=50&q=" +:+ QueryEscape (traceQL plain "run 1&q=x"))]) ∧
  QueryUnescape (QueryEscape (traceQL plain "run 1&q=x")) = Some (traceQL plain "run 1&q=x") ∧
  str_all query_char (QueryEscape (traceQL plain "run 1&q=x")) = true ∧
  (∀ other, str_all quotable "run 1&q=x" = true → str_all quotable other = true →
     traceQL plain "run 1&q=x" = traceQL plain other → "run 1&q=x" = other) ∧
  (∀ traces, Ok [row] = Ok (E := string) traces →
     ∃ c body, asked = [existT c (Answered 200 body)] ∧ decode dec_search [] body = Some traces).
Proof. exact (search_names_its_run plain "http://tempo:3200" "run 1&q=x" asked (Ok [row]) asked_history). Defined.
End TempoWitnesses.
