(* ===== verification/Console.v ===== *)
(** * The agent console: one run as a page

    go/internal/api/console_handlers.go over the controller's status and the trace
    search of Tempo.v. The page is the text the handler writes; the order a map is
    ranged over and [%v] of a value are parameters. *)

From stdpp Require Import pretty.
From S2P Require Import Prelude GoValue Json Auth FinopsLedger Program RunController RunApi Vendors Html Tempo.

Local Open Scope string_scope.
Set Default Proof Using "Type*".

Section console.
Context `{Converter} {Wire0 : Wire}.
Context (value_text : any → string) (range : gmap string any → list (string * any)) (quote_other : string → string).

Inductive ccall := CTemporal (c : tcall) | CGet (c : gcall).
Definition creply (c : ccall) : Type :=
  match c with CTemporal c => treply c | CGet c => greply c end.
Abbreviation CM := (prog creply).
Fixpoint of_controller {A} (m : prog treply A) : CM A :=
  match m with Ret a => Ret a | Vis c k => Vis (CTemporal c) (λ r, of_controller (k r)) end.
Fixpoint of_search {A} (m : prog greply A) : CM A :=
  match m with Ret a => Ret a | Vis c k => Vis (CGet c) (λ r, of_search (k r)) end.

Record ConsoleHandlers := { co_Controller : Controller; TempoURL : string }.
Inductive console_response := RunMissing (runID : string) (e : RunError) | Page (html : string).

Definition heading (runID status : string) (paused : bool) : string :=
  lines ["<!doctype html>";
         "<html><head><meta charset=" +:+ dquote +:+ "utf-8" +:+ dquote +:+ "><title>Aeon Agent Console — " +:+
           EscapeString runID +:+ "</title></head>";
         "<body>";
         "<h1>Run " +:+ EscapeString runID +:+ "</h1>";
         "<table>";
         "<tr><th>Status</th><td>" +:+ EscapeString status +:+ "</td></tr>";
         "<tr><th>Paused</th><td>" +:+ bool_text paused +:+ "</td></tr>";
         "</table>"].
(** The key of a budget is escaped, its value is not. *)
Definition budget_item (kv : string * any) : string :=
  "<li>" +:+ EscapeString kv.1 +:+ ": " +:+ value_text kv.2 +:+ "</li>".
Definition budgets_part (budgets : gomap) : string :=
  match budgets with
  | None => ""
  | Some m => lines (["<h2>Budgets consumed</h2><ul>"] ++ (budget_item <$> range m) ++ ["</ul>"])%list
  end.
Definition trace_row (t : Trace) : string :=
  "<tr><td>" +:+ EscapeString (TraceID t) +:+ "</td><td>" +:+ EscapeString (RootServiceName t) +:+ "</td><td>" +:+
  EscapeString (RootTraceName t) +:+ "</td><td>" +:+ pretty (DurationMs t) +:+ "ms</td></tr>".
Definition trace_part (url : string) (traces : result string (list Trace)) : string :=
  if sempty url then line "<p>tracing not configured</p>" else
  match traces with
  | Err e => line ("<p>error querying Tempo: " +:+ EscapeString e +:+ "</p>")
  | Ok [] => line "<p>no traces found for this run yet</p>"
  | Ok l => lines (["<table><tr><th>trace_id</th><th>root service</th><th>root span</th><th>duration</th></tr>"] ++
                   (trace_row <$> l) ++ ["</table>"])%list
  end.
Definition page (url runID : string) (s : Status) (traces : result string (list Trace)) : string :=
  heading runID (st_Status s) (Paused s) +:+ budgets_part (BudgetsConsumed s) +:+ line "<h2>Trace</h2>" +:+
  trace_part url traces +:+ line "</body></html>".

Definition showRun (h : ConsoleHandlers) (caller : option Caller) (runID : string) : CM console_response :=
  status ← of_controller (Status_ (co_Controller h) (workflowID runID) (callerTenantOrEmpty caller));
  match status with
  | Err e => mret (RunMissing runID e)
  | Ok s =>
      traces ← (if sempty (TempoURL h) then mret (Ok []) else of_search (SearchByAgentName quote_other (TempoURL h) runID));
      mret (Page (page (TempoURL h) runID s traces))
  end.

(** ** What it shows, and to whom *)

(** What the same services answer the run controller's routes and the console. *)
Context `{Postgres} (world : ∀ c : rcall, rreply c) (tempo : ∀ c : gcall, greply c).
Definition temporal (c : tcall) : treply c := world (RTemporal c).
Definition console_world (c : ccall) : creply c :=
  match c with CTemporal c => temporal c | CGet c => tempo c end.

Lemma controller_answers {A} (m : prog treply A) : answered_by console_world (of_controller m) = answered_by temporal m.
Proof. by apply (answered_by_lift _ _ (@of_controller A) CTemporal (λ c r, r)). Qed.
Lemma search_answers {A} (m : prog greply A) : answered_by console_world (of_search m) = answered_by tempo m.
Proof. by apply (answered_by_lift _ _ (@of_search A) CGet (λ c r, r)). Qed.
Lemma routes_answer {A} (m : prog treply A) : answered_by world (of_temporal m) = answered_by temporal m.
Proof. by apply (answered_by_lift _ _ (@of_temporal _ _ A) RTemporal (λ c r, r)). Qed.

(** Two statuses that differ in the ledger's numbers only. *)
Definition same_but_spend (s s' : Status) : Prop :=
  st_WorkflowID s = st_WorkflowID s' ∧ st_Status s = st_Status s' ∧ Paused s = Paused s' ∧
  st_PendingApproval s = st_PendingApproval s' ∧ st_Failure s = st_Failure s'.

(** What a status is made of: only [BudgetsConsumed] depends on the tenant asked for. *)
Definition shown_queries (desc : description) (wf : string) : bool * gomap :=
  if decide (desc_status desc = STATUS_RUNNING) then answered_by temporal (running_queries wf) else (false, None).
Definition shown_failure (desc : description) (wf : string) : option Failure :=
  match desc_status desc with
  | STATUS_FAILED | STATUS_TIMED_OUT | STATUS_TERMINATED => answered_by temporal (failureOf wf)
  | _ => None
  end.
Definition shown_status (desc : description) (wf : string) (consumed : gomap) : Status :=
  let '(paused, pending) := shown_queries desc wf in
  {| st_WorkflowID := wf;
     st_Status := mapStatus (desc_status desc) paused (match pending with Some _ => true | None => false end);
     Paused := paused; st_PendingApproval := pending; BudgetsConsumed := consumed; st_Failure := shown_failure desc wf |}.

Lemma status_shown c wf tenant desc :
  temporal (TDescribe wf) = Ok desc →
  answered_by temporal (Status_ c wf tenant) =
    Ok (shown_status desc wf
          (answered_by temporal (addLedgerSpend c wf tenant (queried_map (temporal (TQuery wf "budgets_consumed")))))).
Proof.
  intros Hd. unfold Status_. etransitivity; [apply (answered_by_ask temporal (TDescribe wf))|]. cbv beta. rewrite Hd, answered_by_bind, answered_by_if.
  unfold shown_status, shown_queries. change (answered_by temporal (mret ?x)) with x.
  destruct (if decide _ then _ else _) as [paused pending].
  etransitivity; [apply (answered_by_ask temporal (TQuery wf _))|]. cbv beta. rewrite answered_by_bind, answered_by_bind. unfold shown_failure.
  by destruct (desc_status desc).
Qed.
Lemma shown_same desc wf consumed consumed' :
  same_but_spend (shown_status desc wf consumed) (shown_status desc wf consumed').
Proof. unfold shown_status. by destruct (shown_queries desc wf). Qed.

(** The routes of one run answer its status to the tenant that owns it, and to no other. *)
Lemma status_for_owner h visitor runID desc owner :
  temporal (TDescribe (workflowID runID)) = Ok desc → tenant_of_memo (desc_memo desc) = Ok owner →
  answered_by world (RunApi.status h (Some visitor) runID) =
  if bool_decide (owner = Tenant visitor)
  then match answered_by temporal (Status_ (rh_Controller h) (workflowID runID) (Tenant visitor)) with
       | Err e => StatusMissing e | Ok s => StatusFound s end
  else NoSuchRun.
Proof.
  intros Hd Ho. unfold RunApi.status, ownedRun. rewrite answered_by_bind, answered_by_bind, routes_answer.
  unfold TenantOf. rewrite answered_by_bind. change (answered_by temporal (ask ?c)) with (temporal c). rewrite Hd.
  change (answered_by temporal (mret ?x)) with x. rewrite Ho.
  change (answered_by world (mret ?x)) with x. destruct (bool_decide (owner = Tenant visitor)); [|done].
  rewrite answered_by_bind, routes_answer. cbn [callerTenantOrEmpty].
  by destruct (answered_by temporal _).
Qed.

(** Against the same services: the status route answers a run to the tenant that
    started it and tells every other tenant there is no such run, but the console page
    of the run is served to every visitor, with the owner's status, pause, pending
    approval and failure, and the traces that were searched for it; only the ledger's
    numbers are the visitor's. *)
Theorem console_shows_any_tenants_run h url runID desc owner :
  temporal (TDescribe (workflowID runID)) = Ok desc → tenant_of_memo (desc_memo desc) = Ok owner →
  ∃ s, (∀ v, Tenant v = owner → answered_by world (RunApi.status h (Some v) runID) = StatusFound s) ∧
    (∀ v, Tenant v ≠ owner → answered_by world (RunApi.status h (Some v) runID) = NoSuchRun) ∧
    ∀ visitor, ∃ s', same_but_spend s' s ∧
      answered_by console_world (showRun {| co_Controller := rh_Controller h; TempoURL := url |} visitor runID) =
      Page (page url runID s' (if sempty url then Ok []
                               else answered_by tempo (SearchByAgentName quote_other url runID))).
Proof.
  intros Hd Ho. eexists (shown_status desc (workflowID runID) _). split_and!.
  - intros v Hv. rewrite (status_for_owner _ _ _ _ _ Hd Ho), Hv, bool_decide_true by done. by rewrite (status_shown _ _ _ _ Hd).
  - intros v Hv. by rewrite (status_for_owner _ _ _ _ _ Hd Ho), bool_decide_false by congruence.
  - intros visitor. eexists (shown_status desc (workflowID runID) _). split; [apply shown_same|].
    unfold showRun. rewrite answered_by_bind, controller_answers. cbn [co_Controller TempoURL].
    rewrite (status_shown _ _ _ _ Hd). rewrite answered_by_bind. destruct (sempty url); [done|]. by rewrite search_answers.
Qed.
End console.

(** ** A run of tenant t, shown to tenant u *)

Module ConsoleWitnesses.
Import RunWitnesses RunApiWitnesses.
#[local] Existing Instance verbatim_postgres.
#[local] Existing Instance flat_json.
#[local] Existing Instance TempoWitnesses.tempo_wire.

Definition in_order (m : gmap string any) : list (string * any) := map_to_list m.
Definition shown_value (a : any) : string := as_string a.
Definition services (c : rcall) : rreply c := (rserve empty_world c).2.
Definition console : ConsoleHandlers := {| co_Controller := ctl; TempoURL := "http://tempo" |}.
Definition described : description :=
  {| desc_status := STATUS_RUNNING; desc_memo := Some {[TenantMemoKey := AString "t"]} |}.

Lemma console_shows_any_tenants_run_witness :
  ∃ s, (∀ v, Tenant v = "t" → answered_by services (RunApi.status hs (Some v) "r") = StatusFound s) ∧
    (∀ v, Tenant v ≠ "t" → answered_by services (RunApi.status hs (Some v) "r") = NoSuchRun) ∧
    ∀ visitor, ∃ s', same_but_spend s' s ∧
      answered_by (console_world services TempoWitnesses.answers)
        (showRun shown_value in_order no_quote
           {| co_Controller := rh_Controller hs; TempoURL := "http://tempo" |} visitor "r") =
      Page (page shown_value in_order "http://tempo" "r" s'
              (if sempty "http://tempo" then Ok []
               else answered_by TempoWitnesses.answers (SearchByAgentName no_quote "http://tempo" "r"))).
Proof.
  apply (console_shows_any_tenants_run shown_value in_order no_quote services TempoWitnesses.answers hs
           "http://tempo" "r" described "t"); reflexivity.
Defined.
End ConsoleWitnesses.
