(* ===== verification/FileTools.v ===== *)
(** * The tools that read files

    go/internal/toolexec/repository_tool.go and artifact_tool.go, with the artifact root
    of go/cmd/aeon-toolgw/main.go. A directory opened with os.OpenRoot is a handle and
    each of its operations a call, answered arbitrarily: that it does not leave the
    directory is the operating system's. The scanner of package bufio, its line limit
    included, and filepath.WalkDir over a tree of entries are modelled. *)

From S2P Require Import Prelude GoValue Json Program Auth.

Local Open Scope string_scope.
Set Default Proof Using "Type*".

Definition maxRepositoryReadBytes : Z := 256 * 1024.
Definition newline_char : Ascii.ascii := Ascii.ascii_of_nat 10.
Definition newline_text : string := String newline_char "".
Definition zlen (s : string) : Z := Z.of_nat (slen s).

(** ** Lines *)

(** The lines of a text as bufio.ScanLines cuts them, without their newline. *)
Fixpoint raw_lines (s : string) : list string :=
  match s with
  | EmptyString => []
  | String c s =>
      if byte_is 10 c then "" :: raw_lines s
      else match raw_lines s with [] => [String c ""] | l :: ls => String c l :: ls end
  end.
Fixpoint drop_cr (s : string) : string :=
  match s with
  | EmptyString => ""
  | String c s => if byte_is 13 c && sempty s then "" else String c (drop_cr s)
  end.

(** What reading an open file gives: its bytes, the failure that ended them, and whether
    that failure has been met when the scanner stops before the end. *)
Record reading := { rd_text : string; rd_err : option string; rd_met : bool }.

Inductive range_error :=
| ScanFailed (msg : string)
| OverLimit (line : Z)
| PastEnd (start lines : Z)
| RangeNotText.
Definition too_long : string := "bufio.Scanner: token too long".

(** One pass of the scanner: the text so far, the line count and the last line taken. *)
Inductive scan_stop :=
| LineTooLong
| RangeOver (line : Z)
| Stopped (b : string) (line last : Z)   (** after the requested range *)
| AtEnd (b : string) (line last : Z).
Fixpoint scan_range (start end_ : Z) (lines : list string) (b : string) (line last : Z) : scan_stop :=
  match lines with
  | [] => AtEnd b line last
  | raw :: lines =>
      if (maxRepositoryReadBytes <? zlen raw)%Z then LineTooLong else
      let token := drop_cr raw in
      let line := (line + 1)%Z in
      if (line <? start)%Z then scan_range start end_ lines b line last
      else if negb (end_ =? 0)%Z && (end_ <? line)%Z then Stopped b line last
      else if (maxRepositoryReadBytes <? zlen b + zlen token + 1)%Z then RangeOver line
      else scan_range start end_ lines ((if sempty b then "" else b +:+ newline_text) +:+ token) line line
  end.
Definition after_scan (start : Z) (b : string) (line last : Z) (err : option string) : result range_error (string * Z) :=
  match err with
  | Some e => Err (ScanFailed e)
  | None => if (last =? 0)%Z then Err (PastEnd start line)
            else if negb (utf8_valid b) then Err RangeNotText else Ok (b, last)
  end.
Definition readLineRange (f : reading) (start end_ : Z) : result range_error (string * Z) :=
  match scan_range start end_ (raw_lines (rd_text f)) "" 0 0 with
  | LineTooLong => Err (ScanFailed too_long)
  | RangeOver line => Err (OverLimit line)
  | Stopped b line last => after_scan start b line last (if rd_met f then rd_err f else None)
  | AtEnd b line last => after_scan start b line last (rd_err f)
  end.

Fixpoint newlines (s : string) : Z :=
  match s with EmptyString => 0 | String c s => (if byte_is 10 c then 1 else 0) + newlines s end.
Definition countLines (s : string) : Z :=
  if sempty s then 0%Z else (newlines s + if has_suffix s newline_text then 0 else 1)%Z.

(** ** The calls *)

Record FileInfo := { fi_IsDir : bool; fi_IsRegular : bool; fi_Mode : string; fi_Size : Z }.
Inductive fcall :=
| FOpenRoot (dir : string)
| FStat (root rel : string)
| FOpen (root rel : string)
| FRead (root rel : string).
Definition freply (c : fcall) : Type :=
  match c with
  | FOpenRoot _ => result string ()
  | FStat _ _ => result string FileInfo
  | FOpen _ _ => result string ()
  | FRead _ _ => reading
  end.
Abbreviation FM := (prog freply).

Inductive read_error :=
| NotANumber (key : string) (v : any)
| NotWhole (key : string) (v : float64)
| EndWithoutStart
| StartBelowOne (start : Z)
| EndBeforeStart (end_ start : Z)
| FileFailed (msg : string)
| IsDirectory (rel : string)
| NotRegular (rel mode : string)
| TooLarge (rel : string) (size : Z)
| NotText (rel : string) (bytes : Z)
| RangeFailed (rel : string) (e : range_error)
| MissingArg (name : string)
| AbsolutePath (rel : string)
| NotAnArtifactID (id : string)
| NoTenantForCall
| StoreFailed (tenant msg : string)
| NotATenantName (tenant : string).

Section read.
Context `{GoRuntime}.

(** One end of the range, which arrives as decoded JSON; 0 when absent. *)
Definition read_line_arg (args : gmap string any) (key : string) : result read_error Z :=
  match mget args key with
  | ANil => Ok 0%Z
  | AFloat f => if negb (feqb f (f_of_Z (f_to_int f))) then Err (NotWhole key f) else Ok (f_to_int f)
  | v => Err (NotANumber key v)
  end.
Definition repositoryLineRange (args : gmap string any) : result read_error (Z * Z) :=
  start ← read_line_arg args "start_line";
  end_ ← read_line_arg args "end_line";
  if (start =? 0)%Z && (end_ =? 0)%Z then Ok (0, 0)%Z
  else if (start =? 0)%Z then Err EndWithoutStart
  else if (start <? 1)%Z then Err (StartBelowOne start)
  else if (end_ =? 0)%Z then Ok (start, 0%Z)
  else if (end_ <? start)%Z then Err (EndBeforeStart end_ start)
  else Ok (start, end_).

(** What an open file is answered with. *)
Definition read_whole (toolName argName rel : string) (f : reading) : result read_error (gmap string any) :=
  match rd_err f with
  | Some e => Err (FileFailed e)
  | None =>
      if negb (utf8_valid (rd_text f)) then Err (NotText rel (zlen (rd_text f))) else
      Ok (obj [("status", AString "executed"); ("tool", AString toolName); (argName, AString rel);
               ("content", AString (rd_text f)); ("bytes", AInt (zlen (rd_text f)));
               ("lines_total", AInt (countLines (rd_text f)))])
  end.
Definition read_part (toolName argName rel : string) (start end_ : Z) (f : reading) : result read_error (gmap string any) :=
  match readLineRange f start end_ with
  | Err e => Err (RangeFailed rel e)
  | Ok (content, lastLine) =>
      Ok (obj [("status", AString "executed"); ("tool", AString toolName); (argName, AString rel);
               ("content", AString content); ("bytes", AInt (zlen content));
               ("start_line", AInt start); ("end_line", AInt lastLine)])
  end.
Definition readContainedTextFile (root toolName argName rel : string) (args : gmap string any)
  : FM (result read_error (gmap string any)) :=
  match repositoryLineRange args with
  | Err e => mret (Err e)
  | Ok (start, end_) =>
      info ← ask (R := freply) (FStat root rel);
      match info : result string FileInfo with
      | Err e => mret (Err (FileFailed e))
      | Ok info =>
          if fi_IsDir info then mret (Err (IsDirectory rel))
          else if negb (fi_IsRegular info) then mret (Err (NotRegular rel (fi_Mode info))) else
          opened ← ask (R := freply) (FOpen root rel);
          match opened : result string () with
          | Err e => mret (Err (FileFailed e))
          | Ok _ =>
              if (start =? 0)%Z then
                if (maxRepositoryReadBytes <? fi_Size info)%Z then mret (Err (TooLarge rel (fi_Size info))) else
                f ← ask (R := freply) (FRead root rel);
                mret (read_whole toolName argName rel f)
              else
                f ← ask (R := freply) (FRead root rel);
                mret (read_part toolName argName rel start end_ f)
          end
      end
  end.

(** ** repository.read *)

Definition slash_char : Ascii.ascii := Ascii.ascii_of_nat 47.
Definition backslash_char : Ascii.ascii := Ascii.ascii_of_nat 92.
Definition repository_read (root tenant : string) (args : gmap string any) : FM (result read_error (gmap string any)) :=
  let rel := trim_space (as_string (mget args "path")) in
  if sempty rel then mret (Err (MissingArg "path"))
  else if has_prefix rel (String slash_char "") || negb (str_all (λ c, negb (byte_is 92 c)) rel)
  then mret (Err (AbsolutePath rel))
  else readContainedTextFile root "repository.read" "path" rel args.

(** ** artifact.read *)

(** ^(art|obs)_[0-9a-f]{8,64}$ *)
Definition artifact_id (s : string) : bool :=
  (has_prefix s "art_" || has_prefix s "obs_") && str_all is_hex_lower (drop_str 4 s) &&
  (8 <=? slen (drop_str 4 s))%nat && (slen (drop_str 4 s) <=? 64)%nat.
(** The root of one tenant's artifacts: filepath.Join of the store and the tenant's name. *)
Definition rootFor (join : string → string → string) (artifactRoot tenant : string) : FM (result read_error string) :=
  if negb (ident63 tenant) then mret (Err (NotATenantName tenant)) else
  r ← ask (R := freply) (FOpenRoot (join artifactRoot tenant));
  mret (match r : result string () with
        | Err e => Err (StoreFailed tenant e)
        | Ok _ => Ok (join artifactRoot tenant)
        end).
Definition artifact_read (join : string → string → string) (artifactRoot tenant : string) (args : gmap string any)
  : FM (result read_error (gmap string any)) :=
  let id := trim_space (as_string (mget args "artifact_id")) in
  if sempty id then mret (Err (MissingArg "artifact_id"))
  else if negb (artifact_id id) then mret (Err (NotAnArtifactID id))
  else if sempty tenant then mret (Err NoTenantForCall)
  else
    root ← rootFor join artifactRoot tenant;
    match root with
    | Err e => mret (Err e)
    | Ok root => readContainedTextFile root "artifact.read" "artifact_id" id args
    end.
End read.

(** ** The check of a repository root *)

(** filepath.Match for patterns of plain characters and stars. *)
Definition star_char : Ascii.ascii := Ascii.ascii_of_nat 42.
Fixpoint Match (p s : string) : bool :=
  match p with
  | EmptyString => sempty s
  | String c p =>
      if bool_decide (c = star_char)
      then (fix star (s : string) : bool :=
              Match p s || match s with
                           | EmptyString => false
                           | String d s => negb (bool_decide (d = slash_char)) && star s
                           end) s
      else match s with EmptyString => false | String d s => bool_decide (c = d) && Match p s end
  end.
Definition secretLookingNames : list string :=
  [".env"; ".env.*"; "*.pem"; "*.key"; "*.p12"; "*.pfx"; "id_rsa"; "id_dsa"; "id_ecdsa"; "id_ed25519";
   "credentials"; "credentials.json"; ".npmrc"; ".netrc"; ".pgpass"; "kubeconfig"; ".dockercfg";
   "service-account*.json"; "*.jks"].
Definition skipped_dir (name : string) : bool := bool_decide (name ∈ [".git"; "node_modules"; ".venv"]).
Definition secret_dir (name : string) : bool := bool_decide (name ∈ [".ssh"; ".aws"; ".gnupg"]).
Definition secret_file (name : string) : bool :=
  existsb (λ p, Match p name) secretLookingNames && negb (bool_decide (name ∈ [".env.example"; ".env.sample"])).

(** What WalkDir sees at a name: a directory with the entries it could list, in order, or
    anything else, a symbolic link included. *)
Inductive tree := Other | Dir (entries : list (string * tree)).

Section walk.
Context (unicode_lower : string → string).

(** The offending paths, as the walk meets them. *)
Fixpoint walk (path : list string) (name : string) (t : tree) : list (list string) :=
  let name := to_lower unicode_lower name in
  match t with
  | Other => if secret_file name then [path] else []
  | Dir entries =>
      if skipped_dir name then []
      else if secret_dir name then [path]
      else (fix each (entries : list (string * tree)) : list (list string) :=
              match entries with
              | [] => []
              | (n, t) :: entries => walk (path ++ [n])%list n t ++ each entries
              end)%list entries
  end.
(** The refusal counts the offenders and names the first five. *)
Record root_refusal := { offending : nat; shown : list (list string) }.
(** [root] is nothing when it cannot be looked at. *)
Definition CheckRepositoryRoot (base : string) (root : option tree) : result root_refusal () :=
  match root with
  | None => Ok tt
  | Some t =>
      match walk [] base t with
      | [] => Ok tt
      | offenders => Err {| offending := length offenders; shown := take 5 offenders |}
      end
  end.
End walk.

(** ** What the lines of a text are *)

Lemma str_rev_app_acc s acc : str_rev_app s acc = str_rev s +:+ acc.
Proof.
  unfold str_rev. revert acc. induction s as [|c s IH]; intros acc; [done|]. cbn [str_rev_app].
  rewrite (IH (String c acc)), (IH (String c "")). by rewrite <- str_app_assoc.
Qed.
Lemma ends_with_newline_cons c s :
  has_suffix (String c s) newline_text = if sempty s then byte_is 10 c else has_suffix s newline_text.
Proof.
  assert (∀ d r, has_prefix (String d r) newline_text = byte_is 10 d) as Hd.
  { intros d r. unfold newline_text, newline_char. cbn [has_prefix].
    replace (has_prefix r "") with true by (by destruct r). rewrite andb_true_r. unfold byte_is.
    destruct (Nat.eqb_spec (Ascii.nat_of_ascii d) 10) as [Hd|Hd].
    - rewrite bool_decide_true; [done|]. by rewrite <- Hd, Ascii.ascii_nat_embedding.
    - rewrite bool_decide_false; [done|]. by intros <-. }
  unfold has_suffix. change (str_rev newline_text) with newline_text.
  change (str_rev (String c s)) with (str_rev_app s (String c "")). rewrite str_rev_app_acc.
  destruct s as [|d s]; [apply Hd|]. cbn [sempty].
  destruct (str_rev (String d s)) as [|e r] eqn:He.
  - apply (f_equal str_rev) in He. by rewrite str_rev_involutive in He.
  - change (String e r +:+ String c "") with (String e (r +:+ String c "")). by rewrite !Hd.
Qed.

Lemma raw_lines_cons c s : raw_lines (String c s) =
  if byte_is 10 c then "" :: raw_lines s else match raw_lines s with [] => [String c ""] | l :: ls => String c l :: ls end.
Proof. done. Qed.
Lemma raw_lines_nil s : raw_lines s = [] ↔ s = "".
Proof.
  split; [|by intros ->]. destruct s as [|c s]; [done|]. rewrite raw_lines_cons.
  destruct (byte_is 10 c); [done|]. by destruct (raw_lines s).
Qed.

(** countLines counts them. *)
Lemma countLines_length s : countLines s = Z.of_nat (length (raw_lines s)).
Proof.
  induction s as [|c s IH]; [done|]. rewrite raw_lines_cons. unfold countLines in *. cbn [sempty newlines].
  rewrite ends_with_newline_cons. destruct s as [|d s]; cbn [sempty] in *.
  - by destruct (byte_is 10 c).
  - destruct (byte_is 10 c); [cbn [length]; lia|].
    destruct (raw_lines (String d s)) as [|l ls] eqn:Hl; [by apply raw_lines_nil in Hl|]. cbn [length] in *. lia.
Qed.

(** The text is its lines put together, the last of them with its newline or not. *)
Lemma raw_lines_text s :
  s = str_join newline_text (raw_lines s) +:+ (if has_suffix s newline_text then newline_text else "").
Proof.
  induction s as [|c s IH]; [done|]. rewrite raw_lines_cons, ends_with_newline_cons.
  assert (∀ a b : string, String c (a +:+ b) = String c a +:+ b) as Hc by done.
  destruct (byte_is 10 c) eqn:H10.
  - assert (c = newline_char) as ->.
    { unfold newline_char. apply byte_is_true in H10. by rewrite <- H10, Ascii.ascii_nat_embedding. }
    destruct s as [|d s]; [done|]. cbn [sempty].
    destruct (raw_lines (String d s)) as [|l ls] eqn:Hl; [by apply raw_lines_nil in Hl|].
    change (str_join newline_text ("" :: l :: ls)) with (String newline_char (str_join newline_text (l :: ls))).
    rewrite <- Hc. f_equal. exact IH.
  - destruct s as [|d s]; [by rewrite str_app_nil|]. cbn [sempty].
    destruct (raw_lines (String d s)) as [|l ls] eqn:Hl; [by apply raw_lines_nil in Hl|].
    replace (str_join newline_text (String c l :: ls)) with (String c (str_join newline_text (l :: ls))) by (by destruct ls).
    rewrite <- Hc. f_equal. exact IH.
Qed.

(** ** The requested range *)

(** The lines of a file numbered [start] to [end_], or to the end, as the scanner gives them. *)
Definition wanted (start end_ : Z) (lines : list string) : list string :=
  drop_cr <$> drop (Z.to_nat (start - 1)) (if (end_ =? 0)%Z then lines else take (Z.to_nat end_) lines).
(** How the answer joins them: no newline is written while nothing has been. *)
Definition add_line (b token : string) : string := (if sempty b then "" else b +:+ newline_text) +:+ token.
Fixpoint drop_blank (l : list string) : list string :=
  match l with "" :: l => drop_blank l | _ => l end.
Definition total_bytes (l : list string) : Z := zsum (λ s, zlen s + 1)%Z l.

Lemma add_line_nonempty b token : b ≠ "" → add_line b token ≠ "" ∧ add_line b token = b +:+ newline_text +:+ token.
Proof. intros Hb. unfold add_line. destruct b; [done|]. cbn [sempty]. by rewrite <- str_app_assoc. Qed.
Lemma joined_after b l : b ≠ "" → foldl add_line b l = str_join newline_text (b :: l).
Proof.
  revert b. induction l as [|x l IH]; intros b Hb; [done|]. cbn [foldl].
  destruct (add_line_nonempty b x Hb) as [Hne Heq]. rewrite (IH _ Hne), Heq.
  change (str_join newline_text (b :: x :: l)) with (b +:+ newline_text +:+ str_join newline_text (x :: l)).
  destruct l as [|y l]; [done|]. cbn [str_join]. by rewrite <- !str_app_assoc.
Qed.
Lemma joined_lines l : foldl add_line "" l = str_join newline_text (drop_blank l).
Proof.
  induction l as [|x l IH]; [done|]. cbn [foldl]. change (add_line "" x) with x.
  destruct x as [|c x]; [exact IH|]. by apply joined_after.
Qed.

(** The lines the scanner still takes after [line] of them. *)
Fixpoint taken (start end_ line : Z) (lines : list string) : list string :=
  match lines with
  | [] => []
  | raw :: lines =>
      let line := (line + 1)%Z in
      if (line <? start)%Z then taken start end_ line lines
      else if negb (end_ =? 0)%Z && (end_ <? line)%Z then [] else drop_cr raw :: taken start end_ line lines
  end.
Lemma taken_wanted_at start end_ line lines :
  (1 ≤ start)%Z → (end_ = 0 ∨ start ≤ end_)%Z → (0 ≤ line)%Z →
  taken start end_ line lines =
  drop_cr <$> drop (Z.to_nat (start - 1 - line)) (if (end_ =? 0)%Z then lines else take (Z.to_nat (end_ - line)) lines).
Proof.
  intros Hs He. revert line. induction lines as [|raw lines IH]; intros line Hl; cbn [taken].
  { destruct (end_ =? 0)%Z; by rewrite ?take_nil, drop_nil. }
  rewrite IH by lia. destruct (Z.ltb_spec (line + 1) start) as [Hlt|Hge].
  - replace (Z.to_nat (start - 1 - line)) with (S (Z.to_nat (start - 1 - (line + 1)))) by lia.
    destruct (Z.eqb_spec end_ 0) as [|Hne]; [done|].
    by replace (Z.to_nat (end_ - line)) with (S (Z.to_nat (end_ - (line + 1)))) by lia.
  - replace (Z.to_nat (start - 1 - line)) with 0%nat by lia. replace (Z.to_nat (start - 1 - (line + 1))) with 0%nat by lia.
    rewrite !drop_0. destruct (Z.eqb_spec end_ 0) as [|Hne]; [done|]. cbn [negb andb].
    destruct (Z.ltb_spec end_ (line + 1)).
    + by replace (Z.to_nat (end_ - line)) with 0%nat by lia.
    + by replace (Z.to_nat (end_ - line)) with (S (Z.to_nat (end_ - (line + 1)))) by lia.
Qed.
Lemma taken_wanted start end_ lines :
  (1 ≤ start)%Z → (end_ = 0 ∨ start ≤ end_)%Z → taken start end_ 0 lines = wanted start end_ lines.
Proof. intros Hs He. rewrite taken_wanted_at by done. unfold wanted. by rewrite !Z.sub_0_r. Qed.

Definition scanned_text (st : scan_stop) : option (string * Z) :=
  match st with Stopped b _ last | AtEnd b _ last => Some (b, last) | _ => None end.

Lemma zlen_app s t : zlen (s +:+ t) = (zlen s + zlen t)%Z.
Proof. unfold zlen. rewrite slen_app. lia. Qed.
Lemma zlen_add_line b token : (zlen (add_line b token) ≤ zlen b + zlen token + 1)%Z.
Proof. unfold add_line. destruct (sempty b); rewrite ?zlen_app; change (zlen newline_text) with 1%Z; unfold zlen; simpl; lia. Qed.

(** What a completed scan has gathered. *)
Lemma scan_range_sound start end_ lines b line last b' last' :
  (0 ≤ line)%Z → (zlen b ≤ maxRepositoryReadBytes)%Z → (last = 0 ∨ last = line ∧ start ≤ last)%Z → (1 ≤ start)%Z →
  scanned_text (scan_range start end_ lines b line last) = Some (b', last') →
  b' = foldl add_line b (taken start end_ line lines) ∧ (zlen b' ≤ maxRepositoryReadBytes)%Z ∧
  last' = match taken start end_ line lines with
          | [] => last
          | l => (Z.max line (start - 1) + Z.of_nat (length l))%Z
          end.
Proof.
  revert b line last. induction lines as [|raw lines IH]; intros b line last Hline Hb Hlast Hs; cbn [scan_range taken].
  { intros [= <- <-]. done. }
  destruct (maxRepositoryReadBytes <? zlen raw)%Z; [done|].
  destruct (Z.ltb_spec (line + 1) start) as [Hlt|Hge].
  - intros H. destruct (IH b (line + 1)%Z last) as (-> & Hz & ->); [lia|done|lia|done|done|].
    split_and!; [done|done|]. destruct (taken _ _ _ _); [done|]. lia.
  - destruct (negb (end_ =? 0)%Z && (end_ <? line + 1)%Z); [by intros [= <- <-]|].
    destruct (Z.ltb_spec maxRepositoryReadBytes (zlen b + zlen (drop_cr raw) + 1)) as [|Hfit]; [done|].
    intros H. change ((if sempty b then "" else b +:+ newline_text) +:+ drop_cr raw) with (add_line b (drop_cr raw)) in H.
    destruct (IH (add_line b (drop_cr raw)) (line + 1)%Z (line + 1)%Z) as (-> & Hz & ->);
      [lia|etransitivity; [apply zlen_add_line|lia]|lia|done|done|].
    split_and!; [done|done|]. destruct (taken start end_ (line + 1) lines); cbn [length]; lia.
Qed.
(** Short lines whose requested part fits are all read. *)
Lemma scan_range_complete start end_ lines b line last :
  Forall (λ l, zlen l ≤ maxRepositoryReadBytes)%Z lines →
  (zlen b + total_bytes (taken start end_ line lines) ≤ maxRepositoryReadBytes)%Z →
  is_Some (scanned_text (scan_range start end_ lines b line last)).
Proof.
  revert b line last. induction lines as [|raw lines IH]; intros b line last Hshort Hfit; cbn [scan_range taken]; [done|].
  apply Forall_cons in Hshort as [Hraw Hshort]. cbn [taken] in Hfit.
  rewrite (proj2 (Z.ltb_ge _ _)) by done. destruct (line + 1 <? start)%Z; [by apply IH|].
  destruct (negb (end_ =? 0)%Z && (end_ <? line + 1)%Z); [done|].
  assert (0 ≤ total_bytes (taken start end_ (line + 1) lines))%Z by (apply zsum_nonneg; intros; unfold zlen; lia).
  change (total_bytes (?x :: ?l)) with (zlen x + 1 + total_bytes l)%Z in Hfit. rewrite (proj2 (Z.ltb_ge _ _)) by lia.
  apply IH; [done|]. pose proof (zlen_add_line b (drop_cr raw)). unfold add_line in *. lia.
Qed.

Lemma wanted_ends start end_ lines :
  (1 ≤ start)%Z → wanted start end_ lines ≠ [] →
  (start ≤ start - 1 + Z.of_nat (length (wanted start end_ lines)) ≤ Z.of_nat (length lines))%Z.
Proof.
  intros Hs. unfold wanted. intros Hne. rewrite length_fmap, length_drop.
  assert (length (drop (Z.to_nat (start - 1)) (if (end_ =? 0)%Z then lines else take (Z.to_nat end_) lines)) ≠ 0) as Hl.
  { intros H%nil_length_inv. by rewrite H in Hne. }
  rewrite length_drop in Hl. destruct (end_ =? 0)%Z; [lia|]. rewrite length_take in *. lia.
Qed.

Lemma after_scan_Ok start b line last err s last' :
  after_scan start b line last err = Ok (s, last') ↔
  err = None ∧ last ≠ 0%Z ∧ utf8_valid b = true ∧ s = b ∧ last' = last.
Proof.
  unfold after_scan. destruct err as [e|]; [naive_solver|]. destruct (Z.eqb_spec last 0); [naive_solver|].
  destruct (utf8_valid b); simpl; naive_solver.
Qed.
Lemma readLineRange_Ok f start end_ s last :
  readLineRange f start end_ = Ok (s, last) →
  scanned_text (scan_range start end_ (raw_lines (rd_text f)) "" 0 0) = Some (s, last) ∧ last ≠ 0%Z ∧ utf8_valid s = true.
Proof.
  unfold readLineRange. destruct (scan_range _ _ _ _ _ _); try done;
    intros (? & ? & ? & -> & ->)%after_scan_Ok; done.
Qed.

(** A range that is read is the requested lines, in order, each without its line
    ending and nothing else of the file, except that the blank lines it starts with are
    left out; it is valid UTF-8 of at most the limit, and the last line reported is the
    last one read. A readable file of lines within the limit whose requested lines exist
    and fit is never refused. *)
Theorem range_is_read f start end_ :
  (1 ≤ start)%Z → (end_ = 0 ∨ start ≤ end_)%Z →
  let lines := wanted start end_ (raw_lines (rd_text f)) in
  let content := str_join newline_text (drop_blank lines) in
  let last := (start - 1 + Z.of_nat (length lines))%Z in
  (∀ s n, readLineRange f start end_ = Ok (s, n) →
     lines ≠ [] ∧ s = content ∧ n = last ∧ (zlen s ≤ maxRepositoryReadBytes)%Z ∧ utf8_valid s = true) ∧
  (rd_err f = None → lines ≠ [] → utf8_valid content = true → (total_bytes lines ≤ maxRepositoryReadBytes)%Z →
   Forall (λ l, zlen l ≤ maxRepositoryReadBytes)%Z (raw_lines (rd_text f)) →
   readLineRange f start end_ = Ok (content, last)).
Proof.
  intros Hs He lines content last. pose proof (taken_wanted start end_ (raw_lines (rd_text f)) Hs He) as Hw.
  assert (∀ s n, scanned_text (scan_range start end_ (raw_lines (rd_text f)) "" 0 0) = Some (s, n) →
    s = content ∧ n = (match lines with [] => 0 | _ => last end)%Z ∧ (zlen s ≤ maxRepositoryReadBytes)%Z) as Hscan.
  { intros s n H. apply scan_range_sound in H as (-> & Hz & ->); [|lia|by vm_compute|by left|done]. rewrite Hw in Hz |- *. fold lines in Hz |- *.
    split_and!; [by rewrite joined_lines| |done]. unfold last. destruct lines; [done|]. lia. }
  split.
  - intros s n (Hsc & Hn & Hu)%readLineRange_Ok. destruct (Hscan _ _ Hsc) as (-> & -> & Hz).
    destruct lines; [done|]. done.
  - intros Hr Hne Hu Hfit Hshort.
    destruct (scan_range_complete start end_ (raw_lines (rd_text f)) "" 0 0) as [[s n] Hsc]; [done|by rewrite Hw|].
    destruct (Hscan _ _ Hsc) as (-> & Hn & _).
    assert (n = last) as -> by (by destruct lines). assert (last ≠ 0%Z) by (unfold last; destruct lines; simpl; [done|lia]).
    unfold readLineRange. destruct (scan_range _ _ _ _ _ _); simpl in Hsc; simplify_eq; rewrite Hr;
      apply after_scan_Ok; split_and!; try done. by destruct (rd_met f).
Qed.

Lemma scan_range_last start end_ lines b line last last' :
  match scan_range start end_ lines b line last with
  | Stopped b1 l1 n | AtEnd b1 l1 n => n = last ∨
      scan_range start end_ lines b line last' = scan_range start end_ lines b line last
  | st => scan_range start end_ lines b line last' = st
  end.
Proof.
  revert b line last last'. induction lines as [|raw lines IH]; intros b line last last'; cbn [scan_range]; [by left|].
  destruct (maxRepositoryReadBytes <? zlen raw)%Z; [done|]. destruct (line + 1 <? start)%Z; [apply IH|].
  destruct (negb (end_ =? 0)%Z && (end_ <? line + 1)%Z); [by left|].
  destruct (maxRepositoryReadBytes <? zlen b + zlen (drop_cr raw) + 1)%Z; [done|].
  destruct (scan_range _ _ lines _ _ _); by try right.
Qed.
Lemma scan_range_started start start' end_ lines b line last :
  (start ≤ line + 1)%Z → (start' ≤ line + 1)%Z → scan_range start end_ lines b line last = scan_range start' end_ lines b line last.
Proof.
  revert b line last. induction lines as [|raw lines IH]; intros b line last H H'; [done|]. cbn [scan_range].
  rewrite !(proj2 (Z.ltb_ge (line + 1) _)) by done. by rewrite IH by lia.
Qed.
Lemma scan_blank start end_ lines line :
  (0 ≤ line < start)%Z → (end_ = 0 ∨ start < end_)%Z → drop_cr <$> nth_error lines (Z.to_nat (start - 1 - line)) = Some "" →
  ∀ s n, scanned_text (scan_range (start + 1) end_ lines "" line 0) = Some (s, n) → n ≠ 0%Z →
  scan_range start end_ lines "" line 0 = scan_range (start + 1) end_ lines "" line 0.
Proof.
  intros Hl He. revert line Hl. induction lines as [|raw lines IH]; intros line Hl Hb s n Hs Hn; [by destruct (Z.to_nat _)|].
  cbn [scan_range] in *. destruct (maxRepositoryReadBytes <? zlen raw)%Z; [done|].
  rewrite (proj2 (Z.ltb_lt (line + 1) (start + 1))) in * by lia.
  destruct (Z.ltb_spec (line + 1) start) as [Hlt|Hge].
  - apply (IH (line + 1)%Z ltac:(lia)) with (s := s) (n := n); [|done|done].
    replace (Z.to_nat (start - 1 - line)) with (S (Z.to_nat (start - 1 - (line + 1)))) in Hb by lia. exact Hb.
  - replace (Z.to_nat (start - 1 - line)) with 0%nat in Hb by lia. cbn in Hb. injection Hb as Hb. rewrite Hb.
    replace (negb (end_ =? 0)%Z && (end_ <? line + 1)%Z) with false.
    2: { symmetry. destruct (Z.eqb_spec end_ 0); [done|]. simpl. apply Z.ltb_ge. lia. }
    cbn [negb andb zlen slen String.length]. rewrite (proj2 (Z.ltb_ge _ _)) by (unfold zlen, maxRepositoryReadBytes; simpl; lia).
    change ("" +:+ "") with "". rewrite (scan_range_started start (start + 1)) by lia.
    pose proof (scan_range_last (start + 1) end_ lines "" (line + 1) 0 (line + 1)) as Hlast.
    destruct (scan_range (start + 1) end_ lines "" (line + 1) 0); simpl in Hs; simplify_eq; destruct Hlast; done.
Qed.

(** Blank lines at the front of a range vanish from it: when a line is blank, the
    range that starts at it is answered with the text and last line of the range that
    starts one line below, so the content has fewer lines than the two numbers reported
    next to it say. *)
Theorem leading_blank_lines_vanish f start end_ s last :
  (1 ≤ start)%Z → (end_ = 0 ∨ start < end_)%Z →
  drop_cr <$> nth_error (raw_lines (rd_text f)) (Z.to_nat (start - 1)) = Some "" →
  readLineRange f (start + 1) end_ = Ok (s, last) → readLineRange f start end_ = Ok (s, last).
Proof.
  intros Hs He Hb Hr. pose proof (readLineRange_Ok _ _ _ _ _ Hr) as (Hsc & Hn & Hu).
  unfold readLineRange in *. rewrite (scan_blank start end_ (raw_lines (rd_text f)) 0 ltac:(lia) He) with (s := s) (n := last);
    [|by rewrite Z.sub_0_r|done|done].
  destruct (scan_range _ _ _ _ _ _); simpl in Hsc; simplify_eq; apply after_scan_Ok; by apply after_scan_Ok in Hr.
Qed.

(** ** What the tools open and answer *)

Section tools.
Context `{GoRuntime}.

Lemma repositoryLineRange_Ok args start end_ :
  repositoryLineRange args = Ok (start, end_) → (start = 0 ∧ end_ = 0)%Z ∨ ((1 ≤ start)%Z ∧ (end_ = 0 ∨ start ≤ end_)%Z).
Proof.
  unfold repositoryLineRange. rewrite bind_Ok. intros (s & _ & H0). rewrite bind_Ok in H0. destruct H0 as (e & _ & H0). revert H0.
  destruct (Z.eqb_spec s 0) as [->|]; cbn.
  - destruct (Z.eqb_spec e 0) as [->|]; [|done]. intros [= <- <-]. by left.
  - destruct (Z.ltb_spec s 1); [done|]. destruct (Z.eqb_spec e 0) as [->|]; [intros [= <- <-]; right; lia|].
    destruct (Z.ltb_spec e s); [done|]. intros [= <- <-]. right. lia.
Qed.

(** The calls of a read, and what it was given: the file is looked at before it is opened. *)
Definition looked (root rel : string) (t : list {c : fcall & freply c}) : Prop :=
  t = [] ∨ (∃ e, t = [existT (FStat root rel) e] ∧ ∀ i, e = Ok i → fi_IsDir i = true ∨ fi_IsRegular i = false) ∨
  ∃ i rest, fi_IsDir i = false ∧ fi_IsRegular i = true ∧ t = existT (FStat root rel) (Ok i) :: rest ∧
    ((∃ o, rest = [existT (FOpen root rel) o]) ∨ ∃ f, rest = [existT (FOpen root rel) (Ok tt); existT (FRead root rel) f]).
Lemma read_looks root tool arg rel args t r :
  histories (readContainedTextFile root tool arg rel args) t r → looked root rel t.
Proof.
  unfold readContainedTextFile. destruct (repositoryLineRange args) as [[start end_]|e]; [|intros [-> _]; by left].
  intros (i & t1 & -> & Ht). cbn [prog_bind] in Ht. destruct i as [i|e].
  2: { destruct Ht as [-> _]. right; left. by exists (Err e). }
  destruct (fi_IsDir i) eqn:Hd.
  { destruct Ht as [-> _]. right; left. exists (Ok i). split; [done|]. intros ? [= <-]. by left. }
  destruct (fi_IsRegular i) eqn:Hr; cbn [negb] in Ht.
  2: { destruct Ht as [-> _]. right; left. exists (Ok i). split; [done|]. intros ? [= <-]. by right. }
  right; right. destruct Ht as (o & t2 & -> & Ht). exists i, (existT (FOpen root rel) o :: t2). split_and!; [done..|].
  destruct o as [[]|e]; [|destruct Ht as [-> _]; eauto].
  destruct (start =? 0)%Z; [destruct (maxRepositoryReadBytes <? fi_Size i)%Z|];
    [destruct Ht as [-> _]; eauto|destruct Ht as (f & t3 & -> & -> & _); eauto..].
Qed.

Definition whole_answer (tool arg rel text : string) : gmap string any :=
  obj [("status", AString "executed"); ("tool", AString tool); (arg, AString rel); ("content", AString text);
       ("bytes", AInt (zlen text)); ("lines_total", AInt (Z.of_nat (length (raw_lines text))))].
Definition part_answer (tool arg rel text : string) (start last : Z) : gmap string any :=
  obj [("status", AString "executed"); ("tool", AString tool); (arg, AString rel); ("content", AString text);
       ("bytes", AInt (zlen text)); ("start_line", AInt start); ("end_line", AInt last)].

(** A file tool answers content only of a regular file it looked at before opening
    it and then read without a failure; a file is opened only after that look, whatever
    the outcome. Without a range the answer is the whole text of a file within the
    limit, its byte count and the number of its lines; with one, it is the range as
    [range_is_read] describes it, and its numbers. *)
Theorem file_tool_answers root tool arg rel args t r :
  histories (readContainedTextFile root tool arg rel args) t r →
  looked root rel t ∧
  ∀ res, r = Ok res →
  ∃ info f start end_, repositoryLineRange args = Ok (start, end_) ∧
    t = [existT (FStat root rel) (Ok info); existT (FOpen root rel) (Ok tt); existT (FRead root rel) f] ∧
    fi_IsDir info = false ∧ fi_IsRegular info = true ∧
    ((start = 0 ∧ fi_Size info ≤ maxRepositoryReadBytes)%Z ∧ rd_err f = None ∧ utf8_valid (rd_text f) = true ∧
       res = whole_answer tool arg rel (rd_text f) ∨
     (1 ≤ start ∧ (end_ = 0 ∨ start ≤ end_))%Z ∧
       ∃ s last, readLineRange f start end_ = Ok (s, last) ∧ res = part_answer tool arg rel s start last).
Proof.
  intros Ht. split; [by eapply read_looks|]. intros res ->. pose proof (read_looks _ _ _ _ _ _ _ Ht) as Hlook. revert Ht.
  unfold readContainedTextFile. destruct (repositoryLineRange args) as [[start end_]|e] eqn:Hrange; [|by intros [_ ?]].
  intros (i & t1 & -> & Ht). cbn [prog_bind] in Ht. destruct i as [i|e]; [|by destruct Ht as [_ ?]].
  destruct (fi_IsDir i) eqn:Hd; [by destruct Ht as [_ ?]|].
  destruct (fi_IsRegular i) eqn:Hr; cbn [negb] in Ht; [|by destruct Ht as [_ ?]].
  destruct Ht as (o & t2 & -> & Ht). destruct o as [[]|e]; [|by destruct Ht as [_ ?]].
  destruct (repositoryLineRange_Ok _ _ _ Hrange) as [[-> ->]|[Hs He]].
  - cbn [Z.eqb] in Ht. destruct (Z.ltb_spec maxRepositoryReadBytes (fi_Size i)); [by destruct Ht as [_ ?]|].
    destruct Ht as (f & t3 & -> & -> & Hres). exists i, f, 0%Z, 0%Z. split_and!; [done..|]. left.
    unfold read_whole in Hres. destruct (rd_err f); [done|]. destruct (utf8_valid (rd_text f)); [|done].
    injection Hres as ->. rewrite countLines_length. done.
  - rewrite (proj2 (Z.eqb_neq _ _)) in Ht by lia. destruct Ht as (f & t3 & -> & -> & Hres).
    exists i, f, start, end_. split_and!; [done..|]. right. split; [done|].
    unfold read_part in Hres. destruct (readLineRange f start end_) as [[s last]|]; [|done]. injection Hres as ->. eauto.
Qed.

(** An artifact id is one name of a directory: no separator, no dot. *)
Lemma is_hex_lower_plain c : is_hex_lower c = true → byte_is 47 c = false ∧ byte_is 46 c = false ∧ byte_is 92 c = false.
Proof.
  unfold is_hex_lower, is_digit, byte_in, byte_is. rewrite orb_true_iff, !andb_true_iff, !Nat.leb_le, !Nat.eqb_neq. lia.
Qed.
Definition name_char (c : Ascii.ascii) : bool := negb (byte_is 47 c || byte_is 46 c || byte_is 92 c).
Lemma has_prefix_split s p : has_prefix s p = true → s = p +:+ drop_str (slen p) s.
Proof.
  revert s. induction p as [|c p IH]; intros s; [done|]. destruct s as [|d s]; [done|].
  cbn [has_prefix]. intros [<-%bool_decide_eq_true Hs]%andb_true_iff.
  change (String c p +:+ drop_str (slen (String c p)) (String c s)) with (String c (p +:+ drop_str (slen p) s)).
  by rewrite <- IH.
Qed.
Lemma artifact_id_is_a_name id : artifact_id id = true → str_all name_char id = true ∧ (slen id ≤ 68)%nat.
Proof.
  unfold artifact_id. rewrite !andb_true_iff, orb_true_iff, !Nat.leb_le. intros [[[Hp Hh] _] Hl].
  assert (∃ p, (p = "art_" ∨ p = "obs_") ∧ id = p +:+ drop_str 4 id) as (p & Hpp & Heq).
  { destruct Hp as [Hp|Hp]; apply has_prefix_split in Hp; eauto. }
  rewrite Heq, str_all_app, slen_app. split.
  - assert (str_all name_char p = true) as -> by (by destruct Hpp as [-> | ->]). simpl.
    eapply str_all_impl; [|exact Hh]. intros c (H1 & H2 & H3)%is_hex_lower_plain. unfold name_char. by rewrite H1, H2, H3.
  - assert (slen p = 4) as -> by (by destruct Hpp as [-> | ->]). lia.
Qed.

(** C37. artifact.read touches the file system only for a well-formed tenant and
    artifact id: it opens the directory of that tenant's name in the store, and looks
    at, opens and reads one file in it, whose name has no separator and no dot, so
    neither argument can name another tenant's directory. *)
Theorem artifacts_stay_in_their_tenant join store tenant args t r :
  histories (artifact_read join store tenant args) t r →
  let id := trim_space (as_string (mget args "artifact_id")) in
  t = [] ∨
  ident63 tenant = true ∧ artifact_id id = true ∧ str_all name_char id = true ∧
  ∃ o rest, t = existT (FOpenRoot (join store tenant)) o :: rest ∧ looked (join store tenant) id rest ∧
    ∀ res, r = Ok res → rest ≠ [].
Proof.
  unfold artifact_read. set (id := trim_space _). intros Ht. cbn beta zeta.
  destruct (sempty id); [destruct Ht as [-> _]; by left|].
  destruct (artifact_id id) eqn:Hid; cbn [negb] in Ht; [|destruct Ht as [-> _]; by left].
  destruct (sempty tenant); [destruct Ht as [-> _]; by left|].
  apply histories_bind in Ht as (root & t1 & t2 & -> & Hr & Ht). unfold rootFor in Hr.
  destruct (ident63 tenant) eqn:Hten; cbn [negb] in Hr.
  2: { destruct Hr as [-> ->]. destruct Ht as [-> _]. by left. }
  right. split_and!; [done|done|by apply artifact_id_is_a_name|].
  destruct Hr as (o & t3 & -> & -> & Hroot). exists o, t2. split; [done|].
  destruct o as [[]|e]; subst root.
  2: { destruct Ht as [-> ->]. split; [by left|done]. }
  - split; [by eapply read_looks|]. intros res ->.
    assert (t2 = [] → False) as Hn; [|intros ?; by apply Hn]. intros ->.
    unfold readContainedTextFile in Ht. destruct (repositoryLineRange args) as [[s e]|e]; [|by destruct Ht as [_ ?]].
    by destruct Ht as (? & ? & ? & _).
Qed.
End tools.

(** ** What a checked root does not hold *)

Section checked.
Context (unicode_lower : string → string).

(** The entries the walk looks at: below every directory that is neither skipped nor a
    finding itself. *)
Inductive reach : string → tree → list string → string → tree → Prop :=
| reach_here n t : reach n t [] n t
| reach_below n entries m t path n' t' :
    skipped_dir (to_lower unicode_lower n) = false → secret_dir (to_lower unicode_lower n) = false →
    (m, t) ∈ entries → reach m t path n' t' → reach n (Dir entries) (m :: path) n' t'.
Definition offends (n : string) (t : tree) : bool :=
  match t with
  | Other => secret_file (to_lower unicode_lower n)
  | Dir _ => negb (skipped_dir (to_lower unicode_lower n)) && secret_dir (to_lower unicode_lower n)
  end.

Fixpoint tree_induction (P : tree → Prop) (other : P Other)
    (dir : ∀ entries, Forall (λ e, P e.2) entries → P (Dir entries)) (t : tree) : P t :=
  match t with
  | Other => other
  | Dir entries =>
      dir entries ((fix each (l : list (string * tree)) : Forall (λ e, P e.2) l :=
                      match l with
                      | [] => @List.Forall_nil _ _
                      | e :: l => @List.Forall_cons _ _ e l (tree_induction P other dir e.2) (each l)
                      end) entries)
  end.

Definition walk_all (path : list string) : list (string * tree) → list (list string) :=
  fix each entries := match entries with
    | [] => []
    | (n, t) :: entries => walk unicode_lower (path ++ [n])%list n t ++ each entries
    end%list.
Lemma walk_Dir path n entries : walk unicode_lower path n (Dir entries) =
  if skipped_dir (to_lower unicode_lower n) then []
  else if secret_dir (to_lower unicode_lower n) then [path] else walk_all path entries.
Proof. done. Qed.
Lemma elem_of_walk_all path entries p :
  p ∈ walk_all path entries ↔ ∃ n t, (n, t) ∈ entries ∧ p ∈ walk unicode_lower (path ++ [n])%list n t.
Proof.
  induction entries as [|[n t] entries IH]; cbn [walk_all]; [set_solver|].
  rewrite elem_of_app, IH. split.
  - intros [H|(n' & t' & H & H')]; [exists n, t|exists n', t']; split; try done; [by left|by right].
  - intros (n' & t' & [[= -> ->]|H]%elem_of_cons & H'); [by left|right; eauto].
Qed.

Lemma walk_spec t : ∀ path n p, p ∈ walk unicode_lower path n t ↔
  ∃ q m u, p = (path ++ q)%list ∧ reach n t q m u ∧ offends m u = true.
Proof.
  induction t as [|entries IH] using tree_induction; intros path n p.
  - cbn [walk]. split.
    + destruct (secret_file (to_lower unicode_lower n)) eqn:Hs; [|by intros ?%elem_of_nil].
      intros ->%list_elem_of_singleton. exists [], n, Other. rewrite app_nil_r. split_and!; [done|constructor|done].
    + intros (q & m & u & -> & Hr & Ho). inversion Hr; subst. cbn [offends] in Ho. rewrite Ho, app_nil_r. by left.
  - rewrite walk_Dir. destruct (skipped_dir (to_lower unicode_lower n)) eqn:Hk.
    { split; [by intros ?%elem_of_nil|]. intros (q & m & u & _ & Hr & Ho).
      inversion Hr; subst; [|congruence]. cbn [offends] in Ho. by rewrite Hk in Ho. }
    destruct (secret_dir (to_lower unicode_lower n)) eqn:Hs.
    { split.
      - intros ->%list_elem_of_singleton. exists [], n, (Dir entries). rewrite app_nil_r.
        split_and!; [done|constructor|cbn [offends]; by rewrite Hk, Hs].
      - intros (q & m & u & -> & Hr & Ho). inversion Hr; subst; [rewrite app_nil_r; by left|congruence]. }
    rewrite elem_of_walk_all. split.
    + intros (m & t & Hm & Hp). rewrite Forall_forall in IH. apply (IH _ Hm) in Hp as (q & m' & u & -> & Hr & Ho).
      exists (m :: q), m', u. rewrite <- app_assoc. split_and!; [done|by econstructor|done].
    + intros (q & m & u & -> & Hr & Ho). inversion Hr; subst.
      { cbn [offends] in Ho. by rewrite Hk, Hs in Ho. }
      rewrite Forall_forall in IH. eexists _, _. split; [done|]. apply (IH (_, _) ltac:(done)).
      eexists _, _, _. rewrite <- app_assoc. split_and!; done.
Qed.

(** A root passes the check exactly when, below no skipped or credential directory,
    it holds neither a credential directory nor an entry whose lower-cased name looks
    like a credential; a refusal counts the offenders, and names five of them at most. *)
Theorem root_passes_iff base root :
  (CheckRepositoryRoot unicode_lower base (Some root) = Ok tt ↔
     ∀ path n t, reach base root path n t → offends n t = false) ∧
  (∀ e, CheckRepositoryRoot unicode_lower base (Some root) = Err e →
     (0 < offending e)%nat ∧ length (shown e) = Nat.min 5 (offending e) ∧
     ∀ p, p ∈ shown e → ∃ n t, reach base root p n t ∧ offends n t = true).
Proof.
  unfold CheckRepositoryRoot. pose proof (walk_spec root [] base) as Hw. destruct (walk unicode_lower [] base root) as [|p ps] eqn:Hwalk.
  - split; [|done]. split; [|done]. intros _ path n t Hr. destruct (offends n t) eqn:Ho; [|done].
    assert (path ∈ []) as Hin by (apply Hw; by exists path, n, t). by apply not_elem_of_nil in Hin.
  - split.
    + split; [done|]. intros Hall. destruct (proj1 (Hw p)) as (q & m & u & _ & Hr & Ho); [by left|]. by rewrite (Hall _ _ _ Hr) in Ho.
    + intros e [= <-]. cbn [offending shown]. split_and!; [simpl; lia|exact (length_take (p :: ps) 5)|].
      intros p' Hp'%(subseteq_take 5 (p :: ps)). apply Hw in Hp' as (q & m & u & -> & Hr & Ho). eauto.
Qed.

(** The check accepts what the tool then serves: whatever a .git directory holds,
    the root passes, and so does a root that is a symbolic link, of which nothing is
    looked at; a path into that directory is asked of the root like any other. *)
Theorem skipped_directories_are_served `{GoRuntime} base hidden root tenant t r :
  skipped_dir (to_lower unicode_lower base) = false → secret_dir (to_lower unicode_lower base) = false →
  secret_file (to_lower unicode_lower base) = false →
  CheckRepositoryRoot unicode_lower base (Some (Dir [(".git", Dir hidden)])) = Ok tt ∧
  CheckRepositoryRoot unicode_lower base (Some Other) = Ok tt ∧
  (histories (repository_read root tenant {["path" := AString ".git/config"]}) t r →
   ∃ i rest, t = existT (FStat root ".git/config") i :: rest).
Proof.
  intros Hk Hs Hf. split_and!.
  - unfold CheckRepositoryRoot. rewrite walk_Dir, Hk, Hs. done.
  - unfold CheckRepositoryRoot. cbn [walk]. by rewrite Hf.
  - intros (i & rest & -> & _). eauto.
Qed.
End checked.

(** ** A file of four lines *)

Module FileToolsWitnesses.
#[local] Existing Instance amd64_runtime.
Definition text : string :=
  "a" +:+ newline_text +:+ newline_text +:+ "b" +:+ String (Ascii.ascii_of_nat 13) "" +:+ newline_text +:+ "c".
Definition file : reading := {| rd_text := text; rd_err := None; rd_met := false |}.
Example four_lines : countLines text = 4%Z ∧ readLineRange file 1 0 =
  Ok ("a" +:+ newline_text +:+ newline_text +:+ "b" +:+ newline_text +:+ "c", 4%Z).
Proof. vm_compute. done. Qed.
Example past_the_end : readLineRange file 5 0 = Err (PastEnd 5 4).
Proof. vm_compute. done. Qed.

Lemma range_is_read_witness :
  wanted 2 3 (raw_lines text) = [""; "b"] ∧
  (∀ s n, readLineRange file 2 3 = Ok (s, n) →
     wanted 2 3 (raw_lines text) ≠ [] ∧ s = str_join newline_text (drop_blank (wanted 2 3 (raw_lines text))) ∧
     n = (2 - 1 + Z.of_nat (length (wanted 2 3 (raw_lines text))))%Z ∧
     (zlen s ≤ maxRepositoryReadBytes)%Z ∧ utf8_valid s = true) ∧
  readLineRange file 2 3 = Ok ("b", 3%Z).
Proof.
  split; [reflexivity|]. destruct (range_is_read file 2 3 ltac:(lia) ltac:(lia)) as [Hsound Hcomplete].
  split; [exact Hsound|]. apply Hcomplete; [done|done|by vm_compute|by vm_compute|].
  repeat constructor; by vm_compute.
Defined.
Lemma leading_blank_lines_vanish_witness :
  readLineRange file 3 3 = Ok ("b", 3%Z) ∧ readLineRange file 2 3 = Ok ("b", 3%Z).
Proof.
  split; [by vm_compute|]. apply leading_blank_lines_vanish; [lia|lia|by vm_compute|by vm_compute].
Defined.

Definition info : FileInfo := {| fi_IsDir := false; fi_IsRegular := true; fi_Mode := "-rw-r--r--"; fi_Size := 6 |}.
Definition second_line : gmap string any := {["start_line" := AFloat (f_of_Z 3)]}.
Definition read_once : list {c : fcall & freply c} :=
  [existT (FStat "/srv" "notes") (Ok info); existT (FOpen "/srv" "notes") (Ok tt); existT (FRead "/srv" "notes") file].
Definition answer : gmap string any :=
  part_answer "repository.read" "path" "notes" ("b" +:+ newline_text +:+ "c") 3 4.
Lemma read_once_history :
  histories (readContainedTextFile "/srv" "repository.read" "path" "notes" second_line) read_once (Ok answer).
Proof.
  unfold readContainedTextFile. replace (repositoryLineRange second_line) with (Ok (E := read_error) (3%Z, 0%Z)) by (by vm_compute).
  do 3 (eexists _, _; split; [reflexivity|]). split; [done|]. symmetry. vm_compute. done.
Qed.
Lemma file_tool_answers_witness :
  looked "/srv" "notes" read_once ∧
  ∀ res, Ok answer = Ok (E := read_error) res →
  ∃ info f start end_, repositoryLineRange second_line = Ok (start, end_) ∧
    read_once = [existT (FStat "/srv" "notes") (Ok info); existT (FOpen "/srv" "notes") (Ok tt); existT (FRead "/srv" "notes") f] ∧
    fi_IsDir info = false ∧ fi_IsRegular info = true ∧
    ((start = 0 ∧ fi_Size info ≤ maxRepositoryReadBytes)%Z ∧ rd_err f = None ∧ utf8_valid (rd_text f) = true ∧
       res = whole_answer "repository.read" "path" "notes" (rd_text f) ∨
     (1 ≤ start ∧ (end_ = 0 ∨ start ≤ end_))%Z ∧
       ∃ s last, readLineRange f start end_ = Ok (s, last) ∧ res = part_answer "repository.read" "path" "notes" s start last).
Proof. exact (file_tool_answers "/srv" "repository.read" "path" "notes" second_line read_once (Ok answer) read_once_history). Defined.

Definition join_names (a b : string) : string := a +:+ "/" +:+ b.
Definition report : gmap string any := {["artifact_id" := AString " art_0123456789ab "]}.
Definition fetched : list {c : fcall & freply c} :=
  [existT (FOpenRoot "/artifacts/acme") (Ok tt);
   existT (FStat "/artifacts/acme" "art_0123456789ab") (Err "no such file")].
Lemma artifacts_stay_in_their_tenant_witness :
  let id := trim_space (as_string (mget report "artifact_id")) in
  fetched = [] ∨
  ident63 "acme" = true ∧ artifact_id id = true ∧ str_all name_char id = true ∧
  ∃ o rest, fetched = existT (FOpenRoot (join_names "/artifacts" "acme")) o :: rest ∧
    looked (join_names "/artifacts" "acme") id rest ∧
    ∀ res : gmap string any, Err (FileFailed "no such file") = Ok (E := read_error) res → rest ≠ [].
Proof.
  apply (artifacts_stay_in_their_tenant join_names "/artifacts" "acme" report fetched (Err (FileFailed "no such file"))).
  unfold artifact_read. replace (trim_space (as_string (mget report "artifact_id"))) with "art_0123456789ab" by (by vm_compute).
  do 2 (eexists _, _; split; [reflexivity|]). done.
Defined.

Definition secrets : list (string * tree) := [("config", Other); ("id_rsa", Other)].
Definition same (s : string) : string := s.
Example secrets_refused :
  CheckRepositoryRoot same "repo" (Some (Dir [("docs", Dir [(".ENV.local", Other); (".env.example", Other)]); (".aws", Dir [])])) =
  Err {| offending := 2; shown := [["docs"; ".ENV.local"]; [".aws"]] |}.
Proof. vm_compute. done. Qed.
Lemma skipped_directories_are_served_witness :
  CheckRepositoryRoot same "repo" (Some (Dir [(".git", Dir secrets)])) = Ok tt ∧
  CheckRepositoryRoot same "repo" (Some Other) = Ok tt ∧
  (histories (repository_read "/repo" "acme" {["path" := AString ".git/config"]})
     [existT (FStat "/repo" ".git/config") (Err "gone")] (Err (FileFailed "gone")) →
   ∃ i rest, [existT (FStat "/repo" ".git/config") (Err "gone") : {c : fcall & freply c}] =
     existT (FStat "/repo" ".git/config") i :: rest).
Proof.
  apply (skipped_directories_are_served same "repo" secrets "/repo" "acme"
           [existT (FStat "/repo" ".git/config") (Err "gone")] (Err (FileFailed "gone"))); by vm_compute.
Defined.
End FileToolsWitnesses.
