(* ===== verification/FinopsPage.v ===== *)
(** * The cost routes: a run's spend as data, and the dashboard

    go/internal/api/finops_handlers.go over the ledger of FinopsLedger and the journal of
    CheckpointStore. Each query is a call. The page is the text the handler writes, with
    the texts of numbers as parameters. *)

From stdpp Require Import pretty.
From S2P Require Import Prelude GoValue Json Auth Checkpoint CheckpointStore Program FinopsLedger Html.

Local Open Scope string_scope.
Set Default Proof Using "Type*".

Record runCostResponse := {
  rc_RunID : string;
  rc_CostUSD : option float64;      (** a pointer: null when nothing was priced *)
  rc_ModelCalls : Z;
  rc_PricedCalls : Z;
  rc_UnpricedCalls : Z;
  rc_DiscardedCalls : Z;
  rc_DiscardedCostUSD : float64;
  rc_PromptTokens : Z;
  rc_CompletionTokens : Z;
  rc_Tokens : Z;
  rc_UnreportedUsageCalls : Z;
  rc_DistinctModels : Z;
}.

Inductive qcall :=
| QSpend (tenant run : string)
| QKnown (tenant run : string)
| QByModel (tenant : string)
| QByRun (tenant : string)
| QByAgent (tenant : string).
(** Why a query failed. *)
Inductive query_error := SpendQuery (e : SpendError) | JournalQuery (e : ReadError) | TotalsQuery (msg : string).
Definition qreply (c : qcall) : Type :=
  match c with
  | QSpend _ _ => result query_error RunSpend
  | QKnown _ _ => result query_error bool
  | QByModel _ => result query_error (list ModelTotal)
  | QByRun _ | QByAgent _ => result query_error (list AttributionTotal)
  end.
Abbreviation QM := (prog qreply).

(** ** GET /finops/runs/{run_id} *)

Inductive run_cost_answer :=
| CostUnauthenticated
| CostFailed (e : query_error)
| NoSuchRunHere (runID : string)
| RunCost (r : runCostResponse).
Definition run_cost_status (r : run_cost_answer) : Z :=
  match r with CostUnauthenticated => 401 | CostFailed _ => 500 | NoSuchRunHere _ => 404 | RunCost _ => 200 end.

Definition cost_of (runID : string) (spend : RunSpend) : runCostResponse :=
  {| rc_RunID := runID;
     rc_CostUSD := if (0 <? PricedCalls spend)%Z || negb (feqb (DiscardedCostUSD spend) f_zero)
                   then Some (rs_CostUSD spend) else None;
     rc_ModelCalls := ModelCalls spend; rc_PricedCalls := PricedCalls spend; rc_UnpricedCalls := UnpricedCalls spend;
     rc_DiscardedCalls := DiscardedCalls spend; rc_DiscardedCostUSD := DiscardedCostUSD spend;
     rc_PromptTokens := rs_PromptTokens spend; rc_CompletionTokens := rs_CompletionTokens spend;
     rc_Tokens := Tokens spend; rc_UnreportedUsageCalls := UnreportedUsageCalls spend;
     rc_DistinctModels := DistinctModels spend |}.
Definition showRunCost (caller : option Caller) (runID : string) : QM run_cost_answer :=
  match caller with
  | None => mret CostUnauthenticated
  | Some c =>
      spend ← ask (R := qreply) (QSpend (Tenant c) runID);
      match spend : result query_error RunSpend with
      | Err e => mret (CostFailed e)
      | Ok spend =>
          if (ModelCalls spend =? 0)%Z && (DiscardedCalls spend =? 0)%Z then
            known ← ask (R := qreply) (QKnown (Tenant c) runID);
            mret (match known : result query_error bool with
                  | Err e => CostFailed e
                  | Ok known => if known then RunCost (cost_of runID spend) else NoSuchRunHere runID
                  end)
          else mret (RunCost (cost_of runID spend))
      end
  end.

(** ** GET /finops/costs *)

Section page.
Context (print_f4 : float64 → string).   (** %.4f *)

Definition costPhrase (usd : option float64) : string :=
  match usd with None => "none of it priced" | Some v => "$" +:+ print_f4 v end.
Definition costCell (usd : option float64) : string :=
  match usd with None => "&mdash;" | Some v => print_f4 v end.
Definition orUnknown (s : option string) : string :=
  match s with None => "unknown" | Some s => if sempty s then "unknown" else s end.

Definition cells (l : list string) : string := str_join "" ((λ c, "<td>" +:+ c +:+ "</td>") <$> l).
Definition heads (l : list string) : string := str_join "" ((λ c, "<th>" +:+ c +:+ "</th>") <$> l).
Definition table_row (l : list string) : string := "<tr>" +:+ cells l +:+ "</tr>".

Definition model_row (t : ModelTotal) : string :=
  let '(provider, model, cost_model) := mt_Key t in
  table_row [EscapeString provider; EscapeString model; EscapeString (orUnknown cost_model); pretty (mt_CallCount t);
             costCell (mt_TotalCostUSD t); pretty (mt_UnpricedCalls t); pretty (mt_PromptTokens t);
             pretty (mt_CompletionTokens t); pretty (mt_DiscardedCalls t)].
Definition named_row (t : AttributionTotal) : list string :=
  match at_Key t with
  | None => []
  | Some key => [table_row [EscapeString key; pretty (at_CallCount t); pretty (at_DistinctModels t);
                            costCell (at_TotalCostUSD t); pretty (at_UnpricedCalls t); pretty (at_PromptTokens t);
                            pretty (at_CompletionTokens t); pretty (at_DiscardedCalls t)]]
  end.
(** The last group without a key, and the groups with one. *)
Definition unattributed (totals : list AttributionTotal) : option AttributionTotal :=
  last (List.filter (λ t, is_null (at_Key t)) totals).
Definition named (totals : list AttributionTotal) : list AttributionTotal :=
  List.filter (λ t, negb (is_null (at_Key t))) totals.
Definition writeAttribution (heading keyLabel : string) (totals : list AttributionTotal) : string :=
  line ("<h1>" +:+ EscapeString heading +:+ "</h1>") +:+
  match totals with
  | [] => line "<p>no cost events recorded yet</p>"
  | _ =>
      match named totals with
      | [] => line ("<p>no call has named a " +:+ EscapeString keyLabel +:+ " yet</p>")
      | rows =>
          lines (["<table><tr>" +:+ heads [EscapeString keyLabel; "calls"; "models"; "total cost (USD)"; "unpriced calls";
                                           "prompt tokens"; "completion tokens"; "discarded attempts"] +:+ "</tr>"] ++
                 (rows ≫= named_row) ++ ["</table>"])%list
      end +:+
      match unattributed totals with
      | None => ""
      | Some t => line ("<p>" +:+ pretty (at_CallCount t) +:+ " call(s) named no " +:+ EscapeString keyLabel +:+
                        " and are not in the table above — their cost is real and attributed to nobody, so every figure here is a lower bound (" +:+
                        costPhrase (at_TotalCostUSD t) +:+ " so far).</p>")
      end
  end.

(** The three running figures of the table of models. *)
Record figures := { grandTotalUSD : float64; unpricedCalls : Z; discardedCalls : Z }.
Definition add_model (s : figures) (t : ModelTotal) : figures :=
  {| grandTotalUSD := match mt_TotalCostUSD t with Some c => fadd (grandTotalUSD s) c | None => grandTotalUSD s end;
     unpricedCalls := wrap64 (unpricedCalls s + mt_UnpricedCalls t);
     discardedCalls := wrap64 (discardedCalls s + mt_DiscardedCalls t) |}.
Definition figures_of (totals : list ModelTotal) : figures :=
  foldl add_model {| grandTotalUSD := f_zero; unpricedCalls := 0; discardedCalls := 0 |} totals.

Definition total_sentence (f : figures) : string :=
  if (0 <? unpricedCalls f)%Z
  then line ("<p>Total of priced calls: $" +:+ print_f4 (grandTotalUSD f) +:+ " — plus " +:+ pretty (unpricedCalls f) +:+
             " call(s) whose cost is unknown, not zero</p>")
  else line ("<p>Total: $" +:+ print_f4 (grandTotalUSD f) +:+ "</p>").
Definition discarded_sentence (f : figures) : string :=
  if (0 <? discardedCalls f)%Z
  then line ("<p>Of that, " +:+ pretty (discardedCalls f) +:+
             " attempt(s) were generated, billed and discarded: their answer was unusable and another candidate served instead. The tokens are real and are included above.</p>")
  else "".
Definition model_heads : list string :=
  ["provider"; "model"; "cost_model"; "calls"; "total cost (USD)"; "unpriced calls"; "prompt tokens"; "completion tokens";
   "discarded attempts"].
Definition page (totals : list ModelTotal) (byRun byAgent : list AttributionTotal) : string :=
  lines ["<!doctype html>";
         "<html><head><meta charset=" +:+ dquote +:+ "utf-8" +:+ dquote +:+ "><title>Aeon FinOps — cost per model, run and agent</title></head>";
         "<body>"; "<h1>Cost per model</h1>"] +:+
  match totals with
  | [] => lines ["<p>no cost events recorded yet</p>"; "</body></html>"]
  | _ =>
      line ("<table><tr>" +:+ heads model_heads +:+ "</tr>") +:+ lines (model_row <$> totals) +:+ line "</table>" +:+
      total_sentence (figures_of totals) +:+ discarded_sentence (figures_of totals) +:+
      writeAttribution "Cost per run" "run" byRun +:+ writeAttribution "Cost per agent" "agent_manifest_ref" byAgent +:+
      line "</body></html>"
  end.

Inductive costs_answer := CostsUnauthenticated | CostsFailed (e : query_error) | CostsPage (html : string).
Definition showCosts (caller : option Caller) : QM costs_answer :=
  match caller with
  | None => mret CostsUnauthenticated
  | Some c =>
      totals ← ask (R := qreply) (QByModel (Tenant c));
      match totals : result query_error (list ModelTotal) with
      | Err e => mret (CostsFailed e)
      | Ok totals =>
          byRun ← ask (R := qreply) (QByRun (Tenant c));
          match byRun : result query_error (list AttributionTotal) with
          | Err e => mret (CostsFailed e)
          | Ok byRun =>
              byAgent ← ask (R := qreply) (QByAgent (Tenant c));
              mret (match byAgent : result query_error (list AttributionTotal) with
                    | Err e => CostsFailed e
                    | Ok byAgent => CostsPage (page totals byRun byAgent)
                    end)
          end
      end
  end.
End page.

(** ** The queries over one state of the database *)

Section answers.
Context `{Postgres, SqlOrder}.

Definition or_refused {A} (v : option A) : result query_error A :=
  match v with Some a => Ok a | None => Err (TotalsQuery "value out of range: overflow") end.
Definition qserve (table : list cost_row) (journal : CheckpointStore.table) (c : qcall) : qreply c :=
  match c return qreply c with
  | QSpend tenant run => match SpendForRun (FinopsLedger.run_rows table tenant run) with Err e => Err (SpendQuery e) | Ok s => Ok s end
  | QKnown tenant run => match KnownRun tenant false run journal with Err e => Err (JournalQuery e) | Ok b => Ok b end
  | QByModel tenant => or_refused (TotalsByModel (tenant_rows table tenant))
  | QByRun tenant => or_refused (TotalsByRun (tenant_rows table tenant))
  | QByAgent tenant => or_refused (TotalsByAgent (tenant_rows table tenant))
  end.
End answers.

(** ** The answer is the ledger's *)


Lemma count_if_bounds p rows : (0 ≤ count_if p rows ≤ Z.of_nat (length rows))%Z.
Proof. induction rows as [|r rows IH]; [done|]. unfold count_if in *. simpl. destruct (p r); lia. Qed.
Lemma count_if_split p rows : (count_if p rows + count_if (λ r, negb (p r)) rows = Z.of_nat (length rows))%Z.
Proof. induction rows as [|r rows IH]; [done|]. unfold count_if in *. simpl. destruct (p r); simpl; lia. Qed.
Lemma count_if_zero p rows : count_if p rows = 0%Z ↔ ∀ r, r ∈ rows → p r = false.
Proof.
  induction rows as [|r rows IH]; [set_solver|]. pose proof (count_if_bounds p rows).
  unfold count_if in *. simpl. split.
  - intros Hz r' [->|Hr]%elem_of_cons; [destruct (p r); [lia|done]|]. apply IH; [|done]. destruct (p r); lia.
  - intros Hall. rewrite (Hall r) by (by left). simpl. apply IH. intros r' Hr'. apply Hall. by right.
Qed.

Lemma no_calls_no_rows rows s :
  SpendForRun rows = Ok s → ((ModelCalls s =? 0)%Z && (DiscardedCalls s =? 0)%Z = true ↔ rows = []).
Proof.
  intros (_ & -> & -> & _)%SpendForRun_ok. rewrite andb_true_iff, !Z.eqb_eq.
  pose proof (count_if_split served rows). split; [|by intros ->]. intros [H1 H2]. apply length_zero_iff_nil. lia.
Qed.

Section routes.
Context `{Postgres, SqlOrder}.

(** What a run has cost, over one state of the database: an unauthenticated request
    is refused; a run the ledger has rows of is answered with their sums; a run without
    rows is answered with zeros when the journal knows it and as no such run when it
    does not; a failing sum is an error. In an answer the priced and unpriced calls add
    up to the calls, and there is no cost exactly when no served call was priced and the
    discarded attempts cost nothing. *)
Theorem run_cost_is_the_ledgers table journal c run :
  let rows := FinopsLedger.run_rows table (Tenant c) run in
  let answer := answered_by (qserve table journal) (showRunCost (Some c) run) in
  answered_by (qserve table journal) (showRunCost None run) = CostUnauthenticated ∧
  match SpendForRun rows with
  | Err e => answer = CostFailed (SpendQuery e)
  | Ok s =>
      answer = (if decide (rows = []) then
                  match KnownRun (Tenant c) false run journal with
                  | Err e => CostFailed (JournalQuery e)
                  | Ok known => if known then RunCost (cost_of run s) else NoSuchRunHere run
                  end
                else RunCost (cost_of run s)) ∧
      (rc_PricedCalls (cost_of run s) + rc_UnpricedCalls (cost_of run s) = rc_ModelCalls (cost_of run s))%Z ∧
      (rc_CostUSD (cost_of run s) = None ↔
         (∀ r, r ∈ rows → served r = true → cr_cost r = None) ∧ feqb (rc_DiscardedCostUSD (cost_of run s)) f_zero = true)
  end.
Proof.
  intros rows answer. split; [done|]. destruct (SpendForRun rows) as [s|e] eqn:Hs.
  2: { unfold answer, showRunCost. cbn [mbind prog_bind]. unfold answered_by. simpl. fold rows. by rewrite Hs. }
  split_and!.
  - unfold answer, showRunCost. unfold answered_by. simpl. fold rows. rewrite Hs. simpl.
    pose proof (no_calls_no_rows rows s Hs) as Hno. destruct ((ModelCalls s =? 0)%Z && (DiscardedCalls s =? 0)%Z).
    + rewrite decide_True by (by apply Hno). simpl. by destruct (KnownRun _ _ _ _) as [[]|].
    + by rewrite decide_False by (intros H1; by apply Hno in H1).
  - cbn. apply SpendForRun_ok in Hs as (_ & -> & _ & -> & -> & _). rewrite count_if_add. apply zsum_ext.
    intros r _. unfold unpriced. by destruct (is_null _), (served r).
  - cbn. apply SpendForRun_ok in Hs as (_ & _ & _ & _ & -> & _).
    pose proof (count_if_bounds (λ r, negb (is_null (cr_cost r)) && served r) rows) as Hb.
    pose proof (count_if_zero (λ r, negb (is_null (cr_cost r)) && served r) rows) as Hz.
    assert ((∀ r, r ∈ rows → negb (is_null (cr_cost r)) && served r = false) ↔
            (∀ r, r ∈ rows → served r = true → cr_cost r = None)) as Heq.
    { split; intros Hall r Hr; specialize (Hall r Hr); destruct (cr_cost r), (served r); naive_solver. }
    rewrite <- Heq, <- Hz. destruct (Z.ltb_spec 0 (count_if (λ r, negb (is_null (cr_cost r)) && served r) rows)); simpl.
    + split; [done|]. intros [? _]. lia.
    + destruct (feqb _ _); simpl; split; try done. intros _. split; [lia|done]. by intros [_ ?].
Qed.
End routes.

(** ** Costs stay in their tenant *)

Definition about_tenant (tenant : string) (c : qcall) : Prop :=
  match c with QSpend t _ | QKnown t _ | QByModel t | QByRun t | QByAgent t => t = tenant end.
Lemma run_rows_of_tenant table tenant run :
  FinopsLedger.run_rows table tenant run = List.filter (λ r, bool_decide (cr_run r = Some run)) (tenant_rows table tenant).
Proof. unfold FinopsLedger.run_rows, tenant_rows. by rewrite filter_filter_and. Qed.

Section tenant.
Context `{Postgres, SqlOrder}.

Lemma showRunCost_within c run : within (about_tenant (Tenant c)) (showRunCost (Some c) run).
Proof.
  apply within_vis; [done|]. intros [s|e]; [|apply within_ret]. cbn [prog_bind].
  destruct (_ && _); [|apply within_ret]. apply within_vis; [done|]. intros r. apply within_ret.
Qed.
Lemma showCosts_within print c : within (about_tenant (Tenant c)) (showCosts print (Some c)).
Proof.
  apply within_vis; [done|]. intros [s|e]; [|apply within_ret]. cbn [prog_bind].
  apply within_vis; [done|]. intros [s'|e]; [|apply within_ret]. cbn [prog_bind].
  apply within_vis; [done|]. intros r. apply within_ret.
Qed.

(** What a caller is shown of costs is a function of its own tenant's ledger rows
    and journal entries: two databases that agree on those answer alike, whatever any
    other tenant has spent, for the run route and the dashboard. *)
Theorem costs_stay_in_their_tenant print table table' journal journal' c run :
  tenant_rows table (Tenant c) = tenant_rows table' (Tenant c) →
  (∀ run, CheckpointStore.run_rows journal (Tenant c) run = CheckpointStore.run_rows journal' (Tenant c) run) →
  answered_by (qserve table journal) (showRunCost (Some c) run) =
    answered_by (qserve table' journal') (showRunCost (Some c) run) ∧
  answered_by (qserve table journal) (showCosts print (Some c)) =
    answered_by (qserve table' journal') (showCosts print (Some c)).
Proof.
  intros Ht Hj.
  assert (∀ q, about_tenant (Tenant c) q → qserve table journal q = qserve table' journal' q) as Hq.
  { intros [t r|t r|t|t|t] Hq; cbn in Hq; subst t; unfold qserve; rewrite ?run_rows_of_tenant, ?Ht; try done.
    unfold KnownRun. by rewrite Hj. }
  split; eapply answered_by_ext; eauto using showRunCost_within, showCosts_within.
Qed.
End tenant.

(** ** What the dashboard says of its own figures *)

Lemma figures_sums totals s :
  (∀ t, t ∈ totals → 0 ≤ mt_UnpricedCalls t ∧ 0 ≤ mt_DiscardedCalls t)%Z →
  (0 ≤ unpricedCalls s ∧ 0 ≤ discardedCalls s)%Z →
  (unpricedCalls s + zsum mt_UnpricedCalls totals < 2 ^ 63)%Z → (discardedCalls s + zsum mt_DiscardedCalls totals < 2 ^ 63)%Z →
  unpricedCalls (foldl add_model s totals) = (unpricedCalls s + zsum mt_UnpricedCalls totals)%Z ∧
  discardedCalls (foldl add_model s totals) = (discardedCalls s + zsum mt_DiscardedCalls totals)%Z.
Proof.
  revert s. induction totals as [|t totals IH]; intros s Hpos [Hu Hd] Hbu Hbd; [cbn; lia|].
  pose proof (Hpos t (list_elem_of_here _ _)) as [Htu Htd].
  assert (∀ t0, t0 ∈ totals → 0 ≤ mt_UnpricedCalls t0 ∧ 0 ≤ mt_DiscardedCalls t0)%Z as Hpos'.
  { intros t0 Ht0. apply Hpos. by right. }
  pose proof (zsum_nonneg mt_UnpricedCalls totals (λ t0 H, proj1 (Hpos' t0 H))).
  pose proof (zsum_nonneg mt_DiscardedCalls totals (λ t0 H, proj2 (Hpos' t0 H))).
  change (zsum ?f (t :: totals)) with (f t + zsum f totals)%Z in *. cbn [foldl].
  assert (unpricedCalls (add_model s t) = unpricedCalls s + mt_UnpricedCalls t)%Z as E1.
  { cbn. apply wrap64_id. unfold in_int64, int64_min, int64_max. apply andb_true_iff. rewrite !Z.leb_le. lia. }
  assert (discardedCalls (add_model s t) = discardedCalls s + mt_DiscardedCalls t)%Z as E2.
  { cbn. apply wrap64_id. unfold in_int64, int64_min, int64_max. apply andb_true_iff. rewrite !Z.leb_le. lia. }
  destruct (IH (add_model s t)) as [-> ->]; [done|rewrite ?E1, ?E2; lia..|]. rewrite E1, E2. lia.
Qed.

Section dashboard.
Context `{SqlOrder}.

Lemma model_totals_count rows totals t :
  TotalsByModel rows = Some totals → t ∈ totals → (0 ≤ mt_UnpricedCalls t ∧ 0 ≤ mt_DiscardedCalls t)%Z.
Proof.
  intros (ts & Hm & Hp)%TotalsByModel_spec Ht. rewrite Hp in Ht. apply mapM_Some_1 in Hm.
  destruct (Forall2_elem_r _ _ _ _ Hm Ht) as (g & _ & Hg). apply model_total_fields in Hg as (_ & _ & -> & -> & _).
  split; apply count_if_bounds.
Qed.

(** The dashboard's figures are the ledger's: the unpriced calls and discarded
    attempts it states are those of the tenant's rows, and it calls its total exact
    precisely when every served call has a price. A discarded attempt without a price
    does not count: the total is still stated as exact. *)
Theorem dashboard_figures_are_the_ledgers print rows totals :
  TotalsByModel rows = Some totals → (Z.of_nat (length rows) < 2 ^ 63)%Z →
  unpricedCalls (figures_of totals) = count_if unpriced rows ∧
  discardedCalls (figures_of totals) = count_if (λ r, negb (served r)) rows ∧
  (total_sentence print (figures_of totals) = line ("<p>Total: $" +:+ print (grandTotalUSD (figures_of totals)) +:+ "</p>") ↔
     ∀ r, r ∈ rows → served r = true → cr_cost r ≠ None).
Proof.
  intros Ht Hlen. pose proof (model_counters_spec _ _ Ht) as [Hc _]. unfold model_counters, counters in Hc.
  injection Hc as _ Hd Hu _ _.
  destruct (figures_sums totals {| grandTotalUSD := f_zero; unpricedCalls := 0; discardedCalls := 0 |}) as [E1 E2].
  { intros t. by eapply model_totals_count. }
  { done. }
  { cbn. rewrite Hu. pose proof (count_if_bounds unpriced rows). lia. }
  { cbn. rewrite Hd. pose proof (count_if_bounds (λ r, negb (served r)) rows). lia. }
  change (foldl _ _ totals) with (figures_of totals) in E1, E2. cbn in E1, E2. rewrite Z.add_0_l in E1, E2. rewrite Hu in E1. rewrite Hd in E2.
  split_and!; [done|done|]. unfold total_sentence. rewrite E1.
  pose proof (count_if_bounds unpriced rows) as Hb. pose proof (count_if_zero unpriced rows) as Hz.
  assert ((∀ r, r ∈ rows → unpriced r = false) ↔ (∀ r, r ∈ rows → served r = true → cr_cost r ≠ None)) as <-.
  { unfold unpriced. split; intros Hall r Hr; specialize (Hall r Hr); destruct (cr_cost r), (served r); naive_solver. }
  rewrite <- Hz. destruct (Z.ltb_spec 0 (count_if unpriced rows)); [|split; [intros _; lia|intros _; reflexivity]].
  split; [|lia]. intros Heq%(f_equal (take_str 9)). exfalso. lazy in Heq. discriminate Heq.
Qed.

(** Every group of an attribution is on the page: those with a key as the rows of the
    table, in order, and the one without in the sentence below it. *)
Lemma attribution_partition (totals : list AttributionTotal) :
  NoDup (at_Key <$> totals) → totals ≡ₚ (named totals ++ option_list (unattributed totals))%list.
Proof.
  unfold named, unattributed. induction totals as [|t totals IH]; [done|]. rewrite fmap_cons, NoDup_cons. intros [Hn Hnd].
  specialize (IH Hnd). cbn [List.filter]. destruct (at_Key t) as [k|] eqn:Hk; cbn [is_null negb].
  - cbn [List.app]. by rewrite IH at 1.
  - assert (List.filter (λ t, is_null (at_Key t)) totals = []) as Hnil.
    { destruct (List.filter (λ t, is_null (at_Key t)) totals) as [|u l] eqn:Hf; [done|]. exfalso. apply Hn.
      assert (In u (List.filter (λ t, is_null (at_Key t)) totals)) as [Hin Hu]%filter_In by (rewrite Hf; by left).
      apply list_elem_of_fmap. exists u. split; [by destruct (at_Key u)|by apply list_elem_of_In]. }
    rewrite Hnil in *. cbn in *. rewrite app_nil_r in IH. rewrite <- IH. apply Permutation_cons_append.
Qed.
Lemma named_in_order totals t : t ∈ named totals ↔ t ∈ totals ∧ is_Some (at_Key t).
Proof.
  unfold named. rewrite !list_elem_of_In, filter_In. destruct (at_Key t); cbn; [|split; [by intros [_ ?]|by intros [_ [? ?]]]].
  split; [intros [? _]; eauto|by intros [? _]].
Qed.

(** No call is missing from an attribution: the calls of its rows and of the
    sentence about unnamed calls are together the served calls of the tenant's rows, and
    the same holds of the discarded attempts; a table by run is one row per run named. *)
Theorem attribution_covers_every_call print column rows ts :
  totalsByAttribution column rows = Some ts →
  let unnamed := option_list (unattributed ts) in
  (zsum at_CallCount (named ts) + zsum at_CallCount unnamed = count_if served rows)%Z ∧
  (zsum at_DiscardedCalls (named ts) + zsum at_DiscardedCalls unnamed = count_if (λ r, negb (served r)) rows)%Z ∧
  NoDup (at_Key <$> named ts) ∧ length (named ts ≫= named_row print) = length (named ts).
Proof.
  intros Ht unnamed. destruct (attribution_counters_spec _ _ _ Ht) as [Hc Hnd]. pose proof (attribution_partition ts Hnd) as Hp.
  unfold attribution_counters, counters in Hc. injection Hc as Hcalls Hdisc _ _ _.
  rewrite <- Hcalls, <- Hdisc. split_and!.
  - rewrite <- zsum_app. symmetry. by apply zsum_perm.
  - rewrite <- zsum_app. symmetry. by apply zsum_perm.
  - rewrite Hp in Hnd. rewrite fmap_app in Hnd. by apply NoDup_app in Hnd as [? _].
  - clear. induction ts as [|t ts IH]; [done|]. unfold named in *. cbn [List.filter].
    destruct (at_Key t) as [k|] eqn:Hk; cbn [is_null negb]; [|exact IH].
    cbn [mbind list_bind]. rewrite length_app. unfold named_row at 1. rewrite Hk. cbn [length plus]. f_equal. exact IH.
Qed.
End dashboard.

(** ** The ledger of two tenants *)

Module FinopsPageWitnesses.
Import LedgerWitnesses.
#[local] Existing Instance verbatim_postgres.
#[local] Existing Instance sorted_sql.

Definition anna : Caller :=
  {| ID := "anna"; Kind := KindHuman; TokenSHA256 := ""; MayActAs := []; MayApprove := false; Tenant := "t";
     MayActForTenants := [] |}.
Definition print (f : float64) : string := "0".
(** Another tenant's run of the same name. *)
Definition other_row : cost_row := row_of "u" (entry "m" "r" "" 1 1 (Some (f_of_Z 9))).

Example run_without_price :
  answered_by (qserve [row_of "t" (entry "m" "free" "empty" 1 1 (Some f_zero))] ∅) (showRunCost (Some anna) "free") =
  RunCost {| rc_RunID := "free"; rc_CostUSD := None; rc_ModelCalls := 0; rc_PricedCalls := 0; rc_UnpricedCalls := 0;
             rc_DiscardedCalls := 1; rc_DiscardedCostUSD := f_zero; rc_PromptTokens := 1; rc_CompletionTokens := 1;
             rc_Tokens := 2; rc_UnreportedUsageCalls := 0; rc_DistinctModels := 1 |}.
Proof. vm_compute. reflexivity. Qed.
Example unknown_run : answered_by (qserve toy_table ∅) (showRunCost (Some anna) "typo") = NoSuchRunHere "typo".
Proof. vm_compute. reflexivity. Qed.

Lemma costs_stay_in_their_tenant_witness :
  answered_by (qserve toy_table ∅) (showRunCost (Some anna) "r") =
    answered_by (qserve (other_row :: toy_table) ∅) (showRunCost (Some anna) "r") ∧
  answered_by (qserve toy_table ∅) (showCosts print (Some anna)) =
    answered_by (qserve (other_row :: toy_table) ∅) (showCosts print (Some anna)).
Proof. apply (costs_stay_in_their_tenant print toy_table (other_row :: toy_table) ∅ ∅ anna "r"); reflexivity. Defined.

(** One priced call, and a discarded attempt nobody knows the price of. *)
Definition half_known : list cost_row :=
  [row_of "t" (entry "m" "r" "" 10 20 (Some (f_const 1 4))); row_of "t" (entry "m" "r" "empty" 7 1 None)].
Definition half_totals : list ModelTotal := default [] (TotalsByModel half_known).
Lemma dashboard_figures_are_the_ledgers_witness :
  total_sentence print (figures_of half_totals) = line ("<p>Total: $" +:+ "0" +:+ "</p>") ∧
  unpricedCalls (figures_of half_totals) = 0%Z ∧ discardedCalls (figures_of half_totals) = 1%Z.
Proof.
  destruct (dashboard_figures_are_the_ledgers print half_known half_totals ltac:(by vm_compute) ltac:(by vm_compute)) as (-> & -> & Hs).
  split; [|by vm_compute]. apply Hs. intros r Hr. unfold half_known in Hr.
  apply elem_of_cons in Hr as [->|Hr]; [done|]. apply list_elem_of_singleton in Hr as ->. done.
Defined.

Lemma attribution_covers_every_call_witness :
  (zsum at_CallCount (named toy_by_run) + zsum at_CallCount (option_list (unattributed toy_by_run)) = 3)%Z ∧
  length (named toy_by_run ≫= named_row print) = 1%nat.
Proof.
  destruct toy_totals as (_ & Hr & _).
  destruct (attribution_covers_every_call print cr_run toy_table toy_by_run Hr) as (Hc & _ & _ & Hl).
  split; [rewrite Hc; by vm_compute|rewrite Hl; by vm_compute].
Defined.
End FinopsPageWitnesses.
