(* ===== verification/Quality.v ===== *)
(** * Quality scores and the routing they gate

    go/internal/store/quality_scores.go, its routes in
    go/internal/api/quality_score_handlers.go, and the gate they are to the model gateway.
    One row per provider and model, shared by every tenant: the last report stands. *)

From S2P Require Import Prelude GoValue Json Program ModelGateway.

Local Open Scope string_scope.
Set Default Proof Using "Type*".

Record QualityScore := { qs_Score : float64; qs_Suite : string; qs_UpdatedAt : Z }.
Abbreviation qkey := (string * string)%type.
Abbreviation qtable := (gmap qkey QualityScore).

Inductive scall :=
| QUpsert (k : qkey) (suite : string) (score : float64)
| QSelect (k : qkey)
| QSelectAll.
Definition sreply (c : scall) : Type :=
  match c with
  | QUpsert _ _ _ => result dberr ()
  | QSelect _ => result dberr (option QualityScore)
  | QSelectAll => result dberr (list (qkey * QualityScore))
  end.
Abbreviation SM := (prog sreply).

Inductive quality_error := Reporting (e : dberr) | Fetching (e : dberr) | QNotFound | Listing (e : dberr).

Definition Report (provider model suite : string) (score : float64) : SM (result quality_error ()) :=
  r ← ask (R := sreply) (QUpsert (provider, model) suite score);
  mret (match r : result dberr () with Err e => Err (Reporting e) | Ok _ => Ok tt end).
Definition Get_ (provider model : string) : SM (result quality_error QualityScore) :=
  r ← ask (R := sreply) (QSelect (provider, model));
  mret (match r : result dberr (option QualityScore) with
        | Err e => Err (Fetching e) | Ok None => Err QNotFound | Ok (Some s) => Ok s end).
Definition List_ : SM (result quality_error (list (qkey * QualityScore))) :=
  r ← ask (R := sreply) QSelectAll;
  mret (match r : result dberr (list (qkey * QualityScore)) with Err e => Err (Listing e) | Ok l => Ok l end).
Definition IsDegraded (threshold : float64) (provider model : string) : SM bool :=
  score ← Get_ provider model;
  mret (match score : result quality_error QualityScore with
        | Err _ => false
        | Ok s => fltb (qs_Score s) threshold
        end).

(** ** The routes *)

Record reportQualityScoreRequest := { rq_Provider : string; rq_Model : string; rq_Suite : string; rq_Score : float64 }.
Inductive quality_response :=
| QBadBody
| QFieldsRequired
| QFailed (e : quality_error)
| QReported (rq : reportQualityScoreRequest)
| QScores (l : list (qkey * QualityScore)).
Definition quality_status (r : quality_response) : Z :=
  match r with QBadBody | QFieldsRequired => 400 | QFailed _ => 500 | QReported _ | QScores _ => 200 end.
Definition report (body : option reportQualityScoreRequest) : SM quality_response :=
  match body with
  | None => mret QBadBody
  | Some b =>
      if sempty (rq_Provider b) || sempty (rq_Model b) || sempty (rq_Suite b) then mret QFieldsRequired else
      r ← Report (rq_Provider b) (rq_Model b) (rq_Suite b) (rq_Score b);
      mret (match r : result quality_error () with Err e => QFailed e | Ok _ => QReported b end)
  end.
Definition list_scores : SM quality_response :=
  r ← List_; mret (match r : result quality_error (list (qkey * QualityScore)) with Err e => QFailed e | Ok l => QScores l end).

(** ** The table *)

Section table.
Context `{Postgres}.

Definition sql_upsert (now : Z) (t : qtable) (k : qkey) (suite : string) (score : float64) : result refusal (qtable * ()) :=
  if text_ok k.1 && text_ok k.2 && text_ok suite
  then Ok (<[k := {| qs_Score := score; qs_Suite := suite; qs_UpdatedAt := now |}]> t, tt) else Err Refused.
Definition sql_select (t : qtable) (k : qkey) : result refusal (qtable * option QualityScore) :=
  if text_ok k.1 && text_ok k.2 then Ok (t, t !! k) else Err Refused.
(** A statement may fail whatever it says, and may have been done although it failed. *)
Definition ssem (t : qtable) (c : scall) : sreply c → qtable → Prop :=
  match c with
  | QUpsert k suite score => λ r t', ∃ now, stmt t (sql_upsert now t k suite score) r t'
  | QSelect k => stmt t (sql_select t k)
  | QSelectAll => λ r t', t' = t ∧ ∀ l, r = Ok l → NoDup l ∧ ∀ x, x ∈ l ↔ x ∈ map_to_list t
  end.
End table.

(** ** The last report decides *)

Definition gate (threshold : float64) (t : qtable) (provider model : string) : bool :=
  match t !! (provider, model) with Some s => fltb (qs_Score s) threshold | None => false end.
Definition names (provider model : string) (b : reportQualityScoreRequest) : Prop :=
  rq_Provider b = provider ∧ rq_Model b = model.
Definition is_reported (r : quality_response) : bool := match r with QReported _ => true | _ => false end.
Definition exchange : Type := option reportQualityScoreRequest * quality_response.

Section reports.
Context `{Postgres}.

(** The table after some requests, with what each was answered. *)
Inductive handled : qtable → list exchange → Prop :=
| handled_none : handled ∅ []
| handled_report t h body r t' :
    handled t h → alone ssem t (report body) t' r → handled t' (h ++ [(body, r)])%list.

(** One request leaves the table alone or writes its own row; reported means written. *)
Lemma report_effect t body t' r :
  alone ssem t (report body) t' r →
  (t' = t ∧ is_reported r = false) ∨
  ∃ b s, body = Some b ∧ t' = <[(rq_Provider b, rq_Model b) := s]> t ∧ qs_Score s = rq_Score b ∧ qs_Suite s = rq_Suite b.
Proof.
  unfold report. destruct body as [b|]; [|intros [-> ->]; by left].
  destruct (sempty (rq_Provider b) || sempty (rq_Model b) || sempty (rq_Suite b)); [intros [-> ->]; by left|].
  unfold Report. intros (v & t1 & (now & Hs) & [-> ->]).
  destruct (stmt_cases _ _ _ _ Hs) as [->|(u & Hq)].
  - destruct v as [[]|e]; [|by left]. right. apply stmt_ok in Hs. unfold sql_upsert in Hs.
    destruct (_ && _); [|done]. injection Hs as Hs. exists b. eexists. split; [done|]. split; [by symmetry|done].
  - right. unfold sql_upsert in Hq. destruct (_ && _); [|done]. injection Hq as <- _. exists b. eexists. by split_and!.
Qed.

(** What stands for a pair after some requests: nothing, if none reported it; else what
    one of them said, with none reported after it. *)
Definition stands (provider model : string) (h : list exchange) (s : option QualityScore) : Prop :=
  match s with
  | None => ∀ b r, (Some b, r) ∈ h → names provider model b → is_reported r = false
  | Some s => ∃ before b r after, h = (before ++ (Some b, r) :: after)%list ∧ names provider model b ∧
      qs_Score s = rq_Score b ∧ qs_Suite s = rq_Suite b ∧
      ∀ b' r', (Some b', r') ∈ after → names provider model b' → is_reported r' = false
  end.
Lemma stands_snoc p m h s body r :
  stands p m h s → (∀ b, body = Some b → names p m b → is_reported r = false) → stands p m (h ++ [(body, r)])%list s.
Proof.
  intros Hs Hr. assert (∀ b' r', (Some b', r') ∈ [(body, r)] → names p m b' → is_reported r' = false) as Hnew.
  { intros b' r' Hin Hn. apply list_elem_of_singleton in Hin as [= <- <-]. by eapply Hr. }
  destruct s as [s|]; cbn [stands] in *.
  - destruct Hs as (before & b & r0 & after & -> & Hn & Hsc & Hsu & Hafter).
    exists before, b, r0, (after ++ [(body, r)])%list. rewrite <- app_assoc. split_and!; try done.
    intros b' r' [Hin|Hin]%elem_of_app; eauto.
  - intros b' r' [Hin|Hin]%elem_of_app; eauto.
Qed.

(** C34. Whatever requests were handled and whichever statements failed, the score that
    stands for a provider and model is that of one report naming them, after which no
    report naming them was acknowledged; none stands only if none was acknowledged. The
    gate calls a pair degraded only when the standing score is below the threshold, and
    a pair nobody reported, or whose row cannot be read, is not degraded. *)
Theorem last_report_decides t h threshold provider model t' degraded :
  handled t h → alone ssem t (IsDegraded threshold provider model) t' degraded →
  stands provider model h (t !! (provider, model)) ∧ t' = t ∧
  (degraded = gate threshold t provider model ∨ degraded = false).
Proof.
  intros Hh Hd. split.
  - clear Hd. induction Hh as [|t h body r t1 Hh IH Hr]; [change (stands provider model [] None); by intros b r ?%not_elem_of_nil|].
    apply report_effect in Hr as [[-> Hr]|(b & s & -> & -> & Hsc & Hsu)].
    + by apply stands_snoc.
    + destruct (decide ((rq_Provider b, rq_Model b) = (provider, model))) as [Heq|Hne].
      * rewrite Heq, lookup_insert_eq. injection Heq as Hp Hm. exists h, b, r, []. split_and!; try done.
        by intros b' r' ?%not_elem_of_nil.
      * rewrite lookup_insert_ne by done. apply stands_snoc; [done|]. intros b' [= <-] [<- <-]. done.
  - unfold IsDegraded in Hd. apply alone_bind in Hd as (v & t1 & (w & t2 & Hs & [-> ->]) & [-> ->]).
    cbn [ssem] in Hs. assert (t2 = t) as ->.
    { destruct (stmt_cases _ _ _ _ Hs) as [->|(u & Hq)]; [done|]. unfold sql_select in Hq. by destruct (_ && _); simplify_eq. }
    split; [done|]. destruct w as [w|e]; [|by right]. apply stmt_ok in Hs. unfold sql_select in Hs.
    destruct (_ && _); [|done]. injection Hs as <-. unfold gate. left. by destruct (t !! _).
Qed.
End reports.

(** ** Degraded models do not answer *)

Section routing.
Context `{GoRuntime}.
Context (degraded : string → string → bool).

(** The gate's answers in a history are the gate's. *)
Definition gated (t : list {c : mcall & mreply c}) : Prop :=
  ∀ p m (r : mreply (QDegraded p m)), existT (QDegraded p m) r ∈ t → r = degraded p m.
Lemma gated_app t1 t2 : gated (t1 ++ t2)%list → gated t1 ∧ gated t2.
Proof. unfold gated. split; intros p m r Hin; apply H0; apply elem_of_app; auto. Qed.

Definition asked_healthy (t : list {c : mcall & mreply c}) : Prop :=
  ∀ p input r, existT (QDecide p input) r ∈ t → degraded p (as_string (mget input "model")) = false.

Lemma decide_loop_healthy g ctx attempts sorted t res :
  Quality g = true → histories (decide_loop g ctx attempts sorted) t res → gated t →
  asked_healthy t ∧ ∀ d, res = Ok d → degraded (ProviderUsed d) (ModelUsed d) = false.
Proof.
  intros Hq. revert attempts t. induction sorted as [|c rest IH]; intros attempts t; cbn [decide_loop].
  { intros [-> ->] _. split; [by intros p i r ?%not_elem_of_nil|done]. }
  rewrite histories_bind. intros (d & t1 & t2 & -> & Ha & Ht) [Hg1 Hg2]%gated_app.
  unfold ask_degraded in Ha. rewrite Hq in Ha. destruct Ha as (d' & t3 & -> & -> & ->).
  assert (d' = degraded (Provider c) (Model c)) as -> by (apply Hg1; by left).
  assert (∀ a t, histories (decide_loop g ctx (attempts ++ [a])%list rest) t res → gated t →
    asked_healthy (existT (QDegraded (Provider c) (Model c)) (degraded (Provider c) (Model c)) :: t) ∧
    ∀ d, res = Ok d → degraded (ProviderUsed d) (ModelUsed d) = false) as Hskip.
  { intros a t Hh Hg. destruct (IH _ _ Hh Hg) as [Hok Hd]. split; [|done].
    intros p i r [Heq|Hin]%elem_of_cons; [by simplify_eq|eauto]. }
  change ([existT (QDegraded (Provider c) (Model c)) (degraded (Provider c) (Model c))] ++ t2)%list
    with (existT (QDegraded (Provider c) (Model c)) (degraded (Provider c) (Model c)) :: t2).
  destruct (degraded (Provider c) (Model c)) eqn:Hdeg; [by eapply Hskip|].
  destruct (providers g !! Provider c); [|by eapply Hskip].
  destruct (input_for ctx c) as [input dropped] eqn:Hi. apply input_names_model in Hi.
  destruct Ht as (r & t4 & -> & Ht). cbn [prog_bind] in Ht.
  assert (∀ t, asked_healthy (existT (QDegraded (Provider c) (Model c)) false :: t) →
    asked_healthy (existT (QDegraded (Provider c) (Model c)) false :: existT (QDecide (Provider c) input) r :: t)) as Hadd.
  { intros t Ht0 p i r0 [Heq|[Heq|Hin]%elem_of_cons]%elem_of_cons; [by simplify_eq| |apply (Ht0 p i r0); by right].
    injection Heq as -> -> _. by rewrite Hi. }
  assert (gated t4) as Hg4 by (intros p m r0 Hin; apply Hg2; by right).
  destruct r as [output|e].
  2: { destruct (Hskip _ _ Ht Hg4) as [H1 H2]. split; [by apply Hadd|done]. }
  destruct (negb (sempty (emptyAnswer output))).
  { destruct (Hskip _ _ Ht Hg4) as [H1 H2]. split; [by apply Hadd|done]. }
  destruct Ht as [-> ->]. split; [apply Hadd; intros p i r0 [Heq|Hin]%elem_of_cons; [by simplify_eq|by apply not_elem_of_nil in Hin]|].
  by intros d [= <-].
Qed.
End routing.

Section gated.
Context `{GoRuntime, Postgres}.

(** A report reroutes every tenant: once a score below the threshold has been
    acknowledged for a model, whoever sent it, a decision whose gate reads that table
    neither asks nor answers with that model, nor any other whose score is too low. *)
Theorem low_scores_reroute_everyone threshold t b t' g candidates ctx sensitivity log res :
  alone ssem t (report (Some b)) t' (QReported b) → fltb (rq_Score b) threshold = true →
  Quality g = true → histories (Decide g candidates ctx sensitivity) log res → gated (gate threshold t') log →
  asked_healthy (gate threshold t') log ∧
  (∀ d, res = Ok d → gate threshold t' (ProviderUsed d) (ModelUsed d) = false ∧
     (ProviderUsed d, ModelUsed d) ≠ (rq_Provider b, rq_Model b)).
Proof.
  intros Hr Hlow Hq Hlog Hg.
  assert (gate threshold t' (rq_Provider b) (rq_Model b) = true) as Hbad.
  { apply report_effect in Hr as [[_ ?]|(b' & s & [= <-] & -> & Hs & _)]; [done|].
    unfold gate. by rewrite lookup_insert_eq, Hs. }
  unfold Decide in Hlog. destruct (restrictPool candidates sensitivity) as [pool|e].
  2: { destruct Hlog as [-> ->]. split; [by intros p i r ?%not_elem_of_nil|done]. }
  apply decide_loop_healthy with (degraded := gate threshold t') in Hlog as [Hask Hd]; [|done|done].
  split; [done|]. intros d ->. specialize (Hd d eq_refl). split; [done|]. intros [= Hp Hm]. rewrite Hp, Hm in Hd. congruence.
Qed.
End gated.

(** ** One report, and a decision after it *)

Module QualityWitnesses.
#[local] Existing Instance verbatim_postgres.
#[local] Existing Instance amd64_runtime.

Definition half : float64 := f_const 1 2.
Definition bad_news : reportQualityScoreRequest :=
  {| rq_Provider := "a"; rq_Model := "m"; rq_Suite := "conformance"; rq_Score := f_const 1 10 |}.
Definition scores : qtable :=
  {[("a", "m") := {| qs_Score := f_const 1 10; qs_Suite := "conformance"; qs_UpdatedAt := 7 |}]}.
Lemma reported_alone : alone ssem ∅ (report (Some bad_news)) scores (QReported bad_news).
Proof.
  exists (Ok tt), scores. split; [|done]. exists 7%Z. left. exists tt. split; [|by left]. vm_compute. done.
Qed.
Lemma gate_alone : alone ssem scores (IsDegraded half "a" "m") scores true.
Proof. exists (Ok (scores !! ("a", "m"))), scores. split; [|by vm_compute]. left. eexists. split; [|by left]. by vm_compute. Qed.

Lemma last_report_decides_witness :
  stands "a" "m" [(Some bad_news, QReported bad_news)] (scores !! ("a", "m")) ∧ scores = scores ∧
  (true = gate half scores "a" "m" ∨ true = false).
Proof.
  apply (last_report_decides scores [(Some bad_news, QReported bad_news)] half "a" "m" scores true).
  - exact (handled_report ∅ [] (Some bad_news) (QReported bad_news) scores handled_none reported_alone).
  - exact gate_alone.
Defined.

Definition cand (provider : string) (priority : Z) : Candidate :=
  {| Provider := provider; Model := "m"; Priority := priority; InNetwork := false |}.
Definition gateway : Gateway := {| providers := {["a" := false; "b" := false]}; Quality := true |}.
Definition answer : gmap string any :=
  obj [("choices", AList [AMap (obj [("message", AMap (obj [("content", AString "hi")]))])])].
Definition mserve (w : ()) (c : mcall) : () * mreply c :=
  (tt, match c return mreply c with
       | QDegraded p m => gate half scores p m
       | QDecide _ _ => Ok (Some answer)
       | QStream _ _ => SEnd None
       | QYield _ => None
       | QStart _ => tt
       end).
Definition decided := run_log mserve tt (Decide gateway [cand "a" 0; cand "b" 1] None "").
Lemma decided_history : histories (Decide gateway [cand "a" 0; cand "b" 1] None "") decided.1.2 decided.2.
Proof. exact (run_log_histories mserve (Decide gateway [cand "a" 0; cand "b" 1] None "") tt). Qed.
Definition answered_so (x : {c : mcall & mreply c}) : Prop :=
  match x with existT (QDegraded p m) r => r = gate half scores p m | _ => True end.
Lemma served_so {A} (m : prog mreply A) x : x ∈ (run_log mserve tt m).1.2 → answered_so x.
Proof.
  induction m as [a|c k IH]; cbn [run_log]; [by intros ?%not_elem_of_nil|].
  destruct (mserve tt c) as [[] v] eqn:Hv. specialize (IH v). destruct (run_log mserve tt (k v)) as [[w l] a].
  intros [->|Hin]%elem_of_cons; [|by apply IH]. unfold mserve in Hv. injection Hv as <-. by destruct c.
Qed.
Lemma served_gated {A} (m : prog mreply A) : gated (gate half scores) (run_log mserve tt m).1.2.
Proof. intros p q r Hin. exact (served_so m _ Hin). Qed.
Example served_by_b : match decided.2 with Ok d => ProviderUsed d = "b" | Err _ => False end.
Proof. vm_compute. reflexivity. Qed.
Lemma low_scores_reroute_everyone_witness :
  asked_healthy (gate half scores) decided.1.2 ∧
  (∀ d, decided.2 = Ok d → gate half scores (ProviderUsed d) (ModelUsed d) = false ∧
     (ProviderUsed d, ModelUsed d) ≠ (rq_Provider bad_news, rq_Model bad_news)).
Proof.
  apply (low_scores_reroute_everyone half ∅ bad_news scores gateway [cand "a" 0; cand "b" 1] None "" decided.1.2 decided.2
           reported_alone); [reflexivity|reflexivity|exact decided_history|].
  apply served_gated.
Defined.
End QualityWitnesses.
