(* ===== verification/CheckpointRoutes.v ===== *)
(** * The journal over HTTP

    go/internal/api/checkpoint_handlers.go over the checkpointer of CheckpointStore: one
    entry is appended, a run or sub-run is read back. The journal's table is passed; a
    request is the authenticated caller, the path's run and the decoded body. *)

From S2P Require Import Prelude GoValue Json Auth Checkpoint CheckpointStore.

Local Open Scope string_scope.
Set Default Proof Using "Type*".

Record appendCheckpointRequest := {
  ac_StepID : string;
  ac_SubRunID : string;
  ac_Phase : string;
  ac_Payload : RawMessage;
}.
Record runStateResponse := {
  rs_RunID : string;
  rs_SubRunID : string;
  rs_NextSeq : Z;
  rs_Durability : Durability;
  rs_Records : list Record_;
}.
Inductive checkpoint_response :=
| JournalUnauthenticated
| JournalBadBody
| EntryRefused (e : ValidateError)
| AppendFailed (e : AppendError)
| Appended (status : Z) (res : AppendResult)
| LoadFailed (e : ReadError)
| Loaded (s : runStateResponse).
Definition checkpoint_status (r : checkpoint_response) : Z :=
  match r with
  | JournalUnauthenticated => 401
  | JournalBadBody | EntryRefused _ => 400
  | AppendFailed _ | LoadFailed _ => 500
  | Appended status _ => status
  | Loaded _ => 200
  end.

Definition entry_of (run : string) (b : appendCheckpointRequest) : Entry :=
  {| RunID := run; SubRunID := ac_SubRunID b; StepID := ac_StepID b; EntryPhase := ac_Phase b; Payload := ac_Payload b |}.

Section routes.
Context `{Postgres, GoRuntime}.

Definition append_route (caller : option Caller) (run : string) (body : option appendCheckpointRequest)
    (now : Z) (f : faults) (t : table) : table * checkpoint_response :=
  match caller with
  | None => (t, JournalUnauthenticated)
  | Some c =>
      match body with
      | None => (t, JournalBadBody)
      | Some b =>
          match Validate (entry_of run b) with
          | Err e => (t, EntryRefused e)
          | Ok _ =>
              let '(t', res) := Append (Tenant c) now f (entry_of run b) t in
              (t', match res with
                   | Err e => AppendFailed e
                   | Ok res => Appended (if Duplicate res then 200 else 201) res
                   end)
          end
      end
  end.

(** The sub-run is the query parameter, empty when it is absent. *)
Definition load_route (caller : option Caller) (run sub : string) (f : load_faults) (t : table) : checkpoint_response :=
  match caller with
  | None => JournalUnauthenticated
  | Some c =>
      match Load (Tenant c) f run sub t with
      | Err e => LoadFailed e
      | Ok s => Loaded {| rs_RunID := runID s; rs_SubRunID := subRunID s; rs_NextSeq := nextSeq s;
                          rs_Durability := durability s; rs_Records := records s |}
      end
  end.

(** ** What was acknowledged is read back *)

Lemma records_of_phases tenant f run sub t s step ph rec :
  Load tenant f run sub t = Ok s → phases_of s (sub, step) !! ph = Some rec →
  rec ∈ records s ∧ ∀ rec', rec' ∈ records s → rec_key rec' = (sub, step) → rec_phase rec' = ph → rec' = rec.
Proof.
  unfold Load. destruct (sempty run); [done|]. destruct (_ || _); [done|].
  intros ((recs, next) & Hl & Hs)%bind_Ok. inv_res. apply load_loop in Hl as [Hrecs _]. simpl in Hrecs. subst recs.
  unfold phases_of. cbn [NewSubRunState byStep records].
  set (rs := record_of run <$> filter (in_sub sub) (ordered_rows t tenant run)).
  fold (phases_of (NewRunState run rs) (sub, step)).
  pose proof (records_distinct t tenant run sub) as Hnd. fold rs in Hnd.
  assert (records (NewRunState run rs) ≡ₚ rs) as Hperm.
  { unfold NewRunState. rewrite index_records. cbn [records]. apply sort_slice_perm. }
  rewrite NewRunState_unique by done. intros (Hin & Hk & Hp). rewrite Hperm. split; [done|].
  intros rec' Hin' Hk' Hp'. rewrite Hperm in Hin'. eapply (NoDup_fmap_eq (λ r, (rec_key r, rec_phase r))); eauto. congruence.
Qed.

(** C35. An acknowledged entry is read back: after a POST answered with a position, a GET
    of the same run and sub-run by any caller of the same tenant, answered after any
    further appends of anyone, shows exactly one record of that step and phase, at that
    position; 201 says the entry was new and then the record carries its payload as the
    database stores it, 200 that it had been journalled before. *)
Theorem acknowledged_entries_are_read_back c c' run b now f t t1 status res t2 fl st :
  dense t → append_route (Some c) run (Some b) now f t = (t1, Appended status res) →
  rtc append_step t1 t2 → Tenant c' = Tenant c → load_route (Some c') run (ac_SubRunID b) fl t2 = Loaded st →
  ∃ rec payload, rec ∈ rs_Records st ∧ Seq rec = res_Seq res ∧ rec_key rec = (ac_SubRunID b, ac_StepID b) ∧
    rec_phase rec = ac_Phase b ∧
    (∀ rec', rec' ∈ rs_Records st → rec_key rec' = rec_key rec → rec_phase rec' = rec_phase rec → rec' = rec) ∧
    cast_jsonb (payloadArg (ac_Payload b)) = Some payload ∧
    (status = 201%Z ↔ t !! entry_key (Tenant c) (entry_of run b) = None) ∧ (status = 200%Z ∨ status = 201%Z) ∧
    (status = 201%Z → Payload (rec_entry rec) = match payload with Some v => RawDoc (jsonb_out v) | None => RawEmpty end).
Proof.
  intros Hd Ha Hsteps Hten Hload. cbn [append_route] in Ha.
  destruct (Validate (entry_of run b)) as [[]|e]; [|done].
  destruct (Append (Tenant c) now f (entry_of run b) t) as [t0 r0] eqn:Happ.
  destruct r0 as [r0|e]; [|done]. injection Ha as -> <- ->.
  destruct (Append_dense _ _ _ _ _ _ _ Hd Happ) as [Hd1 _].
  destruct (append_steps_mono _ _ Hsteps Hd1) as [_ Hsub].
  cbn [load_route] in Hload. destruct (Load (Tenant c') fl run (ac_SubRunID b) t2) as [s|e] eqn:HL; [|done].
  injection Hload as <-. cbn [rs_Records].
  assert (∃ row payload, t1 !! entry_key (Tenant c) (entry_of run b) = Some row ∧ row_seq row = res_Seq res ∧
    cast_jsonb (payloadArg (ac_Payload b)) = Some payload ∧
    (Duplicate res = false ↔ t !! entry_key (Tenant c) (entry_of run b) = None) ∧
    (Duplicate res = false → row_payload row = payload)) as (row & payload & Hrow & Hseq & Hcast & Hdup & Hpay).
  { destruct (Append_cases _ _ _ _ _ _ _ Hd Happ)
      as [[_ [? [=]]]|(payload & Hp & _ & [(r & Hr & -> & [= ->])|(Hk & _ & -> & [[= ->]|[=]])])].
    - exists r, payload. split_and!; try done. by rewrite Hr.
    - eexists _, payload. rewrite lookup_insert_eq. by split_and!. }
  apply (lookup_weaken _ _ _ _ Hrow) in Hsub as Hrow2. rewrite <- Hten in Hrow2.
  destruct (Load_lookup _ _ _ _ _ _ HL) as (_ & _ & _ & Hl).
  assert (phases_of s (ac_SubRunID b, ac_StepID b) !! ac_Phase b =
    Some (record_of run ((Tenant c', run, ac_SubRunID b, ac_StepID b, ac_Phase b), row))) as Hph.
  { apply Hl. split; [done|]. by exists row. }
  destruct (records_of_phases _ _ _ _ _ _ _ _ _ HL Hph) as [Hin Huniq].
  eexists _, payload. split; [exact Hin|]. split_and!; try done.
  - rewrite <- Hdup. destruct (Duplicate res); split; done.
  - destruct (Duplicate res); auto.
  - intros Hs. assert (Duplicate res = false) as Hf by (by destruct (Duplicate res)). cbn. by rewrite (Hpay Hf).
Qed.

(** ** One tenant's journal *)

Lemma seq_strict_weak : StrictWeak (λ a b : ckey * row, (row_seq a.2 <? row_seq b.2)%Z).
Proof.
  split.
  - intros x y. rewrite Z.ltb_lt, Z.ltb_ge. lia.
  - intros x y z. rewrite !Z.ltb_lt. lia.
Qed.
Lemma ordered_rows_ext t t' tenant run :
  NoDup (seqs t tenant run) → run_rows t tenant run ≡ₚ run_rows t' tenant run → ordered_rows t tenant run = ordered_rows t' tenant run.
Proof.
  intros Hnd Hp. assert (ordered_rows t tenant run ≡ₚ ordered_rows t' tenant run) as Hperm by (by rewrite !ordered_rows_perm).
  apply (StronglySorted_unique_strong (λ x y, (row_seq y.2 <? row_seq x.2)%Z = false)); [|apply insertion_sort_sorted, seq_strict_weak..|done].
  intros x y Hx Hy Hxy Hyx. rewrite <- Hperm in Hy. rewrite ordered_rows_perm in Hx, Hy.
  eapply (NoDup_fmap_eq (λ kr : ckey * row, row_seq kr.2)); [exact Hnd|done|done|].
  apply Z.ltb_ge in Hxy, Hyx. lia.
Qed.
Lemma dense_nodup t tenant run : dense t → NoDup (seqs t tenant run).
Proof. intros Hd. rewrite (Hd tenant run). apply NoDup_seqZ. Qed.

(** A journal is read and written by its tenant alone: whatever a caller of another
    tenant posts, with whatever calls failing, every read of a run answers as before,
    and a request without a caller reads and writes nothing. *)
Theorem journals_stay_in_their_tenant c c' run b now f t t' r run' sub fl :
  dense t → Tenant c ≠ Tenant c' → append_route (Some c) run b now f t = (t', r) →
  load_route (Some c') run' sub fl t' = load_route (Some c') run' sub fl t ∧
  append_route None run b now f t = (t, JournalUnauthenticated) ∧ load_route None run' sub fl t = JournalUnauthenticated.
Proof.
  intros Hd Hne Ha. split; [|done]. cbn [append_route] in Ha. destruct b as [b|]; [|by injection Ha as <- _].
  destruct (Validate (entry_of run b)) as [[]|e]; [|by injection Ha as <- _].
  destruct (Append (Tenant c) now f (entry_of run b) t) as [t0 res] eqn:Happ. injection Ha as -> _.
  cbn [load_route]. enough (Load (Tenant c') fl run' sub t' = Load (Tenant c') fl run' sub t) as -> by done.
  enough (ordered_rows t' (Tenant c') run' = ordered_rows t (Tenant c') run') as Heq by (unfold Load; by rewrite Heq).
  destruct (Append_cases _ _ _ _ _ _ _ Hd Happ)
    as [[-> _]|(payload & _ & _ & [(x & _ & -> & _)|(Hk & _ & -> & _)])]; [done|done|].
  symmetry. apply ordered_rows_ext; [by apply dense_nodup|]. rewrite run_rows_insert by done.
  rewrite decide_False; [done|]. by intros [? _].
Qed.
End routes.

(** ** An entry and its reading *)

Module CheckpointRoutesWitnesses.
#[local] Existing Instance verbatim_postgres.
#[local] Existing Instance amd64_runtime.

Definition member (id tenant : string) : Caller :=
  {| ID := id; Kind := KindService; TokenSHA256 := ""; MayActAs := []; MayApprove := false; Tenant := tenant; MayActForTenants := [] |}.
Definition done_step : appendCheckpointRequest :=
  {| ac_StepID := "s1"; ac_SubRunID := ""; ac_Phase := "completed"; ac_Payload := RawDoc (JString "ok") |}.
Definition clear : load_faults := {| query_fails := false; scan_fails := λ _, false; rows_fail := false |}.
Definition written := append_route (Some (member "loop" "t")) "r" (Some done_step) 7 no_faults ∅.
Definition shown := load_route (Some (member "other-loop" "t")) "r" "" clear written.1.
Definition state : runStateResponse :=
  match shown with
  | Loaded s => s
  | _ => {| rs_RunID := ""; rs_SubRunID := ""; rs_NextSeq := 0; rs_Durability := {| Level := DurabilityUnknown; Steps := 0; StepsWithIntent := 0 |}; rs_Records := [] |}
  end.
Definition acknowledged : AppendResult := {| res_Seq := 0; Duplicate := false; PayloadDiverged := false |}.
Example one_record : length (rs_Records state) = 1%nat ∧ rs_NextSeq state = 1%Z ∧ Level (rs_Durability state) = DurabilityPerActivity.
Proof. vm_compute. done. Qed.

Lemma written_ok : append_route (Some (member "loop" "t")) "r" (Some done_step) 7 no_faults ∅ = (written.1, Appended 201 acknowledged).
Proof. vm_compute. reflexivity. Qed.
Lemma shown_ok : load_route (Some (member "other-loop" "t")) "r" (ac_SubRunID done_step) clear written.1 = Loaded state.
Proof. vm_compute. reflexivity. Qed.

Lemma acknowledged_entries_are_read_back_witness :
  ∃ rec payload, rec ∈ rs_Records state ∧ Seq rec = res_Seq acknowledged ∧
    rec_key rec = (ac_SubRunID done_step, ac_StepID done_step) ∧ rec_phase rec = ac_Phase done_step ∧
    (∀ rec', rec' ∈ rs_Records state → rec_key rec' = rec_key rec → rec_phase rec' = rec_phase rec → rec' = rec) ∧
    cast_jsonb (payloadArg (ac_Payload done_step)) = Some payload ∧
    (201%Z = 201%Z ↔ (∅ : table) !! entry_key (Tenant (member "loop" "t")) (entry_of "r" done_step) = None) ∧
    (201%Z = 200%Z ∨ 201%Z = 201%Z) ∧
    (201%Z = 201%Z → Payload (rec_entry rec) = match payload with Some v => RawDoc (jsonb_out v) | None => RawEmpty end).
Proof.
  exact (acknowledged_entries_are_read_back (member "loop" "t") (member "other-loop" "t") "r" done_step 7 no_faults ∅
           written.1 201 acknowledged written.1 clear state dense_empty written_ok (rtc_refl _ _) eq_refl shown_ok).
Defined.
Lemma journals_stay_in_their_tenant_witness :
  load_route (Some (member "u-loop" "u")) "r" "" clear written.1 = load_route (Some (member "u-loop" "u")) "r" "" clear ∅ ∧
  append_route None "r" (Some done_step) 7 no_faults ∅ = (∅, JournalUnauthenticated) ∧
  load_route None "r" "" clear ∅ = JournalUnauthenticated.
Proof.
  refine (journals_stay_in_their_tenant (member "loop" "t") (member "u-loop" "u") "r" (Some done_step) 7 no_faults ∅ written.1
            (Appended 201 acknowledged) "r" "" clear dense_empty _ written_ok). discriminate.
Defined.
End CheckpointRoutesWitnesses.
