(* ===== verification/RegistryRoutes.v ===== *)
(** * The registries over HTTP

    go/internal/api/registry_handlers.go: agents and tools of the caller's tenant are
    created, read, listed and moved through their lifecycle. The listing of agents of
    go/internal/store/agent_registry.go is modelled here, its other operations in
    AgentRegistry and the tools' in ToolRegistry. What the driver and encoding/json say
    of a failure is a parameter: it decides the status of some answers. *)

From S2P Require Import Prelude GoValue Json Auth Program AgentRegistry ToolRegistry.

Local Open Scope string_scope.
Set Default Proof Using "Type*".

(** strings.Contains *)
Fixpoint contains (s sub : string) : bool :=
  has_prefix s sub || match s with EmptyString => false | String _ s => contains s sub end.

Section routes.
Context `{Postgres, GoJson}.
Context (driver_text : dberr → string) (json_text : string).

Inductive gcall :=
| GAgent (c : acall)
| GAgents (tenant : string)
| GTool (c : tcall).
Definition greply (c : gcall) : Type :=
  match c with
  | GAgent c => areply c
  | GAgents _ => result dberr (list (akey * agent_row))
  | GTool c => treply c
  end.
Abbreviation GM := (prog greply).
Fixpoint of_agent {A} (m : prog areply A) : GM A :=
  match m with Ret a => Ret a | Vis c k => Vis (GAgent c) (λ r, of_agent (k r)) end.
Fixpoint of_tool {A} (m : prog treply A) : GM A :=
  match m with Ret a => Ret a | Vis c k => Vis (GTool c) (λ r, of_tool (k r)) end.

Definition ListAgents (tenant : string) : GM (result AgentError (list AgentRecord)) :=
  rows ← ask (R := greply) (GAgents tenant);
  mret (match rows : result dberr (list (akey * agent_row)) with
        | Err e => Err (StoreFailed "list agents" e)
        | Ok rows => fold_res (λ out kr, rec ← scanAgentRow kr.1.1.2 kr.1.2 (Some kr.2); Ok (out ++ [rec])%list) [] rows
        end).

(** ** Which status an error is *)

Definition agent_text (e : AgentError) : string :=
  match e with
  | ManifestNoMetadata => "store: manifest missing metadata object"
  | ManifestNoNameVersion => "store: manifest metadata.name and metadata.version are required"
  | MarshalManifest => "store: marshal manifest: " +:+ json_text
  | UnmarshalManifest => "store: unmarshal manifest: " +:+ json_text
  | StoreFailed op e => "store: " +:+ op +:+ ": " +:+ driver_text e
  | ErrAlreadyExists name version => "store: already exists: agent " +:+ name +:+ "@" +:+ version
  | ErrNotFound => "store: not found"
  | ErrInvalidTransition current target allowed => "store: invalid lifecycle transition: " +:+ target
  | ErrReleaseGateBlocked reason => "store: release gate blocked promotion to Released: " +:+ reason
  | ErrNotReleased lifecycle => "store: agent version is not Released: " +:+ lifecycle
  end.
Definition tool_text (e : ToolError) : string :=
  match e with
  | IdentityRequired => "store: tool_id, version and name are required"
  | InvalidSideEffect s => "store: invalid side_effect " +:+ s
  | InvalidRisk s => "store: invalid risk " +:+ s
  | NoIdempotencyKey name se => "store: tool " +:+ name +:+ " has side_effect=" +:+ se +:+ " but no idempotency_key_fields"
  | MarshalDescriptor => "store: marshal tool descriptor: " +:+ json_text
  | ToolAlreadyExists toolID version => "store: already exists: tool " +:+ toolID +:+ "@" +:+ version
  | ToolNotFound => "store: not found"
  | UnmarshalDescriptor => "store: unmarshal descriptor: " +:+ json_text
  | ToolStoreFailed op e => "store: " +:+ op +:+ ": " +:+ driver_text e
  end.
(** The cases of writeStoreError below the sentinel errors: by what the text contains. *)
Definition status_of_text (s : string) : Z :=
  if contains s "idempotency_key_fields" || contains s "invalid side_effect" || contains s "invalid risk" || contains s "required"
  then 400 else 500.
Definition agent_error_status (e : AgentError) : Z :=
  match e with
  | ErrNotFound => 404
  | ErrAlreadyExists _ _ => 409
  | ErrInvalidTransition _ _ _ | ErrReleaseGateBlocked _ => 422
  | e => status_of_text (agent_text e)
  end.
Definition tool_error_status (e : ToolError) : Z :=
  match e with ToolNotFound => 404 | ToolAlreadyExists _ _ => 409 | e => status_of_text (tool_text e) end.

(** ** The routes *)

Record createAgentRequest := { ca_Manifest : gomap; ca_Owner : string }.
Record transitionRequest := { tq_Target : string; tq_ReleaseGate : ReleaseGateDecision }.
Inductive registry_request :=
| PostAgent (body : option createAgentRequest)
| GetAgents
| GetAgent (name version : string)
| PostTransition (name version : string) (body : option transitionRequest)
| PostTool (body : option gomap)
| GetTools
| GetTool (toolID version : string).
Inductive registry_response :=
| RegistryUnauthenticated
| RegistryBadBody
| AgentRefused (e : AgentError)      (** writeStoreError *)
| AgentsFailed (e : AgentError)      (** always a 500 *)
| AgentShown (status : Z) (rec : AgentRecord)
| AgentsShown (recs : list AgentRecord)
| ToolRefused (e : ToolError)
| ToolsFailed (e : ToolError)
| ToolShown (status : Z) (rec : ToolRecord)
| ToolsShown (recs : list ToolRecord).
Definition registry_status (r : registry_response) : Z :=
  match r with
  | RegistryUnauthenticated => 401
  | RegistryBadBody => 400
  | AgentRefused e => agent_error_status e
  | ToolRefused e => tool_error_status e
  | AgentsFailed _ | ToolsFailed _ => 500
  | AgentShown status _ | ToolShown status _ => status
  | AgentsShown _ | ToolsShown _ => 200
  end.

Definition agent_answer (status : Z) (m : prog areply (result AgentError AgentRecord)) : GM registry_response :=
  r ← of_agent m; mret (match r : result AgentError AgentRecord with Err e => AgentRefused e | Ok rec => AgentShown status rec end).
Definition tool_answer (status : Z) (m : prog treply (result ToolError ToolRecord)) : GM registry_response :=
  r ← of_tool m; mret (match r : result ToolError ToolRecord with Err e => ToolRefused e | Ok rec => ToolShown status rec end).

Definition createAgent (tenant : string) (body : option createAgentRequest) : GM registry_response :=
  match body with
  | None => mret RegistryBadBody
  | Some b => agent_answer 201 (AgentRegistry.Create tenant (ca_Manifest b) (ca_Owner b))
  end.
Definition listAgents (tenant : string) : GM registry_response :=
  r ← ListAgents tenant; mret (match r : result AgentError (list AgentRecord) with Err e => AgentsFailed e | Ok l => AgentsShown l end).
Definition getAgent (tenant name version : string) : GM registry_response :=
  agent_answer 200 (AgentRegistry.Get tenant name version).
Definition transitionAgent (tenant name version : string) (body : option transitionRequest) : GM registry_response :=
  match body with
  | None => mret RegistryBadBody
  | Some b => agent_answer 200 (TransitionLifecycle tenant name version (tq_Target b) (tq_ReleaseGate b))
  end.
Definition createTool (tenant : string) (body : option gomap) : GM registry_response :=
  match body with
  | None => mret RegistryBadBody
  | Some d => tool_answer 201 (ToolRegistry.Create tenant d)
  end.
Definition listTools (tenant : string) : GM registry_response :=
  r ← of_tool (ToolRegistry.List tenant);
  mret (match r : result ToolError (list ToolRecord) with Err e => ToolsFailed e | Ok l => ToolsShown l end).
Definition getTool (tenant toolID version : string) : GM registry_response :=
  tool_answer 200 (ToolRegistry.Get tenant toolID version).

Definition serve_registry (caller : option Caller) (rq : registry_request) : GM registry_response :=
  match caller with
  | None => mret RegistryUnauthenticated
  | Some c =>
      match rq with
      | PostAgent body => createAgent (Tenant c) body
      | GetAgents => listAgents (Tenant c)
      | GetAgent name version => getAgent (Tenant c) name version
      | PostTransition name version body => transitionAgent (Tenant c) name version body
      | PostTool body => createTool (Tenant c) body
      | GetTools => listTools (Tenant c)
      | GetTool toolID version => getTool (Tenant c) toolID version
      end
  end.

(** ** Whose rows the routes touch *)

Definition about (tenant : string) (c : gcall) : Prop :=
  match c with GAgent c => (key_of c).1.1 = tenant | GAgents t => t = tenant | GTool c => tenant_of c = tenant end.
Lemma of_agent_within tenant {A} (m : prog areply A) :
  within (λ c, (key_of c).1.1 = tenant) m → within (about tenant) (of_agent m).
Proof.
  intros Hm. induction m as [a|c k IH]; [apply within_ret|]. apply within_vis; [by apply Hm; left|].
  intros r. apply IH. intros c' Hc'. apply Hm. right. eauto.
Qed.
Lemma of_tool_within tenant {A} (m : prog treply A) : within (λ c, tenant_of c = tenant) m → within (about tenant) (of_tool m).
Proof.
  intros Hm. induction m as [a|c k IH]; [apply within_ret|]. apply within_vis; [by apply Hm; left|].
  intros r. apply IH. intros c' Hc'. apply Hm. right. eauto.
Qed.
Lemma agent_get_within tenant name version : within (λ c, (key_of c).1.1 = tenant) (AgentRegistry.Get tenant name version).
Proof. apply within_vis; [done|]. intros r. apply within_ret. Qed.
Lemma agent_create_within tenant m owner : within (λ c, (key_of c).1.1 = tenant) (AgentRegistry.Create tenant m owner).
Proof.
  unfold AgentRegistry.Create. destruct (manifestNameVersion m) as [[name version]|e]; [|apply within_ret].
  destruct (marshal_map m); [|apply within_ret]. apply within_vis; [done|]. intros r. cbn [prog_bind].
  destruct r as [u|[[]|]]; try apply within_ret. apply agent_get_within.
Qed.
Lemma agent_transition_within tenant name version target gate :
  within (λ c, (key_of c).1.1 = tenant) (TransitionLifecycle tenant name version target gate).
Proof.
  unfold TransitionLifecycle. apply within_bind; [apply agent_get_within|]. intros [current|e]; [|apply within_ret].
  destruct (negb _); [apply within_ret|]. destruct (_ && _); [apply within_ret|].
  apply within_vis; [done|]. intros [u|e]; [apply agent_get_within|apply within_ret].
Qed.
Lemma tool_get_within tenant toolID version : within (λ c, tenant_of c = tenant) (ToolRegistry.Get tenant toolID version).
Proof. apply within_vis; [done|]. intros r. apply within_ret. Qed.
Lemma tool_create_within tenant d : within (λ c, tenant_of c = tenant) (ToolRegistry.Create tenant d).
Proof.
  unfold ToolRegistry.Create. destruct (validateToolDescriptor d) as [[[[[toolID version] name] se] risk]|e]; [|apply within_ret].
  destruct (marshal_map d); [|apply within_ret]. apply within_vis; [done|]. intros r. cbn [prog_bind].
  destruct r as [u|[[]|]]; try apply within_ret. apply tool_get_within.
Qed.

(** The registries are their tenant's: every statement a request makes is about rows
    of the authenticated caller's tenant, and a request without a caller makes none and
    is refused. *)
Theorem registries_stay_in_their_tenant caller rq :
  match caller with
  | None => serve_registry caller rq = mret RegistryUnauthenticated ∧ registry_status RegistryUnauthenticated = 401%Z
  | Some c => within (about (Tenant c)) (serve_registry caller rq)
  end.
Proof.
  destruct caller as [c|]; [|done]. assert (∀ status (m : prog areply _), within (λ c0, (key_of c0).1.1 = Tenant c) m →
    within (about (Tenant c)) (agent_answer status m)) as Ha.
  { intros status m Hm. apply within_bind; [by apply of_agent_within|]. intros r. apply within_ret. }
  assert (∀ status (m : prog treply _), within (λ c0, tenant_of c0 = Tenant c) m → within (about (Tenant c)) (tool_answer status m)) as Ht.
  { intros status m Hm. apply within_bind; [by apply of_tool_within|]. intros r. apply within_ret. }
  destruct rq as [[b|]| |name version|name version [b|]|[d|]| |toolID version]; cbn [serve_registry]; try apply within_ret.
  - apply Ha, agent_create_within.
  - apply within_bind; [apply within_vis; [done|intros r; apply within_ret]|]. intros r. apply within_ret.
  - apply Ha, agent_get_within.
  - apply Ha, agent_transition_within.
  - apply Ht, tool_create_within.
  - apply within_bind; [|intros r; apply within_ret]. apply of_tool_within. apply within_vis; [done|]. intros r. apply within_ret.
  - apply Ht, tool_get_within.
Qed.

(** ** What a refusal is answered with *)

Lemma contains_app_l a b sub : contains a sub = true → contains (a +:+ b) sub = true.
Proof.
  induction a as [|c a IH].
  - cbn [contains]. rewrite orb_false_r. destruct sub; [|done]. intros _. change ("" +:+ b) with b. by destruct b.
  - change (String c a +:+ b) with (String c (a +:+ b)). cbn [contains]. rewrite !orb_true_iff. intros [Hp|Hc]; [left|right; by apply IH].
    revert Hp. change (String c (a +:+ b)) with (String c a +:+ b). generalize (String c a) as u. clear. intros u. revert u.
    induction sub as [|d sub IHs]; intros u; [by destruct (u +:+ b)|]. destruct u as [|e u]; [done|].
    change (String e u +:+ b) with (String e (u +:+ b)). cbn [has_prefix]. rewrite !andb_true_iff. intros [? ?]. auto.
Qed.
Lemma contains_app_r a b sub : contains b sub = true → contains (a +:+ b) sub = true.
Proof.
  intros Hb. induction a as [|c a IH]; [done|]. change (String c a +:+ b) with (String c (a +:+ b)). cbn [contains].
  rewrite IH. apply orb_true_r.
Qed.
Lemma status_400 s w :
  w ∈ ["idempotency_key_fields"; "invalid side_effect"; "invalid risk"; "required"] → contains s w = true → status_of_text s = 400%Z.
Proof.
  intros Hw Hs. unfold status_of_text. rewrite !elem_of_cons in Hw.
  destruct Hw as [->|[->|[->|[->|Hw%not_elem_of_nil]]]]; rewrite ?Hs, ?orb_true_r; done.
Qed.

(** What is refused before the database is asked, and with which status: a
    descriptor that does not validate is always the client's error, and so is a manifest
    without a name or version; a manifest without a metadata object is answered as a
    server error. Of the database's failures, one whose driver text says required is
    answered as the client's. *)
Theorem refusals_before_the_database tenant :
  (∀ d e, validateToolDescriptor d = Err e →
     createTool tenant (Some d) = mret (ToolRefused e) ∧ registry_status (ToolRefused e) = 400%Z) ∧
  (∀ b e, manifestNameVersion (ca_Manifest b) = Err e →
     createAgent tenant (Some b) = mret (AgentRefused e) ∧
     registry_status (AgentRefused e) = (if decide (as_map_opt (mget (items (ca_Manifest b)) "metadata") = None) then 500 else 400)%Z) ∧
  (∀ op e, contains (driver_text e) "required" = true →
     registry_status (AgentRefused (StoreFailed op e)) = 400%Z ∧ registry_status (ToolRefused (ToolStoreFailed op e)) = 400%Z).
Proof.
  split_and!.
  - intros d e He. split; [unfold createTool, tool_answer, ToolRegistry.Create; by rewrite He|].
    unfold validateToolDescriptor in He. cbv zeta in He.
    repeat case_match; simplify_eq; cbn [registry_status tool_error_status tool_text].
    + apply (status_400 _ "required"); [set_solver|by vm_compute].
    + apply (status_400 _ "invalid side_effect"); [set_solver|]. change "store: invalid side_effect " with ("store: " +:+ "invalid side_effect ").
      rewrite <- str_app_assoc. apply contains_app_r, contains_app_l. by vm_compute.
    + apply (status_400 _ "invalid risk"); [set_solver|]. change "store: invalid risk " with ("store: " +:+ "invalid risk ").
      rewrite <- str_app_assoc. apply contains_app_r, contains_app_l. by vm_compute.
    + apply (status_400 _ "idempotency_key_fields"); [set_solver|]. do 4 apply contains_app_r. by vm_compute.
  - intros b e He. split; [unfold createAgent, agent_answer, AgentRegistry.Create; by rewrite He|].
    unfold manifestNameVersion in He. destruct (as_map_opt _) as [m|]; [|injection He as <-; by vm_compute].
    destruct (_ || _); [|done]. injection He as <-. rewrite decide_False by done. by vm_compute.
  - intros op e He. split; apply (status_400 _ "required"); try set_solver; do 3 apply contains_app_r; done.
Qed.
End routes.

(** ** A manifest without metadata *)

Module RegistryRoutesWitnesses.
#[local] Existing Instance verbatim_postgres.
#[local] Existing Instance flat_json.
Definition some_error (e : dberr) : string := "FATAL: SSL connection is required".

Lemma refusals_before_the_database_witness :
  registry_status some_error "" (AgentRefused ManifestNoMetadata) = 500%Z ∧
  registry_status some_error "" (ToolRefused (InvalidRisk "NONE")) = 400%Z ∧
  registry_status some_error "" (AgentRefused (StoreFailed "list agents" None)) = 400%Z.
Proof.
  destruct (refusals_before_the_database some_error "" "t") as (Ht & Ha & Hd). split_and!.
  - exact (proj2 (Ha {| ca_Manifest := Some ∅; ca_Owner := "o" |} ManifestNoMetadata eq_refl)).
  - apply (proj2 (Ht (Some (obj [("tool_id", AString "t"); ("version", AString "1"); ("name", AString "n");
                                 ("side_effect", AString "NONE"); ("risk", AString "NONE")])) (InvalidRisk "NONE") ltac:(by vm_compute))).
  - exact (proj1 (Hd "list agents" None ltac:(by vm_compute))).
Defined.
End RegistryRoutesWitnesses.
