(* ===== verification/Abom.v ===== *)
(** * Package abom: the agent's bill of materials

    go/internal/abom/abom.go: what a published manifest's document says, and its
    signature. crypto/ed25519 is a class with what its documentation promises; the text
    json.Marshal gives a value is a parameter. Base64 and hex are modelled. *)

From Stdlib Require Import ZifyNat.
From S2P Require Import Prelude GoValue Sha256 Json.

Local Open Scope string_scope.
Set Default Proof Using "Type*".

(** ** encoding/base64, StdEncoding *)

Definition alphabet : string := "ABCDEFGHIJKLMNOPQRSTUVWXYZabcdefghijklmnopqrstuvwxyz0123456789+/".
Definition sextet_char (n : nat) : Ascii.ascii := default Ascii.zero (String.get n alphabet).
Fixpoint index_of (c : Ascii.ascii) (s : string) : option nat :=
  match s with
  | EmptyString => None
  | String d s => if bool_decide (c = d) then Some 0 else S <$> index_of c s
  end.
Definition pad_char : Ascii.ascii := Ascii.ascii_of_nat 61.
Fixpoint EncodeToString (bs : list nat) : string :=
  match bs with
  | [] => ""
  | [a] => String (sextet_char (a / 4)) (String (sextet_char (a mod 4 * 16)) (String pad_char (String pad_char "")))
  | [a; b] => String (sextet_char (a / 4)) (String (sextet_char (a mod 4 * 16 + b / 16))
                (String (sextet_char (b mod 16 * 4)) (String pad_char "")))
  | a :: b :: c :: bs =>
      String (sextet_char (a / 4)) (String (sextet_char (a mod 4 * 16 + b / 16))
        (String (sextet_char (b mod 16 * 4 + c / 64)) (String (sextet_char (c mod 64)) (EncodeToString bs))))
  end.
(** Carriage returns and newlines are skipped wherever they stand; bits beyond the last
    byte are ignored. *)
Fixpoint drop_newlines (s : string) : string :=
  match s with
  | EmptyString => ""
  | String c s => if byte_is 10 c || byte_is 13 c then drop_newlines s else String c (drop_newlines s)
  end.
Fixpoint decode_quanta (s : string) : option (list nat) :=
  match s with
  | EmptyString => Some []
  | String a (String b (String c (String d s))) =>
      x ← index_of a alphabet; y ← index_of b alphabet;
      if bool_decide (c = pad_char) then
        if bool_decide (d = pad_char) && sempty s then Some [(x * 4 + y / 16)%nat] else None
      else
        z ← index_of c alphabet;
        if bool_decide (d = pad_char) then
          if sempty s then Some [(x * 4 + y / 16)%nat; (y mod 16 * 16 + z / 4)%nat] else None
        else
          w ← index_of d alphabet;
          rest ← decode_quanta s;
          Some ((x * 4 + y / 16) :: (y mod 16 * 16 + z / 4) :: (z mod 4 * 64 + w) :: rest)%nat
  | _ => None
  end.
Definition DecodeString (s : string) : option (list nat) := decode_quanta (drop_newlines s).

Lemma index_sextet n : n < 64 → index_of (sextet_char n) alphabet = Some n ∧ sextet_char n ≠ pad_char ∧
  byte_is 10 (sextet_char n) = false ∧ byte_is 13 (sextet_char n) = false.
Proof. intros H. do 64 (destruct n as [|n]; [by vm_compute|]). lia. Qed.

Definition bytes_ok (bs : list nat) : Prop := Forall (λ b, b < 256) bs.
#[local] Ltac Zify.zify_post_hook ::= Z.div_mod_to_equations.

Lemma drop_newlines_sextet n s : n < 64 →
  drop_newlines (String (sextet_char n) s) = String (sextet_char n) (drop_newlines s).
Proof. intros (_ & _ & H1 & H2)%index_sextet. cbn [drop_newlines]. by rewrite H1, H2. Qed.
Lemma drop_newlines_pad s : drop_newlines (String pad_char s) = String pad_char (drop_newlines s).
Proof. done. Qed.

Lemma index_of_sextet n : n < 64 → index_of (sextet_char n) alphabet = Some n.
Proof. by intros [? _]%index_sextet. Qed.
Lemma not_pad n : n < 64 → bool_decide (sextet_char n = pad_char) = false.
Proof. intros (_ & ? & _)%index_sextet. by apply bool_decide_eq_false. Qed.

(** The sextets of three bytes, and back. *)
Lemma quantum a b c : a < 256 → b < 256 → c < 256 →
  a / 4 < 64 ∧ a mod 4 * 16 < 64 ∧ a mod 4 * 16 + b / 16 < 64 ∧ b mod 16 * 4 < 64 ∧ b mod 16 * 4 + c / 64 < 64 ∧
  c mod 64 < 64 ∧ a / 4 * 4 + a mod 4 * 16 / 16 = a ∧ a / 4 * 4 + (a mod 4 * 16 + b / 16) / 16 = a ∧
  (a mod 4 * 16 + b / 16) mod 16 * 16 + b mod 16 * 4 / 4 = b ∧
  (a mod 4 * 16 + b / 16) mod 16 * 16 + (b mod 16 * 4 + c / 64) / 4 = b ∧
  (b mod 16 * 4 + c / 64) mod 4 * 64 + c mod 64 = c.
Proof. intros. repeat split; lia. Qed.

Lemma decode_encode bs : bytes_ok bs → DecodeString (EncodeToString bs) = Some bs.
Proof.
  unfold DecodeString. induction bs as [bs IH] using (induction_ltof1 _ (@length nat)); unfold ltof in IH.
  destruct bs as [|a [|b [|c bs]]]; intros Hb; [done| | |].
  - apply Forall_cons in Hb as [Ha _]. destruct (quantum a 0 0) as (H1 & H2 & _ & _ & _ & _ & H7 & _); [lia..|].
    cbn [EncodeToString]. rewrite !drop_newlines_sextet, !drop_newlines_pad by done.
    cbn [decode_quanta drop_newlines]. rewrite !index_of_sextet by done. cbn [mbind option_bind].
    rewrite !bool_decide_true by done. cbn [sempty andb]. by rewrite H7.
  - apply Forall_cons in Hb as [Ha Hb]. apply Forall_cons in Hb as [Hb _].
    destruct (quantum a b 0) as (H1 & _ & H3 & H4 & _ & _ & _ & H8 & H9 & _); [lia..|].
    cbn [EncodeToString]. rewrite !drop_newlines_sextet, !drop_newlines_pad by done.
    cbn [decode_quanta drop_newlines]. rewrite !index_of_sextet by done. cbn [mbind option_bind].
    rewrite not_pad by done. rewrite bool_decide_true by done. cbn [sempty]. by rewrite H8, H9.
  - apply Forall_cons in Hb as [Ha Hb]. apply Forall_cons in Hb as [Hb Hc]. apply Forall_cons in Hc as [Hc Hbs].
    destruct (quantum a b c) as (H1 & _ & H3 & _ & H5 & H6 & _ & H8 & _ & H10 & H11); [lia..|].
    cbn [EncodeToString]. rewrite !drop_newlines_sextet by done.
    cbn [decode_quanta]. rewrite !index_of_sextet by done. cbn [mbind option_bind].
    rewrite !not_pad by done. rewrite IH by (done || (cbn [length]; lia)).
    cbn [mbind option_bind]. by rewrite H8, H10, H11.
Qed.

(** ** encoding/hex *)

Definition hex_value (c : Ascii.ascii) : option nat :=
  if byte_in 48 57 c then Some (Ascii.nat_of_ascii c - 48)
  else if byte_in 97 102 c then Some (Ascii.nat_of_ascii c - 87)
  else if byte_in 65 70 c then Some (Ascii.nat_of_ascii c - 55)
  else None.
Fixpoint hex_DecodeString (s : string) : option (list nat) :=
  match s with
  | EmptyString => Some []
  | String c (String d s) =>
      x ← hex_value c; y ← hex_value d; rest ← hex_DecodeString s;
      Some ((x * 16 + y)%nat :: rest)
  | _ => None
  end.
Definition hex_EncodeToString (bs : list nat) : string := hex_encode (Z.of_nat <$> bs).

Lemma hex_value_digit n : n < 16 → hex_value (hex_digit (Z.of_nat n)) = Some n.
Proof. intros H. do 16 (destruct n as [|n]; [by vm_compute|]). lia. Qed.

Lemma hex_decode_encode bs : bytes_ok bs → hex_DecodeString (hex_EncodeToString bs) = Some bs.
Proof.
  unfold hex_EncodeToString, hex_encode. induction 1 as [|b bs Hb _ IH]; [done|].
  cbn [fmap list_fmap foldr]. unfold hex_byte at 1.
  replace (Z.shiftr (Z.of_nat b) 4) with (Z.of_nat (b / 16)%nat)
    by (rewrite Z.shiftr_div_pow2 by lia; change (2 ^ 4)%Z with 16%Z; lia).
  replace (Z.land (Z.of_nat b) 15) with (Z.of_nat (b mod 16)%nat)
    by (change 15%Z with (Z.ones 4); rewrite Z.land_ones by lia; change (2 ^ 4)%Z with 16%Z; lia).
  cbn [hex_DecodeString]. rewrite !hex_value_digit by lia. cbn [mbind option_bind].
  fold (list_fmap nat Z Z.of_nat bs). rewrite IH. cbn [mbind option_bind].
  do 2 f_equal. lia.
Qed.

(** ** The document *)

Definition Version : string := "1".
Definition SignatureAlgorithm : string := "ed25519".
Record AgentRef := { ar_Name : string; ar_Version : string; Owner : string }.
(** A nil slice and an empty one are both left out of the JSON, and told apart nowhere. *)
Record ModelPolicyRef := { Profile : string; Fallbacks : list string }.
Record ToolsRef := { Allow : list string; Deny : list string }.
Record Document := {
  ABOMVersion : string;
  doc_Agent : AgentRef;
  ManifestSHA256 : string;
  doc_ModelPolicy : ModelPolicyRef;
  doc_Tools : ToolsRef;
  EvalGates : list string;
}.
Record Signed := { sg_Document : Document; Algorithm : string; Signature : string; PublicKey : string }.

Definition stringSlice (v : any) : list string :=
  match v with
  | AList raw => omap (λ item, match item with AString s => Some s | _ => None end) raw
  | _ => []
  end.

Inductive BuildError := NameAndVersionRequired.
Definition BuildDocument (manifest : gmap string any) (rawManifest : string) : result BuildError Document :=
  let metadata := as_map (mget manifest "metadata") in
  let name := as_string (mget metadata "name") in
  let version := as_string (mget metadata "version") in
  let owner := as_string (mget metadata "owner") in
  if sempty name || sempty version then Err NameAndVersionRequired
  else
    let spec := as_map (mget manifest "spec") in
    let modelPolicy := match as_map_opt (mget spec "modelPolicy") with
      | Some mp => {| Profile := as_string (mget mp "profile"); Fallbacks := stringSlice (mget mp "fallbacks") |}
      | None => {| Profile := ""; Fallbacks := [] |}
      end in
    let tools := match as_map_opt (mget spec "tools") with
      | Some t => {| Allow := stringSlice (mget t "allow"); Deny := stringSlice (mget t "deny") |}
      | None => {| Allow := []; Deny := [] |}
      end in
    Ok {| ABOMVersion := Version;
          doc_Agent := {| ar_Name := name; ar_Version := version; Owner := owner |};
          ManifestSHA256 := sha256_hex rawManifest;
          doc_ModelPolicy := modelPolicy; doc_Tools := tools;
          EvalGates := stringSlice (mget spec "evalGates") |}.

(** Struct tags: members in the order of the fields, the empty ones left out where the tag
    says so. Marshalling a struct of strings cannot fail. *)
Definition jstr (s : string) : json := JString (to_valid_utf8 s).
Definition omit_string (name s : string) : list (string * json) :=
  if sempty s then [] else [(name, jstr s)].
Definition omit_strings (name : string) (l : list string) : list (string * json) :=
  match l with [] => [] | _ => [(name, JArray (jstr <$> l))] end.
Definition document_json (d : Document) : json :=
  JObject ([("abom_version", jstr (ABOMVersion d));
            ("agent", JObject [("name", jstr (ar_Name (doc_Agent d))); ("version", jstr (ar_Version (doc_Agent d)));
                               ("owner", jstr (Owner (doc_Agent d)))]);
            ("manifest_sha256", jstr (ManifestSHA256 d));
            ("model_policy", JObject (omit_string "profile" (Profile (doc_ModelPolicy d)) ++
                                      omit_strings "fallbacks" (Fallbacks (doc_ModelPolicy d))));
            ("tools", JObject (omit_strings "allow" (Allow (doc_Tools d)) ++ omit_strings "deny" (Deny (doc_Tools d))))] ++
           omit_strings "eval_gates" (EvalGates d))%list.

(** ** Signatures *)

(** crypto/ed25519: a private key is what [NewKeyFromSeed] and [GenerateKey] return.
    [ed_verify] is asked for a key of thirty-two bytes only. *)
Class Ed25519 := {
  private_key : Type;
  NewKeyFromSeed : list nat → private_key;
  public_key : private_key → list nat;
  ed_sign : private_key → string → list nat;
  ed_verify : list nat → string → list nat → bool;
}.
(** Its documentation: sizes, and that a signature verifies under its key's public part. *)
Class Ed25519Laws `{Ed25519} : Prop := {
  public_key_size k : length (public_key k) = 32 ∧ bytes_ok (public_key k);
  signature_bytes k m : bytes_ok (ed_sign k m);
  signature_verifies k m : ed_verify (public_key k) m (ed_sign k m) = true;
}.

Inductive VerifyError := UnsupportedAlgorithm (alg : string) | DecodingPublicKey | DecodingSignature.

Section signing.
Context `{Ed25519}.
(** The text json.Marshal writes for a value. *)
Context (marshal_text : json → string).

Definition CanonicalBytes (d : Document) : string := marshal_text (document_json d).

Definition Sign (doc : Document) (priv : private_key) : Signed :=
  {| sg_Document := doc; Algorithm := SignatureAlgorithm;
     Signature := EncodeToString (ed_sign priv (CanonicalBytes doc));
     PublicKey := EncodeToString (public_key priv) |}.

(** ed25519.Verify panics on a key of another length. *)
Definition Verify (s : Signed) : panicking (result VerifyError bool) :=
  if negb (String.eqb (Algorithm s) SignatureAlgorithm) then Returned (Err (UnsupportedAlgorithm (Algorithm s)))
  else match DecodeString (PublicKey s) with
  | None => Returned (Err DecodingPublicKey)
  | Some pub =>
      match DecodeString (Signature s) with
      | None => Returned (Err DecodingSignature)
      | Some sig =>
          if (length pub =? 32)%nat then Returned (Ok (ed_verify pub (CanonicalBytes (sg_Document s)) sig))
          else Panicked
      end
  end.

Inductive KeyError := EntropyFailed | NotHex | SeedSize (n : nat).
(** [generated] is what ed25519.GenerateKey yields, if it does. *)
Definition LoadOrGenerateSigningKey (generated : option private_key) (hexSeed : string)
    : result KeyError (private_key * bool) :=
  if sempty hexSeed then
    match generated with Some priv => Ok (priv, true) | None => Err EntropyFailed end
  else match hex_DecodeString hexSeed with
  | None => Err NotHex
  | Some seed => if (length seed =? 32)%nat then Ok (NewKeyFromSeed seed, false) else Err (SeedSize (length seed))
  end.
(** ** Theorems *)

Definition utf8s (l : list string) : Prop := Forall (λ s, utf8_valid s = true) l.
(** YAML text is UTF-8, so a parsed manifest's strings are. *)
Record utf8_document (d : Document) : Prop := {
  ud_names : utf8s [ABOMVersion d; ar_Name (doc_Agent d); ar_Version (doc_Agent d); Owner (doc_Agent d);
                    ManifestSHA256 d; Profile (doc_ModelPolicy d)];
  ud_lists : Forall utf8s [Fallbacks (doc_ModelPolicy d); Allow (doc_Tools d); Deny (doc_Tools d); EvalGates d];
}.

Lemma jstr_inj s t : utf8_valid s = true → utf8_valid t = true → jstr s = jstr t → s = t.
Proof. unfold jstr. intros Hs%utf8_valid_id Ht%utf8_valid_id [=]. congruence. Qed.
Lemma jstrs_inj l k : utf8s l → utf8s k → jstr <$> l = jstr <$> k → l = k.
Proof.
  intros Hl. revert k. induction Hl as [|s l Hs _ IH]; intros [|t k] Hk; try done.
  apply Forall_cons in Hk as [Ht Hk]. intros [= Hst Hlk].
  f_equal; [apply jstr_inj; unfold jstr; congruence || done|by apply IH].
Qed.
Lemma omit_strings_inj n l k : utf8s l → utf8s k → omit_strings n l = omit_strings n k → l = k.
Proof.
  intros Hl Hk Heq. apply jstrs_inj; [done..|]. destruct l, k; cbn in Heq; [done..|]. cbn. congruence.
Qed.
(** Two optional members under different names. *)
Lemma omit_two_inj n m x y x' y' : n ≠ m → utf8s x → utf8s y → utf8s x' → utf8s y' →
  (omit_strings n x ++ omit_strings m y = omit_strings n x' ++ omit_strings m y')%list → x = x' ∧ y = y'.
Proof.
  intros Hnm Hx Hy Hx' Hy' Heq.
  assert (omit_strings n x = omit_strings n x' ∧ omit_strings m y = omit_strings m y') as [H1 H2]
    by (destruct x, y, x', y'; cbn in Heq |- *; split; congruence).
  split; by eapply omit_strings_inj.
Qed.
Lemma omit_policy_inj p l p' l' : utf8_valid p = true → utf8_valid p' = true → utf8s l → utf8s l' →
  (omit_string "profile" p ++ omit_strings "fallbacks" l =
   omit_string "profile" p' ++ omit_strings "fallbacks" l')%list → p = p' ∧ l = l'.
Proof.
  intros Hp Hp' Hl Hl' Heq.
  destruct (sempty p) eqn:E, (sempty p') eqn:E'; unfold omit_string in Heq; rewrite E, E' in Heq; cbn in Heq.
  - apply sempty_true in E as ->. apply sempty_true in E' as ->. split; [done|]. by eapply omit_strings_inj.
  - by destruct l.
  - by destruct l'.
  - injection Heq as Hpp Hll. split; [by apply jstr_inj; unfold jstr; congruence|]. by eapply omit_strings_inj.
Qed.

Lemma document_json_inj d d' : utf8_document d → utf8_document d' → document_json d = document_json d' → d = d'.
Proof.
  destruct d as [? [? ? ?] ? [? ?] [? ?] ?], d' as [? [? ? ?] ? [? ?] [? ?] ?].
  intros [Hn Hl] [Hn' Hl']. cbn in *. unfold utf8s in Hn, Hn'. decompose_Forall_hyps.
  unfold document_json. cbn. intros [=].
  repeat match goal with
  | E : (omit_string _ _ ++ _)%list = _ |- _ => apply omit_policy_inj in E as [-> ->]; [|done..]
  | E : (omit_strings _ _ ++ _)%list = _ |- _ => apply omit_two_inj in E as [-> ->]; [|done..]
  | E : omit_strings _ _ = _ |- _ => apply omit_strings_inj in E as ->; [|done..]
  | E : to_valid_utf8 _ = to_valid_utf8 _ |- _ => rewrite !utf8_valid_id in E by done; subst
  end. done.
Qed.

Context `{!Ed25519Laws}.

Lemma verify_signature k d' sig : bytes_ok sig →
  Verify {| sg_Document := d'; Algorithm := SignatureAlgorithm; Signature := EncodeToString sig;
            PublicKey := EncodeToString (public_key k) |} = Returned (Ok (ed_verify (public_key k) (CanonicalBytes d') sig)).
Proof.
  intros Hs. unfold Verify. cbn [Algorithm PublicKey Signature sg_Document].
  rewrite String.eqb_refl. cbn [negb]. destruct (public_key_size k) as [Hlen Hb].
  rewrite !decode_encode by done. by rewrite Hlen.
Qed.

(** A signed bill of materials verifies, whatever the document and the key: the
    signature and the public key survive their base64 texts, and the bytes checked are the
    bytes signed. *)
Theorem signed_documents_verify d k : Verify (Sign d k) = Returned (Ok true).
Proof. unfold Sign. rewrite verify_signature by apply signature_bytes. by rewrite signature_verifies. Qed.

(** A signature covers every field of its document: if the signature made of one
    document is accepted over another, the key's signature verifies over bytes that were
    not signed. No two documents have the same canonical bytes, although empty members are
    left out, given that the texts of their JSON values differ when the values do. *)
Theorem tampering_is_forgery d k d' :
  (marshal_text (document_json d') = marshal_text (document_json d) → document_json d' = document_json d) →
  utf8_document d → utf8_document d' → d' ≠ d →
  Verify {| sg_Document := d'; Algorithm := SignatureAlgorithm; Signature := Signature (Sign d k);
            PublicKey := PublicKey (Sign d k) |} = Returned (Ok true) →
  ∃ msg, msg ≠ CanonicalBytes d ∧ ed_verify (public_key k) msg (ed_sign k (CanonicalBytes d)) = true.
Proof.
  intros Htext Hd Hd' Hne. cbn [Sign Signature PublicKey]. rewrite verify_signature by apply signature_bytes.
  intros [= Hv]. exists (CanonicalBytes d'). split; [|done].
  intros Heq%Htext%document_json_inj; done.
Qed.

(** A bill of materials whose public key decodes to anything but thirty-two bytes is
    not refused: verifying it panics. *)
Theorem wrong_key_size_panics d pub sig : bytes_ok pub → bytes_ok sig → length pub ≠ 32 →
  Verify {| sg_Document := d; Algorithm := SignatureAlgorithm; Signature := EncodeToString sig;
            PublicKey := EncodeToString pub |} = Panicked.
Proof.
  intros Hp Hs Hlen. unfold Verify. cbn [Algorithm PublicKey Signature]. rewrite String.eqb_refl. cbn [negb].
  rewrite !decode_encode by done. by apply Nat.eqb_neq in Hlen as ->.
Qed.

(** A signing key configured as the hexadecimal text of a seed is that seed's key, and
    is not reported as ephemeral. *)
Theorem configured_seed_is_the_key generated seed : bytes_ok seed → length seed = 32 →
  LoadOrGenerateSigningKey generated (hex_EncodeToString seed) = Ok (NewKeyFromSeed seed, false).
Proof.
  intros Hb Hlen. unfold LoadOrGenerateSigningKey. rewrite hex_decode_encode by done.
  destruct seed; [done|]. cbn [hex_EncodeToString hex_encode fmap list_fmap foldr hex_byte sempty].
  by rewrite Hlen.
Qed.
End signing.

(** ** Witnesses *)

Module AbomWitnesses.

(** A scheme in which a key is its seed, the public key its first thirty-two bytes, and a
    signature says which key signed and nothing more: a forger's dream. *)
Definition fixed_seed (n : nat) : list nat := repeat (n mod 256) 32.
#[export] Instance toy_ed25519 : Ed25519 := {|
  private_key := nat; NewKeyFromSeed := λ bs, default 0 (head bs);
  public_key := fixed_seed; ed_sign := λ k _, fixed_seed k;
  ed_verify := λ pub _ sig, bool_decide (pub = sig) |}.
Lemma fixed_seed_bytes k : length (fixed_seed k) = 32 ∧ bytes_ok (fixed_seed k).
Proof.
  split; [apply repeat_length|]. apply Forall_forall. intros x Hx. apply list_elem_of_In, repeat_spec in Hx. subst. lia.
Qed.
#[export] Instance toy_laws : Ed25519Laws.
Proof. split; [apply fixed_seed_bytes|intros; apply fixed_seed_bytes|intros; by apply bool_decide_true]. Qed.

Definition quoted (s : string) : string := dquote +:+ s +:+ dquote.
Fixpoint plain_text (j : json) : string :=
  match j with
  | JNull => "null"
  | JBool b => if b then "true" else "false"
  | JNumber n => n
  | JString s => quoted s
  | JArray l => "[" +:+ (fix elems l := match l with [] => "]" | x :: l => plain_text x +:+ "," +:+ elems l end) l
  | JObject fs => "{" +:+ (fix members fs := match fs with [] => "}"
                   | (k, v) :: fs => quoted k +:+ ":" +:+ plain_text v +:+ "," +:+ members fs end) fs
  end.

Definition manifest (owner : string) : gmap string any :=
  obj [("metadata", AMap (obj [("name", AString "research"); ("version", AString "0.1.0"); ("owner", AString owner)]));
       ("spec", AMap (obj [("tools", AMap (obj [("allow", AList [AString "search.web"; AInt 3])]));
                           ("evalGates", AList [AString "core"])]))].
Definition blank : Document :=
  {| ABOMVersion := ""; doc_Agent := {| ar_Name := ""; ar_Version := ""; Owner := "" |}; ManifestSHA256 := "";
     doc_ModelPolicy := {| Profile := ""; Fallbacks := [] |}; doc_Tools := {| Allow := []; Deny := [] |}; EvalGates := [] |}.
Definition built (owner : string) : Document :=
  match BuildDocument (manifest owner) "kind: Agent" with Ok d => d | Err _ => blank end.

Example built_fields :
  doc_Tools (built "ana") = {| Allow := ["search.web"]; Deny := [] |} ∧ EvalGates (built "ana") = ["core"] ∧
  BuildDocument ∅ "x" = Err NameAndVersionRequired.
Proof. by vm_compute. Qed.

Lemma built_utf8 owner : utf8_valid owner = true → utf8_document (built owner).
Proof. intros Ho. split; repeat constructor; try done; by vm_compute. Qed.

Lemma signed_documents_verify_witness : Verify plain_text (Sign plain_text (built "ana") 7) = Returned (Ok true).
Proof. exact (signed_documents_verify plain_text (built "ana") 7). Defined.
Lemma built_differ : built "eve" ≠ built "ana".
Proof. intros E%(f_equal (λ d, Owner (doc_Agent d))). by vm_compute in E. Qed.
Lemma texts_differ : plain_text (document_json (built "eve")) ≠ plain_text (document_json (built "ana")).
Proof. by vm_compute. Qed.
Lemma toy_forgery : Verify plain_text
  {| sg_Document := built "eve"; Algorithm := SignatureAlgorithm; Signature := Signature (Sign plain_text (built "ana") 7);
     PublicKey := PublicKey (Sign plain_text (built "ana") 7) |} = Returned (Ok true).
Proof. by vm_compute. Qed.
Lemma tampering_is_forgery_witness :
  ∃ msg, msg ≠ CanonicalBytes plain_text (built "ana") ∧
    ed_verify (public_key 7) msg (ed_sign 7 (CanonicalBytes plain_text (built "ana"))) = true.
Proof.
  exact (tampering_is_forgery plain_text (built "ana") 7 (built "eve") (λ E, False_ind _ (texts_differ E))
    (built_utf8 "ana" eq_refl) (built_utf8 "eve" eq_refl) built_differ toy_forgery).
Defined.
Lemma wrong_key_size_panics_witness :
  Verify plain_text {| sg_Document := built "ana"; Algorithm := SignatureAlgorithm;
    Signature := EncodeToString [1; 2]; PublicKey := EncodeToString [9; 9; 9] |} = Panicked.
Proof. apply (wrong_key_size_panics plain_text (built "ana") [9; 9; 9] [1; 2]); [repeat constructor; lia..|done]. Defined.
Lemma configured_seed_is_the_key_witness :
  LoadOrGenerateSigningKey None (hex_EncodeToString (repeat 171 32)) = Ok (NewKeyFromSeed (repeat 171 32), false).
Proof. apply (configured_seed_is_the_key None (repeat 171 32)); [repeat constructor; lia|done]. Defined.
End AbomWitnesses.
