(* ===== verification/WebSearch.v ===== *)
(** * Web search

    go/internal/websearch/websearch.go, searxng/searxng.go and
    go/internal/toolexec/websearch_tool.go: one search against a SearXNG instance and the
    tool search.web over it. The GET is a call; of a 200 answer it gives the first JSON
    value of the body, which is what a json.Decoder reads. *)

From S2P Require Import Prelude GoValue Json Decode Program Tempo.

Local Open Scope string_scope.
Set Default Proof Using "Type*".

(** ** The provider seam *)

Record Result := { Title : string; URL : string; Snippet : string; Engine : string }.
(** size of a [Result]: four strings. *)
Definition result_size : Z := 64.

Definition Name : string := "searxng".
Record Searcher := { BaseURL : string; Declared : option bool }.
Fixpoint trim_right_slash (s : string) : string :=
  match s with
  | EmptyString => ""
  | String c s => let t := trim_right_slash s in if byte_is 47 c && sempty t then "" else String c t
  end.
Definition New (baseURL : string) : Searcher := {| BaseURL := trim_right_slash baseURL; Declared := Some true |}.
Definition InNetwork (s : Searcher) : bool := match Declared s with None => true | Some b => b end.

(** ** The answer *)

Record searx_result := { sx_Title : string; sx_URL : string; sx_Content : string; sx_Engine : string }.
Record searxResponse := {
  Query : string;
  Results : list searx_result;
  UnresponsiveEngines : list (list json);
}.
Definition no_searx_result : searx_result := {| sx_Title := ""; sx_URL := ""; sx_Content := ""; sx_Engine := "" |}.
Definition no_response : searxResponse := {| Query := ""; Results := []; UnresponsiveEngines := [] |}.
Definition dec_searx_result : decoder searx_result :=
  dec_struct ["title"; "url"; "content"; "engine"] (λ n,
    match n with
    | "title" => dec_at sx_Title (λ r s, {| sx_Title := s; sx_URL := sx_URL r; sx_Content := sx_Content r; sx_Engine := sx_Engine r |}) dec_string
    | "url" => dec_at sx_URL (λ r s, {| sx_Title := sx_Title r; sx_URL := s; sx_Content := sx_Content r; sx_Engine := sx_Engine r |}) dec_string
    | "content" => dec_at sx_Content (λ r s, {| sx_Title := sx_Title r; sx_URL := sx_URL r; sx_Content := s; sx_Engine := sx_Engine r |}) dec_string
    | _ => dec_at sx_Engine (λ r s, {| sx_Title := sx_Title r; sx_URL := sx_URL r; sx_Content := sx_Content r; sx_Engine := s |}) dec_string
    end).
(** A value decoded into an [any] replaces it. *)
Definition dec_any : decoder json := λ _ j, Some j.
Definition dec_searx : decoder searxResponse :=
  dec_struct ["query"; "results"; "unresponsive_engines"] (λ n,
    match n with
    | "query" => dec_at Query (λ r s, {| Query := s; Results := Results r; UnresponsiveEngines := UnresponsiveEngines r |}) dec_string
    | "results" => dec_at Results (λ r l, {| Query := Query r; Results := l; UnresponsiveEngines := UnresponsiveEngines r |})
                     (dec_slice no_searx_result dec_searx_result)
    | _ => dec_at UnresponsiveEngines (λ r l, {| Query := Query r; Results := Results r; UnresponsiveEngines := l |})
             (dec_slice [] (dec_slice JNull dec_any))
    end).

(** ** A search *)

Inductive search_reply :=
| GetFailed (msg : string)
| Answered (status : Z) (body : result string json).
Inductive scall := Get_ (url : string).
Definition sreply (c : scall) : Type := search_reply.

Inductive search_error :=
| EmptyQuery
| NoBaseURL
| BuildingRequest (msg : string)
| Querying (msg : string)
| JSONRefused            (** 403: the instance serves no JSON *)
| BadStatus (status : Z)
| DecodingResponse
| EveryEngineFailed (failures : string).

Section search.
(** Whether a URL is refused before a request is made of it, and the text %v gives a
    decoded value. *)
Context (bad_url : string → option string) (print_any : json → string).

Definition describe_pair (pair : list json) : option string :=
  match pair with
  | [] => None
  | [x] => Some (print_any x)
  | x :: y :: _ => Some (print_any x +:+ " (" +:+ print_any y +:+ ")")
  end.
Definition describeFailures (raw : list (list json)) : string := str_join ", " (omap describe_pair raw).

(** The hits with a URL, until there are as many as asked for. *)
Fixpoint collect (limit : Z) (rs : list searx_result) (out : list Result) : list Result :=
  match rs with
  | [] => out
  | r :: rs =>
      if sempty (sx_URL r) then collect limit rs out
      else
        let out := (out ++ [{| Title := sx_Title r; URL := sx_URL r; Snippet := sx_Content r; Engine := sx_Engine r |}])%list in
        if (Z.of_nat (length out) =? limit)%Z then out else collect limit rs out
  end.

Definition endpoint (s : Searcher) (query : string) : string :=
  BaseURL s +:+ "/search?format=json&q=" +:+ QueryEscape query.

Definition read_answer (limit : Z) (r : search_reply) : panicking (result search_error (list Result)) :=
  match r with
  | GetFailed e => Returned (Err (Querying e))
  | Answered status body =>
      if negb (status =? 200)%Z
      then Returned (Err (if (status =? 403)%Z then JSONRefused else BadStatus status))
      else match body with
      | Err _ => Returned (Err DecodingResponse)
      | Ok doc =>
          match dec_searx no_response doc with
          | None => Returned (Err DecodingResponse)
          | Some body =>
              match Results body, UnresponsiveEngines body with
              | [], _ :: _ => Returned (Err (EveryEngineFailed (describeFailures (UnresponsiveEngines body))))
              | _, _ => if make_panics result_size limit then Panicked
                        else Returned (Ok (collect limit (Results body) []))
              end
          end
      end
  end.

Definition Search (s : Searcher) (query : string) (limit : Z) : prog sreply (panicking (result search_error (list Result))) :=
  if sempty (trim_space query) then mret (Returned (Err EmptyQuery))
  else if sempty (BaseURL s) then mret (Returned (Err NoBaseURL))
  else
    let limit := if (limit <=? 0)%Z then 5%Z else limit in
    match bad_url (endpoint s query) with
    | Some e => mret (Returned (Err (BuildingRequest e)))
    | None => r ← ask (R := sreply) (Get_ (endpoint s query)); mret (read_answer limit r)
    end.

(** ** search.web *)

Definition defaultWebSearchTopK : Z := 5.
Inductive web_error := MissingQuery | SearchFailed (e : search_error).
Definition web_top_k `{GoRuntime} (args : gmap string any) : Z :=
  match mget args "top_k" with
  | AFloat raw => if fgtb raw f_zero then f_to_int raw else defaultWebSearchTopK
  | _ => defaultWebSearchTopK
  end.
Definition hit (r : Result) : any :=
  AMap (obj [("title", AString (Title r)); ("url", AString (URL r)); ("snippet", AString (Snippet r));
             ("engine", AString (Engine r))]).
Definition web_result (s : Searcher) (query : string) (results : list Result) : gmap string any :=
  obj [("status", AString "executed"); ("tool", AString "search.web"); ("provider", AString Name);
       ("in_network", ABool (InNetwork s)); ("query", AString query); ("results", AList (hit <$> results))].
(** The tenant a tool is called for is not used. *)
Definition search_web `{GoRuntime} (s : Searcher) (tenant : string) (args : gmap string any)
  : prog sreply (panicking (result web_error (gmap string any))) :=
  let query := as_string (mget args "query") in
  if sempty query then mret (Returned (Err MissingQuery))
  else
    results ← Search s query (web_top_k args);
    mret (match results with
          | Panicked => Panicked
          | Returned (Err e) => Returned (Err (SearchFailed e))
          | Returned (Ok l) => Returned (Ok (web_result s query l))
          end).
End search.

(** ** What a search answers *)

Definition has_url (r : searx_result) : Prop := sx_URL r ≠ "".
#[export] Instance has_url_dec r : Decision (has_url r) := decide (sx_URL r ≠ "").
Definition result_of (r : searx_result) : Result :=
  {| Title := sx_Title r; URL := sx_URL r; Snippet := sx_Content r; Engine := sx_Engine r |}.

Lemma collect_takes (limit n : nat) rs out : limit = length out + S n →
  collect (Z.of_nat limit) rs out = (out ++ take (S n) (result_of <$> filter has_url rs))%list.
Proof.
  revert n out. induction rs as [|r rs IH]; intros n out Hlen; cbn [collect].
  - by rewrite filter_nil, app_nil_r.
  - destruct (sempty (sx_URL r)) eqn:Hu.
    + apply sempty_true in Hu. rewrite filter_cons_False by (unfold has_url; tauto). by apply IH.
    + apply sempty_false in Hu. rewrite filter_cons_True by done. cbn [fmap list_fmap take].
      change {| Title := _ |} with (result_of r). rewrite length_app. cbn [length].
      destruct (Z.eqb_spec (Z.of_nat (length out + 1)) (Z.of_nat limit)) as [He|He].
      * by assert (n = 0) as -> by lia.
      * destruct n as [|n]; [lia|]. rewrite (IH n) by (rewrite length_app; cbn [length]; lia).
        by rewrite <- app_assoc.
Qed.

Lemma no_urls rs : Forall (λ r, sx_URL r = "") rs → filter has_url rs = [].
Proof. induction 1 as [|r rs Hr _ IH]; [done|]. by rewrite filter_cons_False by (unfold has_url; tauto). Qed.

(** How many hits a limit stands for. *)
Definition asked_for (limit : Z) : nat := Z.to_nat (if (limit <=? 0)%Z then 5 else limit).
Definition hits_of (limit : Z) (body : searxResponse) : list Result :=
  take (asked_for limit) (result_of <$> filter has_url (Results body)).

Lemma collect_hits limit rs :
  collect (if (limit <=? 0)%Z then 5 else limit) rs [] = take (asked_for limit) (result_of <$> filter has_url rs).
Proof.
  assert (∃ n, (if (limit <=? 0)%Z then 5 else limit)%Z = Z.of_nat (S n)) as [n Hn].
  { destruct (Z.leb_spec limit 0); [by exists 4|]. exists (Z.to_nat limit - 1). lia. }
  unfold asked_for. rewrite Hn, Nat2Z.id. by rewrite (collect_takes (S n) n).
Qed.

(** Neither is a failed search told as an empty one. *)
Definition silent (body : searxResponse) : Prop := Results body = [] ∧ UnresponsiveEngines body ≠ [].

Lemma read_answer_ok print_any limit r l :
  read_answer print_any (if (limit <=? 0)%Z then 5 else limit) r = Returned (Ok l) →
  ∃ doc body, r = Answered 200 (Ok doc) ∧ dec_searx no_response doc = Some body ∧ ¬ silent body ∧ l = hits_of limit body.
Proof.
  destruct r as [e|status body]; simpl; [done|].
  destruct (Z.eqb_spec status 200) as [->|]; simpl; [|by destruct (status =? 403)%Z].
  destruct body as [doc|z]; [|done]. destruct (dec_searx no_response doc) as [body|] eqn:Hd; [|done].
  intros Hr. exists doc, body. unfold hits_of, silent. rewrite <- collect_hits.
  destruct (make_panics result_size _).
  - by destruct (Results body), (UnresponsiveEngines body).
  - destruct (Results body), (UnresponsiveEngines body); try discriminate; injection Hr as <-; naive_solver.
Qed.

Section searching.
Context (bad_url : string → option string) (print_any : json → string) `{GoRuntime}.

(** What search.web answers came from one request, which names the query and nothing
    else (a server reads it back as it was given), and a 200 that decodes: the instance's
    hits in its order, those without a URL left out, as many as were asked for. An answer
    with no hit at all from an instance whose engines reported a failure is never given as
    an empty result. *)
Theorem hits_are_the_instances s tenant args t m :
  histories (search_web bad_url print_any s tenant args) t (Returned (Ok m)) →
  let query := as_string (mget args "query") in
  ∃ doc body, t = [existT (Get_ (BaseURL s +:+ "/search?format=json&q=" +:+ QueryEscape query)) (Answered 200 (Ok doc))] ∧
    QueryUnescape (QueryEscape query) = Some query ∧ str_all query_char (QueryEscape query) = true ∧
    dec_searx no_response doc = Some body ∧ ¬ silent body ∧
    m = web_result s query (hits_of (web_top_k args) body) ∧
    Forall (λ r, URL r ≠ "") (hits_of (web_top_k args) body).
Proof.
  intros Ht query. unfold search_web in Ht. fold query in Ht.
  destruct (sempty query); [by destruct Ht|]. apply histories_bind in Ht as (r & t1 & t2 & -> & H1 & H2).
  destruct r as [[l|e]|]; destruct H2 as [-> H2]; try discriminate. injection H2 as ->.
  unfold Search in H1. destruct (sempty (trim_space query)); [by destruct H1|].
  destruct (sempty (BaseURL s)); [by destruct H1|]. destruct (bad_url _); [by destruct H1|].
  destruct H1 as (v & t' & -> & -> & Hv). symmetry in Hv.
  apply read_answer_ok in Hv as (doc & body & -> & Hd & Hs & ->). exists doc, body.
  split_and!; try done; [apply QueryUnescape_escape|apply QueryEscape_chars|].
  apply Forall_take, Forall_fmap, Forall_forall. intros r Hr%list_elem_of_filter. by destruct Hr.
Qed.

(** A model that asks for more hits than an address can count takes the call down: on
    any answer that holds a row, reserving room for the hits panics. *)
Theorem large_top_k_panics s tenant args raw doc body :
  let query := as_string (mget args "query") in
  sempty (trim_space query) = false → query ≠ "" → BaseURL s ≠ "" → bad_url (endpoint s query) = None →
  mget args "top_k" = AFloat raw → fgtb raw f_zero = true → (2 ^ 42 < f_to_int raw)%Z →
  dec_searx no_response doc = Some body → Results body ≠ [] →
  histories (search_web bad_url print_any s tenant args) [existT (Get_ (endpoint s query)) (Answered 200 (Ok doc))] Panicked.
Proof.
  intros query Hq Hne Hb Hu Hk Hpos Hbig Hd Hrows. unfold search_web, web_top_k. fold query. rewrite Hk, Hpos.
  apply sempty_false in Hne as ->. apply sempty_false in Hb. unfold Search. rewrite Hq, Hb, Hu.
  apply histories_bind. exists Panicked, [existT (Get_ (endpoint s query)) (Answered 200 (Ok doc))], [].
  split; [done|]. split; [|done]. eexists _, []. split; [done|]. split; [done|].
  destruct (Z.leb_spec (f_to_int raw) 0); [lia|].
  assert (make_panics result_size (f_to_int raw) = true) as Hp.
  { unfold make_panics, max_alloc, result_size. rewrite orb_true_iff, !Z.ltb_lt. lia. }
  simpl. rewrite Hd. destruct (Results body) as [|r rs]; [done|]. by rewrite Hp.
Qed.

(** Whether an answer without hits is an error is decided by its rows alone: with no
    row, one engine's failure makes it a failure of every engine; with rows that all lack
    a URL it is an empty result, whatever the engines reported. *)
Theorem emptiness_is_judged_by_rows s query limit doc body :
  sempty (trim_space query) = false → BaseURL s ≠ "" → bad_url (endpoint s query) = None →
  (limit <= 2 ^ 42)%Z → dec_searx no_response doc = Some body →
  (Results body = [] → UnresponsiveEngines body ≠ [] →
   histories (Search bad_url print_any s query limit) [existT (Get_ (endpoint s query)) (Answered 200 (Ok doc))]
     (Returned (Err (EveryEngineFailed (describeFailures print_any (UnresponsiveEngines body)))))) ∧
  (Results body ≠ [] → Forall (λ r, sx_URL r = "") (Results body) →
   histories (Search bad_url print_any s query limit) [existT (Get_ (endpoint s query)) (Answered 200 (Ok doc))]
     (Returned (Ok []))).
Proof.
  intros Hq Hb Hu Hl Hd. apply sempty_false in Hb. unfold Search. rewrite Hq, Hb, Hu.
  split; intros Hrows Hf; eexists _, []; (split; [done|]); (split; [done|]); simpl; rewrite Hd.
  - rewrite Hrows. by destruct (UnresponsiveEngines body).
  - assert (make_panics result_size (if (limit <=? 0)%Z then 5 else limit) = false) as Hp.
    { unfold make_panics, max_alloc, result_size. rewrite orb_false_iff, !Z.ltb_ge. destruct (Z.leb_spec limit 0); lia. }
    rewrite Hp, collect_hits.
    rewrite no_urls by done.
    destruct (Results body); [done|]. by destruct (asked_for limit).
Qed.
End searching.

(** ** A concrete search *)

Module WebSearchWitnesses.
#[local] Existing Instance amd64_runtime.
Definition instance : Searcher := New "http://searxng:8080/".
Definition no_bad_url (_ : string) : option string := None.
Definition text_of (j : json) : string := match j with JString s => s | _ => "?" end.
Definition row (title url : string) : json := JObject [("title", JString title); ("URL", JString url); ("score", JNull)].
Definition mixed : json :=
  JObject [("query", JString "x"); ("results", JArray [row "a" ""; row "b" "http://b"; row "c" "http://c"; row "d" "http://d"]);
           ("unresponsive_engines", JArray [JArray [JString "duckduckgo"; JString "CAPTCHA"]])].
Definition args (k : Z) : gmap string any := obj [("query", AString "a b&q=c"); ("top_k", AFloat (f_of_Z k))].
Definition url : string := "http://searxng:8080/search?format=json&q=a+b%26q%3Dc".
Definition read_doc (j : json) : searxResponse := default no_response (dec_searx no_response j).
Definition two : list Result := hits_of 2 (read_doc mixed).

Example two_hits : (URL <$> two) = ["http://b"; "http://c"] ∧ endpoint instance "a b&q=c" = url.
Proof. by vm_compute. Qed.

Definition asked : list {c : scall & sreply c} := [existT (Get_ url) (Answered 200 (Ok mixed))].
Lemma args_query : as_string (mget (args 2) "query") = "a b&q=c". Proof. by vm_compute. Qed.
Lemma args_top_k : web_top_k (args 2) = 2%Z. Proof. by vm_compute. Qed.
Lemma read_two : read_answer text_of 2 (Answered 200 (Ok mixed)) = Returned (Ok two). Proof. by vm_compute. Qed.
Lemma searched : histories (search_web no_bad_url text_of instance "acme" (args 2)) asked
  (Returned (Ok (web_result instance "a b&q=c" two))).
Proof.
  unfold search_web. rewrite args_query, args_top_k. eexists _, []. split; [reflexivity|]. split; [done|].
  cbn [Z.leb Z.compare]. by rewrite read_two.
Qed.

Lemma hits_are_the_instances_witness :
  ∃ doc body, asked =
      [existT (Get_ (BaseURL instance +:+ "/search?format=json&q=" +:+ QueryEscape "a b&q=c")) (Answered 200 (Ok doc))] ∧
    QueryUnescape (QueryEscape "a b&q=c") = Some "a b&q=c" ∧ str_all query_char (QueryEscape "a b&q=c") = true ∧
    dec_searx no_response doc = Some body ∧ ¬ silent body ∧
    web_result instance "a b&q=c" two = web_result instance "a b&q=c" (hits_of (web_top_k (args 2)) body) ∧
    Forall (λ r, URL r ≠ "") (hits_of (web_top_k (args 2)) body).
Proof. exact (hits_are_the_instances no_bad_url text_of instance "acme" (args 2) _ _ searched). Defined.

Definition huge : float64 := f_of_Z (10 ^ 15).
Lemma huge_positive : fgtb huge f_zero = true. Proof. by vm_compute. Qed.
Lemma huge_int : f_to_int huge = (10 ^ 15)%Z. Proof. by vm_compute. Qed.
Lemma huge_large : (2 ^ 42 < f_to_int huge)%Z. Proof. rewrite huge_int. lia. Qed.
Lemma mixed_decodes : dec_searx no_response mixed = Some (read_doc mixed). Proof. by vm_compute. Qed.
Lemma mixed_rows : Results (read_doc mixed) ≠ []. Proof. by vm_compute. Qed.
Definition greedy : gmap string any := obj [("query", AString "a"); ("top_k", AFloat huge)].
Lemma greedy_query : as_string (mget greedy "query") = "a". Proof. by vm_compute. Qed.
Lemma greedy_top_k : mget greedy "top_k" = AFloat huge. Proof. by vm_compute. Qed.
Lemma query_given : sempty (trim_space (as_string (mget greedy "query"))) = false. Proof. by rewrite greedy_query. Qed.
Lemma query_not_empty : as_string (mget greedy "query") ≠ "". Proof. by rewrite greedy_query. Qed.
Definition asked_greedily : list {c : scall & sreply c} :=
  [existT (Get_ (endpoint instance (as_string (mget greedy "query")))) (Answered 200 (Ok mixed))].
Lemma large_top_k_panics_witness :
  histories (search_web no_bad_url text_of instance "acme" greedy) asked_greedily Panicked.
Proof.
  pose proof (large_top_k_panics no_bad_url text_of instance "acme" greedy huge mixed (read_doc mixed)) as Hpanic.
  cbv zeta in Hpanic.
  specialize (Hpanic query_given query_not_empty (λ E, ltac:(discriminate E)) eq_refl greedy_top_k huge_positive huge_large).
  exact (Hpanic mixed_decodes mixed_rows).
Defined.

Definition refused : json := JObject [("unresponsive_engines", JArray [JArray [JString "duckduckgo"; JString "CAPTCHA"]])].
Definition urlless : json :=
  JObject [("results", JArray [row "a" ""]); ("unresponsive_engines", JArray [JArray [JString "duckduckgo"; JString "CAPTCHA"]])].
Definition asked_x (doc : json) : list {c : scall & sreply c} := [existT (Get_ (endpoint instance "x")) (Answered 200 (Ok doc))].
Lemma refused_decodes : dec_searx no_response refused = Some (read_doc refused). Proof. by vm_compute. Qed.
Lemma urlless_decodes : dec_searx no_response urlless = Some (read_doc urlless). Proof. by vm_compute. Qed.
Lemma few : (5 <= 2 ^ 42)%Z. Proof. lia. Qed.
Lemma refused_rows : Results (read_doc refused) = [] ∧ UnresponsiveEngines (read_doc refused) ≠ []. Proof. by vm_compute. Qed.
Lemma urlless_rows : Results (read_doc urlless) ≠ [] ∧ Forall (λ r, sx_URL r = "") (Results (read_doc urlless)).
Proof. vm_compute. split; [discriminate|by repeat constructor]. Qed.
Lemma refusal_text : describeFailures text_of (UnresponsiveEngines (read_doc refused)) = "duckduckgo (CAPTCHA)".
Proof. by vm_compute. Qed.
Lemma emptiness_is_judged_by_rows_witness :
  histories (Search no_bad_url text_of instance "x" 5) (asked_x refused)
    (Returned (Err (EveryEngineFailed "duckduckgo (CAPTCHA)"))) ∧
  histories (Search no_bad_url text_of instance "x" 5) (asked_x urlless) (Returned (Ok [])).
Proof.
  rewrite <- refusal_text. destruct refused_rows as [Hr Hf], urlless_rows as [Hu Hl].
  pose proof (emptiness_is_judged_by_rows no_bad_url text_of instance "x" 5 refused (read_doc refused)
    eq_refl (λ E, ltac:(discriminate E)) eq_refl few refused_decodes) as [H1 _].
  pose proof (emptiness_is_judged_by_rows no_bad_url text_of instance "x" 5 urlless (read_doc urlless)
    eq_refl (λ E, ltac:(discriminate E)) eq_refl few urlless_decodes) as [_ H2].
  split; [exact (H1 Hr Hf)|exact (H2 Hu Hl)].
Defined.
End WebSearchWitnesses.
