(* ===== verification/Sandbox.v ===== *)
(** * Package sandbox: one command in one container

    go/internal/sandbox/sandbox.go and the tool shell.exec of
    go/internal/toolexec/executor.go. Each request to the Docker daemon is a call, made
    under the run's deadline or under none, and a removal forced or not; what the daemon
    answers is arbitrary, and what it does is a relation ([docker]) in which the deadline
    passes at any time, a call under it does nothing from then on, and a running container
    is only removed by force. *)

From S2P Require Import Prelude GoValue Program.

Local Open Scope string_scope.
Set Default Proof Using "Type*".

Definition defaultTimeout : Z := 30 * 10 ^ 9.
Definition defaultMemoryMB : Z := 256.
Record RunSpec := { Image : string; Command : list string; Timeout_ : Z; MemoryMB : Z }.
Record RunResult := { ExitCode : Z; Stdout : string; Stderr : string }.

(** The container the daemon is asked for; the fields the code leaves out are the daemon's
    defaults. *)
Record container := {
  c_Image : string; c_Cmd : list string;
  NetworkMode : string; ReadonlyRootfs : bool; CapDrop : list string; SecurityOpt : list string;
  Tmpfs : list (string * string); Memory : Z;
}.
Inductive wait_condition := NotRunning | NextExit.

Inductive dop :=
| Connect                                   (** client.New *)
| Inspect (ref : string)
| Pull (ref : string)
| PullWait (ref : string)                   (** reading the pull's progress to its end *)
| Create (c : container)
| Wait (id : string) (w : wait_condition)   (** subscribes; the outcome comes through [Select] *)
| Start (id : string)
| Logs (id : string)
| Copy (id : string)                        (** the log stream, read to its end *)
| Select (id : string)                      (** whichever of the wait's channels and the deadline is ready *)
| Remove (id : string) (force : bool).
(** The copied streams, or the failure and whether the deadline has passed by then. *)
Inductive copied := Streams (out err : string) | CopyFailed (late : bool) (msg : string).
Inductive waited := Exited (code : Z) | WaitFailed (msg : string) | DeadlinePassed.
(** A call carries the timeout it is made under, if it is. *)
Record dcall := { deadline : option Z; op : dop }.
Definition answer (o : dop) : Type :=
  match o with
  | Create _ => result string string
  | Wait _ _ => ()
  | Copy _ => copied
  | Select _ => waited
  | _ => option string
  end.
Definition dreply (c : dcall) : Type := answer (op c).
Abbreviation DM := (prog dreply).

Inductive run_error :=
| PullingImage (msg : string)
| CreatingContainer (msg : string)
| StartingContainer (msg : string)
| FetchingLogs (msg : string)
| TimedOut (timeout : Z)
| ReadingLogs (msg : string)
| WaitingForContainer (msg : string).

(** A call under the run's context. *)
Definition timed (timeout : Z) (o : dop) : dcall := {| deadline := Some timeout; op := o |}.
Definition background (o : dop) : dcall := {| deadline := None; op := o |}.

Definition ensureImage (timeout : Z) (ref : string) : DM (option run_error) :=
  err ← ask (R := dreply) (timed timeout (Inspect ref));
  match err : option string with
  | None => mret None
  | Some _ =>
      err ← ask (R := dreply) (timed timeout (Pull ref));
      match err : option string with
      | Some e => mret (Some (PullingImage e))
      | None =>
          err ← ask (R := dreply) (timed timeout (PullWait ref));
          mret (PullingImage <$> (err : option string))
      end
  end.

Definition container_of (spec : RunSpec) (memoryMB : Z) : container :=
  {| c_Image := Image spec; c_Cmd := Command spec; NetworkMode := "none"; ReadonlyRootfs := true;
     CapDrop := ["ALL"]; SecurityOpt := ["no-new-privileges"]; Tmpfs := [("/tmp", "size=64m")];
     Memory := wrap64 (memoryMB * 1024 * 1024) |}.

(** From the wait on: the container exists. *)
Definition run_created (timeout : Z) (id : string) : DM (result run_error RunResult) :=
  _ ← ask (R := dreply) (timed timeout (Wait id NextExit));
  err ← ask (R := dreply) (timed timeout (Start id));
  match err : option string with
  | Some e => mret (Err (StartingContainer e))
  | None =>
      err ← ask (R := dreply) (timed timeout (Logs id));
      match err : option string with
      | Some e => mret (Err (FetchingLogs e))
      | None =>
          streams ← ask (R := dreply) (timed timeout (Copy id));
          match streams : copied with
          | CopyFailed true _ => mret (Err (TimedOut timeout))
          | CopyFailed false e => mret (Err (ReadingLogs e))
          | Streams stdout stderr =>
              res ← ask (R := dreply) (timed timeout (Select id));
              mret (match res : waited with
                    | Exited code => Ok {| ExitCode := code; Stdout := stdout; Stderr := stderr |}
                    | WaitFailed e => Err (WaitingForContainer e)
                    | DeadlinePassed => Err (TimedOut timeout)
                    end)
          end
      end
  end.

Definition timeout_of (spec : RunSpec) : Z := if (Timeout_ spec <=? 0)%Z then defaultTimeout else Timeout_ spec.
Definition memory_of (spec : RunSpec) : Z := if (MemoryMB spec <=? 0)%Z then defaultMemoryMB else MemoryMB spec.

Definition Run (spec : RunSpec) : DM (result run_error RunResult) :=
  let timeout := timeout_of spec in
  err ← ensureImage timeout (Image spec);
  match err with
  | Some e => mret (Err e)
  | None =>
      created ← ask (R := dreply) (timed timeout (Create (container_of spec (memory_of spec))));
      match created : result string string with
      | Err e => mret (Err (CreatingContainer e))
      | Ok id =>
          r ← run_created timeout id;
          _ ← ask (R := dreply) (background (Remove id true));     (** deferred *)
          mret r
      end
  end.

(** ** shell.exec *)

Definition shellExecImage : string := "alpine:3.20".
Inductive shell_error := MissingCommand | ConnectingToDocker (msg : string) | RunFailed (e : run_error).
(** What [once.Do] has left: nothing yet, or what NewRunner returned the one time. *)
Abbreviation runner := (option (option string)).
Definition connect (r : runner) : DM (option string) :=
  match r with
  | Some err => mret err
  | None => err ← ask (R := dreply) (background Connect); mret (err : option string)
  end.
Definition shell_spec (command : string) : RunSpec :=
  {| Image := shellExecImage; Command := ["sh"; "-c"; command]; Timeout_ := 0; MemoryMB := 0 |}.
(** The runner left behind, and the answer. *)
Definition shell_exec (r : runner) (tenant : string) (args : gmap string any)
  : DM (runner * result shell_error (gmap string any)) :=
  let command := as_string (mget args "command") in
  if sempty command then mret (r, Err MissingCommand)
  else
    err ← connect r;
    match err with
    | Some e => mret (Some err, Err (ConnectingToDocker e))
    | None =>
        res ← Run (shell_spec command);
        mret (Some None, match res with
              | Err e => Err (RunFailed e)
              | Ok r => Ok (obj [("status", AString "executed"); ("tool", AString "shell.exec"); ("exit_code", AInt64 (ExitCode r));
                                 ("stdout", AString (Stdout r)); ("stderr", AString (Stderr r))])
              end)
    end.

(** ** What the daemon keeps *)

(** The containers that exist, and whether each is running; whether the run's deadline has
    passed; whether the daemon carried out a creation and did not answer for it, or failed
    at a removal it was asked for (ghost). *)
Record daemon := { containers : gmap string bool; expired : bool; lost : bool }.
Definition with_containers (w : daemon) (m : gmap string bool) : daemon :=
  {| containers := m; expired := expired w; lost := lost w |}.
Definition losing (w : daemon) : daemon := {| containers := containers w; expired := expired w; lost := true |}.

(** Time passes: the deadline may, and a running container may exit. *)
Definition lapse (w w' : daemon) : Prop :=
  dom (containers w') = dom (containers w) ∧ (∀ id, containers w !! id = Some false → containers w' !! id = Some false) ∧
  (expired w = true → expired w' = true) ∧ lost w' = lost w.

(** A call made under a context that is done fails without reaching the daemon. *)
Definition cancelled (w : daemon) (c : dcall) : bool := expired w && bool_decide (is_Some (deadline c)).
Definition cut_short (o : dop) : answer o → Prop :=
  match o with
  | Create _ => λ r, ∃ e, r = Err e
  | Wait _ _ => λ _, True
  | Copy _ => λ r, ∃ e, r = CopyFailed true e
  | Select _ => λ _, True
  | _ => λ r, r ≠ None
  end.

(** What the daemon does. A creation that fails may have been carried out; a container
    that is running is not removed unless by force; any other removal is carried out,
    whatever is answered, or the daemon fails at it. *)
Definition serve (w : daemon) (o : dop) : answer o → daemon → Prop :=
  match o with
  | Create _ => λ r w', match r with
      | Ok id => containers w !! id = None ∧ w' = with_containers w (<[id := false]> (containers w))
      | Err _ => w' = w ∨ ∃ id, containers w !! id = None ∧ w' = losing (with_containers w (<[id := false]> (containers w)))
      end
  | Start id => λ r w', w' = with_containers w (alter (λ _, true) id (containers w)) ∨ (r ≠ None ∧ w' = w)
  | Remove id force => λ r w',
      match containers w !! id with
      | None => r ≠ None ∧ w' = w
      | Some running =>
          if running && negb force then r ≠ None ∧ w' = w
          else w' = with_containers w (delete id (containers w)) ∨ (r ≠ None ∧ w' = losing w)
      end
  | _ => λ _ w', w' = w
  end.

Definition docker (w : daemon) (c : dcall) (r : dreply c) (w' : daemon) : Prop :=
  ∃ w1, lapse w w1 ∧ if cancelled w1 c then cut_short (op c) r ∧ w' = w1 else serve w1 (op c) r w'.

(** The same containers, and nothing newly lost. *)
Definition keeps (w w' : daemon) : Prop := dom (containers w') = dom (containers w) ∧ lost w' = lost w.
#[global] Instance keeps_preorder : PreOrder keeps.
Proof. split; [done|]. intros w1 w2 w3 [H1 H2] [H3 H4]. split; congruence. Qed.

Lemma other_calls_keep w (c : dcall) (r : dreply c) w' :
  match op c with Create _ | Remove _ _ => False | _ => True end → docker w c r w' → keeps w w'.
Proof.
  intros Ho (w1 & (Hd & _ & _ & Hl) & H). destruct (cancelled w1 c); [by destruct H as [_ ->]|].
  unfold serve in H. destruct c as [d []]; cbn in *; try done; try (by subst).
  destruct H as [->|[_ ->]]; [|done]. split; [|done]. cbn. by rewrite dom_alter_L.
Qed.

Lemma ensureImage_alone timeout ref w w' res : alone docker w (ensureImage timeout ref) w' res → keeps w w'.
Proof.
  intros (r & w1 & Hd%other_calls_keep & H); [|done]. etrans; [exact Hd|]. clear Hd. destruct r as [e|]; [|by destruct H as [-> _]].
  destruct H as (r & w2 & Hd%other_calls_keep & H); [|done]. etrans; [exact Hd|]. clear Hd. destruct r as [e'|]; [by destruct H as [-> _]|].
  by destruct H as (r & w3 & Hd%other_calls_keep & -> & _).
Qed.
Lemma run_created_alone timeout id w w' res : alone docker w (run_created timeout id) w' res → keeps w w'.
Proof.
  intros (r & w1 & Hd%other_calls_keep & H); [|done]. etrans; [exact Hd|]. clear Hd.
  destruct H as (r1 & w2 & Hd%other_calls_keep & H); [|done]. etrans; [exact Hd|]. clear Hd. destruct r1 as [e|]; [by destruct H as [-> _]|].
  destruct H as (r1 & w3 & Hd%other_calls_keep & H); [|done]. etrans; [exact Hd|]. clear Hd. destruct r1 as [e|]; [by destruct H as [-> _]|].
  destruct H as (r1 & w4 & Hd%other_calls_keep & H); [|done]. etrans; [exact Hd|]. clear Hd.
  destruct r1 as [out err|[] e]; [|by destruct H as [-> _]..].
  by destruct H as (r1 & w5 & Hd%other_calls_keep & -> & _).
Qed.

(** A removal by force, under no deadline, of a container that exists. *)
Lemma forced_removal w id (r : dreply (background (Remove id true))) w' :
  docker w (background (Remove id true)) r w' → id ∈ dom (containers w) →
  (dom (containers w') = dom (containers w) ∖ {[id]} ∧ lost w' = lost w) ∨ lost w' = true.
Proof.
  intros (w1 & (Hd & _ & _ & Hl) & H) Hid. unfold cancelled in H. cbn in H. rewrite andb_false_r in H.
  rewrite <- Hd in Hid. apply elem_of_dom in Hid as [running Hr]. rewrite Hr, andb_false_r in H.
  destruct H as [->|[_ ->]]; [left|by right]. cbn. by rewrite dom_delete_L, Hd.
Qed.

(** C36. A command leaves no container behind, however it ends: at its deadline, whenever
    that passes, with a failure of any call, or with its exit code, and whether or not the
    container is still running then. A call made under the run's deadline once it has
    passed does nothing, and a running container is only removed by force; so the only
    exceptions are the daemon's own: a creation it carried out and did not answer for,
    and a removal it failed at. *)
Theorem containers_are_removed spec w w' res :
  alone docker w (Run spec) w' res → lost w' = false → dom (containers w') = dom (containers w).
Proof.
  unfold Run. intros H Hl. apply alone_bind in H as (err & w1 & [Hd1 Hl1]%ensureImage_alone & H).
  destruct err as [e|]; [by destruct H as [-> _]|]. destruct H as (created & w2 & Hc & H).
  destruct Hc as (w1' & (Hd2 & _ & _ & Hl2) & Hc).
  destruct (cancelled w1' _); [destruct Hc as [[e ->] ->]; destruct H as [-> _]; congruence|]. cbn in Hc.
  destruct created as [id|e].
  - destruct Hc as [Hid ->]. apply (alone_bind docker (run_created _ id)) in H as (r & w3 & [Hd3 Hl3]%run_created_alone & H).
    destruct H as (removed & w4 & Hr & -> & _). cbn in Hd3. apply not_elem_of_dom in Hid.
    apply forced_removal in Hr as [[Hd4 Hl4]|Hl4]; [|congruence|rewrite Hd3; set_solver].
    rewrite Hd4, Hd3, <- Hd1, <- Hd2. set_solver.
  - destruct H as [-> _]. destruct Hc as [->|(id & _ & ->)]; [congruence|discriminate].
Qed.

(** ** What the calls are *)

Definition isolated (spec : RunSpec) (c : container) : Prop :=
  c_Image c = Image spec ∧ c_Cmd c = Command spec ∧ NetworkMode c = "none" ∧ ReadonlyRootfs c = true ∧
  CapDrop c = ["ALL"] ∧ SecurityOpt c = ["no-new-privileges"] ∧ Memory c = wrap64 (memory_of spec * 1024 * 1024).
Definition run_call (spec : RunSpec) (c : dcall) : Prop :=
  (deadline c = Some (timeout_of spec) ∨ ∃ id, c = background (Remove id true)) ∧
  (∀ k, op c = Create k → isolated spec k) ∧ (∀ ref, op c = Pull ref → ref = Image spec).

Lemma timed_call spec o : (∀ k, o = Create k → isolated spec k) → (∀ ref, o = Pull ref → ref = Image spec) →
  run_call spec (timed (timeout_of spec) o).
Proof. intros Hc Hp. split; [by left|]. by split. Qed.
Ltac timed_vis := apply within_vis; [by apply timed_call; intros ? [= <-]|intros ?].

Lemma run_calls spec : within (run_call spec) (Run spec).
Proof.
  unfold Run, ensureImage. apply within_bind.
  - timed_vis. destruct r as [e|]; [|apply within_ret]. timed_vis. destruct r as [e'|]; [apply within_ret|].
    timed_vis. apply within_ret.
  - intros [e|]; [apply within_ret|]. timed_vis. destruct r as [id|e]; [|apply within_ret]. apply within_bind.
    + unfold run_created. do 2 timed_vis. destruct r0 as [e|]; [apply within_ret|]. timed_vis.
      destruct r0 as [e|]; [apply within_ret|]. timed_vis. destruct r0 as [out err|[] e]; try apply within_ret.
      timed_vis. apply within_ret.
    + intros a. apply within_vis; [|intros ?; apply within_ret]. split; [right; by exists id|]. by split.
Qed.

(** The timeout of a command is that of every call made for it, the removal alone
    excepted: looking for the image and pulling it are under it too. *)
Theorem the_pull_is_timed spec c :
  emits (Run spec) c → deadline c = Some (timeout_of spec) ∨ ∃ id, c = background (Remove id true).
Proof. intros H. by apply run_calls in H as [? _]. Qed.

(** Every container shell.exec asks for runs the given command in a shell of the one
    image, without a network, on a read-only root, without capabilities or a way to gain
    privileges, in 256 MiB; and no other image is pulled. *)
Theorem shell_commands_are_isolated r tenant args c :
  emits (shell_exec r tenant args) c →
  (∀ k, op c = Create k →
     c_Image k = shellExecImage ∧ c_Cmd k = ["sh"; "-c"; as_string (mget args "command")] ∧ NetworkMode k = "none" ∧
     ReadonlyRootfs k = true ∧ CapDrop k = ["ALL"] ∧ SecurityOpt k = ["no-new-privileges"] ∧
     Memory k = (256 * 1024 * 1024)%Z) ∧
  (∀ ref, op c = Pull ref → ref = shellExecImage).
Proof.
  unfold shell_exec. destruct (sempty _); [by intros []|]. intros [H|(err & _ & H)]%emits_bind.
  - destruct r as [err|]; [by destruct H|]. destruct H as [->|[? []]]. by split.
  - destruct err as [e|]; [by destruct H|]. apply emits_bind in H as [H|(? & _ & [])].
    by apply run_calls in H as (_ & Hc & Hp).
Qed.

(** An answer is the container's own: its two streams read to their end and the exit
    code of the wait that was subscribed before the container was started, which is for
    the next exit; then the container is removed. *)
Theorem answers_are_the_containers spec t res :
  histories (Run spec) t (Ok res) →
  ∃ pre id (err : option string), let timed := timed (timeout_of spec) in
    t = (pre ++ [existT (timed (Create (container_of spec (memory_of spec)))) (Ok id : dreply (timed (Create _)));
                 existT (timed (Wait id NextExit)) (() : dreply (timed (Wait _ _)));
                 existT (timed (Start id)) (None : dreply (timed (Start _)));
                 existT (timed (Logs id)) (None : dreply (timed (Logs _)));
                 existT (timed (Copy id)) (Streams (Stdout res) (Stderr res) : dreply (timed (Copy _)));
                 existT (timed (Select id)) (Exited (ExitCode res) : dreply (timed (Select _)));
                 existT (background (Remove id true)) (err : dreply (background (Remove _ _)))])%list.
Proof.
  unfold Run. intros (err & pre & t2 & -> & _ & H)%histories_bind. destruct err as [e|]; [by destruct H|].
  destruct H as (created & t3 & -> & H). destruct created as [id|e]; [|by destruct H].
  apply (histories_bind (run_created _ id)) in H as (r & t4 & t5 & -> & H & (removed & t6 & -> & -> & <-)).
  destruct H as ([] & t7 & -> & started & t8 & -> & H). destruct started as [e|]; [by destruct H|].
  destruct H as (logs & t9 & -> & H). destruct logs as [e|]; [by destruct H|].
  destruct H as (streams & t10 & -> & H). destruct streams as [out err|[] e]; [|by destruct H..].
  destruct H as (ended & t11 & -> & -> & H). destruct ended as [code|e|]; [|done..]. injection H as ->.
  exists pre, id, removed. done.
Qed.

(** ** Concrete runs *)

Module SandboxWitnesses.
Definition spec : RunSpec := shell_spec "echo hi".
Definition quiet : daemon := {| containers := {["db" := true]}; expired := false; lost := false |}.
Definition args : gmap string any := obj [("command", AString "echo hi")].

(** A run whose command hangs: the deadline passes while its output is read, and the
    container is still running when it is removed. *)
Definition hung : daemon := {| containers := {["c1" := true; "db" := true]}; expired := true; lost := false |}.
Definition done_with : daemon := {| containers := {["db" := true]}; expired := true; lost := false |}.
Lemma same_lapse w : lapse w w.
Proof. by split_and!. Qed.
Lemma hangs : alone docker quiet (Run spec) done_with (Err (TimedOut defaultTimeout)).
Proof.
  exists None, quiet. split; [by exists quiet; split; [apply same_lapse|]|].
  exists (Ok "c1"), (with_containers quiet {["c1" := false; "db" := true]}).
  split; [exists quiet; split; [apply same_lapse|]; vm_compute; done|].
  eexists (), _. split; [eexists; split; [apply same_lapse|]; reflexivity|].
  exists None, (with_containers quiet {["c1" := true; "db" := true]}).
  split; [eexists; split; [apply same_lapse|]; left; vm_compute; reflexivity|].
  eexists None, _. split; [eexists; split; [apply same_lapse|]; reflexivity|].
  exists (CopyFailed true "context deadline exceeded"), hung.
  split. { exists hung. split; [by split_and!|]. vm_compute. split; [by eexists|reflexivity]. }
  exists None, done_with. split; [|done].
  exists hung. split; [apply same_lapse|]. left. vm_compute. reflexivity.
Qed.
Lemma containers_are_removed_witness : dom (containers done_with) = dom (containers quiet).
Proof. exact (containers_are_removed spec quiet done_with _ hangs eq_refl). Defined.

Definition pull : dcall := timed (30 * 10 ^ 9) (Pull "alpine:3.20").
Lemma pulled : emits (Run spec) pull.
Proof. right. exists (Some "not found"). by left. Qed.
Lemma the_pull_is_timed_witness : deadline pull = Some (timeout_of spec) ∨ ∃ id, pull = background (Remove id true).
Proof. exact (the_pull_is_timed spec pull pulled). Defined.

Definition create : dcall := timed (30 * 10 ^ 9) (Create (container_of spec 256)).
Lemma created : emits (shell_exec (Some None) "acme" args) create.
Proof. right. exists None. by left. Qed.
Lemma shell_commands_are_isolated_witness :
  (∀ k, op create = Create k →
     c_Image k = shellExecImage ∧ c_Cmd k = ["sh"; "-c"; as_string (mget args "command")] ∧ NetworkMode k = "none" ∧
     ReadonlyRootfs k = true ∧ CapDrop k = ["ALL"] ∧ SecurityOpt k = ["no-new-privileges"] ∧
     Memory k = (256 * 1024 * 1024)%Z) ∧
  (∀ ref, op create = Pull ref → ref = shellExecImage).
Proof. exact (shell_commands_are_isolated (Some None) "acme" args create created). Defined.

Definition said_hi : RunResult := {| ExitCode := 0; Stdout := "hi"; Stderr := "" |}.
Definition at_ (o : dop) (a : answer o) : {c : dcall & dreply c} := existT (timed (timeout_of spec) o) a.
Definition hi_run : list {c : dcall & dreply c} :=
  [at_ (Inspect "alpine:3.20") None; at_ (Create (container_of spec (memory_of spec))) (Ok "c1"); at_ (Wait "c1" NextExit) ();
   at_ (Start "c1") None; at_ (Logs "c1") None; at_ (Copy "c1") (Streams "hi" ""); at_ (Select "c1") (Exited 0);
   existT (background (Remove "c1" true)) (None : answer (Remove "c1" true))].
Lemma ran : histories (Run spec) hi_run (Ok said_hi).
Proof. repeat first [done | eexists _, _; split; [reflexivity|]]. Qed.
Lemma answers_are_the_containers_witness :
  ∃ pre id (err : option string), let timed := timed (timeout_of spec) in
    hi_run = (pre ++ [existT (timed (Create (container_of spec (memory_of spec)))) (Ok id : dreply (timed (Create _)));
                 existT (timed (Wait id NextExit)) (() : dreply (timed (Wait _ _)));
                 existT (timed (Start id)) (None : dreply (timed (Start _)));
                 existT (timed (Logs id)) (None : dreply (timed (Logs _)));
                 existT (timed (Copy id)) (Streams (Stdout said_hi) (Stderr said_hi) : dreply (timed (Copy _)));
                 existT (timed (Select id)) (Exited (ExitCode said_hi) : dreply (timed (Select _)));
                 existT (background (Remove id true)) (err : dreply (background (Remove _ _)))])%list.
Proof. exact (answers_are_the_containers spec hi_run said_hi ran). Defined.
End SandboxWitnesses.
