(* ===== verification/HttpServer.v ===== *)
(** * Package httpserver: what stands in front of every route

    go/internal/httpserver/httpserver.go with auth.MustLoadFromEnv of
    go/internal/auth/load.go: the server every binary builds. Of net/http the
    matching of the three patterns of the outer mux is modelled, with the cleaning of
    paths; the binary's own routes are a function of the caller and the request.
    Extracting the trace context changes no answer and is left out. *)

From S2P Require Import Prelude GoValue Policy Auth.

Local Open Scope string_scope.
Set Default Proof Using "Type*".

(** ** Paths *)

Fixpoint split_slash (s : string) : list string :=
  match s with
  | EmptyString => [""]
  | String c s =>
      if byte_is 47 c then "" :: split_slash s
      else match split_slash s with [] => [String c ""] | w :: ws => String c w :: ws end
  end.
(** [path.Clean] of a path from the root: its components, last first. *)
Definition clean_step (stack : list string) (seg : string) : list string :=
  if sempty seg || String.eqb seg "." then stack
  else if String.eqb seg ".." then tail stack
  else seg :: stack.
Definition cleanPath (p : string) : string :=
  let np := "/" +:+ str_join "/" (rev (foldl clean_step [] (split_slash p))) in
  if has_suffix p "/" && negb (String.eqb np "/") then np +:+ "/" else np.

(** [url.PathUnescape] of a path segment; a bad escape leaves it as it is. *)
Definition unhex (c : Ascii.ascii) : option nat :=
  let n := Ascii.nat_of_ascii c in
  if is_digit c then Some (n - 48) else if byte_in 97 102 c then Some (n - 87)
  else if byte_in 65 70 c then Some (n - 55) else None.
Fixpoint path_unescape (s : string) : option string :=
  match s with
  | EmptyString => Some ""
  | String c s =>
      if byte_is 37 c then
        match s with
        | String a (String b s) =>
            h ← unhex a; l ← unhex b; String (Ascii.ascii_of_nat (16 * h + l)) <$> path_unescape s
        | _ => None
        end
      else String c <$> path_unescape s
  end.
(** A pattern of one segment. *)
Definition matches_segment (name path : string) : bool :=
  match split_slash path with
  | ["" ; seg] => String.eqb (default seg (path_unescape seg)) name
  | _ => false
  end.

(** ** The server *)

Record request := { rq_Method : string; rq_Path : string; rq_Authorization : string }.
(** The path is the escaped one. *)
Inductive served (R : Type) :=
| Healthz | Readyz
| Redirected (path : string)
| BadRequest
| NotFound
| Unauthorized
| Routed (answer : R).
Arguments Healthz {R}.
Arguments Readyz {R}.
Arguments Redirected {R} path.
Arguments BadRequest {R}.
Arguments NotFound {R}.
Arguments Unauthorized {R}.
Arguments Routed {R} answer.

Section server.
Context {R : Type}.
(** The binary's mux, given the caller the middleware puts in the context. *)
Abbreviation routes := (Caller → request → R).

Definition dispatch (callers : Authenticator) (mux : routes) (rq : request) (path : string) : served R :=
  if matches_segment "healthz" path then Healthz
  else if matches_segment "readyz" path then Readyz
  else Require_ (Some callers) (rq_Authorization rq) Unauthorized (λ c, Routed (mux c rq)).

(** A server of the outer mux; no authenticator panics at startup. *)
Definition New (mux : routes) (callers : option Authenticator) : panicking (request → served R) :=
  match callers with
  | None => Panicked
  | Some callers => Returned (λ rq,
      if String.eqb (rq_Path rq) "*" then BadRequest
      else if String.eqb (rq_Method rq) "CONNECT" then
        if has_prefix (rq_Path rq) "/" then dispatch callers mux rq (rq_Path rq) else NotFound
      else
        let path := cleanPath (rq_Path rq) in
        if String.eqb path (rq_Path rq) then dispatch callers mux rq path else Redirected path)
  end.
End server.

Definition getenv (env : gmap string string) (name : string) : string := default "" (env !! name).
Definition Port (env : gmap string string) : string :=
  let p := getenv env "AEON_PORT" in if sempty p then "8090" else p.

(** ** The callers *)

Definition CallersPathEnv : string := "AEON_CALLERS_PATH".
Definition CallersDirEnv : string := "AEON_CALLERS_DIR".

Section callers.
Context (unicode_lower : string → string) (read_callers : string → result string CallerBundleDoc)
        (join : string → string → string) (read_dir : string → result string (list PolicySet.DirEntry)) `{GoRuntime}.

(** Why the process exits. *)
Inductive callers_fatal :=
| BothSet
| NeitherSet
| LoadingFile (path : string) (e : string + load_error)
| LoadingDir (dir : string) (e : dir_error).
Definition MustLoadFromEnv (env : gmap string string) : result callers_fatal Authenticator :=
  let path := getenv env CallersPathEnv in
  let dir := getenv env CallersDirEnv in
  if negb (sempty path) && negb (sempty dir) then Err BothSet
  else if sempty path && sempty dir then Err NeitherSet
  else if negb (sempty dir) then
    match LoadDir unicode_lower read_callers join read_dir dir with Ok a => Ok a | Err e => Err (LoadingDir dir e) end
  else match LoadFile unicode_lower read_callers path with Ok a => Ok a | Err e => Err (LoadingFile path e) end.

(** ** What reaches the routes *)

Lemma loaded_callers env a h c : MustLoadFromEnv env = Ok a → byTokenHash a !! h = Some c → caller_ok c ∧ TokenSHA256 c = h.
Proof.
  unfold MustLoadFromEnv. destruct (_ && _); [done|]. destruct (_ && _); [done|]. intros Hl Hc.
  assert (∃ doc, Load unicode_lower doc = Ok a) as [doc Hd].
  { destruct (negb _).
    - unfold LoadDir in Hl. destruct (read_dir _) as [entries|]; [|done].
      destruct (fold_res _ _ _) as [[f m]|]; [|done]. destruct (Load _ _) as [a'|] eqn:Hd; [|done].
      injection Hl as <-. eauto.
    - unfold LoadFile in Hl. destruct (read_callers _) as [doc|]; [|done].
      destruct (Load _ doc) as [a'|] eqn:Hd; [|done]. injection Hl as <-. eauto. }
  apply Load_table in Hd as (Hval & _ & _). by destruct (Hval h c Hc) as (? & ? & _).
Qed.

Lemma authenticated a token c : Authenticate (Some a) token = Ok c → token ≠ "" ∧ byTokenHash a !! HashToken token = Some c.
Proof.
  unfold Authenticate. destruct (sempty token) eqn:Ht; [done|]. apply sempty_false in Ht.
  destruct (byTokenHash a !! HashToken token) as [c'|]; [|done]. case_bool_decide; [|done]. by intros [= ->].
Qed.

(** A path that is one of the two probes. *)
Definition probe (path : string) : Prop := matches_segment "healthz" path = true ∨ matches_segment "readyz" path = true.

Section routes.
Context {R : Type}.
Implicit Types (mux : Caller → request → R).

Lemma dispatch_routed a mux rq path r :
  dispatch a mux rq path = Routed r →
  ¬ probe path ∧ ∃ c, Authenticate (Some a) (bearerToken (rq_Authorization rq)) = Ok c ∧ r = mux c rq.
Proof.
  unfold dispatch, Require_, probe. destruct (matches_segment "healthz" path); [done|].
  destruct (matches_segment "readyz" path); [done|]. destruct (Authenticate _ _) as [c|]; [|done].
  intros [= <-]. split; [intros [?|?]; done|eauto].
Qed.

(** C5. In every binary a request reaches the routes only with the caller of its bearer
    token: one that the caller bundles of the environment declare, whose digest the
    token has, of a valid kind and tenant. Whoever has no such token gets the same
    answer whatever the routes are, and never one of theirs. The two probes are answered
    to anyone and are not routes. *)
Theorem only_callers_reach_the_routes env a mux (server : request → served R) rq :
  MustLoadFromEnv env = Ok a → New mux (Some a) = Returned server →
  (∀ r, server rq = Routed r →
     ¬ probe (rq_Path rq) ∧
     ∃ c, Authenticate (Some a) (bearerToken (rq_Authorization rq)) = Ok c ∧ r = mux c rq ∧
       bearerToken (rq_Authorization rq) ≠ "" ∧ TokenSHA256 c = HashToken (bearerToken (rq_Authorization rq)) ∧ caller_ok c) ∧
  (byTokenHash a !! HashToken (bearerToken (rq_Authorization rq)) = None →
   (∀ r, server rq ≠ Routed r) ∧
   ∀ mux' server', New mux' (Some a) = Returned server' → server' rq = server rq) ∧
  (∀ c, Authenticate (Some a) (bearerToken (rq_Authorization rq)) = Ok c → cleanPath (rq_Path rq) = rq_Path rq →
     rq_Path rq ≠ "*" → rq_Method rq ≠ "CONNECT" → ¬ probe (rq_Path rq) → server rq = Routed (mux c rq)).
Proof.
  intros Ha [= <-].
  assert (Hrouted : ∀ path r, dispatch a mux rq path = Routed r → path = rq_Path rq →
    ¬ probe (rq_Path rq) ∧ ∃ c, Authenticate (Some a) (bearerToken (rq_Authorization rq)) = Ok c ∧ r = mux c rq ∧
       bearerToken (rq_Authorization rq) ≠ "" ∧ TokenSHA256 c = HashToken (bearerToken (rq_Authorization rq)) ∧ caller_ok c).
  { intros path r (Hp & c & Hc & ->)%dispatch_routed <-. split; [done|]. exists c.
    destruct (authenticated a _ c Hc) as [Ht Hl]. by destruct (loaded_callers env a _ c Ha Hl). }
  assert (Hall : ∀ r, (if String.eqb (rq_Path rq) "*" then BadRequest
    else if String.eqb (rq_Method rq) "CONNECT" then
      if has_prefix (rq_Path rq) "/" then dispatch a mux rq (rq_Path rq) else NotFound
    else if String.eqb (cleanPath (rq_Path rq)) (rq_Path rq) then dispatch a mux rq (cleanPath (rq_Path rq))
         else Redirected (cleanPath (rq_Path rq))) = Routed r →
    ∃ path, dispatch a mux rq path = Routed r ∧ path = rq_Path rq).
  { intros r. destruct (String.eqb_spec (rq_Path rq) "*"); [done|].
    destruct (String.eqb (rq_Method rq) "CONNECT"); [destruct (has_prefix _ _); [|done]; eauto|].
    destruct (String.eqb_spec (cleanPath (rq_Path rq)) (rq_Path rq)); [eauto|done]. }
  split_and!.
  - intros r (path & H1 & H2)%Hall. by eapply Hrouted.
  - intros Hno. split.
    + intros r (path & H1 & H2)%Hall. destruct (Hrouted path r H1 H2) as (_ & c & Hc & _).
      apply authenticated in Hc as [_ Hc]. congruence.
    + intros mux' server' [= <-]. unfold dispatch, Require_.
      destruct (Authenticate _ _) as [c|] eqn:Hc; [|done]. apply authenticated in Hc as [_ Hc]. congruence.
  - intros c Hc Hclean Hstar Hconn Hprobe. cbv beta. rewrite Hclean.
    apply String.eqb_neq in Hstar as ->. apply String.eqb_neq in Hconn as ->. rewrite String.eqb_refl.
    unfold dispatch, Require_, probe in *. rewrite Hc.
    destruct (matches_segment "healthz" _), (matches_segment "readyz" _); tauto.
Qed.
End routes.
End callers.

(** ** A concrete server *)

Module HttpServerWitnesses.
Import AuthWitnesses.
#[local] Existing Instance amd64_runtime.
Definition env : gmap string string := {["AEON_CALLERS_PATH" := "callers.yaml"]}.
Definition one_bundle (path : string) : result string CallerBundleDoc :=
  if String.eqb path "callers.yaml" then Ok toy_token_bundle else Err "no such file".
Definition slash (a b : string) : string := a +:+ "/" +:+ b.
Definition no_dirs (d : string) : result string (list PolicySet.DirEntry) := Err "no such directory".
Definition show (c : Caller) (rq : request) : string := ID c +:+ " " +:+ rq_Path rq.
Definition req (path header : string) : request := {| rq_Method := "GET"; rq_Path := path; rq_Authorization := header |}.

Lemma env_loads : MustLoadFromEnv no_unicode one_bundle slash no_dirs env = Ok toy_token_auth.
Proof.
  unfold MustLoadFromEnv. change (getenv env CallersPathEnv) with "callers.yaml". change (getenv env CallersDirEnv) with "".
  cbn [sempty negb andb]. unfold LoadFile. change (one_bundle "callers.yaml") with (Ok (E := string) toy_token_bundle).
  cbv iota. by rewrite toy_token_loads.
Qed.
Example paths : cleanPath "/a/../runs//x/./" = "/runs/x/" ∧ cleanPath "" = "/" ∧ cleanPath "/../.." = "/" ∧
  matches_segment "healthz" "/%68ealthz" = true ∧ matches_segment "healthz" "/healthz/x" = false.
Proof. by vm_compute. Qed.
Example both_set : MustLoadFromEnv no_unicode one_bundle slash no_dirs (<["AEON_CALLERS_DIR" := "d"]> env) = Err BothSet.
Proof. by vm_compute. Qed.

Lemma knows_abc : Authenticate (Some toy_token_auth) (bearerToken "Bearer abc") = Ok toy_op.
Proof.
  change (bearerToken "Bearer abc") with "abc". unfold Authenticate, toy_token_auth, toy_op. cbn [byTokenHash sempty].
  generalize (HashToken "abc"). intros hash. rewrite lookup_singleton_eq. by rewrite bool_decide_eq_true_2.
Qed.
Lemma answered_to_op server : New show (Some toy_token_auth) = Returned server → server (req "/runs" "Bearer abc") = Routed "op /runs".
Proof.
  intros [= <-]. cbv beta. cbn [rq_Path rq_Method req String.eqb].
  change (dispatch toy_token_auth show (req "/runs" "Bearer abc") "/runs" = Routed "op /runs").
  unfold dispatch, Require_. cbn [rq_Authorization req]. by rewrite knows_abc.
Qed.

Lemma only_callers_reach_the_routes_witness :
  ∃ server, New show (Some toy_token_auth) = Returned server ∧
    server (req "/runs" "Bearer abc") = Routed (show toy_op (req "/runs" "Bearer abc")).
Proof.
  eexists. split; [reflexivity|].
  pose proof (only_callers_reach_the_routes no_unicode one_bundle slash no_dirs env toy_token_auth show _
    (req "/runs" "Bearer abc") env_loads eq_refl) as (_ & _ & H).
  apply (H toy_op knows_abc); [reflexivity|discriminate|discriminate|].
  intros [Hp|Hp]; by vm_compute in Hp.
Defined.
End HttpServerWitnesses.
