(* ===== verification/Startup.v ===== *)
(** * How the model gateway is put together

    go/cmd/aeon-modelgw/main.go, from its first line to the one that listens: the bundle of
    model policies, the providers the environment registers, with which credentials and
    scope, the check of the bundle's modalities against the provider's catalogue, the
    database and the quality threshold, the callers, and everything that makes the process
    exit before it serves. The process's environment and the cache of package secretref are
    the state; the catalogue and the connection to the database are calls; files, YAML and
    the loading of callers are parameters. The tracer, whose failure is only logged, is left
    out, and the routes mounted are modelled in their files. *)

From Stdlib Require Import Floats.SpecFloat.
From S2P Require Import Prelude GoValue Finops Policy Auth Program Numbers Secrets ModelGateway Prometheus HttpServer Quality.

Local Open Scope string_scope.
Set Default Proof Using "Type*".

(** What is sent to each provider: the configuration of an adapter. *)
Inductive adapter :=
| Anthropic (key : string)
| OpenAI (key : string)
| Gemini (key : string)
| PrometheusInference (gatewayURL clientID clientSecret scope model : string)
| OpenAICompatible (baseURL key : string).
Definition anthropic_Name : string := "anthropic".
Definition openai_Name : string := "openai".
Definition gemini_Name : string := "gemini".
Definition compatible_Name : string := "openai_compatible".
Definition name_of (a : adapter) : string :=
  match a with
  | Anthropic _ => anthropic_Name
  | OpenAI _ => openai_Name
  | Gemini _ => gemini_Name
  | PrometheusInference _ _ _ _ _ => Prometheus.Name
  | OpenAICompatible _ _ => compatible_Name
  end.
(** Only one adapter has a DecideStream. *)
Definition streams_of (a : adapter) : bool := match a with OpenAICompatible _ _ => true | _ => false end.

(** The scope as the environment and the bundle give it. *)
Definition scope_in (env : gmap string string) (bundle : ModelPolicyBundleDoc) : string :=
  prometheusScope (getenv env "PROMETHEUS_SCOPE") bundle.

(** ** The providers *)

(** A step of the startup: what it leaves the process, or why the process exits. *)
Definition ST (A : Type) : Type := process → result TakeError (process * A).
#[export] Instance st_ret : MRet ST := λ A a p, Ok (p, a).
#[export] Instance st_bind : MBind ST := λ A B f m p,
  match m p with Err e => Err e | Ok (p', a) => f a p' end.
Definition st_getenv (name : string) : ST string := λ p, Ok (p, getenv (environ p) name).
Definition st_environ : ST (gmap string string) := λ p, Ok (p, environ p).

Section providers.
(** The files a path leads to. *)
Context (files : string → option string).

Definition takeSecret (name : string) : ST (string * bool) := λ p,
  let '(p', got) := Take p files name in
  match res_err got with
  | Some e => Err e
  | None => Ok (p', (res_value got, match res_source got with SourceAbsent => false | _ => true end))
  end.

(** One registration: the adapters so far, and one more if it is configured. *)
Definition if_secret (name : string) (mk : string → adapter) : ST (list adapter) :=
  got ← takeSecret name; mret (if (got : string * bool).2 then [mk got.1] else []).
Definition if_prometheus (bundle : ModelPolicyBundleDoc) : ST (list adapter) :=
  clientID ← st_getenv "PROMETHEUS_CLIENT_ID";
  if sempty clientID then mret []
  else
    secret ← takeSecret "PROMETHEUS_CLIENT_SECRET";
    gatewayURL ← st_getenv "PROMETHEUS_GATEWAY_URL";
    env ← st_environ;
    model ← st_getenv "PROMETHEUS_DEFAULT_MODEL";
    mret [PrometheusInference gatewayURL clientID (secret : string * bool).1 (scope_in env bundle) model].
Definition if_compatible : ST (list adapter) :=
  baseURL ← st_getenv "OPENAI_COMPATIBLE_BASE_URL";
  if sempty baseURL then mret []
  else secret ← takeSecret "OPENAI_COMPATIBLE_API_KEY"; mret [OpenAICompatible baseURL (secret : string * bool).1].

Definition registerProvidersFromEnv (bundle : ModelPolicyBundleDoc) : ST (list adapter) :=
  a ← if_secret "ANTHROPIC_API_KEY" Anthropic;
  o ← if_secret "OPENAI_API_KEY" OpenAI;
  g ← if_secret "GOOGLE_API_KEY" Gemini;
  p ← if_prometheus bundle;
  c ← if_compatible;
  mret (a ++ o ++ g ++ p ++ c)%list.
Definition register (g : Gateway) (a : adapter) : Gateway := RegisterProvider g (name_of a) (streams_of a).

(** ** The catalogue *)

(** The client the catalogue is asked with. *)
Record client := { cl_GatewayURL : string; cl_ClientID : string; cl_ClientSecret : string; cl_Scope : string }.
(** What the start asks of the outside: the catalogue, and the database. *)
Inductive lcall :=
| ListModels (c : client)
| Connect (dsn : string).
Definition lreply (c : lcall) : Type :=
  match c with ListModels _ => result string (list CatalogEntry) | Connect _ => option string end.
Inductive verification :=
| NothingToVerify
| DidNotRun (msg : string)
| Passed (models : nat)
| Contradicted (l : list ModalityContradiction).
Definition verdict_on (bundle : ModelPolicyBundleDoc) (models : result string (list CatalogEntry)) : verification :=
  match models with
  | Err e => DidNotRun e
  | Ok catalog =>
      match VerifyModalitiesAgainstCatalog bundle Prometheus.Name catalog with
      | [] => Passed (length catalog)
      | l => Contradicted l
      end
  end.
(** The client it asks, if it asks. *)
Definition verify_client (bundle : ModelPolicyBundleDoc) : ST (option client) :=
  clientID ← st_getenv "PROMETHEUS_CLIENT_ID";
  if sempty clientID then mret None
  else
    secret ← takeSecret "PROMETHEUS_CLIENT_SECRET";
    gatewayURL ← st_getenv "PROMETHEUS_GATEWAY_URL";
    env ← st_environ;
    mret (Some {| cl_GatewayURL := gatewayURL; cl_ClientID := clientID; cl_ClientSecret := (secret : string * bool).1;
                  cl_Scope := scope_in env bundle |}).
Definition verifyDeclaredModalities (bundle : ModelPolicyBundleDoc) : ST (prog lreply verification) :=
  c ← verify_client bundle;
  mret (match c with
        | None => mret NothingToVerify
        | Some c => models ← ask (R := lreply) (ListModels c);
                    mret (verdict_on bundle (models : result string (list CatalogEntry)))
        end).

(** The gateway with its providers, and the check that is then made. *)
Definition register_and_verify (bundle : ModelPolicyBundleDoc) : ST (list adapter * Gateway * prog lreply verification) :=
  registered ← registerProvidersFromEnv bundle;
  check ← verifyDeclaredModalities bundle;
  mret (registered, foldl register ModelGateway.New registered, check).
End providers.

(** ** The threshold *)

Definition default_threshold : float64 := f_const 1 2.
Definition qualityScoreThreshold `{GoNumbers} (env : gmap string string) : option float64 :=
  let raw := getenv env "AEON_QUALITY_SCORE_THRESHOLD" in
  if sempty raw then Some default_threshold else ParseFloat raw.

(** ** The whole start *)

(** Why the process exits before it serves. *)
Inductive fatal :=
| ReadingBundle (path msg : string)
| ParsingBundle (path msg : string)
| TakingSecret (e : TakeError)
| ConnectingStore (msg : string)
| ThresholdNotANumber (raw : string)
| NoCallers (e : callers_fatal).

(** What it starts with; the threshold is there with the database, which also holds the
    ledger and the registry of agents. *)
Record modelgw := {
  gw_Bundle : ModelPolicyBundleDoc; gw_Pricing : Pricing.PricingTable;
  gw_Registered : list adapter; gw_Gateway : Gateway; gw_Verified : verification;
  gw_Threshold : option float64; gw_Callers : Authenticator; gw_Port : string;
}.
Definition set_quality (g : Gateway) : Gateway := {| providers := providers g; Quality := true |}.
Definition no_bundle : ModelPolicyBundleDoc := {| mb_APIVersion := ""; mb_Kind := ""; Profiles := [] |}.

Section main.
Context `{GoNumbers} `{GoRuntime}.
(** The file system, YAML, and what the callers are loaded with. *)
Context (files : string → option string) (read_file : string → result string string) (unmarshal : string → result string ModelPolicyBundleDoc).
Context (unicode_lower : string → string) (read_callers : string → result string CallerBundleDoc)
        (join : string → string → string) (read_dir : string → result string (list PolicySet.DirEntry)).

(** The variable the server reads its port from, as this process sets it. *)
Definition serving (env : gmap string string) : gmap string string :=
  let p := getenv env "AEON_MODELGW_PORT" in <["AEON_PORT" := if sempty p then "9402" else p]> env.

Definition loadModelPolicyBundle (env : gmap string string) : result fatal ModelPolicyBundleDoc :=
  let path := getenv env "AEON_MODEL_POLICY_BUNDLE_PATH" in
  if sempty path then Ok no_bundle
  else
    match read_file path with
    | Err e => Err (ReadingBundle path e)
    | Ok raw => match unmarshal raw with Err e => Err (ParsingBundle path e) | Ok doc => Ok doc end
    end.

(** The threshold the store of quality scores is made with, if there is a database. *)
Definition connect_store (env : gmap string string) : prog lreply (result fatal (option float64)) :=
  let dsn := getenv env "AEON_PG_DSN" in
  if sempty dsn then mret (Ok None)
  else
    err ← ask (R := lreply) (Connect dsn);
    mret (match err : option string with
          | Some e => Err (ConnectingStore e)
          | None =>
              match qualityScoreThreshold env with
              | None => Err (ThresholdNotANumber (getenv env "AEON_QUALITY_SCORE_THRESHOLD"))
              | Some threshold => Ok (Some threshold)
              end
          end).

Definition start (p : process) : prog lreply (result fatal (process * modelgw)) :=
  let p := {| environ := serving (environ p); cache := cache p |} in
  match loadModelPolicyBundle (environ p) with
  | Err e => mret (Err e)
  | Ok bundle =>
      match register_and_verify files bundle p with
      | Err e => mret (Err (TakingSecret e))
      | Ok (p, (registered, gw, check)) =>
          verified ← check;
          and_then (connect_store (environ p)) (λ threshold,
          match MustLoadFromEnv unicode_lower read_callers join read_dir (environ p) with
          | Err e => mret (Err (NoCallers e))
          | Ok callers =>
              mret (Ok (p, {|
                gw_Bundle := bundle; gw_Pricing := Pricing.NewPricingTable (PricingRates bundle);
                gw_Registered := registered;
                gw_Gateway := match threshold with Some _ => set_quality gw | None => gw end;
                gw_Verified := verified; gw_Threshold := threshold; gw_Callers := callers;
                gw_Port := Port (environ p) |}))
          end)
      end
  end.
End main.

(** ** The environment decides *)

Lemma registered_names l g : dom (providers (foldl register g l)) = dom (providers g) ∪ list_to_set (name_of <$> l).
Proof.
  revert g. induction l as [|a l IH]; intros g; cbn [foldl]; [simpl; set_solver|]. rewrite IH.
  cbn [register RegisterProvider providers fmap list_fmap list_to_set]. rewrite dom_insert_L. set_solver.
Qed.

Section startup.
Context (env : gmap string string) (files : string → option string) (bundle : ModelPolicyBundleDoc).

(** The process once some names have been taken. *)
Definition taking (n : string) : (string → option string) * string := (files, n).
Definition at_ (l : list string) : process := takes (boot env) (taking <$> l).
Definition first_error (names : list string) : option TakeError := head (omap (λ n, res_err (read env files n)) names).
(** A step that takes some names and yields a value, if none of them is misconfigured. *)
Definition reads {A} (l : list string) (m : ST A) (names : list string) (a : A) : Prop :=
  m (at_ l) = match first_error names with Some e => Err e | None => Ok (at_ (l ++ names), a) end.

Lemma first_error_app ns ns' :
  first_error (ns ++ ns') = match first_error ns with Some e => Some e | None => first_error ns' end.
Proof. unfold first_error. rewrite omap_app. by destruct (omap _ ns). Qed.

Lemma first_error_spec l :
  match first_error l with
  | Some e => ∃ name, name ∈ l ∧ res_err (read env files name) = Some e
  | None => ∀ name, name ∈ l → res_err (read env files name) = None
  end.
Proof.
  induction l as [|n l IH]; [by intros ? ?%not_elem_of_nil|].
  change (n :: l) with ([n] ++ l)%list at 1. rewrite first_error_app. unfold first_error at 1. simpl.
  destruct (res_err (read env files n)) as [e|] eqn:He; simpl; [exists n; split; [left|done]|].
  destruct (first_error l) as [e|]; [destruct IH as (m & ? & ?); exists m; split; [by right|done]|].
  intros m [->|?]%elem_of_cons; auto.
Qed.

Lemma reads_ret {A} l (a : A) : reads l (mret a) [] a.
Proof. unfold reads. simpl. by rewrite app_nil_r. Qed.
Lemma reads_bind {A B} l (m : ST A) (f : A → ST B) ns ns' a b :
  reads l m ns a → reads (l ++ ns) (f a) ns' b → reads l (m ≫= f) (ns ++ ns') b.
Proof.
  unfold reads. intros Hm Hf. change ((m ≫= f) (at_ l)) with (match m (at_ l) with Err e => Err e | Ok (p', a) => f a p' end).
  rewrite Hm, first_error_app. destruct (first_error ns); [done|]. by rewrite Hf, app_assoc.
Qed.

Lemma at_names l : (taking <$> l).*2 = l.
Proof. rewrite <- list_fmap_compose. apply list_fmap_id. Qed.
Lemma reads_take l name : Forall (λ n, apart n name) l →
  reads l (takeSecret files name) [name]
    (res_value (read env files name), match res_source (read env files name) with SourceAbsent => false | _ => true end).
Proof.
  intros Hl. unfold reads, takeSecret, first_error.
  pose proof (take_reads env (taking <$> l) files name) as Hr. rewrite at_names in Hr. specialize (Hr Hl).
  rewrite first_view_const in Hr by (apply Forall_fmap, Forall_true; done).
  assert ((Take (at_ l) files name).1 = at_ (l ++ [name])) as Hp by (unfold at_; rewrite fmap_app; change (taking <$> [name]) with [taking name]; by rewrite takes_snoc).
  fold (at_ l) in Hr. destruct (Take (at_ l) files name) as [p got]. simpl in Hr, Hp. subst. simpl.
  by destruct (res_err _).
Qed.

Lemma at_env l x : Forall (λ n, ¬ scrubs n x) l → environ (at_ l) !! x = env !! x.
Proof. intros Hl. apply environ_scrubbed. by rewrite at_names. Qed.
Lemma reads_getenv l x : Forall (λ n, ¬ scrubs n x) l → reads l (st_getenv x) [] (getenv env x).
Proof. intros Hl. unfold reads, st_getenv, getenv. rewrite at_env by done. simpl. by rewrite app_nil_r. Qed.
Lemma reads_environ l : reads l st_environ [] (environ (at_ l)).
Proof. unfold reads, st_environ. simpl. by rewrite app_nil_r. Qed.
Lemma scope_at l : Forall (λ n, ¬ scrubs n "PROMETHEUS_SCOPE") l → scope_in (environ (at_ l)) bundle = scope_in env bundle.
Proof. intros Hl. unfold scope_in, getenv. by rewrite at_env. Qed.

(** What the environment configures, read off it directly. *)
Definition is_set (name : string) : bool := negb (sempty (getenv env name)).
Definition credential (name : string) : string := res_value (read env files name).
Definition of_secret (name : string) (mk : string → adapter) : list adapter :=
  match res_source (read env files name) with SourceAbsent => [] | _ => [mk (credential name)] end.
Definition prometheus_client : client :=
  {| cl_GatewayURL := getenv env "PROMETHEUS_GATEWAY_URL"; cl_ClientID := getenv env "PROMETHEUS_CLIENT_ID";
     cl_ClientSecret := credential "PROMETHEUS_CLIENT_SECRET"; cl_Scope := scope_in env bundle |}.
Definition configured_adapters : list adapter :=
  (of_secret "ANTHROPIC_API_KEY" Anthropic ++ of_secret "OPENAI_API_KEY" OpenAI ++ of_secret "GOOGLE_API_KEY" Gemini ++
   (if is_set "PROMETHEUS_CLIENT_ID" then
      [PrometheusInference (cl_GatewayURL prometheus_client) (cl_ClientID prometheus_client) (cl_ClientSecret prometheus_client)
         (cl_Scope prometheus_client) (getenv env "PROMETHEUS_DEFAULT_MODEL")] else []) ++
   (if is_set "OPENAI_COMPATIBLE_BASE_URL" then
      [OpenAICompatible (getenv env "OPENAI_COMPATIBLE_BASE_URL") (credential "OPENAI_COMPATIBLE_API_KEY")] else []))%list.
(** The secrets a deployment's providers need. *)
Definition needed : list string :=
  (["ANTHROPIC_API_KEY"; "OPENAI_API_KEY"; "GOOGLE_API_KEY"] ++
   (if is_set "PROMETHEUS_CLIENT_ID" then ["PROMETHEUS_CLIENT_SECRET"] else []) ++
   (if is_set "OPENAI_COMPATIBLE_BASE_URL" then ["OPENAI_COMPATIBLE_API_KEY"] else []))%list.

Ltac by_names := apply (bool_decide_unpack _); by vm_compute.

Lemma reads_if_secret l name mk : Forall (λ n, apart n name) l → reads l (if_secret files name mk) [name] (of_secret name mk).
Proof.
  intros Hl. change [name] with ([name] ++ [])%list. eapply reads_bind; [by apply reads_take|].
  unfold of_secret, credential. destruct (res_source _); apply reads_ret.
Qed.

(** Names that touch no variable of the startup but their own. *)
Definition clear (l : list string) (name : string) : bool := bool_decide (Forall (λ n, apart n name) l).
Definition unscrubbed (l : list string) (x : string) : bool := bool_decide (Forall (λ n, ¬ scrubs n x) l).

Lemma reads_prometheus l : clear l "PROMETHEUS_CLIENT_SECRET" = true →
  forallb (unscrubbed ("PROMETHEUS_CLIENT_SECRET" :: l))
    ["PROMETHEUS_CLIENT_ID"; "PROMETHEUS_GATEWAY_URL"; "PROMETHEUS_SCOPE"; "PROMETHEUS_DEFAULT_MODEL"] = true →
  reads l (if_prometheus files bundle) (if is_set "PROMETHEUS_CLIENT_ID" then ["PROMETHEUS_CLIENT_SECRET"] else [])
    (if is_set "PROMETHEUS_CLIENT_ID" then
       [PrometheusInference (cl_GatewayURL prometheus_client) (cl_ClientID prometheus_client) (cl_ClientSecret prometheus_client)
          (cl_Scope prometheus_client) (getenv env "PROMETHEUS_DEFAULT_MODEL")] else []).
Proof.
  unfold clear. cbn [forallb]. unfold unscrubbed. rewrite !andb_true_iff, !bool_decide_eq_true.
  setoid_rewrite Forall_cons. intros Hl ([Hi' Hi] & [Hg' Hg] & [Hs' Hs] & [Hd' Hd] & _).
  apply (reads_bind _ _ _ [] _ _ _ (reads_getenv l _ Hi)). unfold is_set. rewrite app_nil_r.
  destruct (sempty (getenv env "PROMETHEUS_CLIENT_ID")); cbn [negb]; [apply reads_ret|].
  apply (reads_bind _ _ _ ["PROMETHEUS_CLIENT_SECRET"] [] _ _ (reads_take l _ Hl)).
  assert (Hsnoc : ∀ x, ¬ scrubs "PROMETHEUS_CLIENT_SECRET" x → Forall (λ n, ¬ scrubs n x) l →
    Forall (λ n, ¬ scrubs n x) (l ++ ["PROMETHEUS_CLIENT_SECRET"])) by (intros; apply Forall_app_2; [|constructor]; done).
  apply (reads_bind _ _ _ [] [] _ _ (reads_getenv _ _ (Hsnoc _ Hg' Hg))). rewrite app_nil_r.
  apply (reads_bind _ _ _ [] [] _ _ (reads_environ _)). rewrite app_nil_r.
  apply (reads_bind _ _ _ [] [] _ _ (reads_getenv _ _ (Hsnoc _ Hd' Hd))). rewrite app_nil_r.
  rewrite scope_at by auto. apply reads_ret.
Qed.

Lemma reads_compatible l : clear l "OPENAI_COMPATIBLE_API_KEY" = true → unscrubbed l "OPENAI_COMPATIBLE_BASE_URL" = true →
  reads l (if_compatible files) (if is_set "OPENAI_COMPATIBLE_BASE_URL" then ["OPENAI_COMPATIBLE_API_KEY"] else [])
    (if is_set "OPENAI_COMPATIBLE_BASE_URL" then
       [OpenAICompatible (getenv env "OPENAI_COMPATIBLE_BASE_URL") (credential "OPENAI_COMPATIBLE_API_KEY")] else []).
Proof.
  unfold clear, unscrubbed. rewrite !bool_decide_eq_true. intros Hl Hu.
  apply (reads_bind _ _ _ [] _ _ _ (reads_getenv l _ Hu)). unfold is_set. rewrite app_nil_r.
  destruct (sempty _); cbn [negb]; [apply reads_ret|].
  apply (reads_bind _ _ _ ["OPENAI_COMPATIBLE_API_KEY"] [] _ _ (reads_take l _ Hl)). apply reads_ret.
Qed.

Lemma reads_verify l : clear l "PROMETHEUS_CLIENT_SECRET" = true →
  forallb (unscrubbed ("PROMETHEUS_CLIENT_SECRET" :: l)) ["PROMETHEUS_CLIENT_ID"; "PROMETHEUS_GATEWAY_URL"; "PROMETHEUS_SCOPE"] = true →
  reads l (verify_client files bundle) (if is_set "PROMETHEUS_CLIENT_ID" then ["PROMETHEUS_CLIENT_SECRET"] else [])
    (if is_set "PROMETHEUS_CLIENT_ID" then Some prometheus_client else None).
Proof.
  unfold clear. cbn [forallb]. unfold unscrubbed. rewrite !andb_true_iff, !bool_decide_eq_true.
  setoid_rewrite Forall_cons. intros Hl ([Hi' Hi] & [Hg' Hg] & [Hs' Hs] & _).
  apply (reads_bind _ _ _ [] _ _ _ (reads_getenv l _ Hi)). unfold is_set. rewrite app_nil_r.
  destruct (sempty (getenv env "PROMETHEUS_CLIENT_ID")); cbn [negb]; [apply reads_ret|].
  apply (reads_bind _ _ _ ["PROMETHEUS_CLIENT_SECRET"] [] _ _ (reads_take l _ Hl)).
  assert (Hsnoc : ∀ x, ¬ scrubs "PROMETHEUS_CLIENT_SECRET" x → Forall (λ n, ¬ scrubs n x) l →
    Forall (λ n, ¬ scrubs n x) (l ++ ["PROMETHEUS_CLIENT_SECRET"])) by (intros; apply Forall_app_2; [|constructor]; done).
  apply (reads_bind _ _ _ [] [] _ _ (reads_getenv _ _ (Hsnoc _ Hg' Hg))). rewrite app_nil_r.
  apply (reads_bind _ _ _ [] [] _ _ (reads_environ _)). rewrite app_nil_r.
  rewrite scope_at by auto. apply reads_ret.
Qed.

Lemma reads_register : reads [] (registerProvidersFromEnv files bundle) needed configured_adapters.
Proof.
  unfold registerProvidersFromEnv, needed.
  change ([?a; ?b; ?c] ++ ?d)%list with ([a] ++ [b] ++ [c] ++ d)%list.
  eapply reads_bind; [apply reads_if_secret; constructor|].
  eapply reads_bind; [apply reads_if_secret; apply (bool_decide_unpack _); by vm_compute|].
  eapply reads_bind; [apply reads_if_secret; apply (bool_decide_unpack _); by vm_compute|].
  eapply reads_bind; [apply reads_prometheus; by vm_compute|].
  rewrite <- (app_nil_r (if is_set "OPENAI_COMPATIBLE_BASE_URL" then _ else [])).
  eapply reads_bind; [apply reads_compatible; destruct (is_set "PROMETHEUS_CLIENT_ID"); by vm_compute|].
  apply reads_ret.
Qed.

Lemma reads_start : reads [] (register_and_verify files bundle)
  (needed ++ if is_set "PROMETHEUS_CLIENT_ID" then ["PROMETHEUS_CLIENT_SECRET"] else [])
  (configured_adapters, foldl register ModelGateway.New configured_adapters,
   if is_set "PROMETHEUS_CLIENT_ID"
   then models ← ask (R := lreply) (ListModels prometheus_client);
        mret (verdict_on bundle (models : result string (list CatalogEntry)))
   else mret NothingToVerify).
Proof.
  unfold register_and_verify. eapply reads_bind; [apply reads_register|].
  rewrite <- (app_nil_r (if is_set "PROMETHEUS_CLIENT_ID" then _ else [])). unfold verifyDeclaredModalities.
  eapply reads_bind; [|apply reads_ret]. rewrite <- (app_nil_r (if is_set "PROMETHEUS_CLIENT_ID" then _ else [])).
  eapply reads_bind; [|]. 
  - cbn [app]. unfold needed. apply reads_verify; destruct (is_set "PROMETHEUS_CLIENT_ID"), (is_set "OPENAI_COMPATIBLE_BASE_URL"); by vm_compute.
  - destruct (is_set "PROMETHEUS_CLIENT_ID"); apply reads_ret.
Qed.

(** The same with all the names taken, whose variables no child inherits. *)
Definition taken : list string := (needed ++ if is_set "PROMETHEUS_CLIENT_ID" then ["PROMETHEUS_CLIENT_SECRET"] else [])%list.
Lemma taken_needed n : n ∈ taken → n ∈ needed.
Proof.
  unfold taken. intros [?|Hn]%elem_of_app; [done|].
  destruct (is_set "PROMETHEUS_CLIENT_ID") eqn:Hi; [|by apply not_elem_of_nil in Hn].
  apply list_elem_of_singleton in Hn as ->. unfold needed. rewrite Hi. do 3 right. left.
Qed.
(** A secret that was taken before is misconfigured only if it was then. *)
Lemma taken_errors : first_error taken = first_error needed.
Proof.
  unfold taken. rewrite first_error_app. pose proof (first_error_spec needed) as Hn. destruct (first_error needed); [done|].
  destruct (is_set "PROMETHEUS_CLIENT_ID") eqn:Hi; [|done]. unfold first_error. simpl.
  by rewrite (Hn "PROMETHEUS_CLIENT_SECRET") by (unfold needed; rewrite Hi; set_solver).
Qed.
Lemma taken_gone name : name ∈ needed → environ (at_ taken) !! name = None ∧ environ (at_ taken) !! (name +:+ FileSuffix) = None.
Proof.
  intros Hn. split; apply environ_scrubbed; rewrite at_names; apply Exists_exists; exists name;
    (split; [apply elem_of_app; by left|]); [by left|by right].
Qed.
(** The variables the rest of the start reads are still what they were. *)
Lemma taken_keeps x : x ∈ ["AEON_PG_DSN"; "AEON_QUALITY_SCORE_THRESHOLD"; "AEON_CALLERS_PATH"; "AEON_CALLERS_DIR"; "AEON_PORT"] →
  getenv (environ (at_ taken)) x = getenv env x.
Proof.
  intros Hx. unfold getenv. rewrite at_env; [done|].
  apply (Forall_forall (λ n, ¬ scrubs n x)). intros n Hn%taken_needed.
  assert (n ∈ ["ANTHROPIC_API_KEY"; "OPENAI_API_KEY"; "GOOGLE_API_KEY"; "PROMETHEUS_CLIENT_SECRET"; "OPENAI_COMPATIBLE_API_KEY"]) as Hm
    by (unfold needed in Hn; destruct (is_set _), (is_set _); set_solver).
  clear Hn. revert n Hm. apply Forall_forall. revert x Hx. apply Forall_forall. by_names.
Qed.
End startup.

(** ** What a deployment's environment amounts to *)

Section deployment.
Context `{GoNumbers} `{GoRuntime}.
Context (files : string → option string) (read_file : string → result string string) (unmarshal : string → result string ModelPolicyBundleDoc).
Context (unicode_lower : string → string) (read_callers : string → result string CallerBundleDoc)
        (join : string → string → string) (read_dir : string → result string (list PolicySet.DirEntry)).
Implicit Types env : gmap string string.

Definition starting (env : gmap string string) : prog lreply (result fatal (process * modelgw)) :=
  start files read_file unmarshal unicode_lower read_callers join read_dir (boot env).

(** The bundle the variable leads to, and what can be wrong with it. *)
Definition bundle_at (env : gmap string string) : list fatal * ModelPolicyBundleDoc :=
  if is_set env "AEON_MODEL_POLICY_BUNDLE_PATH" then
    let path := getenv env "AEON_MODEL_POLICY_BUNDLE_PATH" in
    match read_file path with
    | Err e => ([ReadingBundle path e], no_bundle)
    | Ok raw => match unmarshal raw with Err e => ([ParsingBundle path e], no_bundle) | Ok doc => ([], doc) end
    end
  else ([], no_bundle).

(** What is wrong with a deployment: what it finds before it asks anyone, and what it finds
    once the database was asked, with [up] its error. *)
Definition early_faults (env : gmap string string) : list fatal :=
  ((bundle_at env).1 ++ (TakingSecret <$> omap (λ n, res_err (read env files n)) (needed env)))%list.
Definition late_faults (env : gmap string string) (up : option string) : list fatal :=
  ((if is_set env "AEON_PG_DSN" then
      match up with Some e => [ConnectingStore e] | None => [] end ++
      match qualityScoreThreshold env with
      | None => [ThresholdNotANumber (getenv env "AEON_QUALITY_SCORE_THRESHOLD")]
      | Some _ => []
      end
    else []) ++
   match MustLoadFromEnv unicode_lower read_callers join read_dir env with Err e => [NoCallers e] | Ok _ => [] end)%list.

(** Whom it asks, unless it stops first. *)
Definition asked env (models : result string (list CatalogEntry)) (up : option string) : list {c : lcall & lreply c} :=
  match early_faults env with
  | _ :: _ => []
  | [] =>
      (if is_set env "PROMETHEUS_CLIENT_ID"
       then [existT (P := lreply) (ListModels (prometheus_client env files (bundle_at env).2)) models] else []) ++
      (if is_set env "AEON_PG_DSN" then [existT (P := lreply) (Connect (getenv env "AEON_PG_DSN")) up] else [])
  end%list.

(** What it runs with when nothing is wrong. *)
Record follows env (models : result string (list CatalogEntry)) (p : process) (g : modelgw) : Prop := {
  follows_bundle : gw_Bundle g = (bundle_at env).2;
  follows_pricing : gw_Pricing g = Pricing.NewPricingTable (PricingRates (bundle_at env).2);
  follows_adapters : gw_Registered g = configured_adapters env files (bundle_at env).2;
  follows_routes : dom (providers (gw_Gateway g)) = list_to_set (name_of <$> configured_adapters env files (bundle_at env).2);
  follows_quality : Quality (gw_Gateway g) = is_set env "AEON_PG_DSN";
  follows_threshold : gw_Threshold g = if is_set env "AEON_PG_DSN" then qualityScoreThreshold env else None;
  follows_verified : gw_Verified g = if is_set env "PROMETHEUS_CLIENT_ID" then verdict_on (bundle_at env).2 models else NothingToVerify;
  follows_callers : MustLoadFromEnv unicode_lower read_callers join read_dir env = Ok (gw_Callers g);
  follows_port : gw_Port g = if is_set env "AEON_MODELGW_PORT" then getenv env "AEON_MODELGW_PORT" else "9402";
  follows_secrets : ∀ name, name ∈ needed env → environ p !! name = None ∧ environ p !! (name +:+ FileSuffix) = None;
}.

Lemma loads_bundle env : loadModelPolicyBundle read_file unmarshal env =
  match (bundle_at env).1 with e :: _ => Err e | [] => Ok (bundle_at env).2 end.
Proof.
  unfold loadModelPolicyBundle, bundle_at, is_set. destruct (sempty _); cbn [negb]; [done|].
  destruct (read_file _) as [raw|]; [|done]. by destruct (unmarshal raw).
Qed.

(** The callers are loaded from two variables. *)
Lemma callers_env env env' : getenv env CallersPathEnv = getenv env' CallersPathEnv → getenv env CallersDirEnv = getenv env' CallersDirEnv →
  MustLoadFromEnv unicode_lower read_callers join read_dir env = MustLoadFromEnv unicode_lower read_callers join read_dir env'.
Proof. unfold MustLoadFromEnv. by intros -> ->. Qed.

Lemma serving_port env :
  Port (serving env) = if is_set (serving env) "AEON_MODELGW_PORT" then getenv (serving env) "AEON_MODELGW_PORT" else "9402".
Proof.
  assert (getenv (serving env) "AEON_MODELGW_PORT" = getenv env "AEON_MODELGW_PORT") as Hs
    by (unfold getenv at 1, serving; by rewrite lookup_insert_ne).
  assert (getenv (serving env) "AEON_PORT" = if sempty (getenv env "AEON_MODELGW_PORT") then "9402" else getenv env "AEON_MODELGW_PORT") as Hp
    by (unfold getenv at 1, serving; by rewrite lookup_insert_eq).
  unfold Port, is_set. rewrite Hp, Hs. destruct (sempty (getenv env "AEON_MODELGW_PORT")) eqn:He; cbn [negb]; [done|]. by rewrite He.
Qed.

(** The database, of an environment. *)
Lemma connect_env env env' : getenv env "AEON_PG_DSN" = getenv env' "AEON_PG_DSN" →
  getenv env "AEON_QUALITY_SCORE_THRESHOLD" = getenv env' "AEON_QUALITY_SCORE_THRESHOLD" → connect_store env = connect_store env'.
Proof. unfold connect_store, qualityScoreThreshold. by intros -> ->. Qed.
Lemma connect_history env t r : histories (connect_store env) t r →
  ∃ up, t = (if is_set env "AEON_PG_DSN" then [existT (P := lreply) (Connect (getenv env "AEON_PG_DSN")) up] else []) ∧
    match (if is_set env "AEON_PG_DSN" then
             match up with Some e => [ConnectingStore e] | None => [] end ++
             match qualityScoreThreshold env with None => [ThresholdNotANumber (getenv env "AEON_QUALITY_SCORE_THRESHOLD")] | Some _ => [] end
           else [])%list with
    | e :: _ => r = Err e
    | [] => r = Ok (if is_set env "AEON_PG_DSN" then qualityScoreThreshold env else None) ∧
            (is_set env "AEON_PG_DSN" = true → qualityScoreThreshold env ≠ None)
    end.
Proof.
  unfold connect_store, is_set. cbv zeta. destruct (sempty (getenv env "AEON_PG_DSN")); cbn [negb].
  { intros [-> ->]. exists None. by split_and!. }
  intros (up & t1 & -> & -> & ->). exists up. split; [done|].
  destruct up; [done|]. cbn [app]. destruct (qualityScoreThreshold env); by cbn.
Qed.

Lemma registered_quality l g : Quality (foldl register g l) = Quality g.
Proof. revert g. induction l as [|a l IH]; intros g; cbn [foldl]; [done|]. by rewrite IH. Qed.
Lemma follows_all env0 bundle models callers :
  let env := serving env0 in
  let threshold := if is_set env "AEON_PG_DSN" then qualityScoreThreshold env else None in
  let gw := foldl register ModelGateway.New (configured_adapters env files bundle) in
  bundle_at env = ([], bundle) → (is_set env "AEON_PG_DSN" = true → qualityScoreThreshold env ≠ None) →
  MustLoadFromEnv unicode_lower read_callers join read_dir env = Ok callers →
  follows env models (at_ env files (taken env)) {|
    gw_Bundle := bundle; gw_Pricing := Pricing.NewPricingTable (PricingRates bundle);
    gw_Registered := configured_adapters env files bundle;
    gw_Gateway := match threshold with Some _ => set_quality gw | None => gw end;
    gw_Verified := if is_set env "PROMETHEUS_CLIENT_ID" then verdict_on bundle models else NothingToVerify;
    gw_Threshold := threshold; gw_Callers := callers; gw_Port := Port (environ (at_ env files (taken env))) |}.
Proof.
  intros env threshold gw Hb Ht Hc.
  assert (providers match threshold with Some _ => set_quality gw | None => gw end = providers gw) as Hp by (by destruct threshold).
  split; rewrite ?Hb; cbn [gw_Bundle gw_Pricing gw_Registered gw_Gateway gw_Verified gw_Threshold gw_Callers gw_Port fst snd];
    [reflexivity..| | |reflexivity|reflexivity|exact Hc| |].
  - rewrite Hp. unfold gw. rewrite registered_names. simpl. set_solver.
  - subst threshold. destruct (is_set env "AEON_PG_DSN"); [|apply registered_quality].
    destruct (qualityScoreThreshold env); [done|]. by destruct (Ht eq_refl).
  - change (serving env0) with env. transitivity (Port env); [|exact (serving_port env0)].
    unfold Port. by rewrite taken_keeps by (apply (bool_decide_unpack _); reflexivity).
  - intros name Hn. by apply taken_gone.
Qed.

(** C33. What a model gateway starts with is what its environment says, and it starts exactly
    when nothing is wrong with that. The faults are an unreadable or unparsable bundle, a
    secret configured wrongly, a database that cannot be reached, a threshold that is no
    number, and callers that cannot be loaded; the first of them, in this order, is what the
    process exits with, and nothing else stops it: not the catalogue, whatever it answers.
    Otherwise the providers are those whose credential, or for two of them whose client or
    address, is configured, each with the credential the environment or the named file
    holds, and the gateway routes to no other; the catalogue was asked once, with the
    credential, address and scope the Prometheus adapter was registered with, although
    reading the secret once removed it; quality is routed by, with the threshold configured,
    exactly where there is a database; and the secrets are gone from the environment a child
    process would inherit. *)
Theorem gateway_follows_its_environment env0 t r :
  histories (starting env0) t r →
  let env := serving env0 in
  ∃ models up, t = asked env models up ∧
    match (early_faults env ++ late_faults env up)%list with
    | e :: _ => r = Err e
    | [] => ∃ p g, r = Ok (p, g) ∧ follows env models p g
    end.
Proof.
  intros Ht env. unfold starting, start in Ht.
  change {| environ := serving (environ (boot env0)); cache := cache (boot env0) |} with (boot env) in Ht. cbv zeta in Ht.
  change (environ (boot env)) with env in Ht. rewrite loads_bundle in Ht.
  unfold early_faults at 1, asked, early_faults.
  destruct (bundle_at env) as [[|e l] bundle] eqn:Hb; cbn [fst snd] in *; [|destruct Ht as [-> ->]; by exists (Err ""), None].
  cbn [app]. pose proof (reads_start env files bundle) as Hs. unfold reads in Hs. change (at_ env files []) with (boot env) in Hs.
  rewrite app_nil_l in Hs. fold (taken env) in Hs. rewrite taken_errors in Hs. unfold first_error in Hs. rewrite Hs in Ht. clear Hs.
  destruct (omap _ (needed env)) as [|e l]; cbn [head fmap list_fmap app] in *; [|destruct Ht as [-> ->]; by exists (Err ""), None].
  apply histories_bind in Ht as (verified & t1 & t2 & -> & Hv & Ht).
  assert (∃ models, t1 = (if is_set env "PROMETHEUS_CLIENT_ID" then [existT (P := lreply) (ListModels (prometheus_client env files bundle)) models] else []) ∧
    verified = if is_set env "PROMETHEUS_CLIENT_ID" then verdict_on bundle models else NothingToVerify) as (models & -> & ->).
  { destruct (is_set env "PROMETHEUS_CLIENT_ID"); [|destruct Hv as [-> ->]; exists (Err ""); split; reflexivity].
    destruct Hv as (models & ? & -> & -> & ->). exists models. split; reflexivity. }
  exists models. fold (taken env) in Ht.
  assert (Hk : ∀ x, x ∈ ["AEON_PG_DSN"; "AEON_QUALITY_SCORE_THRESHOLD"; "AEON_CALLERS_PATH"; "AEON_CALLERS_DIR"; "AEON_PORT"] →
    getenv (environ (at_ env files (taken env))) x = getenv env x) by (apply taken_keeps).
  rewrite (connect_env (environ (at_ env files (taken env))) env) in Ht by (apply Hk; apply (bool_decide_unpack _); reflexivity).
  rewrite (callers_env (environ (at_ env files (taken env))) env) in Ht by (apply Hk; apply (bool_decide_unpack _); reflexivity).
  apply histories_bind in Ht as (stored & t3 & t4 & -> & Hc & Ht).
  apply connect_history in Hc as (up & -> & Hc). exists up. unfold late_faults. rewrite app_assoc.
  destruct (if is_set env "AEON_PG_DSN" then _ else [])%list as [|e l] in Hc |- *; [|subst stored; destruct Ht as [-> ->]; by rewrite app_nil_r].
  destruct Hc as [-> Hthreshold]. cbn [app].
  destruct (MustLoadFromEnv _ _ _ _ env) as [callers|e] eqn:Hcallers; destruct Ht as [-> ->]; rewrite app_nil_r; (split; [done|]); [|done].
  eexists _, _. split; [reflexivity|]. by apply follows_all.
Qed.
End deployment.

(** ** A threshold that is no number *)

(** A threshold of NaN, which is read as a number, starts the gateway with routing by
    quality reported as live and never degrades a model, whatever scores are reported. *)
Theorem nan_threshold_degrades_nothing `{GoNumbers} env t provider model :
  getenv env "AEON_QUALITY_SCORE_THRESHOLD" = "NaN" → parse_other_float "NaN" = Some S754_nan →
  ∃ threshold, qualityScoreThreshold env = Some threshold ∧ gate threshold t provider model = false.
Proof.
  intros He Hn. exists S754_nan. unfold qualityScoreThreshold. rewrite He. split; [exact Hn|].
  unfold gate. destruct (t !! _) as [s|]; [|done]. unfold fltb. by destruct (qs_Score s).
Qed.

(** ** Concrete startups *)

Module StartupWitnesses.
Definition cand (provider model modality : string) (priority : Z) : CandidateDoc :=
  {| cd_Provider := provider; cd_Model := model; Modality := modality; InferenceClass := ""; cd_Priority := priority;
     CostModel := ""; CostPerMillionInputTokens := f_zero; CostPerMillionOutputTokens := f_zero |}.
Definition bundle : ModelPolicyBundleDoc :=
  {| mb_APIVersion := "v1"; mb_Kind := "ModelPolicyBundle";
     Profiles := [{| Profile := "fast"; LocalInference := None; RoutingConstraints_ := None;
                     Candidates := [cand "prometheus_inference" "qwen3" "text" 0; cand "openai" "gpt" "text" 1;
                                    cand "prometheus_inference" "qwen3" "text" 2; cand "prometheus_inference" "oss" "vision" 3] |}] |}.
Definition env : gmap string string :=
  list_to_map [("PROMETHEUS_CLIENT_ID", "aeon"); ("PROMETHEUS_CLIENT_SECRET_FILE", "/run/p");
               ("PROMETHEUS_GATEWAY_URL", "https://p"); ("OPENAI_API_KEY", "sk-1")].
Definition disk (path : string) : option string := if String.eqb path "/run/p" then Some "s3cret" else None.

Example scope : scope_in env bundle = "inference:read inference:stream model:qwen3 model:oss".
Proof. by vm_compute. Qed.
Example started :
  (λ r, (r.2.1.1, (environ r.1 !!.) <$> ["OPENAI_API_KEY"; "PROMETHEUS_CLIENT_SECRET_FILE"; "PROMETHEUS_CLIENT_ID"])) <$> (match register_and_verify disk bundle (boot env) with Ok r => Some r | Err _ => None end) =
  Some ([OpenAI "sk-1"; PrometheusInference "https://p" "aeon" "s3cret" "inference:read inference:stream model:qwen3 model:oss" ""],
        [None; None; Some "aeon"]).
Proof. by vm_compute. Qed.
Example contradicted :
  verdict_on bundle (Ok [{| ce_Model := "qwen3"; ce_Modality := "text" |}; {| ce_Model := "oss"; ce_Modality := "text" |}]) =
  Contradicted [{| mc_Profile := "fast"; mc_Provider := "prometheus_inference"; mc_Model := "oss"; Declared := "vision"; Actual := "text" |}].
Proof. by vm_compute. Qed.

#[local] Instance numbers : GoNumbers := {|
  parse_other_float s := if String.eqb s "NaN" then Some S754_nan else None;
  FormatFloat _ _ := ""; json_float _ := ""; json_float32 _ := "" |}.
(** A deployment with a bundle, a database and callers. *)
Section deployed.
#[local] Existing Instance amd64_runtime.
#[local] Existing Instance numbers.
Definition served_env : gmap string string :=
  <["AEON_CALLERS_PATH" := "callers.yaml"]> (<["AEON_MODEL_POLICY_BUNDLE_PATH" := "bundle.yaml"]> (<["AEON_PG_DSN" := "postgres://"]> env)).
Definition bundle_file (path : string) : result string string := if String.eqb path "bundle.yaml" then Ok "yaml" else Err "no such file".
Definition bundle_yaml (raw : string) : result string ModelPolicyBundleDoc := Ok bundle.
Definition beginning (env : gmap string string) : prog lreply (result fatal (process * modelgw)) :=
  starting disk bundle_file bundle_yaml AuthWitnesses.no_unicode HttpServerWitnesses.one_bundle HttpServerWitnesses.slash
    HttpServerWitnesses.no_dirs env.
(** The catalogue is down, the database is up. *)
Definition outside (_ : ()) (c : lcall) : () * lreply c :=
  (tt, match c return lreply c with ListModels _ => Err "503" | Connect _ => None end).
Definition begun (env : gmap string string) : result fatal (process * modelgw) := (run_log outside tt (beginning env)).2.
Definition stop (r : result fatal (process * modelgw)) : option fatal := match r with Ok _ => None | Err e => Some e end.

(** It starts without the catalogue; each thing wrong stops it, and a secret before a
    threshold. *)
Example stops :
  stop (begun served_env) = None ∧
  stop (begun (<["AEON_MODEL_POLICY_BUNDLE_PATH" := "b"]> served_env)) = Some (ReadingBundle "b" "no such file") ∧
  stop (begun (<["AEON_QUALITY_SCORE_THRESHOLD" := "high"]> served_env)) = Some (ThresholdNotANumber "high") ∧
  stop (begun (<["PROMETHEUS_CLIENT_SECRET" := "s"]> (<["AEON_QUALITY_SCORE_THRESHOLD" := "high"]> served_env))) =
    Some (TakingSecret (Secrets.BothSet "PROMETHEUS_CLIENT_SECRET")) ∧
  stop (begun (delete "AEON_CALLERS_PATH" served_env)) = Some (NoCallers NeitherSet).
Proof. by vm_compute. Qed.
Lemma gateway_follows_its_environment_witness :
  ∃ p g, begun served_env = Ok (p, g) ∧ Quality (gw_Gateway g) = true ∧ gw_Port g = "9402" ∧
    gw_Registered g = configured_adapters (serving served_env) disk bundle ∧ environ p !! "PROMETHEUS_CLIENT_SECRET_FILE" = None.
Proof.
  pose proof (run_log_histories outside (beginning served_env) tt) as Hh. fold (begun served_env) in Hh.
  destruct (gateway_follows_its_environment disk bundle_file bundle_yaml AuthWitnesses.no_unicode HttpServerWitnesses.one_bundle
    HttpServerWitnesses.slash HttpServerWitnesses.no_dirs served_env _ _ Hh) as (models & up & _ & Hr).
  pose proof (proj1 stops) as Hok. revert Hr Hok. generalize (begun served_env). intros b Hr Hok.
  destruct (_ ++ _)%list as [|e l]; [|rewrite Hr in Hok; discriminate Hok].
  destruct Hr as (p & g & -> & Hf). exists p, g. split; [reflexivity|]. destruct Hf as [_ _ Ha _ Hq _ _ _ Hp Hs].
  split; [rewrite Hq; by vm_compute|]. split; [rewrite Hp; by vm_compute|]. split; [exact Ha|].
  apply (Hs "PROMETHEUS_CLIENT_SECRET"). apply (bool_decide_unpack _). by vm_compute.
Defined.
End deployed.
(** A client without a secret registers the provider all the same, with an empty one. *)
Example no_secret :
  (λ r, r.2) <$> (match registerProvidersFromEnv disk bundle (boot {["PROMETHEUS_CLIENT_ID" := "aeon"]}) with Ok r => Some r | Err _ => None end) =
  Some [PrometheusInference "" "aeon" "" "inference:read inference:stream model:qwen3 model:oss" ""].
Proof. by vm_compute. Qed.

Definition nan_env : gmap string string := {["AEON_QUALITY_SCORE_THRESHOLD" := "NaN"]}.
Lemma nan_threshold_degrades_nothing_witness :
  ∃ threshold, qualityScoreThreshold nan_env = Some threshold ∧
    gate threshold {[("openai", "gpt") := {| qs_Suite := "s"; qs_Score := f_zero; qs_UpdatedAt := 0 |}]} "openai" "gpt" = false.
Proof. apply (nan_threshold_degrades_nothing nan_env); by vm_compute. Defined.
End StartupWitnesses.
