(* ===== verification/Migrations.v ===== *)
(** * The schema and its history

    go/internal/store/migrations.go, Connect and Migrate of postgres.go and errors.go: the
    embedded migrations are read and checked, and brought to a database under a lock, one
    transaction each, by however many services start at once. A statement may fail, with
    or without its effect on the connection; a service may die anywhere. What a migration
    does is its text, in the order of the schema's history. *)

From S2P Require Import Prelude GoValue Sha256 Program.

Local Open Scope string_scope.
Set Default Proof Using "Type*".

(** ** Reading them *)

Record migration := { Version : Z; Name : string; SQL : string; Checksum : string }.
Record file := { f_Name : string; f_IsDir : bool; f_Body : result string string }.

Definition snake (c : Ascii.ascii) : bool := is_lower c || is_digit c || byte_is 95 c.
Fixpoint number (acc : Z) (s : string) : Z :=
  match s with
  | EmptyString => acc
  | String c s => number (10 * acc + (Z.of_nat (Ascii.nat_of_ascii c) - 48)) s
  end.
(** [migrationNamePattern]: the version and the name. *)
Definition migrationNamePattern (s : string) : option (Z * string) :=
  let digits := take_str 4 s in
  let rest := drop_str 4 s in
  if (slen digits =? 4)%nat && str_all is_digit digits && has_prefix rest "_" && has_suffix rest ".sql" then
    let name := take_str (slen rest - 5) (drop_str 1 rest) in
    if (5 <? slen rest)%nat && negb (sempty name) && str_all snake name then Some (number 0 digits, name) else None
  else None.

Inductive load_error :=
| ReadingDir (msg : string)
| BadName (name : string)
| VersionZero (name : string)
| SharedVersion (previous name : string) (version : Z)
| ReadingFile (name msg : string)
| EmptyMigration (name : string)
| NotContiguous (expected found : Z) (name : string)
| NoMigrations.

Definition load_file (st : gmap Z string * list migration) (f : file) : result load_error (gmap Z string * list migration) :=
  let '(seen, out) := st in
  if f_IsDir f then Ok st
  else match migrationNamePattern (f_Name f) with
  | None => Err (BadName (f_Name f))
  | Some (version, name) =>
      if (version =? 0)%Z then Err (VersionZero (f_Name f))
      else match seen !! version with
      | Some prev => Err (SharedVersion prev (f_Name f) version)
      | None =>
          match f_Body f with
          | Err e => Err (ReadingFile (f_Name f) e)
          | Ok body =>
              if sempty (trim_space body) then Err (EmptyMigration (f_Name f))
              else Ok (<[version := f_Name f]> seen,
                       (out ++ [{| Version := version; Name := name; SQL := body; Checksum := sha256_hex body |}])%list)
          end
      end
  end.
Fixpoint check_contiguous (i : Z) (out : list migration) : option load_error :=
  match out with
  | [] => None
  | m :: out => if (Version m =? i)%Z then check_contiguous (i + 1) out else Some (NotContiguous i (Version m) (Name m))
  end.
Definition by_version (a b : migration) : bool := (Version a <? Version b)%Z.
Definition loadMigrationsFrom `{GoRuntime} (entries : result string (list file)) : result load_error (list migration) :=
  match entries with
  | Err e => Err (ReadingDir e)
  | Ok entries =>
      match fold_res load_file (∅, []) entries with
      | Err e => Err e
      | Ok (_, out) =>
          let out := sort_slice by_version out in
          match check_contiguous 1 out with
          | Some e => Err e
          | None => match out with [] => Err NoMigrations | _ => Ok out end
          end
      end
  end.

(** ** Applying them *)

(** The ledger: of each version applied, its name and checksum. *)
Abbreviation ledger_rows := (gmap Z (string * string)).
Inductive mcall :=
| MAcquire | MLock | MUnlock
| MCreateLedger | MSelectLedger
| MBegin | MExec (sql : string) | MInsert (version : Z) (name checksum : string) | MCommit | MRollback.
(** An error, or none; what the SELECT read. *)
Definition mreply (c : mcall) : Type :=
  match c with MSelectLedger => result string ledger_rows | _ => option string end.
Abbreviation MM := (prog mreply).

Inductive migrate_error :=
| AcquiringConnection (msg : string)
| AcquiringLock (msg : string)
| LoadingMigrations (e : load_error)
| CreatingLedger (msg : string)
| ReadingLedger (msg : string)
| DatabaseNewer
| AppliedChanged (m : migration)
| ChecksumTooShort (checksum : string)    (** slicing its first twelve bytes panics *)
| BeginFailed (m : migration) (msg : string)
| ApplyingFailed (m : migration) (msg : string)
| RecordingFailed (m : migration) (msg : string)
| CommitFailed (m : migration) (msg : string).

(** One statement whose failure is an error. *)
Definition err_of (c : mcall) : mreply c → option string :=
  match c with MSelectLedger => λ _, None | _ => λ r, r end.
Definition mdo {A} (c : mcall) (fail : string → MM A) (next : MM A) : MM A :=
  r ← ask (R := mreply) c;
  match err_of c r with Some e => fail e | None => next end.
(** One migration's transaction, and what follows it. *)
Definition apply_one (m : migration) (next : MM (result migrate_error ())) : MM (result migrate_error ()) :=
  mdo MBegin (λ e, mret (Err (BeginFailed m e)))
  (mdo (MExec (SQL m)) (λ e, _ ← ask (R := mreply) MRollback; mret (Err (ApplyingFailed m e)))
  (mdo (MInsert (Version m) (Name m) (Checksum m)) (λ e, _ ← ask (R := mreply) MRollback; mret (Err (RecordingFailed m e)))
  (mdo MCommit (λ e, mret (Err (CommitFailed m e))) next))).
Fixpoint apply_loop (applied : ledger_rows) (pending : list migration) : MM (result migrate_error ()) :=
  match pending with
  | [] => mret (Ok ())
  | m :: pending =>
      match applied !! Version m with
      | Some (_, checksum) =>
          if String.eqb checksum (Checksum m) then apply_loop applied pending
          else mret (Err (if (slen checksum <? 12)%nat || (slen (Checksum m) <? 12)%nat
                          then ChecksumTooShort checksum else AppliedChanged m))
      | None => apply_one m (apply_loop applied pending)
      end
  end.
(** A version the binary does not carry. *)
Definition ahead (applied : ledger_rows) (pending : list migration) : bool :=
  existsb (λ va, negb (existsb (λ m, (Version m =? va.1)%Z) pending)) (map_to_list applied).
Definition applyMigrationsTo (pending : list migration) : MM (result migrate_error ()) :=
  mdo MCreateLedger (λ e, mret (Err (CreatingLedger e)))
  (applied ← ask (R := mreply) MSelectLedger;
   match applied : result string ledger_rows with
   | Err e => mret (Err (ReadingLedger e))
   | Ok applied => if ahead applied pending then mret (Err DatabaseNewer) else apply_loop applied pending
   end).

Definition Migrate (load : result load_error (list migration)) : MM (result migrate_error ()) :=
  mdo MAcquire (λ e, mret (Err (AcquiringConnection e)))
  (mdo MLock (λ e, mret (Err (AcquiringLock e)))
  (r ← (match load with
        | Err e => mret (Err (LoadingMigrations e))
        | Ok pending => applyMigrationsTo pending
        end);
   _ ← ask (R := mreply) MUnlock;    (** deferred *)
   mret r)).

(** ** The database *)

Inductive tx_op := OExec (sql : string) | OInsert (version : Z) (name checksum : string).
Record database := { schema : list string; ledger : ledger_rows }.
(** What is committed, the connection that holds the lock, and the open transactions. *)
Record mworld := { committed : database; lock : option nat; txs : gmap nat (list tx_op) }.

Definition apply_op (d : database) (o : tx_op) : database :=
  match o with
  | OExec sql => {| schema := schema d ++ [sql]; ledger := ledger d |}
  | OInsert v n c => {| schema := schema d; ledger := <[v := (n, c)]> (ledger d) |}
  end.
Definition with_lock (l : option nat) (w : mworld) : mworld := {| committed := committed w; lock := l; txs := txs w |}.
Definition with_txs (t : gmap nat (list tx_op)) (w : mworld) : mworld := {| committed := committed w; lock := lock w; txs := t |}.
Definition unlock (i : nat) (w : mworld) : mworld := if decide (lock w = Some i) then with_lock None w else w.
(** The end of a connection: its lock is released and its transaction aborted. *)
Definition disconnect (i : nat) (w : mworld) : mworld := with_txs (delete i (txs w)) (unlock i w).
Definition commit (i : nat) (ops : list tx_op) (w : mworld) : mworld :=
  {| committed := foldl apply_op (committed w) ops; lock := lock w; txs := delete i (txs w) |}.
(** A failure leaves the connection, or ends it. *)
Definition failed (i : nat) (w w' : mworld) : Prop := w' = w ∨ w' = disconnect i w.

(** A statement of connection [i]. *)
Definition msem (i : nat) (w : mworld) (c : mcall) : mreply c → mworld → Prop :=
  match c as c return mreply c → mworld → Prop with
  | MAcquire => λ _ w', w' = w
  | MLock => λ r w', match r with
      | None => (lock w = None ∨ lock w = Some i) ∧ w' = with_lock (Some i) w
      | Some _ => failed i w w' ∨ (lock w = None ∧ failed i (with_lock (Some i) w) w')
      end
  | MUnlock => λ _ w', w' = unlock i w ∨ failed i w w'
  | MCreateLedger => λ r w', match r with None => w' = w | Some _ => failed i w w' end
  | MSelectLedger => λ r w', match r with Ok rows => rows = ledger (committed w) ∧ w' = w | Err _ => failed i w w' end
  | MBegin => λ r w', match r with None => w' = with_txs (<[i := []]> (txs w)) w | Some _ => failed i w w' end
  | MExec sql => λ r w', match r with
      | None => ∃ ops, txs w !! i = Some ops ∧ w' = with_txs (<[i := (ops ++ [OExec sql])%list]> (txs w)) w
      | Some _ => failed i w w' ∨ w' = with_txs (delete i (txs w)) w
      end
  | MInsert v n c => λ r w', match r with
      | None => ∃ ops, txs w !! i = Some ops ∧ ledger (committed w) !! v = None ∧
                  w' = with_txs (<[i := (ops ++ [OInsert v n c])%list]> (txs w)) w
      | Some _ => failed i w w' ∨ w' = with_txs (delete i (txs w)) w
      end
  | MRollback => λ _ w', w' = with_txs (delete i (txs w)) w ∨ failed i w w'
  | MCommit => λ r w', match r with
      | None => ∃ ops, txs w !! i = Some ops ∧ w' = commit i ops w
      | Some _ => failed i w w' ∨ ∃ ops, txs w !! i = Some ops ∧ failed i (commit i ops w) w'
      end
  end.

(** ** Histories *)

(** Versions one, two, and so on: what loading guarantees. *)
Definition contiguous (L : list migration) : Prop := ∀ k m, L !! k = Some m → Version m = Z.of_nat (S k).
Definition row (m : migration) : string * string := (Name m, Checksum m).
Definition ledger_of (L : list migration) : ledger_rows := foldl (λ t m, <[Version m := row m]> t) ∅ L.
(** The database after a history. *)
Definition db_of (L : list migration) : database := {| schema := SQL <$> L; ledger := ledger_of L |}.
Definition checksums (L : list migration) : list string := Checksum <$> L.

Lemma contiguous_snoc L m : contiguous (L ++ [m]) ↔ contiguous L ∧ Version m = Z.of_nat (S (length L)).
Proof.
  unfold contiguous. split.
  - intros H. split; [intros k x Hk; apply H; by apply lookup_app_l_Some|].
    apply H. by rewrite lookup_app_r, Nat.sub_diag.
  - intros [H Hm] k x [Hk|[Hk Hx]]%lookup_app_Some; [by apply H|].
    apply list_lookup_singleton_Some in Hx as [Hz <-]. rewrite Hm. f_equal. lia.
Qed.

Lemma ledger_of_snoc L m : ledger_of (L ++ [m]) = <[Version m := row m]> (ledger_of L).
Proof. unfold ledger_of. by rewrite foldl_app. Qed.
Lemma ledger_lookup L v : contiguous L →
  ledger_of L !! v = if (1 <=? v)%Z then row <$> L !! Z.to_nat (v - 1) else None.
Proof.
  induction L as [|m L IH] using rev_ind; intros Hc.
  - rewrite lookup_nil. unfold ledger_of. simpl. rewrite lookup_empty. by destruct (1 <=? v)%Z.
  - apply contiguous_snoc in Hc as [Hc Hm]. rewrite ledger_of_snoc. destruct (decide (Version m = v)) as [<-|Hne].
    + rewrite lookup_insert_eq, Hm. destruct (Z.leb_spec 1 (Z.of_nat (S (length L)))); [|lia].
      replace (Z.to_nat (Z.of_nat (S (length L)) - 1)) with (length L) by lia.
      by rewrite lookup_app_r, Nat.sub_diag.
    + rewrite lookup_insert_ne, IH by done. destruct (Z.leb_spec 1 v); [|done].
      destruct (decide (Z.to_nat (v - 1) < length L)%nat); [by rewrite lookup_app_l|].
      rewrite (lookup_ge_None_2 L) by lia. rewrite (lookup_ge_None_2 (L ++ [m])); [done|].
      rewrite length_app. simpl. lia.
Qed.
Lemma db_of_snoc L m :
  foldl apply_op (db_of L) [OExec (SQL m); OInsert (Version m) (Name m) (Checksum m)] = db_of (L ++ [m]).
Proof. unfold db_of. rewrite fmap_app, ledger_of_snoc. done. Qed.

(** A history can be read off the database. *)
Lemma db_of_inj L L' : contiguous L → contiguous L' → db_of L = db_of L' → L = L'.
Proof.
  intros HL HL' [= Hs Hl]. apply list_eq. intros k.
  pose proof (ledger_lookup L (Z.of_nat (S k)) HL) as H1. pose proof (ledger_lookup L' (Z.of_nat (S k)) HL') as H2.
  rewrite Hl in H1. rewrite H1 in H2. destruct (Z.leb_spec 1 (Z.of_nat (S k))); [|lia].
  replace (Z.to_nat (Z.of_nat (S k) - 1)) with k in H2 by lia.
  apply (f_equal (lookup k)) in Hs. rewrite !list_lookup_fmap in Hs. specialize (HL k). specialize (HL' k).
  unfold row in H2. destruct (L !! k) as [[v n q c]|], (L' !! k) as [[v' n' q' c']|]; simpl in *; try congruence.
  specialize (HL _ eq_refl). specialize (HL' _ eq_refl). simpl in *. congruence.
Qed.

(** The connections, each with what its binary carries and what is left of its start. *)
Abbreviation starts := (gmap nat (result load_error (list migration) * MM (result migrate_error ()))).

(** ** One service among others *)

Section services.
(** What a started binary carries; every migration of a history is one of these. *)
Context (carried : migration → Prop).

Definition good (L : list migration) : Prop := contiguous L ∧ Forall carried L.
(** The invariant: what is committed is the outcome of some history. *)
Definition sound (w : mworld) : Prop := ∃ L, good L ∧ committed w = db_of L.
(** Histories only grow. *)
Definition grows (w w' : mworld) : Prop :=
  ∀ L, good L → committed w = db_of L → ∃ L', good (L ++ L') ∧ committed w' = db_of (L ++ L').
(** What connection [i] can rely on while others act: with the lock in hand nothing moves. *)
Definition rely (i : nat) (w w' : mworld) : Prop :=
  grows w w' ∧ (lock w = Some i → lock w' = Some i ∧ committed w' = committed w ∧ txs w' !! i = txs w !! i).

#[export] Instance grows_preorder : PreOrder grows.
Proof.
  split.
  - intros w L HL Hw. exists []. by rewrite app_nil_r.
  - intros w1 w2 w3 H12 H23 L HL Hw. destruct (H12 L HL Hw) as (L' & HL' & Hw').
    destruct (H23 _ HL' Hw') as (L'' & ? & ?). exists (L' ++ L'')%list. by rewrite app_assoc.
Qed.
#[export] Instance rely_preorder i : PreOrder (rely i).
Proof.
  split.
  - intros w. by split.
  - intros w1 w2 w3 [Hg1 H1] [Hg2 H2]. split; [by etrans|]. intros Hl. destruct (H1 Hl) as (Hl' & Hc & Ht).
    destruct (H2 Hl') as (? & ? & ?). split_and!; [done|congruence..].
Qed.

(** A program that keeps the invariant and disturbs no other connection, whatever the
    others do meanwhile. *)
Fixpoint guarded {A} (i : nat) (Q : A → mworld → Prop) (m : MM A) (w : mworld) : Prop :=
  match m with
  | Ret a => Q a w
  | Vis c k => ∀ w1 r w2, rely i w w1 → sound w1 → msem i w1 c r w2 →
                 sound w2 ∧ (∀ j, j ≠ i → rely j w1 w2) ∧ guarded i Q (k r) w2
  end.

Lemma guarded_bind {A B} i (Q : A → mworld → Prop) (Q' : B → mworld → Prop) m (f : A → MM B) w :
  guarded i Q m w → (∀ a w', Q a w' → guarded i Q' (f a) w') → guarded i Q' (m ≫= f) w.
Proof.
  revert w. induction m as [a|c k IH]; intros w Hm Hf; [by apply Hf|].
  intros w1 r w2 Hr Hs Hc. destruct (Hm w1 r w2 Hr Hs Hc) as (? & ? & ?). split_and!; [done..|]. by apply IH.
Qed.
Lemma guarded_rely {A} i (Q : A → mworld → Prop) m w w' :
  (∀ a w w', rely i w w' → Q a w → Q a w') → rely i w w' → guarded i Q m w → guarded i Q m w'.
Proof.
  intros HQ Hr. destruct m as [a|c k]; [by apply HQ|]. intros Hm w1 r w2 Hr'. apply Hm. by etrans.
Qed.

Lemma guarded_mono {A} i (Q Q' : A → mworld → Prop) m w :
  (∀ a w, Q a w → Q' a w) → guarded i Q m w → guarded i Q' m w.
Proof.
  intros HQ. revert w. induction m as [a|c k IH]; intros w; [apply HQ|]. intros Hm w1 r w2 Hr Hs Hc.
  destruct (Hm w1 r w2 Hr Hs Hc) as (? & ? & ?). split_and!; [done..|]. by apply IH.
Qed.

(** Every statement but a commit leaves what is committed alone, and the others' locks and
    transactions. *)
Definition touches (i : nat) (w w' : mworld) : Prop :=
  committed w' = committed w ∧ ∀ j, j ≠ i → (lock w = Some j → lock w' = Some j) ∧ txs w' !! j = txs w !! j.
Lemma touches_rely i w w' : touches i w w' → sound w → sound w' ∧ ∀ j, j ≠ i → rely j w w'.
Proof.
  intros [Hc Ho] (L & HL & Hw). split; [exists L; by rewrite Hc|]. intros j Hj. destruct (Ho j Hj) as [Hl Ht]. split.
  - intros L' HL' Hw'. exists []. rewrite app_nil_r. by rewrite Hc.
  - auto.
Qed.
Lemma touches_refl i w : touches i w w.
Proof. by split. Qed.
Lemma unlock_cases i w : (lock w = Some i ∧ unlock i w = with_lock None w) ∨ (lock w ≠ Some i ∧ unlock i w = w).
Proof. unfold unlock. destruct (decide _); auto. Qed.
Lemma disconnect_touches i w : touches i w (disconnect i w).
Proof.
  unfold disconnect. destruct (unlock_cases i w) as [[Hl ->]|[Hl ->]]; (split; [done|]); intros j Hj; simpl;
    (split; [congruence|by rewrite lookup_delete_ne]).
Qed.
Lemma failed_touches i w w' : failed i w w' → touches i w w'.
Proof. intros [->| ->]; [apply touches_refl|apply disconnect_touches]. Qed.
Lemma touches_trans i w1 w2 w3 : touches i w1 w2 → touches i w2 w3 → touches i w1 w3.
Proof.
  intros [Hc1 H1] [Hc2 H2]. split; [congruence|]. intros j Hj. destruct (H1 j Hj), (H2 j Hj). split; [auto|congruence].
Qed.
Lemma txs_touches i w t : (∀ j, j ≠ i → t !! j = txs w !! j) → touches i w (with_txs t w).
Proof. intros Ht. split; [done|]. intros j Hj. split; [done|]. by apply Ht. Qed.

Lemma msem_touches i w c r w' : msem i w c r w' → c ≠ MCommit → touches i w w'.
Proof.
  assert (Hins : ∀ ops, touches i w (with_txs (<[i := ops]> (txs w)) w)).
  { intros ops. apply txs_touches. intros j Hj. by rewrite lookup_insert_ne. }
  assert (Hdel : touches i w (with_txs (delete i (txs w)) w)).
  { apply txs_touches. intros j Hj. by rewrite lookup_delete_ne. }
  destruct c; simpl; intros H Hne; try done.
  - subst. apply touches_refl.
  - assert (Hl : lock w = None ∨ lock w = Some i → touches i w (with_lock (Some i) w)).
    { intros Hl. split; [done|]. intros j Hj. simpl. split; [|done]. destruct Hl; congruence. }
    destruct r as [e|]; [|destruct H as [? ->]; auto].
    destruct H as [H|[? H]]; [by apply failed_touches|]. eapply touches_trans; [apply Hl; by left|by apply failed_touches].
  - destruct H as [->|H]; [|by apply failed_touches]. destruct (unlock_cases i w) as [[Hl ->]|[Hl ->]]; [|apply touches_refl].
    split; [done|]. intros j Hj. simpl. split; [congruence|done].
  - destruct r; [by apply failed_touches|subst; apply touches_refl].
  - destruct r; [destruct H as [_ ->]; apply touches_refl|by apply failed_touches].
  - destruct r; [by apply failed_touches|subst; apply Hins].
  - destruct r; [destruct H as [?| ->]; [by apply failed_touches|done]|]. destruct H as (ops & _ & ->). apply Hins.
  - destruct r; [destruct H as [?| ->]; [by apply failed_touches|done]|]. destruct H as (ops & _ & _ & ->). apply Hins.
  - destruct H as [->|H]; [done|by apply failed_touches].
Qed.

(** The rule for one statement that is no commit. *)
Lemma guarded_ask {A} i (Q : A → mworld → Prop) c k w : c ≠ MCommit →
  (∀ w1 r w2, rely i w w1 → sound w1 → msem i w1 c r w2 → guarded i Q (k r) w2) → guarded i Q (ask (R := mreply) c ≫= k) w.
Proof.
  intros Hc Hk w1 r w2 Hr Hs Hm. destruct (touches_rely i w1 w2) as [H1 H2]; [by eapply msem_touches|done|]. split_and!; eauto.
Qed.

(** ** The lock's holder *)

Definition holding (i : nat) (L : list migration) (t : option (list tx_op)) (w : mworld) : Prop :=
  lock w = Some i ∧ committed w = db_of L ∧ txs w !! i = t.
Lemma holding_rely i L t w w' : holding i L t w → rely i w w' → holding i L t w'.
Proof. intros (Hl & Hc & Ht) [_ H]. destruct (H Hl) as (? & ? & ?). split_and!; congruence. Qed.

Lemma commit_step i L m w : good (L ++ [m]) →
  holding i L (Some [OExec (SQL m); OInsert (Version m) (Name m) (Checksum m)]) w →
  let w' := commit i [OExec (SQL m); OInsert (Version m) (Name m) (Checksum m)] w in
  holding i (L ++ [m]) None w' ∧ sound w' ∧ ∀ j, j ≠ i → rely j w w'.
Proof.
  intros HL (Hl & Hc & Ht) w'. assert (Hc' : committed w' = db_of (L ++ [m])) by (unfold w', commit; cbn [committed]; by rewrite Hc, db_of_snoc).
  split_and!.
  - split_and!; [done|done|]. simpl. by rewrite lookup_delete_eq.
  - by exists (L ++ [m])%list.
  - intros j Hj. split.
    + intros L' HL' Hw. assert (L' = L) as ->.
      { apply db_of_inj; [apply HL'| |congruence]. destruct HL as [HL _]. by apply contiguous_snoc in HL as [? _]. }
      by exists [m].
    + simpl. intros Hlj. congruence.
Qed.

(** What an answer says of the database. *)
Definition applied_all (b : list migration) (r : result migrate_error ()) (w : mworld) : Prop :=
  r = Ok () → ∃ L, good L ∧ committed w = db_of L ∧ checksums b `prefix_of` checksums L.
Lemma applied_all_rely i b r w w' : rely i w w' → applied_all b r w → applied_all b r w'.
Proof.
  intros [Hg _] H Hr. destruct (H Hr) as (L & HL & Hw & Hp). destruct (Hg L HL Hw) as (L' & HL' & Hw').
  exists (L ++ L')%list. split_and!; [done..|]. unfold checksums. rewrite fmap_app. by apply prefix_app_r.
Qed.
Lemma applied_all_err b e w : applied_all b (Err e) w.
Proof. done. Qed.

(** A step of the holder. *)
Lemma holder_ask {A} i (Q : A → mworld → Prop) c k w L t : c ≠ MCommit → holding i L t w →
  (∀ w1 r w2, holding i L t w1 → msem i w1 c r w2 → guarded i Q (k r) w2) → guarded i Q (ask (R := mreply) c ≫= k) w.
Proof. intros Hc Hh Hk. apply guarded_ask; [done|]. intros w1 r w2 Hr _. apply Hk. by eapply holding_rely. Qed.

Lemma rollback_guarded i b e w : guarded i (applied_all b) (_ ← ask (R := mreply) MRollback; mret (Err e)) w.
Proof. apply guarded_ask; [done|]. intros. apply applied_all_err. Qed.

Lemma apply_one_guarded i b m next w L t : holding i L t w → good (L ++ [m]) →
  (∀ w', holding i (L ++ [m]) None w' → guarded i (applied_all b) next w') →
  guarded i (applied_all b) (apply_one m next) w.
Proof.
  intros Hh HL Hnext. unfold apply_one, mdo. eapply holder_ask; [done|exact Hh|]. intros w1 r w2 H1 Hs. cbn in Hs |- *.
  destruct r as [e|]; [apply applied_all_err|]. subst w2.
  assert (H2 : holding i L (Some []) (with_txs (<[i := []]> (txs w1)) w1)).
  { destruct H1 as (? & ? & ?). split_and!; [done..|]. simpl. by rewrite lookup_insert_eq. }
  eapply holder_ask; [done|exact H2|]. clear H1 H2 w1. intros w1 r w2 H1 Hs. cbn in Hs |- *.
  destruct r as [e|]; [apply rollback_guarded|]. destruct Hs as (ops & Hops & ->).
  assert (H2 : holding i L (Some [OExec (SQL m)]) (with_txs (<[i := (ops ++ [OExec (SQL m)])%list]> (txs w1)) w1)).
  { destruct H1 as (? & ? & Ht). rewrite Ht in Hops. injection Hops as <-. split_and!; [done..|]. simpl. by rewrite lookup_insert_eq. }
  eapply holder_ask; [done|exact H2|]. clear H1 H2 Hops w1. intros w1 r w2 H1 Hs. cbn in Hs |- *.
  destruct r as [e|]; [apply rollback_guarded|]. destruct Hs as (ops' & Hops & _ & ->).
  set (full := [OExec (SQL m); OInsert (Version m) (Name m) (Checksum m)]).
  assert (H2 : holding i L (Some full) (with_txs (<[i := (ops' ++ [OInsert (Version m) (Name m) (Checksum m)])%list]> (txs w1)) w1)).
  { destruct H1 as (? & ? & Ht). rewrite Ht in Hops. injection Hops as <-. split_and!; [done..|]. simpl. by rewrite lookup_insert_eq. }
  clear H1 Hops. intros w3 r w4 Hr Hs Hcommit. apply (holding_rely _ _ _ _ _ H2) in Hr as H3.
  destruct (commit_step i L m w3 HL H3) as (H4 & H5 & H6). fold full in H4, H5, H6.
  assert (Htx : txs w3 !! i = Some full) by apply H3. cbn in Hcommit. destruct r as [e|].
  - assert (sound w4 ∧ ∀ j, j ≠ i → rely j w3 w4) as [? ?]; [|split_and!; [done..|apply applied_all_err]].
    destruct Hcommit as [Hf|(ops2 & Hops & Hf)].
    + apply (touches_rely i); [by apply failed_touches|done].
    + rewrite Htx in Hops. injection Hops as <-. destruct (touches_rely i (commit i full w3) w4) as [? Hre];
        [by apply failed_touches|done|]. split; [done|]. intros j Hj. etrans; [by apply H6|by apply Hre].
  - destruct Hcommit as (ops2 & Hops & ->). rewrite Htx in Hops. injection Hops as <-. split_and!; [done..|]. by apply Hnext.
Qed.

Lemma apply_loop_guarded i L0 pending pre L t w :
  contiguous (pre ++ pending) → Forall carried pending → good L0 → good L → holding i L t w →
  length L = Nat.max (length pre) (length L0) → ((length pre ≤ length L0)%nat → L = L0) →
  checksums pre `prefix_of` checksums L →
  guarded i (applied_all (pre ++ pending)) (apply_loop (ledger_of L0) pending) w.
Proof.
  revert pre L t w. induction pending as [|m pending IH]; intros pre L t w Hb Hcar H0 HL Hh Hlen Hsame Hpre; cbn [apply_loop].
  - intros _. exists L. split; [done|]. split; [apply Hh|]. by rewrite app_nil_r.
  - assert (Hv : Version m = Z.of_nat (S (length pre))) by (apply Hb; by rewrite lookup_app_r, Nat.sub_diag).
    apply Forall_cons in Hcar as [Hm Hcar]. rewrite Hv, ledger_lookup by apply H0.
    destruct (Z.leb_spec 1 (Z.of_nat (S (length pre)))); [|lia].
    replace (Z.to_nat (Z.of_nat (S (length pre)) - 1)) with (length pre) by lia.
    rewrite (cons_middle m pre pending), app_assoc in Hb |- *.
    destruct (L0 !! length pre) as [m0|] eqn:Hm0; cbn [fmap option_fmap option_map row].
    + apply lookup_lt_Some in Hm0 as Hlt. assert (L = L0) as -> by (apply Hsame; lia). clear Hsame.
      destruct (String.eqb_spec (Checksum m0) (Checksum m)) as [Heq|]; [|apply applied_all_err].
      apply (IH _ L0 t); try done; rewrite ?length_app; cbn [length]; try lia.
      destruct Hpre as [k Hk]. unfold checksums in *. rewrite fmap_app. cbn [fmap list_fmap].
      apply (f_equal (lookup (length pre))) in Hk as Hk'. rewrite list_lookup_fmap, Hm0 in Hk'. cbn in Hk'.
      rewrite lookup_app_r in Hk' by (by rewrite length_fmap). rewrite length_fmap, Nat.sub_diag in Hk'.
      destruct k as [|c k]; [done|]. injection Hk' as <-. exists k. rewrite Hk, Heq. by rewrite <- app_assoc.
    + apply lookup_ge_None in Hm0. assert (Hll : length L = length pre) by lia.
      assert (HL' : good (L ++ [m])).
      { split; [apply contiguous_snoc; split; [apply HL|by rewrite Hll]|]. apply Forall_app_2; [apply HL|by constructor]. }
      eapply apply_one_guarded; [exact Hh|done|]. intros w' Hh'.
      apply (IH _ (L ++ [m])%list None); try done; rewrite ?length_app; cbn [length]; try lia.
      unfold checksums in *. rewrite !fmap_app. destruct Hpre as [k Hk].
      assert (k = []) as ->. { apply (f_equal length) in Hk. rewrite length_app, !length_fmap in Hk. destruct k; [done|simpl in Hk; lia]. }
      rewrite Hk, app_nil_r. done.
Qed.

Definition loaded (load : result load_error (list migration)) : Prop :=
  ∀ b, load = Ok b → contiguous b ∧ Forall carried b.
Definition answered (load : result load_error (list migration)) (r : result migrate_error ()) (w : mworld) : Prop :=
  r = Ok () → ∃ b, load = Ok b ∧ applied_all b r w.
Lemma answered_rely i load r w w' : rely i w w' → answered load r w → answered load r w'.
Proof. intros Hr H Hok. destruct (H Hok) as (b & ? & ?). exists b. split; [done|]. by eapply applied_all_rely. Qed.
Lemma answered_same load r w w' : committed w' = committed w → answered load r w → answered load r w'.
Proof.
  intros Hc H Hok. destruct (H Hok) as (b & Hb & Happ). exists b. split; [done|]. intros Hr.
  destruct (Happ Hr) as (L & ? & ? & ?). exists L. by rewrite Hc.
Qed.
Lemma answered_err load e w : answered load (Err e) w.
Proof. done. Qed.

Lemma apply_guarded i b w L : contiguous b → Forall carried b → good L → holding i L (txs w !! i) w →
  guarded i (applied_all b) (applyMigrationsTo b) w.
Proof.
  intros Hb Hc HL Hh. unfold applyMigrationsTo, mdo. eapply holder_ask; [done|exact Hh|].
  intros w1 r w2 H1 Hs. cbn in Hs |- *. destruct r as [e|]; [apply applied_all_err|]. subst w2.
  eapply holder_ask; [done|exact H1|]. intros w3 r w4 H3 Hs. cbn in Hs |- *.
  destruct r as [rows|e]; [|apply applied_all_err]. destruct Hs as [-> ->].
  destruct (ahead _ _); [apply applied_all_err|]. assert (committed w3 = db_of L) as -> by apply H3.
  apply (apply_loop_guarded i L b [] L (txs w !! i)); try done. apply prefix_nil.
Qed.

Lemma Migrate_guarded i load w : loaded load → guarded i (answered load) (Migrate load) w.
Proof.
  intros Hload. unfold Migrate, mdo. apply guarded_ask; [done|]. intros w1 r w2 _ _ _. cbn.
  destruct r as [e|]; [apply answered_err|]. intros w3 r w4 _ Hs3 Hl.
  destruct (touches_rely i w3 w4) as [Hs4 Hr4]; [by eapply (msem_touches _ _ MLock)|done|].
  split; [done|]. split; [done|]. cbn in Hl |- *. destruct r as [e|]; [apply answered_err|]. destruct Hl as [_ ->].
  apply guarded_bind with (answered load).
  - destruct load as [b|e]; [|apply answered_err]. destruct (Hload b eq_refl) as [Hb Hc]. destruct Hs3 as (L & HL & Hw).
    assert (Hh : holding i L (txs (with_lock (Some i) w3) !! i) (with_lock (Some i) w3)) by done.
    pose proof (apply_guarded i b _ L Hb Hc HL Hh) as H.
    eapply guarded_mono; [|exact H]. intros a w' Ha Hok. by exists b.
  - intros a w' Ha. apply guarded_ask; [done|]. intros w5 r w6 Hr Hs5 Hm. cbn.
    apply (answered_same load a w5); [|by eapply answered_rely].
    by destruct (msem_touches _ _ MUnlock _ _ Hm) as [? _].
Qed.

(** ** Any number of services *)

Inductive mstep : mworld * starts → mworld * starts → Prop :=
| m_call w ps i load c k r w' :
    ps !! i = Some (load, Vis c k) → msem i w c r w' → mstep (w, ps) (w', <[i := (load, k r)]> ps)
| m_start w ps i load :
    ps !! i = None → loaded load → mstep (w, ps) (w, <[i := (load, Migrate load)]> ps)
| m_stop w ps i :    (** the service ends, or dies, wherever it is *)
    mstep (w, ps) (disconnect i w, delete i ps).

Definition all_guarded (s : mworld * starts) : Prop :=
  sound s.1 ∧ ∀ i load m, s.2 !! i = Some (load, m) → guarded i (answered load) m s.1.
Lemma mstep_guarded s s' : mstep s s' → all_guarded s → all_guarded s'.
Proof.
  assert (Hothers : ∀ i w w' (ps : starts), (∀ j, j ≠ i → rely j w w') →
    (∀ j load m, ps !! j = Some (load, m) → guarded j (answered load) m w) →
    ∀ j load m, j ≠ i → ps !! j = Some (load, m) → guarded j (answered load) m w').
  { intros i w w' ps Hr Hps j load m Hj Hm. eapply guarded_rely; [|by apply Hr|by eapply Hps].
    intros a w1 w2. apply answered_rely. }
  destruct 1 as [w ps i load c k r w' Hi Hc|w ps i load Hi Hload|w ps i]; intros [Hs Hps]; simpl in *.
  - destruct (Hps i _ _ Hi w r w') as (Hs' & Hr & Hk); [done..|]. split; [done|]. simpl.
    intros j load' m [[<- [= <- <-]]|[Hj Hm]]%lookup_insert_Some; [done|]. eapply Hothers; eauto.
  - split; [done|]. simpl. intros j load' m [[<- [= <- <-]]|[Hj Hm]]%lookup_insert_Some; [by apply Migrate_guarded|by eapply Hps].
  - destruct (touches_rely i w (disconnect i w)) as [Hs' Hr]; [apply disconnect_touches|done|]. split; [done|].
    simpl. intros j load' m [Hj Hm]%lookup_delete_Some. eapply Hothers; eauto.
Qed.

Lemma msteps_alone i load m w ps w' r :
  alone (msem i) w m w' r → rtc mstep (w, <[i := (load, m)]> ps) (w', <[i := (load, Ret r)]> ps).
Proof.
  revert w. induction m as [a|c k IH]; intros w.
  - by intros [-> ->].
  - intros (x & w1 & Hs & Ha). eapply rtc_l; [eapply m_call; [apply lookup_insert_eq|exact Hs]|].
    rewrite insert_insert_eq. by apply IH.
Qed.

Definition fresh : mworld := {| committed := {| schema := []; ledger := ∅ |}; lock := None; txs := ∅ |}.

(** C3. However many services start at once on one database, of whatever versions, and
    wherever statements fail, answers are lost and services die: what is committed is the
    outcome of one history, in which each migration was run once, in the order of the
    versions from one and with none left out, and the ledger lists exactly these. A
    service that starts has every migration it carries in that history, as it carries
    it, and the history goes on to hold them. *)
Theorem schema_is_a_history w ps :
  rtc mstep (fresh, ∅) (w, ps) →
  ∃ L, contiguous L ∧ Forall carried L ∧ committed w = {| schema := SQL <$> L; ledger := ledger_of L |} ∧
    ∀ i load, ps !! i = Some (load, Ret (Ok ())) →
      ∃ b, load = Ok b ∧ checksums b `prefix_of` checksums L.
Proof.
  intros Hr. assert (all_guarded (w, ps)) as [(L & HL & Hw) Hps].
  { enough (∀ s s', rtc mstep s s' → all_guarded s → all_guarded s') as H.
    { apply (H _ _ Hr). split; [|done]. exists []. by split. }
    induction 1 as [s|s s1 s2 Hs _ IH]; [done|]. intros Hg. apply IH. by eapply mstep_guarded. }
  exists L. split_and!; [apply HL|apply HL|done|]. intros i load Hi.
  destruct (Hps i load _ Hi eq_refl) as (b & Hb & Happ). exists b. split; [done|].
  destruct (Happ eq_refl) as (L' & HL' & Hw' & Hp). assert (L' = L) as -> by (apply db_of_inj; [apply HL'|apply HL|simpl in *; congruence]).
  done.
Qed.
End services.

(** ** What loading guarantees *)

Definition file_names (f : file) (m : migration) : Prop :=
  f_IsDir f = false ∧ migrationNamePattern (f_Name f) = Some (Version m, Name m) ∧ f_Body f = Ok (SQL m) ∧
  Checksum m = sha256_hex (SQL m).

Lemma load_files entries seen out :
  fold_res load_file (∅, []) entries = Ok (seen, out) →
  Forall2 file_names (filter (λ f, f_IsDir f = false) entries) out.
Proof.
  intros Hf. enough (Forall2 file_names (filter (λ f, f_IsDir f = false) entries) (seen, out).2) by done.
  eapply (fold_res_prefix (λ pre (st : gmap Z string * list migration),
    Forall2 file_names (filter (λ f, f_IsDir f = false) pre) st.2)); [| |exact Hf]; [|constructor].
  intros pre f [s o] [s' o'] Hall; simpl in *. rewrite filter_app. unfold load_file.
  destruct (f_IsDir f) eqn:Hd; [intros [= <- <-]; rewrite filter_cons_False by congruence; by rewrite app_nil_r|].
  destruct (migrationNamePattern _) as [[v n]|] eqn:Hp; [|done]. destruct (v =? 0)%Z; [done|].
  destruct (s !! v); [done|]. destruct (f_Body f) as [body|] eqn:Hb; [|done]. destruct (sempty _); [done|].
  intros [= <- <-]. rewrite filter_cons_True, filter_nil by done. apply Forall2_app; [done|]. by repeat constructor.
Qed.

Lemma check_contiguous_spec i out : check_contiguous i out = None ↔ ∀ k m, out !! k = Some m → Version m = (i + Z.of_nat k)%Z.
Proof.
  revert i. induction out as [|m out IH]; intros i; cbn [check_contiguous]; [done|].
  destruct (Z.eqb_spec (Version m) i) as [Hv|Hv].
  - rewrite IH. split.
    + intros H [|k] x; simpl; [intros [= <-]; lia|]. intros Hk. rewrite (H k x Hk). lia.
    + intros H k x Hk. rewrite (H (S k) x Hk). lia.
  - split; [done|]. intros H. destruct Hv. rewrite (H 0 m eq_refl). lia.
Qed.

(** C38. A set of migrations that loads is a history: its versions are one, two and so on,
    and each is one file, named for it, with its text and the digest of that text; every
    file of the set is among them. *)
Theorem loaded_migrations_are_contiguous `{GoRuntime} entries ms :
  loadMigrationsFrom (Ok entries) = Ok ms →
  ms ≠ [] ∧ contiguous ms ∧ ∃ files, files ≡ₚ filter (λ f, f_IsDir f = false) entries ∧ Forall2 file_names files ms.
Proof.
  unfold loadMigrationsFrom. destruct (fold_res _ _ _) as [[seen out]|] eqn:Hf; [|done]. intros Hl.
  apply load_files in Hf. pose proof (sort_slice_perm by_version out) as Hperm.
  destruct (check_contiguous 1 (sort_slice by_version out)) eqn:Hc; [done|].
  assert (ms = sort_slice by_version out ∧ ms ≠ []) as [-> Hne] by (destruct (sort_slice by_version out); [done|by injection Hl as <-]).
  split; [done|]. split.
  - intros k m Hk. rewrite (proj1 (check_contiguous_spec 1 _) Hc k m Hk). lia.
  - apply Forall2_flip in Hf. destruct (Permutation_Forall2 (symmetry Hperm) Hf) as (files & Hfiles & Hall).
    exists files. split; [by symmetry|]. by apply Forall2_flip.
Qed.

(** ** A start without faults *)

(** The replies of a database at peace to connection 0. *)
Definition serve (w : mworld) (c : mcall) : mworld * mreply c :=
  let ops := default [] (txs w !! 0) in
  match c as c return mworld * mreply c with
  | MAcquire | MCreateLedger => (w, None)
  | MLock => (with_lock (Some 0) w, None)
  | MUnlock => (unlock 0 w, None)
  | MSelectLedger => (w, Ok (ledger (committed w)))
  | MBegin => (with_txs (<[0 := []]> (txs w)) w, None)
  | MExec sql => (with_txs (<[0 := (ops ++ [OExec sql])%list]> (txs w)) w, None)
  | MInsert v n c =>
      match ledger (committed w) !! v with
      | None => (with_txs (<[0 := (ops ++ [OInsert v n c])%list]> (txs w)) w, None)
      | Some _ => (w, Some "duplicate key")
      end
  | MCommit => (commit 0 ops w, None)
  | MRollback => (with_txs (delete 0 (txs w)) w, None)
  end.

Lemma run_apply_one m next w L : contiguous (L ++ [m]) → committed w = db_of L →
  ∃ w', run serve w (apply_one m next) = run serve w' next ∧ committed w' = db_of (L ++ [m]) ∧ lock w' = lock w.
Proof.
  intros Hc Hw. apply contiguous_snoc in Hc as [HL Hv]. unfold apply_one, mdo. cbn -[foldl].
  rewrite lookup_insert_eq. cbn -[foldl].
  assert (ledger (committed w) !! Version m = None) as Hfree.
  { rewrite Hw. cbn [ledger db_of]. rewrite ledger_lookup, Hv by done. destruct (Z.leb_spec 1 (Z.of_nat (S (length L)))); [|done].
    by rewrite lookup_ge_None_2 by lia. }
  rewrite Hfree. cbn -[foldl]. rewrite !lookup_insert_eq. cbn -[foldl]. eexists. split; [reflexivity|].
  split; [|done]. cbn -[foldl]. rewrite Hw. apply db_of_snoc.
Qed.

Lemma run_insert_all L0 b2 L w : contiguous L0 → contiguous (L ++ b2) → (length L0 ≤ length L)%nat → committed w = db_of L →
  ∃ w', run serve w (apply_loop (ledger_of L0) b2) = (w', Ok ()) ∧ committed w' = db_of (L ++ b2) ∧ lock w' = lock w.
Proof.
  revert L w. induction b2 as [|m b2 IH]; intros L w H0 Hc Hlen Hw; cbn [apply_loop].
  - exists w. by rewrite app_nil_r.
  - rewrite cons_middle, app_assoc in Hc. assert (Hc1 : contiguous (L ++ [m])).
    { intros k x Hk. apply Hc. by apply lookup_app_l_Some. }
    assert (ledger_of L0 !! Version m = None) as ->.
    { apply contiguous_snoc in Hc1 as [_ Hv]. rewrite ledger_lookup, Hv by done.
      destruct (Z.leb_spec 1 (Z.of_nat (S (length L)))); [|done]. by rewrite lookup_ge_None_2 by lia. }
    destruct (run_apply_one m (apply_loop (ledger_of L0) b2) w L Hc1 Hw) as (w1 & -> & Hw1 & Hl1).
    destruct (IH (L ++ [m])%list w1) as (w2 & Hr & Hw2 & Hl2); [done|done|rewrite length_app; lia|done|].
    exists w2. rewrite cons_middle, app_assoc. split_and!; [done..|congruence].
Qed.

(** Migrations already applied, unchanged, are passed over; a changed one ends the loop. *)
Lemma loop_skip L0 pre m rest : contiguous L0 → contiguous (pre ++ m :: rest) → (length pre < length L0)%nat →
  apply_loop (ledger_of L0) (m :: rest) =
  if decide ((Checksum <$> L0 !! length pre) = Some (Checksum m)) then apply_loop (ledger_of L0) rest
  else match L0 !! length pre with
       | Some m0 => mret (Err (if (slen (Checksum m0) <? 12)%nat || (slen (Checksum m) <? 12)%nat
                               then ChecksumTooShort (Checksum m0) else AppliedChanged m))
       | None => mret (Ok ())
       end.
Proof.
  intros H0 Hc Hlt. cbn [apply_loop].
  assert (Hv : Version m = Z.of_nat (S (length pre))) by (apply Hc; by rewrite lookup_app_r, Nat.sub_diag).
  rewrite ledger_lookup, Hv by done. destruct (Z.leb_spec 1 (Z.of_nat (S (length pre)))); [|lia].
  replace (Z.to_nat (Z.of_nat (S (length pre)) - 1)) with (length pre) by lia.
  destruct (lookup_lt_is_Some_2 L0 (length pre) Hlt) as [m0 ->]. cbn [fmap option_fmap option_map row].
  destruct (String.eqb_spec (Checksum m0) (Checksum m)) as [Heq|Hne]; case_decide; congruence.
Qed.

Lemma loop_applied L0 b pre : contiguous L0 → contiguous (pre ++ b) → (length L0 ≤ length pre + length b)%nat →
  (length pre ≤ length L0)%nat → checksums pre `prefix_of` checksums L0 →
  (checksums L0 `prefix_of` checksums (pre ++ b) ∧
   apply_loop (ledger_of L0) b = apply_loop (ledger_of L0) (drop (length L0 - length pre) b)) ∨
  (¬ checksums L0 `prefix_of` checksums (pre ++ b) ∧ ∃ e, apply_loop (ledger_of L0) b = mret (Err e)).
Proof.
  revert pre. induction b as [|m b IH]; intros pre H0 Hc Hlen Hle Hpre.
  - cbn in Hlen. assert (length pre = length L0) as Heq by lia. left. rewrite Heq, Nat.sub_diag, app_nil_r. split; [|done].
    destruct Hpre as [k Hk]. assert (k = []) as ->.
    { apply (f_equal length) in Hk. unfold checksums in Hk. rewrite length_app, !length_fmap in Hk. destruct k; [done|simpl in Hk; lia]. }
    rewrite app_nil_r in Hk. by rewrite Hk.
  - destruct (decide (length pre = length L0)) as [Heq|Hne].
    { left. rewrite <- Heq, Nat.sub_diag. split; [|done]. destruct Hpre as [k Hk]. assert (k = []) as ->.
      { apply (f_equal length) in Hk. unfold checksums in Hk. rewrite length_app, !length_fmap in Hk. destruct k; [done|simpl in Hk; lia]. }
      rewrite app_nil_r in Hk. rewrite Hk. unfold checksums. rewrite fmap_app. by apply prefix_app_r. }
    assert (Hlt : (length pre < length L0)%nat) by lia. rewrite (loop_skip L0 pre) by done.
    destruct (lookup_lt_is_Some_2 L0 (length pre) Hlt) as [m0 Hm0]. rewrite Hm0. cbn [fmap option_fmap option_map].
    case_decide as Hd.
    + injection Hd as Hd. replace (length L0 - length pre)%nat with (S (length L0 - length (pre ++ [m])))%nat by (rewrite length_app; cbn; lia).
      rewrite cons_middle, app_assoc in Hc |- *. cbn [drop]. apply IH; [done|done|rewrite length_app; cbn in *; lia|rewrite length_app; cbn; lia|].
      destruct Hpre as [k Hk]. unfold checksums in *. rewrite fmap_app. cbn [fmap list_fmap].
      apply (f_equal (lookup (length pre))) in Hk as Hk'. rewrite list_lookup_fmap, Hm0 in Hk'. cbn in Hk'.
      rewrite lookup_app_r in Hk' by (by rewrite length_fmap). rewrite length_fmap, Nat.sub_diag in Hk'.
      destruct k as [|c k]; [done|]. injection Hk' as <-. exists k. rewrite Hk, Hd. by rewrite <- app_assoc.
    + right. split; [|eauto]. intros [k Hk]. apply Hd.
      assert (checksums (pre ++ m :: b) !! length pre = Some (Checksum m)) as Hm.
      { unfold checksums. by rewrite list_lookup_fmap, lookup_app_r, Nat.sub_diag. }
      unfold checksums in *. rewrite Hk, lookup_app_l, list_lookup_fmap, Hm0 in Hm by (by rewrite length_fmap). done.
Qed.

(** The database at peace after a history. *)
Definition at_history (L : list migration) : mworld := {| committed := db_of L; lock := None; txs := ∅ |}.

Lemma ahead_spec L0 b : contiguous L0 → contiguous b → ahead (ledger_of L0) b = bool_decide (length b < length L0)%nat.
Proof.
  intros H0 Hb. apply Bool.eq_true_iff_eq. rewrite bool_decide_eq_true. unfold ahead. rewrite existsb_exists. split.
  - intros ([v r] & Hin & Hneg). apply list_elem_of_In, elem_of_map_to_list in Hin. cbn in Hneg.
    rewrite ledger_lookup in Hin by done. destruct (Z.leb_spec 1 v); [|done].
    destruct (L0 !! Z.to_nat (v - 1)) as [m0|] eqn:Hm0; [|done]. apply lookup_lt_Some in Hm0.
    destruct (decide (length b < length L0)%nat); [done|]. exfalso. apply negb_true_iff in Hneg.
    destruct (lookup_lt_is_Some_2 b (Z.to_nat (v - 1))) as [m Hm]; [lia|].
    assert (existsb (λ m, (Version m =? v)%Z) b = true); [|congruence]. apply existsb_exists. exists m.
    split; [by apply list_elem_of_In, list_elem_of_lookup_2 with (Z.to_nat (v - 1))|]. apply Z.eqb_eq. rewrite (Hb _ _ Hm). lia.
  - intros Hlt. destruct (lookup_lt_is_Some_2 L0 (length b) Hlt) as [m0 Hm0].
    exists (Z.of_nat (S (length b)), row m0). split.
    + apply list_elem_of_In, elem_of_map_to_list. rewrite ledger_lookup by done.
      destruct (Z.leb_spec 1 (Z.of_nat (S (length b)))); [|lia].
      replace (Z.to_nat (Z.of_nat (S (length b)) - 1)) with (length b) by lia. by rewrite Hm0.
    + cbn [fst]. apply negb_true_iff. apply Bool.not_true_iff_false. rewrite existsb_exists. intros (m & Hm & Hv).
      apply list_elem_of_In, list_elem_of_lookup in Hm as [k Hk]. apply Z.eqb_eq in Hv. rewrite (Hb k m Hk) in Hv.
      apply lookup_lt_Some in Hk. lia.
Qed.

(** C24. A service that starts alone on the database of some history, with no statement
    failing, ends: with the migrations it carries beyond that history run in order, if
    what was applied is a first part of what it carries, as it carries it; else with an
    error and nothing changed, an older binary on a newer schema and an applied migration
    edited since included. Either way the lock is free again. *)
Theorem start_brings_up_to_date L b : contiguous L → contiguous b →
  let '(w, r) := run serve (at_history L) (Migrate (Ok b)) in
  lock w = None ∧
  ((checksums L `prefix_of` checksums b ∧ r = Ok () ∧ committed w = db_of (L ++ drop (length L) b) ∧
    checksums (L ++ drop (length L) b) = checksums b) ∨
   (¬ checksums L `prefix_of` checksums b ∧ (∃ e, r = Err e) ∧ committed w = db_of L)).
Proof.
  intros HL Hb. unfold Migrate, mdo. cbn -[applyMigrationsTo]. 
  rewrite run_bind. unfold applyMigrationsTo, mdo. cbn -[ahead apply_loop].
  rewrite ahead_spec by done. case_bool_decide as Hlt.
  { cbn. split; [done|]. right. split; [|eauto]. intros Hp%prefix_length. unfold checksums in Hp. rewrite !length_fmap in Hp. lia. }
  destruct (loop_applied L b []) as [[Hp ->]|[Hp [e ->]]]; [done|done|cbn; lia|cbn; lia|apply prefix_nil| |].
  - cbn [length]. rewrite Nat.sub_0_r.
    assert (Hcs : checksums (L ++ drop (length L) b) = checksums b).
    { cbn [app] in Hp. destruct Hp as [k Hk]. unfold checksums in *. rewrite fmap_app, fmap_drop, Hk.
      by rewrite drop_app_length' by (by rewrite length_fmap). }
    destruct (run_insert_all L (drop (length L) b) L (with_lock (Some 0) (at_history L))) as (w1 & Hr & Hw1 & Hl1); [done| |lia|done|].
    { intros k m [Hk|[Hk Hm]]%lookup_app_Some; [by apply HL|]. rewrite lookup_drop in Hm.
      rewrite (Hb _ _ Hm). f_equal. lia. }
    rewrite Hr. cbn. split; [unfold unlock; by rewrite decide_True by (by rewrite Hl1)|]. left. split_and!; [done|done| |done].
    unfold unlock. by destruct (decide _).
  - cbn. split; [done|]. right. split_and!; [done|eauto|done].
Qed.

(** ** Concrete starts *)

Module MigrationsWitnesses.
#[local] Existing Instance amd64_runtime.
Definition sql_file (name body : string) : file := {| f_Name := name; f_IsDir := false; f_Body := Ok body |}.
Definition first : migration := {| Version := 1; Name := "initial_schema"; SQL := "CREATE"; Checksum := "11" |}.
Definition second : migration := {| Version := 2; Name := "tenant_isolation"; SQL := "ALTER"; Checksum := "22" |}.
Definition edited : migration := {| Version := 1; Name := "initial_schema"; SQL := "CREATE"; Checksum := "1111111111111111" |}.
Definition set : list file := [sql_file "0002_tenant_isolation.sql" "ALTER"; sql_file "0001_initial_schema.sql" "CREATE";
  {| f_Name := "old"; f_IsDir := true; f_Body := Err "" |}].

Example names : migrationNamePattern "0012_a_b2.sql" = Some (12%Z, "a_b2") ∧ migrationNamePattern "0012_.sql" = None ∧
  migrationNamePattern "12_a.sql" = None ∧ migrationNamePattern "0012_A.sql" = None ∧ migrationNamePattern "0012_a.sql~" = None.
Proof. by vm_compute. Qed.
Example refusals :
  loadMigrationsFrom (Ok [sql_file "0002_b.sql" "B"]) = Err (NotContiguous 1 2 "b") ∧
  loadMigrationsFrom (Ok [sql_file "0001_a.sql" "A"; sql_file "0001_b.sql" "B"]) = Err (SharedVersion "0001_a.sql" "0001_b.sql" 1) ∧
  loadMigrationsFrom (Ok []) = Err NoMigrations.
Proof. by vm_compute. Qed.
Definition loaded_set : list migration := match loadMigrationsFrom (Ok set) with Ok ms => ms | Err _ => [] end.
Lemma set_loads : loadMigrationsFrom (Ok set) = Ok loaded_set. Proof. by vm_compute. Qed.
Lemma loaded_migrations_are_contiguous_witness :
  loaded_set ≠ [] ∧ contiguous loaded_set ∧
  ∃ files, files ≡ₚ filter (λ f, f_IsDir f = false) set ∧ Forall2 file_names files loaded_set.
Proof. exact (loaded_migrations_are_contiguous set loaded_set set_loads). Defined.

Definition carried (m : migration) : Prop := m = first ∨ m = second.
Lemma one_two : contiguous [first; second].
Proof. intros [|[|k]] m; simpl; intros [= <-]; done. Qed.
Lemma just_one : contiguous [first].
Proof. intros [|k] m; simpl; intros [= <-]; done. Qed.
Lemma both_carried : loaded carried (Ok [first; second]).
Proof. intros b [= <-]. split; [apply one_two|]. constructor; [by left|constructor; [by right|constructor]]. Qed.

(** One start on an empty database, the first commit's answer lost and the start refused. *)
Definition after_first : mworld := {| committed := db_of [first]; lock := None; txs := ∅ |}.
Lemma half_start : alone (msem 0) fresh (Migrate (Ok [first; second])) after_first (Err (CommitFailed first "connection lost")).
Proof.
  eexists None, _. split; [reflexivity|]. eexists None, _. split; [split; [by left|reflexivity]|].
  eexists None, _. split; [reflexivity|]. eexists (Ok _), _. split; [split; reflexivity|].
  eexists None, _. split; [reflexivity|]. eexists None, _. split; [eexists; split; reflexivity|].
  eexists None, _. split; [eexists; split_and!; reflexivity|].
  eexists (Some "connection lost"), _. split; [right; eexists; split; [reflexivity|by left]|].
  eexists None, _. split; [by left|]. split; [|reflexivity]. reflexivity.
Qed.
Lemma half_started : ∃ ps, rtc (mstep carried) (fresh, ∅) (after_first, ps).
Proof.
  eexists. eapply rtc_l; [apply (m_start carried fresh ∅ 0 (Ok [first; second])); [done|apply both_carried]|].
  apply msteps_alone, half_start.
Qed.
Lemma schema_is_a_history_witness :
  ∃ ps : starts, ∃ L, contiguous L ∧ Forall carried L ∧ committed after_first = {| schema := SQL <$> L; ledger := ledger_of L |} ∧
    ∀ i load, ps !! i = Some (load, Ret (Ok ())) → ∃ b, load = Ok b ∧ checksums b `prefix_of` checksums L.
Proof. destruct half_started as [ps Hps]. exists ps. exact (schema_is_a_history carried after_first ps Hps). Defined.

(** The rest of it, an older binary, and an edited migration. *)
Example later_starts :
  (run serve after_first (Migrate (Ok [first; second]))).2 = Ok () ∧
  schema (committed (run serve after_first (Migrate (Ok [first; second]))).1) = ["CREATE"; "ALTER"] ∧
  (run serve (at_history [first; second]) (Migrate (Ok [first]))).2 = Err DatabaseNewer ∧
  (run serve (at_history [first]) (Migrate (Ok [edited]))).2 = Err (ChecksumTooShort "11").
Proof. by vm_compute. Qed.
Lemma start_brings_up_to_date_witness :
  let '(w, r) := run serve (at_history [first]) (Migrate (Ok [first; second])) in
  lock w = None ∧
  ((checksums [first] `prefix_of` checksums [first; second] ∧ r = Ok () ∧ committed w = db_of ([first] ++ drop 1 [first; second]) ∧
    checksums ([first] ++ drop 1 [first; second]) = checksums [first; second]) ∨
   (¬ checksums [first] `prefix_of` checksums [first; second] ∧ (∃ e, r = Err e) ∧ committed w = db_of [first])).
Proof. exact (start_brings_up_to_date [first] [first; second] just_one one_two). Defined.
End MigrationsWitnesses.
