(* ===== verification/ToolStartup.v ===== *)
(** * How the tool gateway is put together

    go/cmd/aeon-toolgw/main.go: the policies, the tools that exist, the secrets, what
    needs the database and what the environment says of it. The process's environment and
    the cache of package secretref are the state; the file system, the connection, the
    registry and the federated sources are calls. Logging is left out, the routes it mounts
    are modelled in their files. *)

From S2P Require Import Prelude GoValue Policy Numbers Program Auth Secrets ToolRegistry FileTools HttpServer.

Local Open Scope string_scope.
Set Default Proof Using "Type*".

(** ** The environment *)

(** [strings.Split] on a comma. *)
Fixpoint split_comma (s : string) : list string :=
  match s with
  | EmptyString => [""]
  | String c s =>
      if byte_is 44 c then "" :: split_comma s
      else match split_comma s with [] => [String c ""] | w :: ws => String c w :: ws end
  end.
Definition secretNames (env : gmap string string) : list string :=
  let raw := getenv env "AEON_SECRET_NAMES" in
  if sempty raw then [] else filter (λ n, negb (sempty n)) (trim_space <$> split_comma raw).
(** [strconv.Atoi]; a text that is no number is passed over. *)
Definition intFromEnv (env : gmap string string) (name : string) (fallback : Z) : Z :=
  let raw := getenv env name in
  if sempty raw then fallback else default fallback (ParseInt raw).
Definition or_default (s : string) : string := if sempty s then "default" else s.
(** The variable the server reads its port from, as this process sets it. *)
Definition serving_port (env : gmap string string) : string :=
  let p := getenv env "AEON_TOOLGW_PORT" in Port (<["AEON_PORT" := if sempty p then "9403" else p]> env).

(** ** The parts *)

(** search.rag's embedder; the scope is the model's alone. *)
Record embedder := { em_GatewayURL : string; em_ClientID : string; em_ClientSecret : string; em_Scope : string; em_ModelID : string }.
Inductive builtin :=
| ShellExec
| SearchWeb (endpoint : string)
| RepositoryRead (root : string)
| ArtifactRead (root : string)
| SecretsTool
| SearchRag (tenant corpus : string) (e : embedder).
(** What there is with a database: the handlers of denials, deduplication and delegations
    are for its store; the rows the catalogue is built from; no refresh unless positive. *)
Record database := {
  db_Tenant : string;
  MaxInFlightPerRun : Z; InFlightStaleAfter : Z;
  db_Rows : list ToolRecord; db_Federated : option (list ToolRecord); db_Refresh : Z;
}.
Record toolgw `{Cedar} := {
  tg_Policies : PolicySet.Set_; tg_Tools : list builtin; tg_Broker : Broker;
  tg_Database : option database; tg_Callers : Authenticator;
}.

(** [BTree] is a directory's own name and what walking it finds; the rest fail or do not,
    or list. *)
Inductive bcall :=
| BTree (root : string)
| BOpenRoot (dir : string)
| BMkdirAll (dir : string)
| BConnect (dsn : string)
| BListTools (tenant : string)
| BLoadSources (path : string)
| BRefresh
| BFederated.
Definition breply (c : bcall) : Type :=
  match c with
  | BTree _ => string * option tree
  | BListTools _ | BFederated => result string (list ToolRecord)
  | BRefresh => ()
  | _ => option string
  end.
Abbreviation BM := (prog breply).

Inductive fatal `{Cedar} :=
| BothPolicies
| NoPolicies
| LoadingPolicies (e : PolicySet.set_error)
| RootHoldsSecrets (e : root_refusal)
| RootNotOpenable (root msg : string)
| ArtifactRootNotCreated (root msg : string)
| LoadingSecrets (e : string * TakeError)
| TakingSecret (e : TakeError)
| ConnectingStore (msg : string)
| ListingRegistry (msg : string)
| NoBundleForDeployment (tenant : string)
| LoadingSources (msg : string)
| ListingFederated (msg : string)
| NoCallers (e : callers_fatal).

Section startup.
Context `{Cedar} `{GoRuntime}.
Context (unicode_lower unicode_upper : string → string) (join : string → string → string).
Context (read_bundle : string → result string Engine.PolicyBundleDoc) (read_callers : string → result string CallerBundleDoc).
Context (read_dir : string → result string (list PolicySet.DirEntry)).
(** The files a secret's path leads to. *)
Context (files : string → option string).

Definition policies_from_env (env : gmap string string) : result fatal PolicySet.Set_ :=
  let dir := getenv env "AEON_POLICY_BUNDLE_DIR" in
  let path := getenv env "AEON_POLICY_BUNDLE_PATH" in
  if negb (sempty dir) && negb (sempty path) then Err BothPolicies
  else if sempty dir && sempty path then Err NoPolicies
  else
    match (if negb (sempty dir) then PolicySet.LoadSetFromDir read_bundle join read_dir dir
           else PolicySet.LoadSetForSingleTenant read_bundle (or_default (getenv env "AEON_TENANT_ID")) path) with
    | Err e => Err (LoadingPolicies e)
    | Ok set => Ok set
    end.

Definition SandboxEnabledEnv : string := "AEON_SANDBOX_ENABLED".
Definition shell_tool (env : gmap string string) : list builtin :=
  if String.eqb (getenv env SandboxEnabledEnv) "true" then [ShellExec] else [].
Definition search_tool (env : gmap string string) : list builtin :=
  let endpoint := getenv env "AEON_WEBSEARCH_SEARXNG_URL" in if sempty endpoint then [] else [SearchWeb endpoint].

Definition repository_tool (env : gmap string string) : BM (result fatal (list builtin)) :=
  let root := getenv env "AEON_REPOSITORY_ROOT" in
  if sempty root then mret (Ok [])
  else
    found ← ask (R := breply) (BTree root);
    match CheckRepositoryRoot unicode_lower (found : string * option tree).1 (found : string * option tree).2 with
    | Err e => mret (Err (RootHoldsSecrets e))
    | Ok _ =>
        err ← ask (R := breply) (BOpenRoot root);
        mret (match err : option string with Some e => Err (RootNotOpenable root e) | None => Ok [RepositoryRead root] end)
    end.
Definition artifact_tool (env : gmap string string) : BM (result fatal (list builtin)) :=
  let root := getenv env "AEON_ARTIFACT_ROOT" in
  if sempty root then mret (Ok [])
  else
    err ← ask (R := breply) (BMkdirAll root);
    match err : option string with
    | Some e => mret (Err (ArtifactRootNotCreated root e))
    | None =>
        err ← ask (R := breply) (BOpenRoot root);
        mret (match err : option string with Some e => Err (RootNotOpenable root e) | None => Ok [ArtifactRead root] end)
    end.

(** The secret is taken whether the rest is configured or not. *)
Definition ragEmbedderFromEnv (p : process) : process * result TakeError (option embedder) :=
  let env := environ p in
  let model := getenv env "AEON_EMBEDDING_MODEL" in
  let authURL := getenv env "PROMETHEUS_AUTH_URL" in
  let gatewayURL := getenv env "PROMETHEUS_GATEWAY_URL" in
  let clientID := getenv env "PROMETHEUS_CLIENT_ID" in
  let '(p, got) := Take p files "PROMETHEUS_CLIENT_SECRET" in
  match res_err got with
  | Some e => (p, Err e)
  | None =>
      if sempty model || sempty authURL || sempty gatewayURL || sempty clientID || sempty (res_value got) then (p, Ok None)
      else (p, Ok (Some {| em_GatewayURL := gatewayURL; em_ClientID := clientID; em_ClientSecret := res_value got;
                           em_Scope := "inference:read model:" +:+ model; em_ModelID := model |}))
  end.

Definition second : Z := 10 ^ 9.
Definition federated_rows (env : gmap string string) : BM (result fatal (option (list ToolRecord))) :=
  let path := getenv env "AEON_TOOL_SOURCES_PATH" in
  if sempty path then mret (Ok None)
  else
    err ← ask (R := breply) (BLoadSources path);
    match err : option string with
    | Some e => mret (Err (LoadingSources e))
    | None =>
        _ ← ask (R := breply) BRefresh;
        rows ← ask (R := breply) BFederated;
        mret (match rows : result string (list ToolRecord) with Err e => Err (ListingFederated e) | Ok l => Ok (Some l) end)
    end.
Definition database_parts (policies : PolicySet.Set_) (p : process)
    : BM (result fatal (process * (list builtin * option database))) :=
  let env := environ p in
  let dsn := getenv env "AEON_PG_DSN" in
  if sempty dsn then mret (Ok (p, ([], None)))
  else
    err ← ask (R := breply) (BConnect dsn);
    match err : option string with
    | Some e => mret (Err (ConnectingStore e))
    | None =>
        let tenant := or_default (getenv env "AEON_TENANT_ID") in
        let maxInFlight := intFromEnv env "AEON_A2A_MAX_INFLIGHT_PER_RUN" 0 in
        let stale := wrap64 (intFromEnv env "AEON_A2A_INFLIGHT_STALE_SECONDS" 3600 * second) in
        let '(p, rag) := ragEmbedderFromEnv p in
        match rag with
        | Err e => mret (Err (TakingSecret e))
        | Ok rag =>
            let tools := match rag with
              | Some e => [SearchRag tenant (or_default (getenv (environ p) "AEON_RAG_CORPUS")) e]
              | None => []
              end in
            rows ← ask (R := breply) (BListTools tenant);
            match rows : result string (list ToolRecord) with
            | Err e => mret (Err (ListingRegistry e))
            | Ok rows =>
                match PolicySet.EngineFor (Some policies) tenant with
                | None => mret (Err (NoBundleForDeployment tenant))
                | Some _ =>
                    and_then (federated_rows (environ p)) (λ federated,
                    mret (Ok (p, (tools, Some {|
                      db_Tenant := tenant; MaxInFlightPerRun := maxInFlight; InFlightStaleAfter := stale;
                      db_Rows := rows; db_Federated := federated;
                      db_Refresh := wrap64 (intFromEnv (environ p) "AEON_MCP_CATALOG_REFRESH_SECONDS" 30 * second) |}))))
                end
            end
        end
    end.

Definition start (p : process) : BM (result fatal (process * toolgw)) :=
  let env := environ p in
  match policies_from_env env with
  | Err e => mret (Err e)
  | Ok policies =>
      and_then (repository_tool env) (λ repository,
      and_then (artifact_tool env) (λ artifact,
      let '(p, broker) := NewBrokerFromEnv unicode_upper p files (secretNames env) in
      match broker with
      | Err e => mret (Err (LoadingSecrets e))
      | Ok broker =>
          and_then (database_parts policies p) (λ r,
          match MustLoadFromEnv unicode_lower read_callers join read_dir (environ r.1) with
          | Err e => mret (Err (NoCallers e))
          | Ok callers =>
              mret (Ok (r.1, {| tg_Policies := policies;
                tg_Tools := (shell_tool env ++ search_tool env ++ repository ++ artifact ++ [SecretsTool] ++ r.2.1)%list;
                tg_Broker := broker; tg_Database := r.2.2; tg_Callers := callers |}))
          end)
      end))
  end.

(** ** What the environment configures *)

Definition ours (x : string) : bool := has_prefix x "AEON_SECRET_".
Lemma ours_name name : ours (envVarName unicode_upper name) = true.
Proof. apply has_prefix_app. Qed.
Lemma ours_suffixed x y : ours x = true → ours (x +:+ y) = true.
Proof.
  unfold ours. intros Hx%has_prefix_split. rewrite Hx, <- str_app_assoc. apply has_prefix_app.
Qed.

(** The broker's secrets leave every other variable alone. *)
Lemma load_secrets_others p names values x : ours x = false →
  let p' := (load_secrets unicode_upper p files names values).1 in
  environ p' !! x = environ p !! x ∧ cache p' !! x = cache p !! x.
Proof.
  intros Hx. revert p values. induction names as [|n names IH]; intros p values; [done|]. cbn [load_secrets].
  assert (Hne : ∀ y, ours y = true → y ≠ x) by (intros y Hy ->; congruence).
  pose proof (Hne _ (ours_name n)) as Hv. pose proof (Hne _ (ours_suffixed _ FileSuffix (ours_name n))) as Hw.
  assert (environ (Take p files (envVarName unicode_upper n)).1 !! x = environ p !! x ∧
          cache (Take p files (envVarName unicode_upper n)).1 !! x = cache p !! x) as [He Hc].
  { revert Hv Hw. generalize (envVarName unicode_upper n). intros v Hv Hw.
    unfold Take. destruct (cache p !! v); [done|]. cbn [fst environ cache].
    rewrite (lookup_delete_ne _ _ _ Hw), (lookup_delete_ne _ _ _ Hv). by rewrite (lookup_insert_ne _ _ _ _ Hv). }
  destruct (Take p files (envVarName unicode_upper n)) as [p1 got]. cbn [fst] in He, Hc.
  destruct (res_err got); [by split|]. destruct (IH p1 (if sempty (res_value got) then values else <[n:=res_value got]> values)) as [H1 H2].
  by rewrite H1, H2.
Qed.

(** The tools an environment configures, read off it directly. *)
Definition if_set (env : gmap string string) (name : string) (mk : string → builtin) : list builtin :=
  let v := getenv env name in if sempty v then [] else [mk v].
Definition rag_tool (env : gmap string string) : list builtin :=
  let secret := res_value (read env files "PROMETHEUS_CLIENT_SECRET") in
  if existsb (λ n, sempty (getenv env n)) ["AEON_PG_DSN"; "AEON_EMBEDDING_MODEL"; "PROMETHEUS_AUTH_URL"; "PROMETHEUS_GATEWAY_URL"; "PROMETHEUS_CLIENT_ID"]
     || sempty secret then []
  else [SearchRag (or_default (getenv env "AEON_TENANT_ID")) (or_default (getenv env "AEON_RAG_CORPUS"))
          {| em_GatewayURL := getenv env "PROMETHEUS_GATEWAY_URL"; em_ClientID := getenv env "PROMETHEUS_CLIENT_ID";
             em_ClientSecret := secret; em_Scope := "inference:read model:" +:+ getenv env "AEON_EMBEDDING_MODEL";
             em_ModelID := getenv env "AEON_EMBEDDING_MODEL" |}].
Definition configured_tools (env : gmap string string) : list builtin :=
  (shell_tool env ++ search_tool env ++ if_set env "AEON_REPOSITORY_ROOT" RepositoryRead ++
   if_set env "AEON_ARTIFACT_ROOT" ArtifactRead ++ [SecretsTool] ++ rag_tool env)%list.

Lemma repository_history env t l : histories (repository_tool env) t (Ok l) →
  l = if_set env "AEON_REPOSITORY_ROOT" RepositoryRead ∧
  (getenv env "AEON_REPOSITORY_ROOT" ≠ "" → ∃ found, existT (P := breply) (BTree (getenv env "AEON_REPOSITORY_ROOT")) found ∈ t ∧
     CheckRepositoryRoot unicode_lower found.1 found.2 = Ok tt).
Proof.
  unfold repository_tool, if_set. cbv zeta. destruct (sempty _) eqn:Hr.
  { apply sempty_true in Hr. intros [-> [= ->]]. done. }
  intros (found & t' & -> & Hk). cbn in Hk. destruct (CheckRepositoryRoot _ _ _) as [[]|] eqn:Hc; [|by destruct Hk].
  destruct Hk as (err & t1 & -> & -> & Hk). destruct err; [done|]. injection Hk as ->. split; [done|].
  intros _. exists found. split; [by left|done].
Qed.
Lemma artifact_history env t l : histories (artifact_tool env) t (Ok l) → l = if_set env "AEON_ARTIFACT_ROOT" ArtifactRead.
Proof.
  unfold artifact_tool, if_set. cbv zeta. destruct (sempty _); [by intros [-> [= ->]]|].
  intros (err & t' & -> & Hk). destruct err; [by destruct Hk|]. destruct Hk as (err & t1 & -> & -> & Hk).
  destruct err; [done|]. by injection Hk as ->.
Qed.

(** What the embedder is made of, when the secret was not taken before. *)
Lemma embedder_reads p env : (∀ x, ours x = false → environ p !! x = env !! x ∧ cache p !! x = None) →
  (ragEmbedderFromEnv p).1 = {| environ := delete "PROMETHEUS_CLIENT_SECRET_FILE" (delete "PROMETHEUS_CLIENT_SECRET" (environ p));
                                cache := <["PROMETHEUS_CLIENT_SECRET" := read env files "PROMETHEUS_CLIENT_SECRET"]> (cache p) |} ∧
  ∀ r, (ragEmbedderFromEnv p).2 = Ok r →
    r = (if existsb (λ n, sempty (getenv env n)) ["AEON_EMBEDDING_MODEL"; "PROMETHEUS_AUTH_URL"; "PROMETHEUS_GATEWAY_URL"; "PROMETHEUS_CLIENT_ID"]
            || sempty (res_value (read env files "PROMETHEUS_CLIENT_SECRET")) then None
         else Some {| em_GatewayURL := getenv env "PROMETHEUS_GATEWAY_URL"; em_ClientID := getenv env "PROMETHEUS_CLIENT_ID";
                em_ClientSecret := res_value (read env files "PROMETHEUS_CLIENT_SECRET");
                em_Scope := "inference:read model:" +:+ getenv env "AEON_EMBEDDING_MODEL";
                em_ModelID := getenv env "AEON_EMBEDDING_MODEL" |}).
Proof.
  intros Hp. assert (Hg : ∀ x, ours x = false → getenv (environ p) x = getenv env x) by (intros x [Hx _]%Hp; unfold getenv; by rewrite Hx).
  assert (Hr : read (environ p) files "PROMETHEUS_CLIENT_SECRET" = read env files "PROMETHEUS_CLIENT_SECRET").
  { unfold read. by rewrite (proj1 (Hp "PROMETHEUS_CLIENT_SECRET" eq_refl)),
      (proj1 (Hp ("PROMETHEUS_CLIENT_SECRET" +:+ FileSuffix) eq_refl)). }
  unfold ragEmbedderFromEnv, Take. rewrite (proj2 (Hp "PROMETHEUS_CLIENT_SECRET" eq_refl)), Hr. cbv zeta.
  rewrite !Hg by done. change ("PROMETHEUS_CLIENT_SECRET" +:+ FileSuffix) with "PROMETHEUS_CLIENT_SECRET_FILE".
  destruct (res_err _); [by split|]. cbn [existsb]. rewrite orb_false_r, <- !orb_assoc.
  destruct (_ || _); (split; [done|by intros r [= <-]]).
Qed.

Lemma federated_history env t l : histories (federated_rows env) t (Ok l) →
  (l = None ↔ getenv env "AEON_TOOL_SOURCES_PATH" = "").
Proof.
  unfold federated_rows. cbv zeta. destruct (sempty _) eqn:Hs.
  { apply sempty_true in Hs. intros [-> [= ->]]. done. }
  apply sempty_false in Hs. intros (err & t' & -> & Hk). destruct err; [by destruct Hk|].
  destruct Hk as (u & t1 & -> & rows & t2 & -> & -> & Hk). destruct rows; [|done]. by injection Hk as ->.
Qed.

(** What needs the database, when no secret of the startup is one of the broker's. *)
Lemma database_history policies p env t p' tools db :
  (∀ x, ours x = false → environ p !! x = env !! x ∧ cache p !! x = None) →
  histories (database_parts policies p) t (Ok (p', (tools, db))) →
  tools = rag_tool env ∧
  match db with
  | None => getenv env "AEON_PG_DSN" = ""
  | Some d => getenv env "AEON_PG_DSN" ≠ "" ∧ db_Tenant d = or_default (getenv env "AEON_TENANT_ID") ∧
      PolicySet.EngineFor (Some policies) (db_Tenant d) ≠ None ∧
      MaxInFlightPerRun d = intFromEnv env "AEON_A2A_MAX_INFLIGHT_PER_RUN" 0 ∧
      InFlightStaleAfter d = wrap64 (intFromEnv env "AEON_A2A_INFLIGHT_STALE_SECONDS" 3600 * second) ∧
      (db_Federated d = None ↔ getenv env "AEON_TOOL_SOURCES_PATH" = "")
  end.
Proof.
  intros Hp. assert (Hg : ∀ x, ours x = false → getenv (environ p) x = getenv env x) by (intros x [Hx _]%Hp; unfold getenv; by rewrite Hx).
  unfold database_parts. cbv zeta. unfold intFromEnv. rewrite !Hg by done. unfold rag_tool. cbv zeta. cbn [existsb].
  destruct (sempty (getenv env "AEON_PG_DSN")) eqn:Hdsn.
  { apply sempty_true in Hdsn. intros [-> [= -> -> ->]]. done. }
  apply sempty_false in Hdsn. intros (err & t' & -> & Hk). destruct err; [by destruct Hk|].
  destruct (embedder_reads p env Hp) as [He Hr]. destruct (ragEmbedderFromEnv p) as [p1 rag]. cbn [fst snd] in He, Hr.
  cbn [prog_bind] in Hk. destruct rag as [rag|e]; [|by destruct Hk]. specialize (Hr rag eq_refl). cbn [existsb] in Hr.
  assert (Hg1 : ∀ x, ours x = false → x ≠ "PROMETHEUS_CLIENT_SECRET" → x ≠ "PROMETHEUS_CLIENT_SECRET_FILE" → getenv (environ p1) x = getenv env x).
  { intros x Hx H1 H2. unfold getenv. rewrite He. cbn [environ]. rewrite !lookup_delete_ne by done. by rewrite (proj1 (Hp x Hx)). }
  rewrite !Hg1 in Hk by done.
  destruct Hk as (rows & t1 & -> & Hk). cbn [prog_bind] in Hk. destruct rows as [rows|e]; [|by destruct Hk].
  destruct (PolicySet.EngineFor _ _) as [en|] eqn:Hen; [|by destruct Hk].
  apply (histories_and_then (federated_rows (environ p1))) in Hk as [(e & _ & [=])|(fed & t2 & t3 & -> & Hf & Hk)].
  apply federated_history in Hf. rewrite Hg1 in Hf by done.
  destruct Hk as [-> [= -> -> ->]]. split.
  - rewrite Hr, orb_false_l. by destruct (_ || _).
  - cbn [db_Tenant MaxInFlightPerRun InFlightStaleAfter db_Federated]. rewrite Hen. by split_and!.
Qed.

(** A tool gateway that starts has exactly the tools its environment configures, whatever
    secrets its broker loads: a tool that is not configured does not exist, and a directory
    it reads holds nothing the check of a root refuses. What it enforces with a database is
    for the one tenant the environment names, which must have a bundle of policies. *)
Theorem tool_gateway_follows_its_environment env t p g :
  histories (start (boot env)) t (Ok (p, g)) →
  tg_Tools g = configured_tools env ∧
  policies_from_env env = Ok (tg_Policies g) ∧
  (getenv env "AEON_REPOSITORY_ROOT" ≠ "" → ∃ found, existT (P := breply) (BTree (getenv env "AEON_REPOSITORY_ROOT")) found ∈ t ∧
     CheckRepositoryRoot unicode_lower found.1 found.2 = Ok tt) ∧
  match tg_Database g with
  | None => getenv env "AEON_PG_DSN" = ""
  | Some d => getenv env "AEON_PG_DSN" ≠ "" ∧ db_Tenant d = or_default (getenv env "AEON_TENANT_ID") ∧
      PolicySet.EngineFor (Some (tg_Policies g)) (db_Tenant d) ≠ None ∧
      MaxInFlightPerRun d = intFromEnv env "AEON_A2A_MAX_INFLIGHT_PER_RUN" 0 ∧
      InFlightStaleAfter d = wrap64 (intFromEnv env "AEON_A2A_INFLIGHT_STALE_SECONDS" 3600 * second) ∧
      (db_Federated d = None ↔ getenv env "AEON_TOOL_SOURCES_PATH" = "")
  end.
Proof.
  unfold start. cbv zeta. change (environ (boot env)) with env. destruct (policies_from_env env) as [policies|e]; [|by intros [_ [=]]].
  intros [(e & _ & [=])|(repo & t1 & t2 & -> & Hrepo & Hk)]%histories_and_then.
  apply (histories_and_then (artifact_tool env)) in Hk as [(e & _ & [=])|(artifact & t3 & t4 & -> & Hart & Hk)].
  apply repository_history in Hrepo as [-> Htree]. apply artifact_history in Hart as ->.
  destruct (NewBrokerFromEnv unicode_upper (boot env) files (secretNames env)) as [p1 broker] eqn:Hb.
  assert (Hp1 : ∀ x, ours x = false → environ p1 !! x = env !! x ∧ cache p1 !! x = None).
  { intros x Hx. pose proof (load_secrets_others (boot env) (secretNames env) ∅ x Hx) as Ho. cbv zeta in Ho.
    unfold NewBrokerFromEnv in Hb. destruct (load_secrets _ _ _ _ _) as [p2 r]. injection Hb as <- _. exact Ho. }
  destruct broker as [broker|e]; [|by destruct Hk].
  apply (histories_and_then (database_parts policies p1)) in Hk as [(e & _ & [=])|([p2 [tools db]] & t5 & t6 & -> & Hd & Hk)].
  apply (database_history policies p1 env) in Hd as [-> Hdb]; [|done]. cbn [fst snd] in Hk.
  destruct (MustLoadFromEnv _ _ _ _ _) as [callers|e]; [|by destruct Hk]. destruct Hk as [-> [= -> ->]].
  split_and!; [done|done| |exact Hdb].
  intros (found & Hin & Hc)%Htree. exists found. split; [apply elem_of_app; by left|done].
Qed.

(** search.rag exists only where PROMETHEUS_AUTH_URL is set, although nothing is ever sent
    to that address: the tool made is the same whatever the variable holds. *)
Theorem rag_wants_an_address_it_does_not_use env url : url ≠ "" →
  rag_tool (<["PROMETHEUS_AUTH_URL" := ""]> env) = [] ∧
  (getenv env "PROMETHEUS_AUTH_URL" ≠ "" → rag_tool (<["PROMETHEUS_AUTH_URL" := url]> env) = rag_tool env).
Proof.
  intros Hurl%sempty_false.
  assert (Hg : ∀ v x, x ≠ "PROMETHEUS_AUTH_URL" → getenv (<["PROMETHEUS_AUTH_URL":=v]> env) x = getenv env x)
    by (intros v x Hx; unfold getenv; by rewrite lookup_insert_ne).
  assert (Ha : ∀ v, getenv (<["PROMETHEUS_AUTH_URL":=v]> env) "PROMETHEUS_AUTH_URL" = v)
    by (intros v; unfold getenv; by rewrite lookup_insert_eq).
  assert (Hr : ∀ v, read (<["PROMETHEUS_AUTH_URL":=v]> env) files "PROMETHEUS_CLIENT_SECRET" = read env files "PROMETHEUS_CLIENT_SECRET").
  { intros v. unfold read. by rewrite !lookup_insert_ne. }
  unfold rag_tool. cbv zeta. cbn [existsb]. rewrite !Hr, !Ha, !Hg by done. split.
  - cbn [sempty]. by rewrite !orb_true_r, !orb_true_l.
  - intros Hset%sempty_false. by rewrite Hset, Hurl.
Qed.
End startup.

(** ** Witnesses *)

Module ToolStartupWitnesses.
Import AuthWitnesses.
#[local] Existing Instance amd64_runtime.
#[local] Existing Instance ToyCedar.toy_cedar.
Definition env : gmap string string :=
  list_to_map [("AEON_POLICY_BUNDLE_PATH", "policy.yaml"); ("AEON_CALLERS_PATH", "callers.yaml");
               ("AEON_SANDBOX_ENABLED", "true"); ("AEON_REPOSITORY_ROOT", "/srv/code"); ("AEON_PG_DSN", "postgres://");
               ("AEON_SECRET_NAMES", "demo, ,"); ("AEON_SECRET_DEMO", "s"); ("PROMETHEUS_CLIENT_SECRET", "p");
               ("AEON_EMBEDDING_MODEL", "e5"); ("PROMETHEUS_GATEWAY_URL", "http://gw"); ("PROMETHEUS_CLIENT_ID", "c");
               ("AEON_A2A_INFLIGHT_STALE_SECONDS", "9223372037")].
Definition with_auth : gmap string string := <["PROMETHEUS_AUTH_URL" := "http://old"]> env.
Definition policy_bundle (_ : string) : result string Engine.PolicyBundleDoc := Ok ToyCedar.toy_doc.
Definition no_file (_ : string) : option string := None.
Definition code : tree := Dir [("main.go", Other); (".git", Dir [(".env", Other)])].
Definition machine (_ : ()) (c : bcall) : () * breply c :=
  (tt, match c return breply c with
       | BTree _ => ("code", Some code)
       | BListTools _ | BFederated => Ok []
       | BRefresh => tt
       | BOpenRoot _ | BMkdirAll _ | BConnect _ | BLoadSources _ => None
       end).
Definition starting (env : gmap string string) : BM (result fatal (process * toolgw)) :=
  start no_unicode no_unicode toy_join policy_bundle HttpServerWitnesses.one_bundle HttpServerWitnesses.no_dirs no_file (boot env).
Definition calls (env : gmap string string) : list {c : bcall & breply c} := (run_log machine tt (starting env)).1.2.
Definition outcome (env : gmap string string) : result fatal (process * toolgw) := (run_log machine tt (starting env)).2.
Definition tools_of (r : result fatal (process * toolgw)) : list builtin :=
  match r with Ok (_, g) => tg_Tools g | Err _ => [] end.

Definition e5 : embedder :=
  {| em_GatewayURL := "http://gw"; em_ClientID := "c"; em_ClientSecret := "p"; em_Scope := "inference:read model:e5"; em_ModelID := "e5" |}.
Example tools_started : tools_of (outcome env) = [ShellExec; RepositoryRead "/srv/code"; SecretsTool] ∧
  tools_of (outcome with_auth) = [ShellExec; RepositoryRead "/srv/code"; SecretsTool; SearchRag "default" "default" e5].
Proof. by vm_compute. Qed.
(** A limit beyond three centuries wraps to a negative one, which [Delegations] reads as
    the default hour. *)
Example stale_wraps : (wrap64 (intFromEnv env "AEON_A2A_INFLIGHT_STALE_SECONDS" 3600 * second) < 0)%Z.
Proof. by vm_compute. Qed.

Lemma outcome_is_ok : match outcome env with Ok _ => True | Err _ => False end.
Proof. by vm_compute. Qed.
Lemma tool_gateway_follows_its_environment_witness :
  ∃ p g, outcome env = Ok (p, g) ∧ tg_Tools g = configured_tools no_file env ∧ tg_Database g ≠ None.
Proof.
  pose proof (run_log_histories machine (starting env) tt) as Hh. fold (calls env) (outcome env) in Hh.
  pose proof outcome_is_ok as Hok. destruct (outcome env) as [[p g]|e]; [|destruct Hok]. exists p, g.
  destruct (tool_gateway_follows_its_environment no_unicode no_unicode toy_join policy_bundle HttpServerWitnesses.one_bundle
    HttpServerWitnesses.no_dirs no_file env (calls env) p g Hh) as (Ht & _ & _ & Hd).
  split; [reflexivity|]. split; [exact Ht|]. intros Hn. rewrite Hn in Hd. by vm_compute in Hd.
Defined.
Lemma rag_wants_an_address_it_does_not_use_witness : rag_tool no_file env = [] ∧ rag_tool no_file with_auth ≠ [].
Proof.
  split.
  - transitivity (rag_tool no_file (<["PROMETHEUS_AUTH_URL" := ""]> env)); [by vm_compute|].
    apply (rag_wants_an_address_it_does_not_use no_file env "x"). discriminate.
  - by vm_compute.
Defined.
End ToolStartupWitnesses.
