(* ===== verification/Cli.v ===== *)
(** * The command aeon, without publish

    go/cmd/aeon/main.go and dx002.go: what a command line asks for, the validation of a
    manifest against the schemas of a directory, the listing of evaluation suites, the
    scaffold of a project, and what a run's history says of its determinism. What the
    process asks of its machine and of Temporal is a call. The YAML and JSON Schema
    libraries are a class; [eval run] and [run] hand over to Python, [trace] to
    [Tempo]; the walk of [rag index] over a directory is not modelled. *)

From stdpp Require Import pretty.
From S2P Require Import Prelude GoValue Policy Json Numbers Decode Program Vendors Tempo HttpServer.

Local Open Scope string_scope.
Set Default Proof Using "Type*".

(** ** path/filepath *)

Definition clean_segment (rooted : bool) (stack : list string) (seg : string) : list string :=
  if sempty seg || String.eqb seg "." then stack
  else if String.eqb seg ".." then
    match stack with
    | [] => if rooted then [] else [".."]
    | top :: below => if String.eqb top ".." then ".." :: stack else below
    end
  else seg :: stack.
Definition Clean (p : string) : string :=
  let rooted := has_prefix p "/" in
  let body := str_join "/" (rev (foldl (clean_segment rooted) [] (split_slash p))) in
  if rooted then "/" +:+ body else if sempty body then "." else body.
Fixpoint Join (elems : list string) : string :=
  match elems with
  | [] => ""
  | e :: rest => if sempty e then Join rest else Clean (str_join "/" elems)
  end.
Definition slash_char : Ascii.ascii := Ascii.ascii_of_nat 47.
Definition Dir (p : string) : string :=
  Clean (match last_index slash_char p with Some i => take_str (S i) p | None => "" end).

Example cleaned_paths : Clean "a//b/./../c/" = "a/c" ∧ Clean "" = "." ∧ Clean "../../x" = "../../x" ∧ Clean "/../a" = "/a" ∧
  Join [".."; "proto"] = "../proto" ∧ Join [""; "a"; "b"] = "a/b" ∧ Dir "m/agent.yaml" = "m" ∧ Dir "agent.yaml" = ".".
Proof. by vm_compute. Qed.

(** ** The command line *)

Inductive invocation :=
| BadUsage (code : Z)
| RunValidate (path : string)
| RunEvalList
| RunEvalRun (suite : string) (trials : Z)
| RunRagIndex (dir corpus : string)
| RunInit (dir : string)
| RunExample (dir query : string)
| RunTrace (runID : string)
| RunReplay (runID : string) (assertIdentical : bool)
| RunPublish (path : string).

Inductive trials_error := TrialsNeedsValue | NotPositive (v : string).
Fixpoint parseTrialsFlag (args : list string) : result trials_error Z :=
  match args with
  | [] => Ok 1%Z
  | a :: rest =>
      if negb (String.eqb a "--trials") then parseTrialsFlag rest
      else match rest with
           | [] => Err TrialsNeedsValue
           | v :: _ => match ParseInt v with
                       | Some n => if (n <? 1)%Z then Err (NotPositive v) else Ok n
                       | None => Err (NotPositive v)
                       end
           end
  end.
(** Every [--corpus] that something follows counts, even one that is a value. *)
Fixpoint corpus_flag (corpus : string) (args : list string) : string :=
  match args with
  | a :: (v :: _) as rest => corpus_flag (if String.eqb a "--corpus" then v else corpus) rest
  | _ => corpus
  end.
Definition replay_flags (args : list string) : option bool :=
  foldr (λ a k, if String.eqb a "--assert-identical" then (λ _, true) <$> k else None) (Some false) args.

(** [os.Args]; the exit code of a refusal is 1, that of an eval command to come is 2. *)
Definition parse_args (os_args : list string) : invocation :=
  match os_args with
  | _ :: cmd :: rest =>
      match cmd, rest with
      | "validate", path :: _ => RunValidate path
      | "eval", "list" :: _ => RunEvalList
      | "eval", ["run"] => BadUsage 1
      | "eval", "run" :: suite :: flags =>
          match parseTrialsFlag flags with Ok n => RunEvalRun suite n | Err _ => BadUsage 1 end
      | "eval", _ :: _ => BadUsage 2
      | "rag", "index" :: dir :: flags => RunRagIndex dir (corpus_flag "default" flags)
      | "init", dir :: _ => RunInit dir
      | "run", dir :: words => RunExample dir (str_join " " words)
      | "trace", runID :: _ => RunTrace runID
      | "replay", runID :: flags =>
          match replay_flags flags with Some b => RunReplay runID b | None => BadUsage 1 end
      | "publish", path :: _ => RunPublish path
      | _, _ => BadUsage 1
      end
  | _ => BadUsage 1
  end.

(** ** The machine *)

(** A workflow task that failed: whether its cause is a non-determinism, and its failure's
    message if there is one. *)
Record task_failed := { NonDeterministic : bool; Failure : option string }.
Record event := { EventId : Z; EventTime : string; EventType : string; TaskFailed : option task_failed }.
Inductive history_end := Ended | HistoryNotFound | Broken (msg : string).
(** What the iterator yields, and what it stops on. *)
Record history := { events : list event; stopped : history_end }.

(** A status comes with a body that is read, or cannot be, to its end. *)
Inductive http_reply := HttpFailed (msg : string) | HttpAnswered (status : Z) (body : result string string).

Inductive ccall :=
| CStat (path : string)
| CReadDir (path : string)
| CReadFile (path : string)
| CMkdirAll (path : string)
| CWriteFile (path content : string)
| CLookPath (bin : string)
| CExec (bin : string) (args : list string) (dir : string)
| CDial (addr : string)
| CHistory (runID : string)
| CPost (url body : string)
| CGet (url : string)
| CPrint (line : string).
(** [CStat] says whether it is a directory; an error where a call can only fail or not. *)
Definition creply (c : ccall) : Type :=
  match c with
  | CStat _ => result string bool
  | CReadDir _ => result string (list PolicySet.DirEntry)
  | CReadFile _ => result string string
  | CLookPath _ => result string string
  | CMkdirAll _ | CWriteFile _ _ | CExec _ _ _ | CDial _ => option string
  | CHistory _ => history
  | CPost _ _ | CGet _ => http_reply
  | CPrint _ => ()
  end.
Abbreviation CM := (prog creply).

(** An error seen from outside, and one of the machine. *)
Definition on_err {E F A} (f : E → F) (m : CM (result E A)) : CM (result F A) :=
  r ← m; mret (match r with Ok a => Ok a | Err e => Err (f e) end).
Definition asked {E A} (f : string → E) (r : result string A) : CM (result E A) :=
  mret (match r with Ok a => Ok a | Err e => Err (f e) end).

(** ** Finding the repository's directories *)

Fixpoint first_dir (l : list string) : CM (option string) :=
  match l with
  | [] => mret None
  | d :: l =>
      info ← ask (R := creply) (CStat d);
      match info : result string bool with Ok true => mret (Some d) | _ => first_dir l end
  end.
(** The variable, then the directory of that name here, above or above that. *)
Definition resolve (env : gmap string string) (var name : string) : CM (option string) :=
  let dir := getenv env var in
  if negb (sempty dir) then mret (Some dir)
  else first_dir [name; Join [".."; name]; Join [".."; ".."; name]].
Definition resolveProtoDir env : CM (option string) := resolve env "AEON_SCHEMAS_DIR" "proto".
Definition resolveEvalsDir env : CM (option string) := resolve env "AEON_EVALS_DIR" "evals".
Definition resolvePythonDir env : CM (option string) := resolve env "AEON_PYTHON_DIR" "python".

(** ** Manifests and their schemas *)

(** gopkg.in/yaml.v3 into an [any]; json.Marshal of a map; the JSON Schema library, whose
    compiler holds the documents added to it; [%v] of a value. *)
Class Documents := {
  yaml_Unmarshal : string → result string any;
  json_Marshal : gmap string any → result string string;
  compiler : Type;
  NewCompiler : compiler;
  UnmarshalJSON : string → result string json;
  AddResource : compiler → string → json → result string compiler;
  schema : Type;
  Compile : compiler → string → result string schema;
  schema_Validate : schema → json → option string;
  Sprint : any → string;
  print_thresholds : gmap string float64 → string;
}.

Inductive cli_error :=
| OSFailed (msg : string)
| ParsingManifest (msg : string)
| NotAMapping
| UnknownKind (kind : string)
| NoDirectory (name : string)
| LoadingSchemas (dir : string) (e : cli_error)
| InFile (name : string) (e : cli_error)
| NotRegistered (file : string)
| CompilingSchema (id msg : string)
| ReencodingManifest (msg : string)
| DecodingManifest (msg : string)
| Invalid (msg : string)
| DirectoryRequired
| NotEmpty (dir : string)
| SuiteRequired
| NoRunPy (dir : string)
| NoPython (bin : string)
| ExitedWithError (msg : string).

(** ** The templates of init *)

Definition initAgentManifestTemplate : string :=
  "apiVersion: harness.ai/v1
kind: Agent
metadata:
  name: my-agent
  version: 0.1.0
  owner: your-team
spec:
  modelPolicy:
    profile: reasoning-balanced
  tools:
    allow: [search.web]
  runtime:
    maxTurns: 24
  contextPolicy: {}
".
Definition initPolicyBundleTemplate : string :=
  "apiVersion: harness.ai/v1
kind: PolicyBundle
cedarVersion: " +:+ dquote +:+
  "4.0" +:+ dquote +:+
  "
policies:
  - id: allow-my-agent-tools
    effect: permit
    cedarSource: |
      permit(
        principal == Agent::" +:+ dquote +:+
  "my-agent@0.1.0" +:+ dquote +:+
  ",
        action,
        resource
      ) when {
        [" +:+ dquote +:+
  "search.web" +:+ dquote +:+
  "].contains(resource.name)
      };
".
Definition initModelPolicyBundleTemplate : string :=
  "apiVersion: harness.ai/v1
kind: ModelPolicyBundle
profiles:
  - profile: reasoning-balanced
    candidates:
      - provider: openai_compatible
        model: local-default
        modality: text
        inference_class: local
        priority: 0
        # OBS-009: cost_model is required, and this scaffold is where that requirement earns its
        # keep. A candidate without it is skipped by the pricing table, so every call to this model
        # would land in the FinOps ledger with no cost — silently, because nobody wrote a field.
        # A local dev server bills nothing, so compute_based with no rates is the honest answer
        # here; what the schema forbids is arriving at " +:+ dquote +:+
  "unpriced" +:+ dquote +:+
  " by omission.
        cost_model: compute_based
    # MDL-008: local inference resolves in Prometheus, and nowhere else, unless an exception names
    # the provider and the environment it belongs to. This scaffold runs against Ollama/vLLM on a
    # developer machine, which is exactly the case the exception exists for — and writing it down
    # here is what keeps " +:+ dquote +:+
  "why is this allowed" +:+ dquote +:+
  " answerable without asking anyone.
    local_inference:
      environment: local-dev
      allowed_providers: [openai_compatible]
".

Section cli.
Context {Wire0 : Wire} {Docs : Documents}.

Definition manifestSchemaFile (kind : string) : option string :=
  match kind with
  | "Agent" => Some "agent_manifest.schema.json"
  | "EvalSuite" => Some "eval_suite.schema.json"
  | "PolicyBundle" => Some "policy_bundle.schema.json"
  | "ModelPolicyBundle" => Some "model_policy_bundle.schema.json"
  | _ => None
  end.

(** The one field of the anonymous struct. *)
Definition dec_meta : decoder string := dec_struct ["$id"] (λ _, dec_string).
Definition register_file (dir : string) (c : compiler) (ids : gmap string string) (e : PolicySet.DirEntry)
    : CM (result cli_error (compiler * gmap string string)) :=
  let name := PolicySet.entry_name e in
  if PolicySet.entry_is_dir e || negb (has_suffix name ".json") then mret (Ok (c, ids))
  else
    raw ← ask (R := creply) (CReadFile (Join [dir; name]));
    match raw : result string string with
    | Err e => mret (Err (InFile name (OSFailed e)))
    | Ok raw =>
        match decode dec_meta "" raw with
        | None => mret (Err (InFile name (DecodingManifest (decode_failure raw))))
        | Some id =>
            if sempty id then mret (Ok (c, ids))
            else match UnmarshalJSON raw with
            | Err e => mret (Err (InFile name (DecodingManifest e)))
            | Ok doc =>
                match AddResource c id doc with
                | Err e => mret (Err (InFile name (CompilingSchema id e)))
                | Ok c => mret (Ok (c, <[name := id]> ids))
                end
            end
        end
    end.
Fixpoint register_files (dir : string) (c : compiler) (ids : gmap string string) (l : list PolicySet.DirEntry)
    : CM (result cli_error (compiler * gmap string string)) :=
  match l with
  | [] => mret (Ok (c, ids))
  | e :: l => and_then (register_file dir c ids e) (λ r, register_files dir r.1 r.2 l)
  end.
Definition registerSchemaDir (c : compiler) (dir : string) : CM (result cli_error (compiler * gmap string string)) :=
  entries ← ask (R := creply) (CReadDir dir);
  match entries : result string (list PolicySet.DirEntry) with
  | Err e => mret (Err (OSFailed e))
  | Ok l => register_files dir c ∅ l
  end.

(** The steps [validate] and the listing share: both directories, and one schema. *)
Definition compile_schema (protoDir schemaFile : string) : CM (result cli_error schema) :=
  and_then (on_err (LoadingSchemas "schemas") (registerSchemaDir NewCompiler (Join [protoDir; "schemas"]))) (λ r,
  and_then (on_err (LoadingSchemas "manifests") (registerSchemaDir r.1 (Join [protoDir; "manifests"]))) (λ r,
  match r.2 !! schemaFile with
  | None => mret (Err (NotRegistered schemaFile))
  | Some id => asked (CompilingSchema id) (Compile r.1 id)
  end)).

(** The text a document is checked as. *)
Definition check_document (s : schema) (doc : gmap string any) : option cli_error :=
  match json_Marshal doc with
  | Err e => Some (ReencodingManifest e)
  | Ok text => match UnmarshalJSON text with
               | Err e => Some (DecodingManifest e)
               | Ok instance => Invalid <$> schema_Validate s instance
               end
  end.
Definition parse_manifest (raw : string) : result cli_error (gmap string any) :=
  match yaml_Unmarshal raw with
  | Err e => Err (ParsingManifest e)
  | Ok (AMap doc) => Ok doc
  | Ok _ => Err NotAMapping
  end.

Definition validate (env : gmap string string) (path : string) : CM (result cli_error ()) :=
  raw ← ask (R := creply) (CReadFile path);
  match raw : result string string with
  | Err e => mret (Err (OSFailed e))
  | Ok raw =>
  match parse_manifest raw with
  | Err e => mret (Err e)
  | Ok doc =>
  let kind := as_string (mget doc "kind") in
  match manifestSchemaFile kind with
  | None => mret (Err (UnknownKind kind))
  | Some schemaFile =>
  dir ← resolveProtoDir env;
  match dir with
  | None => mret (Err (NoDirectory "proto"))
  | Some protoDir =>
  and_then (compile_schema protoDir schemaFile) (λ s,
  mret (match check_document s doc with Some e => Err e | None => Ok () end))
  end end end end.

(** ** eval list *)

Record evalSuiteSummary := {
  es_Name : string; es_Version : string; Dataset : string; Graders : list string;
  Thresholds : gmap string float64; GateOn : list string;
}.
Definition toStringSlice (v : any) : list string :=
  match v with AList items => Sprint <$> items | _ => [] end.
Definition thresholds_of (t : gmap string any) : gmap string float64 :=
  omap (λ v, match v with AFloat f => Some f | _ => None end) t.
Definition summary_of (doc : gmap string any) : evalSuiteSummary :=
  let metadata := as_map (mget doc "metadata") in
  let spec := as_map (mget doc "spec") in
  {| es_Name := Sprint (mget metadata "name"); es_Version := Sprint (mget metadata "version");
     Dataset := Sprint (mget spec "dataset"); Graders := toStringSlice (mget spec "graders");
     Thresholds := thresholds_of (as_map (mget spec "thresholds")); GateOn := toStringSlice (mget spec "gateOn") |}.
Definition loadEvalSuiteSummary (path : string) (s : schema) : CM (result cli_error evalSuiteSummary) :=
  raw ← ask (R := creply) (CReadFile path);
  mret (match raw : result string string with
        | Err e => Err (OSFailed e)
        | Ok raw =>
            match parse_manifest raw with
            | Err e => Err e
            | Ok doc => match check_document s doc with Some e => Err e | None => Ok (summary_of doc) end
            end
        end).

Definition is_suite (e : PolicySet.DirEntry) : bool :=
  negb (PolicySet.entry_is_dir e) && (has_suffix (PolicySet.entry_name e) ".yaml" || has_suffix (PolicySet.entry_name e) ".yml").
Fixpoint load_suites (suitesDir : string) (s : schema) (l : list PolicySet.DirEntry)
    : CM (result cli_error (list evalSuiteSummary)) :=
  match l with
  | [] => mret (Ok [])
  | e :: l =>
      if negb (is_suite e) then load_suites suitesDir s l
      else
        let name := PolicySet.entry_name e in
        and_then (on_err (InFile name) (loadEvalSuiteSummary (Join [suitesDir; name]) s)) (λ x,
        and_then (load_suites suitesDir s l) (λ xs, mret (Ok (x :: xs))))
  end.
Definition by_name (a b : evalSuiteSummary) : bool := str_ltb (es_Name a) (es_Name b).
Definition listEvalSuites `{GoRuntime} (evalsDir protoDir : string) : CM (result cli_error (list evalSuiteSummary)) :=
  let suitesDir := Join [evalsDir; "suites"] in
  entries ← ask (R := creply) (CReadDir suitesDir);
  match entries : result string (list PolicySet.DirEntry) with
  | Err e => mret (Err (OSFailed e))
  | Ok entries =>
      and_then (compile_schema protoDir "eval_suite.schema.json") (λ s,
      and_then (load_suites suitesDir s entries) (λ l, mret (Ok (sort_slice by_name l))))
  end.

Definition tab : string := String (Ascii.ascii_of_nat 9) "".
Definition suite_line (s : evalSuiteSummary) : string :=
  str_join tab [es_Name s; es_Version s; "dataset=" +:+ Dataset s; "graders=" +:+ str_join "," (Graders s);
                "thresholds=" +:+ print_thresholds (Thresholds s); "gateOn=" +:+ str_join "," (GateOn s)].
Definition printEvalSuites (l : list evalSuiteSummary) : CM () :=
  foldr (λ s (k : CM ()), ask (R := creply) (CPrint (suite_line s));; k) (mret tt) l.
Definition runEvalList `{GoRuntime} (env : gmap string string) : CM (result cli_error ()) :=
  evals ← resolveEvalsDir env;
  match evals with
  | None => mret (Err (NoDirectory "evals"))
  | Some evalsDir =>
      proto ← resolveProtoDir env;
      match proto with
      | None => mret (Err (NoDirectory "proto"))
      | Some protoDir => and_then (listEvalSuites evalsDir protoDir) (λ l, printEvalSuites l;; mret (Ok tt))
      end
  end.

(** ** init *)

Definition scaffold : list (string * string) :=
  [("agent.yaml", initAgentManifestTemplate); ("policy_bundle.yaml", initPolicyBundleTemplate);
   ("model_policy_bundle.yaml", initModelPolicyBundleTemplate)].
Fixpoint write_files (dir : string) (l : list (string * string)) : CM (result cli_error ()) :=
  match l with
  | [] => mret (Ok tt)
  | (name, content) :: l =>
      err ← ask (R := creply) (CWriteFile (Join [dir; name]) content);
      match err : option string with
      | Some e => mret (Err (InFile name (OSFailed e)))
      | None => write_files dir l
      end
  end.
(** [files] is the order the map of templates is ranged in. *)
Definition runInit (files : list (string * string)) (dir : string) : CM (result cli_error ()) :=
  if sempty dir then mret (Err DirectoryRequired)
  else
    entries ← ask (R := creply) (CReadDir dir);
    match entries : result string (list PolicySet.DirEntry) with
    | Ok (_ :: _) => mret (Err (NotEmpty dir))
    | _ =>
        err ← ask (R := creply) (CMkdirAll dir);
        match err : option string with
        | Some e => mret (Err (OSFailed e))
        | None => write_files dir files
        end
    end.

(** ** eval run and run *)

Definition pythonBin (env : gmap string string) : string :=
  let bin := getenv env "AEON_EVAL_PYTHON_BIN" in if sempty bin then "python3" else bin.
(** The interpreter and its directory, then one process. *)
Definition exec_python (env : gmap string string) (args : list string) : CM (result cli_error ()) :=
  let bin := pythonBin env in
  found ← ask (R := creply) (CLookPath bin);
  match found : result string string with
  | Err _ => mret (Err (NoPython bin))
  | Ok binPath =>
      dir ← resolvePythonDir env;
      match dir with
      | None => mret (Err (NoDirectory "python"))
      | Some pythonDir =>
          err ← ask (R := creply) (CExec binPath args pythonDir);
          mret (match err : option string with Some e => Err (ExitedWithError e) | None => Ok tt end)
      end
  end.
Definition runEvalRun (env : gmap string string) (suiteName : string) (trials : Z) : CM (result cli_error ()) :=
  if sempty suiteName then mret (Err SuiteRequired)
  else exec_python env ["-m"; "aeon_evalops.cli"; "run"; suiteName; "--trials"; pretty trials].
(** [abs] is the working directory's [filepath.Abs]. *)
Definition runRun (env : gmap string string) (abs : string → string) (exampleDir query : string) : CM (result cli_error ()) :=
  if sempty exampleDir then mret (Err DirectoryRequired)
  else
    let scriptPath := abs (Join [exampleDir; "run.py"]) in
    info ← ask (R := creply) (CStat scriptPath);
    match info : result string bool with
    | Err _ => mret (Err (NoRunPy exampleDir))
    | Ok _ => exec_python env (scriptPath :: if sempty query then [] else [query])
    end.

(** ** trace *)

Definition to_get (r : http_reply) : get_reply :=
  match r with
  | HttpFailed e => GetFailed e
  | HttpAnswered _ (Err e) => BodyUnreadable e
  | HttpAnswered status (Ok body) => Answered status body
  end.
Fixpoint of_get {A} (m : prog greply A) : CM A :=
  match m with Ret a => Ret a | Vis (Get_ url) k => Vis (CGet url) (λ r, of_get (k (to_get r))) end.
Definition resolveTempoQueryURL (env : gmap string string) : string :=
  let url := getenv env "AEON_TEMPO_QUERY_URL" in if sempty url then "http://localhost:3200" else url.
Definition trace_line (t : Trace) : string :=
  str_join tab [TraceID t; RootServiceName t; RootTraceName t; pretty (DurationMs t) +:+ "ms"].
Definition runTrace (quote_other : string → string) (env : gmap string string) (runID : string) : CM (result string ()) :=
  found ← of_get (SearchByAgentName quote_other (resolveTempoQueryURL env) runID);
  match found : result string (list Trace) with
  | Err e => mret (Err e)
  | Ok [] => ask (R := creply) (CPrint ("no traces found for run_id=" +:+ runID));; mret (Ok tt)
  | Ok traces => foldr (λ t (k : CM ()), ask (R := creply) (CPrint (trace_line t));; k) (mret tt) traces;; mret (Ok tt)
  end.
End cli.

(** ** replay *)

Definition resolveTemporalAddr (env : gmap string string) : string :=
  let addr := getenv env "AEON_TEMPORAL_ADDRESS" in if sempty addr then "localhost:7233" else addr.
Definition replayCommandFor (runID : string) : string :=
  "docker compose -f deploy/compose/docker-compose.yml exec worker uv run python -m aeon_worker.replay " +:+ runID.

Definition nonDeterminismCause (e : event) : string :=
  match TaskFailed e with
  | None => ""
  | Some f =>
      if negb (NonDeterministic f) then ""
      else match Failure f with Some msg => "NON_DETERMINISTIC_ERROR: " +:+ msg | None => "NON_DETERMINISTIC_ERROR" end
  end.
Inductive replay_error :=
| Connecting (addr msg : string)
| ReadingHistory (runID msg : string)
| NothingToVerify (runID : string)
| AlreadyFailed (runID : string) (occurrences : nat).
Definition event_line (e : event) : string :=
  str_join (String (Ascii.ascii_of_nat 9) "") [pretty (EventId e); EventTime e; EventType e].
Definition failure_line (e : event) : string := "event " +:+ pretty (EventId e) +:+ ": " +:+ nonDeterminismCause e.

(** The events read so far and the failures found in them. *)
Fixpoint read_events (assertIdentical : bool) (count : nat) (failures : list string) (l : list event)
    : CM (nat * list string) :=
  match l with
  | [] => mret (count, failures)
  | e :: l =>
      let failures := if sempty (nonDeterminismCause e) then failures else (failures ++ [failure_line e])%list in
      if assertIdentical then read_events assertIdentical (S count) failures l
      else ask (R := creply) (CPrint (event_line e));; read_events assertIdentical (S count) failures l
  end.
Definition print_all (l : list string) : CM () :=
  foldr (λ s (k : CM ()), ask (R := creply) (CPrint s);; k) (mret tt) l.

(** What follows the reading. *)
Definition judge_history (runID : string) (assertIdentical : bool) (count : nat) (failures : list string)
    : CM (result replay_error ()) :=
  if (count =? 0)%nat then
    ask (R := creply) (CPrint ("no history events found for run_id=" +:+ runID));;
    mret (if assertIdentical then Err (NothingToVerify runID) else Ok tt)
  else if negb assertIdentical then mret (Ok tt)
  else match failures with
  | [] =>
      print_all ["run " +:+ runID +:+ ": " +:+ pretty (Z.of_nat count) +:+
                   " events, and the history records NO non-determinism failure.";
                 "That is what a history can answer. A FRESH replay against today's code is a different " +:+
                 "check and runs where the workflow definitions live:" +:+ String (Ascii.ascii_of_nat 10) "  " +:+
                 replayCommandFor runID];;
      mret (Ok tt)
  | _ =>
      print_all ((λ f, "NON-DETERMINISM RECORDED IN HISTORY" +:+ String (Ascii.ascii_of_nat 9) f) <$> failures);;
      mret (Err (AlreadyFailed runID (length failures)))
  end.
Definition replayRun (env : gmap string string) (runID : string) (assertIdentical : bool) : CM (result replay_error ()) :=
  let address := resolveTemporalAddr env in
  err ← ask (R := creply) (CDial address);
  match err : option string with
  | Some e => mret (Err (Connecting address e))
  | None =>
      h ← ask (R := creply) (CHistory runID);
      r ← read_events assertIdentical 0 [] (events (h : history));
      match stopped (h : history) with
      | Broken e => mret (Err (ReadingHistory runID e))
      | _ => judge_history runID assertIdentical r.1 r.2
      end
  end.
Definition runReplay env (runID : string) : CM (result replay_error ()) := replayRun env runID false.
Definition runReplayAssertIdentical env (runID : string) : CM (result replay_error ()) := replayRun env runID true.

(** ** What a machine that answers each question one way makes of it *)

Lemma parse_int64 v n : ParseInt v = Some n → (n ≤ int64_max)%Z.
Proof.
  unfold ParseInt. destruct (match v with String c r => _ | EmptyString => _ end) as [neg s].
  destruct (scan_digits 0 0 s) as [[z k] rest]. destruct (_ || _); [done|].
  destruct (in_int64 (signed neg z)) eqn:Hin; [|done]. intros [= <-].
  unfold in_int64 in Hin. apply andb_true_iff in Hin as [_ ?%Z.leb_le]. done.
Qed.

(** The number of trials is that of the first [--trials], a decimal from one to the
    largest [int]; without the flag it is one, and any other argument is passed over, a
    misspelt flag included. *)
Theorem trials_are_the_first_flags args n :
  parseTrialsFlag args = Ok n ↔
  ((¬ "--trials" ∈ args) ∧ n = 1%Z) ∨
  (∃ before v after, args = (before ++ "--trials" :: v :: after)%list ∧ (¬ "--trials" ∈ before) ∧
     ParseInt v = Some n ∧ (1 ≤ n ≤ int64_max)%Z).
Proof.
  induction args as [|a args IH]; cbn [parseTrialsFlag].
  - split; [intros [= <-]; left; set_solver|]. intros [[_ ->]|([] & ? & ? & ? & _)]; done.
  - destruct (String.eqb_spec a "--trials") as [->|Hne]; cbn [negb].
    + split.
      * destruct args as [|v after]; [done|]. destruct (ParseInt v) as [m|] eqn:Hv; [|done].
        destruct (m <? 1)%Z eqn:Hm; [done|]. intros [= <-]. right. exists [], v, after.
        apply Z.ltb_ge in Hm. pose proof (parse_int64 _ _ Hv). split_and!; [done|set_solver|done|lia|done].
      * intros [[Hn _]|(before & v & after & Heq & Hb & Hv & Hm)]; [set_solver|].
        destruct before as [|b before]; injection Heq; [intros ->|intros; subst; set_solver].
        rewrite Hv. by destruct (Z.ltb_spec n 1); [lia|].
    + rewrite IH. split.
      * intros [[Hn ->]|(before & v & after & -> & Hb & ?)]; [left; set_solver|]. right.
        exists (a :: before), v, after. split_and!; [done|set_solver|tauto..].
      * intros [[Hn ->]|(before & v & after & Heq & Hb & ?)]; [left; set_solver|]. right.
        destruct before as [|b before]; injection Heq; [congruence|intros -> <-].
        exists before, v, after. split_and!; [done|set_solver|tauto..].
Qed.

Section machine.
Context (f : ∀ c : ccall, creply c).

Lemma answered_on_err {E F A} (g : E → F) (m : CM (result E A)) a :
  answered_by f (on_err g m) = Ok a ↔ answered_by f m = Ok a.
Proof. unfold on_err. rewrite answered_by_bind. destruct (answered_by f m); cbn; naive_solver. Qed.

Section documents.
Context {Wire0 : Wire} {Docs : Documents}.

(** The document a file holds, when a schema accepts it. *)
Definition accepted_in (s : schema) (path : string) (doc : gmap string any) : Prop :=
  ∃ raw, f (CReadFile path) = Ok raw ∧ parse_manifest raw = Ok doc ∧ check_document s doc = None.

Lemma load_suite_spec path s x :
  (answered_by f (loadEvalSuiteSummary path s) = Ok x) ↔ (∃ doc, accepted_in s path doc ∧ x = summary_of doc).
Proof.
  unfold loadEvalSuiteSummary, accepted_in. rewrite (answered_by_ask (R := creply) f (CReadFile path)). cbv beta.
  match goal with |- context [answered_by f (mret ?a)] => change (answered_by f (mret a)) with a end.
  destruct (f (CReadFile path)) as [raw|e]; [|split; [done|by intros (? & (? & [=] & _) & _)]].
  destruct (parse_manifest raw) as [doc|e] eqn:Hp; [|split; [done|intros (? & (? & [= <-] & ? & _) & _); congruence]].
  destruct (check_document s doc) eqn:Hc; split.
  - done.
  - intros (? & (? & [= <-] & ? & ?) & ?). congruence.
  - intros [= <-]. exists doc. split; [|done]. by exists raw.
  - intros (? & (? & [= <-] & ? & ?) & ->). congruence.
Qed.

Lemma load_suites_spec dir s l xs :
  answered_by f (load_suites dir s l) = Ok xs ↔
  Forall2 (λ e x, ∃ doc, accepted_in s (Join [dir; PolicySet.entry_name e]) doc ∧ x = summary_of doc) (filter is_suite l) xs.
Proof.
  revert xs. induction l as [|e l IH]; intros xs.
  - cbn. split; [intros [= <-]; constructor|by intros ->%Forall2_nil_inv_l].
  - cbn [load_suites]. rewrite filter_cons. destruct (is_suite e) eqn:He; cbn [negb];
      [rewrite decide_True by done|rewrite decide_False by (intros []); apply IH].
    rewrite answered_by_and_then. destruct (answered_by f (on_err _ _)) as [x|err] eqn:Hx.
    + apply answered_on_err, load_suite_spec in Hx as Hd. rewrite answered_by_and_then. split.
      * destruct (answered_by f (load_suites dir s l)) as [ys|] eqn:Hys; [|done]. intros [= <-].
        constructor; [done|by apply IH].
      * intros (y & ys & Hy & Hys & ->)%Forall2_cons_inv_l. apply IH in Hys as ->. cbn. f_equal. f_equal.
        apply load_suite_spec in Hy. congruence.
    + split; [done|]. intros (y & ys & Hy & _)%Forall2_cons_inv_l.
      apply load_suite_spec, (answered_on_err (InFile (PolicySet.entry_name e))) in Hy. congruence.
Qed.

(** [aeon eval list] lists every file of the suites' directory that is named like YAML and
    nothing else, in the order of their names, or fails: one file the schema refuses is
    enough. What it shows of a suite's thresholds are those written with a fraction: a
    whole number, which the schema accepts as well, is left out. *)
Theorem listed_suites_are_the_valid_files `{GoRuntime} evalsDir protoDir entries s l :
  f (CReadDir (Join [evalsDir; "suites"])) = Ok entries →
  answered_by f (compile_schema protoDir "eval_suite.schema.json") = Ok s →
  answered_by f (listEvalSuites evalsDir protoDir) = Ok l →
  sorted_by by_name l ∧
  ∃ docs, l ≡ₚ summary_of <$> docs ∧
    Forall2 (λ e doc, accepted_in s (Join [Join [evalsDir; "suites"]; PolicySet.entry_name e]) doc) (filter is_suite entries) docs ∧
    ∀ doc, doc ∈ docs → ∀ k x,
      Thresholds (summary_of doc) !! k = Some x ↔ as_map (mget (as_map (mget doc "spec")) "thresholds") !! k = Some (AFloat x).
Proof.
  intros He Hs. unfold listEvalSuites. cbv zeta. rewrite (answered_by_ask (R := creply) f (CReadDir _)). cbv beta. rewrite He, answered_by_and_then, Hs, answered_by_and_then.
  destruct (answered_by f (load_suites _ _ _)) as [xs|] eqn:Hxs; [|done]. intros [= <-].
  apply load_suites_spec in Hxs. split; [apply sort_slice_sorted; apply str_ltb_sw|].
  assert (∃ docs, xs = summary_of <$> docs ∧ Forall2 (λ e doc, accepted_in s (Join [Join [evalsDir; "suites"]; PolicySet.entry_name e]) doc)
    (filter is_suite entries) docs) as (docs & -> & Hd).
  { induction Hxs as [|e x es xs (doc & Hdoc & ->) _ (docs & -> & Hds)]; [by exists []|].
    exists (doc :: docs). by split; [|constructor]. }
  exists docs. split_and!; [apply sort_slice_perm|done|]. intros doc _ k x.
  unfold summary_of, thresholds_of. cbn [Thresholds]. rewrite lookup_omap.
  destruct (_ !! k) as [[]|]; cbn; naive_solver.
Qed.

(** A manifest is valid exactly when the file parses to a mapping, its kind is one of the
    four, the schemas are found and compile, and that kind's schema accepts it. *)
Theorem valid_iff_its_schema_accepts env path :
  answered_by f (validate env path) = Ok tt ↔
  ∃ doc schemaFile protoDir s,
    accepted_in s path doc ∧ manifestSchemaFile (as_string (mget doc "kind")) = Some schemaFile ∧
    answered_by f (resolveProtoDir env) = Some protoDir ∧
    answered_by f (compile_schema protoDir schemaFile) = Ok s.
Proof.
  unfold validate, accepted_in. rewrite (answered_by_ask (R := creply) f (CReadFile path)). cbv beta.
  destruct (f (CReadFile path)) as [raw|e]; [|split; [done|by intros (? & ? & ? & ? & (? & [=] & _) & _)]].
  destruct (parse_manifest raw) as [doc|e] eqn:Hp;
    [|split; [done|intros (? & ? & ? & ? & (? & [= <-] & ? & _) & _); congruence]].
  destruct (manifestSchemaFile _) as [file|] eqn:Hk;
    [|split; [done|intros (? & ? & ? & ? & (? & [= <-] & ? & _) & ? & _); congruence]].
  rewrite answered_by_bind. destruct (answered_by f (resolveProtoDir env)) as [dir|] eqn:Hdir;
    [|split; [done|intros (? & ? & ? & ? & _ & _ & ? & _); congruence]].
  rewrite answered_by_and_then. destruct (answered_by f (compile_schema dir file)) as [s|e] eqn:Hs;
    [|split; [done|intros (? & ? & ? & ? & (? & [= <-] & ? & _) & ? & ? & ?); congruence]].
  match goal with |- context [answered_by f (mret ?a)] => change (answered_by f (mret a)) with a end. split.
  - destruct (check_document s doc) eqn:Hc; [done|]. intros _. exists doc, file, dir, s. split_and!; eauto.
  - intros (doc' & file' & dir' & s' & (raw' & [= <-] & Hd & Hc) & Hk' & Hdir' & Hs').
    assert (doc' = doc) as -> by congruence. assert (file' = file) as -> by congruence.
    assert (dir' = dir) as -> by congruence. assert (s' = s) as -> by congruence. by rewrite Hc.
Qed.
End documents.

(** *** The history *)

Lemma answered_print l : answered_by f (print_all l) = tt.
Proof. by destruct (answered_by f (print_all l)). Qed.
Lemma read_events_spec b n fs l :
  answered_by f (read_events b n fs l) = (n + length l, fs ++ (failure_line <$> filter (λ e, nonDeterminismCause e ≠ "") l))%list.
Proof.
  revert n fs. induction l as [|e l IH]; intros n fs; cbn [read_events length].
  - rewrite Nat.add_0_r. by rewrite filter_nil, fmap_nil, app_nil_r.
  - assert (∀ m fs', answered_by f (if b then read_events b m fs' l
              else ask (R := creply) (CPrint (event_line e));; read_events b m fs' l) = answered_by f (read_events b m fs' l)) as ->.
    { intros. destruct b; [done|]. apply answered_by_ask. }
    rewrite IH, filter_cons, Nat.add_succ_r. destruct (sempty (nonDeterminismCause e)) eqn:Hs.
    + apply sempty_true in Hs. rewrite decide_False by tauto. done.
    + apply sempty_false in Hs. rewrite decide_True by done. by rewrite <- app_assoc.
Qed.
Lemma no_failures l : filter (λ e, nonDeterminismCause e ≠ "") l = [] ↔ ∀ e, e ∈ l → nonDeterminismCause e = "".
Proof.
  split.
  - intros Hf e He. destruct (decide (nonDeterminismCause e = "")) as [|Hne]; [done|].
    assert (e ∈ filter (λ e, nonDeterminismCause e ≠ "") l) as Hin by (apply list_elem_of_filter; done).
    rewrite Hf in Hin. by apply not_elem_of_nil in Hin.
  - intros Hl. destruct (filter _ l) as [|e k] eqn:Hf; [done|]. exfalso.
    assert (e ∈ filter (λ e, nonDeterminismCause e ≠ "") l) as (Hne & He)%list_elem_of_filter by (rewrite Hf; left).
    by apply Hne, Hl.
Qed.
Lemma no_cause e : nonDeterminismCause e = "" ↔ ∀ t, TaskFailed e = Some t → NonDeterministic t = false.
Proof.
  unfold nonDeterminismCause. destruct (TaskFailed e) as [[d m]|]; [|naive_solver]. cbn.
  destruct d; cbn; [|naive_solver]. split; [by destruct m|naive_solver].
Qed.

Lemma judge_spec runID n l : answered_by f (judge_history runID true n l) = Ok tt ↔ n ≠ 0 ∧ l = [].
Proof.
  unfold judge_history. destruct (Nat.eqb_spec n 0) as [->|Hn]; [rewrite answered_by_ask; split; [done|tauto]|].
  destruct l; cbn [negb]; rewrite answered_by_bind; (split; [intros [=]|intros [_ [=]]]); done.
Qed.
Lemma fmap_nil_iff {A B} (g : A → B) l : g <$> l = [] ↔ l = [].
Proof. by destruct l. Qed.

(** The assertion passes exactly when Temporal is reached, at least one event was read, no
    reading failed for another reason than a history not found, and no event read is a
    workflow task that failed of non-determinism. An absent history never passes; one that
    is lost after its first page does, on what was read. *)
Theorem assertion_passes_iff env runID :
  answered_by f (runReplayAssertIdentical env runID) = Ok tt ↔
  f (CDial (resolveTemporalAddr env)) = None ∧
  events (f (CHistory runID)) ≠ [] ∧
  (stopped (f (CHistory runID)) = Ended ∨ stopped (f (CHistory runID)) = HistoryNotFound) ∧
  ∀ e t, e ∈ events (f (CHistory runID)) → TaskFailed e = Some t → NonDeterministic t = false.
Proof.
  unfold runReplayAssertIdentical, replayRun. rewrite (answered_by_ask (R := creply) f (CDial (resolveTemporalAddr env))). cbv beta zeta.
  destruct (f (CDial _)) as [e|]; [by split; [|intros [[=] _]]|].
  rewrite (answered_by_ask (R := creply) f (CHistory runID)). cbv beta. generalize (f (CHistory runID)). intros h. cbn in h.
  rewrite answered_by_bind, read_events_spec. cbn [app fst snd Nat.add].
  assert ((∀ e t, e ∈ events h → TaskFailed e = Some t → NonDeterministic t = false) ↔
          filter (λ e, nonDeterminismCause e ≠ "") (events h) = []) as ->.
  { rewrite no_failures. setoid_rewrite no_cause. naive_solver. }
  assert (length (events h) ≠ 0 ↔ events h ≠ []) as Hlen by (destruct (events h); naive_solver).
  destruct (stopped h).
  - rewrite judge_spec, fmap_nil_iff, Hlen. naive_solver.
  - rewrite judge_spec, fmap_nil_iff, Hlen. naive_solver.
  - split; [done|]. intros (_ & _ & [?|?] & _); done.
Qed.
End machine.

(** ** The scaffold *)

Section scaffold.
Context {Wire0 : Wire} {Docs : Documents}.

(** Each file written, once, without an error. *)
Definition wrote (dir : string) (nc : string * string) : {c : ccall & creply c} :=
  existT (P := creply) (CWriteFile (Join [dir; nc.1]) nc.2) None.
Definition written (dir : string) (l : list (string * string)) : list {c : ccall & creply c} := wrote dir <$> l.

Lemma write_files_histories dir l t a :
  histories (write_files dir l) t a →
  (∀ x, x ∈ t → ∃ name content, (name, content) ∈ l ∧ projT1 x = CWriteFile (Join [dir; name]) content) ∧
  (a = Ok tt → t = written dir l).
Proof.
  revert t. induction l as [|[name content] l IH]; intros t.
  - intros [-> ->]. by split; [intros x ?%not_elem_of_nil|].
  - intros (r & t' & -> & H). destruct r as [e|].
    + destruct H as [-> ->]. split; [|done]. intros x ->%list_elem_of_singleton. exists name, content. by split; [left|].
    + destruct (IH _ H) as [Hin Hok]. split; [|by intros ->%Hok].
      intros x [->|Hx]%elem_of_cons; [exists name, content; by split; [left|]|].
      destruct (Hin x Hx) as (n & c & ? & ?). exists n, c. by split; [right|].
Qed.

Definition in_use (r : result string (list PolicySet.DirEntry)) : bool := match r with Ok (_ :: _) => true | _ => false end.
Definition writes_scaffold (dir : string) (c : ccall) : Prop :=
  c = CMkdirAll dir ∨ ∃ name content, (name, content) ∈ scaffold ∧ c = CWriteFile (Join [dir; name]) content.

(** [aeon init] looks at the directory first and leaves one in use alone; otherwise it
    creates the directory and writes its three templates there, and nothing else anywhere.
    When it reports success each was written, once. *)
Theorem init_writes_its_templates files dir t a :
  files ≡ₚ scaffold → dir ≠ "" → histories (runInit files dir) t a →
  ∃ r t', t = existT (CReadDir dir) r :: t' ∧
    (in_use r = true → t' = [] ∧ a = Err (NotEmpty dir)) ∧
    (∀ x, x ∈ t' → writes_scaffold dir (projT1 x)) ∧
    (a = Ok tt → t' = existT (P := creply) (CMkdirAll dir) None :: written dir files).
Proof.
  intros Hf Hdir%sempty_false. unfold runInit. rewrite Hdir. intros (r & t' & -> & H). exists r, t'. split; [done|].
  assert (Hmk : histories (err ← ask (R := creply) (CMkdirAll dir);
      match err : option string with Some e => mret (Err (OSFailed e)) | None => write_files dir files end) t' a →
    (∀ x, x ∈ t' → writes_scaffold dir (projT1 x)) ∧
    (a = Ok tt → t' = existT (P := creply) (CMkdirAll dir) None :: written dir files)).
  { intros (r1 & t1 & -> & Hw). destruct r1 as [e|].
    - destruct Hw as [-> ->]. split; [|done]. intros x ->%list_elem_of_singleton. by left.
    - apply write_files_histories in Hw as [Hin Hok]. split; [|by intros ->%Hok].
      intros x [->|(name & content & Hn & ->)%Hin]%elem_of_cons; [by left|]. right. exists name, content. by rewrite <- Hf. }
  destruct r as [[|e l]|e]; [split; [done|by apply Hmk]| |split; [done|by apply Hmk]].
  destruct H as [-> ->]. split_and!; [done|by intros x ?%not_elem_of_nil|done].
Qed.
End scaffold.

(** ** Witnesses *)

Module CliWitnesses.
#[local] Existing Instance amd64_runtime.
#[local] Instance one_id : Wire := {|
  json_parse := λ t, Ok (JObject [("$id", JString t)]);
  type_offset := λ _, 0%Z; decode_failure := λ _, "not JSON"; any_of := λ _, ANil; print_any := λ _, "";
  marshal_request := λ _, Ok JNull; bad_url := λ _, None |}.
Definition suite (name : string) (threshold : any) : gmap string any :=
  obj [("kind", AString "EvalSuite"); ("metadata", AMap (obj [("name", AString name); ("version", AString "1")]));
       ("spec", AMap (obj [("dataset", AString "d"); ("thresholds", AMap (obj [("coverage", threshold)]))]))].
(** The schemas refuse nothing but a document without metadata. *)
#[local] Instance lax : Documents := {|
  yaml_Unmarshal := λ t, if String.eqb t "list" then Ok (AList [])
                         else if String.eqb t "whole" then Ok (AMap (suite "whole" (AInt 1)))
                         else Ok (AMap (suite t (AFloat f_zero)));
  json_Marshal := λ m, Ok (as_string (mget m "kind"));
  compiler := list string; NewCompiler := [];
  UnmarshalJSON := λ t, Ok (JString t);
  AddResource := λ c id _, Ok (id :: c);
  schema := string; Compile := λ c id, if bool_decide (id ∈ c) then Ok id else Err "unknown";
  schema_Validate := λ _ _, None;
  Sprint := as_string; print_thresholds := λ _, "map[]" |}.
Definition file (name : string) : PolicySet.DirEntry := {| PolicySet.entry_name := name; PolicySet.entry_is_dir := false |}.
Definition b_yaml : list PolicySet.DirEntry := [file "b.yaml"; file "README.md"; file "a.yml"].
Definition machine (c : ccall) : creply c :=
  match c with
  | CStat _ => Ok true
  | CReadDir d => Ok (if String.eqb d "evals/suites" then b_yaml
                      else if String.eqb d "proto/manifests" then [file "eval_suite.schema.json"] else [])
  | CReadFile p => Ok (if String.eqb p "evals/suites/b.yaml" then "whole" else if String.eqb p "list.yaml" then "list" else "first")
  | CLookPath b => Ok b
  | CMkdirAll _ | CWriteFile _ _ | CExec _ _ _ | CDial _ => None
  | CHistory id => {| events := [{| EventId := 1; EventTime := "t"; EventType := "WorkflowExecutionStarted"; TaskFailed := None |}];
                      stopped := if String.eqb id "gone" then HistoryNotFound else Ended |}
  | CPost _ _ | CGet _ => HttpFailed "no network"
  | CPrint _ => tt
  end.

Example parsed :
  parse_args ["aeon"; "eval"; "run"; "core"; "--trial"; "5"] = RunEvalRun "core" 1 ∧
  parse_args ["aeon"; "eval"; "run"; "core"; "--trials"; "+5"] = RunEvalRun "core" 5 ∧
  parse_args ["aeon"; "replay"; "r"; "--assert-identical"] = RunReplay "r" true ∧
  parse_args ["aeon"; "replay"; "r"; "--assert"] = BadUsage 1 ∧
  parse_args ["aeon"; "rag"; "index"; "docs"; "--corpus"; "--corpus"] = RunRagIndex "docs" "--corpus" ∧
  parse_args ["aeon"; "eval"; "gate"] = BadUsage 2.
Proof. by vm_compute. Qed.
Example validated : answered_by machine (validate ∅ "a.yaml") = Ok () ∧
  answered_by machine (validate ∅ "list.yaml") = Err NotAMapping.
Proof. by vm_compute. Qed.
Example verdicts : answered_by machine (runReplayAssertIdentical ∅ "r") = Ok () ∧
  answered_by machine (runReplayAssertIdentical ∅ "gone") = Ok ().
Proof. by vm_compute. Qed.

Definition listing : list evalSuiteSummary :=
  Eval vm_compute in match answered_by machine (listEvalSuites "evals" "proto") with Ok l => l | Err _ => [] end.
Lemma lists_two : answered_by machine (listEvalSuites "evals" "proto") = Ok listing ∧ es_Name <$> listing = ["first"; "whole"].
Proof. by vm_compute. Qed.
Lemma compiles : answered_by machine (compile_schema "proto" "eval_suite.schema.json") = Ok "first".
Proof. by vm_compute. Qed.
Lemma listed_suites_are_the_valid_files_witness :
  sorted_by by_name listing ∧ ∃ docs, listing ≡ₚ summary_of <$> docs ∧ length docs = 2.
Proof.
  pose proof (listed_suites_are_the_valid_files machine "evals" "proto" b_yaml "first" listing eq_refl compiles (proj1 lists_two))
    as (Hs & docs & Hp & _).
  split; [exact Hs|]. exists docs. split; [exact Hp|].
  apply Permutation_length in Hp. rewrite length_fmap in Hp. by rewrite <- Hp.
Defined.

Definition scaffolded : list {c : ccall & creply c} :=
  existT (P := creply) (CReadDir "new") (Err "no such directory") ::
  existT (P := creply) (CMkdirAll "new") None :: written "new" scaffold.
Lemma init_runs : histories (runInit scaffold "new") scaffolded (Ok tt).
Proof.
  do 2 (eexists; eexists; split; [reflexivity|]). cbn [Program.prog_bind].
  repeat (eexists; eexists; split; [reflexivity|]). by split.
Qed.
Lemma init_writes_its_templates_witness : ∀ x, x ∈ drop 1 scaffolded → writes_scaffold "new" (projT1 x).
Proof.
  pose proof (init_writes_its_templates scaffold "new" scaffolded (Ok tt) (Permutation_refl _) ltac:(discriminate) init_runs)
    as (r & t' & Ht & _ & Hw & _).
  apply (f_equal (drop 1)) in Ht. change (drop 1 (existT (CReadDir "new") r :: t')) with t' in Ht. by rewrite Ht.
Defined.
End CliWitnesses.
