(* ===== verification/Publish.v ===== *)
(** * aeon publish

    runPublish of go/cmd/aeon/dx002.go with its client of the control plane, and
    writeABOM of fnd002.go: a manifest is validated, registered, promoted to Candidate,
    and its bill of materials signed and written beside it. Built on [Cli], [Abom] and
    [Secrets]; the last section puts the client before a server of [HttpServer]. *)

From S2P Require Import Prelude GoValue Sha256 Policy Json Decode Program Vendors Auth Secrets Abom HttpServer Cli.

Local Open Scope string_scope.
Set Default Proof Using "Type*".

(** ** The client of the control plane *)

Record agentRecord := { ag_Name : string; ag_Version : string; ag_Owner : string; ag_Lifecycle : string; ag_Manifest : gomap }.
Definition no_record : agentRecord :=
  {| ag_Name := ""; ag_Version := ""; ag_Owner := ""; ag_Lifecycle := ""; ag_Manifest := None |}.

Inductive cp_error :=
| AlreadyRegistered
| Encoding (msg : string)
| RequestFailed (msg : string)
| ReadingBody (msg : string)
| Returned_ (status : Z) (detail : string)
| DecodingResponse (msg : string).
Inductive publish_error :=
| ManifestInvalid (e : cli_error)
| ReadingManifest (msg : string)
| ManifestParse (e : cli_error)
| NotAnAgent (kind : string)
| RegisteringAgent (e : cp_error)
| FetchingRegistered (name version : string) (e : cp_error)
| Promoting (name version : string) (e : cp_error)
| BuildingABOM (e : BuildError)
| TakingKey (e : TakeError)
| SigningKey (e : KeyError)
| WritingABOM (path msg : string).

Definition resolveControlplaneAddr (env : gmap string string) : string :=
  let addr := getenv env "AEON_CONTROLPLANE_ADDR" in if sempty addr then "localhost:9401" else addr.

(** ** A request without a token *)

Fixpoint before_char (n : nat) (s : string) : string :=
  match s with EmptyString => "" | String c r => if byte_is n c then "" else String c (before_char n r) end.
Fixpoint from_slash (s : string) : string :=
  match s with EmptyString => "" | String c r => if byte_is 47 c then s else from_slash r end.
(** The path of an http URL: after the authority, before the query and the fragment. *)
Definition url_path (url : string) : string :=
  from_slash (trim_prefix (before_char 63 (before_char 35 url)) "http://").
(** A host and port. *)
Definition authority_char (c : Ascii.ascii) : bool := negb (byte_is 47 c || byte_is 63 c || byte_is 35 c).

Lemma before_char_app n a b : str_all (λ c, negb (byte_is n c)) a = true → before_char n (a +:+ b) = a +:+ before_char n b.
Proof.
  induction a as [|c a IH]; [done|]. cbn [str_all]. rewrite andb_true_iff. intros [Hc Ha].
  change (before_char n (String c (a +:+ b)) = String c (a +:+ before_char n b)). cbn [before_char].
  apply negb_true_iff in Hc as ->. by rewrite IH.
Qed.
Lemma from_slash_app a b : str_all (λ c, negb (byte_is 47 c)) a = true → from_slash (a +:+ b) = from_slash b.
Proof.
  induction a as [|c a IH]; [done|]. cbn [str_all]. rewrite andb_true_iff. intros [Hc Ha].
  change (from_slash (String c (a +:+ b)) = from_slash b). cbn [from_slash]. apply negb_true_iff in Hc as ->. by apply IH.
Qed.
Lemma authority_split addr : str_all authority_char addr = true →
  str_all (λ c, negb (byte_is 47 c)) addr = true ∧ str_all (λ c, negb (byte_is 63 c)) addr = true ∧
  str_all (λ c, negb (byte_is 35 c)) addr = true.
Proof.
  induction addr as [|c addr IH]; [done|]. cbn [str_all]. unfold authority_char at 1.
  rewrite !andb_true_iff, !negb_orb, !andb_true_iff. naive_solver.
Qed.
Lemma agents_path addr : str_all authority_char addr = true → url_path (("http://" +:+ addr) +:+ "/agents") = "/agents".
Proof.
  intros (H1 & H2 & H3)%authority_split. unfold url_path. rewrite <- str_app_assoc.
  assert (∀ n, str_all (λ c, negb (byte_is n c)) addr = true → n = 63 ∨ n = 35 →
    before_char n ("http://" +:+ (addr +:+ "/agents")) = "http://" +:+ (addr +:+ "/agents")) as Hb.
  { intros n Hn [-> | ->]; (rewrite before_char_app by done; by rewrite before_char_app by done). }
  rewrite (Hb 35), (Hb 63) by auto. rewrite trim_prefix_app.
  by rewrite from_slash_app.
Qed.

(** What a server answers a request without a token: nothing, or, where its middleware
    refuses, the status 401 with some body. *)
Definition answered_without_token {R} (server : request → served R) (x : {c : ccall & creply c}) : Prop :=
  match x with
  | existT (CPost url _) (HttpAnswered status _) =>
      server {| rq_Method := "POST"; rq_Path := url_path url; rq_Authorization := "" |} = Unauthorized → status = 401%Z
  | _ => True
  end.

Lemma refuses_without_token {R} (mux : Caller → request → R) a server :
  New mux (Some a) = Returned server →
  server {| rq_Method := "POST"; rq_Path := "/agents"; rq_Authorization := "" |} = Unauthorized.
Proof. by intros [= <-]. Qed.

Section publish.
Context {Wire0 : Wire} {Docs : Documents} {Ed : Ed25519}.
(** The texts json.Marshal and json.MarshalIndent write for a value; the files a secret's
    path leads to; what ed25519.GenerateKey yields. *)
Context (marshal_text indent_text : json → string) (files : string → option string) (generated : option private_key).

(** A [map[string]any] decoded into the one that is there. *)
Definition dec_map : decoder gomap := λ cur j,
  match j with
  | JNull => Some None
  | JObject members => Some (Some (foldl (λ m kv, <[kv.1 := any_of kv.2]> m) (items cur) members))
  | _ => None
  end.
Definition dec_record : decoder agentRecord :=
  dec_struct ["name"; "version"; "owner"; "lifecycle"; "manifest"] (λ n,
    match n with
    | "name" => dec_at ag_Name (λ r s, {| ag_Name := s; ag_Version := ag_Version r; ag_Owner := ag_Owner r;
        ag_Lifecycle := ag_Lifecycle r; ag_Manifest := ag_Manifest r |}) dec_string
    | "version" => dec_at ag_Version (λ r s, {| ag_Name := ag_Name r; ag_Version := s; ag_Owner := ag_Owner r;
        ag_Lifecycle := ag_Lifecycle r; ag_Manifest := ag_Manifest r |}) dec_string
    | "owner" => dec_at ag_Owner (λ r s, {| ag_Name := ag_Name r; ag_Version := ag_Version r; ag_Owner := s;
        ag_Lifecycle := ag_Lifecycle r; ag_Manifest := ag_Manifest r |}) dec_string
    | "lifecycle" => dec_at ag_Lifecycle (λ r s, {| ag_Name := ag_Name r; ag_Version := ag_Version r; ag_Owner := ag_Owner r;
        ag_Lifecycle := s; ag_Manifest := ag_Manifest r |}) dec_string
    | _ => dec_at ag_Manifest (λ r m, {| ag_Name := ag_Name r; ag_Version := ag_Version r; ag_Owner := ag_Owner r;
        ag_Lifecycle := ag_Lifecycle r; ag_Manifest := m |}) dec_map
    end).
(** The [error] member of a refusal, when it is a text. *)
Definition dec_refusal : decoder string := dec_struct ["error"] (λ _, dec_string).

Definition decodeAgentRecord (status : Z) (body : result string string) : result cp_error agentRecord :=
  match body with
  | Err e => Err (ReadingBody e)
  | Ok body =>
      if negb (status =? 200)%Z && negb (status =? 201)%Z then
        let said := default "" (decode dec_refusal "" body) in
        Err (Returned_ status (if sempty said then body else said))
      else match decode dec_record no_record body with
           | None => Err (DecodingResponse (decode_failure body))
           | Some rec => Ok rec
           end
  end.
Definition read_record (r : http_reply) : result cp_error agentRecord :=
  match r with HttpFailed e => Err (RequestFailed e) | HttpAnswered status body => decodeAgentRecord status body end.

(** None of the client's requests carries an Authorization header. *)
Definition createAgent (baseURL : string) (manifest : gmap string any) (owner : string) : CM (result cp_error agentRecord) :=
  match json_Marshal (obj [("manifest", AMap manifest); ("owner", AString owner)]) with
  | Err e => mret (Err (Encoding e))
  | Ok body =>
      resp ← ask (R := creply) (CPost (baseURL +:+ "/agents") body);
      mret (match resp : http_reply with
            | HttpAnswered 409 _ => Err AlreadyRegistered
            | r => read_record r
            end)
  end.
Definition getAgent (baseURL name version : string) : CM (result cp_error agentRecord) :=
  resp ← ask (R := creply) (CGet (baseURL +:+ "/agents/" +:+ name +:+ "/" +:+ version));
  mret (read_record (resp : http_reply)).
Definition transitionLifecycle (baseURL name version target : string) (gate : gomap) : CM (result cp_error agentRecord) :=
  let payload := obj (("target", AString target) :: match gate with Some g => [("release_gate", AMap g)] | None => [] end) in
  match json_Marshal payload with
  | Err e => mret (Err (Encoding e))
  | Ok body =>
      resp ← ask (R := creply) (CPost (baseURL +:+ "/agents/" +:+ name +:+ "/" +:+ version +:+ "/transition") body);
      mret (read_record (resp : http_reply))
  end.

(** ** The bill of materials *)

Definition signed_json (s : Signed) : json :=
  JObject [("document", document_json (sg_Document s)); ("signature_algorithm", jstr (Algorithm s));
           ("signature", jstr (Signature s)); ("public_key", jstr (PublicKey s))].
Definition bom_path (manifestPath : string) (doc : Document) : string :=
  Join [Dir manifestPath; ar_Name (doc_Agent doc) +:+ "-" +:+ ar_Version (doc_Agent doc) +:+ ".abom.json"].
(** The signed document, and whether its key is ephemeral; the process loses the seed. *)
Definition sign_manifest (p : process) (manifest : gmap string any) (rawManifest : string)
    : result publish_error (Signed * bool) :=
  match BuildDocument manifest rawManifest with
  | Err e => Err (BuildingABOM e)
  | Ok doc =>
      let taken := (Take p files "AEON_ABOM_SIGNING_KEY").2 in
      match res_err taken with
      | Some e => Err (TakingKey e)
      | None =>
          match LoadOrGenerateSigningKey generated (res_value taken) with
          | Err e => Err (SigningKey e)
          | Ok (priv, ephemeral) => Ok (Sign marshal_text doc priv, ephemeral)
          end
      end
  end.
Definition writeABOM (p : process) (manifestPath : string) (manifest : gmap string any) (rawManifest : string)
    : CM (result publish_error (string * string * bool)) :=
  match sign_manifest p manifest rawManifest with
  | Err e => mret (Err e)
  | Ok (signed, ephemeral) =>
      let abomPath := bom_path manifestPath (sg_Document signed) in
      err ← ask (R := creply) (CWriteFile abomPath (indent_text (signed_json signed)));
      mret (match err : option string with
            | Some e => Err (WritingABOM abomPath e)
            | None => Ok (abomPath, PublicKey signed, ephemeral)
            end)
  end.

(** ** The command *)

(** The record of the control plane: created, or the one that is there; a Draft is
    promoted. *)
Definition register_agent (baseURL name version owner : string) (manifest : gmap string any)
    : CM (result publish_error agentRecord) :=
  created ← createAgent baseURL manifest owner;
  found ← match created : result cp_error agentRecord with
          | Ok rec => mret (Ok rec)
          | Err AlreadyRegistered => on_err (FetchingRegistered name version) (getAgent baseURL name version)
          | Err e => mret (Err (RegisteringAgent e))
          end;
  match found : result publish_error agentRecord with
  | Err e => mret (Err e)
  | Ok rec =>
      if String.eqb (ag_Lifecycle rec) "Draft"
      then on_err (Promoting name version) (transitionLifecycle baseURL name version "Candidate" None)
      else mret (Ok rec)
  end.
Definition record_line (rec : agentRecord) : string :=
  "agent=" +:+ ag_Name rec +:+ "@" +:+ ag_Version rec +:+ " owner=" +:+ ag_Owner rec +:+ " lifecycle=" +:+ ag_Lifecycle rec.

Definition ephemeral_warning : string :=
  "warning: AEON_ABOM_SIGNING_KEY is not set — signed with a freshly generated, ephemeral key; this ABOM's signature will NOT reproduce on a future run".

(** The process is that of [os.Getenv] and package secretref. *)
Definition runPublish (p : process) (manifestPath : string) : CM (result publish_error ()) :=
  and_then (on_err ManifestInvalid (validate (environ p) manifestPath)) (λ _,
  raw ← ask (R := creply) (CReadFile manifestPath);
  match raw : result string string with
  | Err e => mret (Err (ReadingManifest e))
  | Ok raw =>
  match parse_manifest raw with
  | Err e => mret (Err (ManifestParse e))
  | Ok manifest =>
  let kind := as_string (mget manifest "kind") in
  if negb (String.eqb kind "Agent") then mret (Err (NotAnAgent kind))
  else
    let metadata := as_map (mget manifest "metadata") in
    let name := as_string (mget metadata "name") in
    let version := as_string (mget metadata "version") in
    let owner := as_string (mget metadata "owner") in
    let owner := if sempty owner then "unknown" else owner in
    let baseURL := "http://" +:+ resolveControlplaneAddr (environ p) in
    and_then (register_agent baseURL name version owner manifest) (λ rec,
    ask (R := creply) (CPrint (record_line rec));;
    and_then (writeABOM p manifestPath manifest raw) (λ written,
    ask (R := creply) (CPrint ("abom=" +:+ written.1.1 +:+ " public_key=" +:+ written.1.2));;
    (if written.2 then ask (R := creply) (CPrint ephemeral_warning) else mret tt);;
    mret (Ok tt)))
  end end).

(** ** What it writes *)

Definition is_write (c : ccall) : bool := match c with CWriteFile _ _ => true | _ => false end.
(** The files written in a run, with what each write was answered. *)
Definition writes (t : list {c : ccall & creply c}) : list {c : ccall & creply c} := filter (λ x, is_write (projT1 x)) t.
Definition silent {A} (m : CM A) : Prop := within (λ c, is_write c = false) m.

Lemma writes_app t u : writes (t ++ u) = (writes t ++ writes u)%list.
Proof. apply filter_app. Qed.
Lemma silent_writes {A} (m : CM A) t a : silent m → histories m t a → writes t = [].
Proof.
  intros Hs Ht. destruct (writes t) as [|x l] eqn:Hw; [done|]. exfalso.
  assert (x ∈ writes t) as (Hx & Hin)%list_elem_of_filter by (rewrite Hw; left).
  rewrite (Hs (projT1 x)) in Hx; [done|]. by eapply histories_emits.
Qed.
Lemma silent_ask c : is_write c = false → silent (ask (R := creply) c).
Proof. intros Hc. apply within_vis; [done|]. intros r. apply within_ret. Qed.
Lemma silent_bind {A B} (m : CM A) (k : A → CM B) : silent m → (∀ a, silent (k a)) → silent (m ≫= k).
Proof. apply within_bind. Qed.
Lemma silent_ret {A} (a : A) : silent (mret a).
Proof. apply within_ret. Qed.
Lemma silent_and_then {E A B} (m : CM (result E A)) (k : A → CM (result E B)) :
  silent m → (∀ a, silent (k a)) → silent (and_then m k).
Proof. intros Hm Hk. apply silent_bind; [done|]. intros [a|e]; [apply Hk|apply silent_ret]. Qed.
Lemma silent_on_err {E F A} (g : E → F) (m : CM (result E A)) : silent m → silent (on_err g m).
Proof. intros Hm. apply silent_bind; [done|]. intros a. apply silent_ret. Qed.
Create HintDb silence.
Ltac silence := repeat (cbv beta zeta; first
  [ match goal with |- ∀ _, _ => intro end | solve [auto 1 with silence nocore]
  | apply silent_ret | apply silent_ask; done | apply silent_and_then | apply silent_on_err | apply silent_bind
  | match goal with |- silent (match ?x with _ => _ end) => destruct x end ]).

Lemma silent_first_dir l : silent (first_dir l).
Proof. induction l as [|d l IH]; [apply silent_ret|]. cbn [first_dir]. silence; apply IH. Qed.
Lemma silent_resolve env var name : silent (resolve env var name).
Proof. unfold resolve. cbv zeta. destruct (negb _); [apply silent_ret|apply silent_first_dir]. Qed.
Lemma silent_register_files dir c ids l : silent (register_files dir c ids l).
Proof.
  revert c ids. induction l as [|e l IH]; intros c ids; cbn [register_files]; [apply silent_ret|].
  apply silent_and_then; [unfold register_file; silence|intros; apply IH].
Qed.
#[local] Hint Resolve silent_resolve silent_register_files : silence.
Lemma silent_register_dir c dir : silent (registerSchemaDir c dir).
Proof. unfold registerSchemaDir. silence. Qed.
#[local] Hint Resolve silent_register_dir : silence.
Lemma silent_compile dir file : silent (compile_schema dir file).
Proof. unfold compile_schema, asked. silence. Qed.
#[local] Hint Resolve silent_compile : silence.
Lemma silent_validate env path : silent (validate env path).
Proof. unfold validate, resolveProtoDir. silence. Qed.
Lemma silent_register url name version owner manifest : silent (register_agent url name version owner manifest).
Proof. unfold register_agent, createAgent, getAgent, transitionLifecycle. silence. Qed.

Lemma writes_cons c r t : is_write c = false → writes (existT c r :: t) = writes t.
Proof. intros Hc. unfold writes. rewrite filter_cons, decide_False; [done|]. cbn. rewrite Hc. by intros []. Qed.
Lemma writes_write path content r : writes [existT (P := creply) (CWriteFile path content) r] =
  [existT (P := creply) (CWriteFile path content) r].
Proof. done. Qed.
(** The bill of materials of a manifest's bytes, and its one write. *)
Definition bom_write (path : string) (signed : Signed) (err : option string) : {c : ccall & creply c} :=
  existT (P := creply) (CWriteFile (bom_path path (sg_Document signed)) (indent_text (signed_json signed))) err.

Lemma write_history p path manifest raw t a :
  histories (writeABOM p path manifest raw) t a →
  (writes t = [] ∧ ∃ e, a = Err e) ∨
  ∃ signed eph err, sign_manifest p manifest raw = Ok (signed, eph) ∧ writes t = [bom_write path signed err] ∧
    ((∃ w, a = Ok w) ↔ err = None).
Proof.
  unfold writeABOM. destruct (sign_manifest p manifest raw) as [[signed eph]|e].
  - intros (err & t' & -> & -> & ->). right. exists signed, eph, err. split_and!; [done|done|].
    destruct err as [e|]; (split; [intros [w Hw]|intros Hn]); [discriminate Hw|discriminate Hn|done|by eexists].
  - intros [-> ->]. left. eauto.
Qed.

Definition published (p : process) (path : string) (t : list {c : ccall & creply c}) (a : result publish_error ()) : Prop :=
  ∃ raw manifest signed eph err,
    existT (P := creply) (CReadFile path) (Ok raw) ∈ t ∧ parse_manifest raw = Ok manifest ∧
    as_string (mget manifest "kind") = "Agent" ∧ sign_manifest p manifest raw = Ok (signed, eph) ∧
    writes t = [bom_write path signed err] ∧ (a = Ok tt ↔ err = None).

Lemma publish_end_history p path manifest raw rec t a :
  histories (ask (R := creply) (CPrint (record_line rec));;
    and_then (writeABOM p path manifest raw) (λ written,
    ask (R := creply) (CPrint ("abom=" +:+ written.1.1 +:+ " public_key=" +:+ written.1.2));;
    (if written.2 then ask (R := creply) (CPrint ephemeral_warning) else mret tt);; mret (Ok tt))) t a →
  (writes t = [] ∧ a ≠ Ok tt) ∨
  ∃ signed eph err, sign_manifest p manifest raw = Ok (signed, eph) ∧ writes t = [bom_write path signed err] ∧
    (a = Ok tt ↔ err = None).
Proof.
  intros (r & t' & -> & H). rewrite writes_cons by done.
  apply (histories_and_then (writeABOM p path manifest raw)) in H as [(e & Hw & ->)|(w & t1 & t2 & -> & Hw & Hk)].
  - apply write_history in Hw as [[-> _]|(signed & eph & err & Hs & Hwr & Hok)]; [by left|].
    right. exists signed, eph, err. split_and!; [done|done|]. split; [done|]. intros [w Hw]%Hok. done.
  - apply write_history in Hw as [[_ [e Hw]]|(signed & eph & err & Hs & Hwr & Hok)]; [done|].
    right. exists signed, eph, err. rewrite writes_app, Hwr.
    assert (writes t2 = [] ∧ a = Ok tt) as [-> ->].
    { destruct Hk as (r2 & t3 & -> & Hk). rewrite writes_cons by done.
      destruct w.2; [destruct Hk as (r3 & t4 & -> & [-> ->])|destruct Hk as [-> ->]]; done. }
    split_and!; [done|by rewrite app_nil_r|]. split; [|done]. intros _. apply Hok. eauto.
Qed.

Lemma signed_bom_verifies `{!Ed25519Laws} p manifest raw signed eph :
  sign_manifest p manifest raw = Ok (signed, eph) →
  Verify marshal_text signed = Returned (Ok true) ∧ BuildDocument manifest raw = Ok (sg_Document signed).
Proof.
  unfold sign_manifest. destruct (BuildDocument manifest raw) as [doc|]; [|done].
  destruct (res_err _); [done|]. destruct (LoadOrGenerateSigningKey _ _) as [[priv e]|]; [|done].
  intros [= <- <-]. split; [|done]. unfold Sign.
  rewrite (verify_signature marshal_text priv doc) by apply signature_bytes. by rewrite signature_verifies.
Qed.

(** C29. Whatever the control plane and the file system answer, a run of [aeon publish] writes
    one file at most: the bill of materials of the bytes it read of the manifest, an agent's,
    whose signature verifies, beside it under its name and version. It reports success
    exactly when that write succeeded. *)
Theorem one_verifiable_bom_is_written {Laws : Ed25519Laws} p path t a :
  histories (runPublish p path) t a →
  (writes t = [] ∧ a ≠ Ok tt) ∨
  ∃ raw manifest signed err,
    existT (P := creply) (CReadFile path) (Ok raw) ∈ t ∧ parse_manifest raw = Ok manifest ∧
    as_string (mget manifest "kind") = "Agent" ∧ BuildDocument manifest raw = Ok (sg_Document signed) ∧
    Verify marshal_text signed = Returned (Ok true) ∧
    writes t = [bom_write path signed err] ∧ (a = Ok tt ↔ err = None).
Proof.
  unfold runPublish. intros [(e & Hv & ->)|(v & t1 & t2 & -> & Hv & H)]%histories_and_then.
  { left. split; [|done]. eapply silent_writes; [|exact Hv]. apply silent_on_err, silent_validate. }
  apply silent_writes in Hv; [|apply silent_on_err, silent_validate].
  destruct H as (r & t3 & -> & H). rewrite writes_app, Hv, writes_cons by done. cbn [app].
  destruct r as [raw|e]; [|destruct H as [-> ->]; by left].
  cbn [prog_bind] in H. destruct (parse_manifest raw) as [manifest|e] eqn:Hp; [|destruct H as [-> ->]; by left].
  cbv zeta in H. destruct (String.eqb_spec (as_string (mget manifest "kind")) "Agent") as [Hk|]; cbn [negb] in H;
    [|destruct H as [-> ->]; by left].
  apply (histories_and_then (register_agent _ _ _ _ _)) in H as [(e & Hr & ->)|(rec & t4 & t5 & -> & Hr & H)];
    apply silent_writes in Hr; try apply silent_register; [by left|].
  rewrite writes_app, Hr. cbn [app].
  apply publish_end_history in H as [?|(signed & eph & err & Hs & Hw & Hok)]; [by left|]. right.
  apply signed_bom_verifies in Hs as [Hver Hb].
  exists raw, manifest, signed, err. split_and!; try done. apply elem_of_app. right. left.
Qed.

(** *** Publishing again *)

Section again.
Context (f : ∀ c : ccall, creply c).

Lemma register_conflict base name version owner manifest body answer rec :
  json_Marshal (obj [("manifest", AMap manifest); ("owner", AString owner)]) = Ok body →
  f (CPost (base +:+ "/agents") body) = HttpAnswered 409 answer →
  read_record (f (CGet (base +:+ "/agents/" +:+ name +:+ "/" +:+ version))) = Ok rec → ag_Lifecycle rec ≠ "Draft" →
  answered_by f (register_agent base name version owner manifest) = Ok rec.
Proof.
  intros Hbody Hpost Hget Hlife%String.eqb_neq. unfold register_agent, createAgent. rewrite Hbody, answered_by_bind.
  rewrite (answered_by_ask (R := creply) f (CPost _ body)). cbv beta. rewrite Hpost.
  match goal with |- context [answered_by f (mret ?x)] => change (answered_by f (mret x)) with x end. cbv iota.
  rewrite answered_by_bind.
  assert (answered_by f (on_err (FetchingRegistered name version) (getAgent base name version)) = Ok rec) as ->.
  { apply answered_on_err. unfold getAgent. rewrite (answered_by_ask (R := creply) f (CGet _)). exact Hget. }
  cbv iota beta. by rewrite Hlife.
Qed.
Lemma write_answered p path manifest raw signed eph :
  sign_manifest p manifest raw = Ok (signed, eph) →
  f (CWriteFile (bom_path path (sg_Document signed)) (indent_text (signed_json signed))) = None →
  answered_by f (writeABOM p path manifest raw) = Ok (bom_path path (sg_Document signed), PublicKey signed, eph).
Proof.
  intros Hs Hw. unfold writeABOM. rewrite Hs. cbv zeta. rewrite (answered_by_ask (R := creply) f (CWriteFile _ _)).
  cbv beta. by rewrite Hw.
Qed.

(** A manifest edited under a name and version that are registered already is published
    with success: the control plane keeps the manifest it has, whichever that is, and the
    bill of materials signed and written is of the edited file. *)
Theorem republishing_signs_what_is_not_registered p path raw manifest signed eph body answer rec :
  let metadata := as_map (mget manifest "metadata") in
  let owner := as_string (mget metadata "owner") in
  let agents := "http://" +:+ resolveControlplaneAddr (environ p) in
  answered_by f (validate (environ p) path) = Ok tt →
  f (CReadFile path) = Ok raw → parse_manifest raw = Ok manifest → as_string (mget manifest "kind") = "Agent" →
  json_Marshal (obj [("manifest", AMap manifest); ("owner", AString (if sempty owner then "unknown" else owner))]) = Ok body →
  f (CPost (agents +:+ "/agents") body) = HttpAnswered 409 answer →
  read_record (f (CGet (agents +:+ "/agents/" +:+ as_string (mget metadata "name") +:+ "/" +:+
                        as_string (mget metadata "version")))) = Ok rec →
  ag_Lifecycle rec ≠ "Draft" → ag_Manifest rec ≠ Some manifest →
  sign_manifest p manifest raw = Ok (signed, eph) →
  f (CWriteFile (bom_path path (sg_Document signed)) (indent_text (signed_json signed))) = None →
  answered_by f (runPublish p path) = Ok tt ∧ ManifestSHA256 (sg_Document signed) = sha256_hex raw.
Proof.
  cbv zeta. intros Hv Hraw Hp Hk Hbody Hpost Hget Hlife _ Hs Hw. split; cycle 1.
  { unfold sign_manifest in Hs. destruct (BuildDocument manifest raw) as [doc|] eqn:Hb; [|done].
    destruct (res_err _); [done|]. destruct (LoadOrGenerateSigningKey _ _) as [[priv e]|]; [|done].
    injection Hs as <- _. unfold BuildDocument in Hb. destruct (_ || _); [done|]. by injection Hb as <-. }
  unfold runPublish. rewrite answered_by_and_then, (proj2 (answered_on_err f ManifestInvalid _ _) Hv).
  rewrite (answered_by_ask (R := creply) f (CReadFile path)). cbv beta. rewrite Hraw, Hp. cbv zeta.
  rewrite Hk, String.eqb_refl. cbn [negb]. rewrite answered_by_and_then, (register_conflict _ _ _ _ _ _ _ _ Hbody Hpost Hget Hlife).
  rewrite (answered_by_ask (R := creply) f (CPrint _)). cbv beta. rewrite answered_by_and_then, (write_answered _ _ _ _ _ _ Hs Hw).
  by destruct eph.
Qed.
End again.

(** *** Before a server of this repository *)

Lemma create_refused {R} (server : request → served R) base manifest owner t a :
  server {| rq_Method := "POST"; rq_Path := url_path (base +:+ "/agents"); rq_Authorization := "" |} = Unauthorized →
  (∀ x, x ∈ t → answered_without_token server x) →
  histories (createAgent base manifest owner) t a → ∃ e, a = Err e ∧ e ≠ AlreadyRegistered.
Proof.
  intros Hs Ht. unfold createAgent. destruct (json_Marshal _) as [body|e]; [|intros [_ ->]; by eexists].
  intros (r & t' & -> & _ & ->). specialize (Ht _ (list_elem_of_here _ _)). cbn in Ht.
  destruct r as [e|status body']; [by eexists|]. rewrite (Ht Hs).
  destruct body' as [b|e]; cbn; by eexists.
Qed.

(** C30. Every binary of this repository serves its routes behind the callers' tokens and the
    client sends none: whichever control plane of ours [aeon publish] addresses, and
    whoever may call it, it fails and writes nothing. *)
Theorem publish_is_refused_by_every_server {R} (mux : Caller → request → R) callers server p path t a :
  New mux (Some callers) = Returned server →
  str_all authority_char (resolveControlplaneAddr (environ p)) = true →
  histories (runPublish p path) t a → (∀ x, x ∈ t → answered_without_token server x) →
  writes t = [] ∧ ∃ e, a = Err e ∧ ∀ path' msg, e ≠ WritingABOM path' msg.
Proof.
  intros Hnew Haddr. unfold runPublish. intros [(e & Hv & ->)|(v & t1 & t2 & -> & Hv & H)]%histories_and_then Ht.
  { apply silent_writes in Hv as Hw; [|apply silent_on_err, silent_validate]. split; [done|]. exists e. split; [done|].
    apply histories_bind in Hv as ([]&?&?&_&_&_&[=->]). done. }
  apply silent_writes in Hv; [|apply silent_on_err, silent_validate].
  destruct H as (r & t3 & -> & H). rewrite writes_app, Hv, writes_cons by done. cbn [app].
  destruct r as [raw|e]; [|destruct H as [-> ->]; by eauto].
  cbn [prog_bind] in H. destruct (parse_manifest raw) as [manifest|e] eqn:Hp; [|destruct H as [-> ->]; by eauto].
  cbv zeta in H. destruct (negb _); [destruct H as [-> ->]; by eauto|].
  apply (histories_and_then (register_agent _ _ _ _ _)) in H as [(e & Hr & ->)|(rec & t4 & t5 & -> & Hr & H)].
  - apply silent_writes in Hr as Hw; [|apply silent_register]. split; [done|]. exists e. split; [done|].
    unfold register_agent in Hr. apply histories_bind in Hr as (c & u1 & u2 & -> & Hc & Hr).
    eapply create_refused in Hc as (ce & -> & Hne).
    + apply histories_bind in Hr as (found & u3 & u4 & -> & Hf & Hr).
      destruct ce; try done; destruct Hf as [-> ->]; destruct Hr as [-> [= ->]]; done.
    + rewrite agents_path by done. by eapply refuses_without_token.
    + intros x Hx. apply Ht. rewrite elem_of_app, elem_of_cons, elem_of_app. tauto.
  - exfalso. unfold register_agent in Hr. apply histories_bind in Hr as (c & u1 & u2 & -> & Hc & Hr).
    eapply create_refused in Hc as (ce & -> & Hne).
    + apply histories_bind in Hr as (found & u3 & u4 & -> & Hf & Hr).
      destruct ce; try done; destruct Hf as [-> ->]; destruct Hr as [-> [=]].
    + rewrite agents_path by done. by eapply refuses_without_token.
    + intros x Hx. apply Ht. rewrite elem_of_app, elem_of_cons, !elem_of_app. tauto.
Qed.
End publish.

(** ** Witnesses *)

Module PublishWitnesses.
Import AbomWitnesses.
#[local] Instance registry_wire : Wire := {|
  json_parse := λ t, Ok (JObject (if String.eqb t "record" then [("lifecycle", JString "Candidate"); ("manifest", JNull)]
                                  else [("$id", JString t)]));
  type_offset := λ _, 0%Z; decode_failure := λ _, "not JSON"; any_of := λ _, ANil; print_any := λ _, "";
  marshal_request := λ _, Ok JNull; bad_url := λ _, None |}.
Definition agent : gmap string any := <["kind" := AString "Agent"]> (AbomWitnesses.manifest "ana").
#[local] Instance agent_documents : Documents := {|
  yaml_Unmarshal := λ _, Ok (AMap agent);
  json_Marshal := λ m, Ok (as_string (mget m "owner"));
  compiler := list string; NewCompiler := [];
  UnmarshalJSON := λ t, Ok (JString t);
  AddResource := λ c id _, Ok (id :: c);
  schema := string; Compile := λ c id, Ok id;
  schema_Validate := λ _ _, None;
  Sprint := as_string; print_thresholds := λ _, "map[]" |}.
Definition no_files (_ : string) : option string := None.
Definition shell : process := boot ∅.
(** A control plane that has the version, or one that asks for a token. *)
Definition machine (status : Z) (c : ccall) : creply c :=
  match c with
  | CStat _ => Ok true
  | CReadDir d => Ok (if String.eqb d "proto/manifests" then [CliWitnesses.file "agent_manifest.schema.json"] else [])
  | CReadFile p => Ok "kind: Agent"
  | CLookPath b => Ok b
  | CMkdirAll _ | CWriteFile _ _ | CExec _ _ _ | CDial _ => None
  | CHistory id => {| events := []; stopped := Ended |}
  | CPost _ _ => HttpAnswered status (Ok "refused")
  | CGet _ => HttpAnswered 200 (Ok "record")
  | CPrint _ => tt
  end.
Definition seven : option (@private_key toy_ed25519) := Some 7.
Definition publish : CM (result publish_error ()) := runPublish plain_text plain_text no_files seven shell "m/agent.yaml".
Definition answering (status : Z) (_ : ()) (c : ccall) : () * creply c := (tt, machine status c).
Definition trace_of (status : Z) : list {c : ccall & creply c} := (run_log (answering status) tt publish).1.2.
Definition outcome_of (status : Z) : result publish_error () := (run_log (answering status) tt publish).2.
Lemma publish_history status : histories publish (trace_of status) (outcome_of status).
Proof. apply run_log_histories. Qed.
Example outcomes : outcome_of 409 = Ok tt ∧ outcome_of 401 = Err (RegisteringAgent (Returned_ 401 "refused")) ∧
  length (writes (trace_of 409)) = 1 ∧ length (writes (trace_of 401)) = 0.
Proof. by vm_compute. Qed.

Lemma one_verifiable_bom_is_written_witness :
  ∃ raw signed err, existT (P := creply) (CReadFile "m/agent.yaml") (Ok raw) ∈ trace_of 409 ∧
    Verify plain_text signed = Returned (Ok true) ∧ writes (trace_of 409) = [bom_write plain_text "m/agent.yaml" signed err].
Proof.
  destruct (one_verifiable_bom_is_written (Wire0 := registry_wire) (Docs := agent_documents) plain_text plain_text no_files seven shell "m/agent.yaml" _ _ (publish_history 409))
    as [[_ H]|(raw & m & signed & err & H1 & _ & _ & _ & H2 & H3 & _)].
  - exfalso. apply H. by vm_compute.
  - by exists raw, signed, err.
Defined.

Lemma validates : answered_by (machine 409) (validate (environ shell) "m/agent.yaml") = Ok tt.
Proof. by vm_compute. Qed.
Definition of_file : Signed := Sign plain_text (built "ana") (7 : @private_key toy_ed25519).
Lemma signs : sign_manifest plain_text no_files seven shell agent "kind: Agent" = Ok (of_file, true).
Proof. by vm_compute. Qed.
Lemma fetched : read_record (machine 409 (CGet "")) =
  Ok {| ag_Name := ""; ag_Version := ""; ag_Owner := ""; ag_Lifecycle := "Candidate"; ag_Manifest := None |}.
Proof. by vm_compute. Qed.
Lemma republishing_signs_what_is_not_registered_witness :
  answered_by (machine 409) publish = Ok tt ∧ ManifestSHA256 (sg_Document of_file) = sha256_hex "kind: Agent".
Proof.
  exact (republishing_signs_what_is_not_registered (Wire0 := registry_wire) (Docs := agent_documents) plain_text plain_text no_files seven (machine 409) shell "m/agent.yaml"
    "kind: Agent" agent of_file true "ana" (Ok "refused") _ validates eq_refl eq_refl eq_refl eq_refl eq_refl fetched
    ltac:(discriminate) ltac:(discriminate) signs eq_refl).
Defined.

Lemma refused_trace server : New HttpServerWitnesses.show (Some AuthWitnesses.toy_token_auth) = Returned server →
  ∀ x, x ∈ trace_of 401 → answered_without_token server x.
Proof.
  intros _. apply Forall_forall. replace (trace_of 401) with (rev (rev (trace_of 401))) by apply rev_involutive.
  vm_compute. repeat constructor.
Qed.
Lemma publish_is_refused_by_every_server_witness : writes (trace_of 401) = [].
Proof.
  eapply (publish_is_refused_by_every_server (Wire0 := registry_wire) (Docs := agent_documents) plain_text plain_text no_files seven HttpServerWitnesses.show
    AuthWitnesses.toy_token_auth _ shell "m/agent.yaml" (trace_of 401) (outcome_of 401) eq_refl eq_refl (publish_history 401)).
  by apply refused_trace.
Defined.
End PublishWitnesses.
